(* ===== verification/_CoqProject ===== *)
-Q . S2P
Prelude.v
PyText.v
Json.v
JsonFacts.v
AsciiRuntime.v
Digest.v
Effects.v
GeneratedTests.v
GeneratedTestsFacts.v
TextFolding.v
Ordering.v
Url.v
TargetRegistry.v
Samples.v
GeneratedTestsSpec.v
TargetRegistrySpec.v
ExecutionPlans.v
Database.v
DatabaseFacts.v
ExecutionApprovals.v
ExecutionJobs.v
SystemSamples.v
RestrictedExecution.v
RestrictedExecutionFacts.v
ExecutorSamples.v
RestrictedExecutionSpec.v
Redaction.v
JsonPointer.v
ExecutionResults.v
ExecutionSystem.v
ExecutionSystemSpec.v
ExecutionStoreSpec.v
ExecutionResultsSpec.v
ExecutionWorker.v
WorkerEvidence.v
ExecutorLiveness.v
ExecutionWorkerSpec.v
Decimal.v
SpendControl.v
JobTables.v
ParserJobClaims.v
IndexingJobClaims.v
Leases.v
JobQueues.v
JobQueuesSpec.v
Indexing.v
ChunkingSpec.v
IndexingSpec.v
DocumentTables.v
IndexingStore.v
IndexingStoreSpec.v
IndexingWorker.v
Regex.v
MarkdownParser.v
Sessions.v
ParserPromotion.v
ParserRuntime.v
ParserPromotionWorker.v
PipelineSpec.v
Findings.v
Traceability.v
Retrieval.v
Fusion.v
RetrievalSpec.v
Citations.v
EvidenceSpec.v
TestRevisions.v
TestNormalization.v
RequirementsAnalysis.v
AnalysisSpec.v
TestGeneration.v
FindingFeedback.v
LexicalRetrieval.v
OpenApiParser.v
OpenApiFacts.v
OpenApiConsistency.v
Auth.v
Authorization.v
