(* ===== verification/Prelude.v ===== *)
(** * AI QA copilot: a verification library

    This library models the server-side core of the AI QA copilot, the Python
    package [src/apps/api/src/ai_qa_copilot_api/], and proves what makes it
    correct.  File names below without a directory are files of that package.

    ** The program

    The copilot turns requirement documents into findings and proposed API
    tests, and executes a proposed test only under an owner's approval.
    - A generated test case is data: an untrusted JSON payload becomes a
      [GeneratedTestCaseV1] or is refused ([generated_tests.py]).
    - A test case and a registered target make an immutable plan bound by a
      SHA-256 hash ([target_registry.py], [execution_plans.py]).
    - An owner approves the plan; the approval authorises one job, and the
      worker's claim of that job consumes the approval in one transaction
      ([execution_approvals.py], [execution_jobs.py]).
    - The restricted executor checks everything again, resolves the target
      twice, sends at most one request and redacts what it keeps
      ([restricted_execution.py]); the worker stores the outcome as immutable
      evidence ([execution_worker.py], [execution_results.py]).
    - Uploaded documents are parsed and indexed by workers that hold jobs
      under a lease ([parser_queue.py], [parser_job_claims.py],
      [indexing_job_claims.py], [claim_durations.py]).  The parser's worker
      runs in an isolated runtime ([parser_worker.py]), reads a quarantined
      document under its lease, turns Markdown or text into requirements
      ([markdown_parser.py]) and publishes them in one transaction
      ([parser_evidence_promotion.py], [parser_promotion_worker.py]); the
      indexing worker chunks the published text and embeds each distinct
      chunk once ([indexing.py], [indexing_worker.py]).
    - Indexed chunks are retrieved by text and by embedding, the two rankings
      are fused and every retrieval leaves a trace ([hybrid_retrieval.py]);
      the candidates that a trace selected can be cited ([citations.py]), and
      findings and tests are linked to what they rest on ([findings.py],
      [traceability.py]).  Ranking by text alone is [lexical_retrieval.py].
    - Rules read the cited passages and find gaps, vague terms and
      contradictions ([requirements_analysis.py]); an owner gives feedback on
      a finding ([finding_feedback.py]); supported findings become grounded
      tests ([test_generation.py]), which an owner revises
      ([test_revisions.py]) and of which near-duplicates are grouped
      ([test_normalization.py]).
    - An OpenAPI document is parsed fail-closed ([openapi_parser.py]), observed
      as addressable facts that can be compared ([openapi_facts.py]), and held
      against cited expectations ([openapi_consistency.py]).
    - Paid model calls go through one controller with hard limits and a
      ledger ([evaluation_spend_control.py]).
    - A request acts for the owner whose access token it presents
      ([auth.py]), on one exact resource of one project
      ([authorization.py]), and every such decision is audited before it
      takes effect ([audit.py]).

    ** Files

    Shared layers:
    - [Prelude]: exceptions and the [result] monad, tactics, generic lemmas;
      [PyText]: Python text; [Json], [JsonFacts]: [json.dumps] and
      [json.loads]; [AsciiRuntime]: a concrete runtime; [Digest]: hashes and
      uuids; [Url]: [urllib.parse]; [Decimal]: [decimal]; [Effects]: the
      state-and-exception monad [io]; [TextFolding]: case folding and
      normalisation of text; [Ordering]: sorting by texts.
    Components.  A file holds the model of a component and, under a heading of
    its own, its properties; where these are large, or rest on what is built
    on the model, they have files that follow it:
    - [GeneratedTests] ([generated_tests.py]): [validate_generated_test_case]
      and [as_payload]; [GeneratedTestsFacts]; [GeneratedTestsSpec]: the
      contract, and cases under canonical JSON.
    - [TargetRegistry] ([target_registry.py]): origin parsing, the registry and
      [validate_registered_target] over the class [AddressResolver];
      [TargetRegistrySpec].
    - [ExecutionPlans] ([execution_plans.py]): [build_execution_plan],
      [validate_execution_plan] and the review payload.
    - [Database] ([documents.py]): the three execution tables, their
      constraints and statements; [DatabaseFacts].
    - [ExecutionApprovals], [ExecutionJobs], [ExecutionResults]: the three
      repositories (the files of the same names), every operation with its
      transaction; [ExecutionStoreSpec], [ExecutionResultsSpec].
    - [ExecutionSystem]: the repositories together, under any interleaving of
      sessions, and a small program logic for it; [ExecutionSystemSpec].
    - [RestrictedExecution] ([restricted_execution.py]): one execution, over
      the class [ExecutionEnvironment]; [RestrictedExecutionFacts],
      [RestrictedExecutionSpec], [Redaction], [JsonPointer],
      [ExecutorLiveness].
    - [ExecutionWorker] ([execution_worker.py]): [run_once];
      [WorkerEvidence], [ExecutionWorkerSpec].
    - [SpendControl] ([evaluation_spend_control.py]).
    - [JobTables], [ParserJobClaims], [IndexingJobClaims]: the document and
      job tables and the two queues over them; [Leases] is the abstract queue
      that both refine, [JobQueues] the system of sessions and
      [JobQueuesSpec] the properties.
    - [Indexing] ([indexing.py]): chunking, the service over the classes
      [ChunkEmbeddingStore] and [EmbeddingAdapter], and the in-memory store;
      [ChunkingSpec], [IndexingSpec].
    - [DocumentTables] ([documents.py]): the tables of versions, locations,
      sections, chunks and embeddings; [IndexingStore] ([indexing.py]): the
      SQL store over them, [IndexingStoreSpec] its properties;
      [IndexingWorker] ([indexing_worker.py]).
    - [Regex]: regular expressions with Python's search order;
      [MarkdownParser] ([markdown_parser.py]).
    - [Sessions]: transactions of several statements next to other sessions,
      and the changes that only add rows; [ParserPromotion]
      ([parser_evidence_promotion.py]); [ParserRuntime] ([parser_worker.py]);
      [ParserPromotionWorker] ([parser_promotion_worker.py]); [PipelineSpec]:
      promotion and indexing together.
    - [Retrieval] ([hybrid_retrieval.py]): the service and its SQL store over
      the class [SearchEngine]; [Fusion] describes what fusing gives,
      [RetrievalSpec] the service.
    - [Citations] ([citations.py]): the repository; [EvidenceSpec]: retrieval
      and citation together.
    - [Findings] ([findings.py]): the contract of findings; [Traceability]
      ([traceability.py]).
    - [TestRevisions] ([test_revisions.py]); [TestNormalization]
      ([test_normalization.py]).
    - [RequirementsAnalysis] ([requirements_analysis.py]): the rules, the
      repository and the service; [AnalysisSpec]: one analysis, and what its
      store gives back and takes again.
    - [TestGeneration] ([test_generation.py]); [FindingFeedback]
      ([finding_feedback.py]); [LexicalRetrieval] ([lexical_retrieval.py]).
    - [OpenApiParser] ([openapi_parser.py]) over the class [YamlLibrary];
      [OpenApiFacts] ([openapi_facts.py]); [OpenApiConsistency]
      ([openapi_consistency.py]).
    - [Auth] ([auth.py]) over the class [JwtLibrary]; [Authorization]: the
      audit events ([audit.py]) and the policy ([authorization.py]).
    [Samples], [SystemSamples] and [ExecutorSamples] hold the concrete inputs
    that the witnesses use.

    ** How the code is modelled

    A function that may raise is a function into [result]; a message is kept
    where the code gives one.  Code with state is a computation in [io] that
    returns or raises together with the state it leaves.  A Python [str] is a
    list of code points, an [int] is [Z], a float is its binary64 value, a
    [dict] is an association list in insertion order, a uuid is its 128-bit
    number and a timestamp is an instant in microseconds.  Where text of
    unknown origin is decoded (the body of a response, an OpenAPI document),
    [json.loads] also raises what the interpreter's limits make it raise
    ([Json.decoder_limit]).

    A table is a finite map from keys to rows; a statement is atomic, checks
    the table's constraints, and raises [IntegrityError] (changing nothing)
    when one is violated; a transaction that raises is rolled back.  What an
    operation reads from outside (clock, fresh identifiers, whether the
    database fails) is an argument.  Concurrency is explicit: an operation of
    several statements takes the changes that other sessions commit between
    them, and a system of sessions is a tree of calls whose inner nodes carry
    the calls of others ([ExecutionSystem.call], [JobQueues.queue_call]).

    Code that is not in the repository is a parameter: the Unicode tables and
    float text of the interpreter and whether its stack suffices to decode a
    text ([PyRuntime], with [PyRuntimeLaws] on ASCII text), the [ipaddress] parser and the netloc check of [urlsplit]
    ([NetRuntime]), the resolver, the transport and clock of the executor, the
    provider callbacks of a paid call, the embedding adapter, the quarantine
    storage, the case tables of [re] and [str.upper] ([TextCase]), case
    folding and normalisation ([TextFolding]), the tokens and the node graph
    of a YAML text ([YamlLibrary]), the token library ([JwtLibrary]), the
    audit sink, and the database's text ranking and vector
    distance ([SearchEngine]).

    ** What the theorems show

    - Authorisation: through any interleaving an approval is consumed at most
      once, a job moves only along its lifecycle, final rows are final, the
      tables keep their invariant; a worker's claim returns exactly what it
      leaves in the tables.
    - Restricted execution: a request is sent only after every check and to a
      validated public address of the registered origin; one at most;
      SUCCEEDED means that the answer meets every assertion and limit;
      evidence is redacted at every depth and nowhere else; the executor
      returns, unless a limit of the decoder is hit; JSON pointers agree with a reference definition.
    - Composition: a claimed job ends with its evidence stored, and which
      steps strand a job when they raise.
    - Retrieval: fusing gives every chunk of either ranking once, with its
      places, in the order of its score, and a chunk with better places comes
      first; what is retrieved are chunks of the project that pass the
      filters, and the trace holds every candidate.
    - Citations: next to other sessions every citation stays grounded in a
      selected candidate of its trace and project, a batch gives one citation
      for each chunk asked for, and every chunk that a retrieval returned can
      be cited and shows the retrieved text.
    - Contracts: accepted payloads are well formed and well-formed cases are
      accepted (round trip), requests stay on their origin, every well-formed
      case has a plan, a plan hash binds all that is executed unless SHA-256
      collides, approved plans read back unchanged; an accepted finding cites
      evidence or says that there is none.
    - Queues: both job tables refine one abstract lease queue, whose leases
      are exclusive and end once; claims take the oldest job.
    - Spending: charges stay within both limits, the ledger accounts for every
      charge, failures latch, the token estimate bounds real tokenisers.
    - Indexing: an indexed version has all its chunks attached to embeddings
      of their own text, each missing text is embedded once, indexing again
      changes nothing; what chunks contain and how long they can be; a job
      is accepted only when its version is indexed, whatever fails.
    - Parsing: what a heading is, against a description without backtracking;
      the parsed requirements are those of the lines; the runtime checks
      accept exactly the isolated runtimes.
    - Publishing: a promotion is all or nothing next to other sessions, what
      it publishes are the parsed requirements of bytes with the recorded
      digest, a turn leaves what it logs, and the chunks of a published
      document are cut from the parsed texts.
    - Traceability: a matrix holds exactly the links between sources and test
      cases, whatever their order; refreshing keeps every link and marks
      stale exactly those whose source is gone or revised.
    - Analysis: next to other sessions an analysis stores findings that rest on
      the cited passages of its project, or leaves nothing; a stored run reads
      back as it was returned, and the same findings cannot be stored twice.
    - Tests from findings: every supported finding becomes a test that is
      linked to it; feedback is recorded only for findings of the owner's
      project and is then listed; a revision keeps the history of its test;
      grouping duplicates agrees with a definition by equal keys.
    - Contracts of APIs: whatever the bytes, the parser accepts bounded data
      whose references stay in the document, or refuses, or an exception of
      the YAML library or a limit of the decoder leaves it; the pointer of
      every fact resolves to what it describes; a difference is a patch; the
      mismatches are exactly the expectations that no fact meets.
    - Authority: an owner is resolved exactly from a token of the configured
      issuer, client and subject, or by the bypass of a local deployment;
      every decision leaves the one event that says it, what cannot be
      audited is not decided, and the owner can work.

    ** Fuel and bounds

    The JSON parser runs with two units of fuel per character, proved enough
    for every text ([JsonFacts.parse_value_fuel]); the digit loops of [Decimal]
    and [Json] with as many steps as the number has bits, and the split of a
    message into blocks with as many as it has bytes, each an upper bound of
    its steps.  [Decimal] rounds to 28 digits as the default context does.
    SHA-256 follows FIPS 180-4 on 32-bit words; it is executable, and no
    theorem assumes that it has no collisions.

    ** Not modelled

    - The interpreter's limits on recursion and on the digits of an integer
      text where the code reads or prints its own JSON (they are modelled for
      [claim_durations.py], the executor and the OpenAPI parser, which they
      reach from outside), memory, and the range of [datetime].
    - The database below its statements: the lengths of text columns, how one
      UPDATE visits its rows while others commit, and connection handling;
      a failure is an argument that says which statement raises.
    - The JSON text of a ledger line and the rounded ratio in it.
    - What the log line of an audit event looks like ([audit.py]).
    - The other parts of the package: HTTP routing ([main.py] and the request
      dependencies of [auth.py]), projects, process entry points, sockets and
      TLS, object storage, the PDF parser and the retrieval benchmark, model
      gateways, the evaluation programme, quality reports and the guest demo.
      They are listed in the manifest with the reason. *)
From stdpp Require Export base tactics list option strings gmap sorting.
From Stdlib Require Export ZArith Lia.

#[global] Open Scope Z_scope.

(** ** Fallible computations

    A Python function that may raise is a function into [result]: [Ok] is a
    normal return and [Raise] carries the exception that leaves the function.
    [exn_class] lists the exception classes the modelled code raises or
    catches; [exn_msg] is the text given to the constructor. *)

(** The boundaries of [target_registry.TargetValidationBoundary]. *)
Inductive TargetValidationBoundary :=
  | UNKNOWN_TARGET_ID | DUPLICATE_TARGET_ID | EMPTY_REGISTRY | MALFORMED_URL
  | HTTPS_REQUIRED | USERINFO_FORBIDDEN | NONSTANDARD_PORT | PATH_FORBIDDEN
  | QUERY_OR_FRAGMENT_FORBIDDEN | REDIRECTS_ENABLED | METADATA_TARGET
  | LITERAL_IP | ALTERNATE_IP_NOTATION | EMPTY_RESOLVER_ANSWER
  | INVALID_RESOLVER_ANSWER | RESTRICTED_RESOLVER_ANSWER | DNS_REBINDING.

Inductive exn_class :=
  (* built in, and from the libraries the code catches *)
  | ValueError | TypeError | KeyError | IndexError | OverflowError | TimeoutError | RecursionError | OtherException
  | JSONDecodeError | UnicodeDecodeError | UnicodeEncodeError
  | SQLAlchemyError | IntegrityError | YAMLError
  (* declared by the repository *)
  | TargetValidationError (boundary : TargetValidationBoundary)
  | GeneratedTestCaseValidationError
  | ExecutionPlanRejected
  | ExecutionApprovalUnavailable | ExecutionApprovalRejected
  | ExecutionApprovalConflict
  | ExecutionJobQueueUnavailable | ExecutionJobRejected
  | ExecutionResultUnavailable | ExecutionResultRejected
  | ExecutionWorkerInvariantError
  | SpendControlRejected | OSError
  | ParserJobQueueUnavailable | ParserJobClaimRejected
  | IndexingJobUnavailable | IndexingJobClaimRejected
  | ClaimDurationConfigurationError
  | IndexingUnavailable | EmbeddingProtocolError
  | DocumentParseRejected | ParserEvidenceUnavailable | DocumentIntakeUnavailable
  | ParserWorkerConfigurationError
  | RequirementFindingValidationError
  | TraceabilityRejected | CitationUnavailable | CitationValidationError | HybridRetrievalUnavailable
  | LexicalRetrievalUnavailable
  | RequirementAnalysisUnavailable
  | FindingFeedbackUnavailable | FindingFeedbackNotFound | FindingFeedbackValidationError
  | TestGenerationEligibilityError | TestGenerationUnavailable | TestNormalizationError
  | TestRevisionRejected
  | OpenApiParseRejected | OpenApiFactExtractionRejected | OpenApiConsistencyRejected
  | AuthConfigurationError | InvalidCredentialsError | AuthorizationAuditUnavailable
  | ExecutionEvidenceViewRejected | ExecutionFailureAnalysisRejected | ProjectRepositoryUnavailable.

Record exn := Exn { exn_cls : exn_class; exn_msg : string }.

#[export] Instance boundary_eq_dec : EqDecision TargetValidationBoundary.
Proof. solve_decision. Defined.
#[export] Instance exn_class_eq_dec : EqDecision exn_class.
Proof. solve_decision. Defined.
#[export] Instance exn_eq_dec : EqDecision exn.
Proof. solve_decision. Defined.

(** [isinstance(error, ValueError)]: the classes declared under [ValueError]. *)
Definition is_ValueError (c : exn_class) : bool :=
  match c with
  | ValueError | JSONDecodeError | UnicodeDecodeError | UnicodeEncodeError
  | TargetValidationError _
  | GeneratedTestCaseValidationError | ExecutionPlanRejected
  | ExecutionApprovalRejected | ExecutionApprovalConflict
  | ExecutionJobRejected | ExecutionResultRejected | SpendControlRejected
  | ClaimDurationConfigurationError | EmbeddingProtocolError | DocumentParseRejected
  | TraceabilityRejected | CitationValidationError | RequirementFindingValidationError
  | FindingFeedbackNotFound | FindingFeedbackValidationError
  | TestGenerationEligibilityError | TestNormalizationError | TestRevisionRejected
  | OpenApiParseRejected | OpenApiFactExtractionRejected | OpenApiConsistencyRejected
  | ExecutionEvidenceViewRejected | ExecutionFailureAnalysisRejected => true
  | _ => false
  end.

(** [isinstance(error, SQLAlchemyError)]. *)
Definition is_SQLAlchemyError (c : exn_class) : bool :=
  match c with SQLAlchemyError | IntegrityError => true | _ => false end.

Inductive result (A : Type) :=
  | Ok (a : A)
  | Raise (e : exn).
Arguments Ok {A} _.
Arguments Raise {A} _.

#[export] Instance result_eq_dec {A} `{EqDecision A} : EqDecision (result A).
Proof. solve_decision. Defined.

#[export] Instance result_ret : MRet result := fun A a => Ok a.
#[export] Instance result_bind : MBind result :=
  fun A B f m => match m with Ok a => f a | Raise e => Raise e end.
#[export] Instance result_fmap : FMap result :=
  fun A B f m => match m with Ok a => Ok (f a) | Raise e => Raise e end.

(** [raise C(msg)] *)
Definition raise {A} (c : exn_class) (msg : string) : result A :=
  Raise (Exn c msg).

(** [if cond: raise C(msg)] as a statement. *)
Definition raise_if (cond : bool) (c : exn_class) (msg : string) : result unit :=
  if cond then raise c msg else Ok tt.

(** [try: m except <handles> as error: h(error)] *)
Definition try_except {A} (m : result A) (handles : exn_class -> bool)
    (h : exn -> result A) : result A :=
  match m with
  | Ok a => Ok a
  | Raise e => if handles (exn_cls e) then h e else Raise e
  end.

(** A lookup that raises [e] when it finds nothing. *)
Definition or_raise {A} (o : option A) (e : exn) : result A :=
  match o with Some a => Ok a | None => Raise e end.

Definition is_ok {A} (m : result A) : bool :=
  match m with Ok _ => true | Raise _ => false end.

Section loops.
Context {A B : Type} (f : A -> result B).

(** A list comprehension whose element expression may raise. *)
Fixpoint try_map (l : list A) : result (list B) :=
  match l with
  | [] => Ok []
  | x :: l => y ← f x; ys ← try_map l; Ok (y :: ys)
  end.
End loops.

Section checks.
Context {A : Type} (f : A -> result unit).

(** A [for] loop that only checks its elements. *)
Fixpoint try_iter (l : list A) : result unit :=
  match l with
  | [] => Ok tt
  | x :: l => f x ;; try_iter l
  end.
End checks.

(** ** Inversion of successful computations *)

Create HintDb py discriminated.

Section result_lemmas.
Context {A B : Type}.
Implicit Types (m : result A).

Lemma bind_Ok (f : A -> result B) m b :
  m ≫= f = Ok b <-> exists a, m = Ok a /\ f a = Ok b.
Proof. destruct m; naive_solver. Qed.

Lemma fmap_Ok (f : A -> B) m b :
  f <$> m = Ok b <-> exists a, m = Ok a /\ b = f a.
Proof. destruct m; naive_solver. Qed.

Lemma raise_if_Ok c k msg x :
  raise_if c k msg = Ok x <-> c = false.
Proof. destruct c, x; cbv; intuition congruence. Qed.

Lemma try_except_Ok m h k a :
  try_except m h k = Ok a <->
  m = Ok a \/ exists e, m = Raise e /\ h (exn_cls e) = true /\ k e = Ok a.
Proof.
  destruct m as [b|e]; simpl.
  - split; [by left|]. by intros [?|(e & [=] & _)].
  - destruct (h (exn_cls e)) eqn:E.
    + split; [eauto|]. by intros [[=]|(? & [= <-] & _ & ?)].
    + split; [done|]. intros [[=]|(? & [= <-] & ? & _)]. congruence.
Qed.

Lemma or_raise_Ok (o : option A) e a : or_raise o e = Ok a <-> o = Some a.
Proof. destruct o; simpl; split; congruence. Qed.
End result_lemmas.

#[export] Instance Ok_inj {A} : Inj (=) (=) (@Ok A).
Proof. by intros x y [=]. Qed.

Lemma bind_ok {A B} (f : A -> result B) a : Ok a ≫= f = f a.
Proof. done. Qed.

Lemma try_map_Ok {A B} (f : A -> result B) l ys :
  try_map f l = Ok ys <-> Forall2 (fun x y => f x = Ok y) l ys.
Proof.
  revert ys; induction l as [|x l IH]; intros ys; simpl.
  - split; [intros [= <-]; constructor | by inversion 1].
  - rewrite bind_Ok; setoid_rewrite bind_Ok. split.
    + intros (y & Hy & zs & Hzs & [= <-]). constructor; [done | by apply IH].
    + intros Hf. apply Forall2_cons_inv_l in Hf as (y & zs & Hy & Hzs & ->).
      apply IH in Hzs. eauto.
Qed.

Lemma try_map_id {A B} (f : A -> result B) (g : B -> A) l :
  (forall b, b ∈ l -> f (g b) = Ok b) -> try_map f (g <$> l) = Ok l.
Proof.
  intros H. apply try_map_Ok. apply Forall2_fmap_l, Forall_Forall2_diag, Forall_forall.
  intros b Hb. by apply H.
Qed.

Lemma try_iter_Ok {A} (f : A -> result unit) l :
  try_iter f l = Ok tt <-> Forall (fun x => f x = Ok tt) l.
Proof.
  induction l as [|x l IH]; simpl; [by split|].
  rewrite bind_Ok, Forall_cons, <- IH.
  split; [intros ([] & ? & ?) | intros []; exists tt]; auto.
Qed.

(** [ok_inv]: take apart the hypotheses that say a computation returned. *)
Ltac ok_inv :=
  repeat match goal with
  | H : Ok _ = Ok _ |- _ => injection H as H; subst
  | H : Some _ = Some _ |- _ => injection H as H; subst
  | H : Raise _ = Ok _ |- _ => discriminate H
  | H : Ok _ = Raise _ |- _ => discriminate H
  | H : raise _ _ = Ok _ |- _ => discriminate H
  | H : raise_if _ _ _ = Ok _ |- _ => apply raise_if_Ok in H
  | H : or_raise _ _ = Ok _ |- _ => apply or_raise_Ok in H
  | H : mbind _ _ = Ok _ |- _ =>
      apply bind_Ok in H; destruct H as (? & ? & H)
  | H : _ <$> _ = Ok _ |- _ => apply fmap_Ok in H; destruct H as (? & ? & H); try subst
  | u : unit |- _ => destruct u
  | H : _ /\ _ |- _ => destruct H
  end.

(** ** Which exceptions leave a computation *)

(** [m] raises only exceptions whose class satisfies [P]. *)
Definition raises {A} (P : exn_class -> Prop) (m : result A) : Prop :=
  forall e, m = Raise e -> P (exn_cls e).

Section raises.
Context {P : exn_class -> Prop}.

Lemma raises_Ok {A} (a : A) : raises P (Ok a).
Proof. by intros e. Qed.

Lemma raises_raise {A} c msg : P c -> raises P (raise c msg : result A).
Proof. by intros ? e [= <-]. Qed.

Lemma raises_raise_if b c msg : P c -> raises P (raise_if b c msg).
Proof. intros H. destruct b; [by apply raises_raise | apply raises_Ok]. Qed.

Lemma raises_or_raise {A} (o : option A) c msg : P c -> raises P (or_raise o (Exn c msg)).
Proof. intros H. destruct o; [apply raises_Ok | by intros e [= <-]]. Qed.

Lemma raises_bind {A B} (m : result A) (f : A -> result B) :
  raises P m -> (forall a, m = Ok a -> raises P (f a)) -> raises P (m ≫= f).
Proof.
  intros Hm Hf. destruct m as [a|e]; [by apply Hf|]. intros e' [= <-]. by apply Hm.
Qed.

Lemma raises_fmap {A B} (m : result A) (f : A -> B) : raises P m -> raises P (f <$> m).
Proof. intros Hm. destruct m as [a|e]; [apply raises_Ok|]. intros e' [= <-]. by apply Hm. Qed.

Lemma raises_try_map {A B} (f : A -> result B) l :
  (forall x, x ∈ l -> raises P (f x)) -> raises P (try_map f l).
Proof.
  induction l as [|x l IH]; intros Hf; [apply raises_Ok|]. simpl.
  apply raises_bind; [apply Hf; left|]. intros y _.
  apply raises_bind; [apply IH; intros; apply Hf; by right|]. intros ys _. apply raises_Ok.
Qed.

Lemma raises_try_iter {A} (f : A -> result unit) l :
  (forall x, x ∈ l -> raises P (f x)) -> raises P (try_iter f l).
Proof.
  induction l as [|x l IH]; intros Hf; [apply raises_Ok|]. simpl.
  apply raises_bind; [apply Hf; left|]. intros y _. apply IH. intros; apply Hf; by right.
Qed.

(** A handler takes away the classes it catches. *)
Lemma raises_try_except {A} (m : result A) h k (Q : exn_class -> Prop) :
  raises Q m -> (forall c, Q c -> h c = false -> P c) -> (forall e, raises P (k e)) ->
  raises P (try_except m h k).
Proof.
  intros Hm HQ Hk. destruct m as [a|e]; [apply raises_Ok|]. simpl.
  destruct (h (exn_cls e)) eqn:Hh; [apply Hk|]. intros e' [= <-]. apply HQ; [by apply Hm | done].
Qed.

Lemma raises_weaken {A} (Q : exn_class -> Prop) (m : result A) :
  raises Q m -> (forall c, Q c -> P c) -> raises P m.
Proof. intros H HQ e He. by apply HQ, H. Qed.
End raises.

(** Decomposes a computation into the steps that may raise. *)
Ltac raises_step :=
  match goal with
  | |- raises _ (Ok _) => apply raises_Ok
  | |- raises _ (raise _ _) => apply raises_raise; done
  | |- raises _ (raise_if _ _ _) => apply raises_raise_if; done
  | |- raises _ (or_raise _ _) => apply raises_or_raise; done
  | |- raises _ (mbind _ _) =>
      apply raises_bind; [|intros ? ?; repeat match goal with x : unit |- _ => destruct x end]
  | |- raises _ (_ <$> _) => apply raises_fmap
  | |- raises _ (try_map _ _) => apply raises_try_map; intros ? _
  | |- raises _ (try_iter _ _) => apply raises_try_iter; intros ? _
  | |- raises _ (match ?x with _ => _ end) => destruct x
  end.

(** [len(set(l)) == len(l)] for a decidable equality. *)
Definition no_repeats {A} `{EqDecision A} (l : list A) : bool :=
  bool_decide (NoDup l).

(** [bools]: boolean conditions of the code as propositions. *)
Ltac bools :=
  repeat match goal with
  | H : andb _ _ = true |- _ => apply andb_true_iff in H; destruct H
  | H : orb _ _ = false |- _ => apply orb_false_iff in H; destruct H
  | H : negb _ = true |- _ => apply negb_true_iff in H
  | H : negb _ = false |- _ => apply negb_false_iff in H
  | H : no_repeats _ = true |- _ => apply bool_decide_eq_true in H
  | H : bool_decide _ = true |- _ => apply bool_decide_eq_true in H
  | H : bool_decide _ = false |- _ => apply bool_decide_eq_false in H
  | H : (_ <=? _)%Z = true |- _ => apply Z.leb_le in H
  | H : (_ <=? _)%Z = false |- _ => apply Z.leb_gt in H
  | H : (_ <? _)%Z = true |- _ => apply Z.ltb_lt in H
  | H : (_ <? _)%Z = false |- _ => apply Z.ltb_ge in H
  | H : (_ =? _)%Z = true |- _ => apply Z.eqb_eq in H
  | H : (_ =? _)%Z = false |- _ => apply Z.eqb_neq in H
  | H : (_ =? _)%N = true |- _ => apply N.eqb_eq in H
  | H : (_ =? _)%N = false |- _ => apply N.eqb_neq in H
  end.

(** [bool_goal]: a boolean conjunction to prove, as its parts. *)
Ltac bool_goal :=
  repeat lazymatch goal with
  | |- andb _ _ = true => apply andb_true_intro; split
  | |- negb _ = true => apply negb_true_iff
  | |- bool_decide _ = true => apply bool_decide_eq_true_2
  | |- bool_decide _ = false => apply bool_decide_eq_false_2
  | |- no_repeats _ = true => apply bool_decide_eq_true_2
  | |- (_ <=? _)%Z = true => apply Z.leb_le
  | |- (_ <? _)%Z = true => apply Z.ltb_lt
  | |- (_ <? _)%N = true => apply N.ltb_lt
  end.

(** ** Closed sets of text values

    A Python [StrEnum]: its members in order and the text of each. *)
Class StrEnum (T : Type) := {
  members : list T;
  value : T -> list N;
  value_inj : forall x y : T, value x = value y -> x = y;
  members_complete : forall x : T, x ∈ members;
}.

(** [T(text)]: the member with that value, if there is one. *)
Definition enum_of {T} `{StrEnum T} (s : list N) : option T :=
  List.find (fun x => bool_decide (value x = s)) members.

Lemma enum_of_value {T} `{StrEnum T} (x : T) : enum_of (value x) = Some x.
Proof.
  unfold enum_of. pose proof (members_complete x) as Hx. revert Hx.
  induction members as [|y l IH]; intros Hx; [by apply not_elem_of_nil in Hx|]. simpl.
  destruct (bool_decide (value y = value x)) eqn:E.
  - apply bool_decide_eq_true, value_inj in E. by subst.
  - apply IH. apply elem_of_cons in Hx as [->|?]; [|done].
    by rewrite bool_decide_eq_false in E.
Qed.

Lemma enum_of_Some {T} `{StrEnum T} s (x : T) : enum_of s = Some x -> value x = s.
Proof.
  unfold enum_of. intros [_ E]%List.find_some. by apply bool_decide_eq_true in E.
Qed.

(** ** Lists *)

(** [len(x)] as a Python integer. *)
Definition zlen {A} (l : list A) : Z := Z.of_nat (length l).

Fixpoint drop_while {A} (p : A -> bool) (l : list A) : list A :=
  match l with
  | [] => []
  | x :: l' => if p x then drop_while p l' else l
  end.

Lemma drop_while_head {A} (p : A -> bool) l :
  match drop_while p l with [] => True | x :: _ => p x = false end.
Proof. induction l as [|x l IH]; simpl; [done|]. by destruct (p x) eqn:E. Qed.

Lemma drop_while_fix {A} (p : A -> bool) l :
  match l with [] => True | x :: _ => p x = false end -> drop_while p l = l.
Proof. destruct l; simpl; [done|]. by intros ->. Qed.

Lemma drop_while_suffix {A} (p : A -> bool) l : exists k, l = k ++ drop_while p l.
Proof.
  induction l as [|x l [k IH]]; simpl; [by exists []|].
  destruct (p x); [exists (x :: k); simpl; by f_equal | by exists []].
Qed.

Lemma forallb_Forall {A} (p : A -> bool) l :
  forallb p l = true <-> Forall (fun x => p x = true) l.
Proof.
  induction l as [|x l IH]; simpl; [by split|].
  by rewrite andb_true_iff, Forall_cons, IH.
Qed.

Lemma zlen_nonneg {A} (l : list A) : 0 <= zlen l.
Proof. unfold zlen; lia. Qed.

Lemma zlen_app {A} (l l' : list A) : zlen (l ++ l') = zlen l + zlen l'.
Proof. unfold zlen. rewrite length_app. lia. Qed.
Lemma zlen_cons {A} (x : A) l : zlen (x :: l) = 1 + zlen l.
Proof. unfold zlen. cbn. lia. Qed.

#[export] Hint Resolve zlen_nonneg : py.

(** The head of a sorted list. *)
Lemma head_merge_sort {A} (R : relation A) `{forall x y, Decision (R x y), !Total R, !Transitive R} l :
  match head (merge_sort R l) with
  | Some x => x ∈ l /\ forall y, y ∈ l -> R x y
  | None => l = []
  end.
Proof.
  pose proof (StronglySorted_merge_sort R l) as Hs. pose proof (merge_sort_Permutation R l) as Hp.
  destruct (merge_sort R l) as [|x l']; cbn.
  - symmetry. by apply Permutation_nil_l.
  - apply StronglySorted_inv in Hs as [_ Hall]. rewrite Forall_forall in Hall. split.
    + rewrite <- Hp. left.
    + intros y Hy. rewrite <- Hp in Hy. apply elem_of_cons in Hy as [->|Hy]; [|by apply Hall].
      by destruct (total R x x).
Qed.

(** ** Python's [sorted]

    A stable sort: elements the order does not tell apart keep their order
    ([merge_sort] does not promise that). *)
Fixpoint sorted_insert {A} (R : relation A) `{forall x y, Decision (R x y)} (x : A) (l : list A) :
    list A :=
  match l with
  | [] => [x]
  | y :: l' => if decide (R x y) then x :: l else y :: sorted_insert R x l'
  end.
Definition stable_sort {A} (R : relation A) `{forall x y, Decision (R x y)} : list A -> list A :=
  foldr (sorted_insert R) [].

Section stable_sort.
Context {A : Type} (R : relation A) `{forall x y, Decision (R x y)}.

Lemma sorted_insert_Permutation x l : sorted_insert R x l ≡ₚ x :: l.
Proof.
  induction l as [|y l IH]; cbn; [done|]. case_decide; [done|]. rewrite IH. apply Permutation_swap.
Qed.
Lemma stable_sort_Permutation l : stable_sort R l ≡ₚ l.
Proof. induction l as [|x l IH]; cbn; [done|]. rewrite sorted_insert_Permutation. by f_equiv. Qed.

Lemma stable_sort_sorted `{!Total R, !Transitive R} l : StronglySorted R (stable_sort R l).
Proof.
  induction l as [|x l IH]; cbn; [constructor|]. induction IH as [|y s Hs IHs Hy]; cbn.
  - repeat constructor.
  - case_decide as Hd.
    + constructor; [by constructor|]. constructor; [done|]. eapply Forall_impl; [exact Hy|].
      intros z Hz. by transitivity y.
    + constructor; [done|]. rewrite sorted_insert_Permutation. constructor; [|done].
      by destruct (total R x y).
Qed.

(** A sorted list is left as it is. *)
Lemma stable_sort_id l : StronglySorted R l -> stable_sort R l = l.
Proof.
  induction 1 as [|x l _ IH Hx]; cbn; [done|]. rewrite IH. destruct Hx as [|y l Hxy]; cbn; [done|].
  by rewrite decide_True.
Qed.
End stable_sort.

(** ** Lists related item by item *)

Lemma Forall2_elem_r {A B} (P : A -> B -> Prop) l k y : Forall2 P l k -> y ∈ k -> exists x, x ∈ l /\ P x y.
Proof.
  intros H (i & Hi)%list_elem_of_lookup. destruct (Forall2_lookup_r _ _ _ _ _ H Hi) as (x & Hx & Hp).
  exists x. split; [by eapply list_elem_of_lookup_2|done].
Qed.

(** ** Lists without repetitions of a key *)

Lemma nodup_key {A B} (f : A -> B) (l : list A) x y : NoDup (f <$> l) -> x ∈ l -> y ∈ l -> f x = f y -> x = y.
Proof.
  intros Hnd [i Hi]%list_elem_of_lookup [j Hj]%list_elem_of_lookup Hf.
  assert (i = j) as <-; [|congruence]. apply (NoDup_lookup _ _ _ (f x) Hnd); rewrite list_lookup_fmap.
  - by rewrite Hi.
  - by rewrite Hj, Hf.
Qed.

Lemma omap_nodup {A B K} (f : A -> option B) (ka : A -> K) (kb : B -> K) (l : list A) :
  (forall a b, f a = Some b -> kb b = ka a) -> NoDup (ka <$> l) -> NoDup (kb <$> omap f l).
Proof.
  intros Hk. induction l as [|a l IH]; intros Hnd; [constructor|]. apply NoDup_cons in Hnd as [Ha Hnd].
  cbn [omap list_omap]. destruct (f a) as [b|] eqn:Hf; [|by apply IH].
  apply NoDup_cons. split; [|by apply IH]. rewrite (Hk _ _ Hf). intros (b' & Hb' & Hin)%list_elem_of_fmap.
  apply list_elem_of_omap in Hin as (a' & Ha' & Hf'). destruct Ha. rewrite Hb', (Hk _ _ Hf').
  by apply list_elem_of_fmap_2.
Qed.

(** ** Dictionaries in insertion order *)

(** [d.get(k)] *)
Fixpoint assoc_get {K V} `{EqDecision K} (k : K) (d : list (K * V)) : option V :=
  match d with
  | [] => None
  | (k', v) :: d => if decide (k = k') then Some v else assoc_get k d
  end.

(** [d[k] = v]: an existing key keeps its place. *)
Fixpoint assoc_set {K V} `{EqDecision K} (k : K) (v : V) (d : list (K * V)) : list (K * V) :=
  match d with
  | [] => [(k, v)]
  | (k', v') :: d => if decide (k = k') then (k', v) :: d else (k', v') :: assoc_set k v d
  end.

Section assoc.
Context {K V : Type} `{EqDecision K}.
Implicit Types d : list (K * V).

Lemma assoc_get_Some k v d : NoDup d.*1 -> assoc_get k d = Some v <-> (k, v) ∈ d.
Proof.
  induction d as [|[k' v'] d IH]; cbn [fmap list_fmap]; intros Hnd; cbn [assoc_get].
  - split; [done|by intros ?%not_elem_of_nil].
  - apply NoDup_cons in Hnd as [Hk Hnd]. rewrite elem_of_cons. destruct (decide (k = k')) as [->|Hne].
    + split; [intros [= ->]; by left|]. intros [[= ->]|Hin]; [done|]. destruct Hk.
      apply list_elem_of_fmap. by exists (k', v).
    + rewrite IH by done. split; [by right|]. by intros [[= -> ->]|?].
Qed.

Lemma assoc_get_set k v d k' :
  assoc_get k' (assoc_set k v d) = if decide (k' = k) then Some v else assoc_get k' d.
Proof.
  induction d as [|[j w] d IH]; cbn; [done|].
  destruct (decide (k = j)) as [->|Hne]; cbn; [by destruct (decide (k' = j))|].
  destruct (decide (k' = j)) as [->|]; [by rewrite decide_False|done].
Qed.

Lemma assoc_set_keys k v d :
  (assoc_set k v d).*1 = if decide (k ∈ d.*1) then d.*1 else d.*1 ++ [k].
Proof.
  induction d as [|[j w] d IH]; [by rewrite decide_False by apply not_elem_of_nil|].
  cbn [assoc_set]. destruct (decide (k = j)) as [->|Hne].
  - cbn. rewrite decide_True; [done|left].
  - cbn [fmap list_fmap fst]. rewrite IH. destruct (decide (k ∈ d.*1)) as [Hin|Hn].
    + rewrite decide_True; [done|by right].
    + rewrite decide_False; [done|]. by intros [?|?]%elem_of_cons.
Qed.

Lemma assoc_get_None k d : assoc_get k d = None <-> k ∉ d.*1.
Proof.
  induction d as [|[k' v'] d IH]; cbn; [split; [intros _; apply not_elem_of_nil|done]|].
  rewrite not_elem_of_cons. destruct (decide (k = k')); naive_solver.
Qed.

(** A dictionary does not depend on the order of its items. *)
Lemma assoc_get_perm k d d' : NoDup d.*1 -> d ≡ₚ d' -> assoc_get k d = assoc_get k d'.
Proof.
  intros Hnd Hp. apply option_eq. intros v. rewrite !assoc_get_Some; [by rewrite Hp| |done]. by rewrite <- Hp.
Qed.
End assoc.
