(* ===== verification/PyText.v ===== *)
(** * Python text

    A Python [str] is the list of its code points ([pystr]); [u "..."] writes
    an ASCII literal.  The operations are those the modelled modules call:
    [strip], [split], [join], [partition], [replace], [in], [startswith],
    [lower].  The tables of the Unicode database and the C library's
    conversions between floats and decimal text are the fields of [PyRuntime];
    [PyRuntimeLaws] states what Python documents of them on ASCII text. *)
From S2P Require Import Prelude.
From Stdlib Require Import SpecFloat Ascii.

Abbreviation pystr := (list N).

(** An ASCII literal of the source. *)
Definition u (s : string) : pystr := N_of_ascii <$> String.list_ascii_of_string s.

(** ** ASCII characters *)
Section ascii.
Local Open Scope N_scope.
Definition between (lo hi c : N) : bool := (lo <=? c) && (c <=? hi).
Definition ascii_digit (c : N) : bool := between 48 57 c.
Definition ascii_upper_letter (c : N) : bool := between 65 90 c.
Definition ascii_lower_letter (c : N) : bool := between 97 122 c.
Definition ascii_letter (c : N) : bool :=
  ascii_upper_letter c || ascii_lower_letter c.
Definition ascii_space (c : N) : bool :=
  between 9 13 c || between 28 32 c.
Definition ascii_to_lower (c : N) : N :=
  if ascii_upper_letter c then c + 32 else c.
Definition is_ascii (s : pystr) : bool := forallb (fun c => c <? 128) s.
End ascii.

(** ** What the model takes from the interpreter *)
Class PyRuntime := {
  (** [c.isspace()] and [c.isalnum()] of one code point *)
  cp_isspace : N -> bool;
  cp_isalnum : N -> bool;
  (** the digit value of a code point of Unicode category Nd *)
  cp_decimal : N -> option N;
  (** [s.lower()] *)
  str_lower : pystr -> pystr;
  (** [float.__repr__(x)] and [float(text)] *)
  float_repr : spec_float -> pystr;
  float_parse : pystr -> spec_float;
  (** whether the interpreter's stack is deep enough for [json.loads] of a
      text, and for a recursive walk over the value that a text spells; a
      [RecursionError] otherwise *)
  stack_suffices : pystr -> bool;
  walk_suffices : pystr -> bool;
}.

Section text.
Context {rt : PyRuntime}.
Implicit Types (s t : pystr).

(** [s.strip()] *)
Definition lstrip s : pystr := drop_while cp_isspace s.
Definition rstrip s : pystr := reverse (lstrip (reverse s)).
Definition strip s : pystr := rstrip (lstrip s).

(** [s.isdecimal()] *)
Definition isdecimal s : bool :=
  match s with
  | [] => false
  | _ => forallb (fun c => match cp_decimal c with Some _ => true | _ => false end) s
  end.

(** [int(s)] of a text for which [isdecimal] holds. *)
Definition int_of_decimal s : N :=
  foldl (fun acc c => 10 * acc + default 0 (cp_decimal c))%N 0%N s.

(** [s.split()]: maximal runs of non-space code points. *)
Fixpoint split_ws_aux (cur : pystr) s : list pystr :=
  match s with
  | [] => match cur with [] => [] | _ => [reverse cur] end
  | c :: s =>
      if cp_isspace c
      then match cur with [] => split_ws_aux [] s
           | _ => reverse cur :: split_ws_aux [] s end
      else split_ws_aux (c :: cur) s
  end.
Definition split_ws s : list pystr := split_ws_aux [] s.
End text.

(** [sep.join(parts)] *)
Fixpoint join (sep : pystr) (parts : list pystr) : pystr :=
  match parts with
  | [] => []
  | [p] => p
  | p :: rest => p ++ sep ++ join sep rest
  end.

(** [s.split(c)] for a one-character separator. *)
Fixpoint split_on (c : N) (s : pystr) : list pystr :=
  match s with
  | [] => [[]]
  | x :: s =>
      if (x =? c)%N then [] :: split_on c s
      else match split_on c s with
           | p :: ps => (x :: p) :: ps
           | [] => [[x]]
           end
  end.

(** [s.partition(c)]: the text before the first [c], whether [c] occurs, and
    the text after it. *)
Fixpoint partition (c : N) (s : pystr) : pystr * bool * pystr :=
  match s with
  | [] => ([], false, [])
  | x :: s =>
      if (x =? c)%N then ([], true, s)
      else let '(a, f, b) := partition c s in (x :: a, f, b)
  end.

(** [s.startswith(p)] and [p in s] *)
Fixpoint starts_with (p s : pystr) : bool :=
  match p, s with
  | [], _ => true
  | x :: p, y :: s => (x =? y)%N && starts_with p s
  | _ :: _, [] => false
  end.

Fixpoint contains (p s : pystr) : bool :=
  starts_with p s ||
  match s with [] => false | _ :: s => contains p s end.

(** [s.replace(old, new)] for non-empty [old]: left to right, no overlap. *)
Fixpoint replace_skip (skip : nat) (old new s : pystr) : pystr :=
  match s with
  | [] => []
  | x :: s' =>
      match skip with
      | S k => replace_skip k old new s'
      | O => if starts_with old s
             then new ++ replace_skip (length old - 1) old new s'
             else x :: replace_skip 0 old new s'
      end
  end.
Definition replace (old new s : pystr) : pystr := replace_skip 0 old new s.

Definition str_eqb (s t : pystr) : bool := bool_decide (s = t).

(** The order of [str]: lexicographic on code points. *)
Fixpoint str_leb (s t : pystr) : bool :=
  match s, t with
  | [], _ => true
  | _ :: _, [] => false
  | x :: s, y :: t => (x <? y)%N || ((x =? y)%N && str_leb s t)
  end.
Definition str_le (s t : pystr) : Prop := str_leb s t = true.
#[export] Instance str_le_dec s t : Decision (str_le s t) := decide (_ = true).

(** ** Documented behaviour of the runtime *)

(** A JSON number literal with a fraction or an exponent, in parts. *)
Definition ascii_digits (s : pystr) : bool :=
  match s with [] => false | _ => forallb ascii_digit s end.
Definition int_digits (s : pystr) : bool :=
  match s with
  | [] => false
  | 48%N :: rest => bool_decide (rest = [])
  | _ => forallb ascii_digit s
  end.

(** [sign int frac exp]: the literal they spell. *)
Definition number_text (neg : bool) (int frac exp : pystr) : pystr :=
  (if neg then [45%N] else []) ++ int ++ frac ++ exp.
Definition frac_ok (s : pystr) : bool :=
  match s with [] => true | 46%N :: ds => ascii_digits ds | _ => false end.
Definition exp_ok (s : pystr) : bool :=
  match s with
  | [] => true
  | c :: rest =>
      ((c =? 101) || (c =? 69))%N &&
      match rest with
      | s' :: ds =>
          if ((s' =? 43) || (s' =? 45))%N then ascii_digits ds
          else ascii_digits (s' :: ds)
      | [] => false
      end
  end.

(** A float that [json.dumps] prints as a number. *)
Definition float_finite (x : spec_float) : bool :=
  match x with
  | S754_zero _ => true
  | S754_finite _ m e => bounded 53 1024 m e
  | _ => false
  end.

Class PyRuntimeLaws (rt : PyRuntime) := {
  isspace_ascii c : (c < 128)%N -> cp_isspace c = ascii_space c;
  decimal_ascii c : (c < 128)%N ->
    cp_decimal c = if ascii_digit c then Some (c - 48)%N else None;
  lower_ascii s : is_ascii s = true -> str_lower s = ascii_to_lower <$> s;
  (** [repr] of a finite float is a decimal literal with a fraction or an
      exponent, and [float(repr(x)) == x] *)
  float_repr_literal x : float_finite x = true ->
    exists neg int frac exp,
      float_repr x = number_text neg int frac exp /\ int_digits int = true /\
      frac_ok frac = true /\ exp_ok exp = true /\ (frac <> [] \/ exp <> []);
  float_parse_repr x : float_finite x = true -> float_parse (float_repr x) = x;
}.

(** ** Facts *)

Section text_facts.
Context {rt : PyRuntime}.
Implicit Types (s t : pystr).

Lemma lstrip_head s :
  match lstrip s with [] => True | c :: _ => cp_isspace c = false end.
Proof. apply drop_while_head. Qed.

Lemma lstrip_fix s :
  match s with [] => True | c :: _ => cp_isspace c = false end -> lstrip s = s.
Proof. apply drop_while_fix. Qed.

Lemma rstrip_prefix s : exists k, s = rstrip s ++ k.
Proof.
  unfold rstrip, lstrip.
  destruct (drop_while_suffix cp_isspace (reverse s)) as [k Hk].
  exists (reverse k). apply (inj reverse).
  by rewrite reverse_app, !reverse_involutive.
Qed.

Lemma rstrip_lstripped s : lstrip s = s -> lstrip (rstrip s) = rstrip s.
Proof.
  intros Hs. apply lstrip_fix. destruct (rstrip_prefix s) as [k Hk].
  pose proof (lstrip_head s) as Hh. rewrite Hs in Hh.
  destruct (rstrip s); [done|]. by rewrite Hk in Hh.
Qed.

Lemma lstrip_lstrip s : lstrip (lstrip s) = lstrip s.
Proof. apply lstrip_fix, lstrip_head. Qed.

Lemma rstrip_rstrip s : rstrip (rstrip s) = rstrip s.
Proof. unfold rstrip. by rewrite reverse_involutive, lstrip_lstrip. Qed.

(** [s.strip().strip() == s.strip()] *)
Lemma strip_strip s : strip (strip s) = strip s.
Proof.
  unfold strip. rewrite rstrip_lstripped by apply lstrip_lstrip.
  apply rstrip_rstrip.
Qed.
End text_facts.

Lemma str_eqb_eq s t : str_eqb s t = true <-> s = t.
Proof. apply bool_decide_eq_true. Qed.
Lemma str_eqb_neq s t : str_eqb s t = false <-> s <> t.
Proof. apply bool_decide_eq_false. Qed.
Lemma str_eqb_refl s : str_eqb s s = true.
Proof. by apply str_eqb_eq. Qed.

Lemma starts_with_prefix p s : starts_with p s = true <-> p `prefix_of` s.
Proof.
  revert s; induction p as [|x p IH]; intros [|y s]; simpl.
  - split; [intros _; apply prefix_nil | done].
  - split; [intros _; apply prefix_nil | done].
  - split; [done | by intros [k [=]]].
  - rewrite andb_true_iff, N.eqb_eq, IH. split.
    + intros [-> ?]. by apply prefix_cons.
    + intros H. split; [by eapply prefix_cons_inv_1 | by eapply prefix_cons_inv_2].
Qed.

Lemma split_on_join c s : join [c] (split_on c s) = s.
Proof.
  induction s as [|x s IH]; simpl; [done|].
  destruct (N.eqb_spec x c) as [->|Hne].
  - rewrite <- IH at 2. destruct (split_on c s) eqn:E; [|done].
    destruct s as [|y s]; simpl in E; [done|]. destruct (y =? c)%N; [done|].
    by destruct (split_on c s).
  - destruct (split_on c s) as [|p ps] eqn:E; simpl in *.
    + by rewrite <- IH.
    + rewrite <- IH. by destruct ps.
Qed.

Lemma partition_spec c s a f b :
  partition c s = (a, f, b) -> s = a ++ (if f then c :: b else []) /\ c ∉ a.
Proof.
  revert a f b; induction s as [|x s IH]; intros a f b; simpl.
  - intros [= <- <- <-]. split; [done | apply not_elem_of_nil].
  - destruct (N.eqb_spec x c) as [->|Hne].
    + intros [= <- <- <-]. split; [done | apply not_elem_of_nil].
    + destruct (partition c s) as [[a' f'] b'] eqn:E. intros [= <- <- <-].
      destruct (IH a' f' b' eq_refl) as [-> ?]. split; [done|].
      rewrite not_elem_of_cons; auto.
Qed.

(** [str_leb] is a total order. *)
#[export] Instance str_le_refl : Reflexive str_le.
Proof.
  intros s; unfold str_le; induction s as [|x s IH]; simpl; [done|].
  by rewrite N.eqb_refl, IH, orb_true_r.
Qed.

#[export] Instance str_le_trans : Transitive str_le.
Proof.
  unfold str_le. intros s; induction s as [|x s IH]; intros [|y t] [|z w]; simpl; try done.
  rewrite !orb_true_iff, !andb_true_iff, !N.ltb_lt, !N.eqb_eq.
  intros [?|[-> ?]] [?|[-> ?]]; [left; lia | left; lia | left; lia | right; eauto].
Qed.

#[export] Instance str_le_total : Total str_le.
Proof.
  intros s; unfold str_le; induction s as [|x s IH]; intros [|y t]; simpl; auto.
  rewrite !orb_true_iff, !andb_true_iff, !N.ltb_lt, !N.eqb_eq.
  destruct (IH t); destruct (N.lt_trichotomy x y) as [?|[->|?]]; auto.
Qed.

#[export] Instance str_le_antisymm : AntiSymm (=) str_le.
Proof.
  unfold str_le. intros s; induction s as [|x s IH]; intros [|y t]; simpl; try done.
  rewrite !orb_true_iff, !andb_true_iff, !N.ltb_lt, !N.eqb_eq.
  intros [?|[-> ?]] [?|[? ?]]; [lia | lia | lia | f_equal; eauto].
Qed.

#[export] Hint Rewrite @strip_strip str_eqb_refl : py.
