(* ===== verification/Json.v ===== *)
(** * JSON values, [json.dumps] and [json.loads]

    [json] is the data [json.loads] builds and [json.dumps] prints: a Python
    [dict] is an association list in insertion order.  [dumps_canonical] is
    [json.dumps(v, ensure_ascii=True, separators=(",", ":"), sort_keys=True)],
    the form every hashed or stored text of the repository uses, and [loads]
    is [json.loads], and [json_loads] is it with the interpreter's recursion and
    integer-digit limits. *)
From S2P Require Import Prelude PyText.
From Stdlib Require Import SpecFloat.

Inductive json :=
  | JNull
  | JBool (b : bool)
  | JInt (z : Z)
  | JFloat (x : spec_float)
  | JStr (s : pystr)
  | JList (l : list json)
  | JObj (kvs : list (pystr * json)).

Section json_induction.
Variable P : json -> Prop.
Hypothesis Hnull : P JNull.
Hypothesis Hbool : forall b, P (JBool b).
Hypothesis Hint : forall z, P (JInt z).
Hypothesis Hfloat : forall x, P (JFloat x).
Hypothesis Hstr : forall s, P (JStr s).
Hypothesis Hlist : forall l, Forall P l -> P (JList l).
Hypothesis Hobj : forall kvs, Forall (fun kv => P kv.2) kvs -> P (JObj kvs).

(** Induction that reaches inside arrays and objects. *)
Fixpoint json_rect_strong (v : json) : P v :=
  match v with
  | JNull => Hnull | JBool b => Hbool b | JInt z => Hint z
  | JFloat x => Hfloat x | JStr s => Hstr s
  | JList l => Hlist l
      ((fix go l : Forall P l :=
          match l with
          | [] => Forall_nil_2 _
          | v :: l => Forall_cons_2 _ _ _ (json_rect_strong v) (go l)
          end) l)
  | JObj kvs => Hobj kvs
      ((fix go l : Forall (fun kv => P kv.2) l :=
          match l with
          | [] => Forall_nil_2 _
          | (k, v) :: l => Forall_cons_2 (fun kv => P kv.2) (k, v) _ (json_rect_strong v) (go l)
          end) kvs)
  end.
End json_induction.

(** ** Dictionaries *)
Section dict.
Context {A : Type}.
Implicit Types (d : list (pystr * A)).

(** [d.get(k)] *)
Fixpoint dict_get (k : pystr) d : option A :=
  match d with
  | [] => None
  | (k', v) :: d => if str_eqb k k' then Some v else dict_get k d
  end.

(** [d[k] = v]: an existing key keeps its place. *)
Fixpoint dict_set (k : pystr) (v : A) d : list (pystr * A) :=
  match d with
  | [] => [(k, v)]
  | (k', v') :: d => if str_eqb k k' then (k', v) :: d else (k', v') :: dict_set k v d
  end.

(** [dict(pairs)] *)
Definition dict_of (pairs : list (pystr * A)) : list (pystr * A) :=
  foldl (fun d kv => dict_set kv.1 kv.2 d) [] pairs.

(** [d.pop(k)] for a key that is present. *)
Definition dict_pop (k : pystr) d : list (pystr * A) :=
  filter (fun kv => kv.1 <> k) d.

Definition keys d : list pystr := d.*1.

(** [set(d) == expected] *)
Definition has_exactly (expected : list pystr) d : bool :=
  bool_decide (Forall (.∈ expected) (keys d)) && bool_decide (Forall (.∈ keys d) expected).
End dict.

(** ** Printing *)

Definition hex_digit (n : N) : N := if (n <? 10)%N then n + 48 else n + 87.
Definition hex4 (c : N) : pystr :=
  [hex_digit (c / 4096 mod 16); hex_digit (c / 256 mod 16);
   hex_digit (c / 16 mod 16); hex_digit (c mod 16)]%N.

(** One code point of a string literal under [ensure_ascii=True]. *)
Definition escape_char (c : N) : pystr :=
  (if c =? 34 then [92; 34]
   else if c =? 92 then [92; 92]
   else if c =? 10 then [92; 110]
   else if c =? 13 then [92; 114]
   else if c =? 9 then [92; 116]
   else if c =? 12 then [92; 102]
   else if c =? 8 then [92; 98]
   else if between 32 126 c then [c]
   else if c <? 65536 then [92; 117] ++ hex4 c
   else let c' := c - 65536 in
        [92; 117] ++ hex4 (55296 + c' / 1024) ++
        [92; 117] ++ hex4 (56320 + c' mod 1024))%N.

Definition print_str (s : pystr) : pystr :=
  [34%N] ++ (s ≫= escape_char) ++ [34%N].

(** The decimal digits of a natural number. *)
Fixpoint digits_aux (fuel : nat) (n : N) (acc : pystr) : pystr :=
  match fuel with
  | O => acc
  | S fuel =>
      if (n <? 10)%N then (48 + n)%N :: acc
      else digits_aux fuel (n / 10)%N ((48 + n mod 10)%N :: acc)
  end.
Definition digits (n : N) : pystr := digits_aux (S (N.to_nat (N.size n))) n [].

(** [str(z)] *)
Definition str_of_Z (z : Z) : pystr :=
  (if z <? 0 then [45%N] else []) ++ digits (Z.abs_N z).

Definition key_le {A} (x y : pystr * A) : Prop := str_le x.1 y.1.
#[export] Instance key_le_dec {A} (x y : pystr * A) : Decision (key_le x y) :=
  str_le_dec _ _.

(** [sort_keys=True], at every level. *)
Fixpoint sort_keys (v : json) : json :=
  match v with
  | JList l => JList (map sort_keys l)
  | JObj kvs => JObj (merge_sort key_le (map (fun kv => (kv.1, sort_keys kv.2)) kvs))
  | v => v
  end.

Section print.
Context {rt : PyRuntime}.

Definition print_float (x : spec_float) : pystr :=
  match x with
  | S754_nan => u "NaN"
  | S754_infinity true => u "-Infinity"
  | S754_infinity false => u "Infinity"
  | x => float_repr x
  end.

Fixpoint print (v : json) : pystr :=
  match v with
  | JNull => u "null"
  | JBool true => u "true"
  | JBool false => u "false"
  | JInt z => str_of_Z z
  | JFloat x => print_float x
  | JStr s => print_str s
  | JList l => [91%N] ++ join [44%N] (map print l) ++ [93%N]
  | JObj kvs =>
      [123%N] ++
      join [44%N] (map (fun kv => print_str kv.1 ++ [58%N] ++ print kv.2) kvs) ++
      [125%N]
  end.

(** [json.dumps(v, ensure_ascii=True, separators=(",", ":"), sort_keys=True)] *)
Definition dumps_canonical (v : json) : pystr := print (sort_keys v).
End print.

(** Whether [json.dumps(..., allow_nan=False)] accepts the value. *)
Fixpoint no_nan (v : json) : bool :=
  match v with
  | JFloat x => match x with S754_nan | S754_infinity _ => false | _ => true end
  | JList l => forallb no_nan l
  | JObj kvs => forallb (fun kv => no_nan kv.2) kvs
  | _ => true
  end.

(** ** Parsing *)

Definition json_space (c : N) : bool :=
  ((c =? 32) || (c =? 9) || (c =? 10) || (c =? 13))%N.
Definition skip_ws (s : pystr) : pystr := drop_while json_space s.

(** The longest prefix whose characters satisfy [p], and what follows it. *)
Fixpoint span (p : N -> bool) (s : pystr) : pystr * pystr :=
  match s with
  | [] => ([], [])
  | c :: s' => if p c then let '(a, b) := span p s' in (c :: a, b) else ([], s)
  end.

(** The text after [c], when [c] comes first. *)
Definition expect (c : N) (s : pystr) : option pystr :=
  match s with
  | x :: r => if (x =? c)%N then Some r else None
  | [] => None
  end.

Definition hex_value (c : N) : option N :=
  (if between 48 57 c then Some (c - 48)
   else if between 97 102 c then Some (c - 87)
   else if between 65 70 c then Some (c - 55)
   else None)%N.

Definition hex4_value (a b c d : N) : option N :=
  a ← hex_value a; b ← hex_value b; c ← hex_value c; d ← hex_value d;
  Some (4096 * a + 256 * b + 16 * c + d)%N.

Definition high_surrogate (c : N) : bool := between 55296 56319 c.
Definition low_surrogate (c : N) : bool := between 56320 57343 c.

(** The one-character escapes. *)
Definition simple_escape (c : N) : option N :=
  (if (c =? 34) || (c =? 92) || (c =? 47) then Some c
   else if c =? 98 then Some 8
   else if c =? 102 then Some 12
   else if c =? 110 then Some 10
   else if c =? 114 then Some 13
   else if c =? 116 then Some 9
   else None)%N.

(** Put a decoded code point in front of what follows it. *)
Definition push (c : N) (r : option (pystr * pystr)) : option (pystr * pystr) :=
  '(t, rest) ← r; Some (c :: t, rest).

(** The body of a string literal, after its opening quote: a [\uXXXX] high
    surrogate joins a [\uXXXX] low surrogate that follows it. *)
Fixpoint parse_str (s : pystr) : option (pystr * pystr) :=
  match s with
  | [] => None
  | c :: r =>
      if (c =? 34)%N then Some ([], r)
      else if (c =? 92)%N then
        match r with
        | [] => None
        | e :: r =>
            match simple_escape e with
            | Some x => push x (parse_str r)
            | None =>
                if (e =? 117)%N then
                  match r with
                  | h1 :: h2 :: h3 :: h4 :: r =>
                      x ← hex4_value h1 h2 h3 h4;
                      if high_surrogate x then
                        match r with
                        | b :: v :: l1 :: l2 :: l3 :: l4 :: r' =>
                            if ((b =? 92) && (v =? 117))%N then
                              y ← hex4_value l1 l2 l3 l4;
                              if low_surrogate y
                              then push (65536 + (x - 55296) * 1024 + (y - 56320))%N
                                     (parse_str r')
                              else push x (parse_str r)
                            else push x (parse_str r)
                        | _ => push x (parse_str r)
                        end
                      else push x (parse_str r)
                  | _ => None
                  end
                else None
            end
        end
      else if (c <? 32)%N then None
      else push c (parse_str r)
  end.

Definition scan_int (s : pystr) : option (pystr * pystr) :=
  match s with
  | [] => None
  | c :: rest =>
      if (c =? 48)%N then Some ([c], rest)
      else if ascii_digit c then Some (span ascii_digit s) else None
  end.

Definition scan_frac (s : pystr) : pystr * pystr :=
  match s with
  | 46%N :: rest =>
      match span ascii_digit rest with
      | ([], _) => ([], s)
      | (ds, rest') => (46%N :: ds, rest')
      end
  | _ => ([], s)
  end.

Definition scan_exp (s : pystr) : pystr * pystr :=
  match s with
  | c :: rest =>
      if ((c =? 101) || (c =? 69))%N then
        let '(sign, rest1) :=
          match rest with
          | x :: r => if ((x =? 43) || (x =? 45))%N then ([x], r) else ([], rest)
          | [] => ([], rest)
          end in
        match span ascii_digit rest1 with
        | ([], _) => ([], s)
        | (ds, rest') => (c :: sign ++ ds, rest')
        end
      else ([], s)
  | [] => ([], s)
  end.

Definition split_sign (s : pystr) : bool * pystr :=
  match s with
  | c :: r => if (c =? 45)%N then (true, r) else (false, s)
  | [] => (false, s)
  end.

(** [int(text)] of ASCII digits. *)
Definition N_of_digits (ds : pystr) : N :=
  foldl (fun acc c => 10 * acc + (c - 48))%N 0%N ds.

Section parse.
Context {rt : PyRuntime}.

Definition parse_number (s : pystr) : option (json * pystr) :=
  let '(neg, s1) := split_sign s in
  '(int, s2) ← scan_int s1;
  let '(frac, s3) := scan_frac s2 in
  let '(exp, s4) := scan_exp s3 in
  let z := Z.of_N (N_of_digits int) in
  Some (match frac, exp with
        | [], [] => JInt (if neg : bool then - z else z)
        | _, _ => JFloat (float_parse (number_text neg int frac exp))
        end, s4).

Definition parse_atom (s : pystr) : option (json * pystr) :=
  let keyword w v k :=
    if starts_with (u w) s then Some (v, drop (length (u w)) s) else k in
  keyword "null"%string JNull
    (keyword "true"%string (JBool true)
      (keyword "false"%string (JBool false)
        (keyword "NaN"%string (JFloat S754_nan)
          (keyword "Infinity"%string (JFloat (S754_infinity false))
            (keyword "-Infinity"%string (JFloat (S754_infinity true))
              (parse_number s)))))).

(** A value, the elements of a non-empty array, the members of a non-empty
    object.  Every call consumes fuel; [loads] gives two units per
    character, which [parse_fuel] below shows to be enough. *)
Fixpoint parse_value (fuel : nat) (s : pystr) : option (json * pystr) :=
  match fuel with
  | O => None
  | S fuel =>
      match s with
      | [] => None
      | c :: r =>
          if (c =? 34)%N then '(t, r) ← parse_str r; Some (JStr t, r)
          else if (c =? 91)%N then
            match expect 93 (skip_ws r) with
            | Some r => Some (JList [], r)
            | None => '(l, r) ← parse_elements fuel (skip_ws r); Some (JList l, r)
            end
          else if (c =? 123)%N then
            match expect 125 (skip_ws r) with
            | Some r => Some (JObj [], r)
            | None =>
                '(kvs, r) ← parse_members fuel (skip_ws r);
                Some (JObj (dict_of kvs), r)
            end
          else parse_atom s
      end
  end
with parse_elements (fuel : nat) (s : pystr) : option (list json * pystr) :=
  match fuel with
  | O => None
  | S fuel =>
      '(v, r) ← parse_value fuel s;
      match expect 44 (skip_ws r) with
      | Some r => '(l, r) ← parse_elements fuel (skip_ws r); Some (v :: l, r)
      | None => r ← expect 93 (skip_ws r); Some ([v], r)
      end
  end
with parse_members (fuel : nat) (s : pystr) : option (list (pystr * json) * pystr) :=
  match fuel with
  | O => None
  | S fuel =>
      r ← expect 34 s;
      '(k, r) ← parse_str r;
      r ← expect 58 (skip_ws r);
      '(v, r) ← parse_value fuel (skip_ws r);
      match expect 44 (skip_ws r) with
      | Some r => '(kvs, r) ← parse_members fuel (skip_ws r); Some ((k, v) :: kvs, r)
      | None => r ← expect 125 (skip_ws r); Some ([(k, v)], r)
      end
  end.

(** [json.loads(s)]; [None] is [JSONDecodeError]. *)
Definition loads (s : pystr) : option json :=
  let s := skip_ws s in
  '(v, rest) ← parse_value (2 * length s) s;
  match skip_ws rest with [] => Some v | _ => None end.

(** ** The limits of the decoder

    [int] refuses more than 4300 digits with a [ValueError] that is no
    [JSONDecodeError], as soon as the decoder meets such a literal.  [value]
    is the decoder that finds where a value ends: what stops it comes first.
    [deep_enough] says for which texts the stack suffices. *)
Definition MAX_STR_DIGITS : Z := 4300.

Section limits.
Variable deep_enough : pystr -> bool.
Variable value : nat -> pystr -> option (json * pystr).

Definition long_integer (s : pystr) : bool :=
  match scan_int (split_sign s).2 with
  | None => false
  | Some (int, s2) =>
      match scan_frac s2 with
      | ([], s3) => bool_decide ((scan_exp s3).1 = []) && (MAX_STR_DIGITS <? zlen int)
      | _ => false
      end
  end.

Fixpoint over_value (fuel : nat) (s : pystr) : bool :=
  match fuel with
  | O => false
  | S fuel =>
      match s with
      | [] => false
      | c :: r =>
          if (c =? 34)%N then false
          else if (c =? 91)%N then
            match expect 93 (skip_ws r) with
            | Some _ => false
            | None => over_elements fuel (skip_ws r)
            end
          else if (c =? 123)%N then
            match expect 125 (skip_ws r) with
            | Some _ => false
            | None => over_members fuel (skip_ws r)
            end
          else long_integer s
      end
  end
with over_elements (fuel : nat) (s : pystr) : bool :=
  match fuel with
  | O => false
  | S fuel =>
      over_value fuel s ||
      match value fuel s with
      | None => false
      | Some (_, r) =>
          match expect 44 (skip_ws r) with
          | Some r => over_elements fuel (skip_ws r)
          | None => false
          end
      end
  end
with over_members (fuel : nat) (s : pystr) : bool :=
  match fuel with
  | O => false
  | S fuel =>
      match (r ← expect 34 s; '(_, r) ← parse_str r; expect 58 (skip_ws r)) with
      | None => false
      | Some r =>
          over_value fuel (skip_ws r) ||
          match value fuel (skip_ws r) with
          | None => false
          | Some (_, r) =>
              match expect 44 (skip_ws r) with
              | Some r => over_members fuel (skip_ws r)
              | None => false
              end
          end
      end
  end.

(** What leaves the decoder instead of a value or a [JSONDecodeError]. *)
Definition decoder_limit (s : pystr) : option exn :=
  let s' := skip_ws s in
  if negb (deep_enough s) then Some (Exn RecursionError "maximum recursion depth exceeded")
  else if over_value (2 * length s') s'
  then Some (Exn ValueError "Exceeds the limit (4300 digits) for integer string conversion")
  else None.

Lemma decoder_limit_class s e : decoder_limit s = Some e ->
  exn_cls e = RecursionError /\ deep_enough s = false \/
  exn_cls e = ValueError /\ over_value (2 * length (skip_ws s)) (skip_ws s) = true.
Proof.
  unfold decoder_limit. cbv zeta. destruct (deep_enough s); cbn [negb]; [|intros [= <-]; by left].
  destruct (over_value _ _); [|done]. intros [= <-]. by right.
Qed.
End limits.

(** [json.loads(s)] with all that it raises. *)
Definition json_loads (deep_enough : pystr -> bool) (s : pystr) : result json :=
  match decoder_limit deep_enough parse_value s with
  | Some e => Raise e
  | None => or_raise (loads s) (Exn JSONDecodeError "")
  end.
End parse.
