(* ===== verification/JsonFacts.v ===== *)
(** * Facts about the JSON printer and parser

    The fuel of the parser is enough for every text ([parse_value_fuel]); the
    parser returns the value that was printed ([loads_print]), so the
    canonical text determines the value up to the order of its keys
    ([dumps_canonical_inj]). *)
From S2P Require Import Prelude PyText Json.
From Stdlib Require Import SpecFloat.

(** ** Decimal digits *)

Lemma digits_aux_value fuel n acc a :
  (n < 10 ^ N.of_nat fuel)%N ->
  foldl (fun acc c => 10 * acc + (c - 48))%N 0%N (digits_aux fuel n acc) = a <->
  foldl (fun acc c => 10 * acc + (c - 48))%N n acc = a.
Proof.
  revert n acc; induction fuel as [|fuel IH]; intros n acc Hn; simpl.
  - change (10 ^ N.of_nat 0)%N with 1%N in Hn. by replace n with 0%N by lia.
  - destruct (N.ltb_spec n 10) as [Hlt|Hge]; simpl.
    + by replace (48 + n - 48)%N with n by lia.
    + rewrite Nat2N.inj_succ, N.pow_succ_r' in Hn.
      rewrite IH by (apply N.Div0.div_lt_upper_bound; lia). simpl.
      replace (10 * (n / 10) + (48 + n mod 10 - 48))%N with n; [done|].
      pose proof (N.div_mod' n 10) as Hdm. revert Hdm.
      generalize (n / 10)%N (n mod 10)%N. lia.
Qed.

Lemma size_fuel n : (n < 10 ^ N.of_nat (S (N.to_nat (N.size n))))%N.
Proof.
  rewrite Nat2N.inj_succ, N2Nat.id, N.pow_succ_r'.
  eapply N.lt_le_trans; [apply N.size_gt|].
  transitivity (10 ^ N.size n)%N; [apply N.pow_le_mono_l; lia|].
  pose proof (N.pow_nonzero 10 (N.size n)). lia.
Qed.

Lemma N_of_digits_digits n : N_of_digits (digits n) = n.
Proof. unfold N_of_digits, digits. 
  by apply (digits_aux_value _ n [] n (size_fuel n)).
Qed.

Lemma digits_aux_digits fuel n acc :
  forallb ascii_digit acc = true -> forallb ascii_digit (digits_aux fuel n acc) = true.
Proof.
  revert n acc; induction fuel as [|fuel IH]; intros n acc Hacc; simpl; [done|].
  assert (forall m, (m < 10)%N -> ascii_digit (48 + m) = true) as Hd.
  { intros m Hm. unfold ascii_digit, between. apply andb_true_iff.
    rewrite !N.leb_le. lia. }
  destruct (N.ltb_spec n 10); simpl.
  - by rewrite Hd, Hacc by lia.
  - apply IH; simpl. rewrite Hacc, Hd by (apply N.mod_lt; lia). done.
Qed.

Lemma digits_aux_head fuel n acc :
  (n < 10 ^ N.of_nat fuel)%N -> (0 < n)%N ->
  exists c rest, digits_aux fuel n acc = c :: rest /\ c <> 48%N.
Proof.
  revert n acc; induction fuel as [|fuel IH]; intros n acc Hn Hpos.
  - change (10 ^ N.of_nat 0)%N with 1%N in Hn. lia.
  - simpl. destruct (N.ltb_spec n 10).
    + eexists _, _; split; [done|]. lia.
    + rewrite Nat2N.inj_succ, N.pow_succ_r' in Hn.
      apply IH; [apply N.Div0.div_lt_upper_bound; lia|].
      apply N.div_str_pos; lia.
Qed.

Lemma int_digits_digits n : int_digits (digits n) = true.
Proof.
  destruct (N.eq_dec n 0) as [->|Hne]; [done|].
  pose proof (digits_aux_digits (S (N.to_nat (N.size n))) n [] eq_refl) as Hall.
  destruct (digits_aux_head (S (N.to_nat (N.size n))) n []) as (c & rest & Hd & Hc);
    [apply size_fuel | lia |].
  unfold digits. rewrite Hd in *. clear Hd. simpl.
  destruct c as [|p]; [done|]. repeat (destruct p as [p|p|]; try done).
Qed.

(** ** Scanning *)

(** A text that cannot continue a number. *)
Definition num_end (s : pystr) : bool :=
  match s with
  | [] => true
  | c :: _ => negb (ascii_digit c) && negb ((c =? 46) || (c =? 101) || (c =? 69))%N
  end.

Lemma span_app p s rest :
  forallb p s = true -> match rest with [] => True | c :: _ => p c = false end ->
  span p (s ++ rest) = (s, rest).
Proof.
  intros Hs Hrest. induction s as [|c s IH]; simpl in *.
  - destruct rest as [|c rest]; simpl; [done|]. by rewrite Hrest.
  - apply andb_true_iff in Hs as [Hc Hs]. by rewrite Hc, IH.
Qed.

Lemma span_length p s : (length (span p s).2 <= length s)%nat.
Proof.
  induction s as [|c s IH]; simpl; [done|]. destruct (p c); simpl; [|lia].
  destruct (span p s); simpl in *; lia.
Qed.

Lemma skip_ws_length s : (length (skip_ws s) <= length s)%nat.
Proof.
  unfold skip_ws. induction s as [|c s IH]; simpl; [done|].
  destruct (json_space c); simpl; lia.
Qed.

Lemma not_digit_end s :
  num_end s = true -> match s with [] => True | c :: _ => ascii_digit c = false end.
Proof. destruct s; simpl; [done|]. intros H; bools. done. Qed.

Lemma scan_int_app int rest :
  int_digits int = true -> num_end rest = true \/ (exists c r, rest = c :: r /\ ascii_digit c = false) ->
  scan_int (int ++ rest) = Some (int, rest).
Proof.
  intros Hint Hrest.
  assert (match rest with [] => True | c :: _ => ascii_digit c = false end) as Hnd.
  { destruct Hrest as [?|(c & r & -> & ?)]; [by apply not_digit_end | done]. }
  destruct int as [|c int]; [done|]. simpl.
  destruct (N.eqb_spec c 48) as [->|Hc].
  - simpl in Hint. apply bool_decide_eq_true in Hint as ->. done.
  - assert (ascii_digit c = true /\ forallb ascii_digit int = true) as [Hd Hds].
    { simpl in Hint. destruct c as [|p]; [done|].
      repeat (destruct p as [p|p|]; try (by apply andb_true_iff in Hint); try done). }
    rewrite Hd. f_equal.
    rewrite (span_app ascii_digit int rest); done.
Qed.

Lemma scan_frac_app frac rest :
  frac_ok frac = true -> num_end rest = true \/ (exists c r, rest = c :: r /\ (c = 101 \/ c = 69)%N) ->
  scan_frac (frac ++ rest) = (frac, rest).
Proof.
  intros Hf Hrest.
  assert (match rest with [] => True | c :: _ => ascii_digit c = false /\ c <> 46%N end) as Hnd.
  { destruct Hrest as [H|(c & r & -> & [->| ->])]; [|done|done].
    destruct rest; [done|]. simpl in H. bools. done. }
  destruct frac as [|c ds]; simpl.
  - destruct rest as [|c r]; simpl; [done|]. destruct Hnd as [_ Hne].
    destruct c as [|p]; [done|]. by repeat (destruct p as [p|p|]; try done).
  - assert (c = 46%N /\ ascii_digits ds = true) as [-> Hds].
    { simpl in Hf. destruct c as [|p]; [done|]. by repeat (destruct p as [p|p|]; try done). }
    destruct ds as [|d ds]; [done|]. rewrite <- app_comm_cons.
    change (d :: ds ++ rest) with ((d :: ds) ++ rest).
    rewrite span_app; [done | done|]. by destruct rest; [|destruct Hnd].
Qed.

Lemma scan_exp_app exp rest :
  exp_ok exp = true -> num_end rest = true -> scan_exp (exp ++ rest) = (exp, rest).
Proof.
  intros He Hrest. pose proof (not_digit_end rest Hrest) as Hnd.
  destruct exp as [|c exp]; simpl.
  - destruct rest as [|c r]; simpl; [done|]. simpl in Hrest. bools.
    by destruct (N.eqb_spec c 101), (N.eqb_spec c 69).
  - simpl in He. apply andb_true_iff in He as [Hc He]. rewrite Hc.
    destruct exp as [|x ds]; [done|]. simpl.
    destruct ((x =? 43)%N || (x =? 45)%N) eqn:Hx.
    + destruct ds as [|d ds]; [done|].
      rewrite (span_app ascii_digit (d :: ds) rest); done.
    + change (x :: ds ++ rest) with ((x :: ds) ++ rest).
      rewrite (span_app ascii_digit (x :: ds) rest); done.
Qed.

Section numbers.
Context {rt : PyRuntime}.

Lemma digit_char c : ascii_digit c = true -> (48 <= c <= 57)%N.
Proof.
  unfold ascii_digit, between. rewrite andb_true_iff, !N.leb_le. done.
Qed.

Lemma int_digits_head int : int_digits int = true ->
  exists c ds, int = c :: ds /\ ascii_digit c = true.
Proof.
  destruct int as [|c ds]; [done|]. intros H. exists c, ds; split; [done|].
  simpl in H. destruct c as [|p]; [done|].
  repeat (destruct p as [p|p|]; try (by apply andb_true_iff in H); try done).
Qed.

Lemma split_sign_text (neg : bool) int frac exp rest :
  int_digits int = true ->
  split_sign (number_text neg int frac exp ++ rest) = (neg, int ++ frac ++ exp ++ rest).
Proof.
  intros Hi. destruct (int_digits_head int Hi) as (c & ds & -> & Hc).
  apply digit_char in Hc. unfold number_text. destruct neg; simpl.
  - by rewrite <- !app_assoc.
  - destruct (N.eqb_spec c 45); [lia|]. by rewrite <- !app_assoc.
Qed.

Lemma parse_number_text (neg : bool) int frac exp rest :
  int_digits int = true -> frac_ok frac = true -> exp_ok exp = true ->
  num_end rest = true ->
  parse_number (number_text neg int frac exp ++ rest) =
  Some (match frac, exp with
        | [], [] => JInt (if neg then - Z.of_N (N_of_digits int)
                          else Z.of_N (N_of_digits int))
        | _, _ => JFloat (float_parse (number_text neg int frac exp))
        end, rest).
Proof.
  intros Hi Hf He Hr. unfold parse_number.
  rewrite split_sign_text by done.
  rewrite scan_int_app; [simpl|done|].
  - rewrite scan_frac_app; [|done|].
    + by rewrite scan_exp_app.
    + destruct exp as [|x exp]; [by left | right].
      simpl in He. apply andb_true_iff in He as [He _].
      apply orb_true_iff in He. rewrite !N.eqb_eq in He. by eexists _, _.
  - destruct frac as [|x frac]; simpl.
    + destruct exp as [|x exp]; [by left | right].
      simpl in He. apply andb_true_iff in He as [He _].
      apply orb_true_iff in He. rewrite !N.eqb_eq in He.
      eexists _, _; split; [done|]. by destruct He as [->| ->].
    + right. eexists _, _; split; [done|].
      simpl in Hf. destruct x as [|p]; [done|].
      by repeat (destruct p as [p|p|]; try done).
Qed.

Lemma print_int z rest : num_end rest = true ->
  parse_number (str_of_Z z ++ rest) = Some (JInt z, rest).
Proof.
  intros Hr. pose proof (parse_number_text (z <? 0) (digits (Z.abs_N z)) [] [] rest) as H.
  unfold number_text in H. rewrite !app_nil_r in H. unfold str_of_Z.
  rewrite H by (done || apply int_digits_digits). rewrite N_of_digits_digits.
  do 3 f_equal. destruct (Z.ltb_spec z 0); lia.
Qed.
End numbers.

(** ** String literals *)

(** A Unicode scalar value: a code point that UTF-8 can encode. *)
Definition scalar (c : N) : bool :=
  (c <? 1114112)%N && negb (between 55296 57343 c).
Definition scalar_text (s : pystr) : bool := forallb scalar s.

Lemma hex_value_digit n : (n < 16)%N -> hex_value (hex_digit n) = Some n.
Proof.
  intros Hn. unfold hex_value, hex_digit, between.
  destruct (N.ltb_spec n 10);
    repeat match goal with |- context [(?a <=? ?b)%N] => destruct (N.leb_spec a b) end;
    simpl; first [lia | f_equal; lia].
Qed.

Lemma hex4_digits c : (c < 65536)%N ->
  (4096 * (c / 4096 mod 16) + 256 * (c / 256 mod 16) + 16 * (c / 16 mod 16) + c mod 16 = c)%N.
Proof.
  intros Hc.
  assert (forall m, c / (m * 16) = c / m / 16)%N as Hdiv.
  { intros m. by rewrite N.Div0.div_div. }
  pose proof (N.div_mod' c 16) as H0. pose proof (N.div_mod' (c / 16) 16) as H1.
  pose proof (N.div_mod' (c / 256) 16) as H2.
  rewrite <- (Hdiv 16%N) in H1. rewrite <- (Hdiv 256%N) in H2.
  change (16 * 16)%N with 256%N in *. change (256 * 16)%N with 4096%N in *.
  assert (c / 4096 < 16)%N by (apply N.Div0.div_lt_upper_bound; lia).
  rewrite (N.mod_small (c / 4096)) by done. revert H0 H1 H2.
  generalize (c / 4096)%N (c / 256)%N (c / 16)%N (c mod 16)%N (c / 16 mod 16)%N
    (c / 256 mod 16)%N. lia.
Qed.

Lemma hex4_value_hex4 c : (c < 65536)%N ->
  match hex4 c with
  | [a; b; x; d] => hex4_value a b x d = Some c
  | _ => False
  end.
Proof.
  intros Hc. unfold hex4, hex4_value.
  rewrite !hex_value_digit by (apply N.mod_lt; lia). simpl. by rewrite hex4_digits.
Qed.

Lemma parse_str_unicode c rest : (c < 65536)%N -> high_surrogate c = false ->
  parse_str ([92; 117]%N ++ hex4 c ++ rest) = push c (parse_str rest).
Proof.
  intros Hc Hs. pose proof (hex4_value_hex4 c Hc) as Hv. unfold hex4 in *.
  cbn -[hex4_value N.div N.modulo parse_str]. simpl parse_str at 1.
  rewrite Hv. simpl. by rewrite Hs.
Qed.

Lemma parse_str_surrogates x y rest :
  (x < 65536)%N -> (y < 65536)%N -> high_surrogate x = true -> low_surrogate y = true ->
  parse_str ([92; 117]%N ++ hex4 x ++ [92; 117]%N ++ hex4 y ++ rest) =
  push (65536 + (x - 55296) * 1024 + (y - 56320))%N (parse_str rest).
Proof.
  intros Hx Hy Hhx Hly.
  pose proof (hex4_value_hex4 x Hx) as Hvx. pose proof (hex4_value_hex4 y Hy) as Hvy.
  unfold hex4 in *. simpl parse_str at 1.
  rewrite Hvx. simpl. rewrite Hhx, Hvy. simpl. by rewrite Hly.
Qed.

Lemma parse_str_escape c rest : scalar c = true ->
  parse_str (escape_char c ++ rest) = push c (parse_str rest).
Proof.
  intros Hs. unfold scalar, between in Hs. apply andb_true_iff in Hs as [Hlt Hns].
  apply N.ltb_lt in Hlt. apply negb_true_iff, andb_false_iff in Hns.
  rewrite !N.leb_gt in Hns. unfold escape_char.
  repeat match goal with
  | |- context [if (c =? ?k)%N then _ else _] =>
      destruct (N.eqb_spec c k) as [->|?]; [done|]
  end.
  destruct (between 32 126 c) eqn:Hp.
  - unfold between in Hp. apply andb_true_iff in Hp. rewrite !N.leb_le in Hp. simpl.
    destruct (N.eqb_spec c 34), (N.eqb_spec c 92); try done.
    destruct (N.ltb_spec c 32); [lia|done].
  - destruct (N.ltb_spec c 65536).
    + rewrite <- app_assoc. apply parse_str_unicode; [done|].
      unfold high_surrogate, between. apply andb_false_iff. rewrite !N.leb_gt. lia.
    + assert ((c - 65536) / 1024 < 1024)%N by (apply N.Div0.div_lt_upper_bound; lia).
      pose proof (N.mod_lt (c - 65536) 1024 ltac:(done)).
      pose proof (N.div_mod' (c - 65536) 1024) as Hdm.
      revert H0 H1 Hdm.
      generalize ((c - 65536) / 1024)%N ((c - 65536) mod 1024)%N. intros q r Hq Hr Hdm.
      rewrite <- !app_assoc, parse_str_surrogates; try lia.
      * f_equal. lia.
      * unfold high_surrogate, between. apply andb_true_iff. rewrite !N.leb_le. lia.
      * unfold low_surrogate, between. apply andb_true_iff. rewrite !N.leb_le. lia.
Qed.

Lemma parse_str_print s rest : scalar_text s = true ->
  parse_str ((s ≫= escape_char) ++ [34%N] ++ rest) = Some (s, rest).
Proof.
  induction s as [|c s IH]; intros Hs; [done|]. simpl in Hs.
  apply andb_true_iff in Hs as [Hc Hs]. cbn [mbind list_bind].
  rewrite <- app_assoc, parse_str_escape by done.
  change (list_bind _ _ escape_char s) with (s ≫= escape_char).
  rewrite IH by done. done.
Qed.

(** ** Well-formed values *)

(** What [loads] can build from scalar text: keys are distinct, strings are
    scalar text, finite floats are binary64. *)
Definition float_ok (x : spec_float) : bool :=
  match x with S754_finite _ _ _ => float_finite x | _ => true end.

Fixpoint json_wf (v : json) : bool :=
  match v with
  | JFloat x => float_ok x
  | JStr s => scalar_text s
  | JList l => forallb json_wf l
  | JObj kvs =>
      no_repeats (keys kvs) &&
      forallb (fun kv => scalar_text kv.1 && json_wf kv.2) kvs
  | _ => true
  end.

Lemma str_eqb_sym s t : str_eqb s t = str_eqb t s.
Proof. unfold str_eqb. apply bool_decide_ext. naive_solver. Qed.

Section dict_facts.
Context {A : Type}.
Implicit Types (d : list (pystr * A)).

Lemma dict_set_fresh k v d : k ∉ keys d -> dict_set k v d = d ++ [(k, v)].
Proof.
  induction d as [|[k' v'] d IH]; simpl; [done|].
  rewrite not_elem_of_cons. intros [Hne Hd].
  rewrite (proj2 (str_eqb_neq k k')) by done. by rewrite IH.
Qed.

Lemma dict_of_nodup_aux d0 d :
  NoDup (keys d0 ++ keys d) ->
  foldl (fun d kv => dict_set kv.1 kv.2 d) d0 d = d0 ++ d.
Proof.
  revert d0; induction d as [|[k v] d IH]; intros d0 Hnd; simpl; [by rewrite app_nil_r|].
  rewrite dict_set_fresh.
  - rewrite IH; [by rewrite <- app_assoc|]. unfold keys in *.
    by rewrite fmap_app, <- app_assoc.
  - apply NoDup_app in Hnd as (_ & Hd & _). intros Hin.
    apply (Hd _ Hin). left.
Qed.

Lemma dict_of_nodup d : NoDup (keys d) -> dict_of d = d.
Proof. apply (dict_of_nodup_aux []). Qed.

Lemma dict_get_In k v d : dict_get k d = Some v -> (k, v) ∈ d.
Proof.
  induction d as [|[k' v'] d IH]; simpl; [done|].
  destruct (str_eqb k k') eqn:E.
  - apply str_eqb_eq in E as ->. intros [= ->]. left.
  - intros H. right. by apply IH.
Qed.

Lemma dict_get_NoDup k v d : NoDup (keys d) -> (k, v) ∈ d -> dict_get k d = Some v.
Proof.
  induction d as [|[k' v'] d IH]; simpl; intros Hnd Hin; [by apply not_elem_of_nil in Hin|].
  apply NoDup_cons in Hnd as [Hk Hnd]. apply elem_of_cons in Hin as [[= -> ->]|Hin].
  - by rewrite str_eqb_refl.
  - destruct (str_eqb k k') eqn:E; [|by apply IH].
    apply str_eqb_eq in E as ->. destruct Hk. apply list_elem_of_fmap.
    by exists (k', v).
Qed.

Lemma dict_get_Permutation k d d' :
  NoDup (keys d) -> d ≡ₚ d' -> dict_get k d = dict_get k d'.
Proof.
  intros Hnd Hp. assert (NoDup (keys d')) as Hnd' by (unfold keys; by rewrite <- Hp).
  apply option_eq. intros v.
  split; intros H%dict_get_In; apply dict_get_NoDup; auto; by rewrite Hp in * || rewrite <- Hp.
Qed.
End dict_facts.

(** ** Printing then parsing *)

Section roundtrip.
Context {rt : PyRuntime} {laws : PyRuntimeLaws rt}.

Lemma print_float_finite x : float_finite x = true -> print_float x = float_repr x.
Proof. by destruct x as [?|[]| |]. Qed.

Lemma parse_atom_number neg int frac exp rest :
  int_digits int = true -> frac_ok frac = true -> exp_ok exp = true ->
  num_end rest = true ->
  parse_atom (number_text neg int frac exp ++ rest) =
  parse_number (number_text neg int frac exp ++ rest).
Proof.
  intros Hi _ _ _. destruct (int_digits_head int Hi) as (c & ds & -> & Hc).
  apply digit_char in Hc. unfold parse_atom, number_text.
  destruct neg; cbn;
    repeat match goal with
    | |- context [(?k =? c)%N] => destruct (N.eqb_spec k c); [lia|]
    end; done.
Qed.

Lemma number_head neg int frac exp rest : int_digits int = true ->
  exists c r, number_text neg int frac exp ++ rest = c :: r /\
    (c <> 34 /\ c <> 91 /\ c <> 123 /\ c <> 93 /\ c <> 125 /\ json_space c = false)%N.
Proof.
  intros Hi. destruct (int_digits_head int Hi) as (c & ds & -> & Hc).
  apply digit_char in Hc. unfold number_text. destruct neg; simpl.
  - by eexists _, _.
  - eexists _, _; split; [done|]. unfold json_space.
    repeat match goal with
    | |- context [(c =? ?k)%N] => destruct (N.eqb_spec c k); [lia|]
    end. repeat split; (lia || done).
Qed.

Lemma parse_value_number fuel neg int frac exp rest :
  int_digits int = true -> frac_ok frac = true -> exp_ok exp = true ->
  num_end rest = true -> (0 < fuel)%nat ->
  parse_value fuel (number_text neg int frac exp ++ rest) =
  parse_number (number_text neg int frac exp ++ rest).
Proof.
  intros Hi Hf He Hr Hfuel. destruct fuel as [|fuel]; [lia|].
  rewrite <- parse_atom_number by done.
  destruct (number_head neg int frac exp rest Hi) as (c & r & E & H1 & H2 & H3 & _).
  rewrite E. simpl. apply N.eqb_neq in H1, H2, H3. by rewrite H1, H2, H3.
Qed.

(** A printed value starts with a character that is neither space nor a
    closing bracket. *)
Definition value_head (s : pystr) : bool :=
  match s with
  | [] => false
  | c :: _ => negb (json_space c) && negb ((c =? 93) || (c =? 125))%N
  end.

Lemma value_head_app s rest : value_head s = true -> value_head (s ++ rest) = true.
Proof. by destruct s. Qed.

Lemma print_head v : json_wf v = true -> value_head (print v) = true.
Proof.
  destruct v as [|[]|z|x|s|l|kvs]; try done.
  - intros _. simpl. unfold str_of_Z.
    destruct (number_head (z <? 0) (digits (Z.abs_N z)) [] [] [] (int_digits_digits _))
      as (c & r & E & H). rewrite app_nil_r in E. unfold number_text in E.
    rewrite !app_nil_r in E. rewrite E. destruct H as (_ & _ & _ & H4 & H5 & H6).
    simpl. apply N.eqb_neq in H4, H5. by rewrite H6, H4, H5.
  - simpl. destruct x as [b|[]| |b m e]; try done; intros Hx.
    all: rewrite print_float_finite by done.
    all: match goal with |- context [float_repr ?x] =>
      destruct (float_repr_literal x) as (neg & int & frac & exp & -> & Hi & _); [done|];
      destruct (number_head neg int frac exp [] Hi) as (c & r & E & H) end.
    all: rewrite app_nil_r in E; rewrite E; destruct H as (_ & _ & _ & H4 & H5 & H6);
      simpl; apply N.eqb_neq in H4, H5; by rewrite H6, H4, H5.
Qed.

Lemma skip_ws_head s : value_head s = true -> skip_ws s = s.
Proof.
  intros H. apply drop_while_fix. destruct s; [done|]. simpl in H.
  apply andb_true_iff in H as [H _]. by apply negb_true_iff.
Qed.

(** What may follow a value: the end, a comma or a closing bracket. *)
Definition follows (s : pystr) : bool :=
  match s with [] => true | c :: _ => ((c =? 44) || (c =? 93) || (c =? 125))%N end.

Lemma follows_num_end s : follows s = true -> num_end s = true.
Proof.
  destruct s as [|c s]; [done|]. simpl. rewrite !orb_true_iff, !N.eqb_eq.
  by intros [[->| ->]| ->].
Qed.

Lemma follows_skip s : follows s = true -> skip_ws s = s.
Proof.
  intros H. apply drop_while_fix. destruct s as [|c s]; [done|]. simpl in H.
  rewrite !orb_true_iff, !N.eqb_eq in H. by destruct H as [[->| ->]| ->].
Qed.

Implicit Types (v : json) (rest : pystr).

Lemma parse_value_float fuel x rest :
  float_ok x = true -> follows rest = true -> (0 < fuel)%nat ->
  parse_value fuel (print_float x ++ rest) = Some (JFloat x, rest).
Proof.
  intros Hx Hr Hfuel. destruct (float_finite x) eqn:Hfin.
  - rewrite print_float_finite by done.
    destruct (float_repr_literal x Hfin) as (neg & int & frac & exp & E & Hi & Hf & He & Hne).
    pose proof (float_parse_repr x Hfin) as Hp. rewrite E in *.
    rewrite parse_value_number, parse_number_text, Hp by auto using follows_num_end.
    destruct frac, exp; [|done..]. by destruct Hne as [[]|[]].
  - destruct fuel as [|fuel]; [lia|]. destruct x as [?|[]| |]; first [reflexivity | simpl in *; congruence].
Qed.

(** Parsing a printed value gives the value back and stops after it. *)
Definition parses_back v : Prop :=
  forall fuel rest, json_wf v = true -> follows rest = true ->
    (2 * length (print v) <= fuel)%nat ->
    parse_value fuel (print v ++ rest) = Some (v, rest).

Lemma print_nonempty v : json_wf v = true -> (0 < length (print v))%nat.
Proof. intros H%print_head. destruct (print v); simpl; [done | lia]. Qed.

Lemma skip_ws_punct c s : (c =? 44)%N || (c =? 58)%N || (c =? 125)%N = true ->
  skip_ws (c :: s) = c :: s.
Proof. rewrite !orb_true_iff, !N.eqb_eq. by intros [[->| ->]| ->]. Qed.

Lemma expect_same c s : expect c (c :: s) = Some s.
Proof. simpl. by rewrite N.eqb_refl. Qed.

Lemma join_cons2 sep (a b : pystr) l :
  join sep (a :: b :: l) = a ++ sep ++ join sep (b :: l).
Proof. done. Qed.

Lemma join_head v l : forallb json_wf (v :: l) = true ->
  value_head (join [44%N] (map print (v :: l))) = true.
Proof.
  simpl. rewrite andb_true_iff. intros [Hv%print_head _].
  destruct l; [done|]. by apply value_head_app.
Qed.

Lemma parse_elements_print l v : Forall parses_back (v :: l) ->
  forallb json_wf (v :: l) = true -> forall fuel rest,
  (2 * length (join [44%N] (map print (v :: l))) + 1 <= fuel)%nat ->
  parse_elements fuel (join [44%N] (map print (v :: l)) ++ [93%N] ++ rest) =
  Some (v :: l, rest).
Proof.
  revert v. induction l as [|v' l IH]; intros v Hback Hwf fuel rest Hfuel;
    apply Forall_cons in Hback as [Hv Hl]; simpl in Hwf;
    apply andb_true_iff in Hwf as [Hwv Hwl]; destruct fuel as [|fuel]; [lia| |lia|].
  - simpl in *. by rewrite Hv by (done || lia).
  - specialize (IH v' Hl Hwl fuel rest).
    cbn [map] in *. rewrite join_cons2 in *. rewrite !length_app in Hfuel.
    cbn [length] in Hfuel. rewrite <- !app_assoc. cbn [parse_elements].
    rewrite Hv by (done || lia). cbn [mbind option_bind app].
    rewrite skip_ws_punct, expect_same by done. cbv iota.
    rewrite skip_ws_head by by apply value_head_app, (join_head v' l).
    change (93%N :: rest) with ([93%N] ++ rest).
    rewrite IH by lia. done.
Qed.

Definition print_member (kv : pystr * json) : pystr :=
  print_str kv.1 ++ [58%N] ++ print kv.2.

Lemma parse_members_print l kv : Forall (fun kv => parses_back kv.2) (kv :: l) ->
  forallb (fun kv => scalar_text kv.1 && json_wf kv.2) (kv :: l) = true ->
  forall fuel rest,
  (2 * length (join [44%N] (map print_member (kv :: l))) + 1 <= fuel)%nat ->
  parse_members fuel (join [44%N] (map print_member (kv :: l)) ++ [125%N] ++ rest) =
  Some (kv :: l, rest).
Proof.
  revert kv. induction l as [|kv' l IH]; intros [k v] Hback Hwf fuel rest Hfuel;
    apply Forall_cons in Hback as [Hv Hl]; apply andb_true_iff in Hwf as [Hkv Hwl];
    apply andb_true_iff in Hkv as [Hk Hwv]; cbn [fst snd] in Hk, Hwv;
    destruct fuel as [|fuel]; [lia| |lia|].
  - cbn [map join] in *. unfold print_member, print_str in *. cbn [fst snd] in *.
    rewrite !length_app in Hfuel. simpl length in Hfuel.
    rewrite <- !app_assoc. cbn [parse_members app].
    rewrite expect_same. cbn [mbind option_bind].
    change (34%N :: ?x) with ([34%N] ++ x).
    rewrite (parse_str_print k) by done. cbn [mbind option_bind app].
    rewrite skip_ws_punct, expect_same by done. cbn [mbind option_bind].
    rewrite skip_ws_head by (by apply value_head_app, print_head).
    rewrite Hv by (done || lia). done.
  - specialize (IH kv' Hl Hwl fuel rest).
    cbn [map] in *. rewrite join_cons2 in *.
    unfold print_member at 1, print_str at 1. unfold print_member at 1, print_str at 1 in Hfuel.
    cbn [fst snd] in *. rewrite !length_app in Hfuel. cbn [length] in Hfuel.
    rewrite <- !app_assoc. cbn [parse_members app].
    rewrite expect_same. cbn [mbind option_bind].
    change (34%N :: ?x) with ([34%N] ++ x).
    rewrite (parse_str_print k) by done. cbn [mbind option_bind app].
    rewrite skip_ws_punct, expect_same by done. cbn [mbind option_bind].
    rewrite skip_ws_head by (by apply value_head_app, print_head).
    rewrite Hv by (done || lia). cbn [mbind option_bind app].
    rewrite skip_ws_punct, expect_same by done. cbv iota.
    rewrite skip_ws_head by by destruct l.
    change (125%N :: rest) with ([125%N] ++ rest).
    rewrite IH by lia. done.
Qed.

Lemma parse_value_array fuel r : value_head r = true ->
  parse_value (S fuel) ([91%N] ++ r) =
  '(l, r) ← parse_elements fuel r; Some (JList l, r).
Proof.
  intros Hr. cbn. rewrite skip_ws_head by done. destruct r as [|c r]; [done|].
  simpl in Hr. apply andb_true_iff in Hr as [_ Hr]. bools.
  destruct c as [|p]; [done|]. by repeat (destruct p as [p|p|]; try done).
Qed.

Lemma parse_value_object fuel r : value_head r = true ->
  parse_value (S fuel) ([123%N] ++ r) =
  '(kvs, r) ← parse_members fuel r; Some (JObj (dict_of kvs), r).
Proof.
  intros Hr. cbn. rewrite skip_ws_head by done. destruct r as [|c r]; [done|].
  simpl in Hr. apply andb_true_iff in Hr as [_ Hr]. bools.
  destruct c as [|p]; [done|]. by repeat (destruct p as [p|p|]; try done).
Qed.

Lemma parse_value_print v : parses_back v.
Proof.
  induction v as [|b|z|x|s|l IH|kvs IH] using json_rect_strong;
    intros fuel rest Hwf Hr Hfuel; pose proof (print_nonempty _ Hwf) as Hpos;
    (destruct fuel as [|fuel]; [lia|]).
  - done.
  - by destruct b.
  - simpl print. transitivity (parse_number (str_of_Z z ++ rest)).
    + pose proof (parse_value_number (S fuel) (z <? 0) (digits (Z.abs_N z)) [] [] rest) as H.
      unfold number_text in H. rewrite !app_nil_r in H.
      apply H; [apply int_digits_digits | done | done | by apply follows_num_end | lia].
    + by apply print_int, follows_num_end.
  - by apply parse_value_float; [| |lia].
  - cbn [print]. unfold print_str. rewrite <- !app_assoc. cbn [app parse_value].
    change (34%N :: rest) with ([34%N] ++ rest).
    change (34 =? 34)%N with true. cbv iota. by rewrite parse_str_print.
  - destruct l as [|v l]; [done|].
    change (print (JList (v :: l))) with
      ([91%N] ++ join [44%N] (map print (v :: l)) ++ [93%N]) in *.
    rewrite !length_app in Hfuel. cbn [length] in Hfuel. rewrite <- !app_assoc.
    rewrite parse_value_array by by apply value_head_app, (join_head v l).
    by rewrite (parse_elements_print l v IH Hwf) by lia.
  - destruct kvs as [|kv kvs]; [done|].
    cbn [json_wf] in Hwf. apply andb_true_iff in Hwf as [Hnd Hwf].
    apply bool_decide_eq_true in Hnd.
    change (print (JObj (kv :: kvs))) with
      ([123%N] ++ join [44%N] (map print_member (kv :: kvs)) ++ [125%N]) in *.
    rewrite !length_app in Hfuel. cbn [length] in Hfuel. rewrite <- !app_assoc.
    rewrite parse_value_object by (destruct kvs; done).
    rewrite (parse_members_print kvs kv IH Hwf) by lia. cbn [mbind option_bind].
    by rewrite (dict_of_nodup (kv :: kvs)).
Qed.

(** [json.loads(print(v)) == v]. *)
Lemma loads_print v : json_wf v = true -> loads (print v) = Some v.
Proof.
  intros Hwf. unfold loads. rewrite skip_ws_head by by apply print_head.
  rewrite <- (app_nil_r (print v)) at 2.
  by rewrite (parse_value_print v) by (done || lia).
Qed.
End roundtrip.

(** ** Sorted keys *)

#[export] Instance key_le_trans {A} : Transitive (@key_le A).
Proof. intros x y z. apply str_le_trans. Qed.
#[export] Instance key_le_total {A} : Total (@key_le A).
Proof. intros x y. apply str_le_total. Qed.

Section sorting.
Context {A : Type}.
Implicit Types (d : list (pystr * A)).

Definition sort_dict d : list (pystr * A) := merge_sort key_le d.

Lemma sort_dict_Permutation d : sort_dict d ≡ₚ d.
Proof. apply merge_sort_Permutation. Qed.

Lemma sort_dict_sorted d : StronglySorted key_le (sort_dict d).
Proof. apply StronglySorted_merge_sort; apply _. Qed.

Lemma keys_Permutation d d' : d ≡ₚ d' -> keys d ≡ₚ keys d'.
Proof. unfold keys. by intros ->. Qed.

Lemma NoDup_keys_sort d : NoDup (keys (sort_dict d)) <-> NoDup (keys d).
Proof. by rewrite (keys_Permutation _ _ (sort_dict_Permutation d)). Qed.

(** Two sorted dictionaries with the same entries are equal. *)
Lemma key_sorted_unique d d' :
  NoDup (keys d) -> StronglySorted key_le d -> StronglySorted key_le d' ->
  d ≡ₚ d' -> d = d'.
Proof.
  revert d'. induction d as [|x d IH]; intros d' Hnd Hs Hs' Hp.
  - by apply Permutation_nil_l in Hp.
  - destruct d' as [|y d']; [by apply Permutation_nil_r in Hp|].
    apply StronglySorted_inv in Hs as [Hs Hx]. apply StronglySorted_inv in Hs' as [Hs' Hy].
    simpl in Hnd. apply NoDup_cons in Hnd as [Hxk Hnd].
    assert (x = y) as ->.
    { assert (y ∈ x :: d) as Hyx by (rewrite Hp; left).
      assert (x ∈ y :: d') as Hxy by (rewrite <- Hp; left).
      apply elem_of_cons in Hyx as [?|Hyx]; [done|].
      apply elem_of_cons in Hxy as [?|Hxy]; [done|].
      rewrite Forall_forall in Hx, Hy. destruct Hxk.
      assert (x.1 = y.1) as -> by (apply (anti_symm str_le); [by apply Hx | by apply Hy]).
      apply list_elem_of_fmap. by exists y. }
    f_equal. apply IH; try done. by apply Permutation_cons_inv in Hp.
Qed.

Lemma sort_dict_idem d : NoDup (keys d) -> sort_dict (sort_dict d) = sort_dict d.
Proof.
  intros Hnd. apply key_sorted_unique; try apply sort_dict_sorted.
  - by rewrite !NoDup_keys_sort.
  - apply sort_dict_Permutation.
Qed.

Lemma dict_get_sort k d : NoDup (keys d) -> dict_get k (sort_dict d) = dict_get k d.
Proof.
  intros Hnd. symmetry. apply dict_get_Permutation; [done|].
  symmetry. apply sort_dict_Permutation.
Qed.
End sorting.

Lemma sort_dict_fmap {A B} (f : A -> B) (d : list (pystr * A)) : NoDup (keys d) ->
  sort_dict (map (fun kv => (kv.1, f kv.2)) d) =
  map (fun kv => (kv.1, f kv.2)) (sort_dict d).
Proof.
  intros Hnd.
  assert (forall d, keys (map (fun kv => (kv.1, f kv.2)) d) = keys d) as Hkeys.
  { intros d'. unfold keys. induction d' as [|? ? IH]; simpl; [done|]. f_equal; apply IH. }
  apply key_sorted_unique; try apply sort_dict_sorted.
  - by rewrite NoDup_keys_sort, Hkeys.
  - pose proof (sort_dict_sorted d) as Hs. induction Hs as [|x l Hl IH Hx]; simpl; constructor; [done|].
    apply Forall_forall. rewrite Forall_forall in Hx. intros y Hy. apply list_elem_of_In, in_map_iff in Hy as (z & <- & Hz).
    by apply Hx, list_elem_of_In.
  - by rewrite !sort_dict_Permutation.
Qed.

Lemma sort_keys_obj kvs :
  sort_keys (JObj kvs) = JObj (sort_dict (map (fun kv => (kv.1, sort_keys kv.2)) kvs)).
Proof. done. Qed.

Lemma keys_map_snd (f : json -> json) kvs : keys (map (fun kv => (kv.1, f kv.2)) kvs) = keys kvs.
Proof. unfold keys. induction kvs as [|? ? IH]; simpl; [done|]. f_equal; apply IH. Qed.

Lemma forallb_Permutation {A} (p : A -> bool) l l' :
  l ≡ₚ l' -> forallb p l = forallb p l'.
Proof. induction 1; simpl; [done | congruence | by destruct (p x), (p y) | congruence]. Qed.

Lemma forallb_map_impl {A B} (p : A -> bool) (q : B -> bool) (f : A -> B) l :
  Forall (fun x => p x = true -> q (f x) = true) l -> forallb p l = true ->
  forallb q (map f l) = true.
Proof.
  induction 1 as [|x l Hx _ IH]; simpl; [done|].
  rewrite !andb_true_iff. naive_solver.
Qed.

Lemma json_wf_sort_keys v : json_wf v = true -> json_wf (sort_keys v) = true.
Proof.
  induction v as [|b|z|x|s|l IH|kvs IH] using json_rect_strong; try done; intros Hwf.
  - by apply (forallb_map_impl json_wf json_wf sort_keys).
  - rewrite sort_keys_obj. cbn [json_wf] in *. apply andb_true_iff in Hwf as [Hnd Hwf].
    apply bool_decide_eq_true in Hnd. apply andb_true_iff; split.
    + apply bool_decide_eq_true, NoDup_keys_sort. by rewrite keys_map_snd.
    + rewrite (forallb_Permutation _ _ _ (sort_dict_Permutation _)).
      eapply forallb_map_impl; [|done]. eapply Forall_impl; [apply IH|].
      intros [k v] Hv; simpl in *. rewrite !andb_true_iff. naive_solver.
Qed.

Lemma map_ext_Forall {A B} (f g : A -> B) l : Forall (fun x => f x = g x) l -> map f l = map g l.
Proof. induction 1; simpl; congruence. Qed.

Lemma sort_keys_idem v : json_wf v = true -> sort_keys (sort_keys v) = sort_keys v.
Proof.
  induction v as [|b|z|x|s|l IH|kvs IH] using json_rect_strong; try done; intros Hwf.
  - cbn. f_equal. rewrite map_map. apply map_ext_Forall. apply Forall_forall. rewrite Forall_forall in IH.
    intros v Hv. apply IH; [done|]. cbn in Hwf. rewrite forallb_forall in Hwf.
    by apply Hwf, list_elem_of_In.
  - cbn [json_wf] in Hwf. apply andb_true_iff in Hwf as [Hnd Hwf].
    apply bool_decide_eq_true in Hnd. rewrite sort_keys_obj, sort_keys_obj. f_equal.
    rewrite <- sort_dict_fmap, sort_dict_idem by (rewrite !keys_map_snd; done).
    f_equal. rewrite map_map. apply map_ext_Forall. apply Forall_forall. rewrite Forall_forall in IH.
    intros [k v] Hv. simpl. f_equal. apply (IH _ Hv). rewrite forallb_forall in Hwf.
    apply list_elem_of_In, Hwf, andb_true_iff in Hv. by apply Hv.
Qed.

Section canonical.
Context {rt : PyRuntime} {laws : PyRuntimeLaws rt}.

(** [json.loads(json.dumps(v, ..., sort_keys=True))] is [v] up to key order. *)
Lemma loads_dumps_canonical v : json_wf v = true ->
  loads (dumps_canonical v) = Some (sort_keys v).
Proof. intros. by apply loads_print, json_wf_sort_keys. Qed.

(** Equal canonical texts come from values that are equal up to key order. *)
Lemma dumps_canonical_inj v w : json_wf v = true -> json_wf w = true ->
  dumps_canonical v = dumps_canonical w -> sort_keys v = sort_keys w.
Proof.
  intros Hv Hw E. apply (inj Some).
  by rewrite <- (loads_dumps_canonical v), <- (loads_dumps_canonical w), E.
Qed.

Lemma dumps_canonical_sorted v : json_wf v = true ->
  dumps_canonical (sort_keys v) = dumps_canonical v.
Proof. intros Hv. unfold dumps_canonical. by rewrite sort_keys_idem. Qed.
End canonical.

(** ** The fuel is enough *)

Lemma drop_shorter {A} (n : nat) (l : list A) : (0 < n)%nat -> (n <= length l)%nat ->
  (length (drop n l) < length l)%nat.
Proof. intros. rewrite length_drop. lia. Qed.

Lemma starts_with_length p s : starts_with p s = true -> (length p <= length s)%nat.
Proof. intros H%starts_with_prefix. by apply prefix_length. Qed.

Lemma parse_str_shorter s t r : parse_str s = Some (t, r) -> (length r < length s)%nat.
Proof.
  assert (forall n s t r, (length s <= n)%nat -> parse_str s = Some (t, r) ->
    (length r < length s)%nat) as H; [|by apply (H (length s))].
  clear s t r. induction n as [|n IH]; intros s t r Hn H; [by destruct s; [|simpl in Hn; lia]|].
  assert (forall c s' t r, (length s' < length s)%nat -> push c (parse_str s') = Some (t, r) ->
    (length r < length s)%nat) as Hpush.
  { intros c s' t' r' Hlt Hp. unfold push in Hp.
    destruct (parse_str s') as [[t'' r'']|] eqn:E; simplify_eq/=.
    apply IH in E; lia. }
  destruct s as [|c s]; [done|]. cbn [parse_str] in H.
  repeat match type of H with
  | None = Some _ => done
  | Some _ = Some _ => simplify_eq/=; lia
  | push ?x (parse_str ?s') = _ => eapply (Hpush x s'); [simpl; lia | exact H]
  | mbind _ _ = Some _ => apply bind_Some in H as (? & _ & H)
  | context [match ?x with _ => _ end] => destruct x
  end.
Qed.

Lemma span_shorter p s a b : span p s = (a, b) -> length s = (length a + length b)%nat.
Proof.
  revert a b; induction s as [|c s IH]; intros a b; simpl; [by intros [= <- <-]|].
  destruct (p c); [|by intros [= <- <-]].
  destruct (span p s) as [a' b']. intros [= <- <-]. by rewrite (IH a' b' eq_refl).
Qed.

Lemma scan_int_shorter s i r : scan_int s = Some (i, r) -> (length r < length s)%nat.
Proof.
  destruct s as [|c s]; simpl; [done|]. destruct (c =? 48)%N; [intros; simplify_eq/=; lia|].
  destruct (ascii_digit c) eqn:Hc; [|done].
  destruct (span ascii_digit s) as [a b] eqn:E. intros [= <- <-].
  apply span_shorter in E. simpl; lia.
Qed.

Lemma scan_frac_shorter s f r : scan_frac s = (f, r) -> (length r <= length s)%nat.
Proof.
  assert (scan_frac s = ([], s) \/ exists ds rest, (length s > length rest)%nat /\
    scan_frac s = (46%N :: ds, rest)) as [->|(ds & rest & ? & ->)]; [|by intros [= <- <-]..|].
  - destruct s as [|c s]; [by left|]. destruct (N.eq_dec c 46) as [->|Hc].
    + simpl. destruct (span ascii_digit s) as [[|d ds] rest] eqn:E; [by left|right].
      apply span_shorter in E. exists (d :: ds), rest. simpl in *. split; [lia|done].
    + left. destruct c as [|p]; [done|]. by repeat (destruct p as [p|p|]; try done).
  - intros [= <- <-]. lia.
Qed.

Lemma scan_exp_shorter s f r : scan_exp s = (f, r) -> (length r <= length s)%nat.
Proof.
  unfold scan_exp. destruct s as [|c s]; [by intros [= <- <-]|].
  destruct ((c =? 101)%N || (c =? 69)%N); [|by intros [= <- <-]].
  destruct (match s with [] => _ | _ => _ end) as [sign rest1] eqn:Es.
  assert (length rest1 <= length s)%nat as Hl.
  { destruct s as [|x s]; [by simplify_eq|]. destruct (_ || _); simplify_eq/=; lia. }
  destruct (span ascii_digit rest1) as [[|d ds] rest'] eqn:E; [by intros [= <- <-]|].
  apply span_shorter in E. intros [= <- <-]. simpl in *. lia.
Qed.

Section fuel.
Context {rt : PyRuntime}.

Lemma parse_atom_shorter s v r : parse_atom s = Some (v, r) -> (length r < length s)%nat.
Proof.
  unfold parse_atom. intros H.
  repeat match type of H with
  | (if starts_with ?w s then _ else _) = _ =>
      destruct (starts_with w s) eqn:Hw;
      [ apply starts_with_length in Hw; simplify_eq;
        apply drop_shorter; [vm_compute; lia | done] | clear Hw ]
  end.
  unfold parse_number in H.
  assert (exists s1, (length s1 <= length s)%nat /\
    exists i s2, scan_int s1 = Some (i, s2) /\
      (length r <= length s2)%nat) as (s1 & Hs1 & i & s2 & Hi & Hr).
  { destruct (split_sign s) as [neg s1] eqn:Es. exists s1. split.
    { unfold split_sign in Es. destruct s as [|c s]; [by simplify_eq|].
      destruct (c =? 45)%N; simplify_eq/=; lia. }
    apply bind_Some in H as ([i s2] & Hi & H). exists i, s2. split; [done|].
    destruct (scan_frac s2) as [f s3] eqn:Ef. destruct (scan_exp s3) as [e s4] eqn:Ee.
    apply scan_frac_shorter in Ef. apply scan_exp_shorter in Ee. simplify_eq. lia. }
  apply scan_int_shorter in Hi. lia.
Qed.

Lemma expect_shorter c s r : expect c s = Some r -> (length r < length s)%nat.
Proof. destruct s as [|x s]; simpl; [done|]. destruct (x =? c)%N; intros; simplify_eq; lia. Qed.

Definition shorter {A} (s : pystr) (o : option (A * pystr)) : Prop :=
  match o with Some (_, r) => (length r < length s)%nat | None => True end.

Lemma parse_shorter fuel :
  (forall s, shorter s (parse_value fuel s)) /\
  (forall s, shorter s (parse_elements fuel s)) /\
  (forall s, shorter s (parse_members fuel s)).
Proof.
  induction fuel as [|fuel (IHv & IHe & IHm)]; [done|].
  repeat split; intros s.
  - destruct s as [|c s]; [done|]. cbn [parse_value].
    pose proof (skip_ws_length s) as Hws.
    destruct (c =? 34)%N; [|destruct (c =? 91)%N; [|destruct (c =? 123)%N]].
    + destruct (parse_str s) as [[t r]|] eqn:E; [|done]. apply parse_str_shorter in E.
      simpl; lia.
    + destruct (expect 93 (skip_ws s)) as [r|] eqn:E; [apply expect_shorter in E; simpl; lia|].
      pose proof (IHe (skip_ws s)) as He.
      destruct (parse_elements _ _) as [[??]|]; simpl in *; lia.
    + destruct (expect 125 (skip_ws s)) as [r|] eqn:E; [apply expect_shorter in E; simpl; lia|].
      pose proof (IHm (skip_ws s)) as He.
      destruct (parse_members _ _) as [[??]|]; simpl in *; lia.
    + destruct (parse_atom (c :: s)) as [[v r]|] eqn:E; [|done].
      by apply parse_atom_shorter in E.
  - cbn [parse_elements]. pose proof (IHv s) as Hv.
    destruct (parse_value fuel s) as [[v r]|]; [|done]. simpl in *.
    pose proof (skip_ws_length r).
    destruct (expect 44 (skip_ws r)) as [r1|] eqn:E; [apply expect_shorter in E|].
    + pose proof (skip_ws_length r1). pose proof (IHe (skip_ws r1)) as He.
      destruct (parse_elements fuel (skip_ws r1)) as [[l r2]|]; simpl in *; lia.
    + destruct (expect 93 (skip_ws r)) as [r1|] eqn:E1; [|done].
      apply expect_shorter in E1. simpl; lia.
  - cbn [parse_members].
    destruct (expect 34 s) as [r0|] eqn:E0; [|done]. apply expect_shorter in E0. simpl.
    destruct (parse_str r0) as [[k r]|] eqn:E; [|done]. apply parse_str_shorter in E. simpl.
    pose proof (skip_ws_length r).
    destruct (expect 58 (skip_ws r)) as [r1|] eqn:E1; [|done]. apply expect_shorter in E1. simpl.
    pose proof (skip_ws_length r1). pose proof (IHv (skip_ws r1)) as Hv.
    destruct (parse_value fuel (skip_ws r1)) as [[v r2]|]; [|done]. simpl in *.
    pose proof (skip_ws_length r2).
    destruct (expect 44 (skip_ws r2)) as [r3|] eqn:E3; [apply expect_shorter in E3|].
    + pose proof (skip_ws_length r3). pose proof (IHm (skip_ws r3)) as Hm.
      destruct (parse_members fuel (skip_ws r3)) as [[l r4]|]; simpl in *; lia.
    + destruct (expect 125 (skip_ws r2)) as [r3|] eqn:E4; [|done].
      apply expect_shorter in E4. simpl; lia.
Qed.

(** Two amounts of fuel of at least two units per character give the same
    answer, so [loads] never answers [None] for lack of fuel. *)
Lemma parse_fuel f1 :
  (forall f2 s, (2 * length s <= f1 -> 2 * length s <= f2 ->
     parse_value f1 s = parse_value f2 s)%nat) /\
  (forall f2 s, (2 * length s + 1 <= f1 -> 2 * length s + 1 <= f2 ->
     parse_elements f1 s = parse_elements f2 s)%nat) /\
  (forall f2 s, (2 * length s + 1 <= f1 -> 2 * length s + 1 <= f2 ->
     parse_members f1 s = parse_members f2 s)%nat).
Proof.
  induction f1 as [|f1 (IHv & IHe & IHm)]; (repeat split; intros f2 s H1 H2; try lia).
  - destruct s; [|simpl in H1; lia]. by destruct f2.
  - destruct s as [|c s]; [by destruct f2|]. destruct f2 as [|f2]; [simpl in H2; lia|].
    cbn [parse_value]. cbn [length] in H1, H2. pose proof (skip_ws_length s).
    by rewrite (IHe f2 (skip_ws s)), (IHm f2 (skip_ws s)) by lia.
  - destruct f2 as [|f2]; [lia|]. cbn [parse_elements].
    rewrite (IHv f2 s) by lia. pose proof (proj1 (parse_shorter f2) s) as Hv.
    destruct (parse_value f2 s) as [[v r]|]; [|done]. simpl in *.
    pose proof (skip_ws_length r).
    destruct (expect 44 (skip_ws r)) as [r1|] eqn:E; [|done]. apply expect_shorter in E.
    pose proof (skip_ws_length r1). by rewrite (IHe f2 (skip_ws r1)) by lia.
  - destruct f2 as [|f2]; [lia|]. cbn [parse_members].
    destruct (expect 34 s) as [r0|] eqn:E0; [|done]. apply expect_shorter in E0. simpl.
    destruct (parse_str r0) as [[k r]|] eqn:E; [|done]. apply parse_str_shorter in E. simpl.
    pose proof (skip_ws_length r).
    destruct (expect 58 (skip_ws r)) as [r1|] eqn:E1; [|done]. apply expect_shorter in E1. simpl.
    pose proof (skip_ws_length r1). rewrite (IHv f2 (skip_ws r1)) by lia.
    pose proof (proj1 (parse_shorter f2) (skip_ws r1)) as Hv.
    destruct (parse_value f2 (skip_ws r1)) as [[v r2]|]; [|done]. simpl in *.
    pose proof (skip_ws_length r2).
    destruct (expect 44 (skip_ws r2)) as [r3|] eqn:E3; [|done]. apply expect_shorter in E3.
    pose proof (skip_ws_length r3). by rewrite (IHm f2 (skip_ws r3)) by lia.
Qed.

(** Any larger fuel gives the answer of [loads]. *)
Lemma loads_fuel fuel s : (2 * length (skip_ws s) <= fuel)%nat ->
  loads s = ('(v, rest) ← parse_value fuel (skip_ws s);
             match skip_ws rest with [] => Some v | _ => None end).
Proof.
  intros H. unfold loads.
  by rewrite (proj1 (parse_fuel fuel) (2 * length (skip_ws s))%nat (skip_ws s)) by lia.
Qed.
End fuel.

(** ** Dictionaries *)

Lemma dict_get_set {A} (k : pystr) (v : A) d j :
  dict_get j (dict_set k v d) = if str_eqb j k then Some v else dict_get j d.
Proof.
  induction d as [|[k' v'] d IH]; cbn; [done|].
  destruct (str_eqb k k') eqn:Hk; cbn.
  - apply str_eqb_eq in Hk as <-. by destruct (str_eqb j k).
  - rewrite IH. destruct (str_eqb j k') eqn:Hj, (str_eqb j k) eqn:Hjk; try done.
    apply str_eqb_eq in Hj as <-. apply str_eqb_eq in Hjk as <-. by rewrite str_eqb_refl in Hk.
Qed.
