(* ===== verification/AsciiRuntime.v ===== *)
(** * A concrete runtime

    [ascii_runtime] instantiates [PyRuntime] for examples and witnesses: the
    character tables of ASCII text, and a float text [<mantissa>.0e<exponent>]
    that names the binary64 value by its mantissa and binary exponent.  Its
    stack is deep enough for ten thousand brackets.  It satisfies [PyRuntimeLaws]. *)
From S2P Require Import Prelude PyText Json JsonFacts.
From Stdlib Require Import SpecFloat.

Definition exponent_text (e : Z) : pystr :=
  [101%N; if e <? 0 then 45%N else 43%N] ++ digits (Z.abs_N e).

Definition ascii_float_repr (x : spec_float) : pystr :=
  match x with
  | S754_finite neg m e => number_text neg (digits (N.pos m)) (u ".0") (exponent_text e)
  | S754_zero neg => number_text neg (u "0") (u ".0") []
  | _ => u "nan"
  end.

Definition ascii_float_parse (t : pystr) : spec_float :=
  let '(neg, s1) := split_sign t in
  match scan_int s1 with
  | None => S754_nan
  | Some (int, s2) =>
      let '(_, s3) := scan_frac s2 in
      match N_of_digits int, (scan_exp s3).1 with
      | N.pos m, _ :: sign :: ds =>
          S754_finite neg m
            (if (sign =? 45)%N then - Z.of_N (N_of_digits ds) else Z.of_N (N_of_digits ds))
      | N.pos m, _ => S754_finite neg m 0
      | N0, _ => S754_zero neg
      end
  end.

#[export] Instance ascii_runtime : PyRuntime := {|
  cp_isspace := ascii_space;
  cp_isalnum c := ascii_letter c || ascii_digit c;
  cp_decimal c := if ascii_digit c then Some (c - 48)%N else None;
  str_lower s := ascii_to_lower <$> s;
  float_repr := ascii_float_repr;
  float_parse := ascii_float_parse;
  stack_suffices s := zlen (List.filter (fun c => (c =? 91) || (c =? 123))%N s) <=? 10000;
  walk_suffices s := zlen (List.filter (fun c => (c =? 91) || (c =? 123))%N s) <=? 900;
|}.

Lemma digits_ascii_digits n : ascii_digits (digits n) = true.
Proof.
  pose proof (int_digits_digits n) as Hi.
  pose proof (digits_aux_digits (S (N.to_nat (N.size n))) n [] eq_refl) as Hd.
  unfold digits in *. by destruct (digits_aux _ _ _).
Qed.

Lemma exponent_text_ok e : exp_ok (exponent_text e) = true.
Proof.
  unfold exponent_text. cbn [app exp_ok]. pose proof (digits_ascii_digits (Z.abs_N e)).
  by destruct (e <? 0).
Qed.

Lemma ascii_float_parse_text neg int frac exp :
  int_digits int = true -> frac_ok frac = true -> exp_ok exp = true ->
  frac <> [] ->
  ascii_float_parse (number_text neg int frac exp) =
  match N_of_digits int, exp with
  | N.pos m, _ :: sign :: ds =>
      S754_finite neg m
        (if (sign =? 45)%N then - Z.of_N (N_of_digits ds) else Z.of_N (N_of_digits ds))
  | N.pos m, _ => S754_finite neg m 0
  | N0, _ => S754_zero neg
  end.
Proof.
  intros Hi Hf He Hne. unfold ascii_float_parse.
  rewrite <- (app_nil_r (number_text neg int frac exp)).
  rewrite split_sign_text by done. rewrite app_nil_r.
  rewrite scan_int_app; [|done|].
  - rewrite scan_frac_app; [|done|].
    + pose proof (scan_exp_app exp [] He eq_refl) as E. rewrite app_nil_r in E.
      by rewrite E.
    + destruct exp as [|x exp]; [by left|right].
      simpl in He. apply andb_true_iff in He as [He _].
      apply orb_true_iff in He. rewrite !N.eqb_eq in He. by eexists _, _.
  - right. destruct frac as [|x frac]; [done|]. eexists _, _; split; [done|].
    simpl in Hf. destruct x as [|p]; [done|].
    by repeat (destruct p as [p|p|]; try done).
Qed.

#[export] Instance ascii_runtime_laws : PyRuntimeLaws ascii_runtime.
Proof.
  split.
  - done.
  - done.
  - done.
  - intros [neg| | |neg m e] Hx; simpl in Hx; try done; simpl.
    + exists neg, (u "0"), (u ".0"), []. repeat split; by left.
    + exists neg, (digits (N.pos m)), (u ".0"), (exponent_text e).
      repeat split; [apply int_digits_digits | apply exponent_text_ok | by left].
  - intros [neg| | |neg m e] Hx; simpl in Hx; try done; simpl.
    + by destruct neg.
    + rewrite ascii_float_parse_text; try done; [|apply int_digits_digits | apply exponent_text_ok].
      rewrite N_of_digits_digits. unfold exponent_text. cbn [app].
      rewrite N_of_digits_digits. f_equal. destruct (Z.ltb_spec e 0); simpl; lia.
Qed.
