(* ===== verification/Digest.v ===== *)
(** * SHA-256, SHA-1 and UUIDs

    [hashlib.sha256], [hashlib.sha1] and the parts of [uuid.UUID] the code
    uses: [str(u)], [UUID(text)] and [uuid5].  A byte string is a list of
    numbers below 256, a UUID its 128-bit integer.

    ** Properties

    A SHA-256 digest is 64 lower-case hexadecimal digits and a version-5 uuid
    fits in 128 bits. *)
From S2P Require Import Prelude PyText Json JsonFacts.

Abbreviation bytes := (list N).
Abbreviation uuid := N.

Section words.
Local Open Scope N_scope.
Definition mask32 : N := 0xffffffff.
Definition add32 (a b : N) : N := N.land (a + b) mask32.
Definition rotr (n x : N) : N :=
  N.lor (N.shiftr x n) (N.land (N.shiftl x (32 - n)) mask32).
Definition rotl (n x : N) : N := rotr (32 - n) x.
Definition not32 (x : N) : N := N.lxor x mask32.

(** Big-endian words of a byte string. *)
Fixpoint be_words (bs : bytes) : list N :=
  match bs with
  | a :: b :: c :: d :: bs =>
      (a * 16777216 + b * 65536 + c * 256 + d) :: be_words bs
  | _ => []
  end.
Definition be_bytes (k : nat) (n : N) : bytes :=
  (fun i => N.land (N.shiftr n (8 * N.of_nat i)) 255) <$> reverse (seq 0 k).

(** The padding of FIPS 180-4: a one bit, zeros, the length in bits. *)
Definition padded (msg : bytes) : bytes :=
  let len := N.of_nat (length msg) in
  let zeros := (119 - len mod 64) mod 64 in
  msg ++ [128] ++ replicate (N.to_nat zeros) 0 ++ be_bytes 8 (8 * len).

Fixpoint chunks_of (fuel k : nat) {A} (l : list A) : list (list A) :=
  match fuel, l with
  | S fuel, _ :: _ => take k l :: chunks_of fuel k (drop k l)
  | _, _ => []
  end.
Definition blocks (msg : bytes) : list (list N) :=
  let ws := be_words (padded msg) in chunks_of (length ws) 16 ws.

Definition ch x y z : N := N.lxor (N.land x y) (N.land (not32 x) z).
Definition maj x y z : N :=
  N.lxor (N.lxor (N.land x y) (N.land x z)) (N.land y z).

(** ** SHA-256 *)
(** The round constants, eight words to a number. *)
Definition words8 (n : N) : list N :=
  map (fun i => N.land (N.shiftr n (32 * i)) 0xffffffff) [7; 6; 5; 4; 3; 2; 1; 0]%N.
Definition sha256_k : list N := Eval vm_compute in
  [
   0x428a2f9871374491b5c0fbcfe9b5dba53956c25b59f111f1923f82a4ab1c5ed5;
   0xd807aa9812835b01243185be550c7dc372be5d7480deb1fe9bdc06a7c19bf174;
   0xe49b69c1efbe47860fc19dc6240ca1cc2de92c6f4a7484aa5cb0a9dc76f988da;
   0x983e5152a831c66db00327c8bf597fc7c6e00bf3d5a7914706ca635114292967;
   0x27b70a852e1b21384d2c6dfc53380d13650a7354766a0abb81c2c92e92722c85;
   0xa2bfe8a1a81a664bc24b8b70c76c51a3d192e819d6990624f40e3585106aa070;
   0x19a4c1161e376c082748774c34b0bcb5391c0cb34ed8aa4a5b9cca4f682e6ff3;
   0x748f82ee78a5636f84c878148cc7020890befffaa4506cebbef9a3f7c67178f2]%N ≫= words8.
Definition sha256_init : list N :=
[0x6a09e667; 0xbb67ae85; 0x3c6ef372; 0xa54ff53a; 0x510e527f; 0x9b05688c;
 0x1f83d9ab; 0x5be0cd19].

(** The message schedule, newest word first. *)
Definition sha256_next (w : list N) : N :=
  let at_ i := nth i w 0 in
  let s0 := let x := at_ 14%nat in N.lxor (N.lxor (rotr 7 x) (rotr 18 x)) (N.shiftr x 3) in
  let s1 := let x := at_ 1%nat in N.lxor (N.lxor (rotr 17 x) (rotr 19 x)) (N.shiftr x 10) in
  add32 (add32 (at_ 15%nat) s0) (add32 (at_ 6%nat) s1).
Definition extend (next : list N -> N) (k : nat) (block : list N) : list N :=
  reverse (Nat.iter k (fun w => next w :: w) (reverse block)).

Definition sha256_round (st : list N) (kw : N * N) : list N :=
  match st with
  | [a; b; c; d; e; f; g; h] =>
      let s1 := N.lxor (N.lxor (rotr 6 e) (rotr 11 e)) (rotr 25 e) in
      let t1 := add32 (add32 (add32 h s1) (add32 (ch e f g) kw.1)) kw.2 in
      let s0 := N.lxor (N.lxor (rotr 2 a) (rotr 13 a)) (rotr 22 a) in
      let t2 := add32 s0 (maj a b c) in
      [add32 t1 t2; a; b; c; add32 d t1; e; f; g]
  | _ => st
  end.
Definition sha256_block (st block : list N) : list N :=
  zip_with add32 st
    (foldl sha256_round st (zip sha256_k (extend sha256_next 48 block))).
Definition sha256 (msg : bytes) : bytes :=
  foldl sha256_block sha256_init (blocks msg) ≫= be_bytes 4.

(** ** SHA-1 *)
Definition sha1_init : list N :=
  [0x67452301; 0xefcdab89; 0x98badcfe; 0x10325476; 0xc3d2e1f0].
Definition sha1_next (w : list N) : N :=
  let at_ i := nth i w 0 in
  rotl 1 (N.lxor (N.lxor (at_ 2%nat) (at_ 7%nat)) (N.lxor (at_ 13%nat) (at_ 15%nat))).
Definition sha1_round (st : list N) (iw : nat * N) : list N :=
  match st with
  | [a; b; c; d; e] =>
      let '(f, k) :=
        if (iw.1 <? 20)%nat then (ch b c d, 0x5a827999)
        else if (iw.1 <? 40)%nat then (N.lxor (N.lxor b c) d, 0x6ed9eba1)
        else if (iw.1 <? 60)%nat then (maj b c d, 0x8f1bbcdc)
        else (N.lxor (N.lxor b c) d, 0xca62c1d6) in
      [add32 (add32 (add32 (rotl 5 a) f) (add32 e k)) iw.2; a; rotl 30 b; c; d]
  | _ => st
  end.
Definition sha1_block (st block : list N) : list N :=
  zip_with add32 st
    (foldl sha1_round st (zip (seq 0 80) (extend sha1_next 64 block))).
Definition sha1 (msg : bytes) : bytes :=
  foldl sha1_block sha1_init (blocks msg) ≫= be_bytes 4.
End words.

(** [digest.hexdigest()] *)
Definition hexdigest (bs : bytes) : pystr :=
  bs ≫= fun b => [hex_digit (b / 16); hex_digit (b mod 16)]%N.

(** [sha256(bs).hexdigest()] *)
Definition sha256_hex (bs : bytes) : pystr := hexdigest (sha256 bs).

Example sha256_abc :
  sha256_hex (u "abc") =
  u "ba7816bf8f01cfea414140de5dae2223b00361a396177a9cb410ff61f20015ad".
Proof. vm_compute. reflexivity. Qed.

Example sha1_abc : hexdigest (sha1 (u "abc")) = u "a9993e364706816aba3e25717850c26c9cd0d89d".
Proof. vm_compute. reflexivity. Qed.

(** ** UTF-8 *)

Section utf8.
Local Open Scope N_scope.

(** [chr(c).encode("utf-8")]; a surrogate raises [UnicodeEncodeError]. *)
Definition utf8_char (c : N) : option bytes :=
  if c <? 128 then Some [c]
  else if c <? 2048 then Some [192 + c / 64; 128 + c mod 64]
  else if c <? 65536 then
    if between 55296 57343 c then None
    else Some [224 + c / 4096; 128 + c / 64 mod 64; 128 + c mod 64]
  else Some [240 + c / 262144; 128 + c / 4096 mod 64; 128 + c / 64 mod 64;
             128 + c mod 64].
Fixpoint utf8_encode (s : pystr) : option bytes :=
  match s with
  | [] => Some []
  | c :: s => a ← utf8_char c; b ← utf8_encode s; Some (a ++ b)
  end.

Definition cont (b : N) : bool := between 128 191 b.

(** [bs.decode("utf-8")] with strict errors: no overlong form, no surrogate,
    nothing above U+10FFFF. *)
Fixpoint utf8_decode (bs : bytes) : option pystr :=
  match bs with
  | [] => Some []
  | a :: r =>
      if a <? 128 then (cons a) <$> utf8_decode r
      else match r with
      | [] => None
      | b :: r =>
          if between 194 223 a && cont b
          then (cons ((a - 192) * 64 + (b - 128))) <$> utf8_decode r
          else match r with
          | [] => None
          | c :: r =>
              if (((a =? 224) && between 160 191 b) ||
                  (between 225 236 a && cont b) ||
                  ((a =? 237) && between 128 159 b) ||
                  (between 238 239 a && cont b)) && cont c
              then (cons ((a - 224) * 4096 + (b - 128) * 64 + (c - 128))) <$> utf8_decode r
              else match r with
              | [] => None
              | d :: r =>
                  if (((a =? 240) && between 144 191 b) ||
                      (between 241 243 a && cont b) ||
                      ((a =? 244) && between 128 143 b)) && cont c && cont d
                  then (cons ((a - 240) * 262144 + (b - 128) * 4096 +
                              (c - 128) * 64 + (d - 128))) <$> utf8_decode r
                  else None
              end
          end
      end
  end.
End utf8.

(** ** UUIDs *)

Fixpoint hex_digits (k : nat) (n : N) : pystr :=
  match k with
  | O => []
  | S k => hex_digits k (n / 16)%N ++ [hex_digit (n mod 16)%N]
  end.

(** [str(u)] *)
Definition uuid_str (n : uuid) : pystr :=
  let h := hex_digits 32 n in
  join [45%N] [take 8 h; take 4 (drop 8 h); take 4 (drop 12 h); take 4 (drop 16 h);
               drop 20 h].

Section uuid.
Context {rt : PyRuntime}.
Local Open Scope N_scope.

(** What [int(text, 16)] reads: a text with a non-ASCII character has its
    decimal digits and spaces replaced by the ASCII ones. *)
Definition int_text (s : pystr) : pystr :=
  if is_ascii s then s
  else (fun c => if c <? 128 then c
                 else if cp_isspace c then 32
                 else match cp_decimal c with Some d => 48 + d | None => 63 end) <$> s.
Definition c_space (c : N) : bool := between 9 13 c || (c =? 32).

(** Digits with single underscores between them. *)
Fixpoint hex_int (acc : N) (digit_before : bool) (s : pystr) : option N :=
  match s with
  | [] => if digit_before then Some acc else None
  | c :: s =>
      if c =? 95 then if digit_before then hex_int acc false s else None
      else d ← hex_value c; hex_int (16 * acc + d) true s
  end.
Definition hex_prefix (s : pystr) : pystr :=
  match s with
  | 48 :: x :: r =>
      if (x =? 120) || (x =? 88)
      then match r with 95 :: r' => r' | _ => r end
      else s
  | _ => s
  end.

(** [int(s, 16)] *)
Definition int16 (s : pystr) : option Z :=
  let s := drop_while c_space (int_text s) in
  let s := reverse (drop_while c_space (reverse s)) in
  match s with
  | c :: r =>
      if c =? 45 then (fun n => - Z.of_N n)%Z <$> hex_int 0 false (hex_prefix r)
      else if c =? 43 then Z.of_N <$> hex_int 0 false (hex_prefix r)
      else Z.of_N <$> hex_int 0 false (hex_prefix s)
  | [] => None
  end.

Definition strip_braces (s : pystr) : pystr :=
  let brace c := (c =? 123) || (c =? 125) in
  reverse (drop_while brace (reverse (drop_while brace s))).

(** [UUID(text)]; [None] is the [ValueError]. *)
Definition uuid_parse (text : pystr) : option uuid :=
  let h := replace (u "uuid:") [] (replace (u "urn:") [] text) in
  let h := replace [45] [] (strip_braces h) in
  if (length h =? 32)%nat then
    z ← int16 h;
    if ((0 <=? z) && (z <? 2 ^ 128))%Z then Some (Z.to_N z) else None
  else None.
End uuid.

(** [uuid5(namespace, name)] for an ASCII name: version 5, RFC 4122 variant. *)
Definition uuid5 (namespace : uuid) (name : pystr) : uuid :=
  let h := foldl (fun acc b => acc * 256 + b)%N 0%N
             (take 16 (sha1 (be_bytes 16 namespace ++ name))) in
  let h := N.lor (N.ldiff h (N.shiftl 0xc000 48)) (N.shiftl 0x8000 48) in
  N.lor (N.ldiff h (N.shiftl 0xf000 64)) (N.shiftl 5 76).

Example uuid5_dns :
  uuid_str (uuid5 0x6ba7b8109dad11d180b400c04fd430c8 (u "python.org")) =
  u "886313e1-3b8a-5372-9b90-0c9aee199e5d".
Proof. vm_compute. reflexivity. Qed.

(** ** Facts *)

Lemma hex_digits_length k n : length (hex_digits k n) = k.
Proof.
  revert n; induction k as [|k IH]; intros n; simpl; [done|].
  rewrite length_app, IH. simpl. lia.
Qed.

(** A character of [str(u)] other than the hyphens. *)
Definition hex_char (c : N) : bool := between 48 57 c || between 97 102 c.

Lemma hex_digit_char n : (n < 16)%N -> hex_char (hex_digit n) = true.
Proof.
  intros Hn. unfold hex_char, hex_digit, between. destruct (N.ltb_spec n 10);
    rewrite orb_true_iff, !andb_true_iff, !N.leb_le; lia.
Qed.

Lemma hex_digits_chars k n : Forall (fun c => hex_char c = true) (hex_digits k n).
Proof.
  revert n; induction k as [|k IH]; intros n; simpl; [constructor|].
  apply Forall_app; split; [done|]. constructor; [|done].
  apply hex_digit_char, N.mod_lt. done.
Qed.

Lemma hex_char_bound c : hex_char c = true -> (48 <= c <= 57 \/ 97 <= c <= 102)%N.
Proof. unfold hex_char, between. rewrite orb_true_iff, !andb_true_iff, !N.leb_le. done. Qed.

(** The characters of [str(u)]. *)
Lemma uuid_str_chars n : Forall (fun c => c = 45%N \/ hex_char c = true) (uuid_str n).
Proof.
  unfold uuid_str. pose proof (hex_digits_chars 32 n) as H.
  assert (Forall (fun c => c = 45%N \/ hex_char c = true) (hex_digits 32 n)) as H'
    by (eapply Forall_impl; [exact H | by right]).
  cbn [join]. rewrite !Forall_app, !Forall_cons.
  repeat split; auto using Forall_take, Forall_drop, Forall_nil_2.
Qed.

Lemma replace_absent c old new s : c ∉ s -> replace (c :: old) new s = s.
Proof.
  unfold replace. induction s as [|x s IH]; intros Hc; simpl; [done|].
  apply not_elem_of_cons in Hc as [Hne Hc]. apply N.eqb_neq in Hne. rewrite Hne. simpl.
  by rewrite IH.
Qed.

Lemma replace_delete c s : replace [c] [] s = filter (fun x => x <> c) s.
Proof.
  unfold replace. induction s as [|x s IH]; simpl; [done|].
  rewrite andb_true_r. destruct (N.eqb_spec c x) as [->|Hne].
  - rewrite filter_cons_False by naive_solver. apply IH.
  - rewrite filter_cons_True by done. by rewrite IH.
Qed.

Lemma filter_all {A} (P : A -> Prop) `{forall x, Decision (P x)} l :
  Forall P l -> filter P l = l.
Proof. induction 1; [done|]. rewrite filter_cons_True by done. congruence. Qed.

Lemma drop_while_none {A} (p : A -> bool) l : Forall (fun x => p x = false) l ->
  drop_while p l = l.
Proof. intros H. apply drop_while_fix. by destruct H. Qed.

Lemma drop_while_both {A} (p : A -> bool) l : Forall (fun x => p x = false) l ->
  reverse (drop_while p (reverse (drop_while p l))) = l.
Proof.
  intros H. rewrite (drop_while_none p l), drop_while_none; [apply reverse_involutive| |done].
  by apply Forall_reverse.
Qed.

Lemma hex_int_digits k n acc b s : (0 < k)%nat ->
  hex_int acc b (hex_digits k n ++ s) =
  hex_int (acc * 16 ^ N.of_nat k + n mod 16 ^ N.of_nat k)%N true s.
Proof.
  revert n acc b s. induction k as [|k IH]; intros n acc b s Hk; [lia|]. cbn [hex_digits].
  rewrite <- app_assoc. set (d := (n mod 16)%N).
  assert (d < 16)%N as Hd by (apply N.mod_lt; done).
  assert (forall acc b, hex_int acc b ([hex_digit d] ++ s) = hex_int (16 * acc + d)%N true s) as Hone.
  { intros acc' b'. cbn [app hex_int]. pose proof (hex_digit_char d Hd) as Hc.
    apply hex_char_bound in Hc. destruct (N.eqb_spec (hex_digit d) 95); [lia|].
    by rewrite hex_value_digit. }
  rewrite Nat2N.inj_succ, N.pow_succ_r'.
  assert (n mod (16 * 16 ^ N.of_nat k) = 16 * ((n / 16) mod 16 ^ N.of_nat k) + d)%N as Hmod.
  { rewrite N.Div0.mod_mul_r. unfold d. lia. }
  rewrite Hmod. destruct k as [|k].
  - rewrite Hone. f_equal. change (N.of_nat 0) with 0%N. rewrite N.pow_0_r, N.mod_1_r. lia.
  - rewrite IH, Hone by lia. f_equal. lia.
Qed.

Section uuid_roundtrip.
Context {rt : PyRuntime}.

Lemma uuid_str_hex n : replace [45%N] [] (uuid_str n) = hex_digits 32 n.
Proof.
  rewrite replace_delete. unfold uuid_str. cbn [join].
  assert (forall s, Forall (fun c => hex_char c = true) s -> filter (fun x => x <> 45%N) s = s) as Hf.
  { intros s Hs. apply filter_all. eapply Forall_impl; [exact Hs|].
    intros c Hc%hex_char_bound. lia. }
  assert (filter (fun x => x <> 45%N) [45%N] = []) as Hh by done.
  pose proof (hex_digits_chars 32 n) as Hc.
  rewrite !filter_app, Hh. set (h := hex_digits 32 n) in *.
  rewrite !Hf by auto using Forall_take, Forall_drop. cbn [app]. reflexivity.
Qed.

Lemma hex_prefix_digits s : Forall (fun c => hex_char c = true) s -> hex_prefix s = s.
Proof.
  intros H. destruct s as [|c [|d s]]; [done| |].
  - destruct c as [|p]; [done|]. by repeat (destruct p as [p|p|]; try done).
  - apply Forall_cons in H as [_ H]. apply Forall_cons in H as [Hd _].
    apply hex_char_bound in Hd. unfold hex_prefix.
    destruct (N.eqb_spec d 120), (N.eqb_spec d 88); [lia..|].
    destruct c as [|p]; [done|]. by repeat (destruct p as [p|p|]; try done).
Qed.

Lemma int16_hex k n : (0 < k)%nat ->
  int16 (hex_digits k n) = Some (Z.of_N (n mod 16 ^ N.of_nat k)).
Proof.
  intros Hk. pose proof (hex_digits_chars k n) as Hc. unfold int16, int_text.
  assert (is_ascii (hex_digits k n) = true) as ->.
  { apply forallb_Forall. eapply Forall_impl; [exact Hc|].
    intros c Hh%hex_char_bound. apply N.ltb_lt. lia. }
  rewrite drop_while_both.
  2:{ eapply Forall_impl; [exact Hc|]. intros c Hh%hex_char_bound.
      unfold c_space, between. apply orb_false_iff.
      rewrite andb_false_iff, !N.leb_gt, N.eqb_neq. lia. }
  destruct (hex_digits k n) as [|c r] eqn:E.
  { pose proof (hex_digits_length k n) as Hl. rewrite E in Hl. simpl in Hl. lia. }
  pose proof (hex_int_digits k n 0 false [] Hk) as Hi. rewrite app_nil_r, E in Hi.
  rewrite (hex_prefix_digits (c :: r)) by done. apply Forall_cons in Hc as [Hh%hex_char_bound _].
  destruct (N.eqb_spec c 45), (N.eqb_spec c 43); [lia..|]. rewrite Hi.
  cbn [hex_int fmap option_fmap option_map]. by rewrite N.mul_0_l, N.add_0_l.
Qed.

(** [UUID(str(u)) == u] *)
Lemma uuid_parse_str n : (n < 2 ^ 128)%N -> uuid_parse (uuid_str n) = Some n.
Proof.
  intros Hn. unfold uuid_parse.
  pose proof (uuid_str_chars n) as Hc.
  assert (117%N ∉ uuid_str n) as Hu.
  { intros Hin. rewrite Forall_forall in Hc. destruct (Hc _ Hin) as [?|?%hex_char_bound]; lia. }
  change (u "uuid:") with (117%N :: u "uid:"). change (u "urn:") with (117%N :: u "rn:").
  rewrite !(replace_absent _ _ _ (uuid_str n)) by done.
  unfold strip_braces. rewrite drop_while_both.
  2:{ eapply Forall_impl; [exact Hc|]. intros c [->|Hh%hex_char_bound]; [done|].
      apply orb_false_iff; rewrite !N.eqb_neq; lia. }
  rewrite uuid_str_hex, hex_digits_length, int16_hex by lia.
  change (16 ^ N.of_nat 32)%N with (2 ^ 128)%N. rewrite N.mod_small by done. simpl.
  rewrite (proj2 (Z.leb_le 0 _)), (proj2 (Z.ltb_lt _ _)) by lia. simpl. by rewrite N2Z.id.
Qed.
End uuid_roundtrip.

(** * Properties *)

Definition byte (b : N) : Prop := (b < 256)%N.

Lemma be_bytes_length k n : length (be_bytes k n) = k.
Proof. unfold be_bytes. by rewrite length_fmap, length_reverse, length_seq. Qed.

Lemma be_bytes_bytes k n : Forall byte (be_bytes k n).
Proof.
  unfold be_bytes. apply Forall_fmap, Forall_forall. intros i _. cbn. unfold byte.
  change 255%N with (N.ones 8). rewrite N.land_ones. by apply N.mod_lt.
Qed.

Lemma bind_be_bytes_length k (ws : list N) : length (ws ≫= be_bytes k) = (length ws * k)%nat.
Proof.
  induction ws as [|w ws IH]; [done|]. cbn [mbind list_bind].
  rewrite length_app, be_bytes_length. change (list_bind _ _ (be_bytes k) ws) with (ws ≫= be_bytes k).
  rewrite IH. simpl. lia.
Qed.

Lemma bind_be_bytes_bytes k (ws : list N) : Forall byte (ws ≫= be_bytes k).
Proof.
  induction ws as [|w ws IH]; [constructor|]. cbn [mbind list_bind].
  apply Forall_app. split; [apply be_bytes_bytes | exact IH].
Qed.

Lemma sha256_round_length st kw : length st = 8%nat -> length (sha256_round st kw) = 8%nat.
Proof. intros H. by do 9 (destruct st as [|? st]; try done). Qed.

Lemma sha256_block_length st block : length st = 8%nat -> length (sha256_block st block) = 8%nat.
Proof.
  intros H. unfold sha256_block. generalize (zip sha256_k (extend sha256_next 48 block)). intros l.
  assert (forall s, length s = 8%nat -> length (foldl sha256_round s l) = 8%nat) as Hf.
  { induction l as [|x l IH]; intros s Hs; [done|]. simpl. by apply IH, sha256_round_length. }
  rewrite length_zip_with, Hf by done. lia.
Qed.

Lemma sha256_length msg : length (sha256 msg) = 32%nat.
Proof.
  unfold sha256. rewrite bind_be_bytes_length. generalize (blocks msg). intros l.
  assert (forall s, length s = 8%nat -> length (foldl sha256_block s l) = 8%nat) as Hf.
  { induction l as [|x l IH]; intros s Hs; [done|]. simpl. by apply IH, sha256_block_length. }
  by rewrite Hf.
Qed.

Lemma hexdigest_length bs : length (hexdigest bs) = (2 * length bs)%nat.
Proof.
  unfold hexdigest. induction bs as [|b bs IH]; [done|]. cbn [mbind list_bind].
  rewrite length_app. simpl in *. rewrite IH. lia.
Qed.

Lemma hexdigest_chars bs : Forall byte bs -> Forall (fun c => hex_char c = true) (hexdigest bs).
Proof.
  unfold hexdigest. induction 1 as [|b bs Hb _ IH]; [constructor|]. cbn [mbind list_bind].
  unfold byte in Hb.
  assert (b / 16 < 16)%N by (apply N.Div0.div_lt_upper_bound; lia).
  pose proof (N.mod_lt b 16 ltac:(done)).
  repeat constructor; [by apply hex_digit_char..|exact IH].
Qed.

(** A digest is 64 hexadecimal digits. *)
Lemma sha256_hex_length msg : length (sha256_hex msg) = 64%nat.
Proof. unfold sha256_hex. by rewrite hexdigest_length, sha256_length. Qed.

Lemma sha256_hex_chars msg : Forall (fun c => hex_char c = true) (sha256_hex msg).
Proof. apply hexdigest_chars, bind_be_bytes_bytes. Qed.

Lemma hex_chars_scalar s : Forall (fun c => hex_char c = true) s -> scalar_text s = true.
Proof.
  intros H. apply forallb_Forall. eapply Forall_impl; [exact H|]. intros c Hc%hex_char_bound.
  unfold scalar, between. apply andb_true_intro. split; [apply N.ltb_lt; lia|].
  apply negb_true_iff, andb_false_iff. rewrite !N.leb_gt. lia.
Qed.

(** ** Version-5 uuids *)

Lemma bounded_bits n k : (forall i, k <= i -> N.testbit n i = false)%N -> (n < 2 ^ k)%N.
Proof.
  intros H. destruct (N.eq_dec n 0) as [->|Hn]; [apply N.neq_0_lt_0, N.pow_nonzero; lia|].
  apply N.log2_lt_pow2; [lia|]. destruct (N.lt_ge_cases (N.log2 n) k) as [?|Hge]; [done|].
  pose proof (N.bit_log2 n Hn) as Hb. rewrite H in Hb by done. done.
Qed.

Lemma bits_bounded n k i : (n < 2 ^ k)%N -> (k <= i)%N -> N.testbit n i = false.
Proof.
  intros Hn Hi. destruct (N.eq_dec n 0) as [->|Hne]; [apply N.bits_0|].
  apply N.bits_above_log2. apply N.log2_lt_pow2 in Hn; lia.
Qed.

Lemma foldl_bytes bs acc : Forall byte bs ->
  (foldl (fun acc b => acc * 256 + b)%N acc bs < (acc + 1) * 256 ^ N.of_nat (length bs))%N.
Proof.
  intros H. revert acc. induction H as [|b bs Hb _ IH]; intros acc; [simpl; lia|].
  cbn [foldl length]. unfold byte in Hb.
  eapply N.lt_le_trans; [apply IH|]. rewrite Nat2N.inj_succ, N.pow_succ_r'.
  rewrite N.mul_assoc.
  apply N.mul_le_mono_r. lia.
Qed.

Lemma uuid5_bound ns name : (uuid5 ns name < 2 ^ 128)%N.
Proof.
  unfold uuid5. set (h := foldl _ _ _).
  assert (h < 2 ^ 128)%N as Hh.
  { unfold h. eapply N.lt_le_trans.
    - apply foldl_bytes. apply Forall_take. apply bind_be_bytes_bytes.
    - rewrite length_take. change (2 ^ 128)%N with (256 ^ N.of_nat 16)%N.
      rewrite N.add_0_l, N.mul_1_l. apply N.pow_le_mono_r; [done|]. lia. }
  apply bounded_bits. intros i Hi. rewrite !N.lor_spec, !N.ldiff_spec, !N.lor_spec, !N.ldiff_spec.
  rewrite (bits_bounded h 128) by done.
  rewrite (bits_bounded (N.shiftl 32768 48) 128), (bits_bounded (N.shiftl 5 76) 128) by done.
  done.
Qed.
