(* ===== verification/Effects.v ===== *)
(** * Effects

    [io S A] is a Python computation that may raise and that reads and writes
    a state of type [S]: what it returns or raises, with the state it leaves.
    A raised exception keeps the state reached so far; [transaction] is the
    one construct that rolls it back. *)
From S2P Require Import Prelude.

Definition io (S A : Type) : Type := S -> result A * S.

Section io.
Context {S : Type}.

#[export] Instance io_ret : MRet (io S) := fun A a s => (Ok a, s).
#[export] Instance io_bind : MBind (io S) := fun A B f m s =>
  match m s with
  | (Ok a, s) => f a s
  | (Raise e, s) => (Raise e, s)
  end.
#[export] Instance io_fmap : FMap (io S) := fun A B f m s =>
  let '(r, s) := m s in (f <$> r, s).

(** A pure computation that may raise. *)
Definition lift {A} (m : result A) : io S A := fun s => (m, s).

Definition io_raise {A} (c : exn_class) (msg : string) : io S A := lift (raise c msg).

(** [try: m except <handles> as error: h(error)] *)
Definition io_try {A} (m : io S A) (handles : exn_class -> bool) (h : exn -> io S A) :
    io S A := fun s =>
  match m s with
  | (Ok a, s) => (Ok a, s)
  | (Raise e, s) => if handles (exn_cls e) then h e s else (Raise e, s)
  end.

(** [with session.begin(): m]: an exception rolls the state back. *)
Definition transaction {A} (m : io S A) : io S A := fun s =>
  match m s with
  | (Ok a, s') => (Ok a, s')
  | (Raise e, _) => (Raise e, s)
  end.

Definition get : io S S := fun s => (Ok s, s).
Definition put (s : S) : io S unit := fun _ => (Ok tt, s).
End io.

Section io_lemmas.
Context {S A B : Type}.
Implicit Types (m : io S A) (f : A -> io S B).

Lemma io_bind_eq f m s :
  (m ≫= f) s = match m s with (Ok a, s) => f a s | (Raise e, s) => (Raise e, s) end.
Proof. done. Qed.

(** Running the first step of a sequence. *)
Lemma io_step f m s a s1 : m s = (Ok a, s1) -> (m ≫= f) s = f a s1.
Proof. rewrite io_bind_eq. by intros ->. Qed.

Lemma io_stop f m s e s1 : m s = (Raise e, s1) -> (m ≫= f) s = (Raise e, s1).
Proof. rewrite io_bind_eq. by intros ->. Qed.

Lemma lift_run (r : result A) a (s : S) : r = Ok a -> lift r s = (Ok a, s).
Proof. by intros ->. Qed.

Lemma io_bind_Ok f m s b s' :
  (m ≫= f) s = (Ok b, s') <-> exists a s1, m s = (Ok a, s1) /\ f a s1 = (Ok b, s').
Proof.
  rewrite io_bind_eq. destruct (m s) as [[a|e] s1]; split.
  - eauto.
  - by intros (? & ? & [= <- <-] & ?).
  - done.
  - by intros (? & ? & [=] & _).
Qed.

Lemma io_bind_Raise f m s e s' :
  (m ≫= f) s = (Raise e, s') <->
  m s = (Raise e, s') \/ exists a s1, m s = (Ok a, s1) /\ f a s1 = (Raise e, s').
Proof.
  rewrite io_bind_eq. destruct (m s) as [[a|e'] s1]; split.
  - eauto.
  - by intros [[=]|(? & ? & [= <- <-] & ?)].
  - intros [= <- <-]. by left.
  - by intros [[= <- <-]|(? & ? & [=] & _)].
Qed.

Lemma lift_Ok (r : result A) (s : S) a s' : lift r s = (Ok a, s') <-> r = Ok a /\ s' = s.
Proof. unfold lift. split; [by intros [= -> ->] | by intros [-> ->]]. Qed.

Lemma lift_Raise (r : result A) (s : S) e s' : lift r s = (Raise e, s') <-> r = Raise e /\ s' = s.
Proof. unfold lift. split; [by intros [= -> ->] | by intros [-> ->]]. Qed.

Lemma transaction_Ok m s a s' : transaction m s = (Ok a, s') <-> m s = (Ok a, s').
Proof. unfold transaction. destruct (m s) as [[]]; naive_solver. Qed.

Lemma transaction_Raise m s e s' :
  transaction m s = (Raise e, s') -> s' = s /\ exists s1, m s = (Raise e, s1).
Proof. unfold transaction. destruct (m s) as [[]]; naive_solver. Qed.
End io_lemmas.

(** [io_run]: run the steps of a computation whose results the context gives. *)
Ltac io_run :=
  repeat (erewrite io_step; [| first [eassumption | apply lift_run; eassumption
                                     | apply lift_run; reflexivity]]; cbv beta).

(** [io_inv]: take apart the hypotheses that say an effectful computation
    returned. *)
Ltac io_inv :=
  repeat match goal with
  | H : (Ok _, _) = (Ok _, _) |- _ => injection H as H; subst
  | H : (Raise _, _) = (Raise _, _) |- _ => injection H as H; subst
  | H : (Raise _, _) = (Ok _, _) |- _ => discriminate H
  | H : (Ok _, _) = (Raise _, _) |- _ => discriminate H
  | H : mret _ _ = (_, _) |- _ => unfold mret, io_ret in H
  | H : lift _ _ = (Ok _, _) |- _ => apply lift_Ok in H; destruct H; subst
  | H : lift _ _ = (Raise _, _) |- _ => apply lift_Raise in H; destruct H; subst
  | H : io_raise _ _ _ = _ |- _ => unfold io_raise, lift, raise in H
  | H : mbind _ _ _ = (Ok _, _) |- _ => apply io_bind_Ok in H; destruct H as (? & ? & ? & H)
  | H : transaction _ _ = (Ok _, _) |- _ => apply transaction_Ok in H
  end.
