(* ===== verification/GeneratedTests.v ===== *)
(** * Generated test cases ([generated_tests.py])

    The strict, data-only contract for generated API tests.  A payload is a
    JSON object; [validate_generated_test_case] turns it into a
    [GeneratedTestCaseV1] or raises, and [as_payload] renders it back.
    [wf_test_case] is the type invariant of accepted test cases. *)
From S2P Require Import Prelude PyText Json JsonFacts Digest.
From Stdlib Require Import SpecFloat.

(** ** Data *)

Definition GENERATED_TEST_CASE_SCHEMA_VERSION : pystr := u "generated-test-case/v1".
Definition MAX_GENERATED_TEST_TEXT_LENGTH : Z := 4000.
Definition MAX_REQUEST_PATH_LENGTH : Z := 1000.
Definition MAX_REQUEST_ITEMS : Z := 20.
Definition MAX_ASSERTIONS : Z := 20.
Definition MAX_JSON_DEPTH : Z := 8.
Definition MAX_JSON_ITEMS : Z := 100.

Definition CASE_FIELDS : list pystr :=
  [u "schema_version"; u "id"; u "title"; u "kind"; u "source_finding_id";
   u "citation_ids"; u "request"; u "assertions"].
Definition REQUEST_FIELDS : list pystr :=
  [u "method"; u "path"; u "query"; u "headers"; u "json_body"].
Definition PARAMETER_FIELDS : list pystr := [u "name"; u "value"].
Definition ASSERTION_FIELDS : list pystr :=
  [u "target"; u "selector"; u "operator"; u "expected_value"].
Definition FORBIDDEN_HEADER_NAMES : list pystr :=
  [u "authorization"; u "cookie"; u "host"; u "proxy-authorization"; u "set-cookie"].

Inductive GeneratedTestKind :=
  | POSITIVE | NEGATIVE | BOUNDARY | AUTHORIZATION | CONTRACT | STATE.
Inductive HttpMethod := GET | POST | PUT | PATCH | DELETE.
Inductive AssertionTarget :=
  | STATUS_CODE | RESPONSE_HEADER | JSON_BODY | RESPONSE_TIME_MS.
Inductive AssertionOperator := EQUALS | EXISTS | CONTAINS | LESS_THAN_OR_EQUAL.

#[export] Instance kind_eq_dec : EqDecision GeneratedTestKind.
Proof. solve_decision. Defined.
#[export] Instance method_eq_dec : EqDecision HttpMethod.
Proof. solve_decision. Defined.
#[export] Instance target_eq_dec : EqDecision AssertionTarget.
Proof. solve_decision. Defined.
#[export] Instance operator_eq_dec : EqDecision AssertionOperator.
Proof. solve_decision. Defined.

Definition kind_value (k : GeneratedTestKind) : pystr :=
  match k with
  | POSITIVE => u "positive" | NEGATIVE => u "negative" | BOUNDARY => u "boundary"
  | AUTHORIZATION => u "authorization" | CONTRACT => u "contract" | STATE => u "state"
  end.
Definition method_value (m : HttpMethod) : pystr :=
  match m with
  | GET => u "GET" | POST => u "POST" | PUT => u "PUT" | PATCH => u "PATCH"
  | DELETE => u "DELETE"
  end.
Definition target_value (t : AssertionTarget) : pystr :=
  match t with
  | STATUS_CODE => u "status_code" | RESPONSE_HEADER => u "response_header"
  | JSON_BODY => u "json_body" | RESPONSE_TIME_MS => u "response_time_ms"
  end.
Definition operator_value (o : AssertionOperator) : pystr :=
  match o with
  | EQUALS => u "equals" | EXISTS => u "exists" | CONTAINS => u "contains"
  | LESS_THAN_OR_EQUAL => u "less_than_or_equal"
  end.

#[export] Program Instance kind_enum : StrEnum GeneratedTestKind := {|
  members := [POSITIVE; NEGATIVE; BOUNDARY; AUTHORIZATION; CONTRACT; STATE];
  value := kind_value |}.
Next Obligation. by intros [] []. Qed.
Next Obligation. intros []; set_solver. Qed.
#[export] Program Instance method_enum : StrEnum HttpMethod := {|
  members := [GET; POST; PUT; PATCH; DELETE]; value := method_value |}.
Next Obligation. by intros [] []. Qed.
Next Obligation. intros []; set_solver. Qed.
#[export] Program Instance target_enum : StrEnum AssertionTarget := {|
  members := [STATUS_CODE; RESPONSE_HEADER; JSON_BODY; RESPONSE_TIME_MS];
  value := target_value |}.
Next Obligation. by intros [] []. Qed.
Next Obligation. intros []; set_solver. Qed.
#[export] Program Instance operator_enum : StrEnum AssertionOperator := {|
  members := [EQUALS; EXISTS; CONTAINS; LESS_THAN_OR_EQUAL]; value := operator_value |}.
Next Obligation. by intros [] []. Qed.
Next Obligation. intros []; set_solver. Qed.

(** [type ExpectedValue = str | int | float | bool | None] *)
Inductive ExpectedValue :=
  | ENone | EBool (b : bool) | EInt (z : Z) | EFloat (x : spec_float) | EStr (s : pystr).

Definition expected_json (v : ExpectedValue) : json :=
  match v with
  | ENone => JNull | EBool b => JBool b | EInt z => JInt z | EFloat x => JFloat x
  | EStr s => JStr s
  end.

Record RequestQueryParameterV1 := { query_name : pystr; query_value : pystr }.
Record RequestHeaderV1 := { header_name : pystr; header_value : pystr }.
Record RequestTemplateV1 := {
  method : HttpMethod;
  path : pystr;
  query : list RequestQueryParameterV1;
  headers : list RequestHeaderV1;
  json_body : option (list (pystr * json));
}.
Record GeneratedAssertionV1 := {
  target : AssertionTarget;
  selector : option pystr;
  operator : AssertionOperator;
  expected_value : ExpectedValue;
}.
Record GeneratedTestCaseV1 := {
  id : uuid;
  title : pystr;
  kind : GeneratedTestKind;
  source_finding_id : uuid;
  citation_ids : list uuid;
  request : RequestTemplateV1;
  assertions : list GeneratedAssertionV1;
}.

(** ** Rendering *)

Definition opt_json {A} (f : A -> json) (o : option A) : json :=
  match o with Some a => f a | None => JNull end.

Definition query_payload (p : RequestQueryParameterV1) : json :=
  JObj [(u "name", JStr (query_name p)); (u "value", JStr (query_value p))].
Definition header_payload (h : RequestHeaderV1) : json :=
  JObj [(u "name", JStr (header_name h)); (u "value", JStr (header_value h))].

(** [RequestTemplateV1.as_payload] *)
Definition request_payload (r : RequestTemplateV1) : json :=
  JObj [(u "method", JStr (value (method r)));
        (u "path", JStr (path r));
        (u "query", JList (query_payload <$> query r));
        (u "headers", JList (header_payload <$> headers r));
        (u "json_body", opt_json JObj (json_body r))].

(** [GeneratedAssertionV1.as_payload] *)
Definition assertion_payload (a : GeneratedAssertionV1) : json :=
  JObj [(u "target", JStr (value (target a)));
        (u "selector", opt_json JStr (selector a));
        (u "operator", JStr (value (operator a)));
        (u "expected_value", expected_json (expected_value a))].

(** [GeneratedTestCaseV1.as_payload] *)
Definition as_payload (t : GeneratedTestCaseV1) : list (pystr * json) :=
  [(u "schema_version", JStr GENERATED_TEST_CASE_SCHEMA_VERSION);
   (u "id", JStr (uuid_str (id t)));
   (u "title", JStr (title t));
   (u "kind", JStr (value (kind t)));
   (u "source_finding_id", JStr (uuid_str (source_finding_id t)));
   (u "citation_ids", JList ((fun c => JStr (uuid_str c)) <$> citation_ids t));
   (u "request", request_payload (request t));
   (u "assertions", JList (assertion_payload <$> assertions t))].

(** ** Python equality of expected values

    [bool] is a subclass of [int], and numbers of different types are equal
    when their values are. *)

Definition float_eq_int (x : spec_float) (z : Z) : bool :=
  match x with
  | S754_zero _ => z =? 0
  | S754_finite neg m e =>
      let v := if neg then Z.neg m else Z.pos m in
      if 0 <=? e then v * 2 ^ e =? z else z * 2 ^ (- e) =? v
  | _ => false
  end.

Inductive number := NInt (z : Z) | NFloat (x : spec_float).
Definition as_number (v : ExpectedValue) : option number :=
  match v with
  | EBool b => Some (NInt (Z.b2z b))
  | EInt z => Some (NInt z)
  | EFloat x => Some (NFloat x)
  | _ => None
  end.
Definition number_eq (a b : number) : bool :=
  match a, b with
  | NInt x, NInt y => x =? y
  | NFloat x, NFloat y => SFeqb x y
  | NFloat x, NInt z | NInt z, NFloat x => float_eq_int x z
  end.

(** [a == b] *)
Definition expected_eq (a b : ExpectedValue) : bool :=
  match a, b with
  | ENone, ENone => true
  | EStr s, EStr t => str_eqb s t
  | _, _ =>
      match as_number a, as_number b with
      | Some x, Some y => number_eq x y
      | _, _ => false
      end
  end.

(** Equality of the frozen dataclass [GeneratedAssertionV1]. *)
Definition assertion_eq (a b : GeneratedAssertionV1) : bool :=
  bool_decide (target a = target b) && bool_decide (selector a = selector b) &&
  bool_decide (operator a = operator b) &&
  expected_eq (expected_value a) (expected_value b).

(** [len(set(l)) == len(l)] under [==]. *)
Fixpoint all_distinct {A} (eqb : A -> A -> bool) (l : list A) : bool :=
  match l with
  | [] => true
  | x :: l => forallb (fun y => negb (eqb x y)) l && all_distinct eqb l
  end.

(** ** Validation *)

(** [raise GeneratedTestCaseValidationError(msg)] *)
Abbreviation reject msg := (raise GeneratedTestCaseValidationError msg).
Abbreviation reject_if c msg := (raise_if c GeneratedTestCaseValidationError msg).

Section validation.
Context {rt : PyRuntime}.

Definition require_exact_fields (payload : list (pystr * json))
    (expected_fields : list pystr) (label : string) : result unit :=
  reject_if (negb (has_exactly expected_fields payload))
    (label +:+ " fields must exactly match the versioned schema").

(** [payload[name]] *)
Definition field (name : string) (payload : list (pystr * json)) : result json :=
  or_raise (dict_get (u name) payload) (Exn KeyError name).

Definition as_mapping (v : json) (label : string) : result (list (pystr * json)) :=
  match v with
  | JObj kvs => Ok kvs
  | _ => reject (label +:+ " must be an object")
  end.

Definition as_list (v : json) (label : string) : result (list json) :=
  match v with
  | JList l => Ok l
  | _ => reject (label +:+ " must be a list")
  end.

Definition as_uuid (v : json) (label : string) : result uuid :=
  match v with
  | JStr s =>
      or_raise (uuid_parse s)
        (Exn GeneratedTestCaseValidationError (label +:+ " must be a UUID string"))
  | _ => reject (label +:+ " must be a UUID string")
  end.

Definition as_enum {T} `{StrEnum T} (v : json) (label : string) : result T :=
  match v with
  | JStr s =>
      or_raise (enum_of s)
        (Exn GeneratedTestCaseValidationError (label +:+ " is not allowed"))
  | _ => reject (label +:+ " is not allowed")
  end.

Definition text (v : json) (label : string) : result pystr :=
  match v with
  | JStr s =>
      let normalized := strip s in
      reject_if (bool_decide (normalized = []) ||
                 (MAX_GENERATED_TEST_TEXT_LENGTH <? zlen normalized))
        (label +:+ " must be bounded, non-empty text") ;;
      Ok normalized
  | _ => reject (label +:+ " must be text")
  end.

(** [^[A-Za-z0-9-]+$] *)
Definition header_name_pattern (s : pystr) : bool :=
  match s with
  | [] => false
  | _ => forallb (fun c => ascii_letter c || ascii_digit c || (c =? 45)%N) s
  end.

Definition request_path (v : json) : result pystr :=
  path ← text v "Request path";
  reject_if (MAX_REQUEST_PATH_LENGTH <? zlen path) "Request path is too long" ;;
  reject_if
    (negb (starts_with (u "/") path) || starts_with (u "//") path ||
     contains (u "\") path || contains (u "://") path || contains (u "?") path ||
     contains (u "#") path)
    "Request path must be a relative path without a URL, query, or fragment" ;;
  Ok path.

Definition to_header_name (v : json) : result pystr :=
  name ← text v "Request header name";
  reject_if (negb (header_name_pattern name)) "Request header name is not allowed" ;;
  reject_if (bool_decide (str_lower name ∈ FORBIDDEN_HEADER_NAMES))
    "Credential or routing headers are not allowed" ;;
  Ok name.

Definition parameter_name (v : json) (label : string) : result pystr :=
  name ← text v label;
  reject_if (256 <? zlen name) (label +:+ " is too long") ;;
  Ok name.

Definition query_parameter (item : json) : result RequestQueryParameterV1 :=
  parameter ← as_mapping item "Request query item";
  require_exact_fields parameter PARAMETER_FIELDS "Request query item" ;;
  n ← field "name" parameter;
  n ← parameter_name n "Request query name";
  v ← field "value" parameter;
  v ← text v "Request query value";
  Ok {| query_name := n; query_value := v |}.

Definition query_parameters (v : json) : result (list RequestQueryParameterV1) :=
  items ← as_list v "Request query";
  reject_if (MAX_REQUEST_ITEMS <? zlen items) "Request query has too many items" ;;
  parameters ← try_map query_parameter items;
  reject_if (negb (no_repeats (query_name <$> parameters)))
    "Request query names must not repeat" ;;
  Ok parameters.

Definition request_header (item : json) : result RequestHeaderV1 :=
  header ← as_mapping item "Request header";
  require_exact_fields header PARAMETER_FIELDS "Request header" ;;
  n ← field "name" header;
  n ← to_header_name n;
  v ← field "value" header;
  v ← text v "Request header value";
  Ok {| header_name := n; header_value := v |}.

Definition request_headers (v : json) : result (list RequestHeaderV1) :=
  items ← as_list v "Request headers";
  reject_if (MAX_REQUEST_ITEMS <? zlen items) "Request headers have too many items" ;;
  headers ← try_map request_header items;
  reject_if (negb (no_repeats ((fun h => str_lower (header_name h)) <$> headers)))
    "Request header names must not repeat" ;;
  Ok headers.

Definition json_key (k : pystr) : result pystr := text (JStr k) "Request JSON key".

Definition is_finite (x : spec_float) : bool :=
  match x with S754_nan | S754_infinity _ => false | _ => true end.

Fixpoint json_value (depth : Z) (v : json) : result json :=
  if MAX_JSON_DEPTH <? depth
  then reject "Request JSON body is too deeply nested"
  else match v with
  | JStr s =>
      reject_if (MAX_GENERATED_TEST_TEXT_LENGTH <? zlen s)
        "Request JSON text is too long" ;; Ok v
  | JNull | JBool _ | JInt _ => Ok v
  | JFloat x =>
      reject_if (negb (is_finite x)) "Request JSON numbers must be finite" ;; Ok v
  | JList l =>
      reject_if (MAX_JSON_ITEMS <? zlen l) "Request JSON array has too many items" ;;
      JList <$> try_map (json_value (depth + 1)) l
  | JObj kvs =>
      reject_if (MAX_JSON_ITEMS <? zlen kvs) "Request JSON object has too many items" ;;
      (fun pairs => JObj (dict_of pairs)) <$>
        try_map (fun kv => k ← json_key kv.1; w ← json_value (depth + 1) kv.2; Ok (k, w)) kvs
  end.

Definition to_json_body (v : json) : result (option (list (pystr * json))) :=
  match v with
  | JNull => Ok None
  | _ =>
      body ← as_mapping v "Request JSON body";
      reject_if (MAX_JSON_ITEMS <? zlen body) "Request JSON body has too many items" ;;
      (fun pairs => Some (dict_of pairs)) <$>
        try_map (fun kv => k ← json_key kv.1; w ← json_value 0 kv.2; Ok (k, w)) body
  end.

Definition request_template (v : json) : result RequestTemplateV1 :=
  request ← as_mapping v "Request template";
  require_exact_fields request REQUEST_FIELDS "Request template" ;;
  m ← field "method" request; m ← as_enum m "Request method";
  p ← field "path" request; p ← request_path p;
  q ← field "query" request; q ← query_parameters q;
  h ← field "headers" request; h ← request_headers h;
  b ← field "json_body" request; b ← to_json_body b;
  Ok {| method := m; path := p; query := q; headers := h; json_body := b |}.

Definition optional_selector (v : json) : result (option pystr) :=
  match v with
  | JNull => Ok None
  | _ => Some <$> text v "Assertion selector"
  end.

Definition to_expected_value (v : json) : result ExpectedValue :=
  match v with
  | JNull => Ok ENone
  | JBool b => Ok (EBool b)
  | JInt z => Ok (EInt z)
  | JStr s =>
      reject_if (MAX_GENERATED_TEST_TEXT_LENGTH <? zlen s)
        "Assertion expected value is too long" ;; Ok (EStr s)
  | JFloat x =>
      reject_if (negb (is_finite x)) "Assertion expected numbers must be finite" ;;
      Ok (EFloat x)
  | _ => reject "Assertion expected values must be scalar JSON values"
  end.

Definition is_status_code (v : ExpectedValue) : bool :=
  match v with EInt z => (100 <=? z) && (z <=? 599) | _ => false end.
Definition is_positive_integer (v : ExpectedValue) : bool :=
  match v with EInt z => 0 <? z | _ => false end.

(** [^/(?:[^~/]|~[01])+(?:/(?:[^~/]|~[01])+)*$] *)
Fixpoint tilde_ok (s : pystr) : bool :=
  match s with
  | [] => true
  | c :: s =>
      if (c =? 126)%N
      then match s with
           | d :: s => ((d =? 48) || (d =? 49))%N && tilde_ok s
           | [] => false
           end
      else tilde_ok s
  end.
Definition pointer_token (s : pystr) : bool :=
  negb (bool_decide (s = [])) && tilde_ok s.
Definition json_pointer_pattern (s : pystr) : bool :=
  match split_on 47 s with
  | first :: (_ :: _) as tokens =>
      bool_decide (first = []) && forallb pointer_token (tail tokens)
  | _ => false
  end.

Definition is_str (v : ExpectedValue) : bool :=
  match v with EStr _ => true | _ => false end.
Definition is_none (v : ExpectedValue) : bool :=
  match v with ENone => true | _ => false end.
Definition opt_matches (p : pystr -> bool) (o : option pystr) : bool :=
  match o with Some s => p s | None => false end.

Definition validate_assertion_contract (a : GeneratedAssertionV1) : result unit :=
  match target a with
  | STATUS_CODE =>
      reject_if
        (bool_decide (selector a <> None) || negb (bool_decide (operator a = EQUALS)) ||
         negb (is_status_code (expected_value a)))
        "Status-code assertions require equals and an HTTP status code"
  | RESPONSE_HEADER =>
      reject_if
        (negb (opt_matches header_name_pattern (selector a)) ||
         negb (bool_decide (operator a ∈ [EQUALS; EXISTS])))
        "Response-header assertions require a header-name selector" ;;
      if decide (operator a = EXISTS)
      then reject_if (negb (is_none (expected_value a)))
             "Exists assertions must not include an expected value"
      else reject_if (negb (is_str (expected_value a)))
             "Header equals assertions require a text expected value"
  | JSON_BODY =>
      reject_if
        (negb (opt_matches json_pointer_pattern (selector a)) ||
         negb (bool_decide (operator a ∈ [EQUALS; EXISTS; CONTAINS])))
        "JSON-body assertions require a JSON-pointer selector" ;;
      if decide (operator a = EXISTS)
      then reject_if (negb (is_none (expected_value a)))
             "Exists assertions must not include an expected value"
      else reject_if (bool_decide (operator a = CONTAINS) &&
                      negb (is_str (expected_value a)))
             "JSON-body contains assertions require a text expected value"
  | RESPONSE_TIME_MS =>
      reject_if
        (bool_decide (selector a <> None) ||
         negb (bool_decide (operator a = LESS_THAN_OR_EQUAL)) ||
         negb (is_positive_integer (expected_value a)))
        "Response-time assertions require less_than_or_equal and a positive integer expected value"
  end.

Definition to_assertion (item : json) : result GeneratedAssertionV1 :=
  payload ← as_mapping item "Generated assertion";
  require_exact_fields payload ASSERTION_FIELDS "Generated assertion" ;;
  t ← field "target" payload; t ← as_enum t "Assertion target";
  s ← field "selector" payload; s ← optional_selector s;
  o ← field "operator" payload; o ← as_enum o "Assertion operator";
  e ← field "expected_value" payload; e ← to_expected_value e;
  let assertion := {| target := t; selector := s; operator := o; expected_value := e |} in
  validate_assertion_contract assertion ;;
  Ok assertion.

Definition to_assertions (v : json) : result (list GeneratedAssertionV1) :=
  items ← as_list v "Generated test assertions";
  reject_if (bool_decide (items = []))
    "Generated test cases require at least one assertion" ;;
  reject_if (MAX_ASSERTIONS <? zlen items)
    "Generated test cases have too many assertions" ;;
  assertions ← try_map to_assertion items;
  reject_if (negb (all_distinct assertion_eq assertions))
    "Generated assertions must not repeat" ;;
  Ok assertions.

Definition to_citation_ids (v : json) : result (list uuid) :=
  items ← as_list v "Generated test case citation IDs";
  reject_if (bool_decide (items = []))
    "Generated test cases require at least one citation ID" ;;
  citation_ids ← try_map (fun item => as_uuid item "Generated test case citation id") items;
  reject_if (negb (no_repeats citation_ids))
    "Generated test case citation IDs must not repeat" ;;
  Ok citation_ids.

Definition validate_generated_test_case (payload : list (pystr * json)) :
    result GeneratedTestCaseV1 :=
  require_exact_fields payload CASE_FIELDS "Generated test case" ;;
  version ← field "schema_version" payload;
  reject_if (negb (match version with
                   | JStr s => str_eqb s GENERATED_TEST_CASE_SCHEMA_VERSION
                   | _ => false end))
    "Unsupported generated-test-case schema version" ;;
  i ← field "id" payload; i ← as_uuid i "Generated test case id";
  t ← field "title" payload; t ← text t "Generated test case title";
  k ← field "kind" payload; k ← as_enum k "Generated test case kind";
  f ← field "source_finding_id" payload;
  f ← as_uuid f "Generated test case source finding id";
  c ← field "citation_ids" payload; c ← to_citation_ids c;
  r ← field "request" payload; r ← request_template r;
  a ← field "assertions" payload; a ← to_assertions a;
  Ok {| id := i; title := t; kind := k; source_finding_id := f; citation_ids := c;
        request := r; assertions := a |}.

Definition validate_generated_test_cases (payloads : list (list (pystr * json))) :
    result (list GeneratedTestCaseV1) :=
  reject_if (bool_decide (payloads = []))
    "At least one generated test case is required" ;;
  test_cases ← try_map validate_generated_test_case payloads;
  reject_if (negb (no_repeats (id <$> test_cases)))
    "Generated test case IDs must be unique" ;;
  Ok test_cases.
End validation.
