(* ===== verification/GeneratedTestsFacts.v ===== *)
(** * The generated-test contract: soundness and round trip

    [wf_test_case] is the invariant of the data class, written without the
    parser.  Everything [validate_generated_test_case] accepts satisfies it,
    and everything that satisfies it is accepted from its own [as_payload]. *)
From S2P Require Import Prelude PyText Json JsonFacts Digest GeneratedTests.
From Stdlib Require Import SpecFloat.

Section invariant.
Context {rt : PyRuntime}.

(** Stripped, non-empty text of bounded length. *)
Definition text_ok (s : pystr) : bool :=
  bool_decide (strip s = s) && negb (bool_decide (s = [])) &&
  (zlen s <=? MAX_GENERATED_TEST_TEXT_LENGTH).

Definition uuid_ok (n : uuid) : bool := (n <? 2 ^ 128)%N.

Definition path_ok (s : pystr) : bool :=
  text_ok s && (zlen s <=? MAX_REQUEST_PATH_LENGTH) &&
  starts_with (u "/") s && negb (starts_with (u "//") s) && negb (contains (u "\") s) &&
  negb (contains (u "://") s) && negb (contains (u "?") s) && negb (contains (u "#") s).

Definition query_ok (p : RequestQueryParameterV1) : bool :=
  text_ok (query_name p) && (zlen (query_name p) <=? 256) && text_ok (query_value p).

Definition header_ok (h : RequestHeaderV1) : bool :=
  text_ok (header_name h) && header_name_pattern (header_name h) &&
  negb (bool_decide (str_lower (header_name h) ∈ FORBIDDEN_HEADER_NAMES)) &&
  text_ok (header_value h).

(** A JSON value of bounded depth and width. *)
Fixpoint json_value_ok (depth : Z) (v : json) : bool :=
  (depth <=? MAX_JSON_DEPTH) &&
  match v with
  | JStr s => zlen s <=? MAX_GENERATED_TEST_TEXT_LENGTH
  | JFloat x => is_finite x
  | JList l => (zlen l <=? MAX_JSON_ITEMS) && forallb (json_value_ok (depth + 1)) l
  | JObj kvs =>
      (zlen kvs <=? MAX_JSON_ITEMS) && no_repeats (keys kvs) &&
      forallb (fun kv => text_ok kv.1 && json_value_ok (depth + 1) kv.2) kvs
  | _ => true
  end.

Definition body_ok (b : option (list (pystr * json))) : bool :=
  match b with
  | None => true
  | Some kvs =>
      (zlen kvs <=? MAX_JSON_ITEMS) && no_repeats (keys kvs) &&
      forallb (fun kv => text_ok kv.1 && json_value_ok 0 kv.2) kvs
  end.

Definition request_ok (r : RequestTemplateV1) : bool :=
  path_ok (path r) &&
  (zlen (query r) <=? MAX_REQUEST_ITEMS) && forallb query_ok (query r) &&
  no_repeats (query_name <$> query r) &&
  (zlen (headers r) <=? MAX_REQUEST_ITEMS) && forallb header_ok (headers r) &&
  no_repeats ((fun h => str_lower (header_name h)) <$> headers r) &&
  body_ok (json_body r).

Definition expected_ok (v : ExpectedValue) : bool :=
  match v with
  | EStr s => zlen s <=? MAX_GENERATED_TEST_TEXT_LENGTH
  | EFloat x => is_finite x
  | _ => true
  end.

(** Which selectors, operators and values each target allows. *)
Definition contract_ok (a : GeneratedAssertionV1) : bool :=
  match target a, selector a, operator a, expected_value a with
  | STATUS_CODE, None, EQUALS, EInt z => (100 <=? z) && (z <=? 599)
  | RESPONSE_TIME_MS, None, LESS_THAN_OR_EQUAL, EInt z => 0 <? z
  | RESPONSE_HEADER, Some s, EXISTS, ENone => header_name_pattern s
  | RESPONSE_HEADER, Some s, EQUALS, EStr _ => header_name_pattern s
  | JSON_BODY, Some s, EXISTS, ENone => json_pointer_pattern s
  | JSON_BODY, Some s, EQUALS, _ => json_pointer_pattern s
  | JSON_BODY, Some s, CONTAINS, EStr _ => json_pointer_pattern s
  | _, _, _, _ => false
  end.

Definition assertion_ok (a : GeneratedAssertionV1) : bool :=
  contract_ok a && expected_ok (expected_value a) &&
  match selector a with Some s => text_ok s | None => true end.

Definition wf_test_case (t : GeneratedTestCaseV1) : bool :=
  uuid_ok (id t) && text_ok (title t) && uuid_ok (source_finding_id t) &&
  negb (bool_decide (citation_ids t = [])) && forallb uuid_ok (citation_ids t) &&
  no_repeats (citation_ids t) &&
  request_ok (request t) &&
  negb (bool_decide (assertions t = [])) &&
  (zlen (assertions t) <=? MAX_ASSERTIONS) &&
  forallb assertion_ok (assertions t) &&
  all_distinct assertion_eq (assertions t).
End invariant.

(** ** Dictionaries built by comprehension *)

Section dict_of_facts.
Context {A : Type}.
Implicit Types (d : list (pystr * A)).

Lemma keys_dict_set k v d :
  keys (dict_set k v d) = if decide (k ∈ keys d) then keys d else keys d ++ [k].
Proof.
  induction d as [|[k' v'] d IH]; simpl; [done|].
  destruct (str_eqb k k') eqn:E.
  - apply str_eqb_eq in E as ->. simpl. rewrite decide_True; [done|]. left.
  - apply str_eqb_neq in E. simpl. rewrite IH.
    destruct (decide (k ∈ keys d)), (decide (k ∈ k' :: keys d)) as [Hin|Hin]; try done.
    + by destruct Hin; right.
    + by apply elem_of_cons in Hin as [?|?].
Qed.

Lemma NoDup_dict_set k v d : NoDup (keys d) -> NoDup (keys (dict_set k v d)).
Proof.
  intros Hd. rewrite keys_dict_set. destruct (decide _) as [|Hk]; [done|].
  apply NoDup_app; split; [done|]. split; [|apply NoDup_singleton].
  intros x Hx ->%list_elem_of_singleton. done.
Qed.

Lemma length_dict_set k v d : (length (dict_set k v d) <= S (length d))%nat.
Proof.
  induction d as [|[k' v'] d IH]; simpl; [done|]. destruct (str_eqb k k'); simpl; lia.
Qed.

Lemma elem_of_dict_set kv k v d : kv ∈ dict_set k v d -> kv = (k, v) \/ kv ∈ d.
Proof.
  induction d as [|[k' v'] d IH]; simpl.
  - rewrite list_elem_of_singleton. by left.
  - destruct (str_eqb k k') eqn:E.
    + apply str_eqb_eq in E as ->. rewrite !elem_of_cons. intros [->|?]; auto.
    + rewrite !elem_of_cons. intros [->|?]; [auto|]. destruct IH; auto.
Qed.

Lemma dict_of_spec (l : list (pystr * A)) :
  NoDup (keys (dict_of l)) /\ (length (dict_of l) <= length l)%nat /\
  (forall kv, kv ∈ dict_of l -> kv ∈ l).
Proof.
  unfold dict_of.
  assert (forall d, NoDup (keys d) ->
    let r := foldl (fun d kv => dict_set kv.1 kv.2 d) d l in
    NoDup (keys r) /\ (length r <= length d + length l)%nat /\
    (forall kv, kv ∈ r -> kv ∈ d \/ kv ∈ l)) as H.
  { induction l as [|[k v] l IH]; intros d Hd; simpl.
    - split; [done|]. split; [lia|auto].
    - destruct (IH (dict_set k v d) (NoDup_dict_set k v d Hd)) as (H1 & H2 & H3).
      pose proof (length_dict_set k v d). split; [done|]. split; [lia|].
      intros kv Hkv. destruct (H3 kv Hkv) as [Hs|?]; [|right; by right].
      apply elem_of_dict_set in Hs as [->|?]; [right; left | by left]. }
  destruct (H [] (NoDup_nil_2)) as (H1 & H2 & H3). split; [done|]. split; [done|].
  intros kv Hkv. destruct (H3 kv Hkv) as [?%not_elem_of_nil|?]; done.
Qed.
End dict_of_facts.

Lemma zlen_Forall2 {A B} (P : A -> B -> Prop) l l' : Forall2 P l l' -> zlen l' = zlen l.
Proof. intros H%Forall2_length. unfold zlen. by rewrite H. Qed.

Lemma zlen_fmap {A B} (f : A -> B) l : zlen (f <$> l) = zlen l.
Proof. unfold zlen. by rewrite length_fmap. Qed.

Lemma try_map_zlen {A B} (f : A -> result B) l l' : try_map f l = Ok l' -> zlen l' = zlen l.
Proof. intros H%try_map_Ok. eapply zlen_Forall2, H. Qed.

Lemma try_map_forallb {A B} (f : A -> result B) (p : B -> bool) l l' :
  (forall a b, a ∈ l -> f a = Ok b -> p b = true) -> try_map f l = Ok l' ->
  forallb p l' = true.
Proof.
  intros Hf H%try_map_Ok. apply forallb_Forall.
  induction H as [|a b l l' Hab _ IH]; constructor.
  - eapply Hf, Hab. left.
  - apply IH. intros a' b' Ha. apply Hf. by right.
Qed.

Lemma forallb_elem {A} (p : A -> bool) l x : forallb p l = true -> x ∈ l -> p x = true.
Proof. rewrite forallb_Forall, Forall_forall. auto. Qed.

(** ** Soundness: what each check lets through *)

Section soundness.
Context {rt : PyRuntime}.

Lemma text_sound v label s : text v label = Ok s -> text_ok s = true.
Proof.
  destruct v as [| | | |s'| |]; try done. simpl. intros H. ok_inv. bools.
  unfold text_ok. bool_goal; [apply strip_strip | done | lia].
Qed.

#[local] Ltac field_ok :=
  lazymatch goal with
  | |- text_ok _ = true => by eapply text_sound
  | |- _ <= _ => lia
  | |- _ => assumption
  end.

Lemma as_uuid_sound v label n : as_uuid v label = Ok n -> uuid_ok n = true.
Proof.
  destruct v as [| | | |s| |]; try done. simpl. intros H. ok_inv.
  unfold uuid_parse in H. destruct (_ =? 32)%nat; [|done].
  apply bind_Some in H as (z & _ & H). destruct (_ && _) eqn:E; [|done]. ok_inv. bools.
  unfold uuid_ok. bool_goal. lia.
Qed.

Lemma request_path_sound v s : request_path v = Ok s -> path_ok s = true.
Proof.
  unfold request_path. intros H. ok_inv. bools.
  unfold path_ok. bool_goal; field_ok.
Qed.

Lemma query_parameter_sound v p : query_parameter v = Ok p -> query_ok p = true.
Proof.
  unfold query_parameter, parameter_name. intros H. ok_inv. bools.
  unfold query_ok. bool_goal; simpl; field_ok.
Qed.

Lemma request_header_sound v h : request_header v = Ok h -> header_ok h = true.
Proof.
  unfold request_header, to_header_name. intros H. ok_inv. bools.
  unfold header_ok. bool_goal; simpl; field_ok.
Qed.

Lemma json_value_sound v : forall d w, json_value d v = Ok w -> json_value_ok d w = true.
Proof.
  induction v as [|b|z|x|s|l IH|kvs IH] using json_rect_strong; intros d w H;
    cbn [json_value] in H; destruct (MAX_JSON_DEPTH <? d) eqn:Hd; try done; ok_inv; bools.
  - cbn. bool_goal; (lia || done).
  - cbn. bool_goal; (lia || done).
  - cbn. bool_goal; (lia || done).
  - cbn. bool_goal; (lia || done).
  - cbn. bool_goal; (lia || done).
  - cbn [json_value_ok]. bool_goal; [lia | erewrite try_map_zlen by done; lia |].
    eapply try_map_forallb; [|done]. intros a b Ha. rewrite Forall_forall in IH. by apply IH.
  - cbn [json_value_ok]. destruct (dict_of_spec x0) as (Hnd & Hlen & Hin).
    match goal with E : try_map _ _ = Ok _ |- _ => pose proof (try_map_zlen _ _ _ E) as Hz;
      rename E into Hmap end.
    bool_goal; [lia | unfold zlen in *; lia | done |].
    assert (forallb (fun kv => text_ok kv.1 && json_value_ok (d + 1) kv.2) x0 = true) as Hall.
    { eapply try_map_forallb; [|exact Hmap]. intros [k v] b Ha Hb. unfold json_key in Hb.
      ok_inv. cbn [fst snd]. bool_goal; [by eapply text_sound|].
      rewrite Forall_forall in IH. by eapply (IH _ Ha). }
    apply forallb_Forall, Forall_forall. intros kv Hkv. apply (forallb_elem _ _ _ Hall). by apply Hin.
Qed.

Lemma to_json_body_sound v b : to_json_body v = Ok b -> body_ok b = true.
Proof.
  intros H.
  assert (b = None \/ exists kvs pairs, zlen kvs <= MAX_JSON_ITEMS /\ b = Some (dict_of pairs) /\
    try_map (fun kv => k ← json_key kv.1; w ← json_value 0 kv.2; Ok (k, w)) kvs = Ok pairs)
    as [->|(kvs & pairs & Hlen & -> & Hmap)]; [|done|].
  { destruct v; try (by left; cbn in H; ok_inv); right; cbn in H; ok_inv; bools; eauto. }
  destruct (dict_of_spec pairs) as (Hnd & Hl & Hin).
  pose proof (try_map_zlen _ _ _ Hmap) as Hz. cbn [body_ok].
  bool_goal; [unfold zlen in *; lia | done |].
  assert (forallb (fun kv => text_ok kv.1 && json_value_ok 0 kv.2) pairs = true) as Hall.
  { eapply try_map_forallb; [|exact Hmap]. intros [k v'] b' _ Hb. unfold json_key in Hb.
    ok_inv. cbn [fst snd]. bool_goal; [by eapply text_sound | by eapply json_value_sound]. }
  apply forallb_Forall, Forall_forall. intros kv Hkv. apply (forallb_elem _ _ _ Hall). by apply Hin.
Qed.

Lemma request_template_sound v r : request_template v = Ok r -> request_ok r = true.
Proof.
  unfold request_template, query_parameters, request_headers. intros H. ok_inv. bools.
  unfold request_ok. cbn [path query headers json_body].
  bool_goal; try (by eapply request_path_sound); try (by eapply to_json_body_sound);
    try assumption; try (erewrite try_map_zlen by done; lia).
  - by eapply try_map_forallb; [intros ???; apply query_parameter_sound|].
  - by eapply try_map_forallb; [intros ???; apply request_header_sound|].
Qed.

Lemma to_expected_value_sound v e : to_expected_value v = Ok e -> expected_ok e = true.
Proof.
  destruct v; cbn; intros H; ok_inv; bools; try done. cbn. by apply Z.leb_le.
Qed.

Lemma validate_assertion_contract_ok a :
  validate_assertion_contract a = Ok tt <-> contract_ok a = true.
Proof.
  unfold validate_assertion_contract, contract_ok.
  destruct a as [[] [s|] [] []]; cbn [target selector operator expected_value];
    try (by split); cbn -[header_name_pattern json_pointer_pattern Z.leb Z.ltb];
    try (by rewrite raise_if_Ok, negb_false_iff);
    repeat (destruct (header_name_pattern _) || destruct (json_pointer_pattern _));
    try (by split); rewrite bool_decide_eq_true_2 by done; simpl;
    by rewrite raise_if_Ok, negb_false_iff.
Qed.

Lemma to_assertion_sound v a : to_assertion v = Ok a -> assertion_ok a = true.
Proof.
  unfold to_assertion, optional_selector. intros H. ok_inv.
  unfold assertion_ok. bool_goal.
  - by apply validate_assertion_contract_ok.
  - by eapply to_expected_value_sound.
  - cbn [selector]. match goal with E : match ?v with JNull => _ | _ => _ end = Ok ?o |- _ =>
      destruct v; ok_inv; try done; by eapply text_sound end.
Qed.

(** Whatever the validator accepts satisfies the contract. *)
Lemma validate_sound p t : validate_generated_test_case p = Ok t -> wf_test_case t = true.
Proof.
  unfold validate_generated_test_case, to_citation_ids, to_assertions. intros H. ok_inv. bools.
  unfold wf_test_case. cbn [id title source_finding_id citation_ids request assertions].
  bool_goal; try (by eapply as_uuid_sound); try (by eapply text_sound);
    try (by eapply request_template_sound); try assumption;
    try (erewrite try_map_zlen by done; lia).
  - intros ->. match goal with E : try_map (fun item => _) ?l = Ok [] |- _ =>
      apply try_map_zlen in E; destruct l; [done | unfold zlen in E; simpl in E; lia] end.
  - by eapply try_map_forallb; [intros ???; apply as_uuid_sound|].
  - intros ->. match goal with E : try_map to_assertion ?l = Ok [] |- _ =>
      apply try_map_zlen in E; destruct l; [done | unfold zlen in E; simpl in E; lia] end.
  - by eapply try_map_forallb; [intros ???; apply to_assertion_sound|].
Qed.
End soundness.

(** ** Completeness: the rendering of a well-formed value is accepted *)

Lemma raise_if_false c k msg : c = false -> raise_if c k msg = Ok tt.
Proof. by intros ->. Qed.

Lemma Forall_forallb_elem {A} (p : A -> bool) l :
  forallb p l = true <-> (forall x, x ∈ l -> p x = true).
Proof. by rewrite forallb_Forall, Forall_forall. Qed.

Section completeness.
Context {rt : PyRuntime}.

Lemma text_complete s label : text_ok s = true -> text (JStr s) label = Ok s.
Proof.
  unfold text_ok. intros H; bools. cbn. match goal with E : strip s = s |- _ => rewrite E end.
  rewrite raise_if_false; [done|]. apply orb_false_iff.
  rewrite bool_decide_eq_false_2, (proj2 (Z.ltb_ge _ _)) by done. done.
Qed.

Lemma as_uuid_complete n label : uuid_ok n = true -> as_uuid (JStr (uuid_str n)) label = Ok n.
Proof. intros H%N.ltb_lt. cbn [as_uuid]. by rewrite uuid_parse_str. Qed.

Lemma exact_fields payload fields label : has_exactly fields payload = true ->
  require_exact_fields payload fields label = Ok tt.
Proof. unfold require_exact_fields. by intros ->. Qed.

Lemma field_eq name payload v : dict_get (u name) payload = Some v ->
  field name payload = Ok v.
Proof. unfold field. by intros ->. Qed.

Lemma as_enum_complete {T} `{StrEnum T} (x : T) label : as_enum (JStr (value x)) label = Ok x.
Proof. cbn [as_enum]. by rewrite enum_of_value. Qed.

Lemma request_path_complete s : path_ok s = true -> request_path (JStr s) = Ok s.
Proof.
  unfold path_ok, request_path. intros H; bools. rewrite text_complete by done.
  cbn [mbind result_bind]. rewrite (raise_if_false (_ <? _)) by by apply Z.ltb_ge.
  cbn [mbind result_bind]. rewrite raise_if_false; [done|].
  repeat match goal with E : _ = _ :> bool |- _ => rewrite E end. done.
Qed.

Lemma query_parameter_complete p : query_ok p = true ->
  query_parameter (query_payload p) = Ok p.
Proof.
  unfold query_ok, query_parameter, parameter_name. intros H; bools.
  change (as_mapping (query_payload p) "Request query item") with
    (Ok [(u "name", JStr (query_name p)); (u "value", JStr (query_value p))]).
  cbn [mbind result_bind]. rewrite exact_fields by reflexivity. cbn [mbind result_bind].
  rewrite (field_eq "name" _ (JStr (query_name p))) by reflexivity.
  rewrite (field_eq "value" _ (JStr (query_value p))) by reflexivity. cbn [mbind result_bind].
  rewrite !text_complete by done. cbn [mbind result_bind].
  rewrite raise_if_false by (by apply Z.ltb_ge). by destruct p.
Qed.

Lemma request_header_complete h : header_ok h = true ->
  request_header (header_payload h) = Ok h.
Proof.
  unfold header_ok, request_header, to_header_name. intros H; bools.
  change (as_mapping (header_payload h) "Request header") with
    (Ok [(u "name", JStr (header_name h)); (u "value", JStr (header_value h))]).
  cbn [mbind result_bind]. rewrite exact_fields by reflexivity. cbn [mbind result_bind].
  rewrite (field_eq "name" _ (JStr (header_name h))) by reflexivity.
  rewrite (field_eq "value" _ (JStr (header_value h))) by reflexivity. cbn [mbind result_bind].
  rewrite !text_complete by done. cbn [mbind result_bind].
  rewrite (raise_if_false (negb _)) by (by apply negb_false_iff).
  cbn [mbind result_bind].
  rewrite raise_if_false by (by apply bool_decide_eq_false_2). by destruct h.
Qed.

Lemma pairs_complete (f : json -> result json) kvs :
  (forall kv, kv ∈ kvs -> text_ok kv.1 = true /\ f kv.2 = Ok kv.2) ->
  try_map (fun kv => k ← json_key kv.1; w ← f kv.2; Ok (k, w)) kvs = Ok kvs.
Proof.
  intros H. rewrite <- (list_fmap_id kvs) at 1.
  apply try_map_id. intros [k v] Hkv. destruct (H _ Hkv) as [Hk Hv]. simpl in *.
  unfold json_key. by rewrite text_complete, Hv.
Qed.

Lemma json_value_complete v : forall d, json_value_ok d v = true -> json_value d v = Ok v.
Proof.
  induction v as [|b|z|x|s|l IH|kvs IH] using json_rect_strong; intros d H;
    cbn [json_value_ok] in H; apply andb_true_iff in H as [Hd%Z.leb_le H];
    cbn [json_value]; rewrite (proj2 (Z.ltb_ge MAX_JSON_DEPTH d)) by done; try done.
  - rewrite raise_if_false; [done|]. by apply negb_false_iff.
  - apply Z.leb_le in H. rewrite raise_if_false; [done|]. by apply Z.ltb_ge.
  - bools. rewrite raise_if_false by (by apply Z.ltb_ge). cbn [mbind result_bind].
    assert (try_map (json_value (d + 1)) l = Ok l) as ->; [|done].
    rewrite <- (list_fmap_id l) at 1. apply try_map_id. intros v Hv.
    rewrite Forall_forall in IH. apply (IH _ Hv). by eapply forallb_elem.
  - bools. rewrite raise_if_false by (by apply Z.ltb_ge). cbn [mbind result_bind].
    rewrite pairs_complete; [cbn; by rewrite dict_of_nodup|].
    intros kv Hkv. match goal with E : forallb _ kvs = true |- _ =>
      pose proof (forallb_elem _ _ _ E Hkv) as Hok end.
    cbn beta in Hok. apply andb_true_iff in Hok as [Hk Hv].
    rewrite Forall_forall in IH. split; [done|]. by apply (IH _ Hkv).
Qed.

Lemma to_json_body_complete b : body_ok b = true -> to_json_body (opt_json JObj b) = Ok b.
Proof.
  destruct b as [kvs|]; [|done]. cbn. intros H; bools.
  rewrite raise_if_false by (by apply Z.ltb_ge). cbn [mbind result_bind].
  rewrite pairs_complete; [cbn; by rewrite dict_of_nodup|].
  intros kv Hkv. match goal with E : forallb _ kvs = true |- _ =>
    pose proof (forallb_elem _ _ _ E Hkv) as Hok end.
  cbn beta in Hok. apply andb_true_iff in Hok as [Hk Hv].
  split; [done|]. by apply json_value_complete.
Qed.

Lemma to_expected_value_complete e : expected_ok e = true ->
  to_expected_value (expected_json e) = Ok e.
Proof.
  destruct e; cbn; intros H; try done.
  - by rewrite raise_if_false by by apply negb_false_iff.
  - apply Z.leb_le in H. by rewrite raise_if_false by by apply Z.ltb_ge.
Qed.

(** An object with the fields of an assertion, in any order. *)
Lemma to_assertion_fields d a : assertion_ok a = true ->
  has_exactly ASSERTION_FIELDS d = true ->
  dict_get (u "target") d = Some (JStr (value (target a))) ->
  dict_get (u "selector") d = Some (opt_json JStr (selector a)) ->
  dict_get (u "operator") d = Some (JStr (value (operator a))) ->
  dict_get (u "expected_value") d = Some (expected_json (expected_value a)) ->
  to_assertion (JObj d) = Ok a.
Proof.
  unfold assertion_ok, to_assertion. intros H Hf H1 H2 H3 H4; bools.
  cbn [as_mapping]. rewrite bind_ok, exact_fields, bind_ok by done.
  rewrite (field_eq "target" _ _ H1), (field_eq "selector" _ _ H2),
    (field_eq "operator" _ _ H3), (field_eq "expected_value" _ _ H4), !bind_ok.
  rewrite as_enum_complete, !bind_ok.
  assert (optional_selector (opt_json JStr (selector a)) = Ok (selector a)) as ->.
  { destruct (selector a) as [s|]; [|done]. cbn [opt_json optional_selector].
    by rewrite text_complete. }
  rewrite !bind_ok, as_enum_complete, !bind_ok.
  rewrite to_expected_value_complete by done. rewrite !bind_ok.
  assert ({| target := target a; selector := selector a; operator := operator a;
             expected_value := expected_value a |} = a) as -> by by destruct a.
  by rewrite (proj2 (validate_assertion_contract_ok a)).
Qed.

Lemma to_assertion_complete a : assertion_ok a = true ->
  to_assertion (assertion_payload a) = Ok a.
Proof. intros. by apply to_assertion_fields. Qed.

Lemma request_template_fields d r qs hs b : request_ok r = true ->
  has_exactly REQUEST_FIELDS d = true ->
  dict_get (u "method") d = Some (JStr (value (method r))) ->
  dict_get (u "path") d = Some (JStr (path r)) ->
  dict_get (u "query") d = Some (JList qs) ->
  dict_get (u "headers") d = Some (JList hs) ->
  dict_get (u "json_body") d = Some b ->
  try_map query_parameter qs = Ok (query r) ->
  try_map request_header hs = Ok (headers r) ->
  to_json_body b = Ok (json_body r) ->
  request_template (JObj d) = Ok r.
Proof.
  unfold request_ok, request_template, query_parameters, request_headers.
  intros H Hf H1 H2 H3 H4 H5 Hq Hh Hb; bools.
  pose proof (try_map_zlen _ _ _ Hq) as Lq. pose proof (try_map_zlen _ _ _ Hh) as Lh.
  cbn [as_mapping]. rewrite bind_ok, exact_fields, bind_ok by done.
  rewrite (field_eq "method" _ _ H1), (field_eq "path" _ _ H2), (field_eq "query" _ _ H3),
    (field_eq "headers" _ _ H4), (field_eq "json_body" _ _ H5), !bind_ok.
  rewrite as_enum_complete, !bind_ok. rewrite request_path_complete by done.
  rewrite !bind_ok. cbn [as_list]. rewrite !bind_ok.
  rewrite (raise_if_false (_ <? zlen qs)) by (apply Z.ltb_ge; lia). rewrite !bind_ok, Hq, !bind_ok.
  rewrite (raise_if_false (negb (no_repeats (query_name <$> _))))
    by (by apply negb_false_iff, bool_decide_eq_true).
  rewrite !bind_ok. cbn [as_list]. rewrite !bind_ok.
  rewrite (raise_if_false (_ <? zlen hs)) by (apply Z.ltb_ge; lia). rewrite !bind_ok, Hh, !bind_ok.
  rewrite raise_if_false by (by apply negb_false_iff, bool_decide_eq_true).
  rewrite !bind_ok, Hb. by destruct r.
Qed.

Lemma request_template_complete r : request_ok r = true ->
  request_template (request_payload r) = Ok r.
Proof.
  intros Hr. pose proof Hr as H. unfold request_ok in H. bools.
  eapply request_template_fields; [done..| | |].
  - apply try_map_id. intros. eapply query_parameter_complete, forallb_elem; done.
  - apply try_map_id. intros. eapply request_header_complete, forallb_elem; done.
  - by apply to_json_body_complete.
Qed.

Lemma fmap_nonempty {A B} (f : A -> B) l : l <> [] -> bool_decide (f <$> l = []) = false.
Proof. intros H. apply bool_decide_eq_false. by destruct l. Qed.

Lemma to_citation_ids_complete l : l <> [] -> forallb uuid_ok l = true -> NoDup l ->
  to_citation_ids (JList ((fun c => JStr (uuid_str c)) <$> l)) = Ok l.
Proof.
  intros Hne Hok Hnd. unfold to_citation_ids. cbn [as_list mbind result_bind].
  rewrite (raise_if_false (bool_decide _)) by by apply fmap_nonempty. cbn [mbind result_bind].
  rewrite try_map_id by (intros; eapply as_uuid_complete, forallb_elem; done).
  cbn [mbind result_bind].
  by rewrite raise_if_false by (by apply negb_false_iff, bool_decide_eq_true).
Qed.

Lemma to_assertions_items items l : l <> [] -> zlen l <= MAX_ASSERTIONS ->
  all_distinct assertion_eq l = true -> try_map to_assertion items = Ok l ->
  to_assertions (JList items) = Ok l.
Proof.
  intros Hne Hlen Hd Hm. pose proof (try_map_zlen _ _ _ Hm) as Hz.
  unfold to_assertions. cbn [as_list]. rewrite bind_ok.
  rewrite (raise_if_false (bool_decide _)).
  2:{ apply bool_decide_eq_false. intros ->. simpl in Hm. by injection Hm as <-. }
  rewrite bind_ok, (raise_if_false (_ <? _)) by (apply Z.ltb_ge; lia).
  rewrite bind_ok, Hm, bind_ok. by rewrite raise_if_false by by apply negb_false_iff.
Qed.

(** An object with the fields of a test case, in any order. *)
Lemma validate_fields d t r items : wf_test_case t = true ->
  has_exactly CASE_FIELDS d = true ->
  dict_get (u "schema_version") d = Some (JStr GENERATED_TEST_CASE_SCHEMA_VERSION) ->
  dict_get (u "id") d = Some (JStr (uuid_str (id t))) ->
  dict_get (u "title") d = Some (JStr (title t)) ->
  dict_get (u "kind") d = Some (JStr (value (kind t))) ->
  dict_get (u "source_finding_id") d = Some (JStr (uuid_str (source_finding_id t))) ->
  dict_get (u "citation_ids") d =
    Some (JList ((fun c => JStr (uuid_str c)) <$> citation_ids t)) ->
  dict_get (u "request") d = Some r ->
  dict_get (u "assertions") d = Some (JList items) ->
  request_template r = Ok (request t) ->
  try_map to_assertion items = Ok (assertions t) ->
  validate_generated_test_case d = Ok t.
Proof.
  unfold wf_test_case, validate_generated_test_case.
  intros H Hf H1 H2 H3 H4 H5 H6 H7 H8 Hr Ha; bools.
  rewrite exact_fields, bind_ok by done.
  rewrite (field_eq "schema_version" _ _ H1), (field_eq "id" _ _ H2), (field_eq "title" _ _ H3),
    (field_eq "kind" _ _ H4), (field_eq "source_finding_id" _ _ H5),
    (field_eq "citation_ids" _ _ H6), (field_eq "request" _ _ H7),
    (field_eq "assertions" _ _ H8).
  rewrite bind_ok, str_eqb_refl, (raise_if_false (negb true)), !bind_ok by done.
  rewrite !as_uuid_complete by done. rewrite !bind_ok.
  rewrite text_complete by done. rewrite !bind_ok.
  rewrite as_enum_complete. rewrite !bind_ok.
  rewrite as_uuid_complete by done. rewrite !bind_ok.
  rewrite to_citation_ids_complete by done. rewrite !bind_ok, Hr, !bind_ok.
  rewrite (to_assertions_items _ (assertions t)) by done. by destruct t.
Qed.

(** A well-formed test case is accepted from its own rendering, unchanged. *)
Lemma validate_as_payload t : wf_test_case t = true ->
  validate_generated_test_case (as_payload t) = Ok t.
Proof.
  intros Ht. pose proof Ht as H. unfold wf_test_case in H. bools.
  eapply validate_fields; [done..| |].
  - by apply request_template_complete.
  - apply try_map_id. intros. eapply to_assertion_complete, forallb_elem; done.
Qed.
End completeness.
