(* ===== verification/TextFolding.v ===== *)
(** * Text folding

    What the code takes from the interpreter's Unicode database to compare
    texts: [str.casefold], [unicodedata.normalize] to NFKC and [str.upper], all of
    which leave ASCII text to ASCII rules. *)
From S2P Require Import Prelude PyText.

Class TextFolding := {
  (** [s.casefold()] *)
  casefold : pystr -> pystr;
  (** [unicodedata.normalize("NFKC", s)] *)
  nfkc : pystr -> pystr;
  (** [s.upper()] *)
  str_upper : pystr -> pystr;
}.

(** The capital of an ASCII letter. *)
Definition ascii_to_upper (c : N) : N := if ascii_lower_letter c then (c - 32)%N else c.

Class TextFoldingLaws (tf : TextFolding) := {
  casefold_ascii s : is_ascii s = true -> casefold s = ascii_to_lower <$> s;
  nfkc_ascii s : is_ascii s = true -> nfkc s = s;
  upper_ascii s : is_ascii s = true -> str_upper s = ascii_to_upper <$> s;
}.

(** A runtime that knows the ASCII letters only. *)
#[export] Instance ascii_folding : TextFolding := {|
  casefold := fmap ascii_to_lower;
  nfkc := fun s => s;
  str_upper := fmap ascii_to_upper;
|}.
#[export] Instance ascii_folding_laws : TextFoldingLaws ascii_folding.
Proof. by split. Qed.
