(* ===== verification/Ordering.v ===== *)
(** * Sorting by texts

    [sorted] with keys that are texts or tuples of texts, and why the result
    does not depend on the order of the items when the keys tell them apart. *)
From stdpp Require Import sorting.
From S2P Require Import Prelude PyText Json JsonFacts Digest AsciiRuntime.

(** Tuples of texts, compared as Python compares tuples. *)
Fixpoint texts_leb (a b : list pystr) : bool :=
  match a, b with
  | [], _ => true
  | _ :: _, [] => false
  | x :: a, y :: b => if str_eqb x y then texts_leb a b else str_leb x y
  end.
(** [sorted(items, key=key)] with such keys *)
Definition by_texts {A} (key : A -> list pystr) (x y : A) : Prop := texts_leb (key x) (key y) = true.
#[export] Instance by_texts_dec {A} (key : A -> list pystr) x y : Decision (by_texts key x y) := decide (_ = true).

(** [sorted(items, key=key)] with a key that is a text *)
Abbreviation by_text key := (by_texts (fun x => [key x])).

Lemma str_leb_le s t : str_leb s t = true <-> str_le s t.
Proof. done. Qed.

Lemma texts_leb_total a : forall b, texts_leb a b = true \/ texts_leb b a = true.
Proof.
  induction a as [|x a IH]; intros [|y b]; cbn; auto. rewrite (str_eqb_sym y x).
  destruct (str_eqb x y) eqn:E; [apply IH|]. destruct (total str_le x y); auto.
Qed.

Lemma texts_leb_trans a : forall b c, texts_leb a b = true -> texts_leb b c = true -> texts_leb a c = true.
Proof.
  induction a as [|x a IH]; intros [|y b] [|z c] H1 H2; cbn in *; try done.
  destruct (str_eqb x y) eqn:Exy.
  - apply str_eqb_eq in Exy as ->. destruct (str_eqb y z); [by eapply IH|done].
  - destruct (str_eqb y z) eqn:Eyz; [apply str_eqb_eq in Eyz as ->; by rewrite Exy|].
    destruct (str_eqb x z) eqn:Exz; [|by eapply str_le_trans].
    apply str_eqb_eq in Exz as ->. apply str_eqb_neq in Exy. destruct Exy. by apply (anti_symm str_le).
Qed.

Lemma texts_leb_antisym a : forall b, texts_leb a b = true -> texts_leb b a = true -> a = b.
Proof.
  induction a as [|x a IH]; intros [|y b] H1 H2; cbn in *; try done. rewrite (str_eqb_sym y x) in H2.
  destruct (str_eqb x y) eqn:E; [apply str_eqb_eq in E as ->; f_equal; by apply IH|].
  apply str_eqb_neq in E. destruct E. by apply (anti_symm str_le).
Qed.

#[export] Instance by_texts_total {A} (key : A -> list pystr) : Total (by_texts key).
Proof. intros x y. apply texts_leb_total. Qed.
#[export] Instance by_texts_trans {A} (key : A -> list pystr) : Transitive (by_texts key).
Proof. intros x y z. apply texts_leb_trans. Qed.

(** Sorting by keys that tell the items apart gives one result for all orders
    of the items. *)
Lemma stable_sort_keys_unique {A} (key : A -> list pystr) (l l' : list A) :
  (forall x y, x ∈ l -> y ∈ l -> key x = key y -> x = y) -> l ≡ₚ l' ->
  stable_sort (by_texts key) l = stable_sort (by_texts key) l'.
Proof.
  intros Hk Hp. apply (StronglySorted_unique_strong (by_texts key)).
  - intros x y. rewrite (stable_sort_Permutation _ l), (stable_sort_Permutation _ l'), <- Hp.
    intros Hx Hy Hxy Hyx. apply Hk; [done..|]. by apply texts_leb_antisym.
  - by apply (stable_sort_sorted (by_texts key)).
  - by apply (stable_sort_sorted (by_texts key)).
  - by rewrite !stable_sort_Permutation.
Qed.


(** Two identifiers with one text are equal. *)
Lemma uuid_str_inj a b : (a < 2 ^ 128)%N -> (b < 2 ^ 128)%N -> uuid_str a = uuid_str b -> a = b.
Proof. intros Ha Hb H. apply uuid_parse_str in Ha, Hb. rewrite H in Ha. congruence. Qed.

(** ** The order of the texts of identifiers is the order of the identifiers *)

Lemma str_leb_app a : forall b s t, length a = length b ->
  str_leb (a ++ s) (b ++ t) = if str_eqb a b then str_leb s t else str_leb a b.
Proof.
  induction a as [|x a IH]; intros [|y b] s t Hl; try done. cbn. rewrite IH by by injection Hl.
  destruct (N.ltb_spec x y) as [Hlt|Hge]; cbn.
  - unfold str_eqb. rewrite bool_decide_false; [done|]. intros [= -> _]. lia.
  - destruct (N.eqb_spec x y) as [->|Hne]; cbn.
    + assert (str_eqb (y :: a) (y :: b) = str_eqb a b) as -> by (unfold str_eqb; apply bool_decide_ext; naive_solver).
      done.
    + unfold str_eqb. rewrite bool_decide_false; [done|]. by intros [= -> _].
Qed.

Lemma hex_digit_leb a b : (a < 16)%N -> (b < 16)%N -> str_leb [hex_digit a] [hex_digit b] = (a <=? b)%N.
Proof.
  intros Ha Hb. cbn. unfold hex_digit. apply eq_bool_prop_intro. rewrite !Is_true_true.
  destruct (N.ltb_spec a 10), (N.ltb_spec b 10);
    rewrite orb_true_iff, andb_true_r, N.ltb_lt, N.eqb_eq, N.leb_le; lia.
Qed.

Lemma hex_digits_leb k : forall n m, (n < 16 ^ N.of_nat k)%N -> (m < 16 ^ N.of_nat k)%N ->
  str_leb (hex_digits k n) (hex_digits k m) = (n <=? m)%N.
Proof.
  induction k as [|k IH]; intros n m Hn Hm.
  - cbn in *. symmetry. apply N.leb_le. lia.
  - assert (forall x, x < 16 ^ N.of_nat (S k) -> x / 16 < 16 ^ N.of_nat k)%N as Hdiv.
    { intros x Hx. apply N.Div0.div_lt_upper_bound. by rewrite <- N.pow_succ_r', <- Nat2N.inj_succ. }
    apply Hdiv in Hn, Hm. cbn [hex_digits]. rewrite str_leb_app by by rewrite !hex_digits_length.
    pose proof (N.div_mod n 16 ltac:(done)) as En. pose proof (N.div_mod m 16 ltac:(done)) as Em.
    pose proof (N.mod_lt n 16 ltac:(done)) as Ln. pose proof (N.mod_lt m 16 ltac:(done)) as Lm.
    rewrite hex_digit_leb, IH by done. pose proof (IH _ _ Hn Hm) as H1. pose proof (IH _ _ Hm Hn) as H2.
    set (a := (n / 16)%N) in *. set (b := (m / 16)%N) in *.
    set (c := (n mod 16)%N) in *. set (d := (m mod 16)%N) in *. clearbody a b c d.
    apply eq_bool_prop_intro. rewrite !Is_true_true. destruct (str_eqb _ _) eqn:E.
    + apply str_eqb_eq in E. rewrite E in H1, H2. assert (str_leb (hex_digits k b) (hex_digits k b) = true) as Hr by apply str_le_refl.
      rewrite Hr in H1, H2. symmetry in H1, H2. apply N.leb_le in H1, H2. rewrite !N.leb_le. lia.
    + apply str_eqb_neq in E. assert (a <> b) by by intros ->. rewrite !N.leb_le. lia.
Qed.

(** A hyphen at the same place of both changes nothing. *)
Lemma str_leb_insert i c (f : pystr -> pystr) h h' : length h = length h' ->
  (str_leb (f (drop i h)) (f (drop i h')) = str_leb (drop i h) (drop i h')) ->
  str_leb (take i h ++ c :: f (drop i h)) (take i h' ++ c :: f (drop i h')) = str_leb h h'.
Proof.
  intros Hl Hf. rewrite <- (take_drop i h) at 3. rewrite <- (take_drop i h') at 3.
  assert (length (take i h) = length (take i h')) as Ht by by rewrite !length_take, Hl.
  rewrite !str_leb_app by done. cbn. by rewrite N.ltb_irrefl, N.eqb_refl, Hf.
Qed.

Lemma uuid_str_leb a b : (a < 2 ^ 128)%N -> (b < 2 ^ 128)%N -> str_leb (uuid_str a) (uuid_str b) = (a <=? b)%N.
Proof.
  intros Ha Hb. rewrite <- (hex_digits_leb 32 a b) by done. unfold uuid_str.
  pose proof (hex_digits_length 32 a) as La. pose proof (hex_digits_length 32 b) as Lb.
  set (h := hex_digits 32 a) in *. set (h' := hex_digits 32 b) in *. clearbody h h'.
  replace (drop 20 h) with (drop 4 (drop 4 (drop 4 (drop 8 h)))) by by rewrite !drop_drop.
  replace (drop 20 h') with (drop 4 (drop 4 (drop 4 (drop 8 h')))) by by rewrite !drop_drop.
  replace (drop 16 h) with (drop 4 (drop 4 (drop 8 h))) by by rewrite !drop_drop.
  replace (drop 16 h') with (drop 4 (drop 4 (drop 8 h'))) by by rewrite !drop_drop.
  replace (drop 12 h) with (drop 4 (drop 8 h)) by by rewrite !drop_drop.
  replace (drop 12 h') with (drop 4 (drop 8 h')) by by rewrite !drop_drop.
  pose (g0 := fun x : pystr => x). pose (g1 := fun x => take 4 x ++ 45%N :: g0 (drop 4 x)).
  pose (g2 := fun x => take 4 x ++ 45%N :: g1 (drop 4 x)). pose (g3 := fun x => take 4 x ++ 45%N :: g2 (drop 4 x)).
  change (str_leb (take 8 h ++ 45%N :: g3 (drop 8 h)) (take 8 h' ++ 45%N :: g3 (drop 8 h')) = str_leb h h').
  repeat (apply str_leb_insert; [rewrite ?length_drop; lia|]). done.
Qed.
