(* ===== verification/Url.v ===== *)
(** * URLs ([urllib.parse])

    [urlsplit], [urlunsplit], the [hostname], [port], [username] and
    [password] attributes and [urlencode], as the modelled modules use them.
    The compatibility normalisation [urlsplit] applies to a non-ASCII netloc,
    and [ipaddress.ip_address], are fields of [NetRuntime].

    ** Properties

    What [urlencode] makes of scalar text, and how [urlsplit] takes apart a
    URL that is an origin followed by a path and such a query. *)
From S2P Require Import Prelude PyText Json Digest JsonFacts.

(** What [ipaddress.ip_address(text)] tells about a valid address. *)
Record ip_info := { ip_is_v4 : bool; ip_is_global : bool; ip_compressed : pystr }.

Class NetRuntime := {
  (** [ipaddress.ip_address(text)]; [None] is its [ValueError] *)
  ip_address : pystr -> option ip_info;
  (** [urllib.parse._checknetloc] does not raise *)
  netloc_ok : pystr -> bool;
}.

Record SplitResult := {
  scheme : pystr; netloc : pystr; url_path : pystr; url_query : pystr; fragment : pystr;
}.

(** [s.rpartition(c)]: the text before the last [c], whether [c] occurs, and
    the text after it. *)
Definition rpartition (c : N) (s : pystr) : pystr * bool * pystr :=
  let '(b, found, a) := partition c (reverse s) in
  if found then (reverse a, true, reverse b) else ([], false, s).

Definition char_in (c : N) (s : pystr) : bool := bool_decide (c ∈ s).

Section url.
Context {rt : PyRuntime} {net : NetRuntime}.

Definition scheme_char (c : N) : bool :=
  ascii_letter c || ascii_digit c || bool_decide (c ∈ u "+-.").

(** The scheme, lower-cased, and the rest; no scheme when the text before the
    first colon is not one. *)
Definition split_scheme (url : pystr) : pystr * pystr :=
  match partition 58 url with
  | ((c :: _) as s, true, rest) =>
      if ascii_letter c && forallb scheme_char s then (str_lower s, rest) else ([], url)
  | _ => ([], url)
  end.

(** [_splitnetloc(url, 2)] without the leading slashes. *)
Definition split_netloc (s : pystr) : pystr * pystr :=
  span (fun c => negb ((c =? 47) || (c =? 63) || (c =? 35))%N) s.

(** [_check_bracketed_netloc] *)
Definition bracketed_ok (netloc : pystr) : bool :=
  let '(_, _, host_port) := rpartition 64 netloc in
  let '(before, open, bracketed) := partition 91 host_port in
  let '(hostname, _, port) := if open then partition 93 bracketed else partition 58 host_port in
  (negb open || (bool_decide (before = []) &&
                 (bool_decide (port = []) || starts_with [58%N] port))) &&
  match hostname with
  | 118%N :: rest =>
      match span (fun c => match hex_value c with Some _ => true | None => false end) rest with
      | (_ :: _, 46%N :: (x :: _)) => negb (x =? 10)%N
      | _ => false
      end
  | _ => match ip_address hostname with Some i => negb (ip_is_v4 i) | None => false end
  end.

(** [urlsplit(url)]; [None] is its [ValueError]. *)
Definition urlsplit (url : pystr) : option SplitResult :=
  let url := drop_while (fun c => (c <=? 32)%N) url in
  let url := filter (fun c => c ∉ [9; 13; 10]%N) url in
  let '(scheme, url) := split_scheme url in
  '(netloc, url) ←
    match url with
    | 47%N :: 47%N :: rest =>
        let '(netloc, rest) := split_netloc rest in
        let opens := char_in 91 netloc in let closes := char_in 93 netloc in
        if xorb opens closes then None
        else if opens && negb (bracketed_ok netloc) then None
        else Some (netloc, rest)
    | _ => Some ([], url)
    end;
  let '(url, _, fragment) := partition 35 url in
  let '(url, _, query) := partition 63 url in
  if is_ascii netloc || netloc_ok netloc then
    Some {| scheme := scheme; netloc := netloc; url_path := url; url_query := query;
            fragment := fragment |}
  else None.

Definition hostinfo (r : SplitResult) : pystr * option pystr :=
  let '(_, _, host_port) := rpartition 64 (netloc r) in
  let '(_, open, bracketed) := partition 91 host_port in
  let '(hostname, port) :=
    if open
    then let '(h, _, p) := partition 93 bracketed in
         let '(_, _, p) := partition 58 p in (h, p)
    else let '(h, _, p) := partition 58 host_port in (h, p) in
  (hostname, match port with [] => None | _ => Some port end).

(** [r.hostname] *)
Definition hostname (r : SplitResult) : option pystr :=
  match (hostinfo r).1 with
  | [] => None
  | h =>
      let '(name, percent, zone) := partition 37 h in
      Some (str_lower name ++ (if percent then [37%N] else []) ++ zone)
  end.

(** [r.port]: [None] is the [ValueError]. *)
Definition port (r : SplitResult) : option (option N) :=
  match (hostinfo r).2 with
  | None => Some None
  | Some p =>
      if ascii_digits p
      then let n := N_of_digits p in if (n <=? 65535)%N then Some (Some n) else None
      else None
  end.

(** [r.username] and [r.password] *)
Definition userinfo (r : SplitResult) : option pystr * option pystr :=
  let '(info, have_info, _) := rpartition 64 (netloc r) in
  if have_info
  then let '(name, have_password, password) := partition 58 info in
       (Some name, if have_password then Some password else None)
  else (None, None).
End url.

(** Schemes of [urllib.parse.uses_netloc] other than the empty one. *)
Definition uses_netloc : list pystr :=
  [u "ftp"; u "http"; u "gopher"; u "nntp"; u "telnet"; u "imap"; u "wais"; u "file";
   u "mms"; u "https"; u "shttp"; u "snews"; u "prospero"; u "rtsp"; u "rtsps"; u "rtspu";
   u "rsync"; u "svn"; u "svn+ssh"; u "sftp"; u "nfs"; u "git"; u "git+ssh"; u "ws";
   u "wss"; u "itms-services"].

(** [urlunsplit((scheme, netloc, path, query, fragment))] *)
Definition urlunsplit (r : SplitResult) : pystr :=
  let url := url_path r in
  let url :=
    match netloc r with
    | [] =>
        if starts_with (u "//") url then u "//" ++ url
        else if negb (bool_decide (scheme r = [])) && bool_decide (scheme r ∈ uses_netloc) &&
                (bool_decide (url = []) || starts_with (u "/") url)
        then u "//" ++ url else url
    | n =>
        u "//" ++ n ++
        match url with [] => [] | c :: _ => if (c =? 47)%N then url else 47%N :: url end
    end in
  let url := match scheme r with [] => url | s => s ++ [58%N] ++ url end in
  let url := match url_query r with [] => url | q => url ++ [63%N] ++ q end in
  match fragment r with [] => url | f => url ++ [35%N] ++ f end.

(** One byte of [quote_plus]: [urlencode]'s safe characters stand for themselves. *)
Definition quote_byte (b : N) : pystr :=
  if ascii_letter b || ascii_digit b || bool_decide (b ∈ u "_.-~") then [b]
  else if (b =? 32)%N then [43%N]
  else [37; (if b / 16 <? 10 then 48 + b / 16 else 55 + b / 16);
        (if b mod 16 <? 10 then 48 + b mod 16 else 55 + b mod 16)]%N.

(** [quote_plus(text)]; [None] is a [UnicodeEncodeError]. *)
Definition quote_plus (s : pystr) : option pystr :=
  bs ← utf8_encode s; Some (bs ≫= quote_byte).

(** [urlencode(pairs)] *)
Fixpoint encode_pairs (pairs : list (pystr * pystr)) : option (list pystr) :=
  match pairs with
  | [] => Some []
  | (k, v) :: pairs =>
      k ← quote_plus k; v ← quote_plus v; rest ← encode_pairs pairs;
      Some ((k ++ [61%N] ++ v) :: rest)
  end.
Definition urlencode (pairs : list (pystr * pystr)) : option pystr :=
  join [38%N] <$> encode_pairs pairs.

(** * Properties *)

Definition query_char (c : N) : bool :=
  ascii_letter c || ascii_digit c || bool_decide (c ∈ u "_.-~+%").
Definition query_text (s : pystr) : Prop := Forall (fun c => query_char c = true) s.

Lemma utf8_char_scalar c : scalar c = true ->
  exists bs, utf8_char c = Some bs /\ Forall (fun b => (b < 256)%N) bs.
Proof.
  unfold scalar, utf8_char. intros H. bools. rename H into Hlt. apply N.ltb_lt in Hlt.
  match goal with E : between 55296 57343 c = false |- _ => rewrite E end.
  assert (forall n, (128 + n mod 64 < 256)%N) as Hm.
  { intros n. pose proof (N.mod_lt n 64). lia. }
  assert (forall d k lo, (c < d * k)%N -> (lo + k <= 256)%N -> (lo + c / d < 256)%N) as Hd.
  { intros d k lo Hk Hlo. apply N.Div0.div_lt_upper_bound in Hk. apply N.lt_le_trans with (lo + k)%N; [|done]. by apply N.add_lt_mono_l. }
  destruct (N.ltb_spec c 128); [eexists; split; [done|]; repeat constructor; clear Hm Hd; lia|].
  destruct (N.ltb_spec c 2048).
  { eexists. split; [done|]. repeat constructor; [|apply Hm]. apply (Hd _ 32%N); clear Hm Hd; lia. }
  destruct (N.ltb_spec c 65536).
  { eexists. split; [done|]. repeat constructor; try apply Hm. apply (Hd _ 16%N); clear Hm Hd; lia. }
  eexists. split; [done|]. repeat constructor; try apply Hm. apply (Hd _ 5%N); clear Hm Hd; lia.
Qed.

Lemma utf8_encode_scalar s : scalar_text s = true ->
  exists bs, utf8_encode s = Some bs /\ Forall (fun b => (b < 256)%N) bs.
Proof.
  induction s as [|c s IH]; intros H; [by eexists|]. cbn in H. bools.
  destruct (utf8_char_scalar c) as (a & Ha & Fa); [done|]. destruct IH as (b & Hb & Fb); [done|].
  exists (a ++ b). cbn. rewrite Ha, Hb. split; [done|]. by apply Forall_app.
Qed.

Lemma hex_upper_char n : (n < 16)%N ->
  query_char (if (n <? 10)%N then 48 + n else 55 + n)%N = true.
Proof.
  intros H. destruct n as [|p]; [done|].
  do 4 (try (destruct p as [p|p|]; [| |by vm_compute])); exfalso; clear -H; lia.
Qed.

Lemma quote_byte_query b : (b < 256)%N -> query_text (quote_byte b) /\ quote_byte b <> [].
Proof.
  intros H. unfold quote_byte. destruct (_ || _ || _) eqn:E.
  - split; [|done]. constructor; [|done]. unfold query_char.
    apply orb_true_iff in E as [->|E]; [done|]. apply orb_true_iff. right. bools.
    apply bool_decide_eq_true_2. change (u "_.-~+%") with (u "_.-~" ++ u "+%"). apply elem_of_app. by left.
  - destruct (b =? 32)%N; split; try done; [by repeat constructor|].
    repeat constructor; apply hex_upper_char; [|by apply N.mod_lt].
    apply N.Div0.div_lt_upper_bound. lia.
Qed.

Lemma quote_plus_scalar s : scalar_text s = true -> exists q, quote_plus s = Some q /\ query_text q.
Proof.
  intros (bs & Hb & F)%utf8_encode_scalar. unfold quote_plus. rewrite Hb. cbn. eexists. split; [done|].
  clear Hb. induction F as [|b bs Hb _ IH]; [constructor|]. cbn. apply Forall_app. split; [|done].
  by apply quote_byte_query.
Qed.

(** The query text of scalar parameters: [k=v] items of quoted text. *)
Lemma urlencode_scalar pairs :
  Forall (fun p => scalar_text p.1 = true /\ scalar_text p.2 = true) pairs ->
  exists quoted, Forall2 (fun p q => quote_plus p.1 = Some q.1 /\ quote_plus p.2 = Some q.2) pairs quoted /\
    Forall (fun q => query_text q.1 /\ query_text q.2) quoted /\
    urlencode pairs = Some (join [38%N] ((fun q => q.1 ++ [61%N] ++ q.2) <$> quoted)).
Proof.
  unfold urlencode. induction 1 as [|[k v] pairs [Hk Hv] _ IH]; [by exists []|]. cbn in Hk, Hv.
  destruct IH as (quoted & H2 & HF & He). destruct (encode_pairs pairs) as [l|] eqn:El; [|done].
  apply quote_plus_scalar in Hk as (qk & Hk & Fk). apply quote_plus_scalar in Hv as (qv & Hv & Fv).
  exists ((qk, qv) :: quoted). split; [by constructor|]. split; [by constructor|].
  cbn [encode_pairs]. rewrite Hk, Hv, El. cbn. do 2 f_equal.
  assert (l = (fun q => q.1 ++ [61%N] ++ q.2) <$> quoted) as ->; [|done]. clear He.
  revert l El. induction H2 as [|[k' v'] [a b] pairs quoted [Ha Hb] _ IH]; intros l El; cbn [encode_pairs fst snd] in *.
  - by injection El as <-.
  - rewrite Ha, Hb in El. cbn [mbind option_bind] in El. apply Forall_cons in HF as [_ HF].
    destruct (encode_pairs pairs) as [l'|]; [|done]. injection El as <-. by rewrite (IH HF l').
Qed.

Lemma query_text_char c s : query_text s -> query_char c = false -> c ∉ s.
Proof. unfold query_text. intros H Hc Hin. rewrite Forall_forall in H. apply H in Hin. congruence. Qed.

(** ** Splitting a URL of a plain origin *)

Definition host_char (c : N) : bool :=
  ascii_letter c || ascii_digit c || bool_decide (c ∈ u "-.").
(** What [urlsplit] removes from anywhere in a URL. *)
Definition url_visible (s : pystr) : pystr := filter (fun c => c ∉ [9; 13; 10]%N) s.

Lemma visible_fix s : Forall (fun c => c ∉ [9; 13; 10]%N) s -> url_visible s = s.
Proof.
  induction 1 as [|c s Hc _ IH]; [done|]. unfold url_visible in *. by rewrite filter_cons_True, IH.
Qed.

Lemma visible_absent c s : c ∉ s -> c ∉ url_visible s.
Proof. intros H [_ Hin]%list_elem_of_filter. done. Qed.

Lemma slash_head s : starts_with (u "/") s = true -> exists s', s = 47%N :: s'.
Proof.
  destruct s as [|c s]; [done|]. intros H. exists s. f_equal.
  cbn in H. rewrite andb_true_r in H. by apply N.eqb_eq in H.
Qed.

Lemma visible_slash s : starts_with (u "/") s = true -> starts_with (u "/") (url_visible s) = true.
Proof.
  intros [s' ->]%slash_head. unfold url_visible. rewrite filter_cons_True; [done|].
  rewrite !not_elem_of_cons. split_and!; [done..|apply not_elem_of_nil].
Qed.

Lemma urlunsplit_origin host path query : host <> [] -> starts_with (u "/") path = true ->
  urlunsplit {| scheme := u "https"; netloc := host; url_path := path; url_query := query;
                fragment := [] |} =
  u "https://" ++ host ++ path ++ match query with [] => [] | _ => 63%N :: query end.
Proof.
  intros Hh [p ->]%slash_head. destruct host as [|h host]; [done|].
  unfold urlunsplit. cbn. destruct query; [by rewrite app_nil_r|].
  cbn. by rewrite <- !app_assoc.
Qed.

Lemma span_stop (p : N -> bool) l x r : forallb p l = true -> p x = false ->
  span p (l ++ x :: r) = (l, x :: r).
Proof.
  intros Hl Hx. induction l as [|y l IH]; cbn in *; [by rewrite Hx|]. bools.
  match goal with E : p y = true |- _ => rewrite E end. by rewrite IH.
Qed.

Lemma partition_absent c s : c ∉ s -> partition c s = (s, false, []).
Proof.
  induction s as [|x s IH]; intros H; [done|]. cbn. apply not_elem_of_cons in H as [Hne H].
  rewrite (proj2 (N.eqb_neq x c)) by congruence. by rewrite IH.
Qed.

Lemma partition_first c a b : c ∉ a -> partition c (a ++ c :: b) = (a, true, b).
Proof.
  induction a as [|x a IH]; intros H; cbn; [by rewrite N.eqb_refl|].
  apply not_elem_of_cons in H as [Hne H]. rewrite (proj2 (N.eqb_neq x c)) by congruence.
  by rewrite IH.
Qed.

Lemma contains_absent c s : contains [c] s = false -> c ∉ s.
Proof.
  induction s as [|x s IH]; intros H; [apply not_elem_of_nil|]. cbn in H.
  apply orb_false_iff in H as [Hx H]. rewrite andb_true_r in Hx. apply N.eqb_neq in Hx.
  apply not_elem_of_cons. split; [done | by apply IH].
Qed.

Section split.
Context {rt : PyRuntime} {laws : PyRuntimeLaws rt} {net : NetRuntime}.

Lemma host_char_plain c : host_char c = true ->
  (c < 128)%N /\ c ∉ [9; 13; 10; 47; 63; 35; 91; 93]%N.
Proof.
  unfold host_char, ascii_letter, ascii_upper_letter, ascii_lower_letter, ascii_digit, between.
  intros H. assert (c < 128 /\ (45 <= c <= 46 \/ 48 <= c <= 57 \/ 65 <= c <= 90 \/ 97 <= c <= 122))%N as [H1 H2].
  { repeat (apply orb_true_iff in H as [H|H]).
    1-3: apply andb_true_iff in H as [Ha%N.leb_le Hb%N.leb_le]; clear -Ha Hb; lia.
    apply bool_decide_eq_true in H. cbn in H. rewrite !elem_of_cons in H.
    destruct H as [->|[->|H]]; [| |by apply not_elem_of_nil in H]; clear; lia. }
  split; [done|]. rewrite !not_elem_of_cons. split_and!; try (clear -H2; lia). apply not_elem_of_nil.
Qed.

(** [https://host/path?query]: the path loses tabs and line breaks. *)
Lemma urlsplit_origin host path query :
  Forall (fun c => host_char c = true) host ->
  starts_with (u "/") path = true -> 63%N ∉ path -> 35%N ∉ path ->
  Forall (fun c => c ∉ [9; 13; 10; 35]%N) query ->
  urlsplit (u "https://" ++ host ++ path ++ match query with [] => [] | _ => 63%N :: query end) =
  Some {| scheme := u "https"; netloc := host; url_path := url_visible path;
          url_query := query; fragment := [] |}.
Proof.
  intros Hh [p ->]%slash_head Hq Hf Hqu. rename p into path.
  set (tail := match query with [] => [] | _ => 63%N :: query end).
  assert (url_visible host = host) as Vh.
  { apply visible_fix. eapply Forall_impl; [exact Hh|]. intros c [_ Hc]%host_char_plain.
    rewrite !not_elem_of_cons in *. naive_solver. }
  assert (url_visible tail = tail) as Vt.
  { apply visible_fix. assert (Forall (fun c => c ∉ [9; 13; 10]%N) query) as Hqv.
    { eapply Forall_impl; [exact Hqu|]. intros c Hc. rewrite !not_elem_of_cons in *. naive_solver. }
    unfold tail. destruct query; [done|]. constructor; [|done]. by vm_compute; set_solver. }
  assert (Hvis : url_visible (u "https://" ++ host ++ (47%N :: path) ++ tail) =
    u "https://" ++ host ++ (47%N :: url_visible path) ++ tail).
  { unfold url_visible in *. rewrite !filter_app, Vh, Vt. f_equal. }
  unfold urlsplit. change (drop_while _ (u "https://" ++ ?l)) with (u "https://" ++ l).
  change (filter _ (u "https://" ++ ?l)) with (url_visible (u "https://" ++ l)). rewrite Hvis.
  assert (split_scheme (u "https://" ++ host ++ (47%N :: url_visible path) ++ tail) =
    (u "https", u "//" ++ host ++ (47%N :: url_visible path) ++ tail)) as ->.
  { unfold split_scheme.
    change (u "https://" ++ ?l) with (u "https" ++ 58%N :: (u "//" ++ l)).
    rewrite partition_first by (by vm_compute; set_solver).
    change (ascii_letter 104 && forallb scheme_char (u "https")) with true. cbv iota.
    by rewrite lower_ascii. }
  change (u "//" ++ ?l) with (47%N :: 47%N :: l). cbv beta iota.
  assert (split_netloc (host ++ (47%N :: url_visible path) ++ tail) =
    (host, (47%N :: url_visible path) ++ tail)) as ->.
  { unfold split_netloc. apply span_stop; [|done]. apply forallb_Forall.
    eapply Forall_impl; [exact Hh|]. intros c [_ Hc]%host_char_plain.
    rewrite !not_elem_of_cons in Hc. destruct_and!.
    by rewrite !(proj2 (N.eqb_neq c _)) by done. }
  assert (forall x, x ∈ [91; 93]%N -> char_in x host = false) as Hbr.
  { intros x Hx. apply bool_decide_eq_false_2. intros Hin. rewrite Forall_forall in Hh.
    apply Hh, host_char_plain in Hin as [_ Hc]. apply Hc. set_solver. }
  rewrite !Hbr by set_solver. cbn [xorb andb]. cbn [mbind option_bind].
  assert (is_ascii host = true) as ->.
  { unfold is_ascii. apply forallb_Forall. eapply Forall_impl; [exact Hh|].
    intros c [Hc _]%host_char_plain. by apply N.ltb_lt. }
  assert (partition 35 ((47%N :: url_visible path) ++ tail) =
    ((47%N :: url_visible path) ++ tail, false, [])) as ->.
  { apply partition_absent. rewrite elem_of_app, elem_of_cons. intros [[?|Hin]|Hin]; [done| |].
    - apply visible_absent in Hin; [done|]. apply not_elem_of_cons in Hf. tauto.
    - unfold tail in Hin. destruct query as [|q0 query]; [by apply not_elem_of_nil in Hin|].
      apply elem_of_cons in Hin as [?|Hin]; [done|]. rewrite Forall_forall in Hqu.
      apply (Hqu 35%N); [done|set_solver]. }
  assert (63%N ∉ 47%N :: url_visible path) as Hq'.
  { apply not_elem_of_cons in Hq as [_ Hq]. apply not_elem_of_cons. split; [done|].
    by apply visible_absent. }
  assert (url_visible (47%N :: path) = 47%N :: url_visible path) as ->.
  { unfold url_visible. rewrite filter_cons_True; [done|].
    rewrite !not_elem_of_cons. split_and!; [done..|apply not_elem_of_nil]. }
  unfold tail. destruct query as [|q0 query].
  - rewrite app_nil_r, partition_absent by done. done.
  - rewrite partition_first by done. done.
Qed.
End split.

(** ** Items of a query *)

Lemma split_on_absent c s : c ∉ s -> split_on c s = [s].
Proof.
  induction s as [|x s IH]; intros H; [done|]. apply not_elem_of_cons in H as [Hne H]. cbn.
  rewrite (proj2 (N.eqb_neq x c)) by congruence. by rewrite IH.
Qed.

Lemma split_on_first c a s : c ∉ a -> split_on c (a ++ c :: s) = a :: split_on c s.
Proof.
  induction a as [|x a IH]; intros H; cbn; [by rewrite N.eqb_refl|].
  apply not_elem_of_cons in H as [Hne H]. rewrite (proj2 (N.eqb_neq x c)) by congruence.
  by rewrite IH.
Qed.

Lemma split_on_items c items : items <> [] -> Forall (fun s => c ∉ s) items ->
  split_on c (join [c] items) = items.
Proof.
  intros Hne H. induction H as [|s items Hs H IH]; [done|].
  destruct items as [|s' items]; [by apply split_on_absent|].
  change (join [c] (s :: s' :: items)) with (s ++ c :: join [c] (s' :: items)).
  rewrite split_on_first by done. by rewrite IH.
Qed.

Lemma join_absent c sep items : c ∉ sep -> Forall (fun s => c ∉ s) items -> c ∉ join sep items.
Proof.
  intros Hsep H. induction H as [|s items Hs H IH]; [apply not_elem_of_nil|].
  destruct items as [|s' items]; [done|].
  change (join sep (s :: s' :: items)) with (s ++ sep ++ join sep (s' :: items)).
  by rewrite !not_elem_of_app.
Qed.
