(* ===== verification/TargetRegistry.v ===== *)
(** * Target registry ([target_registry.py])

    The closed registry of server-side targets and the default-deny network
    validation of one target.  The resolver is the interface
    [AddressResolver]: any effectful computation from a host name to its
    addresses, so the two resolutions of [validate_registered_target] may
    disagree. *)
From S2P Require Import Prelude PyText Json Digest Url Effects.

Definition TARGET_REGISTRY_SCHEMA_VERSION : pystr := u "target-registry/v1".
Definition DEFAULT_HTTPS_PORT : N := 443.
Definition METADATA_HOSTS : list pystr :=
  [u "instance-data"; u "instance-data.ec2.internal"; u "metadata.azure.internal";
   u "metadata.google.internal"].

Inductive TargetId := SYNTHETIC_ORDER_API.
#[export] Instance target_id_eq_dec : EqDecision TargetId.
Proof. solve_decision. Defined.
Definition target_id_value (_ : TargetId) : pystr := u "synthetic-order-api".
#[export] Program Instance target_id_enum : StrEnum TargetId := {|
  members := [SYNTHETIC_ORDER_API]; value := target_id_value |}.
Next Obligation. by intros [] []. Qed.
Next Obligation. intros []; set_solver. Qed.

(** [AddressResolver.resolve], over the state [S] of the outside world. *)
Class AddressResolver (S : Type) := resolve : pystr -> io S (list pystr).

Record TargetConfiguration := {
  target_id : TargetId;
  base_url : pystr;
  redirects_allowed : bool;
  target_schema_version : pystr;
}.
#[export] Instance target_configuration_eq_dec : EqDecision TargetConfiguration.
Proof. solve_decision. Defined.

Record TargetRegistry := { targets : list TargetConfiguration }.

Record TargetOrigin := { origin_hostname : pystr; origin_port : N; origin_text : pystr }.

Record ValidatedTarget := {
  vt_id : TargetId;
  vt_origin : pystr;
  vt_hostname : pystr;
  vt_port : N;
  vt_resolved_addresses : list pystr;
  vt_redirects_allowed : bool;
}.

(** [raise TargetValidationError(boundary, msg)] *)
Abbreviation deny boundary msg := (raise (TargetValidationError boundary) msg).
Abbreviation deny_if c boundary msg := (raise_if c (TargetValidationError boundary) msg).

(** [s.rstrip(c)] *)
Definition rstrip_char (c : N) (s : pystr) : pystr :=
  reverse (drop_while (fun x => (x =? c)%N) (reverse s)).

Section registry.
Context {rt : PyRuntime} {net : NetRuntime}.

Definition parse_url (s : pystr) : result SplitResult :=
  deny_if (bool_decide (s = []) || negb (bool_decide (s = strip s)) || char_in 0 s)
    MALFORMED_URL "Target URL is malformed." ;;
  parsed ← or_raise (r ← urlsplit s; _ ← port r; Some r)
             (Exn (TargetValidationError MALFORMED_URL) "Target URL is malformed.");
  deny_if (bool_decide (scheme parsed = []) || bool_decide (netloc parsed = []) ||
           bool_decide (hostname parsed = None))
    MALFORMED_URL "Target URL must include a scheme and hostname." ;;
  Ok parsed.

Definition normalized_hostname (parsed : SplitResult) : result pystr :=
  h ← or_raise (hostname parsed)
        (Exn (TargetValidationError MALFORMED_URL) "Target URL must include a hostname.");
  Ok (rstrip_char 46 (str_lower h)).

Definition is_literal_ip (h : pystr) : bool :=
  match ip_address h with Some _ => true | None => false end.

Definition looks_like_alternate_ip_notation (h : pystr) : bool :=
  if starts_with (u "0x") (str_lower h) then true
  else if isdecimal h then true
  else
    let labels := split_on 46 h in
    (zlen labels =? 4) && forallb isdecimal labels &&
    existsb (fun label => (1 <? zlen label) && starts_with (u "0") label) labels.

Definition validate_hostname (h : pystr) : result unit :=
  deny_if (bool_decide (h ∈ METADATA_HOSTS)) METADATA_TARGET
    "Metadata targets are forbidden." ;;
  deny_if (is_literal_ip h) LITERAL_IP "Literal IP target hosts are forbidden." ;;
  deny_if (looks_like_alternate_ip_notation h) ALTERNATE_IP_NOTATION
    "Alternate IP notation is forbidden.".

Definition parse_target_origin (t : TargetConfiguration) : result TargetOrigin :=
  deny_if (negb (str_eqb (target_schema_version t) TARGET_REGISTRY_SCHEMA_VERSION))
    MALFORMED_URL "Target configuration has an unsupported schema version." ;;
  deny_if (redirects_allowed t) REDIRECTS_ENABLED "Target redirects must remain disabled." ;;
  parsed ← parse_url (base_url t);
  deny_if (negb (str_eqb (scheme parsed) (u "https"))) HTTPS_REQUIRED
    "Target URL must use HTTPS." ;;
  deny_if (negb (bool_decide (userinfo parsed = (None, None)))) USERINFO_FORBIDDEN
    "Target URL must not include user information." ;;
  deny_if (negb (bool_decide (url_query parsed = [])) ||
           negb (bool_decide (fragment parsed = []))) QUERY_OR_FRAGMENT_FORBIDDEN
    "Target URL must not include a query string or fragment." ;;
  deny_if (bool_decide (url_path parsed ∉ [[]; u "/"])) PATH_FORBIDDEN
    "Target URL must identify an origin, not a resource path." ;;
  hostname ← normalized_hostname parsed;
  validate_hostname hostname ;;
  p ← or_raise (port parsed)
        (Exn (TargetValidationError MALFORMED_URL) "Target URL has an invalid port.");
(* [parsed.port or DEFAULT_HTTPS_PORT] *)
  let p := match p with Some p => if (p =? 0)%N then DEFAULT_HTTPS_PORT else p
                      | None => DEFAULT_HTTPS_PORT end in
  deny_if (negb (p =? DEFAULT_HTTPS_PORT)%N) NONSTANDARD_PORT
    "Target URL must use the standard HTTPS port." ;;
  Ok {| origin_hostname := hostname; origin_port := p;
        origin_text := u "https://" ++ hostname |}.

(** [TargetRegistry.__post_init__] *)
Definition post_init (r : TargetRegistry) : result unit :=
  deny_if (bool_decide (targets r = [])) EMPTY_REGISTRY
    "Target registry must contain at least one target." ;;
  deny_if (negb (no_repeats (target_id <$> targets r))) DUPLICATE_TARGET_ID
    "Target registry contains duplicate target identifiers." ;;
  try_iter (fun t => parse_target_origin t ;; Ok tt) (targets r).

(** [TargetRegistry(targets)] *)
Definition make_registry (l : list TargetConfiguration) : result TargetRegistry :=
  let r := {| targets := l |} in post_init r ;; Ok r.

(** [TargetRegistry.get] *)
Definition registry_get (r : TargetRegistry) (id : pystr) : result TargetConfiguration :=
  expected ← or_raise (enum_of (T := TargetId) id)
               (Exn (TargetValidationError UNKNOWN_TARGET_ID)
                  "Target identifier is not registered.");
  or_raise (List.find (fun t => bool_decide (target_id t = expected)) (targets r))
    (Exn (TargetValidationError UNKNOWN_TARGET_ID) "Target identifier is not registered.").

Definition public_answer (v : pystr) : result pystr :=
  address ← or_raise (ip_address v)
              (Exn (TargetValidationError INVALID_RESOLVER_ANSWER)
                 "Resolver returned a non-IP address.");
  deny_if (negb (ip_is_global address)) RESTRICTED_RESOLVER_ANSWER
    "Resolver returned a private, loopback, metadata, or reserved address." ;;
  Ok (ip_compressed address).

Definition validated_public_answers (addresses : list pystr) : result (list pystr) :=
  deny_if (bool_decide (addresses = [])) EMPTY_RESOLVER_ANSWER
    "Resolver returned no addresses for the target." ;;
  normalized_addresses ← try_map public_answer addresses;
  Ok (merge_sort str_le (remove_dups normalized_addresses)).

Definition validate_registered_target {S} `{AddressResolver S}
    (registry : TargetRegistry) (id : pystr) : io S ValidatedTarget :=
  target ← lift (registry_get registry id);
  origin ← lift (parse_target_origin target);
  first_answers ← resolve (origin_hostname origin);
  first_answers ← lift (validated_public_answers first_answers);
  second_answers ← resolve (origin_hostname origin);
  second_answers ← lift (validated_public_answers second_answers);
  lift (deny_if (negb (bool_decide (first_answers = second_answers))) DNS_REBINDING
          "Target DNS answers changed during validation.") ;;
  mret {| vt_id := target_id target; vt_origin := origin_text origin;
          vt_hostname := origin_hostname origin; vt_port := origin_port origin;
          vt_resolved_addresses := first_answers; vt_redirects_allowed := false |}.
End registry.

(** [DEFAULT_TARGET_REGISTRY] *)
Definition DEFAULT_TARGET_REGISTRY : TargetRegistry := {|
  targets := [{| target_id := SYNTHETIC_ORDER_API;
                 base_url := u "https://ai-qa-sandbox.onrender.com";
                 redirects_allowed := false;
                 target_schema_version := TARGET_REGISTRY_SCHEMA_VERSION |}] |}.

(** ** Correctness *)

(** The compressed form of [v] when [v] is a globally routable address. *)
Definition public_form {net : NetRuntime} (v : pystr) : option pystr :=
  i ← ip_address v; if ip_is_global i then Some (ip_compressed i) else None.

(** [b] is the compressed form of some public answer of [answers]. *)
Definition published {net : NetRuntime} (answers : list pystr) (b : pystr) : Prop :=
  exists v, v ∈ answers /\ public_form v = Some b.

(** Every answer is public, and there is one. *)
Definition all_public {net : NetRuntime} (answers : list pystr) : Prop :=
  answers <> [] /\ forall v, v ∈ answers -> is_Some (public_form v).

(** A host name that [validate_hostname] lets through: no metadata service,
    no literal address, and none of three spellings of an address: a
    hexadecimal one, one whole number, and four numbers one of which starts
    with a zero.  Other spellings that a resolver may take for an address,
    such as a number of two labels, pass (see [TargetRegistrySpec]). *)
Record named_host {rt : PyRuntime} {net : NetRuntime} (h : pystr) : Prop := {
  nh_service : h ∉ METADATA_HOSTS;
  nh_literal : ip_address h = None;
  nh_hexadecimal : forall digits, str_lower h <> u "0x" ++ digits;
  nh_number : isdecimal h = false;
  nh_octal : forall labels, split_on 46 h = labels -> length labels = 4%nat ->
    (forall label, label ∈ labels -> isdecimal label = true) ->
    forall digit digits, u "0" ++ digit :: digits ∉ labels;
}.

Section facts.
Context {rt : PyRuntime} {net : NetRuntime}.

Lemma public_answer_Ok v a : public_answer v = Ok a <-> public_form v = Some a.
Proof.
  unfold public_answer, public_form. destruct (ip_address v) as [i|]; [|by split].
  cbn. destruct (ip_is_global i); cbn; split; congruence.
Qed.

Lemma alternate_notations h : looks_like_alternate_ip_notation h = false ->
  (forall digits, str_lower h <> u "0x" ++ digits) /\ isdecimal h = false /\
  forall labels, split_on 46 h = labels -> length labels = 4%nat ->
    (forall label, label ∈ labels -> isdecimal label = true) ->
    forall digit digits, u "0" ++ digit :: digits ∉ labels.
Proof.
  unfold looks_like_alternate_ip_notation. destruct (starts_with (u "0x") (str_lower h)) eqn:Hx; [done|].
  destruct (isdecimal h) eqn:Hd; [done|]. intros H. split; [|split; [done|]].
  - intros digits E. rewrite E in Hx. discriminate Hx.
  - intros labels E Hlen Hall digit digits Hin. cbv zeta in H. rewrite E in H.
    assert ((zlen labels =? 4) = true) as Hz by (unfold zlen; by rewrite Hlen).
    assert (forallb isdecimal labels = true) as Hf by (apply forallb_forall; intros x Hx'; by apply Hall, list_elem_of_In).
    rewrite Hz, Hf in H. cbn [andb] in H.
    assert (existsb (fun label : pystr => (1 <? zlen label) && starts_with (u "0") label) labels = true) as He; [|congruence].
    apply existsb_exists. exists (u "0" ++ digit :: digits). split; [by apply list_elem_of_In|].
    apply andb_true_iff. split; [apply Z.ltb_lt; unfold zlen; cbn; lia|done].
Qed.

Lemma validate_hostname_Ok h x : validate_hostname h = Ok x -> named_host h.
Proof.
  unfold validate_hostname, is_literal_ip. intros H. ok_inv. bools.
  match goal with E : looks_like_alternate_ip_notation h = false |- _ =>
    destruct (alternate_notations h E) as (? & ? & ?) end.
  split; try done. by destruct (ip_address h).
Qed.

(** A canonical answer list: the public answers, each once, in order. *)
Lemma validated_public_answers_Ok answers out :
  validated_public_answers answers = Ok out ->
  all_public answers /\ Sorted str_le out /\ NoDup out /\
  forall b, b ∈ out <-> published answers b.
Proof.
  unfold validated_public_answers. intros H. ok_inv. bools.
  match goal with E : try_map _ _ = Ok ?l |- _ =>
    apply try_map_Ok in E; rename l into forms; rename E into Hf end.
  split; [split; [done|]|split; [|split]].
  - intros v (i & Hi)%list_elem_of_lookup_1.
    destruct (Forall2_lookup_l _ _ _ _ _ Hf Hi) as (a & _ & Ha).
    apply public_answer_Ok in Ha. eauto.
  - apply (Sorted_merge_sort _).
  - rewrite (merge_sort_Permutation _ _). apply NoDup_remove_dups.
  - intros b. rewrite (merge_sort_Permutation _ _), elem_of_remove_dups. split.
    + intros (i & Hi)%list_elem_of_lookup_1.
      destruct (Forall2_lookup_r _ _ _ _ _ Hf Hi) as (v & Hv & Ha).
      exists v. split; [by eapply list_elem_of_lookup_2 | by apply public_answer_Ok].
    + intros (v & (i & Hi)%list_elem_of_lookup_1 & Hv).
      destruct (Forall2_lookup_l _ _ _ _ _ Hf Hi) as (a & Ha & Hva).
      apply public_answer_Ok in Hva. simplify_eq. by eapply list_elem_of_lookup_2.
Qed.

Lemma validated_public_answers_total answers :
  all_public answers -> exists out, validated_public_answers answers = Ok out.
Proof.
  intros [Hne Hall]. unfold validated_public_answers.
  rewrite bool_decide_eq_false_2 by done. cbn [raise_if].
  assert (exists forms, try_map public_answer answers = Ok forms) as [forms ->]; [|by eexists].
  clear Hne. induction answers as [|v answers IH]; [by eexists|]. simpl.
  destruct (Hall v ltac:(left)) as [a Ha%public_answer_Ok]. rewrite Ha.
  destruct IH as [forms ->]; [set_solver|]. by eexists.
Qed.

(** Canonical lists of the same addresses are the same list. *)
Lemma canonical_answers_eq l1 l2 :
  Sorted str_le l1 -> NoDup l1 -> Sorted str_le l2 -> NoDup l2 ->
  (forall b, b ∈ l1 <-> b ∈ l2) -> l1 = l2.
Proof.
  intros S1 N1 S2 N2 H. apply (Sorted_unique str_le); [done..|].
  by apply NoDup_Permutation.
Qed.

Lemma parse_target_origin_Ok t o :
  parse_target_origin t = Ok o ->
  redirects_allowed t = false /\ origin_port o = 443%N /\
  origin_text o = u "https://" ++ origin_hostname o /\ named_host (origin_hostname o).
Proof.
  unfold parse_target_origin. intros H. ok_inv. bools. cbn.
  repeat split; try done; eapply validate_hostname_Ok; eassumption.
Qed.

Lemma registry_get_Ok r id t :
  registry_get r id = Ok t -> t ∈ targets r /\ value (target_id t) = id.
Proof.
  unfold registry_get. intros H. ok_inv.
  match goal with E : List.find _ _ = Some _ |- _ => apply List.find_some in E as [Hin E] end.
  bools. split; [by apply list_elem_of_In | subst].
  by apply enum_of_Some.
Qed.

Lemma registry_get_none r id :
  (forall t, t ∈ targets r -> value (target_id t) <> id) ->
  exists msg, registry_get r id = raise (TargetValidationError UNKNOWN_TARGET_ID) msg.
Proof.
  intros H. unfold registry_get. destruct (enum_of id) as [e|] eqn:E; cbn; [|by eexists].
  apply enum_of_Some in E. destruct (List.find _ _) eqn:F; cbn; [|by eexists].
  apply List.find_some in F as [Hin F]. bools. subst.
  edestruct H; [by apply list_elem_of_In | done].
Qed.
End facts.

(** The contract of target validation: which targets it lets through. *)
Record eligible {rt : PyRuntime} {net : NetRuntime} (registry : TargetRegistry) (id : pystr)
    (first second : list pystr) (t : ValidatedTarget) : Prop := {
  el_registered : exists c, c ∈ targets registry /\ target_id c = vt_id t /\
                            redirects_allowed c = false;
  el_requested : value (vt_id t) = id;
  el_origin : vt_origin t = u "https://" ++ vt_hostname t;
  el_port : vt_port t = 443%N;
  el_redirects : vt_redirects_allowed t = false;
  el_host : named_host (vt_hostname t);
  el_public : all_public first /\ all_public second;
  el_sorted : Sorted str_le (vt_resolved_addresses t) /\ NoDup (vt_resolved_addresses t);
  el_nonempty : vt_resolved_addresses t <> [];
  (** no rebinding: both resolutions published exactly these addresses *)
  el_addresses : forall b, (b ∈ vt_resolved_addresses t <-> published first b) /\
                           (b ∈ vt_resolved_addresses t <-> published second b);
}.

Section validation.
Context {rt : PyRuntime} {net : NetRuntime} {S : Type} `{AddressResolver S}.

Lemma validate_registered_target_eligible registry id s t s2 :
  validate_registered_target registry id s = (Ok t, s2) ->
  exists first second s1,
    resolve (vt_hostname t) s = (Ok first, s1) /\
    resolve (vt_hostname t) s1 = (Ok second, s2) /\
    eligible registry id first second t.
Proof.
  unfold validate_registered_target. intros Hv. io_inv.
  match goal with E : raise_if _ _ _ = Ok _ |- _ => apply raise_if_Ok in E end. bools.
  match goal with
  | E1 : resolve _ s = (Ok ?a1, ?s1), E2 : resolve _ ?s1 = (Ok ?a2, _),
    V1 : validated_public_answers ?a1 = Ok ?o1, V2 : validated_public_answers ?a2 = Ok ?o2 |- _ =>
      exists a1, a2, s1; cbn [vt_hostname]; split; [exact E1|split; [exact E2|]];
      apply validated_public_answers_Ok in V1 as ([Ne1 P1] & S1 & N1 & M1);
      apply validated_public_answers_Ok in V2 as (P2 & S2 & N2 & M2)
  end.
  match goal with E : registry_get _ _ = Ok _ |- _ => apply registry_get_Ok in E as [Hin Hval] end.
  match goal with E : parse_target_origin _ = Ok _ |- _ =>
    apply parse_target_origin_Ok in E as (Hr & Hp & Ho & Hh) end.
  subst. split; cbn; eauto.
  - split; [by split | exact P2].
  - match goal with _ : resolve _ s = (Ok ?a, _) |- _ => destruct a as [|v rest]; [done|] end.
    destruct (P1 v (list_elem_of_here v rest)) as [b Hb]. intros Hnil.
    apply (not_elem_of_nil b). rewrite <- Hnil. apply M1. exists v. split; [left | done].
Qed.

(** Every way the two resolutions can end, for a registered target. *)
Lemma validate_registered_target_resolves registry id t o s first s1 second s2 :
  registry_get registry id = Ok t -> parse_target_origin t = Ok o ->
  resolve (origin_hostname o) s = (Ok first, s1) ->
  resolve (origin_hostname o) s1 = (Ok second, s2) ->
  all_public first -> all_public second ->
  (forall b, published first b <-> published second b) ->
  exists v, validate_registered_target registry id s = (Ok v, s2).
Proof.
  intros Hg Hp R1 R2 P1 P2 Hsame. unfold validate_registered_target.
  destruct (validated_public_answers_total first P1) as [o1 V1].
  destruct (validated_public_answers_total second P2) as [o2 V2].
  assert (o1 = o2) as <-.
  { apply validated_public_answers_Ok in V1 as (_ & ? & ? & M1).
    apply validated_public_answers_Ok in V2 as (_ & ? & ? & M2).
    apply canonical_answers_eq; [done..|]. intros b. by rewrite M1, M2. }
  io_run. rewrite bool_decide_eq_true_2 by done. by eexists.
Qed.
End validation.
