(* ===== verification/Samples.v ===== *)
(** * Concrete inputs

    A test case, a target and an address table on which the properties'
    hypotheses hold; [ascii_runtime] is the interpreter. *)
From S2P Require Import Prelude PyText Json Digest GeneratedTests AsciiRuntime Url.
From S2P Require Import TargetRegistry.

#[export] Existing Instance ascii_runtime.

(** A table of three addresses: two public ones and a private one. *)
#[export] Instance sample_net : NetRuntime := {|
  ip_address s :=
    if str_eqb s (u "8.8.8.8") || str_eqb s (u "8.8.4.4")
    then Some {| ip_is_v4 := true; ip_is_global := true; ip_compressed := s |}
    else if str_eqb s (u "10.0.0.1")
    then Some {| ip_is_v4 := true; ip_is_global := false; ip_compressed := s |}
    else None;
  netloc_ok _ := false |}.

Definition sample_target : TargetConfiguration := {|
  target_id := SYNTHETIC_ORDER_API;
  base_url := u "https://ai-qa-sandbox.onrender.com";
  redirects_allowed := false;
  target_schema_version := TARGET_REGISTRY_SCHEMA_VERSION |}.

Definition sample_request : RequestTemplateV1 := {|
  method := POST; path := u "/orders";
  query := [{| query_name := u "access_token"; query_value := u "q" |};
            {| query_name := u "page"; query_value := u "2" |}];
  headers := [{| header_name := u "X-Trace"; header_value := u "t" |}];
  json_body := Some [(u "quantity", JInt 2); (u "item", JStr (u "pen"))] |}.

Definition sample_case : GeneratedTestCaseV1 := {|
  id := 7; title := u "Create"; kind := POSITIVE; source_finding_id := 8;
  citation_ids := [9%N]; request := sample_request;
  assertions :=
    [{| target := STATUS_CODE; selector := None; operator := EQUALS;
        expected_value := EInt 201 |};
     {| target := JSON_BODY; selector := Some (u "/id"); operator := EXISTS;
        expected_value := ENone |}] |}.
