(* ===== verification/GeneratedTestsSpec.v ===== *)
(** * Test cases under canonical JSON

    A plan keeps its test case as canonical JSON text.  Reading it back gives
    the same test case with the keys of its JSON body in order
    ([sorted_case]); canonical text is ASCII, so encoding it never fails.

    ** The contract

    The contract of [generated_tests.py]: what is accepted, what comes back,
    and which exception refuses the rest. *)
From Stdlib Require Import SpecFloat.
From S2P Require Import Prelude PyText Json JsonFacts Digest GeneratedTests GeneratedTestsFacts AsciiRuntime.
From S2P Require Import Url TargetRegistry Samples.

(** ** Canonical text is ASCII *)

Lemma is_ascii_app s t : is_ascii (s ++ t) = is_ascii s && is_ascii t.
Proof. apply forallb_app. Qed.

Lemma is_ascii_cons c s : is_ascii (c :: s) = (c <? 128)%N && is_ascii s.
Proof. done. Qed.

Lemma is_ascii_Forall s : is_ascii s = true <-> Forall (fun c => (c < 128)%N) s.
Proof.
  unfold is_ascii. rewrite forallb_Forall.
  split; intros H; (eapply Forall_impl; [exact H|]); intros c; apply N.ltb_lt.
Qed.

Lemma hex_digit_ascii n : (n < 16)%N -> (hex_digit n <? 128)%N = true.
Proof. intros H. apply N.ltb_lt. unfold hex_digit. destruct (N.ltb_spec n 10); lia. Qed.

Lemma hex4_ascii c : is_ascii (hex4 c) = true.
Proof. unfold hex4. rewrite !is_ascii_cons, !hex_digit_ascii by (apply N.mod_lt; done). done. Qed.

Lemma escape_char_ascii c : is_ascii (escape_char c) = true.
Proof.
  unfold escape_char.
  repeat match goal with |- context [if (c =? ?k)%N then _ else _] =>
    destruct (c =? k)%N; [done|] end.
  destruct (between 32 126 c) eqn:Hb.
  - unfold between in Hb. apply andb_true_iff in Hb. rewrite !N.leb_le in Hb.
    rewrite is_ascii_cons, (proj2 (N.ltb_lt c 128)) by lia. done.
  - destruct (c <? 65536)%N; rewrite !is_ascii_app, !hex4_ascii; done.
Qed.

Lemma print_str_ascii s : is_ascii (print_str s) = true.
Proof.
  assert (is_ascii (s ≫= escape_char) = true) as H.
  { induction s as [|c s IH]; [done|]. cbn [mbind list_bind].
    by rewrite is_ascii_app, escape_char_ascii. }
  unfold print_str. by rewrite !is_ascii_app, H.
Qed.

Lemma ascii_digits_Forall ds : forallb ascii_digit ds = true -> is_ascii ds = true.
Proof.
  unfold is_ascii. rewrite !forallb_forall. intros H c Hc.
  apply H, digit_char in Hc. apply N.ltb_lt. lia.
Qed.

Lemma int_digits_ascii s : int_digits s = true -> is_ascii s = true.
Proof.
  destruct s as [|c s]; [done|]. unfold int_digits. destruct (N.eqb_spec c 48) as [->|Hc].
  - intros ->%bool_decide_eq_true. done.
  - intros H. apply ascii_digits_Forall. destruct c as [|p]; [done|].
    by repeat (destruct p as [p|p|]; try done).
Qed.

Lemma ascii_digits_ascii s : ascii_digits s = true -> is_ascii s = true.
Proof. destruct s; [done|]. apply ascii_digits_Forall. Qed.

Lemma frac_ok_ascii s : frac_ok s = true -> is_ascii s = true.
Proof.
  destruct s as [|c s]; [done|]. unfold frac_ok. destruct c as [|p]; [done|].
  repeat (destruct p as [p|p|]; try done). rewrite is_ascii_cons. apply ascii_digits_ascii.
Qed.

Lemma exp_ok_ascii s : exp_ok s = true -> is_ascii s = true.
Proof.
  destruct s as [|c s]; [done|]. cbn [exp_ok]. intros [Hc H]%andb_true_iff.
  rewrite is_ascii_cons. apply andb_true_iff; split.
  { apply N.ltb_lt. apply orb_true_iff in Hc. rewrite !N.eqb_eq in Hc. lia. }
  destruct s as [|x ds]; [done|]. destruct ((x =? 43) || (x =? 45))%N eqn:E.
  - apply orb_true_iff in E. rewrite !N.eqb_eq in E.
    rewrite is_ascii_cons, (proj2 (N.ltb_lt x 128)) by lia. by apply ascii_digits_ascii.
  - by apply ascii_digits_ascii.
Qed.

Lemma digits_is_ascii n : is_ascii (digits n) = true.
Proof. apply int_digits_ascii, int_digits_digits. Qed.

Lemma join_ascii sep l : is_ascii sep = true -> Forall (fun s => is_ascii s = true) l ->
  is_ascii (join sep l) = true.
Proof.
  intros Hsep. induction 1 as [|s l Hs Hl IH]; [done|].
  destruct l; [done|]. cbn [join] in *. by rewrite !is_ascii_app, Hs, Hsep.
Qed.

Lemma utf8_encode_ascii s : is_ascii s = true -> utf8_encode s = Some s.
Proof.
  induction s as [|c s IH]; [done|]. rewrite is_ascii_cons. intros [Hc Hs]%andb_true_iff.
  cbn [utf8_encode]. unfold utf8_char. rewrite Hc. cbn. by rewrite IH.
Qed.

Section ascii_text.
Context {rt : PyRuntime} {laws : PyRuntimeLaws rt}.

Lemma print_float_ascii x : float_ok x = true -> is_ascii (print_float x) = true.
Proof.
  intros Hx. assert (float_finite x = true -> is_ascii (float_repr x) = true) as Hf.
  { intros (neg & int & frac & exp & -> & Hi & Hfr & He & _)%float_repr_literal.
    unfold number_text. rewrite !is_ascii_app.
    rewrite (int_digits_ascii int), (frac_ok_ascii frac), (exp_ok_ascii exp) by done.
    by destruct neg. }
  destruct x as [s|[]| |s m e]; try done; cbn [print_float]; by apply Hf.
Qed.

Lemma print_ascii v : json_wf v = true -> is_ascii (print v) = true.
Proof.
  induction v as [|b|z|x|s|l IH|kvs IH] using json_rect_strong; intros Hwf.
  - done.
  - by destruct b.
  - cbn. unfold str_of_Z. rewrite is_ascii_app, digits_is_ascii. by destruct (z <? 0).
  - by apply print_float_ascii.
  - apply print_str_ascii.
  - cbn [print]. rewrite !is_ascii_app, join_ascii; [done..|].
    apply Forall_forall. intros t Ht. apply list_elem_of_In, in_map_iff in Ht as (v & <- & Hv).
    rewrite Forall_forall in IH. cbn [json_wf] in Hwf. rewrite forallb_forall in Hwf.
    apply IH; [by apply list_elem_of_In | by apply Hwf].
  - cbn [print]. rewrite !is_ascii_app, join_ascii; [done..|].
    apply Forall_forall. intros t Ht. apply list_elem_of_In, in_map_iff in Ht as (kv & <- & Hv).
    rewrite Forall_forall in IH. cbn [json_wf] in Hwf.
    apply andb_true_iff in Hwf as [_ Hwf]. rewrite forallb_forall in Hwf.
    pose proof (Hwf _ Hv) as [_ Hkv]%andb_true_iff.
    rewrite !is_ascii_app, print_str_ascii, IH; [done | by apply list_elem_of_In | done].
Qed.

Lemma canonical_ascii v : json_wf v = true -> is_ascii (dumps_canonical v) = true.
Proof. intros. by apply print_ascii, json_wf_sort_keys. Qed.
End ascii_text.

(** ** Key order *)

(** [kvs] with the keys of every object in order. *)
Definition sort_obj (kvs : list (pystr * json)) : list (pystr * json) :=
  sort_dict (map (fun kv => (kv.1, sort_keys kv.2)) kvs).

Definition sorted_request (r : RequestTemplateV1) : RequestTemplateV1 := {|
  method := method r; path := path r; query := query r; headers := headers r;
  json_body := sort_obj <$> json_body r |}.

(** The same test case, its JSON body in key order. *)
Definition sorted_case (t : GeneratedTestCaseV1) : GeneratedTestCaseV1 := {|
  id := id t; title := title t; kind := kind t; source_finding_id := source_finding_id t;
  citation_ids := citation_ids t; request := sorted_request (request t);
  assertions := assertions t |}.

Lemma sort_obj_Permutation kvs : sort_obj kvs ≡ₚ map (fun kv => (kv.1, sort_keys kv.2)) kvs.
Proof. apply sort_dict_Permutation. Qed.

Lemma NoDup_keys_sort_obj kvs : NoDup (keys (sort_obj kvs)) <-> NoDup (keys kvs).
Proof. unfold sort_obj. by rewrite NoDup_keys_sort, keys_map_snd. Qed.

Lemma no_repeats_sort_obj kvs : no_repeats (keys (sort_obj kvs)) = no_repeats (keys kvs).
Proof. apply bool_decide_ext, NoDup_keys_sort_obj. Qed.

Lemma zlen_sort_obj kvs : zlen (sort_obj kvs) = zlen kvs.
Proof. unfold zlen. by rewrite sort_obj_Permutation, length_map. Qed.

Section sorted.
Context {rt : PyRuntime}.

Lemma pairs_sorted_ok (p : json -> bool) kvs :
  Forall (fun kv => p kv.2 = true -> p (sort_keys kv.2) = true) kvs ->
  forallb (fun kv => text_ok kv.1 && p kv.2) kvs = true ->
  forallb (fun kv => text_ok kv.1 && p kv.2) (sort_obj kvs) = true.
Proof.
  intros Hp H. rewrite (forallb_Permutation _ _ _ (sort_obj_Permutation _)).
  eapply forallb_map_impl; [|exact H]. eapply Forall_impl; [exact Hp|].
  intros [k v] Hv. simpl in *. rewrite !andb_true_iff. intros [? ?]; auto.
Qed.

Lemma json_value_ok_sorted v : forall d, json_value_ok d v = true ->
  json_value_ok d (sort_keys v) = true.
Proof.
  induction v as [|b|z|x|s|l IH|kvs IH] using json_rect_strong; intros d H; try done;
    cbn [json_value_ok] in H; apply andb_true_iff in H as [Hd H].
  - cbn [sort_keys json_value_ok]. rewrite Hd. apply andb_true_iff in H as [Hl H].
    unfold zlen in *. rewrite length_map, Hl. simpl.
    eapply forallb_map_impl; [|exact H]. eapply Forall_impl; [exact IH | auto].
  - apply andb_true_iff in H as [[Hl Hn]%andb_true_iff H].
    change (json_value_ok d (JObj (sort_obj kvs)) = true). cbn [json_value_ok].
    rewrite Hd, zlen_sort_obj, Hl, no_repeats_sort_obj, Hn.
    apply pairs_sorted_ok; [|done]. eapply Forall_impl; [exact IH | auto].
Qed.

Lemma body_ok_sorted b : body_ok b = true -> body_ok (sort_obj <$> b) = true.
Proof.
  destruct b as [kvs|]; [|done]. cbn. intros [[Hl Hn]%andb_true_iff H]%andb_true_iff.
  rewrite zlen_sort_obj, Hl, no_repeats_sort_obj, Hn.
  apply pairs_sorted_ok; [|done]. apply Forall_forall. intros kv _. apply json_value_ok_sorted.
Qed.

Lemma request_ok_sorted r : request_ok r = true -> request_ok (sorted_request r) = true.
Proof.
  unfold request_ok. intros H. apply andb_true_iff in H as [H Hb].
  apply andb_true_iff. split; [exact H | by apply body_ok_sorted].
Qed.

Lemma wf_sorted_case t : wf_test_case t = true -> wf_test_case (sorted_case t) = true.
Proof.
  unfold wf_test_case. cbn [sorted_case id title source_finding_id citation_ids request assertions].
  intros H. bools. rewrite request_ok_sorted by done. bool_goal; done.
Qed.

Lemma query_parameter_sorted p : query_ok p = true ->
  query_parameter (sort_keys (query_payload p)) = Ok p.
Proof. apply query_parameter_complete. Qed.

Lemma request_header_sorted h : header_ok h = true ->
  request_header (sort_keys (header_payload h)) = Ok h.
Proof. apply request_header_complete. Qed.

Lemma to_assertion_sorted a : assertion_ok a = true ->
  to_assertion (sort_keys (assertion_payload a)) = Ok a.
Proof.
  intros Ha. change (to_assertion (JObj
    [(u "expected_value", sort_keys (expected_json (expected_value a)));
     (u "operator", JStr (value (operator a)));
     (u "selector", sort_keys (opt_json JStr (selector a)));
     (u "target", JStr (value (target a)))]) = Ok a).
  apply to_assertion_fields; try done.
  - cbn. by destruct (selector a).
  - cbn. by destruct (expected_value a).
Qed.
End sorted.

Lemma map_sort_keys_strings {A} (f : A -> pystr) l :
  map sort_keys ((fun x => JStr (f x)) <$> l) = (fun x => JStr (f x)) <$> l.
Proof. induction l as [|x l IH]; [done|]. cbn. by f_equal. Qed.

Lemma json_wf_get k kvs v : json_wf (JObj kvs) = true -> dict_get k kvs = Some v ->
  json_wf v = true.
Proof.
  cbn [json_wf]. intros [_ H]%andb_true_iff Hk%dict_get_In%list_elem_of_In.
  rewrite forallb_forall in H. by apply H, andb_true_iff in Hk as [_ ?].
Qed.

Section read_back.
Context {rt : PyRuntime}.

Lemma request_template_sorted r : request_ok r = true ->
  request_template (sort_keys (request_payload r)) = Ok (sorted_request r).
Proof.
  intros Hr. pose proof (request_ok_sorted r Hr) as Hs. pose proof Hr as H.
  unfold request_ok in H. bools.
  change (request_template (JObj
    [(u "headers", JList (map sort_keys (header_payload <$> headers r)));
     (u "json_body", sort_keys (opt_json JObj (json_body r)));
     (u "method", JStr (value (method r)));
     (u "path", JStr (path r));
     (u "query", JList (map sort_keys (query_payload <$> query r)))]) = Ok (sorted_request r)).
  eapply request_template_fields; try reflexivity; [done| | |].
  - change (map sort_keys) with (fmap (M := list) sort_keys). rewrite <- list_fmap_compose.
    apply try_map_id. intros. eapply query_parameter_sorted, forallb_elem; done.
  - change (map sort_keys) with (fmap (M := list) sort_keys). rewrite <- list_fmap_compose.
    apply try_map_id. intros. eapply request_header_sorted, forallb_elem; done.
  - cbn [sorted_request json_body]. rewrite <- to_json_body_complete by by apply body_ok_sorted.
    by destruct (json_body r).
Qed.

(** The rendering of a test case with sorted keys reads back as the test
    case with its body in key order. *)
Lemma validate_sorted_payload t : wf_test_case t = true ->
  validate_generated_test_case (sort_obj (as_payload t)) = Ok (sorted_case t).
Proof.
  intros Ht. pose proof (wf_sorted_case t Ht) as Hs. pose proof Ht as H.
  unfold wf_test_case in H. bools.
  change (validate_generated_test_case
    [(u "assertions", JList (map sort_keys (assertion_payload <$> assertions t)));
     (u "citation_ids",
      JList (map sort_keys ((fun c => JStr (uuid_str c)) <$> citation_ids t)));
     (u "id", JStr (uuid_str (id t)));
     (u "kind", JStr (value (kind t)));
     (u "request", sort_keys (request_payload (request t)));
     (u "schema_version", JStr GENERATED_TEST_CASE_SCHEMA_VERSION);
     (u "source_finding_id", JStr (uuid_str (source_finding_id t)));
     (u "title", JStr (title t))] = Ok (sorted_case t)).
  rewrite map_sort_keys_strings.
  eapply validate_fields; try reflexivity; [done| |].
  - by apply request_template_sorted.
  - change (map sort_keys) with (fmap (M := list) sort_keys). rewrite <- list_fmap_compose.
    apply try_map_id. intros. eapply to_assertion_sorted, forallb_elem; done.
Qed.

Lemma sort_obj_idem kvs : json_wf (JObj kvs) = true -> sort_obj (sort_obj kvs) = sort_obj kvs.
Proof.
  intros H%sort_keys_idem. rewrite !sort_keys_obj in H. by injection H.
Qed.

(** Every text of the test case is scalar text and its floats are binary64:
    what canonical JSON needs to be read back. *)
Definition case_json_wf (t : GeneratedTestCaseV1) : bool := json_wf (JObj (as_payload t)).

Lemma case_json_wf_body t b : case_json_wf t = true -> json_body (request t) = Some b ->
  json_wf (JObj b) = true.
Proof.
  unfold case_json_wf. intros H Hb.
  apply (json_wf_get (u "request") _ (request_payload (request t))) in H; [|reflexivity].
  apply (json_wf_get (u "json_body") _ (opt_json JObj (json_body (request t)))) in H;
    [|reflexivity]. by rewrite Hb in H.
Qed.

Lemma sort_keys_request r : (forall b, json_body r = Some b -> json_wf (JObj b) = true) ->
  sort_keys (request_payload (sorted_request r)) = sort_keys (request_payload r).
Proof.
  intros Hb.
  assert (sort_keys (opt_json JObj (sort_obj <$> json_body r)) =
          sort_keys (opt_json JObj (json_body r))) as E.
  { destruct (json_body r) as [b|]; [|done]. cbn [fmap option_fmap option_map opt_json].
    rewrite !sort_keys_obj. f_equal. by apply sort_obj_idem, Hb. }
  change (sort_keys (request_payload (sorted_request r))) with (JObj
    [(u "headers", JList (map sort_keys (header_payload <$> headers r)));
     (u "json_body", sort_keys (opt_json JObj (sort_obj <$> json_body r)));
     (u "method", JStr (value (method r)));
     (u "path", JStr (path r));
     (u "query", JList (map sort_keys (query_payload <$> query r)))]).
  by rewrite E.
Qed.

Lemma sort_obj_case t : case_json_wf t = true ->
  sort_obj (as_payload (sorted_case t)) = sort_obj (as_payload t).
Proof.
  intros Ht. pose proof (sort_keys_request (request t) (fun b => case_json_wf_body t b Ht)) as E.
  change (sort_obj (as_payload (sorted_case t))) with
    [(u "assertions", JList (map sort_keys (assertion_payload <$> assertions t)));
     (u "citation_ids",
      JList (map sort_keys ((fun c => JStr (uuid_str c)) <$> citation_ids t)));
     (u "id", JStr (uuid_str (id t)));
     (u "kind", JStr (value (kind t)));
     (u "request", sort_keys (request_payload (sorted_request (request t))));
     (u "schema_version", JStr GENERATED_TEST_CASE_SCHEMA_VERSION);
     (u "source_finding_id", JStr (uuid_str (source_finding_id t)));
     (u "title", JStr (title t))].
  by rewrite E.
Qed.
End read_back.

(** * The contract *)

(** ** Only one exception class leaves the validators *)

Section rejections.
Context {rt : PyRuntime}.

(** [m] raises nothing but [GeneratedTestCaseValidationError]. *)
Abbreviation rejects m := (raises (eq GeneratedTestCaseValidationError) m).

(** Once the fields are exact, indexing by one of them cannot fail. *)
Lemma rejects_field name payload fields label :
  require_exact_fields payload fields label = Ok tt -> u name ∈ fields ->
  rejects (field name payload).
Proof.
  unfold require_exact_fields, has_exactly. intros H Hin. ok_inv. bools.
  match goal with E : Forall (.∈ keys payload) fields |- _ => rewrite Forall_forall in E;
    apply E in Hin end.
  unfold field. destruct (dict_get (u name) payload) eqn:E; [apply raises_Ok|].
  exfalso. clear -Hin E. induction payload as [|[k' v] d IH]; simpl in *.
  - by apply not_elem_of_nil in Hin.
  - destruct (str_eqb (u name) k') eqn:Ek; [done|]. apply str_eqb_neq in Ek.
    apply elem_of_cons in Hin as [?|?]; auto.
Qed.

(** The steps of a validator. *)
Ltac rejects_step :=
  match goal with
  | |- raises _ (require_exact_fields _ _ _) => apply raises_raise_if
  | H : require_exact_fields ?p _ _ = Ok tt |- raises _ (field _ ?p) =>
      eapply rejects_field; [exact H | by apply (bool_decide_unpack _)]
  | _ => raises_step
  end.
Ltac rejects_solve := repeat first [solve [auto] | rejects_step].

Lemma rejects_text v label : rejects (text v label).
Proof. destruct v; unfold text; cbv zeta; rejects_solve. Qed.

Lemma rejects_as_mapping v label : rejects (as_mapping v label).
Proof. destruct v; unfold as_mapping; rejects_solve. Qed.

Lemma rejects_as_list v label : rejects (as_list v label).
Proof. destruct v; unfold as_list; rejects_solve. Qed.

Lemma rejects_as_uuid v label : rejects (as_uuid v label).
Proof. destruct v; unfold as_uuid; rejects_solve. Qed.

Lemma rejects_as_enum {T} `{StrEnum T} v label : rejects (as_enum v label : result T).
Proof. destruct v; unfold as_enum; rejects_solve. Qed.

Hint Resolve rejects_text rejects_as_mapping rejects_as_list rejects_as_uuid rejects_as_enum : core.

Lemma rejects_json_value v : forall d, rejects (json_value d v).
Proof.
  induction v as [|b|z|x|s|l IH|kvs IH] using json_rect_strong; intros d; cbn [json_value];
    destruct (_ <? d); try (rejects_solve; fail).
  - apply raises_bind; [by apply raises_raise_if|intros [] _].
    apply raises_fmap, raises_try_map. rewrite Forall_forall in IH. intros v Hv. by apply IH.
  - apply raises_bind; [by apply raises_raise_if|intros [] _].
    apply raises_fmap, raises_try_map. rewrite Forall_forall in IH. intros kv Hv.
    unfold json_key. rejects_solve.
Qed.

Lemma rejects_request_path v : rejects (request_path v).
Proof. unfold request_path. rejects_solve. Qed.

Lemma rejects_query_parameters v : rejects (query_parameters v).
Proof. unfold query_parameters, query_parameter, parameter_name. rejects_solve. Qed.

Lemma rejects_request_headers v : rejects (request_headers v).
Proof. unfold request_headers, request_header, to_header_name. rejects_solve. Qed.

Lemma rejects_to_json_body v : rejects (to_json_body v).
Proof.
  pose proof rejects_json_value. unfold to_json_body, json_key. rejects_solve.
Qed.

Lemma rejects_request_template v : rejects (request_template v).
Proof.
  pose proof rejects_request_path. pose proof rejects_query_parameters.
  pose proof rejects_request_headers. pose proof rejects_to_json_body.
  unfold request_template. rejects_solve.
Qed.

Lemma rejects_to_assertion v : rejects (to_assertion v).
Proof.
  unfold to_assertion, optional_selector, to_expected_value, validate_assertion_contract.
  rejects_solve.
Qed.

Lemma rejects_validate payload : rejects (validate_generated_test_case payload).
Proof.
  pose proof rejects_request_template. pose proof rejects_to_assertion.
  unfold validate_generated_test_case, to_citation_ids, to_assertions. rejects_solve.
Qed.
End rejections.

(** ** Properties *)

Section properties.
Context {rt : PyRuntime}.

(** C12: Validation establishes the invariant of generated test cases and is
    stable: whatever payload was accepted, the resulting test case is well
    formed and its own rendering is accepted with the same result. *)
Theorem validate_generated_test_case_sound payload t :
  validate_generated_test_case payload = Ok t ->
  wf_test_case t = true /\ validate_generated_test_case (as_payload t) = Ok t.
Proof. intros H%validate_sound. split; [done | by apply validate_as_payload]. Qed.

(** The well-formed test cases are exactly those that survive the round
    trip through their rendering. *)
Theorem generated_test_case_roundtrip t :
  wf_test_case t = true <-> validate_generated_test_case (as_payload t) = Ok t.
Proof. split; [apply validate_as_payload | apply validate_sound]. Qed.

(** An accepted request can name no host and carry no credential: its
    path is absolute and relative to the target (no authority, scheme,
    query, fragment or backslash), and none of its headers is a credential
    or routing header. *)
Theorem validated_request_confined payload t :
  validate_generated_test_case payload = Ok t ->
  let p := path (request t) in
  starts_with (u "/") p = true /\ starts_with (u "//") p = false /\
  contains (u "://") p = false /\ contains (u "\") p = false /\
  contains (u "?") p = false /\ contains (u "#") p = false /\
  forall h, h ∈ headers (request t) ->
    header_name_pattern (header_name h) = true /\
    str_lower (header_name h) ∉ FORBIDDEN_HEADER_NAMES.
Proof.
  intros H%validate_sound p. unfold wf_test_case, request_ok, path_ok in H. bools.
  split_and!; try done. intros h Hh.
  match goal with E : forallb header_ok _ = true |- _ =>
    pose proof (forallb_elem _ _ _ E Hh) as Ho end.
  unfold header_ok in Ho. by bools.
Qed.

(** The validators refuse with one exception class: no other exception,
    such as a missing key's, can leave them, whatever the payload. *)
Theorem validate_generated_test_case_errors payload e :
  validate_generated_test_case payload = Raise e ->
  exn_cls e = GeneratedTestCaseValidationError.
Proof. intros H. symmetry. by eapply rejects_validate. Qed.

(** A batch is accepted exactly when it is not empty, every case is
    accepted and no two share an identifier; the results keep the order. *)
Theorem validate_generated_test_cases_spec payloads ts :
  validate_generated_test_cases payloads = Ok ts <->
  payloads <> [] /\
  Forall2 (fun p t => validate_generated_test_case p = Ok t) payloads ts /\
  NoDup (id <$> ts).
Proof.
  unfold validate_generated_test_cases. split.
  - intros H. ok_inv. bools. split_and!; [done | by apply try_map_Ok | done].
  - intros (Hne & Hf & Hnd). rewrite bool_decide_eq_false_2 by done. cbn [raise_if].
    rewrite bind_ok, (proj2 (try_map_Ok _ _ _) Hf), bind_ok.
    unfold no_repeats. by rewrite bool_decide_eq_true_2.
Qed.
End properties.

(** ** Witnesses *)

Lemma sample_case_valid : validate_generated_test_case (as_payload sample_case) = Ok sample_case.
Proof. apply validate_as_payload. reflexivity. Qed.

Lemma validate_generated_test_case_sound_witness : wf_test_case sample_case = true.
Proof. exact (proj1 (validate_generated_test_case_sound _ _ sample_case_valid)). Defined.

Lemma validated_request_confined_witness : starts_with (u "/") (path (request sample_case)) = true.
Proof. exact (proj1 (validated_request_confined _ _ sample_case_valid)). Defined.

Lemma validate_generated_test_case_errors_witness : exists e,
  validate_generated_test_case [] = Raise e /\ exn_cls e = GeneratedTestCaseValidationError.
Proof.
  eexists. split; [vm_compute; reflexivity|].
  exact (validate_generated_test_case_errors [] _ eq_refl).
Defined.
