(* ===== verification/TargetRegistrySpec.v ===== *)
(** * Target registry: properties

    Default-deny network validation: what a validated target is, and that
    restricted, invalid or changing answers are refused. *)
From S2P Require Import Prelude PyText Json Digest Url Effects TargetRegistry AsciiRuntime.
From S2P Require Import Samples.

Section properties.
Context {rt : PyRuntime} {net : NetRuntime} {S : Type} `{AddressResolver S}.

(** C11: A target that passes validation is a registered one, on port 443,
    without redirects. Its host name is not in the list of metadata services,
    is no literal address, does not start with 0x, is not one decimal number
    and not four decimal numbers one of which has a leading zero (other
    spellings of an address are not excluded here). Both of two resolutions of
    that host name published exactly its address list, which is not empty,
    sorted, without repetition and made of addresses that the ipaddress module
    calls global, which multicast addresses can be. *)
Theorem validate_registered_target_sound registry id s t s2 :
  validate_registered_target registry id s = (Ok t, s2) ->
  exists first second s1,
    resolve (vt_hostname t) s = (Ok first, s1) /\
    resolve (vt_hostname t) s1 = (Ok second, s2) /\
    eligible registry id first second t.
Proof. apply validate_registered_target_eligible. Qed.

(** A registered target whose two resolutions publish the same public
    addresses is accepted, whatever their order and repetitions. *)
Theorem validate_registered_target_complete registry id c o s first s1 second s2 :
  registry_get registry id = Ok c -> parse_target_origin c = Ok o ->
  resolve (origin_hostname o) s = (Ok first, s1) ->
  resolve (origin_hostname o) s1 = (Ok second, s2) ->
  all_public first -> all_public second ->
  (forall b, published first b <-> published second b) ->
  exists t, validate_registered_target registry id s = (Ok t, s2).
Proof. apply validate_registered_target_resolves. Qed.

(** DNS rebinding between the two resolutions is refused: two answers,
    each public, that publish different addresses raise [DNS_REBINDING]. *)
Theorem dns_rebinding_refused registry id c o s first s1 second s2 b :
  registry_get registry id = Ok c -> parse_target_origin c = Ok o ->
  resolve (origin_hostname o) s = (Ok first, s1) ->
  resolve (origin_hostname o) s1 = (Ok second, s2) ->
  all_public first -> all_public second ->
  published first b -> ~ published second b ->
  exists msg, validate_registered_target registry id s =
    (raise (TargetValidationError DNS_REBINDING) msg, s2).
Proof.
  intros Hg Hp R1 R2 P1 P2 B1 B2. unfold validate_registered_target.
  destruct (validated_public_answers_total first P1) as [o1 V1].
  destruct (validated_public_answers_total second P2) as [o2 V2].
  assert (o1 <> o2) as Hne.
  { intros ->. apply validated_public_answers_Ok in V1 as (_ & _ & _ & M1).
    apply validated_public_answers_Ok in V2 as (_ & _ & _ & M2).
    by apply B2, M2, M1. }
  io_run. rewrite bool_decide_eq_false_2 by done. by eexists.
Qed.

(** One answer that is not a public address is enough to refuse a target
    at its first resolution; nothing is resolved after it. *)
Theorem restricted_answer_refused registry id c o s first s1 v :
  registry_get registry id = Ok c -> parse_target_origin c = Ok o ->
  resolve (origin_hostname o) s = (Ok first, s1) ->
  v ∈ first -> public_form v = None ->
  exists boundary msg, boundary ∈ [INVALID_RESOLVER_ANSWER; RESTRICTED_RESOLVER_ANSWER] /\
    validate_registered_target registry id s = (raise (TargetValidationError boundary) msg, s1).
Proof.
  intros Hg Hp R1 Hv Hn. unfold validate_registered_target. io_run.
  assert (exists boundary msg, boundary ∈ [INVALID_RESOLVER_ANSWER; RESTRICTED_RESOLVER_ANSWER] /\
    try_map public_answer first = raise (TargetValidationError boundary) msg) as (bd & msg & Hb & Hm).
  { clear -Hv Hn. induction first as [|w first IH]; [by apply not_elem_of_nil in Hv|].
    simpl. destruct (public_answer w) as [a|[cls msg]] eqn:E.
    - apply public_answer_Ok in E. apply elem_of_cons in Hv as [->|Hv]; [congruence|].
      destruct (IH Hv) as (bd & msg & Hb & ->). by exists bd, msg.
    - unfold public_answer in E. destruct (ip_address w) as [i|]; cbn in E.
      + destruct (ip_is_global i); cbn in E; [done|]. injection E as <- <-.
        eexists _, _. split; [|done]. right; left.
      + injection E as <- <-. eexists _, _. split; [|done]. left. }
  exists bd, msg. split; [done|].
  assert (validated_public_answers first = raise (TargetValidationError bd) msg) as Hr.
  { unfold validated_public_answers. rewrite bool_decide_eq_false_2.
    - cbn [raise_if]. by rewrite bind_ok, Hm.
    - intros ->. by apply not_elem_of_nil in Hv. }
  erewrite io_stop; [|apply lift_Raise; split; [exact Hr | reflexivity]]. done.
Qed.

(** Only registered identifiers name a target: a constructed registry
    answers each of its identifiers with the one configuration that bears
    it, whose origin parses, and refuses every other text. *)
Theorem registry_get_spec l r text :
  make_registry l = Ok r ->
  (forall c, registry_get r text = Ok c <-> c ∈ l /\ value (target_id c) = text) /\
  (forall c, c ∈ l -> is_ok (parse_target_origin c) = true /\ redirects_allowed c = false) /\
  ((forall c, c ∈ l -> value (target_id c) <> text) ->
   exists msg, registry_get r text = raise (TargetValidationError UNKNOWN_TARGET_ID) msg).
Proof.
  unfold make_registry, post_init. intros Hr. ok_inv. bools. cbn [targets] in *.
  match goal with E : try_iter _ _ = Ok _ |- _ => apply try_iter_Ok in E; rename E into Hall end.
  split_and!.
  - intros c. split; [apply registry_get_Ok|]. intros [Hin Hv]. unfold registry_get.
    rewrite <- Hv, enum_of_value. cbn [or_raise targets]. rewrite bind_ok. apply or_raise_Ok.
    match goal with E : NoDup _ |- _ => rename E into Hnd end. clear -Hnd Hin.
    induction l as [|c' l IH]; [by apply not_elem_of_nil in Hin|]. simpl.
    destruct (bool_decide (target_id c' = target_id c)) eqn:E.
    + apply elem_of_cons in Hin as [->|Hin]; [done|]. apply bool_decide_eq_true in E.
      apply NoDup_cons in Hnd as [Hni _]. exfalso. apply Hni. rewrite E. by apply list_elem_of_fmap_2.
    + apply elem_of_cons in Hin as [->|Hin]; [by rewrite bool_decide_eq_true_2 in E|].
      apply NoDup_cons in Hnd as [_ Hnd]. by apply IH.
  - intros c Hc. rewrite Forall_forall in Hall. pose proof (Hall c Hc) as Ho. cbn beta in Ho. ok_inv.
    match goal with E : parse_target_origin c = Ok _ |- _ =>
      rewrite E; by apply parse_target_origin_Ok in E as [? _] end.
  - apply (registry_get_none {| targets := l |}).
Qed.
End properties.

(** The spellings that the host check knows, and one that it lets through: the
    last number of [8.8.2056] stands for two bytes in an address. *)
Example alternate_notations_known :
  looks_like_alternate_ip_notation <$> [u "0x08080808"; u "134744072"; u "010.8.8.8"; u "8.8.2056"] =
  [true; true; true; false].
Proof. vm_compute. reflexivity. Qed.

(** ** Witnesses *)

(** A resolver that gives its answers one after the other. *)
#[local] Instance scripted : AddressResolver (list (list pystr)) := fun _ s =>
  match s with a :: s => (Ok a, s) | [] => (raise OtherException "no answer", []) end.

Definition sample_origin : TargetOrigin := {|
  origin_hostname := u "ai-qa-sandbox.onrender.com"; origin_port := 443;
  origin_text := u "https://ai-qa-sandbox.onrender.com" |}.

Lemma sample_origin_parses : parse_target_origin sample_target = Ok sample_origin.
Proof. vm_compute. reflexivity. Qed.

Lemma sample_registered :
  registry_get DEFAULT_TARGET_REGISTRY (u "synthetic-order-api") = Ok sample_target.
Proof. reflexivity. Qed.

Lemma google_public l : l <> [] -> (forall v, v ∈ l -> v = u "8.8.8.8") -> all_public l.
Proof. intros Hne H. split; [done|]. intros v ->%H. by eexists. Qed.

Definition sample_validated : ValidatedTarget := {|
  vt_id := SYNTHETIC_ORDER_API; vt_origin := u "https://ai-qa-sandbox.onrender.com";
  vt_hostname := u "ai-qa-sandbox.onrender.com"; vt_port := 443;
  vt_resolved_addresses := [u "8.8.8.8"]; vt_redirects_allowed := false |}.

Lemma sample_validates :
  validate_registered_target DEFAULT_TARGET_REGISTRY (u "synthetic-order-api")
    [[u "8.8.8.8"]; [u "8.8.8.8"; u "8.8.8.8"]] = (Ok sample_validated, []).
Proof. vm_compute. reflexivity. Qed.

Lemma validate_registered_target_sound_witness : vt_port sample_validated = 443%N.
Proof.
  destruct (validate_registered_target_sound _ _ _ _ _ sample_validates)
    as (first & second & s1 & _ & _ & Ht). exact (el_port _ _ _ _ _ Ht).
Defined.

Lemma validate_registered_target_complete_witness : exists t,
  validate_registered_target DEFAULT_TARGET_REGISTRY (u "synthetic-order-api")
    [[u "8.8.8.8"]; [u "8.8.8.8"; u "8.8.8.8"]] = (Ok t, []).
Proof.
  apply (validate_registered_target_complete _ _ _ _
           [[u "8.8.8.8"]; [u "8.8.8.8"; u "8.8.8.8"]] [u "8.8.8.8"]
           [[u "8.8.8.8"; u "8.8.8.8"]] [u "8.8.8.8"; u "8.8.8.8"] []
           sample_registered sample_origin_parses eq_refl eq_refl).
  - apply google_public; [done|set_solver].
  - apply google_public; [done|set_solver].
  - intros b. split; intros (v & Hv & Hb); exists v; (split; [set_solver | exact Hb]).
Defined.

Lemma dns_rebinding_refused_witness : exists msg,
  validate_registered_target DEFAULT_TARGET_REGISTRY (u "synthetic-order-api")
    [[u "8.8.8.8"]; [u "8.8.4.4"]] = (raise (TargetValidationError DNS_REBINDING) msg, []).
Proof.
  apply (dns_rebinding_refused _ _ _ _ [[u "8.8.8.8"]; [u "8.8.4.4"]] [u "8.8.8.8"]
           [[u "8.8.4.4"]] [u "8.8.4.4"] [] (u "8.8.8.8")
           sample_registered sample_origin_parses eq_refl eq_refl).
  - split; [done|]. intros v ->%list_elem_of_singleton. by eexists.
  - split; [done|]. intros v ->%list_elem_of_singleton. by eexists.
  - exists (u "8.8.8.8"). split; [left | reflexivity].
  - intros (v & ->%list_elem_of_singleton & Hb). discriminate Hb.
Defined.

Lemma restricted_answer_refused_witness : exists boundary msg,
  validate_registered_target DEFAULT_TARGET_REGISTRY (u "synthetic-order-api")
    [[u "8.8.8.8"; u "10.0.0.1"]] = (raise (TargetValidationError boundary) msg, []).
Proof.
  destruct (restricted_answer_refused _ _ _ _ [[u "8.8.8.8"; u "10.0.0.1"]]
    [u "8.8.8.8"; u "10.0.0.1"] [] (u "10.0.0.1")
    sample_registered sample_origin_parses eq_refl) as (bd & msg & _ & H).
  - right; left.
  - reflexivity.
  - exists bd, msg. exact H.
Defined.

Lemma registry_get_spec_witness : exists r,
  make_registry [sample_target] = Ok r /\
  registry_get r (u "synthetic-order-api") = Ok sample_target.
Proof.
  assert (make_registry [sample_target] = Ok {| targets := [sample_target] |}) as Hr.
  { vm_compute. reflexivity. }
  eexists. split; [exact Hr|].
  apply (registry_get_spec _ _ (u "synthetic-order-api") Hr). split; [left | reflexivity].
Defined.
