(* ===== verification/ExecutionPlans.v ===== *)
(** * Execution plans ([execution_plans.py])

    Canonical, immutable plans: building one from a generated test case and a
    registered target, and checking that a plan still is what its SHA-256 hash
    says.  Integer fields of the data classes are exact integers, their
    declared type.

    ** Properties

    What a valid plan promises ([plan_ok]), that every planned test case has a
    valid plan, and that a plan hash binds everything material in the plan. *)
From S2P Require Import Prelude PyText Json Digest GeneratedTests Url Effects TargetRegistry JsonFacts.
From S2P Require Import GeneratedTestsFacts GeneratedTestsSpec AsciiRuntime Samples.

Definition EXECUTION_PLAN_SCHEMA_VERSION : pystr := u "execution-plan/v1".
Definition EXECUTION_PLAN_NAMESPACE : uuid := 0x72e8c9f088d44be38f03e43ce5486464.
Definition MAX_REQUEST_TIMEOUT_MS : Z := 30000.
Definition MAX_REQUEST_BODY_BYTES : Z := 1000000.
Definition MAX_RESPONSE_BYTES : Z := 1000000.
Definition MAX_PLAN_ASSERTIONS : Z := 20.

Record ExecutionLimitsV1 := {
  request_timeout_ms : Z;
  max_request_body_bytes : Z;
  max_response_bytes : Z;
  max_assertions : Z;
}.
#[export] Instance limits_eq_dec : EqDecision ExecutionLimitsV1.
Proof. solve_decision. Defined.

Record ExecutionEstimateV1 := {
  request_count : Z;
  request_body_bytes : Z;
  assertion_count : Z;
  maximum_response_bytes : Z;
  maximum_duration_ms : Z;
}.
#[export] Instance estimate_eq_dec : EqDecision ExecutionEstimateV1.
Proof. solve_decision. Defined.

Record ExecutionPlanV1 := {
  schema_version : pystr;
  id : uuid;
  target_id : TargetId;
  target_base_url : pystr;
  target_schema_version : pystr;
  test_case_id : uuid;
  test_case_payload : pystr;
  limits : ExecutionLimitsV1;
  estimate : ExecutionEstimateV1;
  plan_hash : pystr;
}.
#[export] Instance plan_eq_dec : EqDecision ExecutionPlanV1.
Proof. solve_decision. Defined.

Record ExecutionPlanReviewV1 := {
  rv_plan_id : uuid;
  rv_plan_hash : pystr;
  rv_target_id : TargetId;
  rv_target_base_url : pystr;
  rv_test_case_id : uuid;
  rv_method : pystr;
  rv_path : pystr;
  rv_citation_ids : list uuid;
  rv_limits : ExecutionLimitsV1;
  rv_estimate : ExecutionEstimateV1;
}.

(** [ExecutionLimitsV1.as_payload] *)
Definition limits_payload (l : ExecutionLimitsV1) : json :=
  JObj [(u "request_timeout_ms", JInt (request_timeout_ms l));
        (u "max_request_body_bytes", JInt (max_request_body_bytes l));
        (u "max_response_bytes", JInt (max_response_bytes l));
        (u "max_assertions", JInt (max_assertions l))].

(** [ExecutionEstimateV1.as_payload] *)
Definition estimate_payload (e : ExecutionEstimateV1) : json :=
  JObj [(u "request_count", JInt (request_count e));
        (u "request_body_bytes", JInt (request_body_bytes e));
        (u "assertion_count", JInt (assertion_count e));
        (u "maximum_response_bytes", JInt (maximum_response_bytes e));
        (u "maximum_duration_ms", JInt (maximum_duration_ms e))].

Definition DEFAULT_EXECUTION_LIMITS : ExecutionLimitsV1 := {|
  request_timeout_ms := 10000;
  max_request_body_bytes := 64000;
  max_response_bytes := 256000;
  max_assertions := MAX_PLAN_ASSERTIONS;
|}.

Abbreviation refuse msg := (raise ExecutionPlanRejected msg).
Abbreviation refuse_if c msg := (raise_if c ExecutionPlanRejected msg).

Definition is_TargetValidationError (c : exn_class) : bool :=
  match c with TargetValidationError _ => true | _ => false end.
Definition is_GeneratedTestCaseValidationError (c : exn_class) : bool :=
  bool_decide (c = GeneratedTestCaseValidationError).

Section plans.
Context {rt : PyRuntime} {net : NetRuntime}.

(** [_canonical_json] *)
Definition canonical_json (v : json) : pystr := dumps_canonical v.

(** [text.encode("utf-8")] *)
Definition encode (s : pystr) : result bytes :=
  or_raise (utf8_encode s) (Exn UnicodeEncodeError "surrogates not allowed").

(** [_sha256] *)
Definition plan_sha256 (s : pystr) : result pystr := sha256_hex <$> encode s.

Definition registered_target (id : pystr) (registry : TargetRegistry) :
    result TargetConfiguration :=
  try_except (registry_get registry id) is_TargetValidationError
    (fun _ => refuse "Execution plans require one registered server-side target ID").

Definition validated_test_case (t : GeneratedTestCaseV1) : result GeneratedTestCaseV1 :=
  try_except (validate_generated_test_case (as_payload t)) is_GeneratedTestCaseValidationError
    (fun _ => refuse "Execution plans require a valid generated-test proposal").

Definition test_case_from_snapshot (snapshot : pystr) : result GeneratedTestCaseV1 :=
  payload ← or_raise (loads snapshot)
              (Exn ExecutionPlanRejected "Execution plan test-case snapshot is not valid JSON");
  payload ← match payload with
            | JObj kvs => Ok kvs
            | _ => refuse "Execution plan test-case snapshot must be a JSON object"
            end;
  try_except (validate_generated_test_case payload) is_GeneratedTestCaseValidationError
    (fun _ => refuse
       "Execution plan test-case snapshot violates the generated-test contract").

(** The property [ExecutionPlanV1.test_case]. *)
Definition test_case (p : ExecutionPlanV1) : result GeneratedTestCaseV1 :=
  test_case_from_snapshot (test_case_payload p).

Definition require_bounded_positive_integer (v : Z) (label : string) (maximum : Z) :
    result unit :=
  refuse_if ((v <? 1) || (maximum <? v)) (label +:+ " must be a bounded positive integer").

Definition validated_limits (l : ExecutionLimitsV1) : result ExecutionLimitsV1 :=
  require_bounded_positive_integer (request_timeout_ms l) "Request timeout"
    MAX_REQUEST_TIMEOUT_MS ;;
  require_bounded_positive_integer (max_request_body_bytes l) "Maximum request-body size"
    MAX_REQUEST_BODY_BYTES ;;
  require_bounded_positive_integer (max_response_bytes l) "Maximum response size"
    MAX_RESPONSE_BYTES ;;
  require_bounded_positive_integer (max_assertions l) "Maximum assertion count"
    MAX_PLAN_ASSERTIONS ;;
  Ok l.

(** [_estimate] *)
Definition plan_estimate (t : GeneratedTestCaseV1) (l : ExecutionLimitsV1) :
    result ExecutionEstimateV1 :=
  let assertion_count := zlen (assertions t) in
  refuse_if (max_assertions l <? assertion_count)
    "Generated test exceeds the plan assertion-count limit" ;;
  request_body_bytes ←
    match json_body (request t) with
    | None => Ok 0
    | Some body => zlen <$> encode (canonical_json (JObj body))
    end;
  refuse_if (max_request_body_bytes l <? request_body_bytes)
    "Generated test exceeds the plan request-body size limit" ;;
  Ok {| request_count := 1; request_body_bytes := request_body_bytes;
        assertion_count := assertion_count;
        maximum_response_bytes := max_response_bytes l;
        maximum_duration_ms := request_timeout_ms l |}.

(** [_material_test_case_payload]: everything but the display title. *)
Definition material_test_case_payload (t : GeneratedTestCaseV1) : json :=
  JObj (dict_pop (u "title") (as_payload t)).

Definition material_payload (target : TargetConfiguration) (t : GeneratedTestCaseV1)
    (l : ExecutionLimitsV1) (e : ExecutionEstimateV1) : json :=
  JObj [(u "schema_version", JStr EXECUTION_PLAN_SCHEMA_VERSION);
        (u "target",
         JObj [(u "id", JStr (value (TargetRegistry.target_id target)));
               (u "base_url", JStr (base_url target));
               (u "schema_version", JStr (TargetRegistry.target_schema_version target));
               (u "redirects_allowed", JBool (redirects_allowed target))]);
        (u "generated_test_case", material_test_case_payload t);
        (u "limits", limits_payload l);
        (u "estimate", estimate_payload e)].

(** [_plan_hash_payload] *)
Definition plan_hash_payload target t l e : pystr :=
  canonical_json (material_payload target t l e).

Definition validate_execution_plan (plan : ExecutionPlanV1) (registry : TargetRegistry) :
    result ExecutionPlanV1 :=
  refuse_if (negb (str_eqb (schema_version plan) EXECUTION_PLAN_SCHEMA_VERSION))
    "Execution plan has an unsupported schema version" ;;
  t ← test_case_from_snapshot (test_case_payload plan);
  refuse_if (negb (GeneratedTests.id t =? test_case_id plan)%N)
    "Execution plan test-case ID does not match its retained snapshot" ;;
  target ← registered_target (value (target_id plan)) registry;
  refuse_if (negb (str_eqb (target_base_url plan) (base_url target)) ||
             negb (str_eqb (target_schema_version plan)
                     (TargetRegistry.target_schema_version target)))
    "Execution plan target configuration changed after planning" ;;
  l ← validated_limits (limits plan);
  e ← plan_estimate t l;
  refuse_if (negb (bool_decide (estimate plan = e)))
    "Execution plan estimate does not match its test case and limits" ;;
  expected_hash ← plan_sha256 (plan_hash_payload target t l e);
  refuse_if (negb (str_eqb (plan_hash plan) expected_hash))
    "Execution plan material content does not match its SHA-256 hash" ;;
  refuse_if (negb (id plan =? uuid5 EXECUTION_PLAN_NAMESPACE expected_hash)%N)
    "Execution plan ID does not match its canonical SHA-256 hash" ;;
  Ok plan.

Definition build_execution_plan (generated_test_case : GeneratedTestCaseV1)
    (target_id : pystr) (limits : ExecutionLimitsV1) (registry : TargetRegistry) :
    result ExecutionPlanV1 :=
  t ← validated_test_case generated_test_case;
  target ← registered_target target_id registry;
  l ← validated_limits limits;
  e ← plan_estimate t l;
  let snapshot := canonical_json (JObj (as_payload t)) in
  plan_hash ← plan_sha256 (plan_hash_payload target t l e);
  validate_execution_plan
    {| schema_version := EXECUTION_PLAN_SCHEMA_VERSION;
       id := uuid5 EXECUTION_PLAN_NAMESPACE plan_hash;
       target_id := TargetRegistry.target_id target;
       target_base_url := base_url target;
       target_schema_version := TargetRegistry.target_schema_version target;
       test_case_id := GeneratedTests.id t;
       test_case_payload := snapshot;
       limits := l;
       estimate := e;
       plan_hash := plan_hash |} registry.

Definition review_execution_plan (plan : ExecutionPlanV1) (registry : TargetRegistry) :
    result ExecutionPlanReviewV1 :=
  p ← validate_execution_plan plan registry;
  t ← test_case p;
  Ok {| rv_plan_id := id p; rv_plan_hash := plan_hash p; rv_target_id := target_id p;
        rv_target_base_url := target_base_url p; rv_test_case_id := test_case_id p;
        rv_method := value (method (request t)); rv_path := path (request t);
        rv_citation_ids := citation_ids t; rv_limits := limits p;
        rv_estimate := estimate p |}.
End plans.

(** * Properties *)

(** Hard limits in range. *)
Definition limits_ok (l : ExecutionLimitsV1) : Prop :=
  1 <= request_timeout_ms l <= MAX_REQUEST_TIMEOUT_MS /\
  1 <= max_request_body_bytes l <= MAX_REQUEST_BODY_BYTES /\
  1 <= max_response_bytes l <= MAX_RESPONSE_BYTES /\
  1 <= max_assertions l <= MAX_PLAN_ASSERTIONS.

(** Size in bytes of the canonical request body. *)
Definition body_size {rt : PyRuntime} (t : GeneratedTestCaseV1) : Z :=
  match json_body (request t) with
  | None => 0
  | Some body => zlen (canonical_json (JObj body))
  end.

(** What a plan that passes validation promises about its test case [t]. *)
Record plan_ok {rt : PyRuntime} (registry : TargetRegistry) (p : ExecutionPlanV1)
    (t : GeneratedTestCaseV1) (c : TargetConfiguration) : Prop := {
  po_schema : schema_version p = EXECUTION_PLAN_SCHEMA_VERSION;
  po_case : test_case p = Ok t;
  po_wf : wf_test_case t = true;
  po_case_id : test_case_id p = GeneratedTests.id t;
  po_registered : registry_get registry (value (target_id p)) = Ok c;
  po_base_url : target_base_url p = base_url c;
  po_target_schema : target_schema_version p = TargetRegistry.target_schema_version c;
  po_limits : limits_ok (limits p);
  po_estimate : plan_estimate t (limits p) = Ok (estimate p);
  po_hash : plan_sha256 (plan_hash_payload c t (limits p) (estimate p)) = Ok (plan_hash p);
  po_id : id p = uuid5 EXECUTION_PLAN_NAMESPACE (plan_hash p);
}.

Section facts.
Context {rt : PyRuntime}.

Lemma try_except_refuse {A} (m : result A) h msg a :
  try_except m h (fun _ => refuse msg) = Ok a <-> m = Ok a.
Proof.
  rewrite try_except_Ok. split; [|by left].
  by intros [?|(e & _ & _ & [=])].
Qed.

Lemma registered_target_Ok id registry c :
  registered_target id registry = Ok c <-> registry_get registry id = Ok c.
Proof. apply try_except_refuse. Qed.

Lemma bounded_Ok v label m x : require_bounded_positive_integer v label m = Ok x <-> 1 <= v <= m.
Proof.
  unfold require_bounded_positive_integer. rewrite raise_if_Ok, orb_false_iff, !Z.ltb_ge. lia.
Qed.

Lemma validated_limits_Ok l l' : validated_limits l = Ok l' <-> l' = l /\ limits_ok l.
Proof.
  unfold validated_limits, limits_ok. split.
  - intros H. ok_inv. repeat match goal with H : require_bounded_positive_integer _ _ _ = Ok _ |- _ =>
      apply bounded_Ok in H end. auto.
  - intros (-> & H1 & H2 & H3 & H4).
    rewrite (proj2 (bounded_Ok _ "Request timeout" _ tt) H1), bind_ok,
      (proj2 (bounded_Ok _ "Maximum request-body size" _ tt) H2), bind_ok,
      (proj2 (bounded_Ok _ "Maximum response size" _ tt) H3), bind_ok,
      (proj2 (bounded_Ok _ "Maximum assertion count" _ tt) H4). done.
Qed.

Lemma test_case_from_snapshot_wf s t : test_case_from_snapshot s = Ok t -> wf_test_case t = true.
Proof.
  unfold test_case_from_snapshot. intros H. ok_inv. apply try_except_refuse in H.
  by eapply validate_sound.
Qed.

(** Validation returns its argument, exactly when the plan keeps its promises. *)
Lemma validate_plan_iff p q registry :
  validate_execution_plan p registry = Ok q <-> q = p /\ exists t c, plan_ok registry p t c.
Proof.
  unfold validate_execution_plan. split.
  - intros H. ok_inv. bools.
    repeat match goal with
    | E : registered_target _ _ = Ok _ |- _ => apply registered_target_Ok in E
    | E : validated_limits _ = Ok _ |- _ => apply validated_limits_Ok in E as [-> ?]
    | E : str_eqb _ _ = true |- _ => apply str_eqb_eq in E
    end.
    split; [done|]. eexists _, _.
    match goal with E : estimate q = _ |- _ => rewrite <- E in * end.
    match goal with E : plan_hash q = _ |- _ => rewrite <- E in * end.
    match goal with E : test_case_from_snapshot _ = Ok _ |- _ =>
      pose proof (test_case_from_snapshot_wf _ _ E) end.
    by split.
  - intros [-> (t & c & [H1 H2 H3 H4 H5 H6 H7 H8 H9 H10 H11])].
    unfold test_case in H2. rewrite H1, H2, H4, H6, H7, !str_eqb_refl. cbn [negb raise_if].
    rewrite !bind_ok, N.eqb_refl.
    rewrite (proj2 (registered_target_Ok _ _ _) H5).
    rewrite (proj2 (validated_limits_Ok _ (limits p)) (conj eq_refl H8)).
    cbn [negb orb raise_if]. rewrite !bind_ok, !str_eqb_refl.
    cbn [negb orb raise_if]. rewrite !bind_ok, H9, bind_ok.
    rewrite bool_decide_eq_true_2 by done. cbn [negb orb raise_if]. rewrite bind_ok, H10, bind_ok.
    by rewrite str_eqb_refl, H11, N.eqb_refl.
Qed.
End facts.

(** ** Planning raises value errors only *)

Section plan_errors.
Context {rt : PyRuntime}.

Definition value_errors (c : exn_class) : Prop := is_ValueError c = true.

Lemma raises_registered_target id registry :
  raises value_errors (registered_target id registry).
Proof.
  unfold registered_target. eapply raises_try_except with (Q := fun c => is_TargetValidationError c = true).
  - unfold registry_get. repeat raises_step.
  - intros c -> [=].
  - intros e. by apply raises_raise.
Qed.

Lemma raises_test_case_from_snapshot s : raises value_errors (test_case_from_snapshot s).
Proof.
  unfold test_case_from_snapshot. do 2 (raises_step; [repeat raises_step|]).
  eapply raises_try_except; [apply rejects_validate| |].
  - by intros c <- [=].
  - intros e. by apply raises_raise.
Qed.

Lemma raises_plan_sha256 s : raises value_errors (plan_sha256 s).
Proof. unfold plan_sha256, encode. repeat raises_step. Qed.

Lemma raises_validated_limits l : raises value_errors (validated_limits l).
Proof. unfold validated_limits, require_bounded_positive_integer. repeat raises_step. Qed.

Lemma raises_plan_estimate t l : raises value_errors (plan_estimate t l).
Proof. unfold plan_estimate, encode. cbv zeta. repeat raises_step. Qed.

Lemma raises_validate_execution_plan p registry :
  raises value_errors (validate_execution_plan p registry).
Proof.
  unfold validate_execution_plan.
  repeat first [ apply raises_registered_target | apply raises_test_case_from_snapshot
               | apply raises_plan_sha256 | apply raises_validated_limits
               | apply raises_plan_estimate | raises_step ].
Qed.
End plan_errors.

(** ** Every planned test case has a valid plan *)

Section build.
Context {rt : PyRuntime} {laws : PyRuntimeLaws rt}.

Lemma encode_canonical v : json_wf v = true -> encode (canonical_json v) = Ok (canonical_json v).
Proof. intros H. unfold encode. by rewrite utf8_encode_ascii by by apply canonical_ascii. Qed.

Lemma test_case_from_canonical t : wf_test_case t = true -> case_json_wf t = true ->
  test_case_from_snapshot (canonical_json (JObj (as_payload t))) = Ok (sorted_case t).
Proof.
  intros Hwf Hj. unfold test_case_from_snapshot, canonical_json.
  rewrite loads_dumps_canonical by done. cbn [or_raise]. rewrite bind_ok, sort_keys_obj, bind_ok.
  apply try_except_refuse. by apply validate_sorted_payload.
Qed.

Lemma body_sorted_canonical t : case_json_wf t = true ->
  match json_body (request (sorted_case t)) with
  | None => None | Some b => Some (canonical_json (JObj b)) end =
  match json_body (request t) with
  | None => None | Some b => Some (canonical_json (JObj b)) end.
Proof.
  intros Hj. pose proof (case_json_wf_body t) as Hb.
  cbn [sorted_case sorted_request request json_body]. destruct (json_body (request t)) as [b|]; [|done].
  cbn [fmap option_fmap option_map]. f_equal.
  apply (dumps_canonical_sorted (JObj b)). by apply Hb.
Qed.

Lemma plan_estimate_sorted t l : case_json_wf t = true ->
  plan_estimate (sorted_case t) l = plan_estimate t l.
Proof.
  intros Hj%body_sorted_canonical. unfold plan_estimate. revert Hj.
  cbn [sorted_case sorted_request request json_body assertions].
  destruct (json_body (request t)) as [b|]; [|done].
  cbn [fmap option_fmap option_map]. intros E%(inj Some). by rewrite E.
Qed.

(** The exact estimate of a test case within its limits. *)
Lemma plan_estimate_within t l : case_json_wf t = true ->
  zlen (assertions t) <= max_assertions l -> body_size t <= max_request_body_bytes l ->
  plan_estimate t l =
  Ok {| request_count := 1; request_body_bytes := body_size t;
        assertion_count := zlen (assertions t);
        maximum_response_bytes := max_response_bytes l;
        maximum_duration_ms := request_timeout_ms l |}.
Proof.
  intros Hj Ha Hs. unfold plan_estimate, body_size in *.
  rewrite raise_if_false, bind_ok by (by apply Z.ltb_ge).
  pose proof (case_json_wf_body t) as Hb. destruct (json_body (request t)) as [b|].
  - rewrite encode_canonical by by apply Hb. cbn [fmap result_fmap]. rewrite bind_ok.
    by rewrite raise_if_false by (by apply Z.ltb_ge).
  - rewrite bind_ok. by rewrite raise_if_false by (by apply Z.ltb_ge).
Qed.

Definition material_case (t : GeneratedTestCaseV1) : json :=
  sort_keys (material_test_case_payload t).

Lemma material_sorted t : case_json_wf t = true ->
  material_case (sorted_case t) = material_case t.
Proof.
  intros Ht. pose proof (sort_keys_request (request t) (fun b => case_json_wf_body t b Ht)) as E.
  change (material_case (sorted_case t)) with (JObj
    [(u "assertions", JList (map sort_keys (assertion_payload <$> assertions t)));
     (u "citation_ids",
      JList (map sort_keys ((fun c => JStr (uuid_str c)) <$> citation_ids t)));
     (u "id", JStr (uuid_str (GeneratedTests.id t)));
     (u "kind", JStr (value (kind t)));
     (u "request", sort_keys (request_payload (sorted_request (request t))));
     (u "schema_version", JStr GENERATED_TEST_CASE_SCHEMA_VERSION);
     (u "source_finding_id", JStr (uuid_str (source_finding_id t)))]).
  by rewrite E.
Qed.

(** Hashed material, with keys in order. *)
Lemma sort_material c t l e :
  sort_keys (material_payload c t l e) =
  JObj [(u "estimate", sort_keys (estimate_payload e));
        (u "generated_test_case", material_case t);
        (u "limits", sort_keys (limits_payload l));
        (u "schema_version", JStr EXECUTION_PLAN_SCHEMA_VERSION);
        (u "target",
         JObj [(u "base_url", JStr (base_url c));
               (u "id", JStr (value (TargetRegistry.target_id c)));
               (u "redirects_allowed", JBool (redirects_allowed c));
               (u "schema_version", JStr (TargetRegistry.target_schema_version c))])].
Proof. reflexivity. Qed.

Lemma plan_hash_payload_sorted c t l e : case_json_wf t = true ->
  plan_hash_payload c (sorted_case t) l e = plan_hash_payload c t l e.
Proof.
  intros Ht. unfold plan_hash_payload, canonical_json, dumps_canonical.
  by rewrite !sort_material, material_sorted.
Qed.

Lemma json_wf_material c t l e : case_json_wf t = true ->
  scalar_text (base_url c) = true ->
  scalar_text (TargetRegistry.target_schema_version c) = true ->
  json_wf (material_payload c t l e) = true.
Proof.
  unfold case_json_wf. intros Ht Hb Hs.
  assert (json_wf (material_test_case_payload t) = true) as Hm.
  { unfold material_test_case_payload, dict_pop. cbn [json_wf] in *.
    apply andb_true_iff in Ht as [_ Ht]. apply andb_true_iff; split; [reflexivity|].
    rewrite forallb_forall in *. intros kv Hkv. apply Ht. apply list_elem_of_In.
    apply list_elem_of_In, list_elem_of_filter in Hkv. by apply Hkv. }
  unfold material_payload.
  change (json_wf (JObj [
    (u "schema_version", JStr EXECUTION_PLAN_SCHEMA_VERSION);
    (u "target",
     JObj [(u "id", JStr (value (TargetRegistry.target_id c)));
           (u "base_url", JStr (base_url c));
           (u "schema_version", JStr (TargetRegistry.target_schema_version c));
           (u "redirects_allowed", JBool (redirects_allowed c))]);
    (u "generated_test_case", material_test_case_payload t);
    (u "limits", limits_payload l);
    (u "estimate", estimate_payload e)])) with
    ((scalar_text (base_url c) && (scalar_text (TargetRegistry.target_schema_version c) && true)) &&
     (json_wf (material_test_case_payload t) && true)).
  by rewrite Hb, Hs, Hm.
Qed.
End build.

(** [t] under another display title. *)
Definition retitle (x : pystr) (t : GeneratedTestCaseV1) : GeneratedTestCaseV1 := {|
  GeneratedTests.id := GeneratedTests.id t; title := x; kind := kind t;
  source_finding_id := source_finding_id t; citation_ids := citation_ids t;
  request := request t; assertions := assertions t |}.

(** Two test cases that may only differ in their titles and in the order of
    the keys of their JSON bodies. *)
Definition same_executable (t1 t2 : GeneratedTestCaseV1) : Prop :=
  sorted_case (retitle (title t1) t1) = sorted_case (retitle (title t1) t2).

Section binding.
Context {rt : PyRuntime} {laws : PyRuntimeLaws rt}.

Lemma wf_retitle x t : text_ok x = true -> wf_test_case t = true ->
  wf_test_case (retitle x t) = true.
Proof. unfold wf_test_case. intros Hx H. bools. bool_goal; done. Qed.

Lemma sort_obj_retitle x t : exists d, material_case t = JObj d /\
  sort_obj (as_payload (retitle x t)) = d ++ [(u "title", JStr x)].
Proof. eexists. split; reflexivity. Qed.

Lemma material_case_inj t1 t2 : wf_test_case t1 = true -> wf_test_case t2 = true ->
  material_case t1 = material_case t2 -> same_executable t1 t2.
Proof.
  intros W1 W2 E. unfold same_executable. apply (inj (A := GeneratedTestCaseV1) Ok).
  assert (text_ok (title t1) = true) as Hx.
  { unfold wf_test_case in W1. by bools. }
  rewrite <- !validate_sorted_payload by by apply wf_retitle.
  destruct (sort_obj_retitle (title t1) t1) as (d1 & M1 & ->).
  destruct (sort_obj_retitle (title t1) t2) as (d2 & M2 & ->). f_equal. f_equal. congruence.
Qed.

Lemma limits_payload_inj l1 l2 :
  sort_keys (limits_payload l1) = sort_keys (limits_payload l2) -> l1 = l2.
Proof. destruct l1, l2. intros [=]. by subst. Qed.

Lemma estimate_payload_inj e1 e2 :
  sort_keys (estimate_payload e1) = sort_keys (estimate_payload e2) -> e1 = e2.
Proof. destruct e1, e2. intros [=]. by subst. Qed.

Lemma material_payload_inj c1 t1 l1 e1 c2 t2 l2 e2 :
  wf_test_case t1 = true -> wf_test_case t2 = true ->
  sort_keys (material_payload c1 t1 l1 e1) = sort_keys (material_payload c2 t2 l2 e2) ->
  c1 = c2 /\ same_executable t1 t2 /\ l1 = l2 /\ e1 = e2.
Proof.
  intros W1 W2. rewrite !sort_material. intros E.
  assert (material_case t1 = material_case t2) as Ec by congruence.
  pose proof (material_case_inj t1 t2 W1 W2 Ec).
  assert (sort_keys (limits_payload l1) = sort_keys (limits_payload l2))
    as El%limits_payload_inj by congruence.
  assert (sort_keys (estimate_payload e1) = sort_keys (estimate_payload e2))
    as Ee%estimate_payload_inj by congruence.
  repeat split; try done.
  assert (base_url c1 = base_url c2) by congruence.
  assert (redirects_allowed c1 = redirects_allowed c2) by congruence.
  assert (TargetRegistry.target_schema_version c1 = TargetRegistry.target_schema_version c2)
    by congruence.
  destruct c1 as [[] ? ? ?], c2 as [[] ? ? ?]. simpl in *. by subst.
Qed.
End binding.

Section plan_lemmas.
Context {rt : PyRuntime} {laws : PyRuntimeLaws rt}.

Lemma build_plan_ok registry id c t l :
  wf_test_case t = true -> case_json_wf t = true ->
  registry_get registry id = Ok c -> scalar_text (base_url c) = true ->
  scalar_text (TargetRegistry.target_schema_version c) = true ->
  limits_ok l -> zlen (assertions t) <= max_assertions l ->
  body_size t <= max_request_body_bytes l ->
  exists p, build_execution_plan t id l registry = Ok p /\
    plan_ok registry p (sorted_case t) c /\ limits p = l /\
    request_body_bytes (estimate p) = body_size t /\
    plan_sha256 (plan_hash_payload c t l (estimate p)) = Ok (plan_hash p).
Proof.
  intros Wt Jt Hc Sb Ss Hl Ha Hb. pose proof (registry_get_Ok _ _ _ Hc) as [_ Hid].
  pose proof (plan_estimate_within t l Jt Ha Hb) as He.
  pose proof (json_wf_material c t l _ Jt Sb Ss : json_wf (material_payload c t l
    {| request_count := 1; request_body_bytes := body_size t;
       assertion_count := zlen (assertions t);
       maximum_response_bytes := max_response_bytes l;
       maximum_duration_ms := request_timeout_ms l |}) = true) as Jm.
  unfold build_execution_plan, validated_test_case.
  rewrite (proj2 (try_except_refuse _ _ _ t) (validate_as_payload t Wt)), bind_ok.
  rewrite (proj2 (registered_target_Ok _ _ _) Hc), bind_ok.
  rewrite (proj2 (validated_limits_Ok _ l) (conj eq_refl Hl)), bind_ok, He, bind_ok.
  set (e := {| request_count := 1 |}) in *.
  unfold plan_sha256 at 1. unfold plan_hash_payload at 1.
  rewrite encode_canonical by done. cbn [fmap result_fmap]. rewrite bind_ok.
  set (h := sha256_hex _).
  match goal with |- context [validate_execution_plan ?p _] => set (plan := p) end.
  assert (plan_sha256 (plan_hash_payload c t l e) = Ok h) as Hh.
  { unfold plan_sha256, plan_hash_payload. by rewrite encode_canonical. }
  assert (plan_ok registry plan (sorted_case t) c) as Hok.
  { split; try done; cbn [plan target_id limits estimate plan_hash].
    - by apply test_case_from_canonical.
    - by apply wf_sorted_case.
    - by rewrite Hid.
    - by rewrite plan_estimate_sorted.
    - by rewrite plan_hash_payload_sorted. }
  exists plan. split; [|done]. apply validate_plan_iff. eauto.
Qed.

Lemma plan_estimate_Ok t l e : plan_estimate t l = Ok e ->
  request_count e = 1 /\ assertion_count e = zlen (assertions t) /\
  assertion_count e <= max_assertions l /\ 0 <= request_body_bytes e <= max_request_body_bytes l /\
  maximum_response_bytes e = max_response_bytes l /\ maximum_duration_ms e = request_timeout_ms l.
Proof.
  unfold plan_estimate. intros H. ok_inv. bools. cbn. repeat split; try lia.
  match goal with E : match json_body ?r with _ => _ end = Ok _ |- _ =>
    destruct (json_body r) end; ok_inv; [apply zlen_nonneg | lia].
Qed.
End plan_lemmas.

(** ** Properties *)

Section plan_properties.
Context {rt : PyRuntime} {laws : PyRuntimeLaws rt}.

(** Planning never refuses what it should accept: a valid test case
    within the limits, for a registered target, has a plan; validation
    accepts that plan, its snapshot reads back as the same test case with
    its body's keys in order, and its estimate is exact. *)
Theorem build_execution_plan_complete registry id c t l :
  wf_test_case t = true -> case_json_wf t = true ->
  registry_get registry id = Ok c -> scalar_text (base_url c) = true ->
  scalar_text (TargetRegistry.target_schema_version c) = true ->
  limits_ok l -> zlen (assertions t) <= max_assertions l ->
  body_size t <= max_request_body_bytes l ->
  exists p, build_execution_plan t id l registry = Ok p /\
    validate_execution_plan p registry = Ok p /\
    test_case p = Ok (sorted_case t) /\
    target_base_url p = base_url c /\ limits p = l /\
    estimate p = {| request_count := 1; request_body_bytes := body_size t;
                    assertion_count := zlen (assertions t);
                    maximum_response_bytes := max_response_bytes l;
                    maximum_duration_ms := request_timeout_ms l |}.
Proof.
  intros Wt Jt Hc Sb Ss Hl Ha Hb.
  destruct (build_plan_ok registry id c t l) as (p & Hp & Hok & Hlim & _); try done.
  exists p. split; [done|]. split; [apply validate_plan_iff; eauto|].
  pose proof (po_estimate _ _ _ _ Hok) as He. rewrite plan_estimate_sorted, Hlim in He by done.
  rewrite plan_estimate_within in He by done.
  repeat split; try done; try apply Hok. by injection He.
Qed.

(** Validation returns its plan unchanged, and only a plan whose
    snapshot is a valid test case, whose target configuration is the
    registered one, whose limits are in range, whose estimate is exact and
    within them, and whose hash and identifier are those of its material
    content. *)
Theorem validate_execution_plan_sound p q registry :
  validate_execution_plan p registry = Ok q ->
  q = p /\ exists t c,
    test_case p = Ok t /\ wf_test_case t = true /\ GeneratedTests.id t = test_case_id p /\
    registry_get registry (value (target_id p)) = Ok c /\ target_base_url p = base_url c /\
    limits_ok (limits p) /\
    request_count (estimate p) = 1 /\
    assertion_count (estimate p) = zlen (assertions t) /\
    1 <= assertion_count (estimate p) <= max_assertions (limits p) /\
    0 <= request_body_bytes (estimate p) <= max_request_body_bytes (limits p) /\
    plan_sha256 (plan_hash_payload c t (limits p) (estimate p)) = Ok (plan_hash p) /\
    id p = uuid5 EXECUTION_PLAN_NAMESPACE (plan_hash p).
Proof.
  intros [-> (t & c & Hok)]%validate_plan_iff. split; [done|]. exists t, c.
  pose proof (plan_estimate_Ok _ _ _ (po_estimate _ _ _ _ Hok)) as (H1 & H2 & H3 & H4 & _).
  destruct Hok. split_and!; try done; try lia.
  rewrite H2. assert (assertions t <> []) as Hne.
  { unfold wf_test_case in *. by bools. }
  destruct (assertions t); [done|]. unfold zlen. simpl. lia.
Qed.

(** C13: A plan hash binds everything material in a plan: two valid plans
    with the same hash have the same target configuration, limits,
    estimate and identifier and run the same test case (up to its display
    title and the order of its JSON keys), or their two canonical texts are
    a collision of SHA-256. The test cases and the targets are of scalar text:
    a surrogate pair and the character it encodes have the same canonical
    text. *)
Theorem plan_hash_binds r1 r2 p1 p2 t1 t2 c1 c2 :
  plan_ok r1 p1 t1 c1 -> plan_ok r2 p2 t2 c2 ->
  case_json_wf t1 = true -> case_json_wf t2 = true ->
  scalar_text (base_url c1) = true -> scalar_text (base_url c2) = true ->
  scalar_text (TargetRegistry.target_schema_version c1) = true ->
  scalar_text (TargetRegistry.target_schema_version c2) = true ->
  plan_hash p1 = plan_hash p2 ->
  let m1 := plan_hash_payload c1 t1 (limits p1) (estimate p1) in
  let m2 := plan_hash_payload c2 t2 (limits p2) (estimate p2) in
  (m1 <> m2 /\ sha256_hex m1 = sha256_hex m2) \/
  (c1 = c2 /\ same_executable t1 t2 /\ limits p1 = limits p2 /\
   estimate p1 = estimate p2 /\ id p1 = id p2).
Proof.
  intros O1 O2 J1 J2 B1 B2 S1 S2 Hh m1 m2.
  pose proof (json_wf_material c1 t1 (limits p1) (estimate p1) J1 B1 S1) as W1.
  pose proof (json_wf_material c2 t2 (limits p2) (estimate p2) J2 B2 S2) as W2.
  destruct (decide (m1 = m2)) as [E|Hne].
  - right. apply (dumps_canonical_inj _ _ W1 W2) in E.
    apply material_payload_inj in E; [|apply O1|apply O2].
    destruct E as (-> & ? & -> & ->). repeat split; try done.
    by rewrite (po_id _ _ _ _ O1), (po_id _ _ _ _ O2), Hh.
  - left. split; [done|].
    pose proof (po_hash _ _ _ _ O1) as H1. pose proof (po_hash _ _ _ _ O2) as H2.
    unfold plan_sha256, plan_hash_payload in H1, H2. rewrite encode_canonical in H1, H2 by done.
    apply (inj (A := pystr) Ok) in H1, H2. unfold m1, m2, plan_hash_payload. congruence.
Qed.
End plan_properties.

(** ** Witnesses *)

(** Why texts must be scalar: the two halves of a surrogate pair and the
    character they encode are printed alike. *)
Example surrogate_pair_printed_alike :
  dumps_canonical (JStr [55357; 56832]%N) = dumps_canonical (JStr [128512]%N).
Proof. vm_compute. reflexivity. Qed.

Lemma sample_plan_hypotheses :
  wf_test_case sample_case = true /\ case_json_wf sample_case = true /\
  registry_get DEFAULT_TARGET_REGISTRY (u "synthetic-order-api") = Ok sample_target /\
  scalar_text (base_url sample_target) = true /\
  scalar_text (TargetRegistry.target_schema_version sample_target) = true /\
  limits_ok DEFAULT_EXECUTION_LIMITS /\
  zlen (assertions sample_case) <= max_assertions DEFAULT_EXECUTION_LIMITS /\
  body_size sample_case <= max_request_body_bytes DEFAULT_EXECUTION_LIMITS.
Proof. split_and!; try reflexivity; try (vm_compute; intuition congruence). Qed.

Lemma build_execution_plan_complete_witness : exists p,
  build_execution_plan sample_case (u "synthetic-order-api") DEFAULT_EXECUTION_LIMITS
    DEFAULT_TARGET_REGISTRY = Ok p /\
  test_case p = Ok (sorted_case sample_case).
Proof.
  destruct sample_plan_hypotheses as (H1 & H2 & H3 & H4 & H5 & H6 & H7 & H8).
  destruct (build_execution_plan_complete DEFAULT_TARGET_REGISTRY (u "synthetic-order-api")
    sample_target sample_case DEFAULT_EXECUTION_LIMITS H1 H2 H3 H4 H5 H6 H7 H8)
    as (p & Hp & _ & Ht & _).
  exists p. split; [exact Hp | exact Ht].
Defined.

Lemma validate_execution_plan_sound_witness : exists p,
  validate_execution_plan p DEFAULT_TARGET_REGISTRY = Ok p /\ request_count (estimate p) = 1.
Proof.
  destruct sample_plan_hypotheses as (H1 & H2 & H3 & H4 & H5 & H6 & H7 & H8).
  destruct (build_plan_ok DEFAULT_TARGET_REGISTRY (u "synthetic-order-api")
    sample_target sample_case DEFAULT_EXECUTION_LIMITS H1 H2 H3 H4 H5 H6 H7 H8)
    as (p & _ & Hok & _).
  assert (validate_execution_plan p DEFAULT_TARGET_REGISTRY = Ok p) as Hv.
  { apply validate_plan_iff. eauto. }
  exists p. split; [exact Hv|].
  destruct (validate_execution_plan_sound p p DEFAULT_TARGET_REGISTRY Hv)
    as (_ & t & c & _ & _ & _ & _ & _ & _ & H & _). exact H.
Defined.

(** Two plans of one test case under two titles. *)
Lemma plan_hash_binds_witness : exists p1 p2,
  validate_execution_plan p1 DEFAULT_TARGET_REGISTRY = Ok p1 /\
  validate_execution_plan p2 DEFAULT_TARGET_REGISTRY = Ok p2 /\
  id p1 = id p2.
Proof.
  destruct sample_plan_hypotheses as (H1 & H2 & H3 & H4 & H5 & H6 & H7 & H8).
  set (t2 := retitle (u "Other") sample_case).
  destruct (build_plan_ok DEFAULT_TARGET_REGISTRY (u "synthetic-order-api")
    sample_target sample_case DEFAULT_EXECUTION_LIMITS H1 H2 H3 H4 H5 H6 H7 H8)
    as (p1 & _ & O1 & L1 & B1 & S1).
  destruct (build_plan_ok DEFAULT_TARGET_REGISTRY (u "synthetic-order-api")
    sample_target t2 DEFAULT_EXECUTION_LIMITS)
    as (p2 & _ & O2 & L2 & B2 & S2); try assumption; try reflexivity.
  assert (estimate p1 = estimate p2) as He.
  { pose proof (po_estimate _ _ _ _ O1) as E1. pose proof (po_estimate _ _ _ _ O2) as E2.
    rewrite L1 in E1. rewrite L2 in E2. apply (inj (A := ExecutionEstimateV1) Ok).
    rewrite <- E1, <- E2. reflexivity. }
  assert (plan_hash p1 = plan_hash p2) as Hh.
  { apply (inj (A := pystr) Ok). rewrite <- S1, <- S2, He. reflexivity. }
  exists p1, p2. split; [apply validate_plan_iff; eauto|]. split; [apply validate_plan_iff; eauto|].
  destruct (plan_hash_binds _ _ p1 p2 _ _ _ _ O1 O2) as [[Hne _]|(_ & _ & _ & _ & Hid)];
    try reflexivity; try assumption.
  exfalso. apply Hne. rewrite He, L1, L2. reflexivity.
Defined.
