(* ===== verification/Database.v ===== *)
(** * The execution tables ([documents.py])

    The rows of [execution_approvals], [execution_jobs] and
    [execution_results] with their constraints, and the statements the
    repositories send.  A timestamp column holds an instant in microseconds;
    a uuid primary key orders as the number it is.  A violated constraint
    raises [IntegrityError] and leaves the tables alone. *)
From S2P Require Import Prelude PyText Json Digest Effects.

(** ** Instants *)

(** A [datetime]: its wall clock and, when it is aware, its UTC offset. *)
Record datetime := { wall : Z; utcoffset : option Z }.
Abbreviation instant := Z.

(** [_utc_datetime]: a naive time is taken as UTC. *)
Definition utc_datetime (t : datetime) : instant :=
  match utcoffset t with None => wall t | Some offset => wall t - offset end.

(** ** Rows *)

Record ExecutionApprovalRecord := {
  ap_id : uuid;
  ap_project_id : uuid;
  ap_plan_id : uuid;
  ap_plan_hash : pystr;
  ap_plan_snapshot : pystr;
  ap_approver_id : pystr;
  ap_authentication_source : pystr;
  ap_comment : option pystr;
  ap_approved_at : instant;
  ap_expires_at : instant;
  ap_consumed_at : option instant;
}.

Inductive ExecutionJobState := QUEUED | RUNNING | CANCELLED | SUCCEEDED | FAILED.
#[export] Instance job_state_eq_dec : EqDecision ExecutionJobState.
Proof. solve_decision. Defined.

Record ExecutionJobRecord := {
  job_id : uuid;
  job_project_id : uuid;
  job_approval_id : uuid;
  job_plan_id : uuid;
  job_plan_hash : pystr;
  job_trace_id : option uuid;
  job_state : ExecutionJobState;
  job_created_at : instant;
  job_started_at : option instant;
  job_finished_at : option instant;
  job_cancel_requested_at : option instant;
  job_cancelled_at : option instant;
}.

Inductive ExecutionResultOutcome := RESULT_SUCCEEDED | RESULT_FAILED | RESULT_CANCELLED.
#[export] Instance result_outcome_eq_dec : EqDecision ExecutionResultOutcome.
Proof. solve_decision. Defined.

Record ExecutionResultRecord := {
  res_id : uuid;
  res_job_id : uuid;
  res_outcome : ExecutionResultOutcome;
  res_failure_code : option pystr;
  res_assertion_results : json;
  res_request_evidence : option json;
  res_response_evidence : option json;
  res_send_count : Z;
  res_recorded_at : instant;
}.

(** A successful claim of an approval, for the history. *)
Inductive event := Consumed (approval : uuid).

(** The tables.  [history] is a history variable: no statement reads it. *)
Record db := {
  projects : gset uuid;
  approvals : gmap uuid ExecutionApprovalRecord;
  jobs : gmap uuid ExecutionJobRecord;
  results : gmap uuid ExecutionResultRecord;
  history : list event;
}.

Definition with_approvals (d : db) (m : gmap uuid ExecutionApprovalRecord) : db := {|
  projects := projects d; approvals := m; jobs := jobs d; results := results d;
  history := history d |}.
Definition with_jobs (d : db) (m : gmap uuid ExecutionJobRecord) : db := {|
  projects := projects d; approvals := approvals d; jobs := m; results := results d;
  history := history d |}.
Definition with_results (d : db) (m : gmap uuid ExecutionResultRecord) : db := {|
  projects := projects d; approvals := approvals d; jobs := jobs d; results := m;
  history := history d |}.
Definition log_event (e : event) (d : db) : db := {|
  projects := projects d; approvals := approvals d; jobs := jobs d; results := results d;
  history := e :: history d |}.

(** ** Constraints *)

(** [length(trim(s)) > 0]: SQL trims spaces. *)
Definition not_blank (s : pystr) : bool := negb (forallb (N.eqb 32) s).

Definition approval_check (r : ExecutionApprovalRecord) : bool :=
  (zlen (ap_plan_hash r) =? 64) && not_blank (ap_plan_snapshot r) &&
  not_blank (ap_approver_id r) &&
  bool_decide (ap_authentication_source r ∈ [u "cognito"; u "local_bypass"]) &&
  (ap_approved_at r <? ap_expires_at r) &&
  match ap_consumed_at r with None => true | Some t => ap_approved_at r <=? t end.

Definition is_null {A} (o : option A) : bool := match o with None => true | _ => false end.

Definition job_check (r : ExecutionJobRecord) : bool :=
  (zlen (job_plan_hash r) =? 64) &&
  match job_state r with
  | QUEUED =>
      is_null (job_started_at r) && is_null (job_finished_at r) && is_null (job_cancelled_at r)
  | RUNNING =>
      negb (is_null (job_started_at r)) && is_null (job_finished_at r) &&
      is_null (job_cancelled_at r)
  | SUCCEEDED | FAILED =>
      negb (is_null (job_started_at r)) && negb (is_null (job_finished_at r)) &&
      is_null (job_cancelled_at r)
  | CANCELLED => is_null (job_finished_at r) && negb (is_null (job_cancelled_at r))
  end.

Definition result_check (r : ExecutionResultRecord) : bool :=
  (0 <=? res_send_count r) && (res_send_count r <=? 1) &&
  match res_outcome r with
  | RESULT_SUCCEEDED => is_null (res_failure_code r)
  | _ => match res_failure_code r with Some code => not_blank code | None => false end
  end.

(** No row of the table satisfies [p]. *)
Definition no_row {R} (p : R -> bool) (m : gmap uuid R) : bool :=
  forallb (fun kv => negb (p kv.2)) (map_to_list m).

(** ** Statements *)

(** The rows that satisfy [p], in no particular order. *)
Definition select {R} (p : R -> bool) (m : gmap uuid R) : list R :=
  List.filter p (map_to_list m).*2.

(** [scalar_one_or_none()] *)
Definition scalar_one_or_none {R} (rows : list R) : result (option R) :=
  match rows with
  | [] => Ok None
  | [r] => Ok (Some r)
  | _ => raise SQLAlchemyError "Multiple rows were found when one or none was required"
  end.

Definition insert_approval (r : ExecutionApprovalRecord) (d : db) : result db :=
  raise_if (negb (approval_check r) || negb (bool_decide (ap_project_id r ∈ projects d)) ||
            negb (is_null (approvals d !! ap_id r)) ||
            negb (no_row (fun o => (ap_project_id o =? ap_project_id r)%N &&
                                   (ap_plan_id o =? ap_plan_id r)%N) (approvals d)) ||
            negb (no_row (fun o => (ap_project_id o =? ap_project_id r)%N &&
                                   str_eqb (ap_plan_hash o) (ap_plan_hash r)) (approvals d)))
    IntegrityError "execution_approvals" ;;
  Ok (with_approvals d (<[ap_id r := r]> (approvals d))).

Definition insert_job (r : ExecutionJobRecord) (d : db) : result db :=
  raise_if (negb (job_check r) || negb (bool_decide (job_project_id r ∈ projects d)) ||
            is_null (approvals d !! job_approval_id r) || negb (is_null (jobs d !! job_id r)) ||
            negb (no_row (fun o => (job_approval_id o =? job_approval_id r)%N) (jobs d)))
    IntegrityError "execution_jobs" ;;
  Ok (with_jobs d (<[job_id r := r]> (jobs d))).

Definition insert_result (r : ExecutionResultRecord) (d : db) : result db :=
  raise_if (negb (result_check r) || is_null (jobs d !! res_job_id r) ||
            negb (is_null (results d !! res_id r)) ||
            negb (no_row (fun o => (res_job_id o =? res_job_id r)%N) (results d)))
    IntegrityError "execution_results" ;;
  Ok (with_results d (<[res_id r := r]> (results d))).

(** The new version of a job row, under its primary key. *)
Definition update_job (r : ExecutionJobRecord) (d : db) : result db :=
  raise_if (negb (job_check r)) IntegrityError "execution_jobs" ;;
  Ok (with_jobs d (<[job_id r := r]> (jobs d))).

Definition set_consumed (t : instant) (r : ExecutionApprovalRecord) : ExecutionApprovalRecord := {|
  ap_id := ap_id r; ap_project_id := ap_project_id r; ap_plan_id := ap_plan_id r;
  ap_plan_hash := ap_plan_hash r; ap_plan_snapshot := ap_plan_snapshot r;
  ap_approver_id := ap_approver_id r;
  ap_authentication_source := ap_authentication_source r; ap_comment := ap_comment r;
  ap_approved_at := ap_approved_at r; ap_expires_at := ap_expires_at r;
  ap_consumed_at := Some t |}.

(** [UPDATE execution_approvals SET consumed_at = now WHERE id = id AND
    consumed_at IS NULL AND expires_at > now RETURNING id]: whether a row was
    updated, and the tables after it. *)
Definition consume_update (id : uuid) (now : instant) (d : db) : result (bool * db) :=
  match approvals d !! id with
  | Some r =>
      if is_null (ap_consumed_at r) && (now <? ap_expires_at r) then
        let r' := set_consumed now r in
        raise_if (negb (approval_check r')) IntegrityError "execution_approvals" ;;
        Ok (true, with_approvals d (<[id := r']> (approvals d)))
      else Ok (false, d)
  | None => Ok (false, d)
  end.

(** A statement of one session: the database may fail it. *)
Definition statement {S A} (fault : bool) (f : S -> result (A * S)) : io S A := fun d =>
  if fault then (raise SQLAlchemyError "database failure", d)
  else match f d with
       | Ok (a, d') => (Ok a, d')
       | Raise e => (Raise e, d)
       end.

(** A reading statement. *)
Definition query {S A} (fault : bool) (f : S -> result A) : io S A :=
  statement fault (fun d => a ← f d; Ok (a, d)).

(** A writing statement. *)
Definition execute {S} (fault : bool) (f : S -> result S) : io S unit :=
  statement fault (fun d => d ← f d; Ok (tt, d)).

(** What other sessions commit between two statements of this one. *)
Definition interleave {S} (others : S -> S) : io S unit := fun d => (Ok tt, others d).
