(* ===== verification/DatabaseFacts.v ===== *)
(** * Facts about the execution tables

    The invariant of the tables ([wf_db]), how they may change over time
    ([evolves]), and that every statement keeps the one and is an instance of
    the other. *)
From S2P Require Import Prelude PyText Json Digest Effects Database.

(** ** Reading *)

Section rows.
Context {R : Type}.
Implicit Types (m : gmap uuid R) (p : R -> bool).

Lemma elem_of_select p m r : r ∈ select p m <-> p r = true /\ exists i, m !! i = Some r.
Proof.
  unfold select. rewrite list_elem_of_In, List.filter_In, <- list_elem_of_In.
  rewrite list_elem_of_fmap. split.
  - intros [([i r'] & -> & Hin%elem_of_map_to_list) Hp]. eauto.
  - intros [Hp [i Hi%elem_of_map_to_list]]. split; [|done]. by exists (i, r).
Qed.

Lemma no_row_true p m : no_row p m = true <-> forall i r, m !! i = Some r -> p r = false.
Proof.
  unfold no_row. rewrite forallb_Forall, Forall_forall. split.
  - intros H i r Hi%elem_of_map_to_list. by apply H, negb_true_iff in Hi.
  - intros H [i r] Hi%elem_of_map_to_list. apply negb_true_iff. by eapply H.
Qed.

Lemma scalar_one_Some (rows : list R) r : scalar_one_or_none rows = Ok (Some r) -> r ∈ rows.
Proof. destruct rows as [|a [|]]; intros [=]; subst. left. Qed.

Lemma scalar_one_None (rows : list R) : scalar_one_or_none rows = Ok None -> rows = [].
Proof. by destruct rows as [|a [|]]. Qed.

Lemma select_nodup p m (key : R -> uuid) : (forall i r, m !! i = Some r -> key r = i) ->
  NoDup (select p m).
Proof.
  intros Hk. unfold select.
  assert (NoDup (map_to_list m).*2) as Hnd.
  { apply NoDup_fmap_2_strong; [|apply NoDup_map_to_list].
    intros [i r] [j r'] Hi%elem_of_map_to_list Hj%elem_of_map_to_list; simpl; intros ->.
    apply Hk in Hi, Hj. by subst. }
  induction Hnd as [|r l Hr _ IH]; simpl; [constructor|]. destruct (p r); [|done].
  constructor; [|done]. intros Hin. apply Hr.
  by apply list_elem_of_In, List.filter_In in Hin as [Hin%list_elem_of_In _].
Qed.

(** A selection that determines the primary key finds at most one row. *)
Lemma select_unique p m (key : R -> uuid) :
  (forall i r, m !! i = Some r -> key r = i) ->
  (forall i j r s, m !! i = Some r -> m !! j = Some s -> p r = true -> p s = true -> i = j) ->
  select p m = [] \/ exists r, select p m = [r] /\ p r = true /\ m !! key r = Some r.
Proof.
  intros Hk Hu. pose proof (select_nodup p m key Hk) as Hnd.
  destruct (select p m) as [|r l] eqn:E; [by left|right]. exists r.
  assert (r ∈ select p m) as Hr by (rewrite E; left).
  apply elem_of_select in Hr as [Hpr [i Hi]]. pose proof (Hk _ _ Hi) as Hki.
  split; [|by rewrite Hki]. destruct l as [|s l]; [done|]. exfalso.
  assert (s ∈ select p m) as Hs by (rewrite E; right; left).
  apply elem_of_select in Hs as [Hps [j Hj]]. pose proof (Hu _ _ _ _ Hi Hj Hpr Hps). subst j.
  apply NoDup_cons in Hnd as [Hni _]. apply Hni. simplify_eq. left.
Qed.

Lemma scalar_select p m (key : R -> uuid) :
  (forall i r, m !! i = Some r -> key r = i) ->
  (forall i j r s, m !! i = Some r -> m !! j = Some s -> p r = true -> p s = true -> i = j) ->
  (scalar_one_or_none (select p m) = Ok None /\ forall i r, m !! i = Some r -> p r = false) \/
  exists r, scalar_one_or_none (select p m) = Ok (Some r) /\ p r = true /\ m !! key r = Some r.
Proof.
  intros Hk Hu. destruct (select_unique p m key Hk Hu) as [E|(r & E & Hp & Hr)]; rewrite E.
  - left. split; [done|]. intros i r Hi. destruct (p r) eqn:Hp; [|done]. exfalso.
    assert (r ∈ select p m) as H by (apply elem_of_select; eauto).
    rewrite E in H. by apply not_elem_of_nil in H.
  - right. eauto.
Qed.

(** The one row that satisfies [p]. *)
Lemma select_by_key p m (key : R -> uuid) i r :
  (forall i r, m !! i = Some r -> key r = i) -> m !! i = Some r -> p r = true ->
  (forall j s, m !! j = Some s -> p s = true -> j = i) ->
  scalar_one_or_none (select p m) = Ok (Some r).
Proof.
  intros Hk Hr Hp Hs.
  destruct (scalar_select p m key Hk) as [[_ Hno]|(s & E & Hps & Hms)].
  - intros a b x y Ha Hb Hx Hy. rewrite (Hs _ _ Ha Hx), (Hs _ _ Hb Hy). done.
  - by rewrite (Hno _ _ Hr) in Hp.
  - rewrite E. rewrite (Hs _ _ Hms Hps) in Hms. congruence.
Qed.
End rows.

(** ** The invariant *)

(** The terminal state of a job whose result has this outcome. *)
Definition outcome_state (o : ExecutionResultOutcome) : ExecutionJobState :=
  match o with
  | RESULT_SUCCEEDED => SUCCEEDED | RESULT_FAILED => FAILED | RESULT_CANCELLED => CANCELLED
  end.

(** The job has been claimed: its approval was consumed when it started. *)
Definition claimed (d : db) (j : ExecutionJobRecord) : Prop :=
  exists t a, job_started_at j = Some t /\ approvals d !! job_approval_id j = Some a /\
              ap_consumed_at a = Some t.

Record wf_db (d : db) : Prop := {
  wf_approval : forall i r, approvals d !! i = Some r -> ap_id r = i /\ approval_check r = true;
  (** one approval per plan, and per plan hash, of a project *)
  wf_plan_once : forall i j r s, approvals d !! i = Some r -> approvals d !! j = Some s ->
    ap_project_id r = ap_project_id s ->
    ap_plan_id r = ap_plan_id s \/ ap_plan_hash r = ap_plan_hash s -> i = j;
  wf_job : forall i r, jobs d !! i = Some r -> job_id r = i /\ job_check r = true;
  wf_job_approval : forall i r, jobs d !! i = Some r -> is_Some (approvals d !! job_approval_id r);
  (** one job per approval *)
  wf_job_once : forall i j r s, jobs d !! i = Some r -> jobs d !! j = Some s ->
    job_approval_id r = job_approval_id s -> i = j;
  wf_running : forall i r, jobs d !! i = Some r -> job_state r = RUNNING -> claimed d r;
  wf_result : forall i r, results d !! i = Some r -> res_id r = i /\ result_check r = true;
  (** one result per job *)
  wf_result_once : forall i j r s, results d !! i = Some r -> results d !! j = Some s ->
    res_job_id r = res_job_id s -> i = j;
  (** a result belongs to a claimed job in the terminal state of its outcome *)
  wf_result_job : forall i r, results d !! i = Some r ->
    exists j, jobs d !! res_job_id r = Some j /\ job_state j = outcome_state (res_outcome r) /\
              claimed d j;
  (** success is on record *)
  wf_succeeded : forall i r, jobs d !! i = Some r -> job_state r = SUCCEEDED ->
    exists k s, results d !! k = Some s /\ res_job_id s = i;
  (** the history: approvals consumed so far, each once *)
  wf_history : NoDup (history d) /\
    forall a, Consumed a ∈ history d ->
      exists r, approvals d !! a = Some r /\ is_null (ap_consumed_at r) = false;
}.

(** ** Evolution *)

(** An approval row over time: everything is immutable but [consumed_at],
    which is set once. *)
Definition approval_evolves (r s : ExecutionApprovalRecord) : Prop :=
  s = r \/ (ap_consumed_at r = None /\ exists t, s = set_consumed t r).

(** The lifecycle of a job. *)
Inductive job_step : ExecutionJobState -> ExecutionJobState -> Prop :=
  | step_claim : job_step QUEUED RUNNING
  | step_preflight : job_step QUEUED FAILED
  | step_cancel : job_step QUEUED CANCELLED
  | step_finish o : job_step RUNNING (outcome_state o).

Definition terminal (s : ExecutionJobState) : bool :=
  match s with SUCCEEDED | FAILED | CANCELLED => true | _ => false end.

Lemma terminal_no_step s s' : terminal s = true -> ~ job_step s s'.
Proof. destruct s; intros H Hs; inversion Hs; done. Qed.

(** The immutable columns of a job. *)
Definition same_job (r s : ExecutionJobRecord) : Prop :=
  job_id s = job_id r /\ job_project_id s = job_project_id r /\
  job_approval_id s = job_approval_id r /\ job_plan_id s = job_plan_id r /\
  job_plan_hash s = job_plan_hash r /\ job_trace_id s = job_trace_id r /\
  job_created_at s = job_created_at r.

Definition job_evolves (r s : ExecutionJobRecord) : Prop :=
  s = r \/ (same_job r s /\ tc job_step (job_state r) (job_state s)).

(** [m'] keeps the rows of [m], each changed along [E]. *)
Definition rows_evolve {R} (E : R -> R -> Prop) (m m' : gmap uuid R) : Prop :=
  forall i r, m !! i = Some r -> exists s, m' !! i = Some s /\ E r s.

Record evolves (d d' : db) : Prop := {
  ev_projects : projects d' = projects d;
  ev_approvals : rows_evolve approval_evolves (approvals d) (approvals d');
  ev_jobs : rows_evolve job_evolves (jobs d) (jobs d');
  ev_results : rows_evolve eq (results d) (results d');
}.

#[export] Instance approval_evolves_trans : Transitive approval_evolves.
Proof.
  intros r s t [->|[Hr [x ->]]] [->|[Hs [y ->]]]; try (by left); right; eauto.
Qed.

#[export] Instance same_job_trans : Transitive same_job.
Proof. intros r s t H1 H2. unfold same_job in *. destruct_and?. split_and!; congruence. Qed.

#[export] Instance job_evolves_trans : Transitive job_evolves.
Proof.
  intros r s t [->|[Hr Hrs]] [->|[Hs Hst]]; try (by left); try (by right).
  right. split; [by transitivity s | by eapply tc_transitive].
Qed.

Lemma rows_evolve_refl {R} (E : R -> R -> Prop) (m : gmap uuid R) :
  (forall r, E r r) -> rows_evolve E m m.
Proof. intros HE i r Hi. eauto. Qed.

Lemma rows_evolve_trans {R} (E : R -> R -> Prop) `{!Transitive E} (m1 m2 m3 : gmap uuid R) :
  rows_evolve E m1 m2 -> rows_evolve E m2 m3 -> rows_evolve E m1 m3.
Proof.
  intros H1 H2 i r Hi. apply H1 in Hi as (s & Hs & E1). apply H2 in Hs as (t & Ht & E2).
  exists t. split; [done | by transitivity s].
Qed.

(** A row added or changed. *)
Lemma rows_evolve_insert {R} (E : R -> R -> Prop) (m : gmap uuid R) i r :
  (forall x, E x x) -> (forall o, m !! i = Some o -> E o r) -> rows_evolve E m (<[i := r]> m).
Proof.
  intros HE Hr j o Hj. destruct (decide (i = j)) as [<-|Hne].
  - rewrite lookup_insert_eq. eauto.
  - rewrite lookup_insert_ne by done. eauto.
Qed.

#[export] Instance evolves_refl : Reflexive evolves.
Proof. intros d. split; [done | | |]; apply rows_evolve_refl; intros; [by left | by left | done]. Qed.

#[export] Instance evolves_trans : Transitive evolves.
Proof.
  intros d1 d2 d3 [P1 A1 J1 R1] [P2 A2 J2 R2]. split.
  - congruence.
  - eapply rows_evolve_trans; [apply _|done..].
  - eapply rows_evolve_trans; [apply _|done..].
  - eapply rows_evolve_trans; [apply _|done..].
Qed.

(** A consumed approval stays as it is. *)
Lemma approval_evolves_consumed r s t :
  approval_evolves r s -> ap_consumed_at r = Some t -> s = r.
Proof. intros [->|[Hr _]] Ht; [done | congruence]. Qed.

Lemma claimed_evolves d d' j : evolves d d' -> claimed d j -> claimed d' j.
Proof.
  intros Hd (t & a & Hs & Ha & Hc). apply (ev_approvals _ _ Hd) in Ha as (a' & Ha & E).
  apply approval_evolves_consumed with (t := t) in E; [|done]. subst a'. exists t, a. auto.
Qed.

(** ** Statements keep the invariant *)

(** Whose rows a session leaves alone: the jobs it does not hold. *)
Definition leaves_alone (L : gset uuid) (d d' : db) : Prop :=
  forall i, i ∈ L -> jobs d' !! i = jobs d !! i.

(** What a statement, an operation or a whole run does to the tables. *)
Definition sound_change (L : gset uuid) (d d' : db) : Prop :=
  wf_db d' /\ evolves d d' /\ leaves_alone L d d'.

Lemma sound_refl L d : wf_db d -> sound_change L d d.
Proof. done. Qed.

Lemma sound_trans L d1 d2 d3 :
  sound_change L d1 d2 -> (wf_db d2 -> sound_change L d2 d3) -> sound_change L d1 d3.
Proof.
  intros (W2 & E12 & L12) H. destruct (H W2) as (W3 & E23 & L23).
  split_and!; [done | by transitivity d2 |]. intros i Hi. by rewrite L23, L12.
Qed.

Section statements.
Context (d : db) (Hd : wf_db d).

(** The rows of a table after one of them is written. *)
Lemma insert_cases {R} (m : gmap uuid R) i r j s :
  <[i := r]> m !! j = Some s -> (j = i /\ s = r) \/ (j <> i /\ m !! j = Some s).
Proof.
  intros [[<- <-]|[Hne Hj]]%lookup_insert_Some; [by left | right; split; congruence].
Qed.

(** A fresh approval. *)
Lemma insert_approval_sound L r d' : ap_consumed_at r = None ->
  insert_approval r d = Ok d' -> sound_change L d d'.
Proof.
  unfold insert_approval. intros Hnc H. ok_inv. bools.
  lazymatch goal with E1 : no_row _ _ = true, E2 : no_row _ _ = true |- _ =>
    rewrite no_row_true in E1, E2; rename E1 into N1; rename E2 into N2 end.
  assert (approvals d !! ap_id r = None) as Hfresh by by destruct (approvals d !! ap_id r).
  assert (forall i s, approvals d !! i = Some s -> ap_project_id s = ap_project_id r ->
            ap_plan_id s <> ap_plan_id r /\ ap_plan_hash s <> ap_plan_hash r) as Hun.
  { intros i s Hi Hp. specialize (N1 i s Hi). specialize (N2 i s Hi).
    cbn beta in N1, N2. rewrite Hp, N.eqb_refl in N1, N2. simpl in N1, N2. bools.
    rewrite str_eqb_neq in *. done. }
  assert (forall i s, approvals d !! i = Some s ->
    approvals (with_approvals d (<[ap_id r := r]> (approvals d))) !! i = Some s) as Hkeep.
  { intros i s Hi. cbn. rewrite lookup_insert_ne; [done|congruence]. }
  assert (forall j, claimed d j -> claimed (with_approvals d (<[ap_id r := r]> (approvals d))) j) as Hcl.
  { intros j (t & a & ? & ? & ?). exists t, a. auto. }
  split; [|split].
  - destruct Hd. split; cbn [with_approvals approvals jobs results history]; try done.
    + intros i s [[-> ->]|[_ Hi]]%insert_cases; [done|eauto].
    + intros i j s t [[-> ->]|[Hni Hi]]%insert_cases [[-> ->]|[Hnj Hj]]%insert_cases Hp Hq; try done.
      * exfalso. destruct (Hun j t Hj); [congruence|]. destruct Hq; congruence.
      * exfalso. destruct (Hun i s Hi); [congruence|]. destruct Hq; congruence.
      * eauto.
    + intros i s Hi. destruct (wf_job_approval0 i s Hi) as [a Ha]. exists a. by apply Hkeep.
    + intros i s Hi Hs. eauto.
    + intros i s Hi. destruct (wf_result_job0 i s Hi) as (j & Hj & Hs & Hc). eauto.
    + destruct wf_history0 as [Hn Hh]. split; [done|]. intros a Ha.
      destruct (Hh a Ha) as (s & Hs & Hsc). exists s. split; [by apply Hkeep | done].
  - split; cbn; try done; try (apply rows_evolve_refl; intros; by left).
    + apply rows_evolve_insert; [by left|congruence].
    + by apply rows_evolve_refl.
  - done.
Qed.

(** A fresh job: queued, for an existing approval without a job. *)
Lemma insert_job_sound L r d' : job_state r = QUEUED ->
  insert_job r d = Ok d' -> (forall i, i ∈ L -> is_Some (jobs d !! i)) -> sound_change L d d'.
Proof.
  unfold insert_job. intros Hq H HL. ok_inv. bools.
  match goal with E : no_row _ _ = true |- _ => rewrite no_row_true in E; rename E into N1 end.
  assert (jobs d !! job_id r = None) as Hfresh by by destruct (jobs d !! job_id r).
  assert (is_Some (approvals d !! job_approval_id r)) as Ha
    by by destruct (approvals d !! job_approval_id r).
  assert (forall i s, jobs d !! i = Some s -> job_approval_id s <> job_approval_id r) as Hun.
  { intros i s Hi. specialize (N1 i s Hi). cbn beta in N1. by bools. }
  assert (forall i s, jobs d !! i = Some s -> <[job_id r := r]> (jobs d) !! i = Some s) as Hkeep.
  { intros i s Hi. rewrite lookup_insert_ne; [done|congruence]. }
  split; [|split].
  - destruct Hd. split; cbn [with_jobs approvals jobs results history]; try done.
    + intros i s [[-> ->]|[_ Hi]]%insert_cases; [done|eauto].
    + intros i s [[-> ->]|[_ Hi]]%insert_cases; [done|eauto].
    + intros i j s t [[-> ->]|[Hni Hi]]%insert_cases [[-> ->]|[Hnj Hj]]%insert_cases Hq'; try done.
      * exfalso. by eapply Hun.
      * exfalso. by eapply Hun.
      * eauto.
    + intros i s [[-> ->]|[_ Hi]]%insert_cases Hs; [congruence|]. by eapply wf_running0.
    + intros i s Hi. destruct (wf_result_job0 i s Hi) as (j & Hj & Hs & Hc). eauto 6.
    + intros i s [[-> ->]|[_ Hi]]%insert_cases Hs; [congruence|eauto].
  - split; cbn; try done; try (apply rows_evolve_refl; intros; by left).
    + apply rows_evolve_insert; [by left|congruence].
    + by apply rows_evolve_refl.
  - intros i Hi. cbn. rewrite lookup_insert_ne; [done|]. intros <-.
    destruct (HL _ Hi) as [? ?]. congruence.
Qed.

(** A step of a job's lifecycle that needs no result. *)
Lemma update_job_sound L o r d' :
  jobs d !! job_id o = Some o -> same_job o r -> job_step (job_state o) (job_state r) ->
  job_state r <> SUCCEEDED -> (job_state r = RUNNING -> claimed d r) -> job_id r ∉ L ->
  update_job r d = Ok d' -> sound_change L d d'.
Proof.
  unfold update_job. intros Ho Hsame Hstep Hns Hrun HL H. ok_inv. bools.
  assert (job_id r = job_id o) as Hid by apply Hsame.
  assert (job_approval_id r = job_approval_id o) as Hap by apply Hsame.
  rewrite <- Hid in Ho.
  assert (forall k s, results d !! k = Some s -> res_job_id s <> job_id r) as Hnores.
  { intros k s Hk Heq. destruct (wf_result_job _ Hd k s Hk) as (j & Hj & Hst & _).
    rewrite Heq, Ho in Hj. simplify_eq. apply (terminal_no_step _ _) in Hstep; [done|].
    rewrite Hst. by destruct (res_outcome s). }
  split; [|split].
  - destruct Hd. split; cbn [with_jobs approvals jobs results history]; try done.
    + intros i s [[-> ->]|[_ Hi]]%insert_cases; [done|eauto].
    + intros i s [[-> ->]|[_ Hi]]%insert_cases; [rewrite Hap|]; eauto.
    + intros i j s t [[-> ->]|[Hni Hi]]%insert_cases [[-> ->]|[Hnj Hj]]%insert_cases Hq'; try done.
      * rewrite Hap in Hq'. by eapply wf_job_once0.
      * rewrite Hap in Hq'. by eapply wf_job_once0.
      * eauto.
    + intros i s [[-> ->]|[_ Hi]]%insert_cases Hs; [by apply Hrun|]. by eapply wf_running0.
    + intros i s Hi. destruct (wf_result_job0 i s Hi) as (j & Hj & Hs & Hc). exists j.
      split; [|done]. rewrite lookup_insert_ne; [done|]. intros Heq. by eapply Hnores.
    + intros i s [[-> ->]|[_ Hi]]%insert_cases Hs; [done|eauto].
  - split; cbn; try done; try (apply rows_evolve_refl; intros; by left).
    + apply rows_evolve_insert; [by left|]. intros o' Ho'. simplify_eq. right.
      split; [done | by apply tc_once].
    + by apply rows_evolve_refl.
  - intros i Hi. cbn. rewrite lookup_insert_ne; [done|]. by intros <-.
Qed.

(** The conditional update of an approval. *)
Lemma consume_update_sound L id now b d' : consume_update id now d = Ok (b, d') ->
  sound_change L d d' /\ jobs d' = jobs d /\ history d' = history d /\
  (b = false -> d' = d) /\
  (b = true -> exists r, approvals d !! id = Some r /\ ap_consumed_at r = None /\
                now < ap_expires_at r /\ approvals d' !! id = Some (set_consumed now r)).
Proof.
  unfold consume_update. destruct (approvals d !! id) as [r|] eqn:Hr.
  2:{ intros [= <- <-]. by split_and!. }
  destruct (is_null (ap_consumed_at r) && (now <? ap_expires_at r)) eqn:Hg.
  2:{ intros [= <- <-]. by split_and!. }
  intros H. apply bind_Ok in H as ([] & Hchk & [= <- <-]). apply raise_if_Ok in Hchk. bools.
  destruct (ap_consumed_at r) as [|] eqn:Hc; [done|].
  split_and!; try done.
  2:{ intros _. exists r. split_and!; try done. cbn. by rewrite lookup_insert_eq. }
  assert (forall j, claimed d j ->
    claimed (with_approvals d (<[id := set_consumed now r]> (approvals d))) j) as Hcl.
  { intros j (t & a & Hs & Ha & Hca). exists t, a. split_and!; try done. cbn.
    rewrite lookup_insert_ne; [done|]. congruence. }
  split; [|split; [|done]].
  - destruct Hd. destruct (wf_approval0 id r Hr) as [Hid Hck].
    split; cbn [with_approvals approvals jobs results history]; try done.
    + intros i s [[-> ->]|[_ Hi]]%insert_cases; [done|eauto].
    + intros i j s t [[-> ->]|[Hni Hi]]%insert_cases [[-> ->]|[Hnj Hj]]%insert_cases; cbn;
        intros Hp Hq; try done; by eapply wf_plan_once0.
    + intros i s Hi. destruct (wf_job_approval0 i s Hi) as [a Ha].
      destruct (decide (job_approval_id s = id)) as [->|];
        [rewrite lookup_insert_eq | rewrite lookup_insert_ne by congruence]; eauto.
    + eauto.
    + intros i s Hi. destruct (wf_result_job0 i s Hi) as (j & Hj & Hs & Hcj). eauto.
    + destruct wf_history0 as [Hn Hh]. split; [done|]. intros a Ha.
      destruct (Hh a Ha) as (s & Hs & Hsc). destruct (decide (a = id)) as [->|Hne].
      * rewrite lookup_insert_eq. by eexists.
      * rewrite lookup_insert_ne by done. eauto.
  - split; cbn; try done; try (apply rows_evolve_refl; intros; by left).
    + apply rows_evolve_insert; [by left|]. intros o Ho. simplify_eq. right. eauto.
    + by apply rows_evolve_refl.
Qed.

(** Completing a running job together with its result. *)
Lemma finish_sound L o r res d1 d' :
  jobs d !! job_id o = Some o -> same_job o r -> job_state o = RUNNING ->
  job_state r = outcome_state (res_outcome res) -> job_started_at r = job_started_at o ->
  res_job_id res = job_id o -> job_id o ∉ L ->
  update_job r d = Ok d1 -> insert_result res d1 = Ok d' -> sound_change L d d'.
Proof.
  unfold update_job, insert_result. intros Ho Hsame Hrun Hst Hsa Hrj HL H1 H2. ok_inv. bools.
  match goal with E : no_row _ _ = true |- _ => rewrite no_row_true in E; rename E into N1 end.
  cbn [with_jobs results jobs] in *.
  assert (job_id r = job_id o) as Hid by apply Hsame.
  assert (job_approval_id r = job_approval_id o) as Hap by apply Hsame.
  assert (results d !! res_id res = None) as Hfresh by by destruct (results d !! res_id res).
  assert (claimed d r) as Hcl.
  { destruct (wf_running _ Hd _ _ Ho Hrun) as (t & a & Ht & Ha & Hc). exists t, a.
    split_and!; [congruence | by rewrite Hap | done]. }
  rewrite <- Hid in Ho.
  assert (forall k s, results d !! k = Some s -> res_job_id s <> job_id r) as Hun.
  { intros k s Hk. specialize (N1 k s Hk). cbn beta in N1. bools. congruence. }
  split; [|split].
  - destruct Hd. split; cbn [with_jobs with_results approvals jobs results history]; try done.
    + intros i s [[-> ->]|[_ Hi]]%insert_cases; [done|eauto].
    + intros i s [[-> ->]|[_ Hi]]%insert_cases; [rewrite Hap|]; eauto.
    + intros i j s t [[-> ->]|[Hni Hi]]%insert_cases [[-> ->]|[Hnj Hj]]%insert_cases Hq'; try done.
      * rewrite Hap in Hq'. by eapply wf_job_once0.
      * rewrite Hap in Hq'. by eapply wf_job_once0.
      * eauto.
    + intros i s [[-> ->]|[_ Hi]]%insert_cases Hs; [done|]. by eapply wf_running0.
    + intros i s [[-> ->]|[_ Hi]]%insert_cases; [done|eauto].
    + intros i j s t [[-> ->]|[Hni Hi]]%insert_cases [[-> ->]|[Hnj Hj]]%insert_cases Hq'; try done.
      * exfalso. eapply Hun; [exact Hj|congruence].
      * exfalso. eapply Hun; [exact Hi|congruence].
      * eauto.
    + intros i s [[-> ->]|[_ Hi]]%insert_cases.
      * exists r. rewrite Hrj, <- Hid, lookup_insert_eq. auto.
      * destruct (wf_result_job0 i s Hi) as (j & Hj & Hs & Hc). exists j.
        split; [|done]. rewrite lookup_insert_ne; [done|]. intros Heq. by eapply Hun.
    + intros i s [[-> ->]|[_ Hi]]%insert_cases Hs.
      * exists (res_id res), res. rewrite lookup_insert_eq. split; [done|congruence].
      * destruct (wf_succeeded0 i s Hi Hs) as (k & t & Hk & Ht). exists k, t.
        rewrite lookup_insert_ne; [done|congruence].
  - split; cbn; try done; try (apply rows_evolve_refl; intros; by left).
    + apply rows_evolve_insert; [by left|]. intros o' Ho'. simplify_eq. right.
      split; [done | apply tc_once]. rewrite Hst, Hrun. constructor.
    + apply rows_evolve_insert; [done|congruence].
  - intros i Hi. cbn. rewrite lookup_insert_ne; [done|]. intros <-. by rewrite Hid in Hi.
Qed.
End statements.

(** Logging the consumption of an approval that was not in the history. *)
Lemma log_sound L d a r : wf_db d -> approvals d !! a = Some r ->
  is_null (ap_consumed_at r) = false -> Consumed a ∉ history d ->
  sound_change L d (log_event (Consumed a) d).
Proof.
  intros Hd Ha Hc Hn. split; [|split; [|done]].
  - destruct Hd. split; cbn; try done. destruct wf_history0 as [Hnd Hh].
    split; [by constructor|]. intros b [[= ->]|Hb]%elem_of_cons; [eauto | by apply Hh].
  - split; [done | | |]; cbn; apply rows_evolve_refl; intros; [by left | by left | done].
Qed.

(** The empty tables. *)
Definition empty_db (ps : gset uuid) : db := {|
  projects := ps; approvals := ∅; jobs := ∅; results := ∅; history := [] |}.

Lemma wf_empty_db ps : wf_db (empty_db ps).
Proof.
  split; cbn; try (intros; by simplify_map_eq).
  split; [constructor|]. intros a Ha. by apply not_elem_of_nil in Ha.
Qed.

(** ** Inversion of statements that returned *)

Lemma statement_Ok {S A} fault (f : S -> result (A * S)) d a d' :
  statement fault f d = (Ok a, d') <-> fault = false /\ f d = Ok (a, d').
Proof.
  unfold statement. destruct fault; [split; [done | by intros [? _]]|].
  destruct (f d) as [[b d1]|e].
  - split; [by intros [= -> ->] | by intros [_ [= -> ->]]].
  - split; [done | by intros [_ ?]].
Qed.

Lemma query_Ok {S A} fault (f : S -> result A) d a d' :
  query fault f d = (Ok a, d') <-> fault = false /\ f d = Ok a /\ d' = d.
Proof.
  unfold query. rewrite statement_Ok, bind_Ok. split.
  - by intros (? & b & ? & [= -> ->]).
  - intros (? & ? & ->). eauto.
Qed.

Lemma execute_Ok {S} fault (f : S -> result S) d x d' :
  execute fault f d = (Ok x, d') <-> fault = false /\ f d = Ok d'.
Proof.
  unfold execute. rewrite statement_Ok, bind_Ok. destruct x. split.
  - by intros (? & b & ? & [= ->]).
  - intros (? & ?). eauto.
Qed.

Lemma interleave_Ok {S} (others : S -> S) d x d' :
  interleave others d = (Ok x, d') <-> d' = others d.
Proof. destruct x. split; [by intros [= <-] | by intros ->]. Qed.

(** [io_try] around code whose handler only raises. *)
Lemma io_try_raise_Ok {S A} (m : io S A) h c msg s a s' :
  io_try m h (fun _ => io_raise c msg) s = (Ok a, s') <-> m s = (Ok a, s').
Proof.
  unfold io_try. destruct (m s) as [[b|e] s1]; [done|]. destruct (h (exn_cls e)); done.
Qed.

(** A statement that failed changed nothing. *)
Lemma statement_Raise {S A} fault (f : S -> result (A * S)) d e d' :
  statement fault f d = (Raise e, d') -> d' = d /\ (e = Exn SQLAlchemyError "database failure" \/ f d = Raise e).
Proof.
  unfold statement. destruct fault; [intros [= <- <-]; auto|].
  destruct (f d) as [[b d1]|e']; [done|]. intros [= <- <-]. auto.
Qed.

(** [db_inv]: [io_inv] with the statements. *)
Ltac db_inv :=
  repeat first
    [ progress io_inv
    | match goal with
      | H : statement _ _ _ = (Ok _, _) |- _ => apply statement_Ok in H; destruct H
      | H : query _ _ _ = (Ok _, _) |- _ => apply query_Ok in H; destruct H as (? & H & ?); subst
      | H : execute _ _ _ = (Ok _, _) |- _ => apply execute_Ok in H; destruct H
      | H : interleave _ _ = (Ok _, _) |- _ => apply interleave_Ok in H; subst
      | H : io_try _ _ (fun _ => io_raise _ _) _ = (Ok _, _) |- _ => apply io_try_raise_Ok in H
      end ].
