(* ===== verification/ExecutionApprovals.v ===== *)
(** * Execution approvals ([execution_approvals.py])

    Owner approvals: the snapshot of a plan kept in the row, the repository's
    three operations and the service in front of it.  An operation takes what
    it reads from outside (the clock, a fresh identifier, whether the database
    fails) as arguments; [others] is what other sessions commit between its
    statements.

    ** Properties

    A valid plan survives its snapshot, a row written for it reads back as
    the approval it stands for, and reading a row raises nothing but
    [ExecutionApprovalUnavailable]. *)
From S2P Require Import Prelude PyText Json Digest GeneratedTests Url Effects TargetRegistry ExecutionPlans.
From S2P Require Import Database JsonFacts GeneratedTestsFacts GeneratedTestsSpec DatabaseFacts.

Definition EXECUTION_APPROVAL_TTL : Z := 600000000.
Definition MAX_EXECUTION_APPROVAL_COMMENT_LENGTH : Z := 1000.
Definition LOCAL_DEVELOPMENT_APPROVER_ID : pystr := u "local-development-owner".

Record ExecutionApproval := {
  ea_id : uuid;
  ea_project_id : uuid;
  ea_plan : ExecutionPlanV1;
  ea_approver_id : pystr;
  ea_authentication_source : pystr;
  ea_comment : option pystr;
  ea_approved_at : instant;
  ea_expires_at : instant;
  ea_consumed_at : option instant;
}.

(** [replace(approval, consumed_at=t)] *)
Definition consumed_approval (t : instant) (a : ExecutionApproval) : ExecutionApproval := {|
  ea_id := ea_id a; ea_project_id := ea_project_id a; ea_plan := ea_plan a;
  ea_approver_id := ea_approver_id a; ea_authentication_source := ea_authentication_source a;
  ea_comment := ea_comment a; ea_approved_at := ea_approved_at a;
  ea_expires_at := ea_expires_at a; ea_consumed_at := Some t |}.

(** [OwnerPrincipal], and any object that is neither of its classes. *)
Inductive OwnerPrincipal :=
  | CognitoOwnerPrincipal (issuer subject : pystr)
  | LocalDevelopmentOwnerPrincipal
  | UnsupportedPrincipal.

(** [hmac.compare_digest] of two texts. *)
Definition compare_digest (a b : pystr) : result bool :=
  if is_ascii a && is_ascii b then Ok (str_eqb a b)
  else raise TypeError "comparing strings with non-ASCII characters is not supported".

Definition approver_provenance (p : OwnerPrincipal) : result (pystr * pystr) :=
  match p with
  | CognitoOwnerPrincipal issuer subject => Ok (issuer ++ u "|" ++ subject, u "cognito")
  | LocalDevelopmentOwnerPrincipal => Ok (LOCAL_DEVELOPMENT_APPROVER_ID, u "local_bypass")
  | UnsupportedPrincipal => raise ExecutionApprovalRejected "Unsupported approver principal"
  end.

Section approvals.
Context {rt : PyRuntime} {net : NetRuntime}.

(** ** Snapshots *)

(** [_plan_snapshot] *)
Definition plan_snapshot_payload (p : ExecutionPlanV1) : json :=
  JObj [(u "schema_version", JStr (schema_version p));
        (u "id", JStr (uuid_str (ExecutionPlans.id p)));
        (u "target_id", JStr (value (target_id p)));
        (u "target_base_url", JStr (target_base_url p));
        (u "target_schema_version", JStr (target_schema_version p));
        (u "test_case_id", JStr (uuid_str (test_case_id p)));
        (u "test_case_payload", JStr (test_case_payload p));
        (u "limits", limits_payload (limits p));
        (u "estimate", estimate_payload (estimate p));
        (u "plan_hash", JStr (plan_hash p))].
Definition plan_snapshot (p : ExecutionPlanV1) : pystr := dumps_canonical (plan_snapshot_payload p).

Definition value_error {A} (msg : string) : result A := raise ValueError msg.

(** [_mapping(payload.get(name), label)] *)
Definition snapshot_mapping (v : option json) (label : string) : result (list (pystr * json)) :=
  match v with
  | Some (JObj d) => Ok d
  | _ => value_error (label +:+ " must be an object")
  end.

(** [_string] *)
Definition snapshot_string (d : list (pystr * json)) (name : string) : result pystr :=
  match dict_get (u name) d with
  | Some (JStr s) =>
      raise_if (bool_decide (s = [])) ValueError (name +:+ " must be a non-empty string") ;; Ok s
  | _ => value_error (name +:+ " must be a non-empty string")
  end.

(** [_integer] *)
Definition snapshot_integer (d : list (pystr * json)) (name : string) : result Z :=
  match dict_get (u name) d with
  | Some (JInt z) => Ok z
  | _ => value_error (name +:+ " must be an integer")
  end.

(** [UUID(text)] *)
Definition to_uuid (s : pystr) : result uuid :=
  or_raise (uuid_parse s) (Exn ValueError "badly formed hexadecimal UUID string").

(** [_limits] *)
Definition snapshot_limits (d : list (pystr * json)) : result ExecutionLimitsV1 :=
  a ← snapshot_integer d "request_timeout_ms";
  b ← snapshot_integer d "max_request_body_bytes";
  c ← snapshot_integer d "max_response_bytes";
  e ← snapshot_integer d "max_assertions";
  Ok {| request_timeout_ms := a; max_request_body_bytes := b; max_response_bytes := c;
        max_assertions := e |}.

(** [_estimate] *)
Definition snapshot_estimate (d : list (pystr * json)) : result ExecutionEstimateV1 :=
  a ← snapshot_integer d "request_count";
  b ← snapshot_integer d "request_body_bytes";
  c ← snapshot_integer d "assertion_count";
  e ← snapshot_integer d "maximum_response_bytes";
  f ← snapshot_integer d "maximum_duration_ms";
  Ok {| request_count := a; request_body_bytes := b; assertion_count := c;
        maximum_response_bytes := e; maximum_duration_ms := f |}.

Definition snapshot_fields (d : list (pystr * json)) : result ExecutionPlanV1 :=
  sv ← snapshot_string d "schema_version";
  i ← snapshot_string d "id"; i ← to_uuid i;
  t ← snapshot_string d "target_id";
  t ← or_raise (enum_of (T := TargetId) t) (Exn ValueError "not a valid TargetId");
  url ← snapshot_string d "target_base_url";
  tsv ← snapshot_string d "target_schema_version";
  tc ← snapshot_string d "test_case_id"; tc ← to_uuid tc;
  payload ← snapshot_string d "test_case_payload";
  l ← snapshot_mapping (dict_get (u "limits") d) "Execution plan limits";
  l ← snapshot_limits l;
  e ← snapshot_mapping (dict_get (u "estimate") d) "Execution plan estimate";
  e ← snapshot_estimate e;
  h ← snapshot_string d "plan_hash";
  Ok {| schema_version := sv; id := i; target_id := t; target_base_url := url;
        target_schema_version := tsv; test_case_id := tc; test_case_payload := payload;
        limits := l; estimate := e; plan_hash := h |}.

Definition plan_from_snapshot (snapshot : pystr) : result ExecutionPlanV1 :=
  plan ← try_except
    (decoded ← or_raise (loads snapshot) (Exn JSONDecodeError "");
     payload ← snapshot_mapping (Some decoded) "Execution approval plan snapshot";
     snapshot_fields payload)
    is_ValueError
    (fun _ => raise ExecutionApprovalRejected "Approval plan snapshot is malformed");
  validate_execution_plan plan DEFAULT_TARGET_REGISTRY.

(** ** Rows *)

Definition approval_from_record (r : ExecutionApprovalRecord) : result ExecutionApproval :=
  plan ← try_except
    (plan ← plan_from_snapshot (ap_plan_snapshot r);
     raise_if (negb (ap_plan_id r =? id plan)%N ||
               negb (str_eqb (ap_plan_hash r) (plan_hash plan)))
       ExecutionApprovalRejected "Approval record does not match its immutable plan snapshot" ;;
     raise_if (bool_decide (strip (ap_approver_id r) = []) ||
               (ap_expires_at r <=? ap_approved_at r) ||
               match ap_consumed_at r with
               | Some t => t <? ap_approved_at r
               | None => false
               end)
       ExecutionApprovalRejected "Approval record violates its contract" ;;
     Ok plan)
    is_ValueError
    (fun _ => raise ExecutionApprovalUnavailable "");
  Ok {| ea_id := ap_id r; ea_project_id := ap_project_id r; ea_plan := plan;
        ea_approver_id := ap_approver_id r;
        ea_authentication_source := ap_authentication_source r;
        ea_comment := ap_comment r; ea_approved_at := ap_approved_at r;
        ea_expires_at := ap_expires_at r; ea_consumed_at := ap_consumed_at r |}.

(** ** [SqlAlchemyExecutionApprovalRepository] *)

Definition unavailable_on_failure {A} (m : io db A) : io db A :=
  io_try m is_SQLAlchemyError (fun _ => io_raise ExecutionApprovalUnavailable "").

Definition new_approval (now : datetime) (new_id project_id : uuid) (plan : ExecutionPlanV1)
    (approver_id source : pystr) (comment : option pystr) : ExecutionApprovalRecord := {|
  ap_id := new_id; ap_project_id := project_id; ap_plan_id := id plan;
  ap_plan_hash := plan_hash plan; ap_plan_snapshot := plan_snapshot plan;
  ap_approver_id := approver_id; ap_authentication_source := source; ap_comment := comment;
  ap_approved_at := utc_datetime now;
  ap_expires_at := utc_datetime now + EXECUTION_APPROVAL_TTL;
  ap_consumed_at := None |}.

Definition create (fault : bool) (now : datetime) (new_id project_id : uuid)
    (plan : ExecutionPlanV1) (approver_id source : pystr) (comment : option pystr) :
    io db ExecutionApproval :=
  let record := new_approval now new_id project_id plan approver_id source comment in
  io_try (execute fault (insert_approval record)) is_SQLAlchemyError
    (fun error =>
       if bool_decide (exn_cls error = IntegrityError)
       then io_raise ExecutionApprovalConflict
              "An approval already exists for this immutable plan"
       else io_raise ExecutionApprovalUnavailable "") ;;
  lift (approval_from_record record).

Definition get_approval (fault : bool) (project_id approval_id : uuid) :
    io db (option ExecutionApproval) :=
  record ← unavailable_on_failure
    (query fault (fun d => scalar_one_or_none
       (select (fun r => (ap_id r =? approval_id)%N && (ap_project_id r =? project_id)%N)
          (approvals d))));
  match record with
  | Some r => Some <$> lift (approval_from_record r)
  | None => mret None
  end.

Definition consume (fault : bool) (now : datetime) (project_id plan_id : uuid)
    (plan_hash : pystr) (others : db -> db) : io db (option ExecutionApproval) :=
  let consumed_at := utc_datetime now in
  unavailable_on_failure
    (record ← query fault (fun d => scalar_one_or_none
       (select (fun r => (ap_project_id r =? project_id)%N && (ap_plan_id r =? plan_id)%N &&
                         str_eqb (ap_plan_hash r) plan_hash) (approvals d)));
     match record with
     | None => mret None
     | Some record =>
         approval ← lift (approval_from_record record);
         if negb (is_null (ea_consumed_at approval)) || (ea_expires_at approval <=? consumed_at)
         then mret None
         else
           interleave others ;;
           claimed ← statement fault (consume_update (ea_id approval) consumed_at);
           if claimed : bool then mret (Some (consumed_approval consumed_at approval))
           else mret None
     end).

(** ** [ExecutionApprovalService] *)

Definition validate_comment (comment : option pystr) : result (option pystr) :=
  match comment with
  | None => Ok None
  | Some c =>
      let normalized := strip c in
      raise_if (bool_decide (normalized = []) ||
                (MAX_EXECUTION_APPROVAL_COMMENT_LENGTH <? zlen normalized))
        ExecutionApprovalRejected "Approval comment must be bounded, non-empty text" ;;
      Ok (Some normalized)
  end.

Definition approve (fault : bool) (now : datetime) (new_id project_id : uuid)
    (plan : ExecutionPlanV1) (expected_plan_hash : pystr) (approver : OwnerPrincipal)
    (comment : option pystr) : io db ExecutionApproval :=
  plan ← lift (try_except (validate_execution_plan plan DEFAULT_TARGET_REGISTRY)
                 (fun c => bool_decide (c = ExecutionPlanRejected))
                 (fun e => raise ExecutionApprovalRejected (exn_msg e)));
  same ← lift (if zlen expected_plan_hash =? 64
               then compare_digest expected_plan_hash (plan_hash plan) else Ok false);
  lift (raise_if (negb same) ExecutionApprovalRejected
          "Expected plan hash does not match the rebuilt immutable plan") ;;
  provenance ← lift (approver_provenance approver);
  comment ← lift (validate_comment comment);
  create fault now new_id project_id plan provenance.1 provenance.2 comment.
End approvals.

(** * Properties *)

(** ** Errors *)

Section errors.
Context {rt : PyRuntime} {net : NetRuntime}.

Lemma raises_snapshot_string d name : raises value_errors (snapshot_string d name).
Proof. unfold snapshot_string, value_error. repeat raises_step. Qed.

Lemma raises_snapshot_integer d name : raises value_errors (snapshot_integer d name).
Proof. unfold snapshot_integer, value_error. repeat raises_step. Qed.

Lemma raises_snapshot_fields d : raises value_errors (snapshot_fields d).
Proof.
  unfold snapshot_fields, snapshot_limits, snapshot_estimate, snapshot_mapping, to_uuid, value_error.
  repeat first [apply raises_snapshot_string | apply raises_snapshot_integer | raises_step].
Qed.

Lemma raises_plan_from_snapshot s : raises value_errors (plan_from_snapshot s).
Proof.
  unfold plan_from_snapshot. apply raises_bind; [|intros p _; apply raises_validate_execution_plan].
  eapply raises_try_except with (Q := value_errors).
  - unfold snapshot_mapping, value_error.
    repeat first [apply raises_snapshot_fields | raises_step].
  - unfold value_errors. congruence.
  - intros e. by apply raises_raise.
Qed.

Lemma raises_approval_from_record r :
  raises (eq ExecutionApprovalUnavailable) (approval_from_record r).
Proof.
  unfold approval_from_record. raises_step; [|apply raises_Ok].
  eapply raises_try_except with (Q := value_errors).
  - repeat first [apply raises_plan_from_snapshot | raises_step].
  - unfold value_errors. congruence.
  - intros e. by apply raises_raise.
Qed.
End errors.

(** ** Snapshots *)

(** The text fields of the plan are scalar text. *)
Definition plan_text_ok (p : ExecutionPlanV1) : bool :=
  scalar_text (target_base_url p) && scalar_text (target_schema_version p) &&
  scalar_text (test_case_payload p).

Section snapshots.
Context {rt : PyRuntime} {laws : PyRuntimeLaws rt}.

Lemma snapshot_string_eq d name s : dict_get (u name) d = Some (JStr s) -> s <> [] ->
  snapshot_string d name = Ok s.
Proof.
  intros Hd Hs. unfold snapshot_string. rewrite Hd.
  by rewrite raise_if_false by by apply bool_decide_eq_false.
Qed.

Lemma snapshot_integer_eq d name z : dict_get (u name) d = Some (JInt z) ->
  snapshot_integer d name = Ok z.
Proof. intros Hd. unfold snapshot_integer. by rewrite Hd. Qed.

Lemma snapshot_limits_eq l : exists d, sort_keys (limits_payload l) = JObj d /\
  snapshot_limits d = Ok l.
Proof.
  eexists. split; [reflexivity|]. unfold snapshot_limits.
  rewrite (snapshot_integer_eq _ "request_timeout_ms" (request_timeout_ms l)) by reflexivity.
  rewrite (snapshot_integer_eq _ "max_request_body_bytes" (max_request_body_bytes l)) by reflexivity.
  rewrite (snapshot_integer_eq _ "max_response_bytes" (max_response_bytes l)) by reflexivity.
  rewrite (snapshot_integer_eq _ "max_assertions" (max_assertions l)) by reflexivity.
  rewrite !bind_ok. by destruct l.
Qed.

Lemma snapshot_estimate_eq e : exists d, sort_keys (estimate_payload e) = JObj d /\
  snapshot_estimate d = Ok e.
Proof.
  eexists. split; [reflexivity|]. unfold snapshot_estimate.
  rewrite (snapshot_integer_eq _ "request_count" (request_count e)) by reflexivity.
  rewrite (snapshot_integer_eq _ "request_body_bytes" (request_body_bytes e)) by reflexivity.
  rewrite (snapshot_integer_eq _ "assertion_count" (assertion_count e)) by reflexivity.
  rewrite (snapshot_integer_eq _ "maximum_response_bytes" (maximum_response_bytes e)) by reflexivity.
  rewrite (snapshot_integer_eq _ "maximum_duration_ms" (maximum_duration_ms e)) by reflexivity.
  rewrite !bind_ok. by destruct e.
Qed.

Lemma uuid_str_nonempty n : uuid_str n <> [].
Proof. unfold uuid_str. cbn [join]. by destruct (take 8 _) as [|? ?]. Qed.

Lemma to_uuid_str n : (n < 2 ^ 128)%N -> to_uuid (uuid_str n) = Ok n.
Proof. intros H. unfold to_uuid. by rewrite uuid_parse_str. Qed.

Lemma uuid_str_scalar n : scalar_text (uuid_str n) = true.
Proof.
  apply forallb_Forall. eapply Forall_impl; [apply uuid_str_chars|]. cbn beta.
  intros c [->|Hc%hex_char_bound]; [done|].
  unfold scalar, between. apply andb_true_intro. split; [apply N.ltb_lt; lia|].
  apply negb_true_iff, andb_false_iff. rewrite !N.leb_gt. lia.
Qed.

(** The fields of a snapshot's object, keys in order. *)
Definition snapshot_object (p : ExecutionPlanV1) : list (pystr * json) :=
  [(u "estimate", sort_keys (estimate_payload (estimate p)));
   (u "id", JStr (uuid_str (ExecutionPlans.id p)));
   (u "limits", sort_keys (limits_payload (limits p)));
   (u "plan_hash", JStr (plan_hash p));
   (u "schema_version", JStr (schema_version p));
   (u "target_base_url", JStr (target_base_url p));
   (u "target_id", JStr (value (target_id p)));
   (u "target_schema_version", JStr (target_schema_version p));
   (u "test_case_id", JStr (uuid_str (test_case_id p)));
   (u "test_case_payload", JStr (test_case_payload p))].

Lemma sort_snapshot p : sort_keys (plan_snapshot_payload p) = JObj (snapshot_object p).
Proof. reflexivity. Qed.

Lemma snapshot_fields_eq p :
  schema_version p <> [] -> target_base_url p <> [] -> target_schema_version p <> [] ->
  test_case_payload p <> [] -> plan_hash p <> [] ->
  (ExecutionPlans.id p < 2 ^ 128)%N -> (test_case_id p < 2 ^ 128)%N ->
  snapshot_fields (snapshot_object p) = Ok p.
Proof.
  intros H1 H2 H3 H4 H5 H6 H7. unfold snapshot_fields.
  destruct (snapshot_limits_eq (limits p)) as (dl & El & Hl).
  destruct (snapshot_estimate_eq (estimate p)) as (de & Ee & He).
  rewrite (snapshot_string_eq _ "schema_version" (schema_version p)), bind_ok by done.
  rewrite (snapshot_string_eq _ "id" (uuid_str (ExecutionPlans.id p))), bind_ok
    by (done || apply uuid_str_nonempty).
  rewrite to_uuid_str, bind_ok by done.
  rewrite (snapshot_string_eq _ "target_id" (value (target_id p))), bind_ok by done.
  rewrite enum_of_value. cbn [or_raise]. rewrite bind_ok.
  rewrite (snapshot_string_eq _ "target_base_url" (target_base_url p)), bind_ok by done.
  rewrite (snapshot_string_eq _ "target_schema_version" (target_schema_version p)), bind_ok by done.
  rewrite (snapshot_string_eq _ "test_case_id" (uuid_str (test_case_id p))), bind_ok
    by (done || apply uuid_str_nonempty).
  rewrite to_uuid_str, bind_ok by done.
  rewrite (snapshot_string_eq _ "test_case_payload" (test_case_payload p)), bind_ok by done.
  change (dict_get (u "limits") (snapshot_object p)) with (Some (sort_keys (limits_payload (limits p)))).
  change (dict_get (u "estimate") (snapshot_object p)) with
    (Some (sort_keys (estimate_payload (estimate p)))).
  rewrite El, Ee. cbn [snapshot_mapping]. rewrite bind_ok, Hl, bind_ok, bind_ok, He, bind_ok.
  rewrite (snapshot_string_eq _ "plan_hash" (plan_hash p)), bind_ok by done.
  by destruct p.
Qed.
End snapshots.

Section valid_plans.
Context {rt : PyRuntime} {laws : PyRuntimeLaws rt} {net : NetRuntime}.

Lemma default_registry_get id c : registry_get DEFAULT_TARGET_REGISTRY id = Ok c ->
  base_url c = u "https://ai-qa-sandbox.onrender.com" /\
  TargetRegistry.target_schema_version c = TARGET_REGISTRY_SCHEMA_VERSION.
Proof. intros [Hin _]%registry_get_Ok. by apply list_elem_of_singleton in Hin as ->. Qed.

Lemma plan_hash_shape registry p t c : plan_ok registry p t c ->
  length (plan_hash p) = 64%nat /\ Forall (fun x => hex_char x = true) (plan_hash p).
Proof.
  intros Hp. pose proof (po_hash _ _ _ _ Hp) as H. unfold plan_sha256 in H. ok_inv.
  match goal with E : plan_hash p = _ |- _ => rewrite E end.
  split; [apply sha256_hex_length | apply sha256_hex_chars].
Qed.

Lemma plan_snapshot_reads_back p t c :
  plan_ok DEFAULT_TARGET_REGISTRY p t c -> scalar_text (test_case_payload p) = true ->
  plan_from_snapshot (plan_snapshot p) = Ok p.
Proof.
  intros Hp Hs. pose proof (plan_hash_shape _ _ _ _ Hp) as [Hl Hh].
  pose proof (default_registry_get _ _ (po_registered _ _ _ _ Hp)) as [Hb Ht].
  pose proof (po_schema _ _ _ _ Hp) as Hsv.
  pose proof (po_base_url _ _ _ _ Hp) as Hbu. rewrite Hb in Hbu.
  pose proof (po_target_schema _ _ _ _ Hp) as Htu. rewrite Ht in Htu.
  assert (test_case_payload p <> []) as Hne.
  { intros E. pose proof (po_case _ _ _ _ Hp) as Hc. unfold test_case in Hc. by rewrite E in Hc. }
  assert (test_case_id p < 2 ^ 128)%N as Hid.
  { rewrite (po_case_id _ _ _ _ Hp). pose proof (po_wf _ _ _ _ Hp) as Hw.
    unfold wf_test_case, uuid_ok in Hw. bools. by apply N.ltb_lt. }
  unfold plan_from_snapshot, plan_snapshot. rewrite loads_dumps_canonical.
  - cbn [or_raise]. rewrite bind_ok, sort_snapshot. cbn [snapshot_mapping]. rewrite bind_ok.
    rewrite snapshot_fields_eq; rewrite ?Hsv, ?Hbu, ?Htu; try done.
    + cbn [try_except]. rewrite bind_ok. apply validate_plan_iff. eauto.
    + intros E. by rewrite E in Hl.
    + rewrite (po_id _ _ _ _ Hp). apply uuid5_bound.
  - unfold plan_snapshot_payload. cbn [json_wf forallb fst snd].
    rewrite Hsv, Hbu, Htu, Hs, !uuid_str_scalar, (hex_chars_scalar (plan_hash p)) by done.
    destruct (target_id p). reflexivity.
Qed.

(** The row of a new approval reads back as that approval. *)
Lemma new_approval_reads_back now new_id project p t c approver source comment :
  plan_ok DEFAULT_TARGET_REGISTRY p t c -> scalar_text (test_case_payload p) = true ->
  strip approver <> [] ->
  approval_from_record (new_approval now new_id project p approver source comment) =
  Ok {| ea_id := new_id; ea_project_id := project; ea_plan := p; ea_approver_id := approver;
        ea_authentication_source := source; ea_comment := comment;
        ea_approved_at := utc_datetime now;
        ea_expires_at := utc_datetime now + EXECUTION_APPROVAL_TTL; ea_consumed_at := None |}.
Proof.
  intros Hp Hs Ha. unfold approval_from_record, new_approval. cbn [ap_plan_snapshot ap_plan_id
    ap_plan_hash ap_approver_id ap_expires_at ap_approved_at ap_consumed_at].
  rewrite (plan_snapshot_reads_back p t c), bind_ok, N.eqb_refl, str_eqb_refl by done.
  cbn [negb orb raise_if]. rewrite bind_ok. rewrite bool_decide_eq_false_2 by done.
  unfold EXECUTION_APPROVAL_TTL. rewrite (proj2 (Z.leb_gt _ _)) by lia. done.
Qed.
End valid_plans.

(** ** Reading a row, in full *)

Section reading.
Context {rt : PyRuntime} {net : NetRuntime}.

(** The approval a row stands for. *)
Definition approval_of (r : ExecutionApprovalRecord) (p : ExecutionPlanV1) : ExecutionApproval := {|
  ea_id := ap_id r; ea_project_id := ap_project_id r; ea_plan := p;
  ea_approver_id := ap_approver_id r; ea_authentication_source := ap_authentication_source r;
  ea_comment := ap_comment r; ea_approved_at := ap_approved_at r;
  ea_expires_at := ap_expires_at r; ea_consumed_at := ap_consumed_at r |}.

Lemma approval_from_record_iff r a : approval_from_record r = Ok a <->
  exists p, plan_from_snapshot (ap_plan_snapshot r) = Ok p /\
    ap_plan_id r = id p /\ ap_plan_hash r = plan_hash p /\ strip (ap_approver_id r) <> [] /\
    ap_approved_at r < ap_expires_at r /\
    match ap_consumed_at r with Some t => ap_approved_at r <= t | None => True end /\
    a = approval_of r p.
Proof.
  unfold approval_from_record. split.
  - intros H. ok_inv.
    match goal with E : try_except _ _ _ = Ok _ |- _ => apply try_except_Ok in E as [E|(? & _ & _ & [=])] end.
    ok_inv. bools.
    match goal with E : str_eqb _ _ = true |- _ => apply str_eqb_eq in E end.
    eexists. split_and!; try done. destruct (ap_consumed_at r); [by bools|done].
  - intros (p & Hp & Hi & Hh & Hs & Ht & Hc & ->).
    rewrite Hp, bind_ok, Hi, Hh, N.eqb_refl, str_eqb_refl. cbn [negb orb raise_if].
    rewrite bind_ok, bool_decide_eq_false_2 by done.
    rewrite (proj2 (Z.leb_gt _ _)) by lia. cbn [orb].
    destruct (ap_consumed_at r) as [t|] eqn:E.
    + rewrite (proj2 (Z.ltb_ge _ _)) by done. cbn. unfold approval_of. by rewrite E.
    + cbn. unfold approval_of. by rewrite E.
Qed.

(** Reading the row once its approval has been consumed. *)
Lemma approval_from_record_consumed r a t : approval_from_record r = Ok a ->
  ap_approved_at r <= t ->
  approval_from_record (set_consumed t r) = Ok (consumed_approval t a).
Proof.
  intros (p & Hp & Hi & Hh & Hs & Ht & _ & ->)%approval_from_record_iff Hle.
  apply approval_from_record_iff. exists p. by split_and!.
Qed.
End reading.
