(* ===== verification/ExecutionJobs.v ===== *)
(** * Execution jobs ([execution_jobs.py])

    The durable queue: a job is enqueued for one approval, and a worker's
    claim consumes that approval in the same transaction.  [claim_next] skips
    the rows other transactions hold ([locked]); [others] is what they commit
    while the claim holds its own row, which they cannot touch. *)
From S2P Require Import Prelude PyText Json Digest GeneratedTests Url Effects TargetRegistry.
From S2P Require Import ExecutionPlans Database ExecutionApprovals.

(** A job as the queue returns it: the row itself, with UTC times. *)
Abbreviation ExecutionJob := ExecutionJobRecord.

Record ClaimedExecutionJob := { claimed_job : ExecutionJob; claimed_approval : ExecutionApproval }.

(** [_job_from_record]: rows hold UTC instants and known states already. *)
Definition job_from_record (r : ExecutionJobRecord) : ExecutionJob := {|
  job_id := job_id r; job_project_id := job_project_id r;
  job_approval_id := job_approval_id r; job_plan_id := job_plan_id r;
  job_plan_hash := job_plan_hash r; job_trace_id := job_trace_id r;
  job_state := job_state r; job_created_at := job_created_at r;
  job_started_at := job_started_at r; job_finished_at := job_finished_at r;
  job_cancel_requested_at := job_cancel_requested_at r;
  job_cancelled_at := job_cancelled_at r |}.

(** The state and the four later times of a row. *)
Definition job_with (r : ExecutionJobRecord) (s : ExecutionJobState)
    (started finished cancel_requested cancelled : option instant) : ExecutionJobRecord := {|
  job_id := job_id r; job_project_id := job_project_id r;
  job_approval_id := job_approval_id r; job_plan_id := job_plan_id r;
  job_plan_hash := job_plan_hash r; job_trace_id := job_trace_id r;
  job_state := s; job_created_at := job_created_at r;
  job_started_at := started; job_finished_at := finished;
  job_cancel_requested_at := cancel_requested; job_cancelled_at := cancelled |}.

(** [_fail_job] *)
Definition fail_job (r : ExecutionJobRecord) (now : instant) : ExecutionJobRecord :=
  job_with r FAILED (Some now) (Some now) (job_cancel_requested_at r) (job_cancelled_at r).

Definition start_job (r : ExecutionJobRecord) (now : instant) : ExecutionJobRecord :=
  job_with r RUNNING (Some now) (job_finished_at r) (job_cancel_requested_at r)
    (job_cancelled_at r).

(** [ORDER BY created_at, id] *)
Definition job_le (a b : ExecutionJobRecord) : Prop :=
  job_created_at a < job_created_at b \/
  (job_created_at a = job_created_at b /\ (job_id a <= job_id b)%N).
#[export] Instance job_le_dec a b : Decision (job_le a b).
Proof. unfold job_le. apply _. Defined.

Definition new_job (now : datetime) (new_id : uuid) (trace_id : option uuid)
    (approval : ExecutionApproval) : ExecutionJobRecord := {|
  job_id := new_id; job_project_id := ea_project_id approval;
  job_approval_id := ea_id approval; job_plan_id := ExecutionPlans.id (ea_plan approval);
  job_plan_hash := plan_hash (ea_plan approval); job_trace_id := trace_id;
  job_state := QUEUED; job_created_at := utc_datetime now; job_started_at := None;
  job_finished_at := None; job_cancel_requested_at := None; job_cancelled_at := None |}.

Definition queue_unavailable_on_failure {A} (m : io db A) : io db A :=
  io_try m is_SQLAlchemyError (fun _ => io_raise ExecutionJobQueueUnavailable "").

(** [_existing_job] *)
Definition existing_job (fault : bool) (approval_id : uuid) : io db (option ExecutionJob) :=
  queue_unavailable_on_failure
    (record ← query fault (fun d => scalar_one_or_none
       (select (fun r => (job_approval_id r =? approval_id)%N) (jobs d)));
     mret (job_from_record <$> record)).

Definition enqueue (fault fault2 : bool) (now : datetime) (new_id : uuid)
    (trace_id : option uuid) (approval : ExecutionApproval) (others : db -> db) :
    io db ExecutionJob :=
  lift (raise_if (negb (is_null (ea_consumed_at approval))) ExecutionJobRejected
          "A consumed approval cannot create a job") ;;
  lift (raise_if (ea_expires_at approval <=? utc_datetime now) ExecutionJobRejected
          "An expired approval cannot create a job") ;;
  let record := new_job now new_id trace_id approval in
  io_try (execute fault (insert_job record) ;; mret (job_from_record record)) is_SQLAlchemyError
    (fun error =>
       if bool_decide (exn_cls error = IntegrityError) then
         interleave others ;;
         existing ← existing_job fault2 (ea_id approval);
         match existing with
         | Some job => mret job
         | None => io_raise ExecutionJobQueueUnavailable ""
         end
       else io_raise ExecutionJobQueueUnavailable "").

Definition get_job (fault : bool) (project_id id : uuid) : io db (option ExecutionJob) :=
  queue_unavailable_on_failure
    (record ← query fault (fun d => scalar_one_or_none
       (select (fun r => (job_id r =? id)%N && (job_project_id r =? project_id)%N) (jobs d)));
     mret (job_from_record <$> record)).

(** [SELECT ... WHERE state = 'queued' ORDER BY created_at, id LIMIT 1 FOR
    UPDATE SKIP LOCKED] *)
Definition next_queued (locked : gset uuid) (d : db) : option ExecutionJobRecord :=
  head (merge_sort job_le
    (select (fun r => bool_decide (job_state r = QUEUED) &&
                      negb (bool_decide (job_id r ∈ locked))) (jobs d))).

Section claims.
Context {rt : PyRuntime} {net : NetRuntime}.

(** The two halves of [claim_next]: the row it locks, and what it does while
    it holds that row. *)
Definition claim_locked (fault : bool) (now : instant) (job : ExecutionJobRecord)
    (others others' : db -> db) : io db (option ClaimedExecutionJob) :=
  let fail := execute fault (update_job (fail_job job now)) ;; mret None in
  interleave others ;;
  record ← query fault (fun d => scalar_one_or_none
    (select (fun r => (ap_id r =? job_approval_id job)%N &&
                      (ap_project_id r =? job_project_id job)%N &&
                      (ap_plan_id r =? job_plan_id job)%N &&
                      str_eqb (ap_plan_hash r) (job_plan_hash job)) (approvals d)));
  match record with
  | None => fail
  | Some record =>
      match approval_from_record record with
      | Raise e =>
          if bool_decide (exn_cls e = ExecutionApprovalUnavailable) then fail
          else lift (Raise e)
      | Ok approval =>
          if negb (is_null (ea_consumed_at approval)) || (ea_expires_at approval <=? now)
          then fail
          else
            interleave others' ;;
            (* the two writes commit together *)
            consumed ← statement fault (fun d =>
              '(consumed, d) ← consume_update (ea_id approval) now d;
              d ← update_job (if consumed : bool then start_job job now else fail_job job now) d;
              Ok (consumed, d));
            if consumed : bool then
              mret (Some {| claimed_job := job_from_record (start_job job now);
                            claimed_approval := consumed_approval now approval |})
            else mret None
      end
  end.

Definition claim_next (fault : bool) (now : datetime) (locked : gset uuid)
    (others others' : uuid -> db -> db) : io db (option ClaimedExecutionJob) :=
  queue_unavailable_on_failure
    (job ← query fault (fun d => Ok (next_queued locked d));
     match job with
     | None => mret None
     | Some job =>
         claim_locked fault (utc_datetime now) job (others (job_id job)) (others' (job_id job))
     end).
End claims.

(** [UPDATE execution_jobs SET state = 'cancelled', ... WHERE id = id AND
    project_id = project AND state = 'queued' RETURNING id], and the row. *)
Definition cancel_update (project_id id : uuid) (now : instant) (d : db) :
    result (option ExecutionJobRecord * db) :=
  match jobs d !! id with
  | Some r =>
      if (job_project_id r =? project_id)%N && bool_decide (job_state r = QUEUED) then
        let r' := job_with r CANCELLED (job_started_at r) (job_finished_at r) (Some now) (Some now) in
        d ← update_job r' d; Ok (Some r', d)
      else Ok (None, d)
  | None => Ok (None, d)
  end.

Definition cancel (fault : bool) (now : datetime) (project_id id : uuid) :
    io db (option ExecutionJob) :=
  queue_unavailable_on_failure
    (cancelled ← statement fault (cancel_update project_id id (utc_datetime now));
     mret (job_from_record <$> cancelled)).
