(* ===== verification/SystemSamples.v ===== *)
(** * Concrete tables

    Tables that hold one approval and one job, queued or running, and a plan
    that can be approved: the inputs on which the properties of the execution
    system are instantiated. *)
From S2P Require Import Prelude PyText Json JsonFacts Digest GeneratedTests GeneratedTestsFacts.
From S2P Require Import GeneratedTestsSpec Url Effects TargetRegistry ExecutionPlans.
From S2P Require Import Database DatabaseFacts ExecutionApprovals.
From S2P Require Import ExecutionJobs AsciiRuntime Samples.

Definition utc (t : Z) : datetime := {| wall := t; utcoffset := None |}.
Definition sample_hash : pystr := repeat 48%N 64.

Definition sample_approval (consumed : option instant) : ExecutionApprovalRecord := {|
  ap_id := 3; ap_project_id := 1; ap_plan_id := 2; ap_plan_hash := sample_hash;
  ap_plan_snapshot := u "x"; ap_approver_id := u "owner";
  ap_authentication_source := u "cognito"; ap_comment := None;
  ap_approved_at := 0; ap_expires_at := 600; ap_consumed_at := consumed |}.

Definition sample_job (s : ExecutionJobState) (started : option instant) : ExecutionJobRecord := {|
  job_id := 4; job_project_id := 1; job_approval_id := 3; job_plan_id := 2;
  job_plan_hash := sample_hash; job_trace_id := None; job_state := s; job_created_at := 0;
  job_started_at := started; job_finished_at := None; job_cancel_requested_at := None;
  job_cancelled_at := None |}.

(** An approval with a queued job. *)
Definition queued_db : db := {|
  projects := {[1%N]}; approvals := {[3%N := sample_approval None]};
  jobs := {[4%N := sample_job QUEUED None]}; results := ∅; history := [] |}.

(** The same, after a worker's claim at 5. *)
Definition running_db : db := {|
  projects := {[1%N]}; approvals := {[3%N := sample_approval (Some 5)]};
  jobs := {[4%N := sample_job RUNNING (Some 5)]}; results := ∅; history := [Consumed 3] |}.

(** A job cancelled before it started. *)
Definition cancelled_job : ExecutionJobRecord :=
  job_with (sample_job QUEUED None) CANCELLED None None (Some 5) (Some 5).
Definition cancelled_db : db := with_jobs queued_db {[4%N := cancelled_job]}.

Lemma wf_queued_db : wf_db queued_db.
Proof.
  split; cbn; try (intros; simplify_map_eq; eauto; done).
  split; [constructor|]. intros a Ha. by apply not_elem_of_nil in Ha.
Qed.

Lemma wf_running_db : wf_db running_db.
Proof.
  split; cbn; try (intros; simplify_map_eq; eauto; done).
  - intros i r Hi _. simplify_map_eq. exists 5, (sample_approval (Some 5)). by simplify_map_eq.
  - split; [apply NoDup_singleton|]. intros a [= ->]%list_elem_of_singleton.
    exists (sample_approval (Some 5)). by simplify_map_eq.
Qed.

Lemma wf_cancelled_db : wf_db cancelled_db.
Proof.
  split; cbn; try (intros; simplify_map_eq; eauto; done).
  split; [constructor|]. intros a Ha. by apply not_elem_of_nil in Ha.
Qed.

(** ** A plan that can be approved *)

Definition approvable (p : ExecutionPlanV1) : Prop :=
  plan_ok DEFAULT_TARGET_REGISTRY p (sorted_case sample_case) sample_target /\
  scalar_text (test_case_payload p) = true.

Lemma ascii_scalar_text s : is_ascii s = true -> scalar_text s = true.
Proof.
  rewrite is_ascii_Forall. unfold scalar_text. rewrite forallb_Forall.
  intros H. eapply Forall_impl; [exact H|]. intros c Hc. cbn beta in Hc.
  unfold scalar, between. rewrite (proj2 (N.ltb_lt _ _)) by lia.
  by rewrite (proj2 (N.leb_gt 55296 c)) by lia.
Qed.

Lemma planned_test_case {rt : PyRuntime} t : wf_test_case t = true -> validated_test_case t = Ok t.
Proof.
  intros Hw. unfold validated_test_case.
  by rewrite (proj2 (try_except_refuse _ _ _ t) (validate_as_payload t Hw)).
Qed.

Lemma build_plan_payload {rt : PyRuntime} {laws : PyRuntimeLaws rt} t id l registry p :
  wf_test_case t = true -> case_json_wf t = true ->
  build_execution_plan t id l registry = Ok p -> scalar_text (test_case_payload p) = true.
Proof.
  intros Hw Hj. unfold build_execution_plan. rewrite (planned_test_case t Hw), bind_ok.
  intros Hb. ok_inv.
  match goal with E : validate_execution_plan _ _ = Ok _ |- _ =>
    apply validate_plan_iff in E as [-> _] end.
  cbn [test_case_payload]. unfold canonical_json. by apply ascii_scalar_text, canonical_ascii.
Qed.

Lemma sample_plan_limited : exists p, approvable p /\ limits p = DEFAULT_EXECUTION_LIMITS.
Proof.
  destruct sample_plan_hypotheses as (H1 & H2 & H3 & H4 & H5 & H6 & H7 & H8).
  destruct (build_plan_ok DEFAULT_TARGET_REGISTRY (u "synthetic-order-api")
    sample_target sample_case DEFAULT_EXECUTION_LIMITS H1 H2 H3 H4 H5 H6 H7 H8)
    as (p & Hb & Hok & Hl & _).
  exists p. split; [|exact Hl]. split; [exact Hok|]. exact (build_plan_payload _ _ _ _ p H1 H2 Hb).
Qed.

Lemma sample_plan : exists p, approvable p.
Proof. destruct sample_plan_limited as (p & Hp & _). by exists p. Qed.

(** The approval of a plan, as the repository returns it, and its row. *)
Definition plan_row (p : ExecutionPlanV1) : ExecutionApprovalRecord :=
  new_approval (utc 0) 3 1 p (u "owner") (u "cognito") None.
Definition plan_approval (p : ExecutionPlanV1) : ExecutionApproval := {|
  ea_id := 3; ea_project_id := 1; ea_plan := p; ea_approver_id := u "owner";
  ea_authentication_source := u "cognito"; ea_comment := None; ea_approved_at := 0;
  ea_expires_at := EXECUTION_APPROVAL_TTL; ea_consumed_at := None |}.

Lemma plan_row_reads_back p : approvable p -> approval_from_record (plan_row p) = Ok (plan_approval p).
Proof.
  intros [Hp Hs]. unfold plan_row.
  by rewrite (new_approval_reads_back _ _ _ _ _ _ _ _ _ Hp Hs) by by vm_compute.
Qed.

(** An approved plan, without a job and with a queued one. *)
Definition approved_db (p : ExecutionPlanV1) : db := {|
  projects := {[1%N]}; approvals := {[3%N := plan_row p]}; jobs := ∅; results := ∅;
  history := [] |}.
Definition plan_job (p : ExecutionPlanV1) : ExecutionJobRecord :=
  new_job (utc 0) 4 None (plan_approval p).
Definition plan_queued_db (p : ExecutionPlanV1) : db :=
  with_jobs (approved_db p) {[4%N := plan_job p]}.

Definition claimed_plan (p : ExecutionPlanV1) : ClaimedExecutionJob := {|
  claimed_job := start_job (plan_job p) 5;
  claimed_approval := consumed_approval 5 (plan_approval p) |}.

(** An approval no plan of which is ever read. *)
Definition stub_plan : ExecutionPlanV1 := {|
  schema_version := EXECUTION_PLAN_SCHEMA_VERSION; ExecutionPlans.id := 2;
  ExecutionPlans.target_id := SYNTHETIC_ORDER_API; target_base_url := u "x";
  target_schema_version := u "x"; test_case_id := 7; test_case_payload := u "x";
  limits := DEFAULT_EXECUTION_LIMITS;
  estimate := {| request_count := 1; request_body_bytes := 0; assertion_count := 1;
    maximum_response_bytes := 1; maximum_duration_ms := 1 |};
  plan_hash := sample_hash |}.
Definition stub_approval : ExecutionApproval := {|
  ea_id := 3; ea_project_id := 1; ea_plan := stub_plan; ea_approver_id := u "owner";
  ea_authentication_source := u "cognito"; ea_comment := None; ea_approved_at := 0;
  ea_expires_at := 600; ea_consumed_at := None |}.

Section plan_tables.
Context (p : ExecutionPlanV1) (Hp : approvable p).

Lemma plan_hash_len : zlen (plan_hash p) = 64.
Proof. destruct Hp as [Hok _]. unfold zlen. by rewrite (proj1 (plan_hash_shape _ _ _ _ Hok)). Qed.

Lemma plan_row_check t : (forall x, t = Some x -> 0 <= x) ->
  approval_check (default (plan_row p) ((fun x => set_consumed x (plan_row p)) <$> t)) = true.
Proof.
  intros Ht. destruct t as [x|]; cbn.
  - unfold approval_check. cbn. rewrite plan_hash_len. cbn.
    rewrite bool_decide_eq_true_2 by (left). by apply Z.leb_le, Ht.
  - unfold approval_check. cbn. rewrite plan_hash_len. cbn.
    by rewrite bool_decide_eq_true_2 by (left).
Qed.

Lemma wf_approved_db : wf_db (approved_db p).
Proof.
  split; cbn; try (intros; simplify_map_eq; eauto; done).
  - intros i r Hi. simplify_map_eq. split; [done|]. by apply (plan_row_check None).
  - split; [constructor|]. intros a Ha. by apply not_elem_of_nil in Ha.
Qed.

Lemma wf_plan_queued_db : wf_db (plan_queued_db p).
Proof.
  split; cbn; try (intros; simplify_map_eq; eauto; done).
  - intros i r Hi. simplify_map_eq. split; [done|]. by apply (plan_row_check None).
  - intros i r Hi. simplify_map_eq. split; [done|]. unfold job_check. cbn.
    by rewrite plan_hash_len.
  - split; [constructor|]. intros a Ha. by apply not_elem_of_nil in Ha.
Qed.

Lemma plan_keys i r : approvals (approved_db p) !! i = Some r -> ap_id r = i.
Proof. cbn. intros Hi. by simplify_map_eq. Qed.
Lemma plan_only (P : ExecutionApprovalRecord -> bool) j s :
  approvals (approved_db p) !! j = Some s -> P s = true -> j = 3%N.
Proof. cbn. intros Hi _. by simplify_map_eq. Qed.

(** The approval is consumed, alone and by the claim of its job. *)
Lemma consume_plan : exists a d', consume false (utc 5) 1 (ExecutionPlans.id p) (plan_hash p)
  (fun d => d) (approved_db p) = (Ok (Some a), d').
Proof.
  eexists _, _. unfold consume, unavailable_on_failure. cbv zeta. apply io_try_raise_Ok.
  erewrite io_step by (apply query_Ok; split_and!; [done| |done];
    apply (select_by_key _ _ ap_id 3 (plan_row p)); [exact plan_keys|apply lookup_singleton_eq| |apply plan_only]; cbn; by rewrite !N.eqb_refl, str_eqb_refl).
  cbv beta iota. erewrite io_step by (apply lift_run, (plan_row_reads_back p Hp)).
  cbn [plan_approval ea_consumed_at is_null negb orb ea_expires_at].
  change (EXECUTION_APPROVAL_TTL <=? utc_datetime (utc 5)) with false. cbv beta iota.
  erewrite io_step by reflexivity.
  erewrite io_step.
  2:{ apply statement_Ok. split; [done|]. unfold consume_update. cbn [approved_db approvals ea_id].
      rewrite lookup_singleton_eq. cbn [plan_row new_approval ap_consumed_at is_null andb].
      change (utc_datetime (utc 5) <? ap_expires_at (plan_row p)) with true. cbv iota zeta.
      rewrite raise_if_false; [reflexivity|]. apply negb_false_iff.
      apply (plan_row_check (Some 5)). by intros x [= <-]. }
  reflexivity.
Qed.

Lemma claim_plan : exists d', claim_next false (utc 5) ∅ (fun _ d => d) (fun _ d => d)
  (plan_queued_db p) = (Ok (Some (claimed_plan p)), d') /\ results d' = ∅.
Proof.
  assert (next_queued ∅ (plan_queued_db p) = Some (plan_job p)) as Hn by reflexivity.
  eexists. split.
  { unfold claim_next, queue_unavailable_on_failure. apply io_try_raise_Ok.
  erewrite io_step by (apply query_Ok; split_and!; [done|by rewrite Hn|done]).
  cbv beta iota. unfold claim_locked. cbv zeta. erewrite io_step by reflexivity.
  erewrite io_step by (apply query_Ok; split_and!; [done| |done];
    apply (select_by_key _ _ ap_id 3 (plan_row p)); [exact plan_keys|apply lookup_singleton_eq| |apply plan_only]; cbn; by rewrite !N.eqb_refl, str_eqb_refl).
  cbv beta iota. rewrite (plan_row_reads_back p Hp).
  cbn [plan_approval ea_consumed_at is_null negb orb ea_expires_at].
  change (EXECUTION_APPROVAL_TTL <=? utc_datetime (utc 5)) with false. cbv beta iota.
  erewrite io_step by reflexivity.
  erewrite io_step.
  2:{ apply statement_Ok. split; [done|]. unfold consume_update.
      cbn [plan_queued_db with_jobs approved_db approvals ea_id].
      rewrite lookup_singleton_eq. cbn [plan_row new_approval ap_consumed_at is_null andb].
      change (utc_datetime (utc 5) <? ap_expires_at (plan_row p)) with true. cbv iota zeta.
      rewrite raise_if_false.
      2:{ apply negb_false_iff. apply (plan_row_check (Some 5)). by intros x [= <-]. }
      rewrite !bind_ok. unfold update_job. rewrite raise_if_false; [reflexivity|].
      apply negb_false_iff. unfold job_check. cbn. by rewrite plan_hash_len. }
  reflexivity. }
  reflexivity.
Qed.
End plan_tables.
