(* ===== verification/RestrictedExecution.v ===== *)
(** * The restricted executor ([restricted_execution.py])

    [RestrictedExecutionExecutor.execute]: at most one request, sent to a
    validated address of the registered origin, for one claimed job.  What the
    executor is given (clock, cancellation probe, resolver, transport) is the
    interface [ExecutionEnvironment], over a state of the environment's own. *)
From S2P Require Import Prelude PyText Json Digest Effects GeneratedTests Url TargetRegistry.
From S2P Require Import ExecutionPlans Database ExecutionApprovals ExecutionJobs.

Definition FORBIDDEN_REQUEST_HEADERS : list pystr :=
  [u "authorization"; u "cookie"; u "host"; u "proxy-authorization"; u "set-cookie";
   u "x-forwarded-for"].
Definition SENSITIVE_NAMES : list pystr :=
  [u "authorization"; u "cookie"; u "password"; u "secret"; u "set-cookie"; u "token"].
Definition REDACTED_VALUE : pystr := u "[REDACTED]".

Inductive ExecutionOutcome := OUTCOME_SUCCEEDED | OUTCOME_FAILED | OUTCOME_CANCELLED.
#[export] Instance outcome_eq_dec : EqDecision ExecutionOutcome.
Proof. solve_decision. Defined.

Inductive ExecutionFailureCode :=
  | INVALID_CLAIM | APPROVAL_MISMATCH | APPROVAL_EXPIRED | APPROVAL_NOT_CONSUMED
  | PLAN_INVALID | PLAN_LIMIT_EXCEEDED | CODE_CANCELLED | TARGET_DENIED | FORBIDDEN_HEADER
  | TRANSPORT_TIMEOUT | TRANSPORT_ERROR | RESPONSE_TOO_LARGE | REDIRECT_RESPONSE
  | ASSERTIONS_FAILED.
#[export] Instance failure_code_eq_dec : EqDecision ExecutionFailureCode.
Proof. solve_decision. Defined.
Definition failure_code_value (c : ExecutionFailureCode) : pystr :=
  match c with
  | INVALID_CLAIM => u "invalid_claim" | APPROVAL_MISMATCH => u "approval_mismatch"
  | APPROVAL_EXPIRED => u "approval_expired" | APPROVAL_NOT_CONSUMED => u "approval_not_consumed"
  | PLAN_INVALID => u "plan_invalid" | PLAN_LIMIT_EXCEEDED => u "plan_limit_exceeded"
  | CODE_CANCELLED => u "cancelled" | TARGET_DENIED => u "target_denied"
  | FORBIDDEN_HEADER => u "forbidden_header" | TRANSPORT_TIMEOUT => u "transport_timeout"
  | TRANSPORT_ERROR => u "transport_error" | RESPONSE_TOO_LARGE => u "response_too_large"
  | REDIRECT_RESPONSE => u "redirect_response" | ASSERTIONS_FAILED => u "assertions_failed"
  end.

(** ** The environment *)

(** The keyword arguments of [ExecutionTransport.send]. *)
Record TransportRequest := {
  rq_method : HttpMethod;
  rq_url : pystr;
  rq_headers : list (pystr * pystr);
  rq_body : option bytes;
  rq_timeout_ms : Z;
  rq_max_response_bytes : Z;
  rq_follow_redirects : bool;
  rq_resolved_address : pystr;
}.

(** What a transport returned, before it is checked: an object that is no
    [TransportResponse], or one whose attributes hold any objects. *)
Inductive object :=
  | PyInt (z : Z) | PyBool (b : bool) | PyStr (s : pystr) | PyBytes (b : bytes)
  | PyTuple (l : list object) | PyOther.
Inductive transport_object :=
  | Response (status_code headers body elapsed_ms : object)
  | NotAResponse.

Record TransportResponse := {
  rs_status_code : Z;
  rs_headers : list (pystr * pystr);
  rs_body : bytes;
  rs_elapsed_ms : Z;
}.

Class ExecutionEnvironment (S : Type) := {
  #[global] env_resolver :: AddressResolver S;
  clock : io S datetime;
  is_cancel_requested : uuid -> io S bool;
  send : TransportRequest -> io S transport_object;
}.

(** ** Results *)

Record AssertionResult := {
  ar_target : AssertionTarget;
  ar_selector : option pystr;
  ar_operator : AssertionOperator;
  ar_passed : bool;
}.

(** [json_body] is [None] or a JSON value, and the JSON null is [None]. *)
Record RedactedRequestEvidence := {
  rqe_method : HttpMethod;
  rqe_url : pystr;
  rqe_headers : list (pystr * pystr);
  rqe_json_body : json;
}.
Record RedactedResponseEvidence := {
  rse_status_code : Z;
  rse_headers : list (pystr * pystr);
  rse_json_body : json;
  rse_body_bytes : Z;
  rse_body_sha256 : pystr;
  rse_elapsed_ms : Z;
}.

Record ExecutionResult := {
  er_job_id : option uuid;
  er_outcome : ExecutionOutcome;
  er_assertion_results : list AssertionResult;
  er_request_evidence : option RedactedRequestEvidence;
  er_response_evidence : option RedactedResponseEvidence;
  er_error_code : option ExecutionFailureCode;
  er_error_message : option string;
  er_transport_send_count : Z;
}.

(** [_failed] *)
Definition failed (job_id : option uuid) (code : ExecutionFailureCode)
    (request_evidence : option RedactedRequestEvidence)
    (response_evidence : option RedactedResponseEvidence)
    (assertion_results : list AssertionResult) (transport_send_count : Z) : ExecutionResult := {|
  er_job_id := job_id; er_outcome := OUTCOME_FAILED;
  er_assertion_results := assertion_results; er_request_evidence := request_evidence;
  er_response_evidence := response_evidence; er_error_code := Some code;
  er_error_message := Some "Restricted execution was denied or did not complete safely."%string;
  er_transport_send_count := transport_send_count |}.
Definition failed_early (job_id : option uuid) (code : ExecutionFailureCode) : ExecutionResult :=
  failed job_id code None None [] 0.

(** [_cancelled] *)
Definition cancelled (job_id : uuid) (request_evidence : RedactedRequestEvidence)
    (response_evidence : option RedactedResponseEvidence)
    (assertion_results : list AssertionResult) (transport_send_count : Z) : ExecutionResult := {|
  er_job_id := Some job_id; er_outcome := OUTCOME_CANCELLED;
  er_assertion_results := assertion_results; er_request_evidence := Some request_evidence;
  er_response_evidence := response_evidence; er_error_code := Some CODE_CANCELLED;
  er_error_message := Some "Restricted execution was cancelled."%string;
  er_transport_send_count := transport_send_count |}.

(** ** Checks before the request *)

(** [_validate_claim] *)
Definition validate_claim (job_id' : uuid) (approval : ExecutionApproval)
    (claimed : ClaimedExecutionJob) (now : instant) : option ExecutionFailureCode :=
  let job := claimed_job claimed in
  if negb (job_id job =? job_id')%N || negb (bool_decide (job_state job = RUNNING)) ||
     is_null (job_started_at job) || negb (job_approval_id job =? ea_id approval)%N
  then Some APPROVAL_MISMATCH
  else if negb (job_project_id job =? ea_project_id approval)%N then Some APPROVAL_MISMATCH
  else if is_null (ea_consumed_at approval) then Some APPROVAL_NOT_CONSUMED
  else if ea_expires_at approval <=? now then Some APPROVAL_EXPIRED
  else None.

(** [_job_matches_plan] *)
Definition job_matches_plan (claimed : ClaimedExecutionJob) (plan : ExecutionPlanV1) : bool :=
  let job := claimed_job claimed in
  let approved := ea_plan (claimed_approval claimed) in
  (job_plan_id job =? ExecutionPlans.id plan)%N && str_eqb (job_plan_hash job) (plan_hash plan) &&
  (ExecutionPlans.id plan =? ExecutionPlans.id approved)%N &&
  str_eqb (plan_hash plan) (plan_hash approved).

Section executor.
Context {rt : PyRuntime} {net : NetRuntime}.

(** [_canonical_body]: the text is ASCII, so encoding it keeps it. *)
Definition canonical_body (v : option (list (pystr * json))) : result (option bytes) :=
  match v with
  | None => Ok None
  | Some kvs => Some <$> encode (dumps_canonical (JObj kvs))
  end.

(** [_plan_limits_match] *)
Definition plan_limits_match (plan : ExecutionPlanV1) : result bool :=
  t ← test_case plan;
  body ← canonical_body (json_body (request t));
  Ok ((request_count (estimate plan) =? 1) &&
      (assertion_count (estimate plan) =? zlen (assertions t)) &&
      (assertion_count (estimate plan) <=? max_assertions (limits plan)) &&
      (maximum_response_bytes (estimate plan) =? max_response_bytes (limits plan)) &&
      (maximum_duration_ms (estimate plan) =? request_timeout_ms (limits plan)) &&
      (request_body_bytes (estimate plan) =?
         match body with None => 0 | Some b => zlen b end)).

(** [_validated_headers]; names and values are text already. *)
Definition validated_headers (l : list RequestHeaderV1) : result (list (pystr * pystr)) :=
  try_map (fun h =>
    raise_if (char_in 13 (header_name h) || char_in 10 (header_name h) ||
              char_in 13 (header_value h) || char_in 10 (header_value h))
      ValueError "malformed_header" ;;
    raise_if (bool_decide (str_lower (header_name h) ∈ FORBIDDEN_REQUEST_HEADERS))
      ValueError "forbidden_header" ;;
    Ok (header_name h, header_value h)) l.

(** [_request_url] *)
Definition request_url (plan : ExecutionPlanV1) : result pystr :=
  t ← test_case plan;
  q ← or_raise (urlencode ((fun p => (query_name p, query_value p)) <$> GeneratedTests.query (request t)))
        (Exn UnicodeEncodeError "surrogates not allowed");
  Ok (target_base_url plan ++ path (request t) ++
      match q with [] => [] | _ => 63%N :: q end).

(** ** Redaction *)

(** [_is_sensitive_name] *)
Definition is_sensitive_name (name : pystr) : bool :=
  let normalized := replace [95%N] [45%N] (str_lower name) in
  existsb (fun sensitive => contains sensitive normalized) SENSITIVE_NAMES.

(** [_redact_headers] *)
Definition redact_headers (l : list (pystr * pystr)) : list (pystr * pystr) :=
  (fun h => (h.1, if is_sensitive_name h.1 then REDACTED_VALUE else h.2)) <$> l.

(** [_redact_json] of a JSON value *)
Fixpoint redact_json (v : json) : json :=
  match v with
  | JObj kvs =>
      JObj (map (fun kv => (kv.1, if is_sensitive_name kv.1 then JStr REDACTED_VALUE
                                  else redact_json kv.2)) kvs)
  | JList l => JList (map redact_json l)
  | _ => v
  end.

(** [_redact_url] *)
Definition redact_item (item : pystr) : pystr :=
  let '(name, separator, value) := partition 61 item in
  name ++ (if separator then [61%N] else []) ++
  (if is_sensitive_name name then REDACTED_VALUE else value).
Definition redact_url (url : pystr) : result pystr :=
  parsed ← or_raise (urlsplit url) (Exn ValueError "Invalid URL");
  let pairs := redact_item <$> split_on 38 (url_query parsed) in
  Ok (urlunsplit {| scheme := scheme parsed; netloc := netloc parsed;
                    url_path := url_path parsed; url_query := join [38%N] pairs;
                    fragment := [] |}).

(** ** The response *)

(** [_valid_transport_response]: the response as a typed record when every
    check passes. *)
Definition header_object (h : object) : option (pystr * pystr) :=
  match h with PyTuple [PyStr name; PyStr value] => Some (name, value) | _ => None end.
Definition valid_transport_response (o : transport_object) : option TransportResponse :=
  match o with
  | Response (PyInt status) (PyTuple headers) (PyBytes body) (PyInt elapsed) =>
      if (100 <=? status) && (status <=? 599) && (0 <=? elapsed) then
        headers ← mapM header_object headers;
        Some {| rs_status_code := status; rs_headers := headers; rs_body := body;
                rs_elapsed_ms := elapsed |}
      else None
  | _ => None
  end.

(** The stack has to do for decoding a body and for redacting the value: the
    executor redacts what it parses. *)
Definition body_stack (text : pystr) : bool := stack_suffices text && walk_suffices text.

(** [_parse_json_object_or_array]; [None] is [_MISSING].  The limits of the
    decoder are not among the exceptions it catches. *)
Definition parse_json_object_or_array (body : bytes) : result (option json) :=
  value ← match utf8_decode body with
          | None => Ok None
          | Some text => try_except (Some <$> json_loads body_stack text)
                           (fun c => bool_decide (c = JSONDecodeError)) (fun _ => Ok None)
          end;
  Ok (match value with Some (JObj _) | Some (JList _) => value | _ => None end).

(** [_response_headers]: the values of each lower-cased name, in order. *)
Definition response_headers (l : list (pystr * pystr)) : gmap pystr (list pystr) :=
  foldl (fun m h => let k := str_lower h.1 in <[k := default [] (m !! k) ++ [h.2]]> m) ∅ l.

(** [_response_evidence] *)
Definition evidence_with (r : TransportResponse) (document : option json) :
    RedactedResponseEvidence := {|
  rse_status_code := rs_status_code r;
  rse_headers := redact_headers (rs_headers r);
  rse_json_body := match document with Some v => redact_json v | None => JNull end;
  rse_body_bytes := zlen (rs_body r);
  rse_body_sha256 := sha256_hex (rs_body r);
  rse_elapsed_ms := rs_elapsed_ms r |}.
Definition response_evidence (r : TransportResponse) (include_json : bool) :
    result RedactedResponseEvidence :=
  document ← if include_json then parse_json_object_or_array (rs_body r) else Ok None;
  Ok (evidence_with r document).

(** ** Assertions *)

(** What an assertion looks at: [_MISSING], the values of a header, or a JSON
    value. *)
Inductive found := MISSING | HeaderValues (values : list pystr) | JsonValue (v : json).

(** One reference token of a JSON pointer. *)
Definition unescape_token (s : pystr) : pystr :=
  replace (u "~0") (u "~") (replace (u "~1") (u "/") s).
Definition pointer_step (current : json) (token : pystr) : option json :=
  match current with
  | JObj kvs => dict_get token kvs
  | JList l =>
      if isdecimal token && (str_eqb token (u "0") || negb (starts_with (u "0") token))
      then l !! N.to_nat (int_of_decimal token) else None
  | _ => None
  end.
Fixpoint pointer_walk (current : json) (tokens : list pystr) : option json :=
  match tokens with
  | [] => Some current
  | t :: tokens =>
      match pointer_step current (unescape_token t) with
      | Some current => pointer_walk current tokens
      | None => None
      end
  end.

(** [_json_pointer] *)
Definition json_pointer (document : option json) (pointer : pystr) : found :=
  match document, pointer with
  | Some d, 47%N :: rest =>
      match pointer_walk d (split_on 47 rest) with Some v => JsonValue v | None => MISSING end
  | _, _ => MISSING
  end.

(** [v == expected]: a list or a dict never equals a scalar. *)
Definition json_scalar (v : json) : option ExpectedValue :=
  match v with
  | JNull => Some ENone | JBool b => Some (EBool b) | JInt z => Some (EInt z)
  | JFloat x => Some (EFloat x) | JStr s => Some (EStr s)
  | JList _ | JObj _ => None
  end.
Definition json_eq (v : json) (expected : ExpectedValue) : bool :=
  match json_scalar v with Some x => expected_eq x expected | None => false end.

(** [_apply_operator] *)
Definition apply_operator (v : found) (op : AssertionOperator) (expected : ExpectedValue) : bool :=
  match op, v with
  | EXISTS, MISSING => false
  | EXISTS, _ => true
  | _, MISSING => false
  | EQUALS, HeaderValues l => existsb (fun s => expected_eq (EStr s) expected) l
  | EQUALS, JsonValue v => json_eq v expected
  | CONTAINS, HeaderValues l => existsb (fun s => expected_eq (EStr s) expected) l
  | CONTAINS, JsonValue (JStr s) =>
      match expected with EStr e => contains e s | _ => false end
  | CONTAINS, JsonValue (JList l) => existsb (fun v => json_eq v expected) l
  | CONTAINS, JsonValue (JObj kvs) =>
      match expected with EStr e => bool_decide (e ∈ keys kvs) | _ => false end
  | CONTAINS, JsonValue _ => false
  | LESS_THAN_OR_EQUAL, JsonValue (JInt z) =>
      match expected with EInt e => z <=? e | _ => false end
  | LESS_THAN_OR_EQUAL, _ => false
  end.

(** [_evaluate_assertion] *)
Definition evaluate_assertion (a : GeneratedAssertionV1) (r : TransportResponse)
    (response_headers : gmap pystr (list pystr)) (document : option json) : bool :=
  match target a with
  | STATUS_CODE => expected_eq (EInt (rs_status_code r)) (expected_value a)
  | RESPONSE_TIME_MS =>
      match expected_value a with
      | EInt e => (0 <? e) && (rs_elapsed_ms r <=? e)
      | _ => false
      end
  | RESPONSE_HEADER =>
      apply_operator
        match response_headers !! str_lower (default [] (selector a)) with
        | Some values => HeaderValues values
        | None => MISSING
        end (operator a) (expected_value a)
  | JSON_BODY =>
      apply_operator (json_pointer document (default [] (selector a))) (operator a)
        (expected_value a)
  end.

(** [_evaluate_assertions] *)
Definition evaluate_assertions (plan : ExecutionPlanV1) (r : TransportResponse) :
    result (list AssertionResult) :=
  t ← test_case plan;
  document ← parse_json_object_or_array (rs_body r);
  let by_name := response_headers (rs_headers r) in
  Ok ((fun a => {| ar_target := target a; ar_selector := selector a; ar_operator := operator a;
                   ar_passed := evaluate_assertion a r by_name document |}) <$> assertions t).

(** ** [RestrictedExecutionExecutor.execute] *)

Context {S : Type} `{!ExecutionEnvironment S}.

(** What follows a valid response. *)
Definition conclude (plan : ExecutionPlanV1) (job : uuid) (evidence : RedactedRequestEvidence)
    (r : TransportResponse) : io S ExecutionResult :=
  if max_response_bytes (limits plan) <? zlen (rs_body r) then
    response ← lift (response_evidence r false);
    mret (failed (Some job) RESPONSE_TOO_LARGE (Some evidence) (Some response) [] 1)
  else
    response ← lift (response_evidence r true);
    if (300 <=? rs_status_code r) && (rs_status_code r <? 400) then
      mret (failed (Some job) REDIRECT_RESPONSE (Some evidence) (Some response) [] 1)
    else
      assertions ← lift (evaluate_assertions plan r);
      cancel ← is_cancel_requested job;
      if cancel : bool then mret (cancelled job evidence (Some response) assertions 1)
      else if negb (forallb ar_passed assertions) then
        mret (failed (Some job) ASSERTIONS_FAILED (Some evidence) (Some response) assertions 1)
      else
        mret {| er_job_id := Some job; er_outcome := OUTCOME_SUCCEEDED;
                er_assertion_results := assertions; er_request_evidence := Some evidence;
                er_response_evidence := Some response; er_error_code := None;
                er_error_message := None; er_transport_send_count := 1 |}.

(** The one request. *)
Definition transmit (plan : ExecutionPlanV1) (job : uuid) (evidence : RedactedRequestEvidence)
    (rq : TransportRequest) : io S ExecutionResult :=
  sent ← (fun s =>
    match send rq s with
    | (Ok o, s) => (Ok (inl (valid_transport_response o)), s)
    | (Raise e, s) => (Ok (inr (exn_cls e)), s)
    end);
  match sent with
  | inr c =>
      mret (failed (Some job) (if bool_decide (c = TimeoutError) then TRANSPORT_TIMEOUT
                               else TRANSPORT_ERROR) (Some evidence) None [] 1)
  | inl None => mret (failed (Some job) TRANSPORT_ERROR (Some evidence) None [] 1)
  | inl (Some r) => conclude plan job evidence r
  end.

(** From the validated plan on. *)
Definition execute_plan (registry : TargetRegistry) (job : uuid) (plan : ExecutionPlanV1) :
    io S ExecutionResult :=
  t ← lift (test_case plan);
  let request := request t in
  limits_match ← lift (plan_limits_match plan);
  if negb limits_match then mret (failed_early (Some job) PLAN_LIMIT_EXCEEDED)
  else
    prepared ← lift (try_except
      (body ← canonical_body (json_body request);
       headers ← validated_headers (headers request);
       Ok (inr (body, headers)))
      is_ValueError
      (fun error => Ok (inl (if String.eqb (exn_msg error) "forbidden_header"
                             then FORBIDDEN_HEADER else PLAN_INVALID))));
    match prepared with
    | inl code => mret (failed_early (Some job) code)
    | inr (body, headers) =>
        if match body with
           | Some b => max_request_body_bytes (limits plan) <? zlen b
           | None => false
           end
        then mret (failed_early (Some job) PLAN_LIMIT_EXCEEDED)
        else
          url ← lift (request_url plan);
          redacted_url ← lift (redact_url url);
          let evidence := {|
            rqe_method := method request; rqe_url := redacted_url;
            rqe_headers := redact_headers headers;
            rqe_json_body := match json_body request with
                             | Some kvs => redact_json (JObj kvs)
                             | None => JNull
                             end |} in
          cancel ← is_cancel_requested job;
          if cancel : bool then mret (cancelled job evidence None [] 0)
          else
            checked ← (fun s =>
              match validate_registered_target registry (value (target_id plan)) s with
              | (Ok target, s) => (Ok (Some target), s)
              | (Raise e, s) =>
                  if is_TargetValidationError (exn_cls e) then (Ok None, s) else (Raise e, s)
              end);
            let denied := mret (failed (Some job) TARGET_DENIED (Some evidence) None [] 0) in
            match checked with
            | None => denied
            | Some target =>
                if negb (bool_decide (vt_id target = target_id plan)) ||
                   negb (str_eqb (vt_origin target) (target_base_url plan))
                then denied
                else
                  cancel ← is_cancel_requested job;
                  if cancel : bool then mret (cancelled job evidence None [] 0)
                  else
                    url ← lift (request_url plan);
                    address ← lift (or_raise (head (vt_resolved_addresses target))
                                      (Exn OtherException "tuple index out of range"));
                    transmit plan job evidence
                      {| rq_method := method request; rq_url := url; rq_headers := headers;
                         rq_body := body;
                         rq_timeout_ms := request_timeout_ms (limits plan);
                         rq_max_response_bytes := max_response_bytes (limits plan);
                         rq_follow_redirects := false; rq_resolved_address := address |}
            end
    end.

(** [execute]; [None] is an object that is no claimed job. *)
Definition execute (registry : TargetRegistry) (claimed : option ClaimedExecutionJob) :
    io S ExecutionResult :=
  match claimed with
  | None => mret (failed_early None INVALID_CLAIM)
  | Some claimed =>
      let job := claimed_job claimed in
      let approval := claimed_approval claimed in
      now ← clock;
      match validate_claim (job_id job) approval claimed (utc_datetime now) with
      | Some failure => mret (failed_early (Some (job_id job)) failure)
      | None =>
          plan ← lift (try_except (Some <$> validate_execution_plan (ea_plan approval) registry)
                         (fun c => bool_decide (c = ExecutionPlanRejected)) (fun _ => Ok None));
          match plan with
          | None => mret (failed_early (Some (job_id job)) PLAN_INVALID)
          | Some plan =>
              if negb (job_matches_plan claimed plan)
              then mret (failed_early (Some (job_id job)) APPROVAL_MISMATCH)
              else execute_plan registry (job_id job) plan
          end
      end
  end.
End executor.
