(* ===== verification/RestrictedExecutionFacts.v ===== *)
(** * Facts about the restricted executor

    [traced] is an environment that keeps a trace of what the executor asked
    and what it was told; [execute_cases] and [transmit_cases] say what a run
    did before its request and from it on. *)
From S2P Require Import Prelude PyText Json JsonFacts Digest Effects GeneratedTests GeneratedTestsFacts Url.
From S2P Require Import TargetRegistry ExecutionPlans Database DatabaseFacts.
From S2P Require Import ExecutionApprovals ExecutionJobs RestrictedExecution.

(** ** Traces *)

Inductive env_event :=
  | Clock (r : result datetime)
  | Probe (job : uuid) (r : result bool)
  | Resolve (host : pystr) (r : result (list pystr))
  | Sent (rq : TransportRequest) (r : result transport_object).

Definition is_sent (e : env_event) : bool := match e with Sent _ _ => true | _ => false end.
Definition sends (tr : list env_event) : list env_event := List.filter is_sent tr.

Section traced.
Context {S : Type}.

Definition log {A} (event : result A -> env_event) (m : io S A) : io (S * list env_event) A :=
  fun st => let '(r, s) := m st.1 in (r, (s, st.2 ++ [event r])).

#[export] Instance traced_resolver `{!AddressResolver S} : AddressResolver (S * list env_event) :=
  fun host => log (Resolve host) (resolve host).

#[export] Instance traced `{!ExecutionEnvironment S} :
    ExecutionEnvironment (S * list env_event) := {|
  env_resolver := traced_resolver;
  clock := log Clock clock;
  is_cancel_requested job := log (Probe job) (is_cancel_requested job);
  send rq := log (Sent rq) (send rq) |}.

Lemma log_inv {A} (event : result A -> env_event) (m : io S A) s tr r s' :
  log event m (s, tr) = (r, s') -> s'.2 = tr ++ [event r] /\ m s = (r, s'.1).
Proof. unfold log. cbn. destruct (m s) as [r1 s1]. by intros [= <- <-]. Qed.
End traced.

(** A run that asked only for addresses. *)
Definition resolves_only (tr : list env_event) : Prop :=
  Forall (fun e => match e with Resolve _ _ => True | _ => False end) tr.

Lemma sends_app tr tr' : sends (tr ++ tr') = sends tr ++ sends tr'.
Proof. apply List.filter_app. Qed.

Lemma sends_sent rq x tr : sends (Sent rq x :: tr) = Sent rq x :: sends tr.
Proof. done. Qed.

Lemma elem_of_sends rq x tr : Sent rq x ∈ tr -> Sent rq x ∈ sends tr.
Proof. intros H. by apply list_elem_of_In, List.filter_In; split; [apply list_elem_of_In|]. Qed.

(** The one request of a trace. *)
Lemma only_sent prefix rest rq x rq' x' : sends prefix = [] -> sends rest = [] ->
  Sent rq' x' ∈ prefix ++ Sent rq x :: rest -> rq' = rq /\ x' = x.
Proof.
  intros H1 H2 Hin%elem_of_sends. rewrite sends_app, H1, sends_sent, H2 in Hin.
  by apply list_elem_of_singleton in Hin as [= -> ->].
Qed.

Lemma sends_resolves tr : resolves_only tr -> sends tr = [].
Proof. induction 1 as [|[| | |] tr He _ IH]; done. Qed.

Section validation.
Context {rt : PyRuntime} {net : NetRuntime} {S : Type} `{!AddressResolver S}.

Lemma resolve_traced host s tr r st :
  resolve host (s, tr) = (r, st) -> st.2 = tr ++ [Resolve host r].
Proof. intros H. by apply log_inv in H as [-> _]. Qed.

Lemma validate_target_resolves registry id s tr r st :
  validate_registered_target registry id (s, tr) = (r, st) ->
  exists evs, st.2 = tr ++ evs /\ resolves_only evs.
Proof.
  unfold validate_registered_target. intros H.
  assert (Hnil : exists evs, tr = tr ++ evs /\ resolves_only evs)
    by (exists []; rewrite app_nil_r; split; [done | constructor]).
  destruct (registry_get registry id) as [c|e]; [|by injection H as _ <-].
  rewrite io_bind_eq in H. cbn [lift] in H. rewrite io_bind_eq in H.
  destruct (parse_target_origin c) as [o|e]; [|by injection H as _ <-].
  cbn [lift] in H. rewrite io_bind_eq in H.
  destruct (resolve (origin_hostname o) (s, tr)) as [r1 [s1 tr1]] eqn:R1.
  apply resolve_traced in R1. cbn in R1. subst tr1.
  assert (H1 : forall r1, exists evs, tr ++ [Resolve (origin_hostname o) r1] = tr ++ evs /\
    resolves_only evs) by (intros r1'; eexists; split; [done | by repeat constructor]).
  destruct r1 as [a1|e]; [|injection H as _ <-; apply H1]. rewrite io_bind_eq in H.
  destruct (validated_public_answers a1) as [v1|e]; [|injection H as _ <-; apply H1].
  cbn [lift] in H. rewrite io_bind_eq in H.
  destruct (resolve (origin_hostname o) (s1, _)) as [r2 [s2 tr2]] eqn:R2.
  apply resolve_traced in R2. cbn in R2. subst tr2.
  assert (st.2 = (tr ++ [Resolve (origin_hostname o) (Ok a1)]) ++ [Resolve (origin_hostname o) r2])
    as ->.
  { destruct r2 as [a2|e]; [|by injection H as _ <-]. rewrite io_bind_eq in H.
    destruct (validated_public_answers a2) as [v2|e]; [|by injection H as _ <-].
    cbn [lift] in H. rewrite io_bind_eq in H. destruct (raise_if _ _ _); by injection H as _ <-. }
  eexists. rewrite <- app_assoc. split; [done|]. by repeat constructor.
Qed.

Lemma validate_target_traced registry id s tr t st :
  validate_registered_target registry id (s, tr) = (Ok t, st) ->
  exists a1 a2, st.2 = tr ++ [Resolve (vt_hostname t) (Ok a1); Resolve (vt_hostname t) (Ok a2)] /\
    eligible registry id a1 a2 t.
Proof.
  intros (a1 & a2 & [s1 tr1] & R1 & R2 & He)%validate_registered_target_eligible.
  apply resolve_traced in R1. cbn in R1. subst tr1. apply resolve_traced in R2.
  exists a1, a2. split; [|done]. by rewrite R2, <- app_assoc.
Qed.
End validation.

(** ** What is established before the request *)

Section executions.
Context {rt : PyRuntime} {net : NetRuntime}.

(** The evidence kept of a request. *)
Definition evidence_of (p : ExecutionPlanV1) (t : GeneratedTestCaseV1)
    (hs : list (pystr * pystr)) (ev : RedactedRequestEvidence) : Prop :=
  exists url, request_url p = Ok url /\ redact_url url = Ok (rqe_url ev) /\
    rqe_method ev = method (request t) /\ rqe_headers ev = redact_headers hs /\
    rqe_json_body ev = match json_body (request t) with
                       | Some kvs => redact_json (JObj kvs) | None => JNull end.

(** The request of plan [p], to a target that was validated after a clock
    reading at which the claim was valid and between two probes that found no
    cancellation. *)
Record cleared (registry : TargetRegistry) (cl : ClaimedExecutionJob) (p : ExecutionPlanV1)
    (t : GeneratedTestCaseV1) (prefix : list env_event) (rq : TransportRequest)
    (ev : RedactedRequestEvidence) (now : datetime) (c : TargetConfiguration)
    (v : ValidatedTarget) (a1 a2 : list pystr) : Prop := {
  cl_prefix : prefix =
    [Clock (Ok now); Probe (job_id (claimed_job cl)) (Ok false);
     Resolve (vt_hostname v) (Ok a1); Resolve (vt_hostname v) (Ok a2);
     Probe (job_id (claimed_job cl)) (Ok false)];
  cl_claim : validate_claim (job_id (claimed_job cl)) (claimed_approval cl) cl
    (utc_datetime now) = None;
  cl_plan : p = ea_plan (claimed_approval cl);
  cl_plan_ok : plan_ok registry p t c;
  cl_matches : job_matches_plan cl p = true;
  cl_target : eligible registry (value (target_id p)) a1 a2 v;
  cl_origin : vt_id v = target_id p /\ vt_origin v = target_base_url p;
  cl_url : request_url p = Ok (rq_url rq);
  cl_method : rq_method rq = method (request t);
  cl_headers : validated_headers (headers (request t)) = Ok (rq_headers rq);
  cl_body : canonical_body (json_body (request t)) = Ok (rq_body rq);
  cl_limits : rq_timeout_ms rq = request_timeout_ms (limits p) /\
    rq_max_response_bytes rq = max_response_bytes (limits p);
  cl_redirects : rq_follow_redirects rq = false;
  cl_address : rq_resolved_address rq ∈ vt_resolved_addresses v;
  cl_evidence : evidence_of p t (rq_headers rq) ev;
}.

Context {S : Type} `{!ExecutionEnvironment S}.

(** A run that sent nothing. *)
Definition unsent (r : result ExecutionResult) (tr : list env_event) : Prop :=
  sends tr = [] /\
  forall res, r = Ok res ->
    er_transport_send_count res = 0 /\ er_outcome res <> OUTCOME_SUCCEEDED /\
    er_response_evidence res = None /\ er_assertion_results res = [] /\
    (er_outcome res = OUTCOME_CANCELLED <-> er_error_code res = Some CODE_CANCELLED) /\
    er_error_code res <> None.

Lemma unsent_failed tr j code ev : sends tr = [] -> code <> CODE_CANCELLED ->
  unsent (Ok (failed j code ev None [] 0)) tr.
Proof. intros Ht Hc. split; [done|]. intros res [= <-]. cbn. split_and!; try done. split; congruence. Qed.

Lemma unsent_cancelled tr j ev : sends tr = [] -> unsent (Ok (cancelled j ev None [] 0)) tr.
Proof. intros Ht. split; [done|]. intros res [= <-]. by cbn. Qed.

Lemma unsent_raise tr e : sends tr = [] -> unsent (Raise e) tr.
Proof. intros Ht. by split. Qed.

Lemma prepared_cases (t : GeneratedTestCaseV1) x :
  try_except
    (body ← canonical_body (json_body (request t));
     headers ← validated_headers (headers (request t));
     Ok (inr (body, headers)))
    is_ValueError
    (fun error => Ok (inl (if String.eqb (exn_msg error) "forbidden_header"
                           then FORBIDDEN_HEADER else PLAN_INVALID))) = Ok x ->
  match x with
  | inl code => code <> CODE_CANCELLED
  | inr (body, hs) => canonical_body (json_body (request t)) = Ok body /\
                      validated_headers (headers (request t)) = Ok hs
  end.
Proof.
  intros [H|(e & _ & _ & H)]%try_except_Ok.
  - apply bind_Ok in H as (body & Hb & H). apply bind_Ok in H as (hs & Hh & H).
    by injection H as <-.
  - injection H as <-. by destruct (exn_msg e =? _)%string.
Qed.

Lemma execute_plan_cases registry cl p t c now s r st :
  validate_claim (job_id (claimed_job cl)) (claimed_approval cl) cl (utc_datetime now) = None ->
  p = ea_plan (claimed_approval cl) -> plan_ok registry p t c -> job_matches_plan cl p = true ->
  execute_plan registry (job_id (claimed_job cl)) p (s, [Clock (Ok now)]) = (r, st) ->
  unsent r st.2 \/
  exists prefix rq ev v a1 a2 s1, cleared registry cl p t prefix rq ev now c v a1 a2 /\
    transmit p (job_id (claimed_job cl)) ev rq (s1, prefix) = (r, st).
Proof.
  intros Hclaim Hp Hok Hm H. set (j := job_id (claimed_job cl)) in *.
  unfold execute_plan in H. rewrite (po_case _ _ _ _ Hok) in H.
  rewrite io_bind_eq in H. cbn [lift] in H. rewrite io_bind_eq in H. unfold lift at 1 in H.
  destruct (plan_limits_match p) as [b|e]; [|left; injection H as <- <-; by apply unsent_raise].
  destruct b; cbn [negb] in H; [|left; injection H as <- <-; by apply unsent_failed].
  rewrite io_bind_eq in H. unfold lift at 1 in H.
  destruct (try_except _ _ _) as [x|e] eqn:Hx; [|left; injection H as <- <-; by apply unsent_raise].
  apply prepared_cases in Hx. destruct x as [code|[body hs]];
    [left; injection H as <- <-; by apply unsent_failed|]. destruct Hx as [Hb Hh].
  destruct (match body with Some _ => _ | None => _ end);
    [left; injection H as <- <-; by apply unsent_failed|].
  rewrite io_bind_eq in H. unfold lift at 1 in H.
  destruct (request_url p) as [url|e] eqn:Hurl; [|left; injection H as <- <-; by apply unsent_raise].
  rewrite io_bind_eq in H. unfold lift at 1 in H.
  destruct (redact_url url) as [rurl|e] eqn:Hrurl; [|left; injection H as <- <-; by apply unsent_raise].
  cbv zeta in H. set (ev := {| rqe_method := _ |}) in H.
  assert (evidence_of p t hs ev) as Hev by (exists url; by split_and!).
  rewrite io_bind_eq in H.
  destruct (is_cancel_requested j (s, _)) as [rp [s1 tr1]] eqn:P1.
  apply log_inv in P1 as [Htr1 _]. cbn in Htr1. subst tr1.
  destruct rp as [[]|e]; [left; injection H as <- <-; by apply unsent_cancelled| |
    left; injection H as <- <-; by apply unsent_raise].
  rewrite io_bind_eq in H.
  destruct (validate_registered_target registry (value (target_id p)) _) as [rv [s2 tr2]] eqn:V.
  pose proof V as (evs & Htr2 & Hres)%validate_target_resolves. cbn in Htr2. subst tr2.
  assert (sends (Clock (Ok now) :: Probe j (Ok false) :: evs) = []) as Hs
    by (cbn; by apply sends_resolves).
  destruct rv as [v|e].
  2:{ destruct (is_TargetValidationError (exn_cls e)); left; injection H as <- <-;
      [by apply unsent_failed | by apply unsent_raise]. }
  apply validate_target_traced in V as (a1 & a2 & Htr & Hel). cbn in Htr.
  injection Htr as ->. cbv beta iota in H.
  destruct (negb (bool_decide (vt_id v = target_id p)) || _) eqn:Hor;
    [left; injection H as <- <-; by apply unsent_failed|]. bools.
  rewrite io_bind_eq in H.
  destruct (is_cancel_requested j (s2, _)) as [rp [s3 tr3]] eqn:P2.
  apply log_inv in P2 as [Htr3 _]. cbn in Htr3. subst tr3.
  destruct rp as [[]|e]; [left; injection H as <- <-; by apply unsent_cancelled| |
    left; injection H as <- <-; by apply unsent_raise].
  rewrite io_bind_eq in H. unfold lift at 1 in H. rewrite io_bind_eq in H. unfold lift at 1 in H.
  destruct (vt_resolved_addresses v) as [|address rest] eqn:Hadd;
    [left; injection H as <- <-; by apply unsent_raise|]. cbn [head or_raise] in H.
  right. eexists _, _, ev, v, a1, a2, s3. split; [|exact H].
  split; cbn; split_and?; try done; [by apply str_eqb_eq|]. rewrite Hadd. left.
Qed.

Lemma execute_cases registry cl s r st :
  execute registry (Some cl) (s, []) = (r, st) ->
  unsent r st.2 \/
  exists t prefix rq ev now c v a1 a2 s1,
    cleared registry cl (ea_plan (claimed_approval cl)) t prefix rq ev now c v a1 a2 /\
    transmit (ea_plan (claimed_approval cl)) (job_id (claimed_job cl)) ev rq (s1, prefix) = (r, st).
Proof.
  intros H. cbn [execute] in H. rewrite io_bind_eq in H.
  destruct (clock (s, [])) as [rc [s1 tr1]] eqn:C. apply log_inv in C as [Htr1 _].
  cbn in Htr1. subst tr1.
  destruct rc as [now|e]; [|left; injection H as <- <-; by apply unsent_raise].
  destruct (validate_claim _ _ _ _) as [code|] eqn:Hc.
  { left. injection H as <- <-. apply unsent_failed; [done|].
    unfold validate_claim in Hc. repeat case_match; naive_solver. }
  rewrite io_bind_eq in H. unfold lift at 1 in H.
  destruct (try_except _ _ _) as [q|e] eqn:Hq; [|left; injection H as <- <-; by apply unsent_raise].
  apply try_except_Ok in Hq as [Hq|(e & _ & _ & [= <-])];
    [|left; injection H as <- <-; by apply unsent_failed].
  apply fmap_Ok in Hq as (p & Hp & ->). apply validate_plan_iff in Hp as (-> & t & c & Hok).
  destruct (job_matches_plan cl _) eqn:Hm; cbn [negb] in H;
    [|left; injection H as <- <-; by apply unsent_failed].
  eapply execute_plan_cases in H as [H|(prefix & rq & ev & v & a1 & a2 & s2 & Hcl & H)];
    [by left| |done..]. right. by eexists _, _, _, _, _, _, _, _, _, _.
Qed.
End executions.

(** ** From the request on *)

(** What came back. *)
Inductive reply :=
  | TimedOut | Broken | TooLarge (r : TransportResponse) | Undecodable (e : exn)
  | Redirected (r : TransportResponse) (document : option json)
  | Answered (r : TransportResponse) (document : option json).

Definition classify {rt : PyRuntime} (p : ExecutionPlanV1) (x : result transport_object) : reply :=
  match x with
  | Raise e => if bool_decide (exn_cls e = TimeoutError) then TimedOut else Broken
  | Ok o =>
      match valid_transport_response o with
      | None => Broken
      | Some r =>
          if max_response_bytes (limits p) <? zlen (rs_body r) then TooLarge r
          else
            match parse_json_object_or_array (rs_body r) with
            | Raise e => Undecodable e
            | Ok document =>
                if (300 <=? rs_status_code r) && (rs_status_code r <? 400)
                then Redirected r document else Answered r document
            end
      end
  end.

Section transmission.
Context {rt : PyRuntime} {net : NetRuntime}.

(** The assertions of a test case, evaluated on a response. *)
Definition results_of (t : GeneratedTestCaseV1) (r : TransportResponse) (document : option json) :
    list AssertionResult :=
  (fun a => {| ar_target := target a; ar_selector := selector a; ar_operator := operator a;
               ar_passed := evaluate_assertion a r (response_headers (rs_headers r)) document |}) <$> assertions t.

(** The result after the last probe answered [cancel]. *)
Definition judged (t : GeneratedTestCaseV1) (j : uuid) (ev : RedactedRequestEvidence)
    (r : TransportResponse) (document : option json) (cancel : bool) : ExecutionResult :=
  let response := Some (evidence_with r document) in
  let results := results_of t r document in
  if cancel then cancelled j ev response results 1
  else if forallb ar_passed results
  then {| er_job_id := Some j; er_outcome := OUTCOME_SUCCEEDED;
          er_assertion_results := results; er_request_evidence := Some ev;
          er_response_evidence := response; er_error_code := None; er_error_message := None;
          er_transport_send_count := 1 |}
  else failed (Some j) ASSERTIONS_FAILED (Some ev) response results 1.

(** What the executor concludes from the transport's answer [x], and, when it
    asked it, from the last probe's. *)
Definition concludes (p : ExecutionPlanV1) (t : GeneratedTestCaseV1) (j : uuid)
    (ev : RedactedRequestEvidence) (x : result transport_object) (rest : list env_event)
    (r : result ExecutionResult) : Prop :=
  match classify p x with
  | TimedOut => rest = [] /\ r = Ok (failed (Some j) TRANSPORT_TIMEOUT (Some ev) None [] 1)
  | Broken => rest = [] /\ r = Ok (failed (Some j) TRANSPORT_ERROR (Some ev) None [] 1)
  | TooLarge rs => rest = [] /\
      r = Ok (failed (Some j) RESPONSE_TOO_LARGE (Some ev) (Some (evidence_with rs None)) [] 1)
  | Undecodable e => rest = [] /\ r = Raise e
  | Redirected rs document => rest = [] /\
      r = Ok (failed (Some j) REDIRECT_RESPONSE (Some ev) (Some (evidence_with rs document)) [] 1)
  | Answered rs document => exists y, rest = [Probe j y] /\ r = judged t j ev rs document <$> y
  end.

Context {S : Type} `{!ExecutionEnvironment S}.

Lemma transmit_cases p t j ev rq s prefix r st :
  test_case p = Ok t -> transmit p j ev rq (s, prefix) = (r, st) ->
  exists x rest, st.2 = prefix ++ Sent rq x :: rest /\ concludes p t j ev x rest r.
Proof.
  intros Ht H. unfold transmit in H. rewrite io_bind_eq in H.
  destruct (send rq (s, prefix)) as [x [s1 tr1]] eqn:Hs. apply log_inv in Hs as [Htr _].
  cbn in Htr. subst tr1. unfold concludes, classify. exists x.
  destruct x as [o|e].
  2:{ exists []. destruct (bool_decide _); by injection H as <- <-. }
  destruct (valid_transport_response o) as [rs|]; [|exists []; by injection H as <- <-].
  unfold conclude in H. destruct (_ <? zlen (rs_body rs)); [exists []; by injection H as <- <-|].
  rewrite io_bind_eq in H. unfold lift at 1, response_evidence in H.
  destruct (parse_json_object_or_array (rs_body rs)) as [document|e] eqn:Hdoc; [|exists []; by injection H as <- <-].
  rewrite bind_ok in H. destruct ((300 <=? _) && _); [exists []; by injection H as <- <-|].
  unfold evaluate_assertions in H. rewrite Ht, bind_ok, Hdoc, bind_ok in H. cbv zeta in H.
  rewrite io_bind_eq in H. unfold lift in H. rewrite io_bind_eq in H.
  destruct (is_cancel_requested j (s1, _)) as [y [s2 tr2]] eqn:P. apply log_inv in P as [Htr _].
  cbn in Htr. subst tr2. exists [Probe j y]. fold (results_of t rs document) in H.
  rewrite <- app_assoc in H. unfold judged.
  destruct y as [[]|e]; [| |]; cbn [fmap result_fmap].
  - injection H as <- <-. split; [done|]. eauto.
  - destruct (forallb ar_passed _); injection H as <- <-; (split; [done|]; eauto).
  - injection H as <- <-. split; [done|]. eauto.
Qed.
End transmission.

(** ** Every run whose checks pass sends its request *)

Section proceeding.
Context {rt : PyRuntime} {net : NetRuntime}.

(** A valid plan fits its limits, so the executor's own comparison agrees. *)
Lemma plan_limits_agree registry p t c : plan_ok registry p t c ->
  plan_limits_match p = Ok true /\
  exists body, canonical_body (json_body (request t)) = Ok body /\
    match body with
    | Some b => zlen b <= max_request_body_bytes (limits p)
    | None => True
    end.
Proof.
  intros Hok. pose proof (po_estimate _ _ _ _ Hok) as He. unfold plan_limits_match.
  rewrite (po_case _ _ _ _ Hok), bind_ok. unfold plan_estimate in He. ok_inv.
  rewrite <- He. bools. unfold canonical_body.
  destruct (json_body (request t)) as [kvs|]; ok_inv; subst.
  - match goal with E : encode _ = Ok ?b |- _ => unfold canonical_json in E; rewrite E end.
    cbn [fmap result_fmap]. rewrite bind_ok. cbn. rewrite !Z.eqb_refl. split.
    + do 2 f_equal. rewrite !andb_true_r. by apply Z.leb_le.
    + eexists. split; [done|]. by cbn.
  - rewrite bind_ok. cbn. rewrite !Z.eqb_refl. split; [|by exists None].
    do 2 f_equal. rewrite !andb_true_r. by apply Z.leb_le.
Qed.

Context {S : Type} `{!ExecutionEnvironment S}.

Definition request_for (p : ExecutionPlanV1) (t : GeneratedTestCaseV1) (url : pystr)
    (hs : list (pystr * pystr)) (body : option bytes) (address : pystr) : TransportRequest := {|
  rq_method := method (request t); rq_url := url; rq_headers := hs; rq_body := body;
  rq_timeout_ms := request_timeout_ms (limits p);
  rq_max_response_bytes := max_response_bytes (limits p);
  rq_follow_redirects := false; rq_resolved_address := address |}.
Definition evidence_for (t : GeneratedTestCaseV1) (url : pystr) (hs : list (pystr * pystr)) :
    RedactedRequestEvidence := {|
  rqe_method := method (request t); rqe_url := url; rqe_headers := redact_headers hs;
  rqe_json_body := match json_body (request t) with
                   | Some kvs => redact_json (JObj kvs) | None => JNull end |}.

Lemma execute_proceeds registry cl t c now url redacted hs body v address s s1 s2 s3 s4 :
  let p := ea_plan (claimed_approval cl) in
  let j := job_id (claimed_job cl) in
  clock s = (Ok now, s1) ->
  validate_claim j (claimed_approval cl) cl (utc_datetime now) = None ->
  plan_ok registry p t c -> job_matches_plan cl p = true ->
  canonical_body (json_body (request t)) = Ok body ->
  validated_headers (headers (request t)) = Ok hs ->
  request_url p = Ok url -> redact_url url = Ok redacted ->
  is_cancel_requested j s1 = (Ok false, s2) ->
  validate_registered_target registry (value (target_id p)) s2 = (Ok v, s3) ->
  vt_id v = target_id p -> vt_origin v = target_base_url p ->
  is_cancel_requested j s3 = (Ok false, s4) ->
  head (vt_resolved_addresses v) = Some address ->
  execute registry (Some cl) s =
  transmit p j (evidence_for t redacted hs) (request_for p t url hs body address) s4.
Proof.
  intros p j Hc Hclaim Hok Hm Hb Hh Hu Hr P1 V Hid Ho P2 Ha.
  destruct (plan_limits_agree _ _ _ _ Hok) as (Hl & body' & Hb' & Hsize).
  assert (body' = body) as -> by congruence.
  assert (validate_execution_plan p registry = Ok p) as Hv by (apply validate_plan_iff; eauto).
  unfold execute. fold j. erewrite io_step by exact Hc. rewrite Hclaim.
  erewrite io_step by (apply lift_run; fold p; by rewrite Hv). cbv beta iota. rewrite Hm.
  cbn [negb]. unfold execute_plan.
  erewrite io_step by (apply lift_run, (po_case _ _ _ _ Hok)). cbv zeta.
  erewrite io_step by (apply lift_run, Hl). cbn [negb].
  erewrite io_step by (apply lift_run; rewrite Hb, Hh, !bind_ok; reflexivity). cbv beta iota.
  assert (match body with Some b => max_request_body_bytes (limits p) <? zlen b
                        | None => false end = false) as ->.
  { destruct body; [by apply Z.ltb_ge|done]. }
  erewrite io_step by (apply lift_run, Hu). erewrite io_step by (apply lift_run, Hr).
  erewrite io_step by exact P1. cbv beta iota.
  erewrite io_step by (by rewrite V). cbv beta iota.
  rewrite Hid, Ho, bool_decide_eq_true_2, str_eqb_refl by done. cbn [negb orb].
  erewrite io_step by exact P2. cbv beta iota.
  erewrite io_step by (apply lift_run, Hu).
  erewrite io_step by (apply lift_run; by rewrite Ha). done.
Qed.
End proceeding.
