(* ===== verification/ExecutorSamples.v ===== *)
(** * A concrete execution

    An environment that answers a claimed job's one request with a response,
    and the run of the executor in it. *)
From S2P Require Import Prelude PyText Json JsonFacts Digest Effects GeneratedTests GeneratedTestsFacts Url.
From S2P Require Import GeneratedTestsSpec TargetRegistry ExecutionPlans Database DatabaseFacts.
From S2P Require Import ExecutionApprovals ExecutionJobs RestrictedExecution RestrictedExecutionFacts.
From S2P Require Import AsciiRuntime Samples SystemSamples.

(** The transport answers [o]. *)
Definition sample_environment (o : transport_object) : ExecutionEnvironment unit := {|
  env_resolver := fun _ s => (Ok [u "8.8.8.8"], s);
  clock s := (Ok (utc 5), s);
  is_cancel_requested _ s := (Ok false, s);
  send _ s := (Ok o, s) |}.

(** [{"id":1}] *)
Definition created_body : bytes := [123; 34; 105; 100; 34; 58; 49; 125]%N.
(** A JSON response of status 201. *)
Definition created (body : bytes) : transport_object :=
  Response (PyInt 201) (PyTuple []) (PyBytes body) (PyInt 3).
Definition created_response (body : bytes) : TransportResponse := {|
  rs_status_code := 201; rs_headers := []; rs_body := body; rs_elapsed_ms := 3 |}.

Definition sample_url : pystr :=
  u "https://ai-qa-sandbox.onrender.com/orders?access_token=q&page=2".
Definition sample_redacted_url : pystr :=
  u "https://ai-qa-sandbox.onrender.com/orders?access_token=[REDACTED]&page=2".
Definition sample_headers : list (pystr * pystr) := [(u "X-Trace", u "t")].
Definition sample_target_checked : ValidatedTarget := {|
  vt_id := SYNTHETIC_ORDER_API; vt_origin := u "https://ai-qa-sandbox.onrender.com";
  vt_hostname := u "ai-qa-sandbox.onrender.com"; vt_port := 443;
  vt_resolved_addresses := [u "8.8.8.8"]; vt_redirects_allowed := false |}.

Definition sample_body : option bytes :=
  match canonical_body (json_body (request (sorted_case sample_case))) with
  | Ok b => b
  | Raise _ => None
  end.

Definition sample_evidence : RedactedRequestEvidence :=
  evidence_for (sorted_case sample_case) sample_redacted_url sample_headers.
Definition sample_prefix : list env_event :=
  [Clock (Ok (utc 5)); Probe 4 (Ok false);
   Resolve (u "ai-qa-sandbox.onrender.com") (Ok [u "8.8.8.8"]);
   Resolve (u "ai-qa-sandbox.onrender.com") (Ok [u "8.8.8.8"]); Probe 4 (Ok false)].

Section sample_execution.
Context (p : ExecutionPlanV1) (Hp : approvable p) (o : transport_object).
#[local] Instance environment : ExecutionEnvironment unit := sample_environment o.

Definition sample_transmitted : TransportRequest :=
  request_for p (sorted_case sample_case) sample_url sample_headers
    sample_body (u "8.8.8.8").

Lemma sample_request_url : request_url p = Ok sample_url.
Proof.
  destruct Hp as [Hok _]. unfold request_url.
  rewrite (po_case _ _ _ _ Hok), bind_ok, (po_base_url _ _ _ _ Hok). vm_compute. reflexivity.
Qed.

(** The executor clears the claim and turns to the transport. *)
Lemma sample_execution : execute (S := unit * list env_event) DEFAULT_TARGET_REGISTRY (Some (claimed_plan p)) (tt, []) =
  transmit p 4 sample_evidence sample_transmitted (tt, sample_prefix).
Proof.
  destruct Hp as [Hok _].
  apply execute_proceeds with (t := sorted_case sample_case) (c := sample_target)
    (now := utc 5) (url := sample_url) (redacted := sample_redacted_url) (body := sample_body)
    (v := sample_target_checked) (s1 := (tt, take 1 sample_prefix))
    (s2 := (tt, take 2 sample_prefix)) (s3 := (tt, take 4 sample_prefix)); try done.
  - unfold job_matches_plan. cbn. by rewrite N.eqb_refl, !str_eqb_refl.
  - exact sample_request_url.
  - cbn. by destruct (target_id p).
  - cbn. by rewrite (po_base_url _ _ _ _ Hok).
Qed.

Definition sample_result (body : bytes) (document : option json) : ExecutionResult :=
  judged (sorted_case sample_case) 4 sample_evidence (created_response body) document false.
Definition sample_trace : list env_event :=
  sample_prefix ++ [Sent sample_transmitted (Ok o); Probe 4 (Ok false)].

(** A response of status 201 within the size limit is judged. *)
Lemma sample_judged body document : o = created body -> zlen body <= max_response_bytes (limits p) ->
  parse_json_object_or_array body = Ok document ->
  execute (S := unit * list env_event) DEFAULT_TARGET_REGISTRY (Some (claimed_plan p)) (tt, []) =
  (Ok (sample_result body document), (tt, sample_trace)).
Proof.
  intros Ho Hb Hd. rewrite sample_execution. unfold transmit.
  erewrite io_step by reflexivity. rewrite Ho. cbv beta iota.
  change (valid_transport_response (created body)) with (Some (created_response body)).
  unfold conclude. cbn [rs_body created_response rs_status_code].
  rewrite (proj2 (Z.ltb_ge _ _) Hb). cbv iota.
  erewrite io_step by (apply lift_run; unfold response_evidence; cbn [rs_body created_response]; rewrite Hd; reflexivity).
  change ((300 <=? 201) && (201 <? 400)) with false. cbv iota zeta.
  unfold evaluate_assertions. destruct Hp as [Hok _].
  erewrite io_step by (apply lift_run; cbn [rs_body created_response]; by rewrite (po_case _ _ _ _ Hok), bind_ok, Hd, bind_ok).
  erewrite io_step by reflexivity. cbv beta iota. unfold sample_result, judged, sample_trace.
  fold (results_of (sorted_case sample_case) (created_response body) document).
  rewrite Ho. by destruct (forallb _ _).
Qed.
End sample_execution.

(** What the sample body spells, and one that the decoder refuses. *)
Definition created_document : option json := Some (JObj [(u "id", JInt 1)]).
Lemma created_parses : parse_json_object_or_array created_body = Ok created_document.
Proof. vm_compute. reflexivity. Qed.
Definition long_integer_body : bytes := [91%N] ++ repeat 57%N (Z.to_nat 4301) ++ [93%N].
Lemma long_integer_refused : parse_json_object_or_array long_integer_body =
  raise ValueError "Exceeds the limit (4300 digits) for integer string conversion".
Proof. vm_compute. reflexivity. Qed.

Lemma created_succeeds : er_outcome (sample_result created_body created_document) = OUTCOME_SUCCEEDED.
Proof.
  unfold sample_result, judged.
  assert (forallb ar_passed (results_of (sorted_case sample_case)
    (created_response created_body) created_document) = true) as -> by (vm_compute; reflexivity).
  reflexivity.
Qed.

(** A plan whose job runs in the sample environment. *)
Lemma sample_run : exists p, approvable p /\ limits p = DEFAULT_EXECUTION_LIMITS /\ forall body document, zlen body <= 256000 ->
  parse_json_object_or_array body = Ok document ->
  @execute _ _ _ (@traced _ (sample_environment (created body))) DEFAULT_TARGET_REGISTRY
    (Some (claimed_plan p)) (tt, []) =
  (Ok (sample_result body document), (tt, sample_trace p (created body))).
Proof.
  destruct sample_plan_limited as (p & Hp & Hl). exists p. split; [done|]. split; [done|].
  intros body document Hb Hd. apply sample_judged; [done|done| |done]. by rewrite Hl.
Qed.
