(* ===== verification/RestrictedExecutionSpec.v ===== *)
(** * The restricted executor: properties

    One request at most, only after every check, to a validated address; what
    the executor concludes from the answer; and that it returns. *)
From S2P Require Import Prelude PyText Json JsonFacts Digest Effects GeneratedTests GeneratedTestsFacts Url.
From S2P Require Import TargetRegistry ExecutionPlans Database DatabaseFacts.
From S2P Require Import ExecutionApprovals ExecutionJobs RestrictedExecution RestrictedExecutionFacts.
From S2P Require Import GeneratedTestsSpec AsciiRuntime Samples SystemSamples ExecutorSamples.

Section properties.
Context {rt : PyRuntime} {net : NetRuntime} {S : Type} `{!ExecutionEnvironment S}.

Lemma concludes_no_send p t j ev x rest r : concludes p t j ev x rest r -> sends rest = [].
Proof. unfold concludes. destruct (classify p x); naive_solver. Qed.

Lemma concludes_count p t j ev x rest res : concludes p t j ev x rest (Ok res) ->
  er_transport_send_count res = 1.
Proof.
  unfold concludes, judged. destruct (classify p x) as [| |rs|e|rs document|rs document].
  1-5: by intros [_ [= ->]].
  intros (y & _ & H). destruct y as [[]|e]; [| |done]; cbn in H; injection H as ->; [done|].
  by destruct (forallb _ _).
Qed.

Lemma cleared_sends registry cl p t prefix rq ev now c v a1 a2 :
  cleared registry cl p t prefix rq ev now c v a1 a2 -> sends prefix = [].
Proof. intros H. by rewrite (cl_prefix _ _ _ _ _ _ _ _ _ _ _ _ H). Qed.

(** C5: One execution sends at most one request, whatever the claim and
    however the clock, the probe, the resolver and the transport behave, and
    the result it returns reports exactly how many it sent. *)
Theorem execute_sends_at_most_once registry claimed s :
  let '(r, (_, tr)) := execute registry claimed (s, []) in
  (length (sends tr) <= 1)%nat /\
  forall res, r = Ok res -> er_transport_send_count res = Z.of_nat (length (sends tr)).
Proof.
  destruct (execute registry claimed (s, [])) as [r [s' tr]] eqn:H.
  destruct claimed as [cl|].
  2:{ injection H as <- _ <-. cbn. split; [lia|]. by intros res [= <-]. }
  apply execute_cases in H as [[Hs Hr]|(t & prefix & rq & ev & now & c & v & a1 & a2 & s1 & Hc & H)].
  - change (sends tr = []) in Hs. rewrite Hs. split; [cbn; lia|]. intros res Hres. by destruct (Hr res Hres).
  - eapply transmit_cases in H as (x & rest & Htr & Hcon); [|apply (po_case _ _ _ _ (cl_plan_ok _ _ _ _ _ _ _ _ _ _ _ _ Hc))].
    cbn in Htr. subst tr. rewrite sends_app, (cleared_sends _ _ _ _ _ _ _ _ _ _ _ _ Hc), sends_sent,
      (concludes_no_send _ _ _ _ _ _ _ Hcon). cbn. split; [lia|].
    intros res ->. by apply concludes_count in Hcon.
Qed.

Lemma validate_claim_None j a cl now : validate_claim j a cl now = None ->
  let job := claimed_job cl in
  job_state job = RUNNING /\ job_started_at job <> None /\ job_approval_id job = ea_id a /\
  job_project_id job = ea_project_id a /\ ea_consumed_at a <> None /\ now < ea_expires_at a.
Proof.
  unfold validate_claim. intros H.
  cbv zeta in H. repeat case_match; try done. bools. split_and!; try done.
  - by destruct (job_started_at _).
  - by destruct (ea_consumed_at a).
Qed.

Lemma validated_headers_safe l hs n w : validated_headers l = Ok hs -> (n, w) ∈ hs ->
  str_lower n ∉ FORBIDDEN_REQUEST_HEADERS /\
  (13%N ∉ n /\ 10%N ∉ n) /\ (13%N ∉ w /\ 10%N ∉ w).
Proof.
  intros H%try_map_Ok Hin. apply list_elem_of_lookup_1 in Hin as [i Hi].
  destruct (Forall2_lookup_r _ _ _ _ _ H Hi) as (h & _ & Hh). cbn beta in Hh. ok_inv.
  unfold char_in in *. by bools.
Qed.

(** C4: A request is sent only after every check passed, in this order: at a
    clock reading when the claimed job was running under its consumed,
    unexpired approval of the same project; for the approved plan, which is
    valid and whose identity and hash are the job's; after a probe that found
    no cancellation, two resolutions of the registered host that published
    the same public addresses, and another such probe.  It goes to one of
    those addresses, under a URL of the registered origin and the plan's
    path, with the plan's method and limits, without following redirects, and
    with no forbidden header and no line break in a header. *)
Theorem execute_send_cleared registry cl s rq x :
  let '(_, (_, tr)) := execute registry (Some cl) (s, []) in
  Sent rq x ∈ tr ->
  let job := claimed_job cl in let a := claimed_approval cl in let p := ea_plan a in
  exists now t c v a1 a2 suffix,
    take 6 tr = [Clock (Ok now); Probe (job_id job) (Ok false);
                 Resolve (vt_hostname v) (Ok a1); Resolve (vt_hostname v) (Ok a2);
                 Probe (job_id job) (Ok false); Sent rq x] /\
    (job_state job = RUNNING /\ job_started_at job <> None /\ job_approval_id job = ea_id a /\
     job_project_id job = ea_project_id a /\ ea_consumed_at a <> None /\
     utc_datetime now < ea_expires_at a) /\
    (plan_ok registry p t c /\ job_plan_id job = ExecutionPlans.id p /\
     job_plan_hash job = plan_hash p) /\
    eligible registry (value (target_id p)) a1 a2 v /\
    rq_resolved_address rq ∈ vt_resolved_addresses v /\
    rq_url rq = vt_origin v ++ path (request t) ++ suffix /\
    rq_method rq = method (request t) /\ rq_follow_redirects rq = false /\
    rq_timeout_ms rq = request_timeout_ms (limits p) /\
    rq_max_response_bytes rq = max_response_bytes (limits p) /\
    forall n w, (n, w) ∈ rq_headers rq ->
      str_lower n ∉ FORBIDDEN_REQUEST_HEADERS /\
      (13%N ∉ n /\ 10%N ∉ n) /\ (13%N ∉ w /\ 10%N ∉ w).
Proof.
  destruct (execute registry (Some cl) (s, [])) as [r [s' tr]] eqn:H. intros Hin job a p.
  apply execute_cases in H as [[Hs _]|(t & prefix & rq' & ev & now & c & v & a1 & a2 & s1 & Hc & H)].
  { exfalso. apply (not_elem_of_nil (Sent rq x)). rewrite <- Hs.
    by apply elem_of_sends. }
  pose proof Hc as [Hpre Hcl _ Hok Hm Ht [_ Ho] Hu Hme Hh _ [Hl1 Hl2] Hre Had _]. eapply transmit_cases in H as (x' & rest & Htr & Hcon); [|by eapply po_case].
  cbn in Htr. subst tr.
  destruct (only_sent _ _ _ _ _ _ (cleared_sends _ _ _ _ _ _ _ _ _ _ _ _ Hc)
    (concludes_no_send _ _ _ _ _ _ _ Hcon) Hin) as [<- <-].
  assert (exists suffix, rq_url rq = vt_origin v ++ path (request t) ++ suffix) as [suffix Hurl].
  { unfold request_url in Hu. rewrite (po_case _ _ _ _ Hok) in Hu. ok_inv. rewrite Ho.
    eexists. by match goal with E : _ = rq_url rq |- _ => rewrite <- E end. }
  exists now, t, c, v, a1, a2, suffix. subst prefix.
  unfold job_matches_plan in Hm. bools.
  split; [done|]. split; [by apply validate_claim_None in Hcl|].
  split_and!; try done; try (by apply str_eqb_eq).
  intros n w. by apply validated_headers_safe with (headers (request t)).
Qed.

Lemma judged_outcome t j ev rs document b : er_outcome (judged t j ev rs document b) = OUTCOME_SUCCEEDED <->
  b = false /\ forall a, a ∈ assertions t ->
    evaluate_assertion a rs (response_headers (rs_headers rs)) document = true.
Proof.
  assert (forallb ar_passed (results_of t rs document) = true <-> forall a, a ∈ assertions t ->
    evaluate_assertion a rs (response_headers (rs_headers rs)) document = true) as E.
  { rewrite forallb_Forall. unfold results_of. rewrite Forall_fmap, Forall_forall. done. }
  unfold judged. cbv zeta. destruct b; [naive_solver|]. rewrite <- E.
  destruct (forallb _ _); cbn; naive_solver.
Qed.

(** Success means exactly this: the transport returned a well-formed
    response within the size limit that is no redirect and that the decoder can
    take, every assertion of the approved test case holds of it, and the last probe found no
    cancellation. *)
Theorem execute_succeeded_iff registry cl s res s' tr :
  execute registry (Some cl) (s, []) = (Ok res, (s', tr)) ->
  let p := ea_plan (claimed_approval cl) in
  er_outcome res = OUTCOME_SUCCEEDED <->
  exists t rq o rs document, test_case p = Ok t /\ Sent rq (Ok o) ∈ tr /\
    last tr = Some (Probe (job_id (claimed_job cl)) (Ok false)) /\
    valid_transport_response o = Some rs /\
    zlen (rs_body rs) <= max_response_bytes (limits p) /\
    ~ (300 <= rs_status_code rs < 400) /\
    parse_json_object_or_array (rs_body rs) = Ok document /\
    forall a, a ∈ assertions t ->
      evaluate_assertion a rs (response_headers (rs_headers rs)) document = true.
Proof.
  intros H p.
  apply execute_cases in H as [[Hs Hr]|(t & prefix & rq & ev & now & c & v & a1 & a2 & s1 & Hc & H)].
  { destruct (Hr res eq_refl) as (_ & Hne & _). split; [done|].
    intros (t & rq & o & rs & document & _ & Hin & _). exfalso. apply (not_elem_of_nil (Sent rq (Ok o))).
    rewrite <- Hs. by apply elem_of_sends. }
  pose proof (po_case _ _ _ _ (cl_plan_ok _ _ _ _ _ _ _ _ _ _ _ _ Hc)) as Ht.
  eapply transmit_cases in H as (x & rest & Htr & Hcon); [|exact Ht]. cbn in Htr. subst tr.
  pose proof (fun rq' x' => only_sent _ _ rq x rq' x' (cleared_sends _ _ _ _ _ _ _ _ _ _ _ _ Hc)
    (concludes_no_send _ _ _ _ _ _ _ Hcon)) as Honly.
  unfold concludes in Hcon. fold p in Ht, Hcon. split.
  - intros Hout. unfold classify in Hcon. destruct x as [o|e].
    2:{ exfalso. destruct (bool_decide _); destruct Hcon as [_ [= ->]]; done. }
    destruct (valid_transport_response o) as [rs|] eqn:Hv; [|by destruct Hcon as [_ [= ->]]].
    destruct (_ <? _) eqn:Hsize; [by destruct Hcon as [_ [= ->]]|].
    destruct (parse_json_object_or_array (rs_body rs)) as [document|e] eqn:Hdoc; [|by destruct Hcon as [_ [=]]].
    destruct ((300 <=? _) && _) eqn:Hredir; [by destruct Hcon as [_ [= ->]]|].
    destruct Hcon as (y & -> & Hy). destruct y as [b|e]; [|done]. injection Hy as ->.
    apply judged_outcome in Hout as [-> Hall]. apply andb_false_iff in Hredir.
    exists t, rq, o, rs, document. split_and!; try done.
    + apply elem_of_app. right. left.
    + by rewrite last_app.
    + by apply Z.ltb_ge.
    + intros [H1 H2]. destruct Hredir as [E|E]; bools; lia.
  - intros (t' & rq' & o & rs & document & Ht' & Hin & Hlast & Hv & Hsize & Hredir & Hdoc & Hall).
    assert (t' = t) as -> by congruence. destruct (Honly _ _ Hin) as [-> <-].
    unfold classify in Hcon. rewrite Hv in Hcon.
    rewrite (proj2 (Z.ltb_ge _ _) Hsize), Hdoc in Hcon.
    destruct ((300 <=? _) && _) eqn:Hb; [bools; lia|]. destruct Hcon as (y & -> & Hy).
    rewrite last_app in Hlast. injection Hlast as ->.
    cbn [fmap result_fmap] in Hy. apply (inj Ok) in Hy as ->.
    by apply judged_outcome.
Qed.
End properties.

(** ** Witnesses *)

Lemma execute_send_cleared_witness : exists p t c,
  plan_ok DEFAULT_TARGET_REGISTRY p t c /\ rq_url (sample_transmitted p) = sample_url /\ rq_resolved_address (sample_transmitted p) ∈ [u "8.8.8.8"].
Proof.
  destruct sample_run as (p & Hp & Hl & H).
  pose proof (@execute_send_cleared _ _ _ (sample_environment (created created_body))
    DEFAULT_TARGET_REGISTRY (claimed_plan p) tt (sample_transmitted p)
    (Ok (created created_body))) as E.
  rewrite (H created_body _ ltac:(done) created_parses) in E.
  destruct E as (now & t & c & v & a1 & a2 & suffix & _ & _ & (Hok & _) & _).
  - apply elem_of_app. right. left.
  - exists p, t, c. split; [exact Hok|]. split; [reflexivity|]. left.
Defined.

Lemma execute_succeeded_iff_witness : exists p rq o rs,
  valid_transport_response o = Some rs /\ Sent rq (Ok o) ∈ sample_trace p (created created_body).
Proof.
  destruct sample_run as (p & Hp & Hl & H).
  destruct (proj1 (@execute_succeeded_iff _ _ _ (sample_environment (created created_body))
    _ _ _ _ _ _ (H created_body _ ltac:(done) created_parses)) created_succeeds)
    as (t & rq & o & rs & document & _ & Hin & _ & Hv & _).
  by exists p, rq, o, rs.
Defined.
