(* ===== verification/Redaction.v ===== *)
(** * Redaction: properties

    What the executor's evidence keeps of a request: its URL with the values
    of sensitive parameters hidden, and JSON values with the members of
    sensitive names hidden, at every depth and nowhere else. *)
From S2P Require Import Prelude PyText Json JsonFacts Digest Effects GeneratedTests GeneratedTestsFacts Url.
From S2P Require Import TargetRegistry ExecutionPlans Database.
From S2P Require Import ExecutionApprovals ExecutionJobs RestrictedExecution AsciiRuntime Samples.
From S2P Require Import SystemSamples.

Section urls.
Context {rt : PyRuntime} {laws : PyRuntimeLaws rt} {net : NetRuntime}.

(** A parameter as it is kept, and as it is written. *)
Definition kept_pair (q : pystr * pystr) : pystr * pystr :=
  (q.1, if is_sensitive_name q.1 then REDACTED_VALUE else q.2).
Definition item (q : pystr * pystr) : pystr := q.1 ++ [61%N] ++ q.2.

Definition with_query (items : list pystr) : pystr :=
  match items with [] => [] | _ => 63%N :: join [38%N] items end.

(** A parameter that splitting a URL and its query leaves in one piece. *)
Definition item_text (q : pystr * pystr) : Prop :=
  61%N ∉ q.1 /\ Forall (fun c => c ∉ q.1 /\ c ∉ q.2) [9; 13; 10; 35; 38]%N.

Lemma quoted_item q : query_text q.1 /\ query_text q.2 -> item_text q.
Proof.
  intros [H1 H2]. split; [eapply query_text_char; [exact H1 | by vm_compute]|].
  repeat constructor; eapply query_text_char; try eassumption; by vm_compute.
Qed.

Lemma marker_absent c : char_in c REDACTED_VALUE = false -> c ∉ REDACTED_VALUE.
Proof. apply bool_decide_eq_false_1. Qed.

Lemma kept_item_text q : item_text q -> item_text (kept_pair q).
Proof.
  intros [H1 H2]. split; [done|]. rewrite !Forall_cons in *. unfold kept_pair.
  cbn [fst snd]. destruct (is_sensitive_name q.1); [|exact H2]. destruct_and!.
  split_and!; try done; try (apply Forall_nil; done); by apply marker_absent; vm_compute.
Qed.

Lemma items_absent c (items : list (pystr * pystr)) :
  Forall item_text items -> c ∈ [9; 13; 10; 35; 38]%N -> Forall (fun s => c ∉ s) (item <$> items).
Proof.
  intros H Hc. apply Forall_fmap. eapply Forall_impl; [exact H|]. intros q [_ Hq]. cbn.
  rewrite Forall_forall in Hq. destruct (Hq c Hc). unfold item. cbn [app].
  rewrite not_elem_of_app, not_elem_of_cons. split_and!; [done| |done].
  intros ->. revert Hc. rewrite !elem_of_cons, elem_of_nil. intuition congruence.
Qed.

Lemma redact_items (items : list (pystr * pystr)) : Forall item_text items ->
  redact_item <$> (item <$> items) = item <$> (kept_pair <$> items).
Proof.
  induction 1 as [|[k v] items [Hk _] _ IH]; [done|]. cbn [fmap list_fmap]. f_equal; [|exact IH].
  unfold redact_item, item. cbn [fst snd app kept_pair]. by rewrite partition_first.
Qed.

Lemma redact_item_nil : redact_item [] = [].
Proof. unfold redact_item, is_sensitive_name. cbn [partition]. by rewrite lower_ascii. Qed.

Lemma redact_join (items : list (pystr * pystr)) : Forall item_text items ->
  join [38%N] (redact_item <$> split_on 38 (join [38%N] (item <$> items))) =
  join [38%N] (item <$> (kept_pair <$> items)).
Proof.
  intros H. destruct items as [|q items]; [exact redact_item_nil|].
  rewrite split_on_items, redact_items; [done|done|done|]. apply items_absent; [done|].
  do 4 right. left.
Qed.

Lemma with_query_join (items : list (pystr * pystr)) : with_query (item <$> items) =
  match join [38%N] (item <$> items) with [] => [] | _ => 63%N :: join [38%N] (item <$> items) end.
Proof. by destruct items as [|[[|k ks] v] [|q items]]. Qed.

(** The URL that is sent and the URL that is kept. *)
Lemma redact_url_parts host path (items : list (pystr * pystr)) :
  host <> [] -> Forall (fun c => host_char c = true) host ->
  starts_with (u "/") path = true -> 63%N ∉ path -> 35%N ∉ path -> Forall item_text items ->
  redact_url (u "https://" ++ host ++ path ++ with_query (item <$> items)) =
  Ok (u "https://" ++ host ++ url_visible path ++ with_query (item <$> (kept_pair <$> items))).
Proof.
  intros Hne Hh Hp Hq Hf Hitems. unfold redact_url. rewrite !with_query_join, urlsplit_origin; try done.
  2:{ apply Forall_forall. intros c Hc.
      assert (forall x, x ∈ [9; 13; 10; 35]%N -> x ∉ join [38%N] (item <$> items)) as Ha.
      { intros x Hx. apply join_absent.
        - apply not_elem_of_cons. split; [|apply not_elem_of_nil]. intros ->.
          revert Hx. rewrite !elem_of_cons, elem_of_nil. intuition congruence.
        - apply items_absent; [done|]. revert Hx. rewrite !elem_of_cons. tauto. }
      intros Hx. by apply (Ha c). }
  cbn [or_raise]. rewrite bind_ok. cbn [url_query scheme netloc url_path]. cbv zeta.
  rewrite redact_join by done. rewrite urlunsplit_origin by first [done | by apply visible_slash].
  done.
Qed.

Definition scalar_query (t : GeneratedTestCaseV1) : Prop :=
  Forall (fun q => scalar_text (query_name q) = true /\ scalar_text (query_value q) = true)
    (GeneratedTests.query (request t)).

(** An origin of letters, digits, dots and hyphens. *)
Definition plain_origin (s : pystr) : Prop := exists host,
  s = u "https://" ++ host /\ host <> [] /\ Forall (fun c => host_char c = true) host.

Lemma request_url_parts registry p t c :
  plan_ok registry p t c -> plain_origin (target_base_url p) -> scalar_query t ->
  exists quoted, Forall2 (fun a q => quote_plus (query_name a) = Some q.1 /\
                                     quote_plus (query_value a) = Some q.2)
      (GeneratedTests.query (request t)) quoted /\
    Forall (fun q => query_text q.1 /\ query_text q.2) quoted /\
    request_url p = Ok (target_base_url p ++ path (request t) ++ with_query (item <$> quoted)) /\
    redact_url (target_base_url p ++ path (request t) ++ with_query (item <$> quoted)) =
    Ok (target_base_url p ++ url_visible (path (request t)) ++
        with_query (item <$> (kept_pair <$> quoted))).
Proof.
  intros Hok (host & Hb & Hne & Hh) Hs.
  destruct (urlencode_scalar ((fun q => (query_name q, query_value q)) <$>
    GeneratedTests.query (request t))) as (quoted & H2 & HF & He).
  { apply Forall_fmap. eapply Forall_impl; [exact Hs|]. done. }
  assert (Forall item_text quoted) as Hitems by (eapply Forall_impl; [exact HF|apply quoted_item]).
  exists quoted. split; [by apply Forall2_fmap_l in H2|]. split; [done|]. split.
  - unfold request_url. rewrite (po_case _ _ _ _ Hok), bind_ok, He. cbn [or_raise].
    rewrite bind_ok. do 3 f_equal. by destruct quoted as [|[[|k ks] v] [|q quoted]].
  - pose proof (po_wf _ _ _ _ Hok) as Hw. unfold wf_test_case, request_ok, path_ok in Hw. bools.
    rewrite Hb, <- !app_assoc. apply redact_url_parts; try done; by apply contains_absent.
Qed.
End urls.

(** ** JSON *)

Section json.
Context {rt : PyRuntime}.

(** A way into a JSON value. *)
Inductive step := Key (k : pystr) | Index (i : nat).
Definition descend (v : json) (s : step) : option json :=
  match s, v with
  | Key k, JObj kvs => dict_get k kvs
  | Index i, JList l => l !! i
  | _, _ => None
  end.
Definition lookup_path (v : json) (path : list step) : option json :=
  foldl (fun o s => o ≫= fun v => descend v s) (Some v) path.

Definition sensitive_step (s : step) : bool :=
  match s with Key k => is_sensitive_name k | Index _ => false end.

Lemma lookup_path_app v p q : lookup_path v (p ++ q) = lookup_path v p ≫= fun w => lookup_path w q.
Proof.
  unfold lookup_path. rewrite foldl_app. destruct (foldl _ (Some v) p) as [w|]; [done|].
  cbn. induction q as [|s q IH]; [done|]. done.
Qed.

Lemma lookup_path_text x s q : lookup_path (JStr x) (s :: q) = None.
Proof. rewrite (lookup_path_app _ [s] q). by destruct s. Qed.

Lemma dict_get_map k (f : pystr -> json -> json) kvs :
  dict_get k (map (fun kv => (kv.1, f kv.1 kv.2)) kvs) = f k <$> dict_get k kvs.
Proof.
  induction kvs as [|[k' v] kvs IH]; [done|]. cbn. destruct (str_eqb _ _) eqn:E; [|done].
  apply str_eqb_eq in E. by subst.
Qed.

Lemma redact_descend v s : descend (redact_json v) s =
  (if sensitive_step s then fun _ => JStr REDACTED_VALUE else redact_json) <$> descend v s.
Proof.
  destruct v as [|b|z|x|t|l|kvs]; destruct s as [k|i]; try done.
  - cbn. by rewrite list_lookup_fmap.
  - cbn [redact_json descend sensitive_step].
    rewrite (dict_get_map k (fun k v => if is_sensitive_name k then JStr REDACTED_VALUE
      else redact_json v)).
    by destruct (is_sensitive_name k), (dict_get k kvs).
Qed.

(** Redaction of JSON evidence is sound and touches nothing else: along a
    path through no sensitive name the redacted value has exactly the
    redaction of what was there, so every scalar is kept; the member under a
    sensitive name, at any depth, is replaced by the marker, and nothing below
    it can be reached. *)
Theorem redact_json_spec v p s :
  Forall (fun s => sensitive_step s = false) p ->
  lookup_path (redact_json v) p = redact_json <$> lookup_path v p /\
  (sensitive_step s = true ->
   lookup_path (redact_json v) (p ++ [s]) =
     (fun _ => JStr REDACTED_VALUE) <$> lookup_path v (p ++ [s]) /\
   forall s' q, lookup_path (redact_json v) (p ++ [s] ++ s' :: q) = None).
Proof.
  intros Hp. assert (lookup_path (redact_json v) p = redact_json <$> lookup_path v p) as E.
  { revert v. induction Hp as [|s' p Hs _ IH]; intros v; [done|].
    rewrite !(lookup_path_app _ [s'] p). cbn. rewrite redact_descend, Hs.
    destruct (descend v s') as [w|]; [apply IH|done]. }
  split; [done|]. intros Hs. rewrite !lookup_path_app, E.
  assert (lookup_path (redact_json v) (p ++ [s]) =
    (fun _ => JStr REDACTED_VALUE) <$> lookup_path v (p ++ [s])) as E2.
  { rewrite !lookup_path_app, E. destruct (lookup_path v p) as [w|]; [|done]. cbn.
    rewrite redact_descend, Hs. done. }
  rewrite !lookup_path_app, E in E2. split; [exact E2|].
  intros s' q. rewrite app_assoc, lookup_path_app, lookup_path_app, E, E2.
  destruct (lookup_path v p ≫= _); [|done]. apply lookup_path_text.
Qed.
End json.

(** ** The evidence of a request *)

Section evidence.
Context {rt : PyRuntime} {laws : PyRuntimeLaws rt} {net : NetRuntime}.

(** The URL kept as evidence is the URL of the request with the value of
    every sensitive parameter replaced by the marker, tabs and line breaks of
    its path dropped, and nothing else changed: for a valid plan whose origin
    is a plain host and whose parameters are encodable text. *)
Theorem redacted_url_spec registry p t c :
  plan_ok registry p t c -> plain_origin (target_base_url p) -> scalar_query t ->
  exists url quoted, request_url p = Ok url /\
    Forall2 (fun a q => quote_plus (query_name a) = Some q.1 /\
                        quote_plus (query_value a) = Some q.2)
      (GeneratedTests.query (request t)) quoted /\
    url = target_base_url p ++ path (request t) ++
          with_query ((fun q => q.1 ++ [61%N] ++ q.2) <$> quoted) /\
    redact_url url = Ok (target_base_url p ++ url_visible (path (request t)) ++
      with_query ((fun q => q.1 ++ [61%N] ++
        (if is_sensitive_name q.1 then REDACTED_VALUE else q.2)) <$> quoted)).
Proof.
  intros Hok Ho Hs. destruct (request_url_parts _ _ _ _ Hok Ho Hs) as (quoted & H2 & _ & Hu & Hr).
  eexists _, quoted. split; [exact Hu|]. split; [done|]. split; [done|]. rewrite Hr.
  by rewrite <- list_fmap_compose.
Qed.
End evidence.

(** ** Witnesses *)

Definition secret_document : json :=
  JObj [(u "items", JList [JObj [(u "API_Token", JStr (u "t")); (u "n", JInt 1)]])].

Lemma redact_json_spec_witness :
  lookup_path (redact_json secret_document) [Key (u "items"); Index 0; Key (u "n")] = Some (JInt 1) /\ lookup_path (redact_json secret_document) [Key (u "items"); Index 0; Key (u "API_Token")] =
    Some (JStr REDACTED_VALUE).
Proof.
  split.
  - apply (redact_json_spec secret_document [Key (u "items"); Index 0; Key (u "n")] (Index 0)).
    repeat constructor.
  - apply (redact_json_spec secret_document [Key (u "items"); Index 0] (Key (u "API_Token"))).
    + repeat constructor.
    + reflexivity.
Defined.

Lemma redacted_url_spec_witness : exists p url kept,
  request_url p = Ok url /\ redact_url url = Ok kept.
Proof.
  destruct sample_plan as (p & Hok & _).
  destruct (redacted_url_spec _ p _ _ Hok) as (url & quoted & Hu & _ & _ & Hr).
  - exists (u "ai-qa-sandbox.onrender.com"). rewrite (po_base_url _ _ _ _ Hok).
    split; [reflexivity|]. split; [done|]. repeat constructor.
  - unfold scalar_query. repeat constructor.
  - eexists p, url, _. split; [exact Hu | exact Hr].
Defined.
