(* ===== verification/JsonPointer.v ===== *)
(** * JSON pointers: properties

    [_json_pointer] against a reference definition: following a list of steps
    into a JSON value.  Array steps are written in decimal without leading
    zeros; [~] and [/] in a key are escaped. *)
From S2P Require Import Prelude PyText Json JsonFacts Digest GeneratedTests Url.
From S2P Require Import RestrictedExecution Redaction AsciiRuntime Samples.

(** ** Writing a pointer *)

Definition escape_token (s : pystr) : pystr :=
  replace (u "/") (u "~1") (replace (u "~") (u "~0") s).
Definition step_token (s : step) : pystr :=
  match s with Key k => escape_token k | Index i => digits (N.of_nat i) end.
Definition pointer_of (path : list step) : pystr := path ≫= fun s => 47%N :: step_token s.

Section escapes.
Let esc (c : N) : pystr :=
  if (c =? 126)%N then [126; 48]%N else if (c =? 47)%N then [126; 49]%N else [c].
Let mid (c : N) : pystr := if (c =? 126)%N then [126; 48]%N else [c].

Lemma replace_char_flat c new s :
  replace [c] new s = s ≫= fun x => if (c =? x)%N then new else [x].
Proof.
  unfold replace. induction s as [|x s IH]; [done|]. cbn. rewrite andb_true_r.
  destruct (c =? x)%N; cbn; by rewrite IH.
Qed.

Lemma escape_token_flat s : escape_token s = s ≫= esc.
Proof.
  unfold escape_token. change (u "~") with [126%N]. change (u "/") with [47%N].
  rewrite !replace_char_flat. induction s as [|c s IH]; [done|]. cbn [mbind list_bind].
  rewrite bind_app, IH. f_equal. unfold esc. rewrite (N.eqb_sym 126 c).
  destruct (N.eqb_spec c 126) as [->|Hne]; [done|].
  destruct (N.eqb_spec c 47) as [->|Hne2]; [done|]. unfold mbind, list_bind.
  by rewrite (proj2 (N.eqb_neq 47 c)) by congruence.
Qed.

Lemma replace2_other a b new x s : x <> a ->
  replace [a; b] new (x :: s) = x :: replace [a; b] new s.
Proof.
  intros Hne. unfold replace. simpl. by rewrite (proj2 (N.eqb_neq a x)) by congruence.
Qed.

Lemma replace2_half a b new y s : y <> b ->
  replace [a; b] new (a :: y :: s) = a :: replace [a; b] new (y :: s).
Proof.
  intros Hne. unfold replace. simpl. by rewrite N.eqb_refl, (proj2 (N.eqb_neq b y)) by congruence.
Qed.

Lemma replace2_hit a b new s : replace [a; b] new (a :: b :: s) = new ++ replace [a; b] new s.
Proof. unfold replace. simpl. by rewrite !N.eqb_refl. Qed.

Lemma unescape_flat1 s : replace (u "~1") (u "/") (s ≫= esc) = s ≫= mid.
Proof.
  change (u "~1") with [126; 49]%N. induction s as [|c s IH]; [done|]. cbn [mbind list_bind].
  rewrite <- IH. unfold esc at 1, mid. destruct (N.eqb_spec c 126) as [->|Hne].
  - cbn [app]. by rewrite replace2_half, replace2_other by done.
  - destruct (N.eqb_spec c 47) as [->|Hne2]; cbn [app].
    + by rewrite replace2_hit.
    + by rewrite replace2_other.
Qed.

Lemma unescape_flat2 s : replace (u "~0") (u "~") (s ≫= mid) = s.
Proof.
  change (u "~0") with [126; 48]%N. induction s as [|c s IH]; [done|]. cbn [mbind list_bind].
  rewrite <- IH at 2. unfold mid at 1. destruct (N.eqb_spec c 126) as [->|Hne]; cbn [app].
  - by rewrite replace2_hit.
  - by rewrite replace2_other.
Qed.

Lemma unescape_escape s : unescape_token (escape_token s) = s.
Proof. unfold unescape_token. by rewrite escape_token_flat, unescape_flat1, unescape_flat2. Qed.

Lemma escape_no_slash s : 47%N ∉ escape_token s.
Proof.
  rewrite escape_token_flat. intros (c & Hc & _)%list_elem_of_bind. revert Hc. unfold esc.
  destruct (N.eqb_spec c 126); [|destruct (N.eqb_spec c 47)];
    rewrite ?elem_of_cons, ?elem_of_nil; intuition congruence.
Qed.
End escapes.

Section indices.
Context {rt : PyRuntime} {laws : PyRuntimeLaws rt}.

Lemma digits_all n : Forall (fun c => ascii_digit c = true) (digits n).
Proof. apply forallb_Forall. unfold digits. by apply digits_aux_digits. Qed.

Lemma digits_nonempty n : digits n <> [].
Proof. intros H. pose proof (int_digits_digits n) as E. by rewrite H in E. Qed.

Lemma ascii_digit_lt c : ascii_digit c = true -> (c < 128)%N /\ c <> 47%N /\ c <> 126%N.
Proof. unfold ascii_digit, between. intros H. bools. rewrite N.leb_le in *. lia. Qed.

Lemma isdecimal_digits n : isdecimal (digits n) = true.
Proof.
  unfold isdecimal. pose proof (digits_nonempty n). destruct (digits n) as [|c s] eqn:E; [done|].
  rewrite <- E. apply forallb_Forall. eapply Forall_impl; [apply digits_all|]. intros d Hd.
  cbn beta in *. by rewrite decimal_ascii, Hd by by apply ascii_digit_lt.
Qed.

Lemma int_of_digits n : int_of_decimal (digits n) = n.
Proof.
  rewrite <- (N_of_digits_digits n) at 2. unfold int_of_decimal, N_of_digits.
  enough (forall a, foldl (fun acc c => 10 * acc + default 0 (cp_decimal c))%N a (digits n) =
    foldl (fun acc c => 10 * acc + (c - 48))%N a (digits n)) as H by apply H.
  pose proof (digits_all n) as H. induction H as [|c s Hc _ IH]; intros a; [done|].
  cbn [foldl]. rewrite decimal_ascii, Hc by by apply ascii_digit_lt. apply IH.
Qed.

Lemma digits_canonical n :
  str_eqb (digits n) (u "0") || negb (starts_with (u "0") (digits n)) = true.
Proof.
  pose proof (int_digits_digits n) as H. destruct (digits n) as [|c s]; [done|].
  cbn [int_digits] in H. apply orb_true_iff. change (u "0") with [48%N].
  cbn [starts_with]. rewrite andb_true_r. destruct (N.eqb_spec 48 c) as [<-|Hne]; [|by right].
  left. apply bool_decide_eq_true in H. by subst.
Qed.

Lemma digits_unescape n : unescape_token (digits n) = digits n.
Proof.
  unfold unescape_token. change (u "~1") with [126; 49]%N. change (u "~0") with [126; 48]%N.
  assert (126%N ∉ digits n) as H.
  { intros Hin. pose proof (digits_all n) as Ha. rewrite Forall_forall in Ha.
    by apply Ha, ascii_digit_lt in Hin as (_ & _ & ?). }
  by rewrite !(replace_absent 126 _ _ (digits n)).
Qed.

Lemma token_no_slash s : 47%N ∉ step_token s.
Proof.
  destruct s as [k|i]; [apply escape_no_slash|]. cbn. intros Hin.
  pose proof (digits_all (N.of_nat i)) as Ha. rewrite Forall_forall in Ha.
  by apply Ha, ascii_digit_lt in Hin as (_ & ? & _).
Qed.

Lemma pointer_step_token v s w : descend v s = Some w ->
  pointer_step v (unescape_token (step_token s)) = Some w.
Proof.
  destruct s as [k|i], v as [|b|z|x|t|l|kvs]; cbn [descend]; try done.
  - cbn [step_token pointer_step]. by rewrite unescape_escape.
  - cbn [step_token pointer_step]. rewrite digits_unescape, isdecimal_digits, digits_canonical.
    cbn [andb]. by rewrite int_of_digits, Nat2N.id.
Qed.

Lemma pointer_walk_path path : forall v w, lookup_path v path = Some w ->
  pointer_walk v (step_token <$> path) = Some w.
Proof.
  induction path as [|s path IH]; intros v w H; [done|].
  rewrite (lookup_path_app _ [s] path) in H. apply bind_Some in H as (x & Hx & H).
  cbn in Hx. cbn [fmap list_fmap pointer_walk]. rewrite (pointer_step_token v s x) by done.
  by apply IH.
Qed.

Lemma pointer_of_join path : path <> [] -> pointer_of path = 47%N :: join [47%N] (step_token <$> path).
Proof.
  unfold pointer_of. induction path as [|s path IH]; [done|]. intros _. cbn [mbind list_bind].
  destruct path as [|s' path]; [cbn; by rewrite app_nil_r|].
  rewrite IH by done. done.
Qed.

(** What a token of a pointer says, read back. *)
Definition token_step (token : pystr) (s : step) : Prop :=
  match s with
  | Key k => unescape_token token = k
  | Index i => isdecimal (unescape_token token) = true /\
               int_of_decimal (unescape_token token) = N.of_nat i
  end.

Lemma pointer_step_descend v token w : pointer_step v (unescape_token token) = Some w ->
  exists s, token_step token s /\ descend v s = Some w.
Proof.
  destruct v as [|b|z|x|t|l|kvs]; cbn [pointer_step]; try done.
  - destruct (isdecimal _ && _) eqn:E; [|done]. intros H. bools.
    exists (Index (N.to_nat (int_of_decimal (unescape_token token)))). split; [|done].
    split; [done|]. by rewrite N2Nat.id.
  - intros H. by exists (Key (unescape_token token)).
Qed.

(** JSON pointers denote paths.  Writing any non-empty path of keys and
    indices as a pointer and resolving it yields the value at that path; and
    whatever a pointer resolves to is the value at a path whose steps its
    tokens spell.  Nothing else is found. *)
Theorem json_pointer_spec d :
  (forall path v, path <> [] -> lookup_path d path = Some v ->
     json_pointer (Some d) (pointer_of path) = JsonValue v) /\
  (forall rest v, json_pointer (Some d) (47%N :: rest) = JsonValue v ->
     exists path, Forall2 token_step (split_on 47 rest) path /\ lookup_path d path = Some v) /\
  (forall pointer, starts_with (u "/") pointer = false -> json_pointer (Some d) pointer = MISSING).
Proof.
  split_and!.
  - intros path v Hne H. rewrite pointer_of_join by done. cbn [json_pointer].
    rewrite split_on_items, (pointer_walk_path path d v); [done|done| |].
    + by destruct path.
    + apply Forall_fmap, Forall_forall. intros s _. apply token_no_slash.
  - intros rest v H. cbn [json_pointer] in H. destruct (pointer_walk d _) as [w|] eqn:E; [|done].
    injection H as ->. revert d E. induction (split_on 47 rest) as [|token l IH]; intros d E.
    + exists []. cbn in E. by injection E as ->.
    + cbn [pointer_walk] in E. destruct (pointer_step d _) as [x|] eqn:Ex; [|done].
      apply pointer_step_descend in Ex as (s & Hs & Hd). apply IH in E as (path & Hp & Hl).
      exists (s :: path). split; [by constructor|]. rewrite (lookup_path_app _ [s] path).
      cbn. by rewrite Hd.
  - intros pointer H. destruct pointer as [|c rest]; [done|]. cbn [json_pointer].
    assert (c <> 47%N) as Hne by (intros ->; done). destruct c as [|p]; [done|].
    do 6 (destruct p as [p|p|]; try done).
Qed.
End indices.

(** ** Witness *)

Lemma json_pointer_spec_witness :
  json_pointer (Some secret_document) (u "/items/0/n") = JsonValue (JInt 1).
Proof.
  apply (proj1 (json_pointer_spec secret_document) [Key (u "items"); Index 0; Key (u "n")] (JInt 1));
    [done | reflexivity].
Defined.
