(* ===== verification/ExecutionResults.v ===== *)
(** * Execution results ([execution_results.py])

    Terminal evidence: what a payload must be to be stored, and the one
    transaction that completes a running job and stores its evidence. *)
From S2P Require Import Prelude PyText Json Digest GeneratedTests Effects Database.
From S2P Require Import ExecutionJobs.

Definition REDACTED_VALUE : pystr := u "[REDACTED]".
Definition SENSITIVE_NAMES : list pystr :=
  [u "authorization"; u "cookie"; u "password"; u "secret"; u "set-cookie"; u "token"].

Record ExecutionResultPayload := {
  p_outcome : ExecutionResultOutcome;
  p_failure_code : option pystr;
  p_assertion_results_json : pystr;
  p_request_evidence_json : option pystr;
  p_response_evidence_json : option pystr;
  p_transport_send_count : Z;
}.

Record StoredExecutionResult := {
  s_id : uuid;
  s_execution_job_id : uuid;
  s_outcome : ExecutionResultOutcome;
  s_failure_code : option pystr;
  s_assertion_results_json : pystr;
  s_request_evidence_json : option pystr;
  s_response_evidence_json : option pystr;
  s_transport_send_count : Z;
  s_recorded_at : instant;
}.

Abbreviation reject_result msg := (raise ExecutionResultRejected msg).
Abbreviation reject_result_if c msg := (raise_if c ExecutionResultRejected msg).

(** [re.fullmatch(r"[a-z][a-z0-9_]{0,63}", code)] *)
Definition failure_code_pattern (code : pystr) : bool :=
  match code with
  | [] => false
  | c :: rest =>
      ascii_lower_letter c &&
      forallb (fun c => ascii_lower_letter c || ascii_digit c || (c =? 95)%N) rest &&
      (zlen rest <=? 63)
  end.

(** [_validated_failure_code] *)
Definition validated_failure_code (outcome : ExecutionResultOutcome) (code : option pystr) :
    result (option pystr) :=
  match outcome with
  | RESULT_SUCCEEDED =>
      reject_result_if (negb (is_null code))
        "A successful execution result cannot have a failure code" ;; Ok None
  | _ =>
      match code with
      | Some c =>
          reject_result_if (negb (failure_code_pattern c))
            "A failed or cancelled execution result requires a safe failure code" ;; Ok (Some c)
      | None => reject_result "A failed or cancelled execution result requires a safe failure code"
      end
  end.

Section results.
Context {rt : PyRuntime}.

Definition is_sensitive_name (name : pystr) : bool :=
  let normalized := replace [95%N] [45%N] (str_lower name) in
  existsb (fun sensitive => contains sensitive normalized) SENSITIVE_NAMES.

Definition is_redacted (v : json) : bool :=
  match v with JStr s => str_eqb s REDACTED_VALUE | _ => false end.

(** [_validate_json_value] *)
Fixpoint validate_json_value (v : json) : result unit :=
  match v with
  | JFloat x =>
      raise_if (negb (is_finite x)) ValueError "JSON floating-point value is not finite"
  | JList l => try_iter validate_json_value l
  | JObj kvs => try_iter (fun kv => validate_json_value kv.2) kvs
  | _ => Ok tt
  end.

(** [json.dumps(..., allow_nan=False)] *)
Definition dumps_no_nan (v : json) : result pystr :=
  raise_if (negb (no_nan v)) ValueError "Out of range float values are not JSON compliant" ;;
  Ok (dumps_canonical v).

(** [_canonical_json] *)
Definition result_canonical_json (s : pystr) (require_object : bool) : result pystr :=
  parsed ← try_except
    (parsed ← or_raise (loads s) (Exn JSONDecodeError ""); validate_json_value parsed ;; Ok parsed)
    (fun c => is_ValueError c || bool_decide (c = TypeError))
    (fun _ => reject_result "Execution result JSON is malformed");
  reject_result_if (require_object && match parsed with JObj _ => false | _ => true end)
    "Execution evidence must be a JSON object" ;;
  dumps_no_nan parsed.

(** [json.loads] of text this module produced. *)
Definition reload (s : pystr) : result json := or_raise (loads s) (Exn JSONDecodeError "").

(** [_is_json_array] *)
Definition is_json_array (s : pystr) : result bool :=
  parsed ← reload s; Ok match parsed with JList _ => true | _ => false end.

(** [_require_redacted_sensitive_values] *)
Fixpoint require_redacted_sensitive_values (v : json) : result unit :=
  match v with
  | JObj kvs =>
      try_iter (fun kv =>
        reject_result_if (is_sensitive_name kv.1 && negb (is_redacted kv.2))
          "Sensitive execution evidence must be redacted" ;;
        require_redacted_sensitive_values kv.2) kvs
  | JList l =>
      reject_result_if
        match l with
        | [JStr name; item] => is_sensitive_name name && negb (is_redacted item)
        | _ => false
        end "Sensitive execution evidence must be redacted" ;;
      try_iter require_redacted_sensitive_values l
  | _ => Ok tt
  end.

(** [_validated_evidence_json] *)
Definition validated_evidence_json (v : option pystr) : result (option pystr) :=
  match v with
  | None => Ok None
  | Some s =>
      canonical ← result_canonical_json s true;
      parsed ← reload canonical;
      require_redacted_sensitive_values parsed ;;
      Ok (Some canonical)
  end.

(** [_validate_payload] *)
Definition validate_payload (p : ExecutionResultPayload) : result ExecutionResultPayload :=
  reject_result_if
    (negb ((p_transport_send_count p =? 0) || (p_transport_send_count p =? 1)))
    "Restricted execution may record zero or one transport send" ;;
  code ← validated_failure_code (p_outcome p) (p_failure_code p);
  assertions ← result_canonical_json (p_assertion_results_json p) false;
  array ← is_json_array assertions;
  reject_result_if (negb array) "Assertion results must be a JSON array" ;;
  request ← validated_evidence_json (p_request_evidence_json p);
  response ← validated_evidence_json (p_response_evidence_json p);
  Ok {| p_outcome := p_outcome p; p_failure_code := code;
        p_assertion_results_json := assertions; p_request_evidence_json := request;
        p_response_evidence_json := response;
        p_transport_send_count := p_transport_send_count p |}.

(** [_complete_job]: the job's terminal state is its result's outcome. *)
Definition complete_job (r : ExecutionJobRecord) (outcome : ExecutionResultOutcome)
    (t : instant) : ExecutionJobRecord :=
  match outcome with
  | RESULT_SUCCEEDED =>
      job_with r SUCCEEDED (job_started_at r) (Some t) (job_cancel_requested_at r)
        (job_cancelled_at r)
  | RESULT_FAILED =>
      job_with r FAILED (job_started_at r) (Some t) (job_cancel_requested_at r)
        (job_cancelled_at r)
  | RESULT_CANCELLED =>
      job_with r CANCELLED (job_started_at r) None
        (Some (default t (job_cancel_requested_at r))) (Some t)
  end.

Definition opt_result {A B} (f : A -> result B) (o : option A) : result (option B) :=
  match o with None => Ok None | Some a => Some <$> f a end.

(** [_stored_result_from_record] *)
Definition stored_result_from_record (r : ExecutionResultRecord) :
    result StoredExecutionResult :=
  a ← dumps_no_nan (res_assertion_results r);
  q ← opt_result dumps_no_nan (res_request_evidence r);
  p ← opt_result dumps_no_nan (res_response_evidence r);
  Ok {| s_id := res_id r; s_execution_job_id := res_job_id r; s_outcome := res_outcome r;
        s_failure_code := res_failure_code r; s_assertion_results_json := a;
        s_request_evidence_json := q; s_response_evidence_json := p;
        s_transport_send_count := res_send_count r; s_recorded_at := res_recorded_at r |}.

(** [_matches_payload] *)
Definition matches_payload (s : StoredExecutionResult) (p : ExecutionResultPayload) : bool :=
  bool_decide (s_outcome s = p_outcome p) &&
  bool_decide (s_failure_code s = p_failure_code p) &&
  str_eqb (s_assertion_results_json s) (p_assertion_results_json p) &&
  bool_decide (s_request_evidence_json s = p_request_evidence_json p) &&
  bool_decide (s_response_evidence_json s = p_response_evidence_json p) &&
  (s_transport_send_count s =? p_transport_send_count p).

Definition new_result (now : instant) (new_id id : uuid) (p : ExecutionResultPayload) :
    result ExecutionResultRecord :=
  a ← reload (p_assertion_results_json p);
  q ← opt_result reload (p_request_evidence_json p);
  r ← opt_result reload (p_response_evidence_json p);
  Ok {| res_id := new_id; res_job_id := id; res_outcome := p_outcome p;
        res_failure_code := p_failure_code p; res_assertion_results := a;
        res_request_evidence := q; res_response_evidence := r;
        res_send_count := p_transport_send_count p; res_recorded_at := now |}.

(** [SqlAlchemyExecutionResultRepository.record]; [others] is what other
    sessions commit while this one holds the job's row. *)
Definition record (fault : bool) (now : datetime) (new_id project_id id : uuid)
    (payload : ExecutionResultPayload) (others : db -> db) : io db StoredExecutionResult :=
  validated ← lift (validate_payload payload);
  let now := utc_datetime now in
  io_try
    (job ← query fault (fun d => scalar_one_or_none
       (select (fun r => (job_id r =? id)%N && (job_project_id r =? project_id)%N) (jobs d)));
     match job with
     | None => io_raise ExecutionResultRejected
                 "Execution job does not belong to the supplied project"
     | Some job =>
         interleave others ;;
         existing ← query fault (fun d => scalar_one_or_none
           (select (fun r => (res_job_id r =? id)%N) (results d)));
         match existing with
         | Some existing =>
             existing ← lift (stored_result_from_record existing);
             if matches_payload existing validated then mret existing
             else io_raise ExecutionResultRejected
                    "Execution job already has different terminal evidence"
         | None =>
             lift (reject_result_if
                     (negb (bool_decide (job_state job = RUNNING)) ||
                      is_null (job_started_at job))
                     "Only a claimed running execution job can be completed") ;;
             result_record ← lift (new_result now new_id id validated);
             (* the job's new state and its result commit together *)
             statement fault (fun d =>
               d ← update_job (complete_job job (p_outcome validated) now) d;
               d ← insert_result result_record d;
               stored ← stored_result_from_record result_record;
               Ok (stored, d))
         end
     end)
    is_SQLAlchemyError (fun _ => io_raise ExecutionResultUnavailable "").

(** [SqlAlchemyExecutionResultRepository.get] *)
Definition get_result (fault : bool) (project_id id : uuid) :
    io db (option StoredExecutionResult) :=
  record ← io_try
    (query fault (fun d => scalar_one_or_none
       (select (fun r => (res_job_id r =? id)%N &&
                         match jobs d !! id with
                         | Some j => (job_project_id j =? project_id)%N
                         | None => false
                         end) (results d))))
    is_SQLAlchemyError (fun _ => io_raise ExecutionResultUnavailable "");
  lift (opt_result stored_result_from_record record).
End results.
