(* ===== verification/ExecutionSystem.v ===== *)
(** * The execution system: sessions over the tables

    A [call] is one invocation of a repository operation.  Calls that send
    several statements carry the calls other sessions complete in between:
    [run] executes such a tree, so a list of calls is an interleaving of
    transactions.  A call that needs a row another session holds waits, which
    here means that it does nothing before that session commits.

    ** Properties

    A small program logic over the tables: [triple L P m Q] says that [m],
    started in well-formed tables that satisfy [P] by a session while others
    hold the job rows [L], makes a [sound_change] and, when it returns,
    establishes [Q].  Every operation has its triple, and so has every run,
    whatever the interleaving. *)
From S2P Require Import Prelude PyText Json Digest GeneratedTests Url Effects TargetRegistry ExecutionPlans.
From S2P Require Import Database DatabaseFacts ExecutionApprovals ExecutionJobs ExecutionResults.

Inductive call :=
  | Approve (fault : bool) (now : datetime) (new_id project_id : uuid) (plan : ExecutionPlanV1)
      (expected_plan_hash : pystr) (approver : OwnerPrincipal) (comment : option pystr)
  | Consume (fault : bool) (now : datetime) (project_id plan_id : uuid) (plan_hash : pystr)
      (between : list call)
  | Enqueue (fault fault2 : bool) (now : datetime) (new_id : uuid) (trace_id : option uuid)
      (approval : ExecutionApproval) (between : list call)
  | Claim (fault : bool) (now : datetime) (between between' : list call)
  | Cancel (fault : bool) (now : datetime) (project_id id : uuid)
  | Record_ (fault : bool) (now : datetime) (new_id project_id id : uuid)
      (payload : ExecutionResultPayload) (between : list call).

Section system.
Context {rt : PyRuntime} {net : NetRuntime}.

(** The tables after a call; [locked] are the job rows other sessions hold.
    A successful claim of an approval goes to the history. *)
Fixpoint run (locked : gset uuid) (c : call) (d : db) : db :=
  let runs locked calls d := foldl (fun d c => run locked c d) d calls in
  match c with
  | Approve fault now new_id project plan hash approver comment =>
      (approve fault now new_id project plan hash approver comment d).2
  | Consume fault now project plan hash between =>
      match consume fault now project plan hash (runs locked between) d with
      | (Ok (Some a), d) => log_event (Consumed (ea_id a)) d
      | (_, d) => d
      end
  | Enqueue fault fault2 now new_id trace approval between =>
      (enqueue fault fault2 now new_id trace approval (runs locked between) d).2
  | Claim fault now between between' =>
      match claim_next fault now locked (fun id => runs ({[id]} ∪ locked) between)
              (fun id => runs ({[id]} ∪ locked) between') d with
      | (Ok (Some c), d) => log_event (Consumed (ea_id (claimed_approval c))) d
      | (_, d) => d
      end
  | Cancel fault now project id =>
      if bool_decide (id ∈ locked) then d else (cancel fault now project id d).2
  | Record_ fault now new_id project id payload between =>
      if bool_decide (id ∈ locked) then d
      else (record fault now new_id project id payload (runs ({[id]} ∪ locked) between) d).2
  end.

(** The tables after a list of calls. *)
Definition run_all (calls : list call) (d : db) : db := foldl (fun d c => run ∅ c d) d calls.
End system.

(** * Properties *)

Definition held (L : gset uuid) (d : db) : Prop := forall i, i ∈ L -> is_Some (jobs d !! i).

Lemma held_change L d d' : held L d -> sound_change L d d' -> held L d'.
Proof. intros Hh (_ & _ & Hl) i Hi. rewrite Hl by done. by apply Hh. Qed.

Definition triple {A} (L : gset uuid) (P : db -> Prop) (m : io db A) (Q : A -> db -> Prop) : Prop :=
  forall d r d', wf_db d -> held L d -> P d -> m d = (r, d') ->
  sound_change L d d' /\ forall a, r = Ok a -> Q a d'.

(** No condition on the tables. *)
Definition anything : db -> Prop := fun _ => True.

Section rules.
Context {A B : Type} (L : gset uuid).
Implicit Types (P : db -> Prop).

Lemma triple_bind P (m : io db A) (Q : A -> db -> Prop) (f : A -> io db B) R :
  triple L P m Q -> (forall a, triple L (Q a) (f a) R) -> triple L P (m ≫= f) R.
Proof.
  intros Hm Hf d r d' Hd Hh HP E. rewrite io_bind_eq in E. destruct (m d) as [[a|e] d1] eqn:Em.
  - destruct (Hm _ _ _ Hd Hh HP Em) as [H1 HQ].
    destruct (Hf a d1 r d') as [H2 HR]; [apply H1 | by eapply held_change | by apply HQ | done |].
    split; [|done]. by apply (sound_trans L d d1 d').
  - injection E as <- <-. destruct (Hm _ _ _ Hd Hh HP Em) as [H1 _]. done.
Qed.

(** A step that leaves the tables as they are. *)
Lemma triple_pure P (m : io db A) (Q : A -> db -> Prop) :
  (forall d, (m d).2 = d) -> (forall d a, P d -> (m d).1 = Ok a -> Q a d) -> triple L P m Q.
Proof.
  intros Hs Hq d r d' Hd _ HP E. pose proof (Hs d) as Hd'. rewrite E in Hd'. simpl in Hd'. subst.
  split; [by apply sound_refl|]. intros a ->. apply Hq; [done | by rewrite E].
Qed.

Lemma triple_ret P (a : A) (Q : A -> db -> Prop) : (forall d, P d -> Q a d) ->
  triple L P (mret a) Q.
Proof. intros H. apply triple_pure; [done|]. intros d b HP [= <-]. by apply H. Qed.

Lemma triple_lift P (x : result A) (Q : A -> db -> Prop) :
  (forall d a, P d -> x = Ok a -> Q a d) -> triple L P (lift x) Q.
Proof. intros H. by apply triple_pure. Qed.

Lemma triple_raise P c msg (Q : A -> db -> Prop) : triple L P (io_raise c msg) Q.
Proof. by apply triple_lift. Qed.

Lemma triple_statement P fault (f : db -> result (A * db)) (Q : A -> db -> Prop) :
  (forall d a d', wf_db d -> held L d -> P d -> f d = Ok (a, d') -> sound_change L d d' /\ Q a d') ->
  triple L P (statement fault f) Q.
Proof.
  intros H d r d' Hd Hh HP E. unfold statement in E. destruct fault.
  { injection E as <- <-. split; [by apply sound_refl|done]. }
  destruct (f d) as [[a d1]|e] eqn:Ef; injection E as <- <-.
  - destruct (H _ _ _ Hd Hh HP Ef) as [? ?]. split; [done|]. by intros ? [= <-].
  - split; [by apply sound_refl|done].
Qed.

Lemma triple_query P fault (f : db -> result A) (Q : A -> db -> Prop) :
  (forall d a, wf_db d -> P d -> f d = Ok a -> Q a d) -> triple L P (query fault f) Q.
Proof.
  intros H. apply triple_statement. intros d a d' Hd _ HP E. ok_inv.
  split; [by apply sound_refl | by apply H].
Qed.

Lemma triple_try P (m : io db A) h k (Q : A -> db -> Prop) :
  triple L P m Q -> (forall e, triple L anything (k e) Q) -> triple L P (io_try m h k) Q.
Proof.
  intros Hm Hk d r d' Hd Hh HP E. unfold io_try in E. destruct (m d) as [[a|e] d1] eqn:Em;
    destruct (Hm _ _ _ Hd Hh HP Em) as [H1 HQ].
  - injection E as <- <-. done.
  - destruct (h (exn_cls e)); [|by injection E as <- <-].
    destruct (Hk e d1 r d') as [H2 HR]; [apply H1 | by eapply held_change | done | done |].
    split; [|done]. by apply (sound_trans L d d1 d').
Qed.

Lemma triple_weaken P P' (m : io db A) (Q Q' : A -> db -> Prop) :
  triple L P m Q -> (forall d, P' d -> P d) -> (forall a d, Q a d -> Q' a d) ->
  triple L P' m Q'.
Proof.
  intros Hm HP HQ d r d' Hd Hh Hp E. destruct (Hm d r d' Hd Hh (HP _ Hp) E) as [? H].
  split; [done|]. intros a Ha. apply HQ. by apply H.
Qed.
End rules.

(** What other sessions may do between two statements of one that holds [L]. *)
Definition good_neighbours (L : gset uuid) (others : db -> db) : Prop :=
  forall d, wf_db d -> held L d -> sound_change L d (others d).

Lemma sound_weaken L L' d d' : L ⊆ L' -> sound_change L' d d' -> sound_change L d d'.
Proof. intros HL (Hw & He & Ha). split_and!; [done..|]. intros i Hi. apply Ha. by apply HL. Qed.

Lemma triple_interleave L L' (P : db -> Prop) others (Q : unit -> db -> Prop) :
  good_neighbours L' others -> L ⊆ L' -> (forall d, P d -> held L' d) ->
  (forall d d', P d -> sound_change L' d d' -> Q tt d') ->
  triple L P (interleave others) Q.
Proof.
  intros Ho HL Hheld HQ d r d' Hd _ HP E. injection E as <- <-.
  assert (sound_change L' d (others d)) as H by (apply Ho; [done | by apply Hheld]).
  split; [by apply (sound_weaken L L')|]. intros [] _. by eapply HQ.
Qed.

(** An approval that is consumed and not yet in the history. *)
Definition just_consumed (id : uuid) (d : db) : Prop :=
  (exists r, approvals d !! id = Some r /\ is_null (ap_consumed_at r) = false) /\
  Consumed id ∉ history d.

Lemma consume_update_fresh id now d d' : wf_db d -> consume_update id now d = Ok (true, d') ->
  just_consumed id d'.
Proof.
  intros Hd H. destruct (consume_update_sound d Hd ∅ id now true d' H) as (_ & _ & Hh & _ & Ht).
  destruct (Ht eq_refl) as (r & Hr & Hc & _ & Hr'). split; [by eexists|].
  rewrite Hh. intros Hin. destruct (proj2 (wf_history _ Hd) _ Hin) as (s & Hs & Hn). simplify_eq.
  by rewrite Hc in Hn.
Qed.

Lemma log_change L a d : wf_db d -> just_consumed a d ->
  sound_change L d (log_event (Consumed a) d).
Proof. intros Hd [(r & Hr & Hc) Hn]. by eapply log_sound. Qed.

(** A step in the middle of an operation that promises nothing yet. *)
Abbreviation nothing := (fun _ _ => True).

Lemma triple_others L P others : good_neighbours L others ->
  triple L P (interleave others) nothing.
Proof. intros Ho d r d' Hd Hh _ [= <- <-]. split; [by apply Ho | done]. Qed.

Section operations.
Context {rt : PyRuntime} {net : NetRuntime}.

Lemma triple_create L fault now new_id project plan approver source comment :
  triple L anything (create fault now new_id project plan approver source comment) nothing.
Proof.
  unfold create. cbv zeta. eapply triple_bind; [|intros ?; by apply triple_lift].
  apply triple_try with (Q := nothing).
  - apply triple_statement. intros d [] d' Hd _ _ H. ok_inv. split; [|done].
    eapply (insert_approval_sound d Hd L); [|eassumption]. done.
  - intros e. destruct (bool_decide _); apply triple_raise.
Qed.

Lemma triple_approve L fault now new_id project plan hash approver comment :
  triple L anything (approve fault now new_id project plan hash approver comment) nothing.
Proof.
  unfold approve. do 5 (eapply triple_bind; [apply triple_lift with (Q := fun _ _ => True); done|intros ?]).
  eapply triple_weaken; [apply triple_create|done|done].
Qed.

Lemma triple_consume L fault now project plan hash others :
  good_neighbours L others ->
  triple L anything (consume fault now project plan hash others)
    (fun o d => match o with Some a => just_consumed (ea_id a) d | None => True end).
Proof.
  intros Ho. unfold consume. apply triple_try; [|intros; apply triple_raise].
  eapply triple_bind; [by apply triple_query with (Q := nothing)|intros [row|]].
  2:{ by apply triple_ret. }
  eapply triple_bind; [apply triple_lift with (Q := nothing); done|intros a].
  destruct (negb _ || _); [by apply triple_ret|].
  eapply triple_bind; [by apply triple_others|].
  intros ?. eapply triple_bind with (Q := fun b d => b = true -> just_consumed (ea_id a) d).
  - apply triple_statement. intros d b d' Hd _ _ H. split; [by eapply consume_update_sound|].
    intros ->. by eapply consume_update_fresh.
  - intros [|]; apply triple_ret; auto.
Qed.

Lemma triple_enqueue L fault fault2 now new_id trace approval others :
  good_neighbours L others ->
  triple L anything (enqueue fault fault2 now new_id trace approval others) nothing.
Proof.
  intros Ho. unfold enqueue.
  do 2 (eapply triple_bind; [apply triple_lift with (Q := nothing); done|intros ?]).
  apply triple_try.
  - eapply triple_bind; [|intros ?; by apply triple_ret].
    apply triple_statement with (Q := nothing). intros d [] d' Hd Hh _ H. ok_inv. split; [|done].
    eapply (insert_job_sound d Hd L); [|eassumption|exact Hh]. done.
  - intros e. destruct (bool_decide _); [|apply triple_raise].
    eapply triple_bind; [by apply triple_others|].
    intros ?. eapply triple_bind with (Q := nothing); [|intros [j|]; [by apply triple_ret | apply triple_raise]].
    unfold existing_job. apply triple_try; [|intros; apply triple_raise].
    eapply triple_bind; [by apply triple_query with (Q := nothing)|]. intros. by apply triple_ret.
Qed.

Lemma triple_cancel L fault now project id : id ∉ L ->
  triple L anything (cancel fault now project id) nothing.
Proof.
  intros HL. unfold cancel. apply triple_try; [|intros; apply triple_raise].
  eapply triple_bind with (Q := nothing); [|intros; by apply triple_ret].
  apply triple_statement. intros d o d' Hd _ _ H. split; [|done]. unfold cancel_update in H.
  destruct (jobs d !! id) as [r|] eqn:Hr; [|injection H as _ <-; by apply sound_refl].
  destruct ((job_project_id r =? project)%N && bool_decide (job_state r = QUEUED)) eqn:Hg;
    [|injection H as _ <-; by apply sound_refl].
  ok_inv. bools. destruct (wf_job _ Hd _ _ Hr) as [<- Hck].
  match goal with E : update_job _ _ = Ok _ |- _ => eapply (update_job_sound d Hd L r) in E end;
    try done.
  match goal with E : job_state r = QUEUED |- _ => rewrite E end. constructor.
Qed.
End operations.

#[export] Instance job_le_total : Total job_le.
Proof. intros a b. unfold job_le. lia. Qed.
#[export] Instance job_le_trans : Transitive job_le.
Proof. intros a b c. unfold job_le. lia. Qed.

(** The queue is first in, first out among the rows nobody holds. *)
Lemma next_queued_Some L d j : wf_db d -> next_queued L d = Some j ->
  jobs d !! job_id j = Some j /\ job_state j = QUEUED /\ job_id j ∉ L /\
  forall i k, jobs d !! i = Some k -> job_state k = QUEUED -> i ∉ L -> job_le j k.
Proof.
  intros Hd Hq. pose proof (head_merge_sort job_le (select (fun r => bool_decide (job_state r = QUEUED) &&
    negb (bool_decide (job_id r ∈ L))) (jobs d))) as H. unfold next_queued in Hq. rewrite Hq in H.
  destruct H as [[Hp [i Hi]]%elem_of_select Hle]. bools.
  destruct (wf_job _ Hd _ _ Hi) as [<- _]. split_and!; try done.
  intros i k Hk Hs HL. destruct (wf_job _ Hd _ _ Hk) as [<- _].
  apply Hle, elem_of_select. split; [by bool_goal|eauto].
Qed.

Lemma next_queued_None L d : next_queued L d = None ->
  forall i k, jobs d !! i = Some k -> job_state k = QUEUED -> job_id k ∈ L.
Proof.
  intros Hq i k Hk Hs. pose proof (head_merge_sort job_le (select (fun r =>
    bool_decide (job_state r = QUEUED) && negb (bool_decide (job_id r ∈ L))) (jobs d))) as H.
  unfold next_queued in Hq. rewrite Hq in H.
  destruct (decide (job_id k ∈ L)) as [?|Hn]; [done|]. exfalso.
  apply (not_elem_of_nil k). rewrite <- H. apply elem_of_select. split; [by bool_goal|eauto].
Qed.

Section claims.
Context {rt : PyRuntime} {net : NetRuntime}.

Lemma approval_from_record_fields r a : approval_from_record r = Ok a ->
  ea_id a = ap_id r /\ ea_project_id a = ap_project_id r /\ ea_consumed_at a = ap_consumed_at r /\
  ea_expires_at a = ap_expires_at r /\ ea_approved_at a = ap_approved_at r.
Proof. unfold approval_from_record. intros H. by ok_inv. Qed.

(** The claimed row stays as it was read. *)
Definition holding (job : ExecutionJobRecord) (d : db) : Prop :=
  jobs d !! job_id job = Some job.

Lemma holding_stable L job d d' : holding job d -> sound_change ({[job_id job]} ∪ L) d d' ->
  holding job d'.
Proof. intros H (_ & _ & Hl). unfold holding. rewrite Hl; [done|set_solver]. Qed.

Lemma triple_hold L job (P : db -> Prop) others :
  (forall d, P d -> holding job d /\ held L d) ->
  good_neighbours ({[job_id job]} ∪ L) others ->
  triple L P (interleave others) (fun _ d => holding job d).
Proof.
  intros HP Ho. eapply triple_interleave; [done|set_solver| |].
  - intros d [Hj Hl]%HP i [->%elem_of_singleton|Hi]%elem_of_union; [by eexists | by apply Hl].
  - intros d d' [Hj _]%HP Hs. by eapply holding_stable.
Qed.

Lemma triple_and_held {A} L P (m : io db A) Q :
  triple L (fun d => P d /\ held L d) m Q -> triple L P m Q.
Proof. intros H d r d' Hd Hh HP E. by apply (H d r d'). Qed.

Lemma triple_fail_job {A} L fault now job :
  job_state job = QUEUED -> job_id job ∉ L ->
  triple L (holding job) (execute fault (update_job (fail_job job now)) ;; mret (M := io db) (@None A))
    (fun o _ => o = None).
Proof.
  intros Hq HL. eapply triple_bind; [|intros ?; apply triple_ret with (P := fun _ => True); auto].
  apply triple_statement. intros d [] d' Hd _ Hj H. ok_inv. split; [|done].
  match goal with E : update_job _ _ = Ok _ |- _ => eapply (update_job_sound d Hd L job) in E end;
    try done. rewrite Hq. constructor.
Qed.

Lemma claim_statement_sound L d job a now b d' :
  wf_db d -> holding job d -> job_state job = QUEUED -> job_id job ∉ L ->
  ea_id a = job_approval_id job ->
  ('(consumed, d) ← consume_update (ea_id a) now d;
   d ← update_job (if consumed : bool then start_job job now else fail_job job now) d;
   Ok (consumed, d)) = Ok (b, d') ->
  sound_change L d d' /\ (b = true -> just_consumed (ea_id a) d').
Proof.
  intros Hd Hj Hq HL Ha H.
  apply bind_Ok in H as ([c d1] & Hc & H). apply bind_Ok in H as (d2 & Hu & [= <- <-]).
  destruct (consume_update_sound d Hd L _ _ _ _ Hc) as (S1 & J1 & H1 & _ & Ht).
  assert (wf_db d1) as Hd1 by apply S1.
  unfold holding in Hj. rewrite <- J1 in Hj.
  assert (sound_change L d1 d2) as S2.
  { destruct c.
    - destruct (Ht eq_refl) as (r & _ & _ & _ & Hr).
      apply (update_job_sound d1 Hd1 L job (start_job job now)); [done|done| |done| |exact HL|exact Hu].
      + rewrite Hq. constructor.
      + intros _. exists now, (set_consumed now r). cbn. by rewrite <- Ha.
    - apply (update_job_sound d1 Hd1 L job (fail_job job now)); [done|done| |done|done|exact HL|exact Hu].
      rewrite Hq. constructor. }
  split; [by apply (sound_trans L d d1 d2)|]. intros ->.
  apply (consume_update_fresh _ _ _ _ Hd) in Hc as [(r & Hr & Hn) Hh].
  unfold update_job in Hu. ok_inv. split; [by eexists | done].
Qed.

(** How a claim that returns a job went. *)
Lemma claim_locked_Ok fault now job others others' d c d' :
  claim_locked fault now job others others' d = (Ok (Some c), d') ->
  exists r a d2,
    scalar_one_or_none
      (select (fun r => (ap_id r =? job_approval_id job)%N &&
                        (ap_project_id r =? job_project_id job)%N &&
                        (ap_plan_id r =? job_plan_id job)%N &&
                        str_eqb (ap_plan_hash r) (job_plan_hash job)) (approvals (others d))) =
      Ok (Some r) /\
    approval_from_record r = Ok a /\ ea_consumed_at a = None /\ now < ea_expires_at a /\
    consume_update (ea_id a) now (others' (others d)) = Ok (true, d2) /\
    update_job (start_job job now) d2 = Ok d' /\
    c = {| claimed_job := job_from_record (start_job job now);
           claimed_approval := consumed_approval now a |}.
Proof.
  unfold claim_locked. cbv zeta. intros H. db_inv.
  match goal with H : context [match ?o with Some _ => _ | None => _ end] |- _ =>
    destruct o as [r|]; [|db_inv; congruence] end.
  destruct (approval_from_record r) as [a|e] eqn:Ea.
  2:{ destruct (bool_decide _); db_inv; congruence. }
  destruct (negb _ || _) eqn:Hg; [db_inv; congruence|]. db_inv. bools.
  match goal with H : context [if ?b then mret _ else mret _] |- _ =>
    destruct b; db_inv; [|congruence] end.
  ok_inv. match goal with p : bool * db |- _ => destruct p end. ok_inv. simplify_eq.
  exists r, a, d0. destruct (ea_consumed_at a) eqn:Hc; [done|]. split_and!; done.
Qed.

Lemma triple_claim_locked L fault now job others others' :
  job_state job = QUEUED -> job_id job ∉ L ->
  good_neighbours ({[job_id job]} ∪ L) others -> good_neighbours ({[job_id job]} ∪ L) others' ->
  triple L (holding job) (claim_locked fault now job others others')
    (fun o d => match o with
                | Some c => just_consumed (ea_id (claimed_approval c)) d | None => True end).
Proof.
  intros Hq HL Ho Ho'. unfold claim_locked. cbv zeta. apply triple_and_held.
  eapply triple_bind; [by apply (triple_hold L job)|]. intros ?.
  eapply triple_bind with (Q := fun o d => holding job d /\
    match o with Some r => ap_id r = job_approval_id job | None => True end).
  { apply triple_query. intros d [r|] Hd Hj E; [|done]. split; [done|].
    apply scalar_one_Some, elem_of_select in E as [Hp _]. by bools. }
  intros [r|].
  2:{ eapply triple_weaken; [by apply triple_fail_job|by intros d [? _]|by intros ? ? ->]. }
  destruct (approval_from_record r) as [ap|e] eqn:Ea.
  2:{ destruct (bool_decide _); [|by apply triple_lift].
      eapply triple_weaken; [by apply triple_fail_job|by intros d [? _]|by intros ? ? ->]. }
  apply approval_from_record_fields in Ea as (Ea & _).
  destruct (negb _ || _).
  { eapply triple_weaken; [by apply triple_fail_job|by intros d [? _]|by intros ? ? ->]. }
  apply triple_and_held.
  eapply triple_bind with (Q := fun _ d => holding job d /\ ap_id r = job_approval_id job).
  { intros d x d' Hd Hh [[Hj Hr] Hl] E.
    destruct (triple_hold L job (fun d => holding job d /\ held L d) others' ltac:(auto) Ho'
                d x d' Hd Hh (conj Hj Hl) E) as [S HQ]. eauto. }
  intros ?. eapply triple_bind with (Q := fun b d => b = true -> just_consumed (ea_id ap) d).
  - apply triple_statement. intros d b d' Hd _ [Hj Hr] H.
    apply (claim_statement_sound L d job ap now); try done. congruence.
  - intros [|]; apply triple_ret; auto.
Qed.

Lemma triple_claim_next L fault now others others' :
  (forall id, good_neighbours ({[id]} ∪ L) (others id)) ->
  (forall id, good_neighbours ({[id]} ∪ L) (others' id)) ->
  triple L anything (claim_next fault now L others others')
    (fun o d => match o with
                | Some c => just_consumed (ea_id (claimed_approval c)) d | None => True end).
Proof.
  intros Ho Ho'. unfold claim_next. apply triple_try; [|intros; apply triple_raise].
  eapply triple_bind with (Q := fun o d => match o with
    | Some j => holding j d /\ job_state j = QUEUED /\ job_id j ∉ L | None => True end).
  { apply triple_query. intros d [j|] Hd _ E; ok_inv; [|done].
    match goal with E : next_queued _ _ = _ |- _ => apply next_queued_Some in E; [|done] end.
    destruct_and?. done. }
  intros [j|]; [|by apply triple_ret].
  intros d r d' Hd Hh (Hj & Hq & HL) E.
  by eapply (triple_claim_locked L fault (utc_datetime now) j (others (job_id j)) (others' (job_id j))).
Qed.
End claims.

Section recording.
Context {rt : PyRuntime} {net : NetRuntime}.

Lemma new_result_fields now new_id id p r : new_result now new_id id p = Ok r ->
  res_id r = new_id /\ res_job_id r = id /\ res_outcome r = p_outcome p.
Proof. unfold new_result. intros H. by ok_inv. Qed.

Lemma complete_job_fields j o t :
  same_job j (complete_job j o t) /\ job_state (complete_job j o t) = outcome_state o /\
  job_started_at (complete_job j o t) = job_started_at j.
Proof. destruct o; done. Qed.

Lemma triple_record L fault now new_id project id payload others :
  id ∉ L -> good_neighbours ({[id]} ∪ L) others ->
  triple L anything (record fault now new_id project id payload others) nothing.
Proof.
  intros HL Ho. unfold record.
  eapply triple_bind; [apply triple_lift with (Q := nothing); done|intros v]. cbv zeta.
  apply triple_try; [|intros; apply triple_raise].
  eapply triple_bind with (Q := fun o d => match o with
    | Some j => holding j d /\ job_id j = id | None => True end).
  { apply triple_query. intros d [j|] Hd _ E; [|done].
    apply scalar_one_Some, elem_of_select in E as [Hp [i Hi]]. bools.
    destruct (wf_job _ Hd _ _ Hi) as [<- _]. done. }
  intros [j|]; [|apply triple_raise]. apply triple_and_held.
  eapply triple_bind with (Q := fun _ d => holding j d /\ job_id j = id).
  { intros d x d' Hd Hh [[Hj Hid] Hl] E. subst id.
    destruct (triple_hold L j (fun d => holding j d /\ held L d) others ltac:(auto) Ho
                d x d' Hd Hh (conj Hj Hl) E) as [S HQ]. eauto. }
  intros ?. eapply triple_bind with (Q := fun _ d => holding j d /\ job_id j = id).
  { by apply triple_query. }
  intros [ex|].
  { eapply triple_bind; [apply triple_lift with (Q := nothing); done|intros s].
    destruct (matches_payload s v); [by apply triple_ret | apply triple_raise]. }
  eapply triple_bind with (Q := fun _ d => holding j d /\ job_id j = id /\ job_state j = RUNNING).
  { apply triple_lift. intros d [] [Hj Hid] E. ok_inv. by bools. }
  intros ?. eapply triple_bind with (Q := fun r d =>
    holding j d /\ job_id j = id /\ job_state j = RUNNING /\ res_job_id r = job_id j /\
    res_outcome r = p_outcome v).
  { apply triple_lift. intros d r (Hj & Hid & Hr) E. apply new_result_fields in E as (_ & -> & ->).
    done. }
  intros r. apply triple_statement. intros d s d' Hd Hh (Hj & Hid & Hr & Hrj & Hro) H. split; [|done].
  apply bind_Ok in H as (d1 & Hu & H). apply bind_Ok in H as (d2 & Hi & H).
  apply bind_Ok in H as (st & _ & [= _ <-]).
  destruct (complete_job_fields j (p_outcome v) (utc_datetime now)) as (Hs & Hst & Hsa).
  eapply (finish_sound d Hd L j (complete_job j (p_outcome v) (utc_datetime now)) r d1 d2);
    try done; by rewrite ?Hro, ?Hid.
Qed.
End recording.

(** ** Every run *)

Section runs.
Context {rt : PyRuntime} {net : NetRuntime}.

(** Induction over calls and the calls between their statements. *)
Fixpoint call_ind_nested (P : call -> Prop)
    (HA : forall f n i p pl h a c, P (Approve f n i p pl h a c))
    (HC : forall f n p pl h b, Forall P b -> P (Consume f n p pl h b))
    (HE : forall f f2 n i t a b, Forall P b -> P (Enqueue f f2 n i t a b))
    (HK : forall f n b b', Forall P b -> Forall P b' -> P (Claim f n b b'))
    (HX : forall f n p i, P (Cancel f n p i))
    (HR : forall f n k p i y b, Forall P b -> P (Record_ f n k p i y b)) (c : call) : P c :=
  let all := fix all (l : list call) : Forall P l :=
    match l with
    | [] => List.Forall_nil _
    | c :: l => List.Forall_cons _ _ _ (call_ind_nested P HA HC HE HK HX HR c) (all l)
    end in
  match c with
  | Approve f n i p pl h a c => HA f n i p pl h a c
  | Consume f n p pl h b => HC f n p pl h b (all b)
  | Enqueue f f2 n i t a b => HE f f2 n i t a b (all b)
  | Claim f n b b' => HK f n b b' (all b) (all b')
  | Cancel f n p i => HX f n p i
  | Record_ f n k p i y b => HR f n k p i y b (all b)
  end.

Lemma runs_good L calls :
  Forall (fun c => forall L, good_neighbours L (run L c)) calls ->
  good_neighbours L (fun d => foldl (fun d c => run L c d) d calls).
Proof.
  induction 1 as [|c calls Hc _ IH]; intros d Hd Hh; simpl; [by apply sound_refl|].
  apply (sound_trans L d (run L c d)); [by apply Hc|]. intros Hd'. apply IH; [done|].
  eapply held_change; [done | by apply Hc].
Qed.

Lemma triple_state {A} L (m : io db A) Q d :
  triple L anything m Q -> wf_db d -> held L d -> sound_change L d (m d).2.
Proof. intros Hm Hd Hh. destruct (m d) as [r d'] eqn:E. by eapply Hm. Qed.

Lemma run_good c : forall L, good_neighbours L (run L c).
Proof.
  induction c using call_ind_nested; intros L d Hd Hh; cbn [run].
  - eapply triple_state; [apply triple_approve|done..].
  - destruct (consume _ _ _ _ _ _ _) as [r d'] eqn:E.
    eapply triple_consume in E as [Hs HQ]; [|by apply runs_good|done..].
    destruct r as [[a|]|e]; [|done..]. apply (sound_trans L d d'); [done|]. intros Hd'.
    apply log_change; [done | by apply (HQ (Some a))].
  - eapply triple_state; [apply triple_enqueue|done..]. by apply runs_good.
  - destruct (claim_next _ _ _ _ _ _) as [r d'] eqn:E.
    eapply triple_claim_next in E as [Hs HQ]; [|intros; by apply runs_good..|done|done|done].
    destruct r as [[cl|]|e]; [|done..]. apply (sound_trans L d d'); [done|]. intros Hd'.
    apply log_change; [done | by apply (HQ (Some cl))].
  - destruct (bool_decide (i ∈ L)) eqn:Hi; [by apply sound_refl|]. bools.
    eapply triple_state; [by apply triple_cancel|done..].
  - destruct (bool_decide (i ∈ L)) eqn:Hi; [by apply sound_refl|]. bools.
    eapply triple_state; [apply triple_record; [done | by apply runs_good]|done..].
Qed.

Lemma run_all_sound calls d : wf_db d -> sound_change ∅ d (run_all calls d).
Proof.
  intros Hd. apply (runs_good ∅ calls); [|done|].
  - apply Forall_forall. intros c _. apply run_good.
  - intros i Hi. set_solver.
Qed.

(** A longer run goes on from where the shorter one stopped. *)
Lemma run_all_more calls more ps :
  evolves (run_all calls (empty_db ps)) (run_all (calls ++ more) (empty_db ps)).
Proof.
  pose proof (run_all_sound calls _ (wf_empty_db ps)) as [W _].
  pose proof (run_all_sound more _ W) as (_ & E & _).
  unfold run_all at 2. rewrite foldl_app. exact E.
Qed.
End runs.
