(* ===== verification/ExecutionSystemSpec.v ===== *)
(** * The execution system: properties

    What holds of the tables after any interleaving of sessions, and what each
    operation of the three repositories does. *)
From S2P Require Import Prelude PyText Json JsonFacts Digest GeneratedTests GeneratedTestsFacts.
From S2P Require Import GeneratedTestsSpec Url Effects TargetRegistry ExecutionPlans.
From S2P Require Import Database DatabaseFacts ExecutionApprovals.
From S2P Require Import ExecutionJobs ExecutionResults ExecutionSystem.
From S2P Require Import AsciiRuntime Samples SystemSamples.

Section runs.
Context {rt : PyRuntime} {net : NetRuntime}.

(** C1: An approval is consumed at most once: whatever sessions do and
    however their transactions interleave, the history of successful claims
    (by [consume] or by a worker's [claim_next]) names no approval twice,
    and every approval it names is consumed in the tables. *)
Theorem approval_consumed_at_most_once calls ps :
  let d := run_all calls (empty_db ps) in
  NoDup (history d) /\
  forall a, Consumed a ∈ history d ->
    exists r t, approvals d !! a = Some r /\ ap_consumed_at r = Some t.
Proof.
  intros d. destruct (run_all_sound calls _ (wf_empty_db ps)) as (Hw & _ & _).
  destruct (wf_history _ Hw) as [Hn Hh]. split; [done|]. intros a Ha.
  destruct (Hh a Ha) as (r & Hr & Hc). exists r. destruct (ap_consumed_at r) as [t|] eqn:E; [|done].
  by exists t.
Qed.

(** C2: The tables keep their invariant through every interleaving: keys and
    constraints, one approval per plan of a project, one job per approval,
    one result per job, a running job's approval consumed at the instant it
    started, a result only for a claimed job in the state its outcome says,
    and no job succeeded without its result. *)
Theorem run_keeps_invariant calls ps : wf_db (run_all calls (empty_db ps)).
Proof. apply (run_all_sound calls _ (wf_empty_db ps)). Qed.

(** C10: What is final stays: through any run, a job in a terminal state, a
    stored result and a consumed approval never change, and no job, result
    or approval disappears. *)
Theorem final_rows_are_final calls d : wf_db d ->
  let d' := run_all calls d in
  (forall i j, jobs d !! i = Some j -> terminal (job_state j) = true -> jobs d' !! i = Some j) /\
  (forall i r, results d !! i = Some r -> results d' !! i = Some r) /\
  (forall i a t, approvals d !! i = Some a -> ap_consumed_at a = Some t ->
     approvals d' !! i = Some a) /\
  dom (jobs d) ⊆ dom (jobs d') /\ dom (approvals d) ⊆ dom (approvals d').
Proof.
  intros Hd d'. pose proof (run_all_sound calls d Hd) as (_ & E & _). fold d' in E.
  split_and!.
  - intros i j Hj Ht. apply (ev_jobs _ _ E) in Hj as (s & Hs & [->|[_ Hstep]]); [done|].
    exfalso. inversion Hstep as [? ? H|? ? ? H]; subst; by apply terminal_no_step in H.
  - intros i r Hr. by apply (ev_results _ _ E) in Hr as (s & Hs & ->).
  - intros i a t Ha Ht. apply (ev_approvals _ _ E) in Ha as (s & Hs & Ev).
    by rewrite (approval_evolves_consumed _ _ _ Ev Ht) in Hs.
  - intros i [j Hj]%elem_of_dom. apply (ev_jobs _ _ E) in Hj as (s & Hs & _).
    apply elem_of_dom. by eexists.
  - intros i [j Hj]%elem_of_dom. apply (ev_approvals _ _ E) in Hj as (s & Hs & _).
    apply elem_of_dom. by eexists.
Qed.

(** C9: The lifecycle of a job: through any run, a job moves only along
    queued to running, failed or cancelled and running to succeeded, failed
    or cancelled, and its identity, project, approval, plan, trace and
    creation time never change. *)
Theorem job_lifecycle calls d i j : wf_db d -> jobs d !! i = Some j ->
  exists j', jobs (run_all calls d) !! i = Some j' /\
    same_job j j' /\ rtc job_step (job_state j) (job_state j').
Proof.
  intros Hd Hj. pose proof (run_all_sound calls d Hd) as (_ & E & _).
  apply (ev_jobs _ _ E) in Hj as (s & Hs & Hev). exists s. split; [exact Hs|].
  destruct Hev as [->|[Hsame Hstep]]; [done|]. split; [exact Hsame|]. by apply tc_rtc.
Qed.
End runs.

(** ** What each operation does *)

Section operations.
Context {rt : PyRuntime} {net : NetRuntime}.

Lemma claim_next_Some L now others others' d c d' :
  wf_db d -> held L d ->
  (forall id, good_neighbours ({[id]} ∪ L) (others id)) ->
  (forall id, good_neighbours ({[id]} ∪ L) (others' id)) ->
  claim_next false now L others others' d = (Ok (Some c), d') ->
  let t := utc_datetime now in
  let a := claimed_approval c in
  exists j, next_queued L d = Some j /\
    (forall i k, jobs d !! i = Some k -> job_state k = QUEUED -> i ∉ L -> job_le j k) /\
    claimed_job c = job_from_record (start_job j t) /\
    jobs d' !! job_id j = Some (start_job j t) /\
    ea_id a = job_approval_id j /\ ea_project_id a = job_project_id j /\
    ea_consumed_at a = Some t /\ t < ea_expires_at a /\
    exists r, approvals d' !! job_approval_id j = Some r /\ ap_consumed_at r = Some t.
Proof.
  intros Hd Hh Ho Ho' H t a. unfold claim_next, queue_unavailable_on_failure in H.
  apply io_try_raise_Ok in H. db_inv.
  match goal with H : context [next_queued L d] |- _ => destruct (next_queued L d) as [j|] eqn:Hn end;
    [|ok_inv; db_inv; congruence].
  ok_inv. pose proof (next_queued_Some _ _ _ Hd Hn) as (Hj & Hq & HL & Hfirst).
  apply claim_locked_Ok in H as (r & ap & d2 & Hsel & Ha & Hc & He & Hu & Hup & ->).
  apply scalar_one_Some, elem_of_select in Hsel as [Hp _]. bools.
  destruct (approval_from_record_fields _ _ Ha) as (Hid & Hpr & _).
  assert (held ({[job_id j]} ∪ L) d) as Hh'.
  { intros i [->%elem_of_singleton|Hi]%elem_of_union; [by eexists | by apply Hh]. }
  pose proof (Ho (job_id j) d Hd Hh') as S1. pose proof (proj1 S1) as W1.
  pose proof (Ho' (job_id j) _ W1 (held_change _ _ _ Hh' S1)) as [W2 _].
  apply (consume_update_sound _ W2 L) in Hu as (_ & _ & _ & _ & Ht).
  destruct (Ht eq_refl) as (r' & _ & _ & _ & Hr').
  unfold update_job in Hup. ok_inv. exists j.
  split_and!; try done; cbn; try congruence.
  - by rewrite lookup_insert_eq.
  - exists (set_consumed t r'). split; [|done]. cbn.
    assert (job_approval_id j = ea_id ap) as -> by congruence. exact Hr'.
Qed.

(** A worker's claim, with other sessions at work between its
    statements: the claimed job is the oldest queued one nobody held; it is
    now running, its approval belongs to it (same project, plan and hash),
    was unconsumed and unexpired, and is consumed at the very instant the
    job started. *)
Theorem claim_next_spec L now others others' d c d' :
  wf_db d -> held L d ->
  (forall id, good_neighbours ({[id]} ∪ L) (others id)) ->
  (forall id, good_neighbours ({[id]} ∪ L) (others' id)) ->
  claim_next false now L others others' d = (Ok (Some c), d') ->
  let t := utc_datetime now in
  let a := claimed_approval c in
  exists j, next_queued L d = Some j /\
    (forall i k, jobs d !! i = Some k -> job_state k = QUEUED -> i ∉ L -> job_le j k) /\
    claimed_job c = job_from_record (start_job j t) /\
    jobs d' !! job_id j = Some (start_job j t) /\
    ea_id a = job_approval_id j /\ ea_project_id a = job_project_id j /\
    ea_consumed_at a = Some t /\ t < ea_expires_at a /\
    exists r, approvals d' !! job_approval_id j = Some r /\ ap_consumed_at r = Some t.
Proof. apply claim_next_Some. Qed.
End operations.

(** ** Witnesses *)

Lemma good_alone L : good_neighbours L (fun d => d).
Proof. intros d Hd _. by apply sound_refl. Qed.

Lemma held_none d : held ∅ d.
Proof. intros i Hi. set_solver. Qed.

(** A cancelled job is not claimed any more. *)
Lemma final_rows_are_final_witness :
  jobs (run_all [Claim false (utc 9) [Cancel false (utc 9) 1 4] []] cancelled_db) !! 4%N =
  Some cancelled_job.
Proof.
  destruct (final_rows_are_final [Claim false (utc 9) [Cancel false (utc 9) 1 4] []] cancelled_db
    wf_cancelled_db) as (H & _).
  apply H; [apply lookup_singleton_eq | reflexivity].
Defined.

Lemma job_lifecycle_witness : exists j',
  jobs (run_all [Cancel false (utc 9) 1 4] queued_db) !! 4%N = Some j' /\
  rtc job_step QUEUED (job_state j').
Proof.
  destruct (job_lifecycle [Cancel false (utc 9) 1 4] queued_db 4 (sample_job QUEUED None)
    wf_queued_db (lookup_singleton_eq _ _)) as (j' & Hj & _ & Hs).
  by exists j'.
Defined.

Lemma claim_next_spec_witness : exists p c d',
  claim_next false (utc 5) ∅ (fun _ d => d) (fun _ d => d) (plan_queued_db p) = (Ok (Some c), d') /\
  ea_consumed_at (claimed_approval c) = Some 5.
Proof.
  destruct sample_plan as [p Hp]. destruct (claim_plan p Hp) as (d' & H & _).
  exists p, (claimed_plan p), d'. split; [exact H|].
  destruct (claim_next_spec ∅ (utc 5) (fun _ d => d) (fun _ d => d) (plan_queued_db p) _ d'
    (wf_plan_queued_db p Hp) (held_none _) (fun _ => good_alone _) (fun _ => good_alone _) H)
    as (j & _ & _ & _ & _ & _ & _ & Hc & _).
  exact Hc.
Defined.
