(* ===== verification/ExecutionStoreSpec.v ===== *)
(** * The repositories: properties of single operations

    Approving, consuming, enqueueing, cancelling and recording, one operation
    at a time: what each does to the tables, what it answers when it is
    repeated, and what it refuses. *)
From S2P Require Import Prelude PyText Json JsonFacts Digest GeneratedTests.
From S2P Require Import GeneratedTestsFacts GeneratedTestsSpec Url Effects TargetRegistry.
From S2P Require Import ExecutionPlans Database DatabaseFacts.
From S2P Require Import ExecutionApprovals ExecutionJobs.
From S2P Require Import ExecutionResults ExecutionSystem AsciiRuntime Samples.
From S2P Require Import SystemSamples.

(** No other session commits anything in between. *)
Definition alone (d : db) : db := d.

(** ** Approvals *)

Section approvals.
Context {rt : PyRuntime} {laws : PyRuntimeLaws rt} {net : NetRuntime}.

Lemma strip_spaces s : forallb (N.eqb 32) s = true -> strip s = [].
Proof.
  intros H. assert (lstrip s = []) as E.
  { unfold lstrip. induction s as [|c s IH]; [done|]. cbn [forallb drop_while] in *.
    apply andb_true_iff in H as [Hc%N.eqb_eq H]. subst c.
    rewrite isspace_ascii by done. by apply IH. }
  unfold strip. by rewrite E.
Qed.

Lemma strip_not_blank s : strip s <> [] -> not_blank s = true.
Proof.
  intros H. unfold not_blank. apply negb_true_iff. destruct (forallb (N.eqb 32) s) eqn:E; [|done].
  by apply strip_spaces in E.
Qed.

Lemma provenance_source a x : approver_provenance a = Ok x ->
  x.2 ∈ [u "cognito"; u "local_bypass"].
Proof. destruct a; intros [= <-]; [left | right; left]. Qed.

(** The row a valid plan's approval is stored in satisfies the constraints. *)
Lemma new_approval_check now new_id project p t c aid src comment :
  plan_ok DEFAULT_TARGET_REGISTRY p t c -> strip aid <> [] ->
  src ∈ [u "cognito"; u "local_bypass"] ->
  approval_check (new_approval now new_id project p aid src comment) = true.
Proof.
  intros Hp Ha Hs. pose proof (plan_hash_shape _ _ _ _ Hp) as [Hl _].
  unfold approval_check. cbn. unfold zlen. rewrite Hl, strip_not_blank by done.
  rewrite bool_decide_eq_true_2 by done. unfold EXECUTION_APPROVAL_TTL.
  by rewrite (proj2 (Z.ltb_lt _ _)) by lia.
Qed.

End approvals.

Section approval_properties.
Context {rt : PyRuntime} {laws : PyRuntimeLaws rt} {net : NetRuntime}.

(** An owner's approval of a valid plan, under the hash they reviewed, is
    stored and can be read back unchanged in its project: it holds exactly
    that plan, is not consumed and expires ten minutes after it was given. *)
Theorem approve_then_get now new_id project p t c approver aid src comment comment' d :
  wf_db d -> plan_ok DEFAULT_TARGET_REGISTRY p t c -> scalar_text (test_case_payload p) = true ->
  approver_provenance approver = Ok (aid, src) -> strip aid <> [] ->
  validate_comment comment = Ok comment' ->
  project ∈ projects d -> approvals d !! new_id = None ->
  (forall i r, approvals d !! i = Some r -> ap_project_id r = project ->
     ap_plan_id r <> ExecutionPlans.id p /\ ap_plan_hash r <> plan_hash p) ->
  exists a d', approve false now new_id project p (plan_hash p) approver comment d = (Ok a, d') /\
    get_approval false project new_id d' = (Ok (Some a), d') /\
    ea_plan a = p /\ ea_project_id a = project /\ ea_approver_id a = aid /\
    ea_comment a = comment' /\ ea_consumed_at a = None /\
    ea_expires_at a = ea_approved_at a + EXECUTION_APPROVAL_TTL.
Proof.
  intros Hd Hp Hs Hprov Haid Hcom Hproj Hfresh Hno.
  pose proof (plan_hash_shape _ _ _ _ Hp) as [Hl Hh].
  set (row := new_approval now new_id project p aid src comment').
  assert (approval_from_record row = Ok _) as Hback by (by eapply new_approval_reads_back).
  assert (insert_approval row d = Ok (with_approvals d (<[new_id := row]> (approvals d)))) as Hins.
  { unfold insert_approval. rewrite raise_if_false; [done|].
    pose proof (provenance_source _ _ Hprov) as Hsrc. cbn in Hsrc.
    unfold row. rewrite (new_approval_check now new_id project p t c) by done.
    cbn. rewrite bool_decide_eq_true_2, Hfresh by done. cbn. apply orb_false_iff.
    split; apply negb_false_iff, no_row_true; intros i r Hr;
      destruct (N.eqb_spec (ap_project_id r) project) as [E|?]; try done;
      destruct (Hno i r Hr E) as [H1 H2]; cbn.
    - by apply N.eqb_neq.
    - by apply str_eqb_neq. }
  eexists _, _. split.
  { unfold approve. erewrite io_step; [|apply lift_run; cbn [try_except];
      rewrite (proj2 (validate_plan_iff p p DEFAULT_TARGET_REGISTRY)) by eauto; reflexivity].
    assert (is_ascii (plan_hash p) = true) as Hasc.
    { apply is_ascii_Forall. eapply Forall_impl; [exact Hh|]. intros x Hx%hex_char_bound. lia. }
    unfold zlen, compare_digest. rewrite Hl, Hasc. cbn [Z.of_nat Z.eqb andb].
    rewrite str_eqb_refl. erewrite io_step by (by apply lift_run).
    erewrite io_step by (by apply lift_run). erewrite io_step by (by apply lift_run).
    erewrite io_step by (by apply lift_run). unfold create. cbv zeta. cbn [fst snd]. fold row.
    erewrite io_step.
    2:{ unfold io_try, execute, statement. by rewrite Hins, !bind_ok. }
    unfold lift. by rewrite Hback. }
  split; [|by split_and!].
  unfold get_approval, unavailable_on_failure.
  erewrite io_step.
  2:{ unfold io_try, query, statement. cbn [with_approvals approvals].
      rewrite (select_by_key _ _ ap_id new_id row), !bind_ok; [reflexivity| | | |].
      - intros i r [[<- <-]|[_ Hi]]%lookup_insert_Some; [done|]. by apply (wf_approval _ Hd).
      - by rewrite lookup_insert_eq.
      - cbn. by rewrite !N.eqb_refl.
      - intros j r [[<- <-]|[_ Hj]]%lookup_insert_Some Hr; [done|]. bools.
        destruct (wf_approval _ Hd _ _ Hj) as [<- _]. done. }
  unfold fmap, io_fmap, lift. by rewrite Hback.
Qed.

(** A plan is approved at most once per project: while a row for the
    plan exists, creating another raises [ExecutionApprovalConflict] and
    leaves the tables alone. *)
Theorem create_conflict now new_id project p aid src comment i r d :
  approvals d !! i = Some r -> ap_project_id r = project ->
  ap_plan_id r = ExecutionPlans.id p \/ ap_plan_hash r = plan_hash p ->
  exists msg, create false now new_id project p aid src comment d =
    (raise ExecutionApprovalConflict msg, d).
Proof.
  intros Hr Hproj Hsame. set (row := new_approval now new_id project p aid src comment).
  assert (insert_approval row d = raise IntegrityError "execution_approvals") as Hins.
  { unfold insert_approval. unfold raise_if.
    match goal with |- context [if ?b then _ else _] => assert (b = true) as -> end; [|done].
    rewrite <- orb_assoc. apply orb_true_iff. right. rewrite !orb_true_iff, !negb_true_iff.
    destruct Hsame as [Hs|Hs]; [left|right]; apply not_true_iff_false; intros Hn;
      pose proof (proj1 (no_row_true _ _) Hn i r Hr) as Hf; cbn in Hf;
      rewrite Hproj, Hs, N.eqb_refl in Hf; simpl in Hf.
    - by rewrite N.eqb_refl in Hf.
    - by rewrite str_eqb_refl in Hf. }
  eexists. unfold create. cbv zeta. fold row. apply io_stop.
  unfold io_try, execute, statement. rewrite Hins. reflexivity.
Qed.

Lemma consume_Ok now project plan hash others d a d' :
  consume false now project plan hash others d = (Ok (Some a), d') ->
  exists r a0, (forall k, select (fun r => (ap_project_id r =? project)%N &&
      (ap_plan_id r =? plan)%N && str_eqb (ap_plan_hash r) hash) (approvals d) = k -> k = [r]) /\
    approval_from_record r = Ok a0 /\ ea_consumed_at a0 = None /\
    utc_datetime now < ea_expires_at a0 /\
    consume_update (ea_id a0) (utc_datetime now) (others d) = Ok (true, d') /\
    a = consumed_approval (utc_datetime now) a0.
Proof.
  unfold consume, unavailable_on_failure. cbv zeta. intros H. db_inv.
  match goal with H : scalar_one_or_none ?l = Ok ?o |- _ =>
    destruct o as [r|]; [|db_inv; congruence];
    destruct l as [|r' [|]] eqn:El; simpl in H; try discriminate H; injection H as -> end.
  db_inv. destruct (negb _ || _) eqn:Hg; [db_inv; congruence|]. db_inv. bools.
  match goal with H : context [if ?b then mret _ else mret _] |- _ =>
    destruct b; db_inv; [|congruence] end. simplify_eq.
  eexists r, _. split_and!; try done.
  by match goal with |- ?o = None => destruct o end.
Qed.

(** Consuming is one-time: after a successful [consume], another one for
    the same plan and hash answers [None] at any later or earlier time, and
    leaves the tables alone. *)
Theorem consume_once now now2 project plan hash d a d' others :
  wf_db d -> consume false now project plan hash alone d = (Ok (Some a), d') ->
  consume false now2 project plan hash others d' = (Ok None, d') /\
  ea_consumed_at a = Some (utc_datetime now).
Proof.
  intros Hd H. apply consume_Ok in H as (r & a0 & Hsel & Hback & Hnc & Hexp & Hu & ->).
  split; [|done]. specialize (Hsel _ eq_refl).
  destruct (approval_from_record_fields _ _ Hback) as (Hid & _ & Hc & _).
  destruct (consume_update_sound d Hd ∅ _ _ _ _ Hu) as ((Hw & _) & _ & _ & _ & Ht).
  destruct (Ht eq_refl) as (r1 & Hr1 & _ & _ & Hr').
  assert (r ∈ select (fun r => (ap_project_id r =? project)%N && (ap_plan_id r =? plan)%N &&
    str_eqb (ap_plan_hash r) hash) (approvals d)) as Hin by (rewrite Hsel; left).
  apply elem_of_select in Hin as [Hp [i Hi]]. destruct (wf_approval _ Hd _ _ Hi) as [<- _].
  rewrite Hid, Hi in Hr1. injection Hr1 as <-. rewrite Hid in Hr'.
  assert (scalar_one_or_none (select (fun r => (ap_project_id r =? project)%N &&
    (ap_plan_id r =? plan)%N && str_eqb (ap_plan_hash r) hash) (approvals d')) =
    Ok (Some (set_consumed (utc_datetime now) r))) as Hsel'.
  { apply (select_by_key _ _ ap_id (ap_id r)); [|done|exact Hp|].
    - intros j s Hj. by apply (wf_approval _ Hw).
    - intros j s Hj Hs. bools. apply (wf_plan_once _ Hw _ _ _ _ Hj Hr'); cbn; [congruence|].
      left. congruence. }
  assert (approval_from_record (set_consumed (utc_datetime now) r) =
    Ok (consumed_approval (utc_datetime now) a0)) as Hb1.
  { apply approval_from_record_consumed; [done|].
    pose proof (proj2 (wf_approval _ Hw _ _ Hr')) as Hck. unfold approval_check in Hck.
    cbn [set_consumed ap_consumed_at ap_approved_at] in Hck. by bools. }
  unfold consume, unavailable_on_failure. cbv zeta. apply io_try_raise_Ok.
  erewrite io_step; [|apply query_Ok; split_and!; [done|exact Hsel'|done]].
  cbv beta iota. by erewrite io_step; [|by apply lift_run].
Qed.
End approval_properties.

(** ** Jobs *)

Section job_properties.
Context {rt : PyRuntime} {net : NetRuntime}.

Lemma insert_job_duplicate r i j d : jobs d !! i = Some j ->
  job_approval_id j = job_approval_id r -> insert_job r d = raise IntegrityError "execution_jobs".
Proof.
  intros Hj Ha. unfold insert_job, raise_if.
  match goal with |- context [if ?b then _ else _] => assert (b = true) as -> end; [|done].
  apply orb_true_iff. right. apply negb_true_iff, not_true_iff_false. intros Hn.
  pose proof (proj1 (no_row_true _ _) Hn i j Hj) as Hf. cbn beta in Hf.
  by rewrite Ha, N.eqb_refl in Hf.
Qed.

(** One job per approval: while the approval has a job, enqueueing it
    again inserts nothing and answers with that job as it stands, whoever
    asks and under whichever fresh identifier. *)
Theorem enqueue_idempotent now new_id trace a i j d :
  wf_db d -> jobs d !! i = Some j -> job_approval_id j = ea_id a ->
  ea_consumed_at a = None -> utc_datetime now < ea_expires_at a ->
  enqueue false false now new_id trace a alone d = (Ok j, d).
Proof.
  intros Hd Hj Ha Hc He. unfold enqueue.
  erewrite io_step by (apply lift_run; by rewrite Hc).
  erewrite io_step.
  2:{ apply lift_run. rewrite raise_if_false by (by apply Z.leb_gt). reflexivity. }
  cbv zeta. unfold io_try at 1.
  assert ((execute false (insert_job (new_job now new_id trace a)) ;;
           mret (M := io db) (job_from_record (new_job now new_id trace a))) d =
          (raise IntegrityError "execution_jobs", d)) as ->.
  { apply io_stop. unfold execute, statement.
    by rewrite (insert_job_duplicate (new_job now new_id trace a) i j d) by done. }
  unfold raise. cbn [exn_cls is_SQLAlchemyError].
  rewrite bool_decide_eq_true_2 by done.
  erewrite io_step by reflexivity. unfold alone.
  erewrite io_step.
  2:{ unfold existing_job, queue_unavailable_on_failure. apply io_try_raise_Ok.
      erewrite io_step; [|apply query_Ok; split_and!; [done| |done]].
      - reflexivity.
      - apply (select_by_key _ _ job_id i j); [|done| |].
        + intros k r Hk. by apply (wf_job _ Hd).
        + cbn. by apply N.eqb_eq.
        + intros k r Hk Hr. bools. eapply (wf_job_once _ Hd); [done..|congruence]. }
  cbn. by destruct j.
Qed.

(** Enqueueing an approval that has no job stores one queued job bound to
    the approval's project, plan and hash; a consumed or expired approval
    gets none and the tables stay as they are. *)
Theorem enqueue_spec now new_id trace a d r d' :
  enqueue false false now new_id trace a alone d = (r, d') ->
  match r with
  | Ok j =>
      ea_consumed_at a = None /\ utc_datetime now < ea_expires_at a /\
      ((j = new_job now new_id trace a /\ jobs d' = <[new_id := j]> (jobs d)) \/
       (d' = d /\ job_approval_id j = ea_id a /\ exists i, jobs d !! i = Some j))
  | Raise e =>
      d' = d /\
      ((exn_cls e = ExecutionJobRejected /\
        (ea_consumed_at a <> None \/ ea_expires_at a <= utc_datetime now)) \/
       exn_cls e = ExecutionJobQueueUnavailable)
  end.
Proof.
  unfold enqueue. destruct (negb (is_null (ea_consumed_at a))) eqn:Hc.
  { erewrite io_stop by (by apply lift_Raise). intros [= <- <-]. split; [done|]. left.
    split; [done|]. left. by destruct (ea_consumed_at a). }
  erewrite io_step by (by apply lift_run).
  destruct (ea_expires_at a <=? utc_datetime now) eqn:He.
  { erewrite io_stop by (by apply lift_Raise). intros [= <- <-]. bools. split; [done|]. left.
    split; [done|]. by right. }
  erewrite io_step by (by apply lift_run). bools. cbv zeta.
  assert (ea_consumed_at a = None) as Hn by by destruct (ea_consumed_at a).
  unfold io_try at 1.
  match goal with |- context [match ?m with _ => _ end = _] => destruct m as [[x|e] d1] eqn:Em end.
  - intros [= <- <-]. db_inv. split_and!; try done. left. split; [by cbn|].
    match goal with E : insert_job _ _ = Ok _ |- _ => unfold insert_job in E; ok_inv end. done.
  - assert (d1 = d /\ (exn_cls e = SQLAlchemyError \/ exn_cls e = IntegrityError)) as [-> Hcls].
    { apply io_bind_Raise in Em as [Em|(? & ? & _ & [=])]. unfold execute in Em.
      apply statement_Raise in Em as [-> [->|Em]]; [auto|]. split; [done|].
      unfold insert_job, raise_if in Em. destruct (_ || _) in Em; [|done].
      injection Em as <-. auto. }
    destruct Hcls as [Hcls|Hcls]; rewrite Hcls; cbn [is_SQLAlchemyError].
    { rewrite bool_decide_eq_false_2 by done. intros [= <- <-]. split; [done | by right]. }
    rewrite bool_decide_eq_true_2 by done.
    erewrite io_step by reflexivity. unfold alone.
    unfold existing_job, queue_unavailable_on_failure.
    intros H. rewrite io_bind_eq in H. unfold io_try in H. rewrite io_bind_eq in H.
    unfold query, statement in H.
    destruct (scalar_one_or_none _) as [[j|]|e'] eqn:Es; cbn in H; rewrite ?Es in H.
    + injection H as <- <-. split_and!; try done. right. split; [done|].
      apply scalar_one_Some, elem_of_select in Es as [Hp [i Hi]]. bools.
      split; [done|]. exists i. by destruct j.
    + injection H as <- <-. split; [done | by right].
    + destruct (is_SQLAlchemyError (exn_cls e')) eqn:Hsq.
      * injection H as <- <-. split; [done | by right].
      * injection H as <- <-. exfalso. destruct (select _ _) as [|? [|]] in Es; simpl in Es; try done.
        by injection Es as <-.
Qed.
End job_properties.

Section job_properties2.
Context {rt : PyRuntime} {net : NetRuntime}.

(** Cancelling is exactly for queued jobs of the caller's project: such
    a job becomes cancelled, now, without ever having started; any other
    call answers [None] and changes nothing. *)
Theorem cancel_spec now project id d : wf_db d ->
  cancel false now project id d =
  match jobs d !! id with
  | Some j =>
      if (job_project_id j =? project)%N && bool_decide (job_state j = QUEUED) then
        let t := utc_datetime now in
        let j' := job_with j CANCELLED None None (Some t) (Some t) in
        (Ok (Some j'), with_jobs d (<[id := j']> (jobs d)))
      else (Ok None, d)
  | None => (Ok None, d)
  end.
Proof.
  intros Hd. unfold cancel, queue_unavailable_on_failure, io_try. rewrite io_bind_eq.
  unfold statement, cancel_update. destruct (jobs d !! id) as [j|] eqn:Hj; [|done].
  destruct ((job_project_id j =? project)%N && bool_decide (job_state j = QUEUED)) eqn:Hg; [|done].
  bools. destruct (wf_job _ Hd _ _ Hj) as [<- Hck]. unfold job_check in Hck.
  match goal with E : job_state j = QUEUED |- _ => rewrite E in Hck end. bools.
  assert (job_started_at j = None) as Hs by by destruct (job_started_at j).
  assert (job_finished_at j = None) as Hf by by destruct (job_finished_at j).
  rewrite Hs, Hf. unfold update_job. rewrite raise_if_false; [done|].
  apply negb_false_iff. unfold job_check. cbn. apply andb_true_iff. split; [|done].
  by apply Z.eqb_eq.
Qed.

Lemma preflight_Ok fault t j (x : option ClaimedExecutionJob) d r d' :
  (execute fault (update_job (fail_job j t)) ;; mret (M := io db) x) d = (Ok r, d') ->
  d' = with_jobs d (<[job_id j := fail_job j t]> (jobs d)).
Proof. intros E. db_inv. unfold update_job in *. by ok_inv. Qed.

Lemma preflight_Raise fault t j (x : option ClaimedExecutionJob) d e d' :
  (execute fault (update_job (fail_job j t)) ;; mret (M := io db) x) d = (Raise e, d') ->
  d' = d /\ is_SQLAlchemyError (exn_cls e) = true.
Proof.
  intros [E|(? & ? & _ & [=])]%io_bind_Raise. unfold execute in E.
  apply statement_Raise in E as [-> [->|E]]; [done|].
  unfold update_job, raise_if in E. destruct (negb _) in E; [|done]. by injection E as <-.
Qed.

(** A claim that returns no job, undisturbed: nobody had work queued, or the
    oldest queued job failed its preflight. *)
Lemma claim_locked_None t j d d' :
  claim_locked false t j alone alone d = (Ok None, d') ->
  d' = with_jobs d (<[job_id j := fail_job j t]> (jobs d)).
Proof.
  unfold claim_locked, alone. cbv zeta. intros H. db_inv.
  match goal with H : context [match ?o with Some _ => _ | None => _ end] |- _ =>
    destruct o as [r|]; [|by apply preflight_Ok in H] end.
  destruct (approval_from_record r) as [a|e].
  2:{ destruct (bool_decide _); [by apply preflight_Ok in H | db_inv; congruence]. }
  destruct (negb _ || _); [by apply preflight_Ok in H|]. db_inv.
  match goal with H : context [if ?b then mret _ else mret _] |- _ => destruct b; db_inv end;
    [congruence|].
  ok_inv. match goal with p : bool * db |- _ => destruct p as [[] d1] end; ok_inv; simplify_eq.
  match goal with E : consume_update _ _ _ = Ok _, E' : update_job _ _ = Ok _ |- _ =>
    unfold consume_update in E; unfold update_job in E' end.
  ok_inv. destruct (approvals d !! ea_id a) as [r'|]; [|by ok_inv].
  destruct (is_null _ && _); by ok_inv.
Qed.

Lemma claim_locked_Raise fault t j d e d1 :
  claim_locked fault t j alone alone d = (Raise e, d1) ->
  d1 = d /\ is_SQLAlchemyError (exn_cls e) = true.
Proof.
  unfold claim_locked, alone. cbv zeta. intros Em.
  apply io_bind_Raise in Em as [[=]|([] & d2 & E & Em)]. db_inv.
  apply io_bind_Raise in Em as [Em|(o & d2 & E & Em)].
  { unfold query in Em. apply statement_Raise in Em as [-> [->|Em]]; [done|]. split; [done|].
    destruct (select _ _) as [|? [|]] in Em; cbn in Em; try done. by injection Em as <-. }
  db_inv. destruct o as [r|]; [|by apply preflight_Raise in Em].
  destruct (approval_from_record r) as [a|e'] eqn:Ea.
  2:{ pose proof (raises_approval_from_record r e' Ea) as Hcls.
      rewrite bool_decide_eq_true_2 in Em by done. by apply preflight_Raise in Em. }
  destruct (negb _ || _); [by apply preflight_Raise in Em|].
  apply io_bind_Raise in Em as [[=]|([] & d2 & E2 & Em)]. db_inv.
  apply io_bind_Raise in Em as [Em|(b & d2 & E2 & Em)]; [|by destruct b].
  apply statement_Raise in Em as [-> [->|Em]]; [done|]. split; [done|].
  assert (raises (fun c => is_SQLAlchemyError c = true)
    ('(consumed, d) ← consume_update (ea_id a) t d;
     d ← update_job (if consumed : bool then start_job j t else fail_job j t) d;
     Ok (consumed, d))) as Hr; [|by apply Hr].
  unfold consume_update, update_job. repeat raises_step.
Qed.

(** Undisturbed, [claim_next] never loses or invents work: it fails only
    as [ExecutionJobQueueUnavailable], leaving the tables alone; it answers
    [None] only when nothing was queued (and changes nothing) or by failing
    the oldest queued job in its preflight, leaving approvals and results
    alone. *)
Theorem claim_next_other_outcomes fault now L d r d' :
  wf_db d -> claim_next fault now L (fun _ => alone) (fun _ => alone) d = (r, d') ->
  match r with
  | Raise e => exn_cls e = ExecutionJobQueueUnavailable /\ d' = d
  | Ok None =>
      (next_queued L d = None /\ d' = d) \/
      exists j, next_queued L d = Some j /\
        d' = with_jobs d (<[job_id j := fail_job j (utc_datetime now)]> (jobs d))
  | Ok (Some c) => True
  end.
Proof.
  intros Hd H. destruct r as [[c|]|e]; [done| |].
  - unfold claim_next, queue_unavailable_on_failure in H. apply io_try_raise_Ok in H. db_inv.
    ok_inv. destruct (next_queued L d) as [j|] eqn:Hn; [|left; by db_inv].
    right. exists j. split; [done|]. subst. by apply claim_locked_None.
  - unfold claim_next, queue_unavailable_on_failure, io_try in H.
    match type of H with match ?m with _ => _ end = _ => destruct m as [[x|e1] d1] eqn:Em end; [done|].
    assert (d1 = d /\ is_SQLAlchemyError (exn_cls e1) = true) as [-> Hs].
    { clear H. apply io_bind_Raise in Em as [Em|(o & d2 & Hq & Em)].
      - unfold query in Em. apply statement_Raise in Em as [-> [->|Em]]; done.
      - db_inv. ok_inv. destruct (next_queued L d) as [j|]; [|done].
        by apply claim_locked_Raise in Em. }
    rewrite Hs in H. injection H as <- <-. done.
Qed.
End job_properties2.

(** ** Witnesses *)

Lemma approve_then_get_witness : exists p a d',
  approve false (utc 0) 3 1 p (plan_hash p) LocalDevelopmentOwnerPrincipal None
    (empty_db {[1%N]}) = (Ok a, d') /\ ea_plan a = p.
Proof.
  destruct sample_plan as [p [Hp Hs]].
  destruct (approve_then_get (utc 0) 3 1 p _ _ LocalDevelopmentOwnerPrincipal
    LOCAL_DEVELOPMENT_APPROVER_ID (u "local_bypass") None None (empty_db {[1%N]})
    (wf_empty_db _) Hp Hs) as (a & d' & H & _ & Ha & _).
  - reflexivity.
  - vm_compute. congruence.
  - reflexivity.
  - cbn. set_solver.
  - reflexivity.
  - intros i r Hr _. cbn in Hr. by rewrite lookup_empty in Hr.
  - by exists p, a, d'.
Defined.

Lemma create_conflict_witness : exists msg,
  create false (utc 5) 6 1 stub_plan (u "owner") (u "cognito") None queued_db =
  (raise ExecutionApprovalConflict msg, queued_db).
Proof.
  apply (create_conflict (utc 5) 6 1 stub_plan (u "owner") (u "cognito") None 3
    (sample_approval None) queued_db); [reflexivity | reflexivity | by left].
Defined.

Lemma consume_once_witness : exists p d',
  consume false (utc 9) 1 (ExecutionPlans.id p) (plan_hash p) alone d' = (Ok None, d').
Proof.
  destruct sample_plan as [p Hp]. destruct (consume_plan p Hp) as (a & d' & H).
  exists p, d'. exact (proj1 (consume_once (utc 5) (utc 9) 1 (ExecutionPlans.id p) (plan_hash p)
    (approved_db p) a d' alone (wf_approved_db p Hp) H)).
Defined.

Lemma enqueue_idempotent_witness :
  enqueue false false (utc 5) 6 None stub_approval alone queued_db =
  (Ok (sample_job QUEUED None), queued_db).
Proof.
  apply (enqueue_idempotent (utc 5) 6 None stub_approval 4 (sample_job QUEUED None) queued_db
    wf_queued_db); reflexivity.
Defined.

(** An expired approval gets no job. *)
Lemma enqueue_spec_witness : exists r d',
  enqueue false false (utc 600) 6 None stub_approval alone queued_db = (r, d') /\ d' = queued_db.
Proof.
  assert (enqueue false false (utc 600) 6 None stub_approval alone queued_db =
    (raise ExecutionJobRejected "An expired approval cannot create a job", queued_db)) as H
    by reflexivity.
  eexists _, _. split; [exact H|].
  exact (proj1 (enqueue_spec (utc 600) 6 None stub_approval queued_db _ _ H)).
Defined.

Lemma cancel_spec_witness :
  cancel false (utc 5) 1 4 queued_db =
  (Ok (Some cancelled_job), with_jobs queued_db (<[4%N := cancelled_job]> (jobs queued_db))).
Proof. rewrite (cancel_spec (utc 5) 1 4 queued_db wf_queued_db). reflexivity. Defined.

(** The queued job's approval cannot be read. *)
Lemma claim_next_other_outcomes_witness : exists d',
  claim_next false (utc 5) ∅ (fun _ => alone) (fun _ => alone) queued_db = (Ok None, d') /\
  exists j, d' = with_jobs queued_db (<[job_id j := fail_job j 5]> (jobs queued_db)).
Proof.
  assert (exists d', claim_next false (utc 5) ∅ (fun _ => alone) (fun _ => alone) queued_db =
    (Ok None, d')) as [d' H] by (eexists; vm_compute; reflexivity).
  exists d'. split; [exact H|].
  destruct (claim_next_other_outcomes false (utc 5) ∅ queued_db _ _ wf_queued_db H)
    as [[Hn _]|(j & _ & Hd)].
  - exfalso. assert (next_queued ∅ queued_db = Some (sample_job QUEUED None)) as E by reflexivity.
    rewrite E in Hn. discriminate Hn.
  - by exists j.
Defined.
