(* ===== verification/ExecutionResultsSpec.v ===== *)
(** * Recording results: properties

    What [record] stores, what it answers when it is called again, and what
    it refuses. *)
From S2P Require Import Prelude PyText Json JsonFacts Digest GeneratedTests GeneratedTestsFacts.
From S2P Require Import Url Effects TargetRegistry Database DatabaseFacts ExecutionJobs.
From S2P Require Import ExecutionResults ExecutionSystem ExecutionStoreSpec AsciiRuntime.
From S2P Require Import Samples SystemSamples.

Section canonical_payloads.
Context {rt : PyRuntime} {laws : PyRuntimeLaws rt}.

Lemma result_canonical_json_Ok s b c : result_canonical_json s b = Ok c ->
  exists v, loads s = Some v /\ no_nan v = true /\ c = dumps_canonical v.
Proof.
  unfold result_canonical_json, dumps_no_nan. intros H. ok_inv.
  match goal with E : try_except _ _ _ = Ok _ |- _ => apply try_except_Ok in E as [E|(? & _ & _ & [=])] end.
  ok_inv. bools. eauto.
Qed.

Lemma no_nan_sort_keys v : no_nan (sort_keys v) = no_nan v.
Proof.
  induction v as [|b|z|x|s|l IH|kvs IH] using json_rect_strong; try done.
  - cbn. induction IH as [|v l Hv _ IHl]; [done|]. cbn. by rewrite Hv, IHl.
  - rewrite sort_keys_obj. cbn [no_nan].
    rewrite (forallb_Permutation _ _ _ (sort_dict_Permutation _)).
    induction IH as [|kv l Hv _ IHl]; [done|]. cbn. by rewrite Hv, IHl.
Qed.

(** A canonical text is stored and printed back as itself. *)
Lemma canonical_reprints v : json_wf v = true -> no_nan v = true ->
  exists w, reload (dumps_canonical v) = Ok w /\ dumps_no_nan w = Ok (dumps_canonical v).
Proof.
  intros Hv Hn. exists (sort_keys v). unfold reload, dumps_no_nan.
  rewrite loads_dumps_canonical, no_nan_sort_keys, Hn, dumps_canonical_sorted by done. done.
Qed.

(** The JSON texts of a payload hold scalar text and binary64 numbers. *)
Definition json_text_ok (s : pystr) : Prop := forall v, loads s = Some v -> json_wf v = true.
Definition payload_text_ok (p : ExecutionResultPayload) : Prop :=
  json_text_ok (p_assertion_results_json p) /\
  (forall s, p_request_evidence_json p = Some s -> json_text_ok s) /\
  (forall s, p_response_evidence_json p = Some s -> json_text_ok s).

Lemma canonical_text_reprints s b c : json_text_ok s -> result_canonical_json s b = Ok c ->
  exists w, reload c = Ok w /\ dumps_no_nan w = Ok c.
Proof.
  intros Hs (v & Hv & Hn & ->)%result_canonical_json_Ok. apply canonical_reprints; [by apply Hs|done].
Qed.

Lemma evidence_reprints o o' : (forall s, o = Some s -> json_text_ok s) ->
  validated_evidence_json o = Ok o' ->
  exists w, opt_result reload o' = Ok w /\ opt_result dumps_no_nan w = Ok o'.
Proof.
  intros Ho H. destruct o as [s|]; cbn in H; [|injection H as <-; by exists None].
  ok_inv. match goal with E : result_canonical_json s true = Ok ?c |- _ =>
    destruct (canonical_text_reprints s true c (Ho s eq_refl) E) as (w & Hw & Hd) end.
  exists (Some w). cbn. by rewrite Hw, Hd.
Qed.

(** The row of a validated payload reads back as that payload. *)
Lemma new_result_reads_back p v now new_id id row : payload_text_ok p ->
  validate_payload p = Ok v -> new_result now new_id id v = Ok row ->
  exists s, stored_result_from_record row = Ok s /\ matches_payload s v = true /\
    s_id s = new_id /\ s_execution_job_id s = id /\ s_outcome s = p_outcome p /\
    s_recorded_at s = now.
Proof.
  intros (Ha & Hq & Hp) Hv Hn. unfold validate_payload in Hv. ok_inv.
  match goal with E : result_canonical_json _ false = Ok _ |- _ =>
    apply canonical_text_reprints in E as (wa & Ra & Da); [|done] end.
  match goal with E : validated_evidence_json (p_request_evidence_json p) = Ok _ |- _ =>
    apply evidence_reprints in E as (wq & Rq & Dq); [|done] end.
  match goal with E : validated_evidence_json (p_response_evidence_json p) = Ok _ |- _ =>
    apply evidence_reprints in E as (wp & Rp & Dp); [|done] end.
  unfold new_result in Hn. cbn [p_assertion_results_json p_request_evidence_json
    p_response_evidence_json] in Hn. rewrite Ra, Rq, Rp, !bind_ok in Hn. injection Hn as <-.
  unfold stored_result_from_record. cbn. rewrite Da, Dq, Dp, !bind_ok.
  eexists. split; [done|]. split_and!; try done. unfold matches_payload. cbn.
  by rewrite !bool_decide_eq_true_2, !str_eqb_refl, Z.eqb_refl.
Qed.
End canonical_payloads.

Section record_facts.
Context {rt : PyRuntime} {laws : PyRuntimeLaws rt} {net : NetRuntime}.

(** The job and its stored result as [record] finds them. *)
Definition on_record (project id : uuid) (s : StoredExecutionResult) (d : db) : Prop :=
  exists j i row, jobs d !! id = Some j /\ job_project_id j = project /\
    results d !! i = Some row /\ res_job_id row = id /\ stored_result_from_record row = Ok s.

Lemma select_job d project id j : wf_db d -> jobs d !! id = Some j -> job_project_id j = project ->
  scalar_one_or_none (select (fun r => (job_id r =? id)%N && (job_project_id r =? project)%N)
    (jobs d)) = Ok (Some j).
Proof.
  intros Hd Hj Hp. destruct (wf_job _ Hd _ _ Hj) as [<- _].
  apply (select_by_key _ _ job_id (job_id j)); [|done| |].
  - intros i r Hi. by apply (wf_job _ Hd).
  - cbn. by rewrite Hp, !N.eqb_refl.
  - intros i r Hi Hr. bools. destruct (wf_job _ Hd _ _ Hi) as [<- _]. done.
Qed.

Lemma select_result d id i row : wf_db d -> results d !! i = Some row -> res_job_id row = id ->
  scalar_one_or_none (select (fun r => (res_job_id r =? id)%N) (results d)) = Ok (Some row).
Proof.
  intros Hd Hr Hid. destruct (wf_result _ Hd _ _ Hr) as [<- _].
  apply (select_by_key _ _ res_id (res_id row)); [|done| |].
  - intros k r Hk. by apply (wf_result _ Hd).
  - by apply N.eqb_eq.
  - intros k r Hk Hr'. bools. eapply (wf_result_once _ Hd); [done..|congruence].
Qed.

(** Recording over an existing result, undisturbed. *)
Lemma record_over now new_id project id payload v s d :
  wf_db d -> validate_payload payload = Ok v -> on_record project id s d ->
  exists msg, record false now new_id project id payload alone d =
    (if matches_payload s v then Ok s else raise ExecutionResultRejected msg, d).
Proof.
  intros Hd Hv (j & i & row & Hj & Hp & Hr & Hri & Hs).
  exists "Execution job already has different terminal evidence"%string.
  unfold record. erewrite io_step by (by apply lift_run). cbv zeta. unfold io_try.
  erewrite io_step by (apply query_Ok; split_and!; [done|by eapply select_job|done]). cbv beta iota.
  erewrite io_step by reflexivity. unfold alone.
  erewrite io_step by (apply query_Ok; split_and!; [done|by eapply select_result|done]). cbv beta iota.
  erewrite io_step by (by apply lift_run). by destruct (matches_payload s v).
Qed.

(** How a first recording went. *)
Lemma record_Ok fault now new_id project id payload others d s d' :
  record fault now new_id project id payload others d = (Ok s, d') ->
  exists v j, validate_payload payload = Ok v /\
    scalar_one_or_none (select (fun r => (job_id r =? id)%N && (job_project_id r =? project)%N)
      (jobs d)) = Ok (Some j) /\
    ((d' = others d /\ exists row, scalar_one_or_none
        (select (fun r => (res_job_id r =? id)%N) (results d')) = Ok (Some row) /\
        stored_result_from_record row = Ok s /\ matches_payload s v = true) \/
     exists row d1, job_state j = RUNNING /\ new_result (utc_datetime now) new_id id v = Ok row /\
        update_job (complete_job j (p_outcome v) (utc_datetime now)) (others d) = Ok d1 /\
        insert_result row d1 = Ok d' /\ stored_result_from_record row = Ok s).
Proof.
  unfold record. cbv zeta. intros H. db_inv.
  match goal with H : context [match ?o with Some _ => _ | None => _ end] |- _ =>
    destruct o as [j|]; [|db_inv] end. db_inv.
  match goal with H : context [match ?o with Some _ => _ | None => _ end] |- _ =>
    destruct o as [row|] end.
  - db_inv. match goal with H : context [if ?b then _ else _] |- _ => destruct b eqn:Hm; db_inv end.
    eexists _, j. split_and!; try done. left. eauto.
  - db_inv. ok_inv. bools. simplify_eq. eexists _, j. split_and!; try done. right. eauto 10.
Qed.
End record_facts.

Section record_properties.
Context {rt : PyRuntime} {laws : PyRuntimeLaws rt} {net : NetRuntime}.

(** After a recording that returned, its result is on record. *)
Lemma record_on_record now new_id project id payload v d s d' :
  wf_db d -> payload_text_ok payload -> validate_payload payload = Ok v ->
  record false now new_id project id payload alone d = (Ok s, d') ->
  wf_db d' /\ on_record project id s d' /\ matches_payload s v = true.
Proof.
  intros Hd Ht Hv H.
  assert (wf_db d') as Hw.
  { eapply (triple_record ∅ false now new_id project id payload alone) in H as [[Hw _] _];
      [done|set_solver|by intros ? ? ?|done|set_solver|done]. }
  apply record_Ok in H as (v' & j & Hv' & Hsel & Hcase). assert (v' = v) as -> by congruence.
  apply scalar_one_Some, elem_of_select in Hsel as [Hp [i Hi]]. bools.
  destruct (wf_job _ Hd _ _ Hi) as [Hk _].
  destruct Hcase as [(-> & row & Hrow & Hs & Hm)|(row & d1 & Hrun & Hnew & Hu & Hins & Hs)].
  - split_and!; try done. apply scalar_one_Some, elem_of_select in Hrow as [Hp' [k Hrow]]. bools.
    exists j, k, row. split_and!; try done. unfold alone. congruence.
  - destruct (new_result_reads_back payload v _ _ _ row Ht Hv Hnew) as (s' & Hs' & Hm & _).
    split_and!; try done; [|congruence].
    destruct (new_result_fields _ _ _ _ _ Hnew) as (Hri & Hrj & _).
    unfold update_job, insert_result, alone in *. ok_inv.
    destruct (complete_job_fields j (p_outcome v) (utc_datetime now)) as ((Hcid & Hcp & _) & _).
    exists (complete_job j (p_outcome v) (utc_datetime now)), (res_id row), row.
    cbn. split_and!; try done; try congruence.
    + by rewrite Hcid, lookup_insert_eq.
    + by rewrite lookup_insert_eq.
Qed.

(** Recording completes exactly one running job: with other sessions at
    work, a recording that stores a new result turned its running job into
    the terminal state of the payload's outcome and stored one result row
    for it; otherwise it changed nothing and answered with the matching
    result that was already there. *)
Theorem record_spec L fault now new_id project id payload others d s d' :
  wf_db d -> held L d -> id ∉ L -> good_neighbours ({[id]} ∪ L) others ->
  record fault now new_id project id payload others d = (Ok s, d') ->
  exists j v, jobs d !! id = Some j /\ job_project_id j = project /\
    validate_payload payload = Ok v /\
    ((d' = others d /\ matches_payload s v = true) \/
     (job_state j = RUNNING /\
      jobs d' !! id = Some (complete_job j (p_outcome payload) (utc_datetime now)) /\
      job_state (complete_job j (p_outcome payload) (utc_datetime now)) =
        outcome_state (p_outcome payload) /\
      exists row, results d' !! new_id = Some row /\ res_job_id row = id /\
        res_outcome row = p_outcome payload /\ stored_result_from_record row = Ok s)).
Proof.
  intros Hd Hh HL Ho H. apply record_Ok in H as (v & j & Hv & Hsel & Hcase).
  apply scalar_one_Some, elem_of_select in Hsel as [Hp [i Hi]]. bools.
  destruct (wf_job _ Hd _ _ Hi) as [Hk _].
  assert (jobs d !! id = Some j) as Hj by congruence.
  assert (p_outcome v = p_outcome payload) as Hov.
  { unfold validate_payload in Hv. by ok_inv. }
  exists j, v. split_and!; try done.
  destruct Hcase as [(-> & row & _ & _ & Hm)|(row & d1 & Hrun & Hnew & Hu & Hins & Hs)].
  - by left.
  - right. destruct (new_result_fields _ _ _ _ _ Hnew) as (Hri & Hrj & Hro).
    destruct (complete_job_fields j (p_outcome payload) (utc_datetime now)) as ((Hcid & _) & Hst & _).
    rewrite Hov in *. unfold update_job, insert_result in *. ok_inv. cbn.
    split_and!; try done.
    + by rewrite Hcid, lookup_insert_eq.
    + exists row. rewrite lookup_insert_eq. split_and!; try done; congruence.
Qed.

(** Recording is idempotent: once a recording has returned, recording
    the same payload again, at any time and under any fresh identifier,
    returns the very same stored result and changes nothing. *)
Theorem record_idempotent now now2 new_id new_id2 project id payload d s d' :
  wf_db d -> payload_text_ok payload ->
  record false now new_id project id payload alone d = (Ok s, d') ->
  record false now2 new_id2 project id payload alone d' = (Ok s, d').
Proof.
  intros Hd Ht H. pose proof H as H'. apply record_Ok in H' as (v & _ & Hv & _).
  destruct (record_on_record _ _ _ _ _ v _ _ _ Hd Ht Hv H) as (Hw & Hon & Hm).
  destruct (record_over now2 new_id2 project id payload v s d' Hw Hv Hon) as [msg ->].
  by rewrite Hm.
Qed.

(** Evidence is immutable: once a job has a result, a payload that does
    not match it is rejected and changes nothing. *)
Theorem record_conflict now new_id project id payload v s d :
  wf_db d -> validate_payload payload = Ok v -> on_record project id s d ->
  matches_payload s v = false ->
  exists msg, record false now new_id project id payload alone d =
    (raise ExecutionResultRejected msg, d).
Proof.
  intros Hd Hv Hon Hm.
  destruct (record_over now new_id project id payload v s d Hd Hv Hon) as [msg E].
  exists msg. by rewrite E, Hm.
Qed.

(** Only a claimed, running job can be completed: for a job in any other
    state that has no result, or for a job of another project, recording is
    rejected and changes nothing. *)
Theorem record_requires_running now new_id project id payload v d :
  wf_db d -> validate_payload payload = Ok v ->
  (forall i r, results d !! i = Some r -> res_job_id r <> id) ->
  (forall j, jobs d !! id = Some j -> job_project_id j = project -> job_state j <> RUNNING) ->
  exists msg, record false now new_id project id payload alone d =
    (raise ExecutionResultRejected msg, d).
Proof.
  intros Hd Hv Hnr Hns. unfold record. erewrite io_step by (by apply lift_run). cbv zeta.
  unfold io_try. destruct (scalar_select (fun r => (job_id r =? id)%N &&
    (job_project_id r =? project)%N) (jobs d) job_id) as [[E _]|(j & E & Hp & Hj)].
  - intros i r Hi. by apply (wf_job _ Hd).
  - intros i k r s Hi Hk Hr Hs. bools. destruct (wf_job _ Hd _ _ Hi) as [<- _].
    destruct (wf_job _ Hd _ _ Hk) as [<- _]. congruence.
  - erewrite io_step by (apply query_Ok; split_and!; [done|exact E|done]). by eexists.
  - bools. erewrite io_step by (apply query_Ok; split_and!; [done|exact E|done]). cbv beta iota.
    erewrite io_step by reflexivity. unfold alone.
    destruct (scalar_select (fun r => (res_job_id r =? id)%N) (results d) res_id)
      as [[E2 _]|(r & _ & Hr & Hri)].
    + intros i r Hi. by apply (wf_result _ Hd).
    + intros i k r s Hi Hk Hr Hs. bools. eapply (wf_result_once _ Hd); [done..|congruence].
    + erewrite io_step by (apply query_Ok; split_and!; [done|exact E2|done]). cbv beta iota.
      assert (job_state j <> RUNNING) as Hne by (apply Hns; congruence).
      rewrite bool_decide_eq_false_2 by done. by eexists.
    + bools. exfalso. by eapply Hnr.
Qed.
End record_properties.

(** ** Witnesses *)

Definition sample_payload (o : ExecutionResultOutcome) (code : option pystr) :
    ExecutionResultPayload := {|
  p_outcome := o; p_failure_code := code; p_assertion_results_json := u "[]";
  p_request_evidence_json := None; p_response_evidence_json := None;
  p_transport_send_count := 0 |}.
Definition success_payload := sample_payload RESULT_SUCCEEDED None.
Definition failure_payload := sample_payload RESULT_FAILED (Some (u "assertion_failed")).

Definition success_result : ExecutionResultRecord := {|
  res_id := 5; res_job_id := 4; res_outcome := RESULT_SUCCEEDED; res_failure_code := None;
  res_assertion_results := JList []; res_request_evidence := None;
  res_response_evidence := None; res_send_count := 0; res_recorded_at := 6 |}.
Definition success_stored : StoredExecutionResult := {|
  s_id := 5; s_execution_job_id := 4; s_outcome := RESULT_SUCCEEDED; s_failure_code := None;
  s_assertion_results_json := u "[]"; s_request_evidence_json := None;
  s_response_evidence_json := None; s_transport_send_count := 0; s_recorded_at := 6 |}.

Lemma sample_payload_text o c : payload_text_ok (sample_payload o c).
Proof.
  split_and!; [|done|done]. intros v Hv.
  assert (loads (p_assertion_results_json (sample_payload o c)) = Some (JList [])) as E
    by reflexivity.
  rewrite E in Hv. by injection Hv as <-.
Qed.

Lemma record_running : exists d',
  record false (utc 6) 5 1 4 success_payload alone running_db = (Ok success_stored, d').
Proof. eexists. vm_compute. reflexivity. Qed.

Lemma record_spec_witness : exists d',
  record false (utc 6) 5 1 4 success_payload alone running_db = (Ok success_stored, d') /\
  exists j, jobs running_db !! 4%N = Some j /\ job_project_id j = 1%N.
Proof.
  destruct record_running as [d' H]. exists d'. split; [exact H|].
  destruct (record_spec ∅ false (utc 6) 5 1 4 success_payload alone running_db success_stored d'
    wf_running_db) as (j & v & Hj & Hp & _).
  - intros i Hi. set_solver.
  - set_solver.
  - intros d Hd _. by apply sound_refl.
  - exact H.
  - by exists j.
Defined.

Lemma record_idempotent_witness : exists d',
  record false (utc 99) 8 1 4 success_payload alone d' = (Ok success_stored, d').
Proof.
  destruct record_running as [d' H]. exists d'.
  exact (record_idempotent (utc 6) (utc 99) 5 8 1 4 success_payload running_db success_stored d'
    wf_running_db (sample_payload_text _ _) H).
Defined.

Lemma record_conflict_witness : exists d' msg,
  record false (utc 99) 8 1 4 failure_payload alone d' = (raise ExecutionResultRejected msg, d').
Proof.
  destruct record_running as [d' H].
  destruct (record_on_record (utc 6) 5 1 4 success_payload success_payload running_db
    success_stored d' wf_running_db (sample_payload_text _ _) eq_refl H) as (Hw & Ho & _).
  destruct (record_conflict (utc 99) 8 1 4 failure_payload failure_payload success_stored d' Hw
    eq_refl Ho eq_refl) as [msg E].
  by exists d', msg.
Defined.

(** Nobody claimed the job. *)
Lemma record_requires_running_witness : exists msg,
  record false (utc 6) 5 1 4 success_payload alone queued_db =
  (raise ExecutionResultRejected msg, queued_db).
Proof.
  apply (record_requires_running (utc 6) 5 1 4 success_payload success_payload queued_db
    wf_queued_db eq_refl).
  - intros i r Hr. cbn in Hr. by rewrite lookup_empty in Hr.
  - intros j Hj _. cbn in Hj. rewrite lookup_singleton_eq in Hj. injection Hj as <-. discriminate.
Defined.
