(* ===== verification/ExecutionWorker.v ===== *)
(** * The execution worker ([execution_worker.py])

    [run_once]: claim one job, execute it, convert the executor's result into
    the durable payload and record it.  The tables and the executor's
    environment are two halves of one state. *)
From S2P Require Import Prelude PyText Json Digest Effects GeneratedTests Url TargetRegistry.
From S2P Require Import ExecutionPlans Database ExecutionApprovals ExecutionJobs.
From S2P Require RestrictedExecution ExecutionResults.
From S2P Require Import RestrictedExecution.
From S2P Require Import ExecutionResults.

Definition WORKER_REDACTED_VALUE : pystr := u "[REDACTED]".
Definition WORKER_SENSITIVE_NAMES : list pystr :=
  [u "authorization"; u "cookie"; u "password"; u "secret"; u "set-cookie"; u "token"].

Record ExecutionWorkerRun := {
  run_claimed_job_id : option uuid;
  run_execution_result : option ExecutionResult;
  run_stored_result : option StoredExecutionResult;
}.

Abbreviation invariant_error msg := (raise ExecutionWorkerInvariantError msg).

(** [_durable_outcome] *)
Definition durable_outcome (o : ExecutionOutcome) : ExecutionResultOutcome :=
  match o with
  | OUTCOME_SUCCEEDED => RESULT_SUCCEEDED
  | OUTCOME_FAILED => RESULT_FAILED
  | OUTCOME_CANCELLED => RESULT_CANCELLED
  end.

(** [_failure_code] *)
Definition failure_code (code : option ExecutionFailureCode) (o : ExecutionResultOutcome) :
    result (option pystr) :=
  match o with
  | RESULT_SUCCEEDED =>
      match code with
      | Some _ => invariant_error "A successful executor result cannot have a failure code"
      | None => Ok None
      end
  | _ =>
      match code with
      | None => invariant_error "A failed or cancelled executor result requires a failure code"
      | Some c => Ok (Some (failure_code_value c))
      end
  end.

(** [_transport_send_count] *)
Definition transport_send_count (n : Z) : result Z :=
  raise_if (negb ((n =? 0) || (n =? 1))) ExecutionWorkerInvariantError
    "Restricted execution may report zero or one transport send" ;;
  Ok n.

(** [_assertion_payload] *)
Definition assertion_result_payload (a : AssertionResult) : json :=
  JObj [(u "operator", JStr (value (ar_operator a)));
        (u "passed", JBool (ar_passed a));
        (u "selector", opt_json JStr (ar_selector a));
        (u "target", JStr (value (ar_target a)))].

Section worker.
Context {rt : PyRuntime} {net : NetRuntime}.

(** [_is_sensitive_name] *)
Definition worker_sensitive_name (name : pystr) : bool :=
  let normalized := replace [95%N] [45%N] (str_lower name) in
  existsb (fun sensitive => contains sensitive normalized) WORKER_SENSITIVE_NAMES.

(** [_redacted_headers] *)
Definition redacted_headers (l : list (pystr * pystr)) : json :=
  JList ((fun h => JList [JStr h.1; JStr (if worker_sensitive_name h.1
                                          then WORKER_REDACTED_VALUE else h.2)]) <$> l).

(** [_redact_json] *)
Fixpoint worker_redact_json (v : json) : result json :=
  match v with
  | JFloat x =>
      raise_if (negb (is_finite x)) ExecutionWorkerInvariantError
        "Execution evidence contains a non-finite number" ;;
      Ok v
  | JList l => JList <$> try_map worker_redact_json l
  | JObj kvs =>
      JObj <$> try_map (fun kv =>
        if worker_sensitive_name kv.1 then Ok (kv.1, JStr WORKER_REDACTED_VALUE)
        else pair kv.1 <$> worker_redact_json kv.2) kvs
  | _ => Ok v
  end.

(** [_redact_url] *)
Definition worker_redact_item (item : pystr) : pystr :=
  let '(name, separator, value) := partition 61 item in
  name ++ (if separator then [61%N] else []) ++
  (if worker_sensitive_name name then WORKER_REDACTED_VALUE else value).
Definition worker_redact_url (url : pystr) : result pystr :=
  parsed ← or_raise (urlsplit url)
             (Exn ExecutionWorkerInvariantError "Execution request evidence URL is malformed");
  let query_parts := worker_redact_item <$> split_on 38 (url_query parsed) in
  Ok (urlunsplit {| scheme := scheme parsed; netloc := netloc parsed;
                    url_path := url_path parsed; url_query := join [38%N] query_parts;
                    fragment := [] |}).

(** [_canonical_json] *)
Definition worker_canonical_json (v : json) : result pystr :=
  raise_if (negb (no_nan v)) ExecutionWorkerInvariantError
    "Execution evidence cannot be represented as JSON" ;;
  Ok (dumps_canonical v).

(** [_request_evidence_json] *)
Definition request_evidence_json (o : option RedactedRequestEvidence) : result (option pystr) :=
  match o with
  | None => Ok None
  | Some ev =>
      body ← worker_redact_json (rqe_json_body ev);
      url ← worker_redact_url (rqe_url ev);
      Some <$> worker_canonical_json
        (JObj [(u "headers", redacted_headers (rqe_headers ev)); (u "json_body", body);
               (u "method", JStr (value (rqe_method ev))); (u "url", JStr url)])
  end.

(** [_response_evidence_json] *)
Definition response_evidence_json (o : option RedactedResponseEvidence) : result (option pystr) :=
  match o with
  | None => Ok None
  | Some ev =>
      body ← worker_redact_json (rse_json_body ev);
      Some <$> worker_canonical_json
        (JObj [(u "body_bytes", JInt (rse_body_bytes ev));
               (u "body_sha256", JStr (rse_body_sha256 ev));
               (u "elapsed_ms", JInt (rse_elapsed_ms ev));
               (u "headers", redacted_headers (rse_headers ev)); (u "json_body", body);
               (u "status_code", JInt (rse_status_code ev))])
  end.

(** [execution_result_payload] *)
Definition execution_result_payload (r : ExecutionResult) : result ExecutionResultPayload :=
  let outcome := durable_outcome (er_outcome r) in
  code ← failure_code (er_error_code r) outcome;
  assertions ← worker_canonical_json (JList (assertion_result_payload <$> er_assertion_results r));
  request ← request_evidence_json (er_request_evidence r);
  response ← response_evidence_json (er_response_evidence r);
  count ← transport_send_count (er_transport_send_count r);
  Ok {| p_outcome := outcome; p_failure_code := code; p_assertion_results_json := assertions;
        p_request_evidence_json := request; p_response_evidence_json := response;
        p_transport_send_count := count |}.

(** [_require_result_for_claim] *)
Definition require_result_for_claim (r : ExecutionResult) (claimed : ClaimedExecutionJob) :
    result unit :=
  raise_if (negb (bool_decide (er_job_id r = Some (job_id (claimed_job claimed)))))
    ExecutionWorkerInvariantError "The executor result does not belong to the claimed job".

(** ** [RestrictedExecutionWorker] *)

Context {S : Type} `{!ExecutionEnvironment S}.

Definition on_tables {A} (m : io db A) : io (db * S) A := fun st =>
  let '(r, d) := m st.1 in (r, (d, st.2)).
Definition on_environment {A} (m : io S A) : io (db * S) A := fun st =>
  let '(r, s) := m st.2 in (r, (st.1, s)).

(** What the run's two transactions meet: whether the database fails, the
    clock, and the other sessions before and during them. *)
Record surroundings := {
  claim_fault : bool; claim_now : datetime; claim_locked_rows : gset uuid;
  claim_others : uuid -> db -> db; claim_others' : uuid -> db -> db;
  meanwhile : db -> db;
  record_fault : bool; record_now : datetime; record_id : uuid; record_others : db -> db;
}.

(** [_execute_claimed_job] *)
Definition execute_claimed_job (registry : TargetRegistry) (w : surroundings)
    (claimed : ClaimedExecutionJob) : io (db * S) ExecutionWorkerRun :=
  res ← on_environment (execute registry (Some claimed));
  lift (require_result_for_claim res claimed) ;;
  payload ← lift (execution_result_payload res);
  on_tables (interleave (meanwhile w)) ;;
  stored ← on_tables (record (record_fault w) (record_now w) (record_id w)
    (job_project_id (claimed_job claimed)) (job_id (claimed_job claimed)) payload
    (record_others w));
  mret {| run_claimed_job_id := Some (job_id (claimed_job claimed));
          run_execution_result := Some res; run_stored_result := Some stored |}.

(** [run_once] *)
Definition run_once (registry : TargetRegistry) (w : surroundings) :
    io (db * S) ExecutionWorkerRun :=
  claimed ← on_tables (claim_next (claim_fault w) (claim_now w) (claim_locked_rows w)
                         (claim_others w) (claim_others' w));
  match claimed with
  | None => mret {| run_claimed_job_id := None; run_execution_result := None;
                    run_stored_result := None |}
  | Some claimed => execute_claimed_job registry w claimed
  end.
End worker.
