(* ===== verification/WorkerEvidence.v ===== *)
(** * From the executor's result to the durable payload: facts

    The worker redacts the executor's evidence a second time, which changes
    nothing, and prints it; the results repository parses the text again and
    insists that sensitive values are hidden.  [storable] is what makes a
    result pass both. *)
From S2P Require Import Prelude PyText Json JsonFacts Digest GeneratedTests Url.
From S2P Require Import GeneratedTestsSpec Effects ExecutionPlans Database ExecutionJobs.
From S2P Require Import RestrictedExecution RestrictedExecutionFacts Redaction.
From S2P Require ExecutionResults.
From S2P Require Import ExecutionResults ExecutionResultsSpec ExecutionWorker.
From S2P Require Import AsciiRuntime Samples SystemSamples ExecutorSamples.

Abbreviation sensitive := RestrictedExecution.is_sensitive_name.

(** What a value that shows something sensitive is met with. *)
Abbreviation shown := (raise ExecutionResultRejected "Sensitive execution evidence must be redacted").

Section redaction.
Context {rt : PyRuntime}.

Lemma redact_json_idem v : redact_json (redact_json v) = redact_json v.
Proof.
  induction v as [|b|z|x|s|l IH|kvs IH] using json_rect_strong; try done; cbn [redact_json].
  - f_equal. rewrite map_map. by apply map_ext_Forall.
  - f_equal. rewrite map_map. apply map_ext_Forall. eapply Forall_impl; [exact IH|].
    intros [k v] Hv. cbn [fst snd] in *. by destruct (sensitive k); [|rewrite Hv].
Qed.

Lemma redact_headers_idem l : redact_headers (redact_headers l) = redact_headers l.
Proof.
  unfold redact_headers. rewrite <- list_fmap_compose. apply list_fmap_ext. intros _ [n w] _.
  cbn [compose fst snd]. by destruct (sensitive n).
Qed.

(** The worker's own redaction of JSON is the executor's, and it refuses what
    is no JSON number. *)
Lemma worker_redact_json_eq v : worker_redact_json v =
  if no_nan (redact_json v) then Ok (redact_json v)
  else raise ExecutionWorkerInvariantError "Execution evidence contains a non-finite number".
Proof.
  induction v as [|b|z|x|s|l IH|kvs IH] using json_rect_strong; try done.
  - by destruct x.
  - assert (try_map worker_redact_json l = if forallb no_nan (map redact_json l)
      then Ok (map redact_json l)
      else raise ExecutionWorkerInvariantError "Execution evidence contains a non-finite number") as E.
    { induction IH as [|v l Hv _ IHl]; [done|]. cbn. rewrite Hv, IHl.
      destruct (no_nan (redact_json v)); [|done]. cbn. by destruct (forallb _ _). }
    cbn [worker_redact_json redact_json no_nan]. rewrite E. by destruct (forallb _ _).
  - change (worker_redact_json (JObj kvs)) with (JObj <$> try_map (fun kv =>
      if sensitive kv.1 then Ok (kv.1, JStr RestrictedExecution.REDACTED_VALUE)
      else pair kv.1 <$> worker_redact_json kv.2) kvs).
    cbn [redact_json no_nan].
    set (f := fun kv : pystr * json =>
      (kv.1, if sensitive kv.1 then JStr RestrictedExecution.REDACTED_VALUE else redact_json kv.2)).
    assert (try_map (fun kv =>
      if sensitive kv.1 then Ok (kv.1, JStr RestrictedExecution.REDACTED_VALUE)
      else pair kv.1 <$> worker_redact_json kv.2) kvs =
      if forallb (fun kv => no_nan kv.2) (map f kvs) then Ok (map f kvs)
      else raise ExecutionWorkerInvariantError "Execution evidence contains a non-finite number") as ->.
    { induction IH as [|[k v] kvs Hv _ IHl]; [done|]. cbn [try_map map fst snd] in *. rewrite IHl.
      destruct (sensitive k) eqn:Ek.
      - assert (f (k, v) = (k, JStr RestrictedExecution.REDACTED_VALUE)) as ->
          by (unfold f; cbn [fst snd]; by rewrite Ek).
        cbn [forallb snd]. cbn [no_nan andb]. rewrite bind_ok. by destruct (forallb _ _).
      - assert (f (k, v) = (k, redact_json v)) as -> by (unfold f; cbn [fst snd]; by rewrite Ek).
        cbn [forallb snd].
        rewrite Hv. destruct (no_nan (redact_json v)); [|done]. cbn [andb fmap result_fmap].
        rewrite bind_ok. by destruct (forallb _ _). }
    by destruct (forallb _ _).
Qed.

(** ** What the results repository accepts *)

Definition hidden_pair (l : list json) : bool :=
  match l with
  | [JStr name; item] => negb (sensitive name) || is_redacted item
  | _ => true
  end.
Fixpoint hidden (v : json) : bool :=
  match v with
  | JObj kvs => forallb (fun kv => (negb (sensitive kv.1) || is_redacted kv.2) && hidden kv.2) kvs
  | JList l => hidden_pair l && forallb hidden l
  | _ => true
  end.
(** No list of two elements names something sensitive and shows it. *)
Fixpoint pairs_hidden (v : json) : bool :=
  match v with
  | JObj kvs => forallb (fun kv => pairs_hidden kv.2) kvs
  | JList l => hidden_pair l && forallb pairs_hidden l
  | _ => true
  end.

Lemma try_iter_shown {A} (f : A -> result unit) (p : A -> bool) l :
  Forall (fun x => f x = if p x then Ok tt else shown) l ->
  try_iter f l = if forallb p l then Ok tt else shown.
Proof.
  induction 1 as [|x l Hx _ IH]; [done|]. cbn [try_iter forallb]. rewrite Hx.
  destruct (p x); [by rewrite bind_ok|done].
Qed.

Lemma require_redacted_eq v :
  require_redacted_sensitive_values v = if hidden v then Ok tt else shown.
Proof.
  induction v as [|b|z|x|s|l IH|kvs IH] using json_rect_strong; try done.
  - cbn [require_redacted_sensitive_values hidden]. rewrite (try_iter_shown _ hidden l IH).
    assert (match l with
      | [JStr name; item] => ExecutionResults.is_sensitive_name name && negb (is_redacted item)
      | _ => false end = negb (hidden_pair l)) as ->.
    { destruct l as [|[] [|? [|]]]; try done. cbn [hidden_pair].
      by rewrite negb_orb, negb_involutive. }
    by destruct (hidden_pair l).
  - cbn [require_redacted_sensitive_values hidden]. apply try_iter_shown.
    eapply Forall_impl; [exact IH|]. intros kv Hv. cbn beta in *. rewrite Hv.
    change (ExecutionResults.is_sensitive_name kv.1) with (sensitive kv.1).
    by destruct (sensitive kv.1), (is_redacted kv.2).
Qed.

Lemma require_redacted_hidden v : require_redacted_sensitive_values v = Ok tt <-> hidden v = true.
Proof. rewrite require_redacted_eq. by destruct (hidden v). Qed.

Lemma is_redacted_marker : is_redacted (JStr RestrictedExecution.REDACTED_VALUE) = true.
Proof. apply str_eqb_refl. Qed.

Lemma hidden_redacted v : hidden (redact_json v) = pairs_hidden (redact_json v).
Proof.
  induction v as [|b|z|x|s|l IH|kvs IH] using json_rect_strong; try done; cbn [redact_json hidden pairs_hidden].
  - f_equal. induction IH as [|v l Hv _ IHl]; [done|]. cbn. by rewrite Hv, IHl.
  - induction IH as [|[k v] kvs Hv _ IHl]; [done|]. cbn [map forallb fst snd] in *. rewrite IHl.
    f_equal. destruct (sensitive k); [by rewrite is_redacted_marker|]. exact Hv.
Qed.

Lemma is_redacted_sort v : is_redacted (sort_keys v) = is_redacted v.
Proof. by destruct v. Qed.

Lemma hidden_sort_keys v : hidden (sort_keys v) = hidden v.
Proof.
  induction v as [|b|z|x|s|l IH|kvs IH] using json_rect_strong; try done.
  - cbn [sort_keys hidden]. f_equal.
    + destruct l as [|[] [|? [|]]]; try done. cbn. by rewrite is_redacted_sort.
    + induction IH as [|v l Hv _ IHl]; [done|]. cbn. by rewrite Hv, IHl.
  - rewrite sort_keys_obj. cbn [hidden].
    rewrite (forallb_Permutation _ _ _ (sort_dict_Permutation _)).
    induction IH as [|kv l Hv _ IHl]; [done|]. cbn [map forallb fst snd]. by rewrite Hv, IHl, is_redacted_sort.
Qed.

Lemma validate_json_value_no_nan v : no_nan v = true -> validate_json_value v = Ok tt.
Proof.
  induction v as [|b|z|x|s|l IH|kvs IH] using json_rect_strong; intros H; try done.
  - by destruct x.
  - cbn in *. apply try_iter_Ok. rewrite forallb_Forall in H.
    eapply Forall_impl; [apply Forall_and; split; [exact IH|exact H]|]. cbn. naive_solver.
  - cbn in *. apply try_iter_Ok. rewrite forallb_Forall in H.
    eapply Forall_impl; [apply Forall_and; split; [exact IH|exact H]|]. cbn. naive_solver.
Qed.

End redaction.

(** ** Results that can be stored *)

Section storing.
Context {rt : PyRuntime} {laws : PyRuntimeLaws rt} {net : NetRuntime}.

(** A JSON value that is printed, parsed, checked and printed again. *)
Definition storable_json (v : json) : Prop := json_wf v = true /\ no_nan v = true /\ hidden v = true.

Lemma canonical_text_stays v b : json_wf v = true -> no_nan v = true ->
  (b = true -> exists kvs, v = JObj kvs) ->
  result_canonical_json (dumps_canonical v) b = Ok (dumps_canonical v).
Proof.
  intros Hw Hn Hb. unfold result_canonical_json. rewrite loads_dumps_canonical by done.
  cbn [or_raise]. rewrite bind_ok, validate_json_value_no_nan by by rewrite no_nan_sort_keys.
  rewrite bind_ok. cbn [try_except]. rewrite bind_ok.
  assert (b && match sort_keys v with JObj _ => false | _ => true end = false) as ->.
  { destruct b; [|done]. by destruct (Hb eq_refl) as [kvs ->]. }
  cbn [raise_if]. rewrite bind_ok. unfold dumps_no_nan.
  by rewrite no_nan_sort_keys, Hn, dumps_canonical_sorted.
Qed.

(** Evidence is kept as it is when it hides what is sensitive, and refused
    when it does not. *)
Lemma evidence_checked kvs : json_wf (JObj kvs) = true -> no_nan (JObj kvs) = true ->
  validated_evidence_json (Some (dumps_canonical (JObj kvs))) =
  if hidden (JObj kvs) then Ok (Some (dumps_canonical (JObj kvs))) else shown.
Proof.
  intros Hw Hn. unfold validated_evidence_json. rewrite canonical_text_stays by eauto. rewrite bind_ok.
  unfold reload. rewrite loads_dumps_canonical by done. cbn [or_raise].
  rewrite bind_ok, require_redacted_eq, hidden_sort_keys. by destruct (hidden (JObj kvs)).
Qed.

Lemma evidence_stays kvs : storable_json (JObj kvs) ->
  worker_canonical_json (JObj kvs) = Ok (dumps_canonical (JObj kvs)) /\
  validated_evidence_json (Some (dumps_canonical (JObj kvs))) = Ok (Some (dumps_canonical (JObj kvs))) /\
  json_text_ok (dumps_canonical (JObj kvs)).
Proof.
  intros (Hw & Hn & Hh). split; [unfold worker_canonical_json; by rewrite Hn|]. split.
  - by rewrite evidence_checked, Hh.
  - intros v. rewrite loads_dumps_canonical by done. intros E. apply (inj Some) in E as <-.
    by apply json_wf_sort_keys.
Qed.
Definition text_headers (l : list (pystr * pystr)) : Prop :=
  Forall (fun h => scalar_text h.1 = true /\ scalar_text h.2 = true) l.

Record storable_request (ev : RedactedRequestEvidence) : Prop := {
  sq_url : worker_redact_url (rqe_url ev) = Ok (rqe_url ev);
  sq_text : scalar_text (rqe_url ev) = true;
  sq_headers : text_headers (rqe_headers ev);
  sq_body : storable_json (redact_json (rqe_json_body ev));
}.
Record storable_response (ev : RedactedResponseEvidence) : Prop := {
  sp_headers : text_headers (rse_headers ev);
  sp_body : storable_json (redact_json (rse_json_body ev));
  sp_digest : scalar_text (rse_body_sha256 ev) = true;
}.
Record storable (r : ExecutionResult) : Prop := {
  st_code : er_error_code r = None <-> er_outcome r = OUTCOME_SUCCEEDED;
  st_count : er_transport_send_count r = 0 \/ er_transport_send_count r = 1;
  st_assertions : Forall (fun a => forall s, ar_selector a = Some s -> scalar_text s = true)
    (er_assertion_results r);
  st_request : forall ev, er_request_evidence r = Some ev -> storable_request ev;
  st_response : forall ev, er_response_evidence r = Some ev -> storable_response ev;
}.

Lemma digest_text bs : scalar_text (sha256_hex bs) = true.
Proof.
  apply ascii_scalar_text, is_ascii_Forall. eapply Forall_impl; [apply sha256_hex_chars|].
  intros c Hc. unfold hex_char, ascii_digit, between in Hc.
  apply orb_true_iff in Hc as [Hc|Hc]; bools; rewrite N.leb_le in *; lia.
Qed.

Lemma key_plain k : is_ascii k = true ->
  existsb (fun s => contains s (replace [95%N] [45%N] (ascii_to_lower <$> k)))
    RestrictedExecution.SENSITIVE_NAMES = false -> sensitive k = false.
Proof. intros Ha H. unfold sensitive. by rewrite lower_ascii. Qed.

Ltac plain_keys := rewrite !key_plain by by vm_compute.

Lemma redacted_headers_storable l : text_headers l -> storable_json (redacted_headers l).
Proof.
  intros H. unfold redacted_headers. split_and!.
  - cbn [json_wf]. apply forallb_Forall, Forall_fmap. eapply Forall_impl; [exact H|].
    intros [n w] [Hn Hw]. cbn [fst snd compose json_wf forallb] in *. rewrite Hn.
    by destruct (worker_sensitive_name n); [vm_compute|rewrite Hw].
  - cbn [no_nan]. apply forallb_Forall, Forall_fmap, Forall_forall. done.
  - cbn [hidden]. apply andb_true_iff. split; [by destruct l as [|? [|? [|]]]|].
    apply forallb_Forall, Forall_fmap, Forall_forall. intros [n w] _.
    cbn [fst snd compose hidden hidden_pair forallb]. change (worker_sensitive_name n) with (sensitive n).
    by destruct (sensitive n).
Qed.

Lemma request_storable ev : storable_request ev ->
  exists s, request_evidence_json (Some ev) = Ok (Some s) /\
    validated_evidence_json (Some s) = Ok (Some s) /\ json_text_ok s.
Proof.
  intros [Hu Ht Hh (Hw & Hn & Hb)].
  destruct (redacted_headers_storable _ Hh) as (Hhw & Hhn & Hhh).
  cbn [request_evidence_json]. rewrite worker_redact_json_eq, Hn, bind_ok, Hu, bind_ok.
  destruct (evidence_stays [(u "headers", redacted_headers (rqe_headers ev));
    (u "json_body", redact_json (rqe_json_body ev)); (u "method", JStr (value (rqe_method ev)));
    (u "url", JStr (rqe_url ev))]) as (H1 & H2 & H3).
  - split_and!.
    + cbn [json_wf]. apply andb_true_iff. split; [by vm_compute|].
      cbn [forallb fst snd json_wf]. rewrite Hhw, Hw, Ht. by destruct (rqe_method ev).
    + cbn [no_nan forallb snd]. by rewrite Hhn, Hn.
    + cbn [hidden forallb fst snd]. plain_keys. by rewrite Hhh, Hb.
  - eexists. rewrite H1. by split_and!.
Qed.

(** The repository's verdict on the evidence of a response. *)
Lemma response_checked ev :
  text_headers (rse_headers ev) -> scalar_text (rse_body_sha256 ev) = true ->
  json_wf (redact_json (rse_json_body ev)) = true -> no_nan (redact_json (rse_json_body ev)) = true ->
  exists s, response_evidence_json (Some ev) = Ok (Some s) /\ json_text_ok s /\
    validated_evidence_json (Some s) =
      if hidden (redact_json (rse_json_body ev)) then Ok (Some s) else shown.
Proof.
  intros Hh Hd Hw Hn. destruct (redacted_headers_storable _ Hh) as (Hhw & Hhn & Hhh).
  cbn [response_evidence_json]. rewrite worker_redact_json_eq, Hn, bind_ok.
  set (kvs := [(u "body_bytes", JInt (rse_body_bytes ev));
    (u "body_sha256", JStr (rse_body_sha256 ev)); (u "elapsed_ms", JInt (rse_elapsed_ms ev));
    (u "headers", redacted_headers (rse_headers ev));
    (u "json_body", redact_json (rse_json_body ev));
    (u "status_code", JInt (rse_status_code ev))]).
  assert (json_wf (JObj kvs) = true) as W.
  { cbn [json_wf]. apply andb_true_iff. split; [by vm_compute|].
    cbn [kvs forallb fst snd json_wf]. by rewrite Hhw, Hw, Hd. }
  assert (no_nan (JObj kvs) = true) as N by (cbn [kvs no_nan forallb snd]; by rewrite Hhn, Hn).
  assert (hidden (JObj kvs) = hidden (redact_json (rse_json_body ev))) as E.
  { cbn [kvs hidden forallb fst snd]. plain_keys. rewrite Hhh. cbn [negb orb andb].
    by rewrite andb_true_r. }
  exists (dumps_canonical (JObj kvs)). unfold worker_canonical_json. rewrite N.
  split; [done|]. split.
  - intros v. rewrite loads_dumps_canonical by done. intros Ev. apply (inj Some) in Ev as <-.
    by apply json_wf_sort_keys.
  - by rewrite evidence_checked, E.
Qed.

Lemma response_storable ev : storable_response ev ->
  exists s, response_evidence_json (Some ev) = Ok (Some s) /\
    validated_evidence_json (Some s) = Ok (Some s) /\ json_text_ok s.
Proof.
  intros [Hh (Hw & Hn & Hb) Hd]. destruct (response_checked ev Hh Hd Hw Hn) as (s & H1 & H2 & H3).
  rewrite Hb in H3. by exists s.
Qed.

Lemma assertions_storable l :
  Forall (fun a => forall s, ar_selector a = Some s -> scalar_text s = true) l ->
  let v := JList (assertion_result_payload <$> l) in json_wf v = true /\ no_nan v = true.
Proof.
  intros H. cbn [json_wf no_nan]. rewrite !forallb_Forall. split; apply Forall_fmap.
  - eapply Forall_impl; [exact H|]. intros [t s o b] Hs. cbn [compose assertion_result_payload].
    cbn [json_wf]. apply andb_true_iff. split; [by vm_compute|]. cbn in Hs.
    cbn [forallb fst snd ar_operator ar_passed ar_selector ar_target opt_json].
    destruct s as [s|]; cbn [opt_json json_wf]; [rewrite (Hs s eq_refl)|]; by destruct t, o.
  - apply Forall_forall. intros [t [s|] o b] _; done.
Qed.

Lemma failure_code_matches c : failure_code_pattern (failure_code_value c) = true.
Proof. by destruct c. Qed.

(** What a result's payload is, and the repository's verdict on it: it looks
    at the response's evidence only when the rest is acceptable, which it is. *)
Lemma payload_parts r : (er_error_code r = None <-> er_outcome r = OUTCOME_SUCCEEDED) ->
  er_transport_send_count r = 0 \/ er_transport_send_count r = 1 ->
  Forall (fun a => forall s, ar_selector a = Some s -> scalar_text s = true) (er_assertion_results r) ->
  (forall ev, er_request_evidence r = Some ev -> storable_request ev) ->
  exists code text q, forall a, response_evidence_json (er_response_evidence r) = Ok a ->
    let p := {| p_outcome := durable_outcome (er_outcome r); p_failure_code := code;
                p_assertion_results_json := text; p_request_evidence_json := q;
                p_response_evidence_json := a;
                p_transport_send_count := er_transport_send_count r |} in
    execution_result_payload r = Ok p /\
    validate_payload p = (fun a => {| p_outcome := p_outcome p; p_failure_code := code;
                p_assertion_results_json := text; p_request_evidence_json := q;
                p_response_evidence_json := a;
                p_transport_send_count := p_transport_send_count p |}) <$> validated_evidence_json a /\
    json_text_ok text /\ (forall s, q = Some s -> json_text_ok s) /\
    code = failure_code_value <$> er_error_code r.
Proof.
  intros Hc Hn Ha Hq.
  assert (exists code, failure_code (er_error_code r) (durable_outcome (er_outcome r)) = Ok code /\
    validated_failure_code (durable_outcome (er_outcome r)) code = Ok code /\
    code = failure_code_value <$> er_error_code r) as (code & C1 & C2 & C3).
  { destruct (er_error_code r) as [c|].
    - exists (Some (failure_code_value c)).
      destruct (er_outcome r); [by destruct Hc as [_ Hc]; specialize (Hc eq_refl)| |];
        cbn; by rewrite failure_code_matches.
    - exists None. by rewrite (proj1 Hc eq_refl). }
  destruct (assertions_storable _ Ha) as [Aw An].
  assert (exists q, request_evidence_json (er_request_evidence r) = Ok q /\
    validated_evidence_json q = Ok q /\ forall s, q = Some s -> json_text_ok s) as (q & Q1 & Q2 & Q3).
  { destruct (er_request_evidence r) as [ev|]; [|by exists None].
    destruct (request_storable ev (Hq ev eq_refl)) as (s & ? & ? & ?). exists (Some s). naive_solver. }
  exists code, (dumps_canonical (JList (assertion_result_payload <$> er_assertion_results r))), q.
  intros a P1. cbv zeta.
  assert (negb ((er_transport_send_count r =? 0) || (er_transport_send_count r =? 1)) = false) as Hcount
    by (by destruct Hn as [-> | ->]).
  split.
  { unfold execution_result_payload. rewrite C1, bind_ok. unfold worker_canonical_json at 1.
    rewrite An. cbn [negb raise_if]. rewrite !bind_ok, Q1, bind_ok, P1, bind_ok.
    unfold transport_send_count. rewrite Hcount. cbn [raise_if]. by rewrite !bind_ok. }
  split.
  { unfold validate_payload. cbn [p_outcome p_failure_code p_assertion_results_json
      p_request_evidence_json p_response_evidence_json p_transport_send_count].
    rewrite Hcount. cbn [raise_if]. rewrite bind_ok, C2, bind_ok, canonical_text_stays, bind_ok by done.
    unfold is_json_array, reload. rewrite loads_dumps_canonical by done. cbn [or_raise].
    rewrite !bind_ok. cbn [sort_keys negb raise_if]. rewrite bind_ok, Q2, bind_ok.
    by destruct (validated_evidence_json a). }
  split; [|by split]. intros v. rewrite loads_dumps_canonical by done.
  intros E. apply (inj Some) in E as <-. by apply json_wf_sort_keys.
Qed.

(** A storable result has a payload, which the repository accepts as it is. *)
Lemma storable_payload r : storable r -> exists p,
  execution_result_payload r = Ok p /\ validate_payload p = Ok p /\ payload_text_ok p /\
  p_outcome p = durable_outcome (er_outcome r) /\
  p_failure_code p = failure_code_value <$> er_error_code r.
Proof.
  intros [Hc Hn Ha Hq Hp]. destruct (payload_parts r Hc Hn Ha Hq) as (code & text & q & H).
  assert (exists q, response_evidence_json (er_response_evidence r) = Ok q /\
    validated_evidence_json q = Ok q /\ forall s, q = Some s -> json_text_ok s) as (a & P1 & P2 & P3).
  { destruct (er_response_evidence r) as [ev|]; [|by exists None].
    destruct (response_storable ev (Hp ev eq_refl)) as (s & ? & ? & ?). exists (Some s). naive_solver. }
  destruct (H a P1) as (H1 & H2 & H3 & H4 & H5). eexists. split; [exact H1|].
  rewrite H2, P2. split; [done|]. by split_and!.
Qed.

(** The executor and the results repository disagree on lists: a result
    whose response body shows, after redaction, something sensitive in a list
    of two elements is converted into a payload, and the repository refuses
    that payload. *)
Theorem shown_pair_refused r ev :
  (er_error_code r = None <-> er_outcome r = OUTCOME_SUCCEEDED) ->
  er_transport_send_count r = 1 ->
  Forall (fun a => forall s, ar_selector a = Some s -> scalar_text s = true) (er_assertion_results r) ->
  (forall ev, er_request_evidence r = Some ev -> storable_request ev) ->
  er_response_evidence r = Some ev -> text_headers (rse_headers ev) ->
  scalar_text (rse_body_sha256 ev) = true ->
  json_wf (redact_json (rse_json_body ev)) = true -> no_nan (redact_json (rse_json_body ev)) = true ->
  pairs_hidden (redact_json (rse_json_body ev)) = false ->
  exists p msg, execution_result_payload r = Ok p /\
    validate_payload p = raise ExecutionResultRejected msg.
Proof.
  intros Hc Hn Ha Hq He Hh Hd Hw Hnn Hp.
  destruct (payload_parts r Hc (or_intror Hn) Ha Hq) as (code & text & q & H).
  destruct (response_checked ev Hh Hd Hw Hnn) as (s & S1 & _ & S2). rewrite <- He in S1.
  destruct (H _ S1) as (H1 & H2 & _). eexists _, _. split; [exact H1|].
  rewrite H2, S2, hidden_redacted, Hp. done.
Qed.
End storing.

(** ** Witnesses *)

(** [["token","x"]] *)
Definition pair_body : bytes := [91; 34; 116; 111; 107; 101; 110; 34; 44; 34; 120; 34; 93]%N.
Definition pair_document : option json := Some (JList [JStr (u "token"); JStr (u "x")]).
Lemma pair_parses : parse_json_object_or_array pair_body = Ok pair_document.
Proof. vm_compute. reflexivity. Qed.

Lemma sample_evidence_storable : storable_request sample_evidence.
Proof.
  split.
  - vm_compute. reflexivity.
  - vm_compute. reflexivity.
  - repeat constructor.
  - split_and!; vm_compute; reflexivity.
Qed.

Lemma sample_result_parts body document :
  let r := sample_result body document in
  (er_error_code r = None <-> er_outcome r = OUTCOME_SUCCEEDED) /\
  er_transport_send_count r = 1 /\
  Forall (fun a => forall s, ar_selector a = Some s -> scalar_text s = true) (er_assertion_results r) /\
  er_request_evidence r = Some sample_evidence /\
  er_response_evidence r = Some (evidence_with (created_response body) document).
Proof.
  unfold sample_result, judged. cbv zeta.
  assert (Forall (fun a => forall s, ar_selector a = Some s -> scalar_text s = true)
    (results_of (sorted_case sample_case) (created_response body) document)) as Ha.
  { unfold results_of. cbn [assertions sorted_case sample_case fmap list_fmap].
    repeat constructor; intros s [= <-]; reflexivity. }
  destruct (forallb ar_passed _); cbn; by split_and!.
Qed.

Lemma shown_pair_refused_witness : exists p msg,
  execution_result_payload (sample_result pair_body pair_document) = Ok p /\
  validate_payload p = raise ExecutionResultRejected msg.
Proof.
  destruct (sample_result_parts pair_body pair_document) as (Hc & Hn & Ha & Hq & Hr).
  apply (shown_pair_refused (sample_result pair_body pair_document)
    (evidence_with (created_response pair_body) pair_document)); try assumption.
  - rewrite Hq. intros ev E. injection E as <-. exact sample_evidence_storable.
  - constructor.
  - apply digest_text.
  - reflexivity.
  - reflexivity.
  - reflexivity.
Defined.
