(* ===== verification/ExecutorLiveness.v ===== *)
(** * The restricted executor returns

    A worker holds its job in the RUNNING state until the executor returns, so
    an exception that leaves [execute] strands the job.  As long as the clock,
    the probe and the resolver answer and the plan's parameters are encodable
    text, it returns whatever the transport does, but for one thing: a body
    on which the JSON decoder hits a limit of the interpreter.  A parameter
    with a lone surrogate is not encodable.  What it returns can be stored, if
    the response's body and the request's can. *)
From S2P Require Import Prelude PyText Json JsonFacts Digest Effects GeneratedTests.
From S2P Require Import GeneratedTestsFacts.
From S2P Require Import Url TargetRegistry ExecutionPlans Database DatabaseFacts.
From S2P Require Import ExecutionApprovals ExecutionJobs RestrictedExecution RestrictedExecutionFacts.
From S2P Require Import Redaction GeneratedTestsSpec AsciiRuntime Samples SystemSamples ExecutorSamples.
From S2P Require Import ExecutionWorker WorkerEvidence.

(** ** Computations that return *)

Section returning.
Context {S : Type}.

(** From every state [m] returns. *)
Definition answers {A} (m : io S A) : Prop := forall s, exists a s', m s = (Ok a, s').

(** From every state [m] returns with a result that satisfies [Q], or raises
    one of the exceptions [R]. *)
Context (R : exn -> Prop).
Definition returns {A} (m : io S A) (Q : A -> Prop) : Prop :=
  forall s, exists r s', m s = (r, s') /\ match r with Ok a => Q a | Raise e => R e end.

Lemma returns_ret {A} (a : A) (Q : A -> Prop) : Q a -> returns (mret a : io S A) Q.
Proof. intros H s. by exists (Ok a), s. Qed.
Lemma returns_raise {A} e (Q : A -> Prop) : R e -> returns (lift (Raise e) : io S A) Q.
Proof. intros H s. by exists (Raise e), s. Qed.

Lemma returns_bind {A B} P (m : io S A) (f : A -> io S B) Q :
  returns m P -> (forall a, P a -> returns (f a) Q) -> returns (m ≫= f) Q.
Proof.
  intros Hm Hf s. destruct (Hm s) as ([a|e] & s1 & E & Ha).
  - destruct (Hf a Ha s1) as (b & s2 & E2 & Hb). exists b, s2. split; [|done]. by erewrite io_step by exact E.
  - exists (Raise e), s1. split; [|done]. by erewrite io_stop by exact E.
Qed.

Lemma returns_bind_lift {A B} (r : result A) a (f : A -> io S B) Q :
  r = Ok a -> returns (f a) Q -> returns (lift r ≫= f) Q.
Proof. intros -> Hf s. apply Hf. Qed.

Lemma returns_bind_answers {A B} (m : io S A) (f : A -> io S B) Q :
  answers m -> (forall a, returns (f a) Q) -> returns (m ≫= f) Q.
Proof.
  intros Hm Hf s. destruct (Hm s) as (a & s1 & E). destruct (Hf a s1) as (r & s2 & E2 & Hr).
  exists r, s2. split; [|done]. by erewrite io_step by exact E.
Qed.
End returning.

(** The computation ends here, with the exception [R] speaks of. *)
Ltac ends_with R := eexists _, _; split; [reflexivity|]; intros ? [= <-]; by apply R.

Section validation.
Context {rt : PyRuntime} {net : NetRuntime}.

Definition target_error (c : exn_class) : Prop := is_TargetValidationError c = true.

Lemma registry_get_raises registry id : raises target_error (registry_get registry id).
Proof. unfold registry_get. repeat raises_step. Qed.

Lemma parse_target_origin_raises c : raises target_error (parse_target_origin c).
Proof. unfold parse_target_origin, parse_url, normalized_hostname, validate_hostname. repeat raises_step. Qed.

Lemma validated_public_answers_raises l : raises target_error (validated_public_answers l).
Proof. unfold validated_public_answers, public_answer. repeat raises_step. Qed.

Context {S : Type} `{!AddressResolver S}.

(** With a resolver that answers, validation ends in a target or in a
    [TargetValidationError]. *)
Lemma validate_target_returns registry id s : (forall h, answers (S := S) (resolve h)) ->
  exists r s', validate_registered_target registry id s = (r, s') /\
    forall e, r = Raise e -> target_error (exn_cls e).
Proof.
  intros Hr. unfold validate_registered_target.
  pose proof (registry_get_raises registry id) as R1.
  destruct (registry_get registry id) as [c|e]; [|ends_with R1].
  erewrite io_step by reflexivity. pose proof (parse_target_origin_raises c) as R2.
  destruct (parse_target_origin c) as [o|e]; [|ends_with R2].
  erewrite io_step by reflexivity. destruct (Hr (origin_hostname o) s) as (a1 & s1 & E1).
  erewrite io_step by exact E1. pose proof (validated_public_answers_raises a1) as R3.
  destruct (validated_public_answers a1) as [v1|e]; [|ends_with R3].
  erewrite io_step by reflexivity. destruct (Hr (origin_hostname o) s1) as (a2 & s2 & E2).
  erewrite io_step by exact E2. pose proof (validated_public_answers_raises a2) as R4.
  destruct (validated_public_answers a2) as [v2|e]; [|ends_with R4].
  erewrite io_step by reflexivity. destruct (negb _); eexists _, _; (split; [reflexivity|]).
  - by intros e [= <-].
  - done.
Qed.
End validation.

(** ** The executor *)

Section executor.
Context {rt : PyRuntime} {laws : PyRuntimeLaws rt} {net : NetRuntime}.
Context {S : Type} `{!ExecutionEnvironment S}.

(** Everything but the transport answers. *)
Record steady : Prop := {
  steady_clock : answers (S := S) clock;
  steady_probe j : answers (S := S) (is_cancel_requested j);
  steady_resolver h : answers (S := S) (resolve h);
}.

(** A test case, and the responses of a transport, that can be stored as
    evidence: scalar text, and bodies that show nothing sensitive in a list. *)
Record text_case (t : GeneratedTestCaseV1) : Prop := {
  tc_path : scalar_text (path (request t)) = true;
  tc_headers : Forall (fun h => scalar_text (header_name h) = true /\ scalar_text (header_value h) = true)
    (headers (request t));
  tc_body : forall kvs, json_body (request t) = Some kvs -> storable_json (redact_json (JObj kvs));
  tc_selectors : Forall (fun a => forall s, selector a = Some s -> scalar_text s = true) (assertions t);
}.
Definition text_response (r : TransportResponse) : Prop :=
  text_headers (rs_headers r) /\
  exists document, parse_json_object_or_array (rs_body r) = Ok document /\
    forall v, document = Some v -> storable_json (redact_json v).
Definition text_transport : Prop := forall rq s o s' r,
  send (S := S) rq s = (Ok o, s') -> valid_transport_response o = Some r -> text_response r.

Context (Hsteady : steady).

(** A limit of the interpreter that a response's body hits: the stack, when it
    is decoded or its value redacted, or the digits of an integer. *)
Definition limit_hit (e : exn) : Prop := exists rq s o s' r text,
  send (S := S) rq s = (Ok o, s') /\ valid_transport_response o = Some r /\
  utf8_decode (rs_body r) = Some text /\ decoder_limit body_stack parse_value text = Some e /\
  (exn_cls e = RecursionError \/ exn_cls e = ValueError).

Lemma parse_raises body e : parse_json_object_or_array body = Raise e ->
  exists text, utf8_decode body = Some text /\ decoder_limit body_stack parse_value text = Some e /\
    (exn_cls e = RecursionError \/ exn_cls e = ValueError).
Proof.
  unfold parse_json_object_or_array. destruct (utf8_decode body) as [text|]; [|done]. intros H. exists text.
  split; [done|]. unfold json_loads in H. destruct (decoder_limit body_stack parse_value text) as [e'|] eqn:Hl.
  - destruct (decoder_limit_class _ _ _ _ Hl) as [[Hc _]|[Hc _]]; cbn in H; rewrite Hc in H;
      cbn in H; injection H as <-; auto.
  - by destruct (loads text).
Qed.

Lemma text_response_decodes rs e : text_response rs -> parse_json_object_or_array (rs_body rs) <> Raise e.
Proof. intros (_ & document & H & _). by rewrite H. Qed.

Lemma text_transport_no_limit e : text_transport -> ~ limit_hit e.
Proof.
  intros Ht (rq & s & o & s' & r & text & Hs & Hv & Hu & Hl & _). destruct (Ht _ _ _ _ _ Hs Hv) as (_ & document & H & _).
  unfold parse_json_object_or_array in H. rewrite Hu in H. unfold json_loads in H. rewrite Hl in H.
  destruct (decoder_limit_class _ _ _ _ Hl) as [[Hc _]|[Hc _]]; cbn in H; rewrite Hc in H; discriminate H.
Qed.

(** What is known of a result of job [j]. *)
Definition job_result (t : GeneratedTestCaseV1) (j : uuid) (r : ExecutionResult) : Prop :=
  er_job_id r = Some j /\ (text_case t -> text_transport -> storable r).

Lemma early_job_result t j code : code <> CODE_CANCELLED -> job_result t j (failed_early (Some j) code).
Proof. intros Hc. split; [done|]. intros _ _. split; try done. by left. Qed.

Lemma redact_text_headers l : text_headers l -> text_headers (redact_headers l).
Proof.
  intros H. apply Forall_fmap. eapply Forall_impl; [exact H|]. intros [n w] [Hn Hw].
  cbn [fst snd compose]. split; [done|]. by destruct (sensitive n).
Qed.

Lemma null_storable : storable_json (redact_json JNull).
Proof. repeat split. Qed.

Lemma response_evidence_storable r document : text_response r ->
  document = None \/ parse_json_object_or_array (rs_body r) = Ok document -> storable_response (evidence_with r document).
Proof.
  intros (Hh & document' & Hp & Hb) Hd. split; cbn.
  - by apply redact_text_headers.
  - destruct document as [v|]; [|apply null_storable]. destruct Hd as [Hd|Hd]; [done|].
    rewrite redact_json_idem. apply Hb. congruence.
  - apply digest_text.
Qed.

Lemma results_text t r document : text_case t ->
  Forall (fun a => forall s, ar_selector a = Some s -> scalar_text s = true) (results_of t r document).
Proof. intros [_ _ _ H]. by apply Forall_fmap. Qed.

(** A result with the request's evidence. *)
Lemma evident_job_result t j r ev :
  er_job_id r = Some j -> (er_error_code r = None <-> er_outcome r = OUTCOME_SUCCEEDED) ->
  er_transport_send_count r = 0 \/ er_transport_send_count r = 1 ->
  er_request_evidence r = Some ev -> (text_case t -> storable_request ev) ->
  (er_assertion_results r = [] \/ exists rs document, er_assertion_results r = results_of t rs document) ->
  (forall re, er_response_evidence r = Some re -> text_transport -> storable_response re) ->
  job_result t j r.
Proof.
  intros Hj Hc Hn Hev Hq Ha Hr. split; [done|]. intros Ht Hs. split; try done.
  - destruct Ha as [-> | (rs & document & ->)]; [constructor|by apply results_text].
  - intros ev' E. assert (ev' = ev) as -> by congruence. auto.
  - intros re E. auto.
Qed.

Lemma conclude_returns p t j ev r : test_case p = Ok t -> (text_case t -> storable_request ev) ->
  (text_transport -> text_response r) ->
  (forall e, parse_json_object_or_array (rs_body r) = Raise e -> limit_hit e) ->
  returns limit_hit (conclude p j ev r) (job_result t j).
Proof.
  intros Ht Hev Hr Hl. unfold conclude. destruct (_ <? _).
  { eapply returns_bind_lift; [reflexivity|].
    apply returns_ret. eapply evident_job_result; [done|done|by right|done|exact Hev|by left|].
    intros re [= <-] H. apply response_evidence_storable; auto. }
  unfold response_evidence. destruct (parse_json_object_or_array (rs_body r)) as [document|e] eqn:Hd.
  2:{ intros s. exists (Raise e), s. split; [done|]. by apply Hl. }
  eapply returns_bind_lift; [by rewrite bind_ok|].
  assert (forall re, Some (evidence_with r document) = Some re -> text_transport -> storable_response re) as Hre.
  { intros re [= <-] H. apply response_evidence_storable; auto. }
  destruct (_ && _).
  { apply returns_ret. by eapply evident_job_result; [done|done|by right|done|exact Hev|by left|]. }
  eapply returns_bind_lift; [unfold evaluate_assertions; by rewrite Ht, bind_ok, Hd, bind_ok|].
  fold (results_of t r document).
  apply returns_bind_answers; [apply steady_probe, Hsteady|]. intros b.
  destruct b; [|destruct (negb _)]; apply returns_ret;
    (eapply evident_job_result; [done|done|by right|done|exact Hev|right; by eexists _, _|exact Hre]).
Qed.

Lemma transmit_returns p t j ev rq : test_case p = Ok t -> (text_case t -> storable_request ev) ->
  returns limit_hit (transmit p j ev rq) (job_result t j).
Proof.
  intros Ht Hev. unfold transmit.
  apply returns_bind with (P := fun x => match x with
    | inl (Some rs) => (text_transport -> text_response rs) /\
        forall e, parse_json_object_or_array (rs_body rs) = Raise e -> limit_hit e
    | _ => True end).
  - intros s. destruct (send rq s) as [[o|e] s1] eqn:E; [|by eexists (Ok _), _]. eexists (Ok _), _.
    split; [done|]. destruct (valid_transport_response o) as [rs|] eqn:Hv; [|done]. split.
    + intros H. by eapply H.
    + intros e (text & Hu & Hl & Hc)%parse_raises. by exists rq, s, o, s1, rs, text.
  - intros [[r|]|c] Hr.
    2-3: apply returns_ret; eapply evident_job_result;
      [done|done|by right|done|exact Hev|by left|done].
    destruct Hr as [Hr Hl]. by apply (conclude_returns p t).
Qed.

Lemma validated_headers_errors l : raises (fun c => is_ValueError c = true) (validated_headers l).
Proof. unfold validated_headers. repeat raises_step. Qed.
Lemma worker_redact_url_Ok url kept : redact_url url = Ok kept -> worker_redact_url url = Ok kept.
Proof. unfold redact_url, worker_redact_url. by destruct (urlsplit url). Qed.

Lemma kept_pair_idem q : kept_pair (kept_pair q) = kept_pair q.
Proof. unfold kept_pair. cbn [fst snd]. by destruct (sensitive q.1). Qed.

Lemma kept_pairs_idem (l : list (pystr * pystr)) : kept_pair <$> (kept_pair <$> l) = kept_pair <$> l.
Proof. rewrite <- list_fmap_compose. apply list_fmap_ext. intros _ q _. apply kept_pair_idem. Qed.

Lemma visible_idem s : url_visible (url_visible s) = url_visible s.
Proof. apply visible_fix, Forall_forall. by intros c [Hc _]%list_elem_of_filter. Qed.

Lemma scalar_app s s' : scalar_text (s ++ s') = scalar_text s && scalar_text s'.
Proof. apply forallb_app. Qed.

Lemma query_text_scalar s : query_text s -> scalar_text s = true.
Proof.
  intros H. apply ascii_scalar_text, is_ascii_Forall. eapply Forall_impl; [exact H|]. intros c Hc.
  unfold query_char, ascii_letter, ascii_upper_letter, ascii_lower_letter, ascii_digit, between in Hc.
  repeat (apply orb_true_iff in Hc as [Hc|Hc]); bools; rewrite ?N.leb_le in *; try lia.
  cbn in Hc. repeat (apply elem_of_cons in Hc as [->|Hc]; [lia|]). by apply not_elem_of_nil in Hc.
Qed.

Lemma join_scalar items : Forall (fun s => scalar_text s = true) items -> scalar_text (join [38%N] items) = true.
Proof.
  intros H. induction H as [|s items Hs H IH]; [done|]. destruct items as [|s' items]; [done|].
  change (join [38%N] (s :: s' :: items)) with (s ++ [38%N] ++ join [38%N] (s' :: items)).
  by rewrite !scalar_app, Hs, IH.
Qed.

Lemma kept_query_scalar quoted : Forall (fun q => query_text q.1 /\ query_text q.2) quoted ->
  scalar_text (with_query (item <$> (kept_pair <$> quoted))) = true.
Proof.
  intros H. assert (scalar_text (join [38%N] (item <$> (kept_pair <$> quoted))) = true) as Hj.
  { apply join_scalar, Forall_fmap, Forall_fmap. eapply Forall_impl; [exact H|]. intros [n w] [Hn Hw].
    unfold compose, item, kept_pair. cbn [fst snd] in *. rewrite !scalar_app, (query_text_scalar n) by done.
    destruct (sensitive n); [done|]. by rewrite (query_text_scalar w). }
  rewrite with_query_join. by destruct (join _ _).
Qed.

Lemma filter_scalar P `{!forall c : N, Decision (P c)} s : scalar_text s = true -> scalar_text (filter P s) = true.
Proof.
  unfold scalar_text. rewrite !forallb_Forall, !Forall_forall. intros Hs c [_ Hc]%list_elem_of_filter. auto.
Qed.

(** The URL that is kept is kept as it is, and is text. *)
Lemma kept_url_storable registry p t c quoted :
  plan_ok registry p t c -> plain_origin (target_base_url p) -> text_case t ->
  Forall (fun q => query_text q.1 /\ query_text q.2) quoted ->
  let kept := target_base_url p ++ url_visible (path (request t)) ++
              with_query (item <$> (kept_pair <$> quoted)) in
  worker_redact_url kept = Ok kept /\ scalar_text kept = true.
Proof.
  intros Hok (host & Hb & Hne & Hh) Ht Hq. cbv zeta. rewrite Hb.
  pose proof (po_wf _ _ _ _ Hok) as Hw. unfold wf_test_case, request_ok, path_ok in Hw. bools.
  split.
  - apply worker_redact_url_Ok. rewrite <- !app_assoc, redact_url_parts; try done.
    + by rewrite visible_idem, kept_pairs_idem.
    + by apply visible_slash.
    + by apply visible_absent, contains_absent.
    + by apply visible_absent, contains_absent.
    + apply Forall_fmap. eapply Forall_impl; [exact Hq|]. intros q Hqq.
      by apply kept_item_text, quoted_item.
  - rewrite !scalar_app, kept_query_scalar by done. unfold url_visible. rewrite filter_scalar by apply Ht.
    rewrite (ascii_scalar_text host); [done|]. apply is_ascii_Forall. eapply Forall_impl; [exact Hh|].
    intros x [Hx _]%host_char_plain. done.
Qed.

Lemma validated_headers_text l hs : validated_headers l = Ok hs ->
  Forall (fun h => scalar_text (header_name h) = true /\ scalar_text (header_value h) = true) l ->
  text_headers hs.
Proof.
  intros H%try_map_Ok Hl. induction H as [|h x l hs Hx _ IH]; [constructor|].
  apply Forall_cons in Hl as [Hh Hl]. constructor; [|by apply IH]. cbn beta in Hx. ok_inv. done.
Qed.

Lemma execute_plan_returns registry j p t c :
  plan_ok registry p t c -> plain_origin (target_base_url p) -> scalar_query t ->
  returns limit_hit (execute_plan registry j p) (job_result t j).
Proof.
  intros Hok Ho Hq. unfold execute_plan. pose proof (po_case _ _ _ _ Hok) as Ht.
  destruct (plan_limits_agree _ _ _ _ Hok) as (Hl & body & Hb & _).
  destruct (request_url_parts _ _ _ _ Hok Ho Hq) as (quoted & _ & Hquoted & Hu & Hr).
  eapply returns_bind_lift; [exact Ht|]. eapply returns_bind_lift; [exact Hl|]. cbn [negb].
  rewrite Hb, bind_ok. pose proof (validated_headers_errors (headers (request t))) as Hh.
  destruct (validated_headers (headers (request t))) as [hs|e] eqn:Ehs.
  2:{ eapply returns_bind_lift; [cbn [mbind result_bind try_except]; by rewrite (Hh e eq_refl)|].
      apply returns_ret, early_job_result. by destruct (_ =? _)%string. }
  eapply returns_bind_lift; [reflexivity|]. cbv beta iota.
  destruct (match body with Some _ => _ | None => _ end); [by apply returns_ret, early_job_result|].
  eapply returns_bind_lift; [exact Hu|]. eapply returns_bind_lift; [exact Hr|]. cbv zeta.
  set (ev := {| rqe_method := _ |}).
  assert (text_case t -> storable_request ev) as Hev.
  { intros Htc. destruct (kept_url_storable _ _ _ _ quoted Hok Ho Htc Hquoted) as [K1 K2]. split; cbn; try done.
    - eapply redact_text_headers, validated_headers_text; [exact Ehs|apply Htc].
    - destruct (json_body (request t)) as [kvs|] eqn:Ekvs; [|apply null_storable].
      change (storable_json (redact_json (redact_json (JObj kvs)))). rewrite redact_json_idem.
      by apply Htc. }
  apply returns_bind_answers; [apply steady_probe, Hsteady|]. intros [].
  { apply returns_ret. by eapply evident_job_result; [done|done|by left|done|exact Hev|by left|]. }
  intros s. destruct (validate_target_returns registry (value (target_id p)) s
    (steady_resolver Hsteady)) as (r & s1 & V & Hv).
  assert (job_result t j (failed (Some j) TARGET_DENIED (Some ev) None [] 0)) as Hdenied.
  { by eapply evident_job_result; [done|done|by left|done|exact Hev|by left|]. }
  destruct r as [v|e].
  2:{ rewrite io_bind_eq, V, (Hv e eq_refl). by eexists (Ok _), _. }
  erewrite io_step by (by rewrite V). cbv beta iota.
  destruct (negb _ || _); [by eexists (Ok _), _|].
  apply validate_registered_target_eligible in V as (a1 & a2 & s2 & _ & _ & He).
  refine (returns_bind_answers limit_hit _ _ _ (steady_probe Hsteady j) _ s1). intros [].
  { apply returns_ret. by eapply evident_job_result; [done|done|by left|done|exact Hev|by left|]. }
  eapply returns_bind_lift; [exact Hu|]. pose proof (el_nonempty _ _ _ _ _ He).
  destruct (vt_resolved_addresses v) as [|address l]; [done|].
  eapply returns_bind_lift; [reflexivity|]. by apply (transmit_returns p t).
Qed.

Lemma execute_job_result registry cl t c :
  let p := ea_plan (claimed_approval cl) in
  plan_ok registry p t c -> plain_origin (target_base_url p) -> scalar_query t ->
  returns limit_hit (execute registry (Some cl)) (job_result t (job_id (claimed_job cl))).
Proof.
  intros p Hok Ho Hq. cbn [execute].
  apply returns_bind_answers; [apply Hsteady|]. intros now.
  destruct (validate_claim _ _ _ _) as [code|] eqn:Hc.
  { apply returns_ret, early_job_result. unfold validate_claim in Hc. repeat case_match; naive_solver. }
  assert (validate_execution_plan p registry = Ok p) as Hv by (apply validate_plan_iff; eauto).
  eapply returns_bind_lift; [fold p; by rewrite Hv|]. cbv beta iota.
  destruct (negb _); [by apply returns_ret, early_job_result|]. by eapply execute_plan_returns.
Qed.

(** C40: The executor returns: when the clock, the probe and the resolver
    answer, then for a claim of a valid plan with a plain origin and encodable
    parameters [execute] ends with a result of the job, whatever the job's
    state and whatever the transport returns or raises; or the transport
    returned a response whose body hits a limit of the interpreter, with a
    RecursionError when the stack does not do for decoding and redacting it,
    or the ValueError of an integer of more than 4300 digits, and this
    exception leaves [execute]. *)
Theorem execute_returns registry cl t c s :
  let p := ea_plan (claimed_approval cl) in
  plan_ok registry p t c -> plain_origin (target_base_url p) -> scalar_query t ->
  exists r s', execute registry (Some cl) s = (r, s') /\
    match r with
    | Ok res => er_job_id res = Some (job_id (claimed_job cl))
    | Raise e => limit_hit e
    end.
Proof.
  intros p Hok Ho Hq. destruct (execute_job_result _ _ _ _ Hok Ho Hq s) as ([res|e] & s' & H & Hr).
  - destruct Hr as [Hj _]. by exists (Ok res), s'.
  - by exists (Raise e), s'.
Qed.

(** Without such a body it returns, with what can be stored. *)
Lemma execute_stores registry cl t c s :
  let p := ea_plan (claimed_approval cl) in
  plan_ok registry p t c -> plain_origin (target_base_url p) -> scalar_query t -> text_case t -> text_transport ->
  exists res s', execute registry (Some cl) s = (Ok res, s') /\
    er_job_id res = Some (job_id (claimed_job cl)) /\ storable res.
Proof.
  intros p Hok Ho Hq Htc Htt. destruct (execute_job_result _ _ _ _ Hok Ho Hq s) as ([res|e] & s' & H & Hr).
  - destruct Hr as [Hj Hs]. exists res, s'. auto.
  - by destruct (text_transport_no_limit e Htt).
Qed.
End executor.

(** ** The parameter that is not text *)

Section surrogates.
Context {rt : PyRuntime} {net : NetRuntime}.

Definition has_surrogate (s : pystr) : Prop := exists c, c ∈ s /\ between 55296 57343 c = true.

Lemma utf8_encode_surrogate s : has_surrogate s -> utf8_encode s = None.
Proof.
  intros (c & Hin & Hc). induction s as [|x s IH]; [by apply not_elem_of_nil in Hin|]. cbn.
  apply elem_of_cons in Hin as [<-|Hin].
  - assert (utf8_char c = None) as ->; [|done]. unfold utf8_char, between in *. bools.
    rewrite N.leb_le in *. rewrite !(proj2 (N.ltb_ge _ _)) by lia.
    rewrite (proj2 (N.ltb_lt c 65536)) by lia. by rewrite !(proj2 (N.leb_le _ _)) by lia.
  - rewrite (IH Hin). by destruct (utf8_char x).
Qed.

Lemma encode_pairs_surrogate pairs q : q ∈ pairs -> has_surrogate q.2 -> encode_pairs pairs = None.
Proof.
  intros Hin Hq. induction pairs as [|[k v] pairs IH]; [by apply not_elem_of_nil in Hin|]. cbn.
  destruct (quote_plus k); [cbn|done]. apply elem_of_cons in Hin as [->|Hin].
  - cbn in Hq. unfold quote_plus at 1. by rewrite utf8_encode_surrogate.
  - destruct (quote_plus v); [cbn|done]. by rewrite IH.
Qed.

Lemma request_url_surrogate p t q : test_case p = Ok t ->
  q ∈ GeneratedTests.query (request t) -> has_surrogate (query_value q) ->
  request_url p = raise UnicodeEncodeError "surrogates not allowed".
Proof.
  intros Ht Hin Hs. unfold request_url. rewrite Ht, bind_ok. unfold urlencode.
  rewrite (encode_pairs_surrogate _ (query_name q, query_value q)); [done| |done].
  apply list_elem_of_fmap. by exists q.
Qed.

Context {S : Type} `{!ExecutionEnvironment S}.

(** A query parameter whose value holds a lone surrogate, which JSON text
    can carry into a test case, cannot be written into a URL: [execute]
    raises [UnicodeEncodeError] for a claim of such a plan, instead of
    returning a failed result, once the plan is validated and before anything
    is probed or sent. *)
Theorem surrogate_query_raises registry cl t c q hs now s s1 :
  let p := ea_plan (claimed_approval cl) in
  clock s = (Ok now, s1) ->
  validate_claim (job_id (claimed_job cl)) (claimed_approval cl) cl (utc_datetime now) = None ->
  plan_ok registry p t c -> job_matches_plan cl p = true ->
  validated_headers (headers (request t)) = Ok hs ->
  q ∈ GeneratedTests.query (request t) -> has_surrogate (query_value q) ->
  execute registry (Some cl) s = (raise UnicodeEncodeError "surrogates not allowed", s1).
Proof.
  intros p Hc Hclaim Hok Hm Hh Hin Hq.
  destruct (plan_limits_agree _ _ _ _ Hok) as (Hl & body & Hb & Hsize).
  assert (validate_execution_plan p registry = Ok p) as Hv by (apply validate_plan_iff; eauto).
  unfold execute. erewrite io_step by exact Hc. rewrite Hclaim.
  erewrite io_step by (apply lift_run; fold p; by rewrite Hv). cbv beta iota. rewrite Hm.
  cbn [negb]. unfold execute_plan.
  erewrite io_step by (apply lift_run, (po_case _ _ _ _ Hok)). cbv zeta.
  erewrite io_step by (apply lift_run, Hl). cbn [negb].
  erewrite io_step by (apply lift_run; rewrite Hb, Hh, !bind_ok; reflexivity). cbv beta iota.
  assert (match body with Some b => max_request_body_bytes (limits p) <? zlen b
                        | None => false end = false) as ->.
  { destruct body; [by apply Z.ltb_ge|done]. }
  rewrite (request_url_surrogate _ _ _ (po_case _ _ _ _ Hok) Hin Hq). done.
Qed.
End surrogates.

(** ** Witnesses *)

Lemma sample_steady o : @steady _ (sample_environment o).
Proof. split; [|intros ?..]; intros s; by eexists _, _. Qed.

Lemma execute_returns_witness : exists p r s',
  @execute _ _ _ (sample_environment NotAResponse) DEFAULT_TARGET_REGISTRY
    (Some (claimed_plan p)) tt = (r, s') /\
  match r with
  | Ok res => er_job_id res = Some 4%N
  | Raise e => @limit_hit _ _ (sample_environment NotAResponse) e
  end.
Proof.
  destruct sample_plan as (p & Hok & _). exists p.
  apply (@execute_returns _ _ _ _ (sample_environment NotAResponse) (sample_steady _) _
    (claimed_plan p) _ _ tt Hok).
  - exists (u "ai-qa-sandbox.onrender.com"). cbn. rewrite (po_base_url _ _ _ _ Hok).
    split; [reflexivity|]. split; [done|]. repeat constructor.
  - unfold scalar_query. repeat constructor.
Defined.

(** A plan with the parameter [q], a lone surrogate. *)
Definition surrogate_parameter : RequestQueryParameterV1 :=
  {| query_name := u "q"; query_value := [55296%N] |}.
Definition surrogate_case : GeneratedTestCaseV1 := {|
  GeneratedTests.id := 7; title := u "Create"; kind := NEGATIVE; source_finding_id := 8;
  citation_ids := [9%N];
  request := {| method := GET; path := u "/orders"; GeneratedTests.query := [surrogate_parameter];
                headers := []; json_body := None |};
  assertions := assertions sample_case |}.

Definition surrogate_estimate : ExecutionEstimateV1 := {|
  request_count := 1; request_body_bytes := 0; assertion_count := 2;
  maximum_response_bytes := max_response_bytes DEFAULT_EXECUTION_LIMITS;
  maximum_duration_ms := request_timeout_ms DEFAULT_EXECUTION_LIMITS |}.

Lemma surrogate_plan : exists p, plan_ok DEFAULT_TARGET_REGISTRY p surrogate_case sample_target.
Proof.
  set (text := canonical_json (JObj (as_payload surrogate_case))).
  assert (test_case_from_snapshot text = Ok surrogate_case) as Hc by (vm_compute; reflexivity).
  assert (exists h, plan_sha256 (plan_hash_payload sample_target surrogate_case
    DEFAULT_EXECUTION_LIMITS surrogate_estimate) = Ok h) as [h Hh].
  { unfold plan_sha256, encode. rewrite utf8_encode_ascii; [by eexists|]. vm_compute. reflexivity. }
  exists {| schema_version := EXECUTION_PLAN_SCHEMA_VERSION;
    ExecutionPlans.id := uuid5 EXECUTION_PLAN_NAMESPACE h;
    ExecutionPlans.target_id := SYNTHETIC_ORDER_API; target_base_url := base_url sample_target;
    ExecutionPlans.target_schema_version := TargetRegistry.target_schema_version sample_target;
    test_case_id := 7; test_case_payload := text; limits := DEFAULT_EXECUTION_LIMITS;
    estimate := surrogate_estimate; plan_hash := h |}.
  clearbody text. split; [done|exact Hc|reflexivity|done|done|done|done| |reflexivity| |done].
  - apply sample_plan_hypotheses.
  - exact Hh.
Qed.

Lemma surrogate_query_raises_witness : exists p,
  @execute _ _ _ (sample_environment NotAResponse) DEFAULT_TARGET_REGISTRY
    (Some (claimed_plan p)) tt = (raise UnicodeEncodeError "surrogates not allowed", tt).
Proof.
  destruct surrogate_plan as (p & Hok). exists p.
  apply (@surrogate_query_raises _ _ _ (sample_environment NotAResponse) _ (claimed_plan p)
    surrogate_case sample_target surrogate_parameter [] (utc 5) tt tt);
    [reflexivity|reflexivity|exact Hok| |reflexivity|left|].
  - unfold job_matches_plan. cbn. by rewrite N.eqb_refl, !str_eqb_refl.
  - exists 55296%N. split; [left | reflexivity].
Defined.
