(* ===== verification/ExecutionWorkerSpec.v ===== *)
(** * The execution worker: properties

    The composition of the queue, the executor and the results repository: a
    claimed job runs to a terminal state with its evidence stored, and what
    happens when a step after the claim raises. *)
From S2P Require Import Prelude PyText Json JsonFacts Digest Effects GeneratedTests GeneratedTestsFacts.
From S2P Require Import Url TargetRegistry ExecutionPlans Database DatabaseFacts.
From S2P Require Import GeneratedTestsSpec ExecutionApprovals ExecutionJobs RestrictedExecution Redaction.
From S2P Require Import RestrictedExecutionFacts.
From S2P Require ExecutionResults.
From S2P Require Import ExecutionResults ExecutionSystem ExecutionSystemSpec.
From S2P Require Import ExecutionResultsSpec ExecutionWorker WorkerEvidence ExecutorLiveness.
From S2P Require Import AsciiRuntime Samples SystemSamples ExecutorSamples.

Section recording.
Context {rt : PyRuntime} {laws : PyRuntimeLaws rt} {net : NetRuntime}.

Lemma validated_count p v : validate_payload p = Ok v ->
  p_outcome v = p_outcome p /\ p_failure_code v = p_failure_code p /\
  p_transport_send_count v = p_transport_send_count p /\
  (p_transport_send_count p = 0 \/ p_transport_send_count p = 1) /\
  match p_outcome p with
  | RESULT_SUCCEEDED => p_failure_code p = None
  | _ => exists c, p_failure_code p = Some c /\ failure_code_pattern c = true
  end.
Proof.
  unfold validate_payload. intros H. ok_inv. bools. cbn.
  match goal with E : validated_failure_code _ _ = Ok _ |- _ => rename E into Ec end.
  match goal with E : (_ =? 0) || _ = true |- _ => apply orb_true_iff in E; rename E into Hn end.
  assert ((p_transport_send_count p = 0 \/ p_transport_send_count p = 1)) as Hn'
    by (destruct Hn as [Hn|Hn]; bools; tauto).
  unfold validated_failure_code in Ec.
  destruct (p_outcome p), (p_failure_code p); ok_inv; bools; split_and!; try done; by eexists.
Qed.

Lemma pattern_not_blank c : failure_code_pattern c = true -> not_blank c = true.
Proof.
  unfold failure_code_pattern, not_blank. destruct c as [|x c]; [done|]. intros H. bools.
  apply negb_true_iff. cbn [forallb]. apply andb_false_iff. left. apply N.eqb_neq. intros <-. done.
Qed.

(** A running job without a result is completed by a payload that passes
    validation, also next to other sessions. *)
Lemma record_completes now new_id id payload v others d j :
  wf_db d -> good_neighbours {[id]} others ->
  jobs d !! id = Some j -> job_state j = RUNNING -> results (others d) !! new_id = None ->
  validate_payload payload = Ok v -> payload_text_ok payload ->
  exists s d' row, record false now new_id (job_project_id j) id payload others d = (Ok s, d') /\
    jobs d' !! id = Some (complete_job j (p_outcome payload) (utc_datetime now)) /\
    results d' !! new_id = Some row /\ res_job_id row = id /\ res_outcome row = p_outcome payload /\
    res_failure_code row = p_failure_code payload /\ stored_result_from_record row = Ok s.
Proof.
  intros Hd Ho Hj Hrun Hfresh Hv Ht.
  assert (sound_change {[id]} d (others d)) as (Wo & _ & Al).
  { apply Ho; [done|]. intros i ->%elem_of_singleton. by eexists. }
  assert (jobs (others d) !! id = Some j) as Hj' by (rewrite Al; [done|by apply elem_of_singleton]).
  assert (forall i r, results (others d) !! i = Some r -> res_job_id r <> id) as Hnone.
  { intros i r Hi Hid. destruct (wf_result_job _ Wo _ _ Hi) as (k & Hk & Hs & _).
    rewrite Hid, Hj' in Hk. injection Hk as <-. rewrite Hrun in Hs. by destruct (res_outcome r). }
  destruct (wf_job _ Hd _ _ Hj) as [Hjid Hcheck].
  pose proof (validated_count _ _ Hv) as (Vo & Vc & Vn & Hn & Hcode).
  assert (exists row, new_result (utc_datetime now) new_id id v = Ok row /\
    res_send_count row = p_transport_send_count v /\ res_failure_code row = p_failure_code v)
    as (row & Hrow & Hrc & Hrf).
  { unfold validate_payload in Hv. ok_inv. destruct Ht as (Ta & Tq & Tr). unfold new_result.
    cbn [p_assertion_results_json p_request_evidence_json p_response_evidence_json].
    match goal with E : result_canonical_json _ false = Ok _ |- _ =>
      apply canonical_text_reprints in E as (wa & Ra & _); [|done] end.
    match goal with E : validated_evidence_json (p_request_evidence_json payload) = Ok _ |- _ =>
      apply evidence_reprints in E as (wq & Rq & _); [|done] end.
    match goal with E : validated_evidence_json (p_response_evidence_json payload) = Ok _ |- _ =>
      apply evidence_reprints in E as (wp & Rp & _); [|done] end.
    rewrite Ra, bind_ok, Rq, bind_ok, Rp, bind_ok. by eexists. }
  destruct (new_result_fields _ _ _ _ _ Hrow) as (Hri & Hrj & Hro).
  destruct (new_result_reads_back payload v _ _ _ row Ht Hv Hrow) as (s & Hs & _).
  set (j' := complete_job j (p_outcome v) (utc_datetime now)).
  destruct (complete_job_fields j (p_outcome v) (utc_datetime now)) as ((Hcid & _) & _ & Hcs).
  assert (job_check j' = true) as Hcj.
  { unfold job_check in *. rewrite Hrun in Hcheck. bools. unfold j'.
    destruct (p_outcome v); cbn; bool_goal; try done; try (by apply Z.eqb_eq);
      apply andb_true_iff; split; by apply Z.eqb_eq || (apply negb_true_iff; done) || done. }
  eexists s, _, row. split.
  { unfold record. erewrite io_step by (by apply lift_run). cbv zeta. apply io_try_raise_Ok.
    erewrite io_step by (apply query_Ok; split_and!; [done|by apply select_job|done]). cbv beta iota.
    erewrite io_step by reflexivity.
    assert (scalar_one_or_none (select (fun r => (res_job_id r =? id)%N) (results (others d))) = Ok None) as Hsel.
    { destruct (scalar_select (fun r => (res_job_id r =? id)%N) (results (others d)) res_id) as [[E _]|(r & _ & Hr & Hin)]; [..|done|].
      - intros i r Hi. by apply (wf_result _ Wo).
      - intros i k r q Hi Hk Hr Hq. bools. exfalso. by apply (Hnone i r).
      - bools. exfalso. by apply (Hnone _ _ Hin). }
    erewrite io_step by (apply query_Ok; split_and!; [done|exact Hsel|done]). cbv beta iota.
    assert (negb (bool_decide (job_state j = RUNNING)) || is_null (job_started_at j) = false) as Hg.
    { rewrite bool_decide_eq_true_2 by done. unfold job_check in Hcheck. rewrite Hrun in Hcheck. bools.
      by destruct (job_started_at j). }
    erewrite io_step by (apply lift_run; rewrite Hg; reflexivity).
    erewrite io_step by (apply lift_run; exact Hrow).
    apply statement_Ok. split; [done|]. fold j'. unfold update_job. rewrite Hcj. cbn [negb raise_if].
    rewrite !bind_ok. unfold insert_result.
    cbn [jobs results with_jobs]. assert (job_id j' = id) as Hjid' by (unfold j'; congruence).
    rewrite Hjid', Hrj, lookup_insert_eq, Hri, Hfresh. 
    assert (result_check row = true) as ->.
    { unfold result_check. rewrite Hrc, Vn, Hro, Vo, Hrf, Vc. apply andb_true_iff. split.
      - by destruct Hn as [-> | ->].
      - destruct (p_outcome payload); [by rewrite Hcode|..];
          destruct Hcode as (c & -> & Hc); by apply pattern_not_blank. }
    assert (no_row (fun o => (res_job_id o =? id)%N) (results (others d)) = true) as ->.
    { unfold no_row. apply forallb_Forall, Forall_forall. intros [i r] Hin%elem_of_map_to_list. cbn.
      apply negb_true_iff, N.eqb_neq. by eapply Hnone. }
    cbn [negb orb is_null raise_if]. rewrite !bind_ok, Hs, bind_ok. reflexivity. }
  cbn. unfold j'. rewrite Vo. rewrite !lookup_insert_eq. split_and!; try done; congruence.
Qed.
End recording.

Section worker.
Context {rt : PyRuntime} {laws : PyRuntimeLaws rt} {net : NetRuntime}.
Context {S : Type} `{!ExecutionEnvironment S}.

(** What the worker's run meets is sound: other sessions keep the tables'
    invariant and leave the row it holds, and the job it runs, alone. *)
Record sound_surroundings (w : surroundings) (d : db) (id : uuid) : Prop := {
  ss_wf : wf_db d;
  ss_held : held (claim_locked_rows w) d;
  ss_others i : good_neighbours ({[i]} ∪ claim_locked_rows w) (claim_others w i);
  ss_others' i : good_neighbours ({[i]} ∪ claim_locked_rows w) (claim_others' w i);
  ss_meanwhile : good_neighbours {[id]} (meanwhile w);
  ss_record : good_neighbours {[id]} (record_others w);
}.

(** The tables after a claim. *)
Lemma claimed_tables w d d1 c :
  sound_surroundings w d (job_id (claimed_job c)) ->
  claim_next false (claim_now w) (claim_locked_rows w) (claim_others w) (claim_others' w) d =
    (Ok (Some c), d1) ->
  wf_db d1 /\ jobs d1 !! job_id (claimed_job c) = Some (claimed_job c) /\
  job_state (claimed_job c) = RUNNING.
Proof.
  intros [Hd Hh Ho Ho' _ _] H.
  assert (wf_db d1) as Hw.
  { eapply (triple_claim_next (claim_locked_rows w)) in H as [[Hw _] _]; done. }
  destruct (claim_next_Some _ _ _ _ _ _ _ Hd Hh Ho Ho' H) as (j & _ & _ & -> & Hj & _).
  split; [done|]. split; done.
Qed.

Lemma run_once_claimed registry w d s c d1 :
  claim_fault w = false ->
  claim_next false (claim_now w) (claim_locked_rows w) (claim_others w) (claim_others' w) d =
    (Ok (Some c), d1) ->
  run_once registry w (d, s) = execute_claimed_job registry w c (d1, s).
Proof.
  intros Hf H. unfold run_once. erewrite io_step by (unfold on_tables; cbn; by rewrite Hf, H). done.
Qed.

(** C3: One run of the worker completes the job it claims: it executes the
    claimed plan, with whatever outcome, and leaves the job in the terminal
    state of the executor's outcome, with the one result row that says so.
    This is under the following conditions. The clock, the cancellation probe
    and the resolver answer; other sessions keep the tables' invariant, leave
    the rows that the claim locks and the job alone, and do not use the
    record's fresh identifier; the database fails neither the claim nor the
    recording. The plan is valid in the registry, with an origin of letters,
    digits, dots and hyphens, and its test case is of scalar text, with a body
    that shows nothing sensitive in a list. The transport may raise, return
    anything malformed or any status and any size, but a well-formed response
    has header fields of scalar text and a body within the interpreter's
    limits, whose value, once redacted, is of scalar text, has no NaN or
    infinity and shows nothing sensitive in a list. Of a body beyond those
    limits, run_once_strands says what happens: the exception leaves the run
    and the job stays running. *)
Theorem run_once_completes registry w d s c d1 t cfg :
  let id := job_id (claimed_job c) in
  let p := ea_plan (claimed_approval c) in
  steady (S := S) -> text_transport (S := S) ->
  sound_surroundings w d id -> claim_fault w = false -> record_fault w = false ->
  claim_next false (claim_now w) (claim_locked_rows w) (claim_others w) (claim_others' w) d =
    (Ok (Some c), d1) ->
  results (record_others w (meanwhile w d1)) !! record_id w = None ->
  plan_ok registry p t cfg -> plain_origin (target_base_url p) -> scalar_query t -> text_case t ->
  exists res stored d' s' row,
    run_once registry w (d, s) =
      (Ok {| run_claimed_job_id := Some id; run_execution_result := Some res;
             run_stored_result := Some stored |}, (d', s')) /\
    jobs d' !! id = Some (complete_job (claimed_job c) (durable_outcome (er_outcome res))
                            (utc_datetime (record_now w))) /\
    results d' !! record_id w = Some row /\ res_job_id row = id /\
    res_outcome row = durable_outcome (er_outcome res) /\
    res_failure_code row = failure_code_value <$> er_error_code res /\
    stored_result_from_record row = Ok stored.
Proof.
  intros id p Hst Htt Hss Hcf Hrf Hclaim Hfresh Hok Ho Hq Htc.
  destruct (claimed_tables _ _ _ _ Hss Hclaim) as (Hw1 & Hj & Hrun).
  assert (sound_change {[id]} d1 (meanwhile w d1)) as (Hw2 & _ & Al).
  { apply (ss_meanwhile _ _ _ Hss); [done|]. intros i ->%elem_of_singleton. by eexists. }
  destruct (execute_stores Hst registry c t cfg s Hok Ho Hq Htc Htt) as (res & s' & Hres & Hid & Hstor).
  destruct (storable_payload res Hstor) as (pl & Hpl & Hval & Htext & Hout & Hcode).
  destruct (record_completes (record_now w) (record_id w) id pl pl (record_others w)
    (meanwhile w d1) (claimed_job c)) as (stored & d' & row & Hrec & Hj' & Hrow & Hrj & Hro & Hrc & Hs);
    try done; [apply Hss|by rewrite Al; [|apply elem_of_singleton]|].
  exists res, stored, d', s', row. rewrite Hout in *. rewrite Hcode in Hrc. split; [|by split_and!].
  rewrite (run_once_claimed registry w d s c d1 Hcf Hclaim). unfold execute_claimed_job.
  erewrite io_step by (unfold on_environment; cbn [fst snd]; by rewrite Hres).
  erewrite io_step by (apply lift_run; unfold require_result_for_claim;
    rewrite bool_decide_eq_true_2 by exact Hid; reflexivity).
  erewrite io_step by (apply lift_run, Hpl). erewrite io_step by reflexivity.
  erewrite io_step by (unfold on_tables; cbn [fst snd]; fold id; rewrite Hrf, Hrec; reflexivity). done.
Qed.

(** What fails after the claim strands the job: when the executor raises,
    or its result cannot be converted, or the payload is refused, the run
    raises that error, and the tables are those the claim (and other
    sessions) left, where the job is RUNNING and its approval consumed. *)
Theorem run_once_strands registry w d s c d1 e s1 res :
  let id := job_id (claimed_job c) in
  sound_surroundings w d id -> claim_fault w = false ->
  claim_next false (claim_now w) (claim_locked_rows w) (claim_others w) (claim_others' w) d =
    (Ok (Some c), d1) ->
  (execute registry (Some c) s = (Raise e, s1) \/
   (execute registry (Some c) s = (Ok res, s1) /\ er_job_id res = Some id /\
    (execution_result_payload res = Raise e \/
     exists p, execution_result_payload res = Ok p /\ validate_payload p = Raise e))) ->
  exists d', run_once registry w (d, s) = (Raise e, (d', s1)) /\
    (d' = d1 \/ d' = meanwhile w d1) /\
    exists j, jobs d' !! id = Some j /\ job_state j = RUNNING /\ claimed d' j.
Proof.
  intros id Hss Hcf Hclaim Hfail. destruct (claimed_tables _ _ _ _ Hss Hclaim) as (Hw1 & Hj & Hrun).
  assert (sound_change {[id]} d1 (meanwhile w d1)) as (Hw2 & _ & Al).
  { apply (ss_meanwhile _ _ _ Hss); [done|]. intros i ->%elem_of_singleton. by eexists. }
  assert (forall d', wf_db d' -> jobs d' !! id = Some (claimed_job c) ->
    exists j, jobs d' !! id = Some j /\ job_state j = RUNNING /\ claimed d' j) as Hfinal.
  { intros d' Hd' Hj'. exists (claimed_job c). split; [done|]. split; [done|].
    by apply (wf_running _ Hd' id). }
  rewrite (run_once_claimed registry w d s c d1 Hcf Hclaim). unfold execute_claimed_job.
  destruct Hfail as [Hx|(Hx & Hid & Hp)].
  { exists d1. erewrite io_stop by (unfold on_environment; cbn [fst snd]; by rewrite Hx). eauto. }
  erewrite io_step by (unfold on_environment; cbn [fst snd]; by rewrite Hx).
  erewrite io_step by (apply lift_run; unfold require_result_for_claim;
    rewrite bool_decide_eq_true_2 by exact Hid; reflexivity).
  destruct Hp as [Hp|(p & Hp & Hv)].
  { exists d1. erewrite io_stop by (by apply lift_Raise). eauto. }
  exists (meanwhile w d1). erewrite io_step by (apply lift_run, Hp). erewrite io_step by reflexivity.
  erewrite io_stop.
  2:{ unfold on_tables, record. cbn [fst snd].
      erewrite io_stop; [|apply lift_Raise; split; [exact Hv|reflexivity]]. reflexivity. }
  split; [done|]. split; [by right|]. apply Hfinal; [done|]. by rewrite Al; [|apply elem_of_singleton].
Qed.
End worker.

(** ** Witnesses *)

(** A worker alone with the tables, at 5 and 6. *)
Definition sample_surroundings : surroundings := {|
  claim_fault := false; claim_now := utc 5; claim_locked_rows := ∅;
  claim_others _ d := d; claim_others' _ d := d; meanwhile d := d;
  record_fault := false; record_now := utc 6; record_id := 9; record_others d := d |}.

Lemma sample_surroundings_sound p id : approvable p ->
  sound_surroundings sample_surroundings (plan_queued_db p) id.
Proof.
  intros Hp. split; try (intros; intros d Hd _; by apply sound_refl).
  - by apply wf_plan_queued_db.
  - apply held_none.
Qed.

Lemma sample_text_case : text_case (sorted_case sample_case).
Proof.
  split.
  - reflexivity.
  - repeat constructor.
  - intros kvs [= <-]. split_and!; reflexivity.
  - repeat constructor; intros s [= <-]; reflexivity.
Qed.

Lemma created_text_transport :
  @text_transport _ unit (sample_environment (created created_body)).
Proof.
  intros rq s o s' r [= <- <-] Hr.
  assert (r = created_response created_body) as ->.
  { change (Some (created_response created_body) = Some r) in Hr. congruence. }
  split; [constructor|]. exists created_document. split; [exact created_parses|].
  intros v Hv. injection Hv as <-. split_and!; reflexivity.
Qed.

Lemma run_once_completes_witness : exists p out d' s',
  @run_once _ _ _ (sample_environment (created created_body)) DEFAULT_TARGET_REGISTRY
    sample_surroundings (plan_queued_db p, tt) = (Ok out, (d', s')).
Proof.
  destruct sample_plan as [p Hp]. destruct (claim_plan p Hp) as (d1 & H & Hr). exists p.
  pose proof Hp as [Hok _].
  destruct (@run_once_completes _ _ _ _ (sample_environment (created created_body))
    DEFAULT_TARGET_REGISTRY sample_surroundings (plan_queued_db p) tt (claimed_plan p) d1
    (sorted_case sample_case) sample_target (sample_steady _) created_text_transport
    (sample_surroundings_sound p _ Hp) eq_refl eq_refl H)
    as (res & stored & d' & s' & row & Hrun & _).
  - cbn. rewrite Hr. apply lookup_empty.
  - exact Hok.
  - exists (u "ai-qa-sandbox.onrender.com"). cbn. rewrite (po_base_url _ _ _ _ Hok).
    split; [reflexivity|]. split; [done|]. repeat constructor.
  - unfold scalar_query. repeat constructor.
  - exact sample_text_case.
  - eexists _, d', s'. exact Hrun.
Defined.

(** The target answers [["token","x"]]. *)
Lemma run_once_strands_witness : exists p e d' s',
  @run_once _ _ _ (@traced _ (sample_environment (created pair_body))) DEFAULT_TARGET_REGISTRY
    sample_surroundings (plan_queued_db p, (tt, [])) = (Raise e, (d', s')) /\
  exists j, jobs d' !! 4%N = Some j /\ job_state j = RUNNING.
Proof.
  destruct sample_run as (p & Hp & _ & Hexec). destruct (claim_plan p Hp) as (d1 & H & _). exists p.
  destruct (sample_result_parts pair_body pair_document) as (Hc & Hn & Ha & Hq & Hresp).
  destruct (payload_parts (sample_result pair_body pair_document) Hc (or_intror Hn) Ha) as (code & text & q & Hparts).
  { rewrite Hq. intros ev E. injection E as <-. exact sample_evidence_storable. }
  destruct (response_checked (evidence_with (created_response pair_body) pair_document))
    as (s & S1 & _ & S2); [constructor|apply digest_text|reflexivity|reflexivity|].
  rewrite <- Hresp in S1. destruct (Hparts _ S1) as (P1 & P2 & _). rewrite S2 in P2.
  match type of P2 with context [if ?b then _ else _] => change b with false in P2 end.
  cbn [fmap result_fmap raise] in P2.
  edestruct (@run_once_strands _ _ _ (@traced _ (sample_environment (created pair_body)))
    DEFAULT_TARGET_REGISTRY sample_surroundings (plan_queued_db p) (tt, []) (claimed_plan p) d1)
    as (d' & Hrun & _ & j & Hj & Hrj & _).
  - exact (sample_surroundings_sound p _ Hp).
  - reflexivity.
  - exact H.
  - right. split; [exact (Hexec pair_body pair_document ltac:(done) pair_parses)|]. split.
    + unfold sample_result, judged. by destruct (forallb _ _).
    + right. eexists. split; [exact P1|]. exact P2.
  - eexists _, d', _. split; [exact Hrun|]. exists j. split; [exact Hj|exact Hrj].
Defined.
