(* ===== verification/Decimal.v ===== *)
(** * Decimal arithmetic

    The [decimal] module as [evaluation_spend_control] uses it: finite numbers
    [coef * 10 ^ dexp] in the default context, that is 28 digits, half-even
    rounding, exponents up to 999999, [Overflow] trapped.  Operations give the
    value of the result; trailing zeros, which Python keeps track of for
    printing, are not modelled, nor are negative zeros and not-a-numbers. *)
From S2P Require Import Prelude PyText Json.

Record decimal := Dec { coef : Z; dexp : Z }.

Definition PREC : Z := 28.
Definition EMAX : Z := 999999.
Definition EMIN : Z := -999999.
Definition ETINY : Z := EMIN - PREC + 1.
Definition ETOP : Z := EMAX - PREC + 1.

(** [len(str(abs(z)))] *)
Fixpoint ndigits_aux (fuel : nat) (z : Z) : Z :=
  match fuel with
  | O => 1
  | S fuel => if z <? 10 then 1 else 1 + ndigits_aux fuel (z / 10)
  end.
Definition ndigits (z : Z) : Z := ndigits_aux (Z.to_nat (Z.log2 (Z.abs z))) (Z.abs z).

(** The integer nearest to [c / m], the even one of two. *)
Definition round_half_even (c m : Z) : Z :=
  let q := c / m in
  let r := c mod m in
  if (2 * r <? m) || ((2 * r =? m) && Z.even q) then q else q + 1.

Definition overflow {A} : result A := raise OtherException "decimal.Overflow".

(** [_fix]: rounding to the context. *)
Definition dec_fix (d : decimal) : result decimal :=
  if coef d =? 0 then Ok (Dec 0 (Z.min (Z.max (dexp d) ETINY) EMAX))
  else
    let exp_min := ndigits (coef d) + dexp d - PREC in
    raise_if (ETOP <? exp_min) OtherException "decimal.Overflow" ;;
    let exp_min := Z.max exp_min ETINY in
    if dexp d <? exp_min then
      let q := round_half_even (Z.abs (coef d)) (10 ^ (exp_min - dexp d)) in
      let '(q, exp_min) := if PREC <? ndigits q then (q / 10, exp_min + 1) else (q, exp_min) in
      raise_if (ETOP <? exp_min) OtherException "decimal.Overflow" ;;
      Ok (Dec (Z.sgn (coef d) * q) exp_min)
    else Ok d.

Definition dec_of_int (z : Z) : decimal := Dec z 0.

Definition dec_mul (a b : decimal) : result decimal :=
  dec_fix (Dec (coef a * coef b) (dexp a + dexp b)).

(** The coefficients of two numbers at their smaller exponent. *)
Definition aligned (a b : decimal) : Z * Z * Z :=
  let e := Z.min (dexp a) (dexp b) in
  (coef a * 10 ^ (dexp a - e), coef b * 10 ^ (dexp b - e), e).

Definition dec_add (a b : decimal) : result decimal :=
  let '(x, y, e) := aligned a b in dec_fix (Dec (x + y) e).

(** [a / b] of a number by a positive one: the quotient to 29 or 30 digits,
    sticky, then rounded. *)
Definition dec_div (a b : decimal) : result decimal :=
  if coef a =? 0 then dec_fix (Dec 0 (dexp a - dexp b))
  else
    let shift := ndigits (coef b) - ndigits (coef a) + PREC + 1 in
    let '(n, m) := if 0 <=? shift then (Z.abs (coef a) * 10 ^ shift, coef b)
                   else (Z.abs (coef a), coef b * 10 ^ (- shift)) in
    let c := n / m in
    let c := if negb (n mod m =? 0) && (c mod 5 =? 0) then c + 1 else c in
    dec_fix (Dec (Z.sgn (coef a) * c) (dexp a - dexp b - shift)).

Definition dec_lt (a b : decimal) : bool := let '(x, y, _) := aligned a b in x <? y.
Definition dec_eq (a b : decimal) : bool := let '(x, y, _) := aligned a b in x =? y.

(** [int(d.to_integral_value(rounding=ROUND_CEILING))] *)
Definition dec_ceil (d : decimal) : Z :=
  if 0 <=? dexp d then coef d * 10 ^ dexp d else - (- coef d / 10 ^ (- dexp d)).

(** [d == d.to_integral_value()], and [int(d)]. *)
Definition dec_integral (d : decimal) : bool :=
  (0 <=? dexp d) || (coef d mod 10 ^ (- dexp d) =? 0).
Definition dec_int (d : decimal) : Z :=
  if 0 <=? dexp d then coef d * 10 ^ dexp d else Z.quot (coef d) (10 ^ (- dexp d)).

(** ** Reading a number *)

Inductive decimal_text := Finite (d : decimal) | NotFinite.

Section reading.
Context {rt : PyRuntime}.

Definition is_decimal (c : N) : bool := match cp_decimal c with Some _ => true | None => false end.

Definition signed (s : pystr) : bool * pystr :=
  match s with
  | 45%N :: s => (true, s)
  | 43%N :: s => (false, s)
  | _ => (false, s)
  end.

(** The exponent part: nothing, or [e] and an integer. *)
Definition exponent_of (s : pystr) : option Z :=
  match s with
  | [] => Some 0
  | c :: s =>
      if bool_decide (c ∈ [101; 69]%N) then
        let '(neg, ds) := signed s in
        if isdecimal ds then
          Some (if neg : bool then - Z.of_N (int_of_decimal ds) else Z.of_N (int_of_decimal ds))
        else None
      else None
  end.

Definition special_number (s : pystr) : bool :=
  let s := str_lower s in
  bool_decide (s ∈ [u "inf"; u "infinity"]) ||
  (starts_with (u "nan") s && forallb is_decimal (drop 3 s)) ||
  (starts_with (u "snan") s && forallb is_decimal (drop 4 s)).

(** [Decimal(text)]; [None] is [InvalidOperation]. *)
Definition decimal_of_text (s : pystr) : option decimal_text :=
  let '(neg, s) := signed (filter (fun c => c <> 95%N) (strip s)) in
  let '(int, r) := span is_decimal s in
  let '(frac, r) := match r with 46%N :: r' => span is_decimal r' | _ => ([], r) end in
  if bool_decide (int = []) && bool_decide (frac = [])
  then if special_number s then Some NotFinite else None
  else
    e ← exponent_of r;
    let c := Z.of_N (int_of_decimal (int ++ frac)) in
    Some (Finite (Dec (if neg : bool then - c else c) (e - zlen frac))).
End reading.

(** ** Facts *)

Lemma ndigits_aux_bounds fuel z : 0 < z < 2 ^ (Z.of_nat fuel + 1) ->
  10 ^ (ndigits_aux fuel z - 1) <= z < 10 ^ ndigits_aux fuel z /\ 1 <= ndigits_aux fuel z.
Proof.
  revert z. induction fuel as [|fuel IH]; intros z Hz.
  - cbn in *. lia.
  - cbn [ndigits_aux]. destruct (Z.ltb_spec z 10) as [Hlt|Hge]; [cbn; lia|].
    assert (0 < z / 10) as Hpos by (apply Z.div_str_pos; lia).
    assert (z / 10 < 2 ^ (Z.of_nat fuel + 1)) as Hsmall.
    { apply Z.div_lt_upper_bound; [lia|].
      replace (Z.of_nat (Datatypes.S fuel) + 1) with (1 + (Z.of_nat fuel + 1)) in Hz by lia.
      rewrite Z.pow_add_r in Hz by lia. lia. }
    destruct (IH (z / 10) ltac:(lia)) as [[H1 H2] H3]. set (k := ndigits_aux fuel (z / 10)) in *.
    pose proof (Z.div_mod z 10 ltac:(lia)). pose proof (Z.mod_pos_bound z 10 ltac:(lia)).
    replace (1 + k - 1) with (1 + (k - 1)) by lia. rewrite !Z.pow_add_r by lia. lia.
Qed.

Lemma ndigits_bounds z : z <> 0 -> 10 ^ (ndigits z - 1) <= Z.abs z < 10 ^ ndigits z /\ 1 <= ndigits z.
Proof.
  intros Hz. apply ndigits_aux_bounds. rewrite Z2Nat.id by apply Z.log2_nonneg.
  pose proof (Z.log2_spec (Z.abs z) ltac:(lia)). lia.
Qed.

Lemma ndigits_le z k : 1 <= k -> Z.abs z < 10 ^ k -> ndigits z <= k.
Proof.
  intros Hk Hz. destruct (decide (z = 0)) as [->|Hne]; [done|].
  destruct (ndigits_bounds z Hne) as [[H _] _]. apply Z.le_ngt. intros Hlt.
  assert (10 ^ k <= 10 ^ (ndigits z - 1)) by (apply Z.pow_le_mono_r; lia). lia.
Qed.

(** A number of at most 28 digits is its own rounding. *)
Lemma dec_fix_exact c e : Z.abs c < 10 ^ PREC -> ETINY <= e <= ETOP ->
  dec_fix (Dec c e) = Ok (Dec c e).
Proof.
  intros Hc He. unfold dec_fix. cbn [coef dexp]. destruct (Z.eqb_spec c 0) as [->|Hne].
  - rewrite Z.max_l, Z.min_l by (unfold ETOP, EMAX, PREC in *; lia). done.
  - pose proof (ndigits_le c PREC ltac:(done) Hc).
    rewrite (proj2 (Z.ltb_ge ETOP _)) by lia. cbn [raise_if]. rewrite bind_ok. cbv zeta.
    by rewrite (proj2 (Z.ltb_ge e _)) by lia.
Qed.

Lemma round_half_even_near c m : 0 < m -> 0 <= c -> 2 * Z.abs (round_half_even c m * m - c) <= m.
Proof.
  intros Hm Hc. unfold round_half_even.
  pose proof (Z.div_mod c m ltac:(lia)). pose proof (Z.mod_pos_bound c m Hm).
  destruct (Z.ltb_spec (2 * (c mod m)) m); cbn [orb]; [lia|].
  destruct (Z.eqb_spec (2 * (c mod m)) m); cbn [andb]; [destruct (Z.even _)|]; lia.
Qed.

Lemma round_half_even_max c m b : 0 < m -> 0 <= c < b * m -> 0 <= round_half_even c m <= b.
Proof.
  intros Hm Hc. unfold round_half_even. assert (0 <= c / m) by (apply Z.div_pos; lia).
  assert (c / m < b) by (apply Z.div_lt_upper_bound; lia). destruct (_ || _); lia.
Qed.

(** Rounding a longer number: off by at most half a unit of the last digit. *)
Lemma dec_fix_rounds c e : 0 < c -> PREC < ndigits c ->
  ETINY <= ndigits c + e - PREC < ETOP ->
  exists r, dec_fix (Dec c e) = Ok r /\
    ndigits c - PREC <= dexp r - e <= ndigits c - PREC + 1 /\
    2 * Z.abs (coef r * 10 ^ (dexp r - e) - c) <= 10 ^ (ndigits c - PREC).
Proof.
  assert (PREC = 28) as HP by done.
  intros Hc Hn He. unfold dec_fix. cbn [coef dexp]. rewrite (proj2 (Z.eqb_neq c 0)) by lia.
  rewrite (proj2 (Z.ltb_ge ETOP _)) by lia. cbn [raise_if]. rewrite bind_ok. cbv zeta.
  rewrite Z.max_l by lia. rewrite (proj2 (Z.ltb_lt e _)) by lia.
  replace (ndigits c + e - PREC - e) with (ndigits c - PREC) by lia.
  rewrite Z.abs_eq, Z.sgn_pos by lia. set (m := 10 ^ (ndigits c - PREC)).
  assert (0 < m) as Hm by (apply Z.pow_pos_nonneg; lia).
  assert (c < 10 ^ PREC * m) as Hmax.
  { unfold m. rewrite <- Z.pow_add_r by lia. replace (PREC + (ndigits c - PREC)) with (ndigits c) by lia.
    destruct (ndigits_bounds c) as [[_ H] _]; lia. }
  pose proof (round_half_even_near c m Hm ltac:(lia)) as Hnear.
  pose proof (round_half_even_max c m (10 ^ PREC) Hm ltac:(lia)) as Hq.
  set (q := round_half_even c m) in *. destruct (Z.ltb_spec PREC (ndigits q)) as [Hlong|Hshort].
  - assert (q = 10 ^ PREC) as Eq.
    { apply Z.le_antisymm; [lia|]. apply Z.le_ngt. intros Hlt.
      pose proof (ndigits_le q PREC ltac:(done) ltac:(lia)). lia. }
    rewrite (proj2 (Z.ltb_ge ETOP _)) by lia. cbn [raise_if]. rewrite bind_ok. eexists. split; [done|].
    cbn [coef dexp]. split; [lia|].
    replace (ndigits c + e - PREC + 1 - e) with (ndigits c - PREC + 1) by lia.
    rewrite Z.pow_add_r by lia. fold m. change (10 ^ 1) with 10.
    assert (q / 10 * 10 = q) as E10 by (rewrite Eq; reflexivity).
    replace (1 * (q / 10) * (m * 10)) with (q / 10 * 10 * m) by lia. by rewrite E10.
  - rewrite (proj2 (Z.ltb_ge ETOP _)) by lia. cbn [raise_if]. rewrite bind_ok. eexists. split; [done|].
    cbn [coef dexp]. split; [lia|].
    replace (ndigits c + e - PREC - e) with (ndigits c - PREC) by lia. fold m.
    by replace (1 * q * m) with (q * m) by lia.
Qed.

Definition ceil_div (a b : Z) : Z := - (- a / b).

Lemma ceil_div_spec a b : 0 < b -> b * (ceil_div a b - 1) < a <= b * ceil_div a b.
Proof.
  intros Hb. unfold ceil_div. pose proof (Z.div_mod (- a) b ltac:(lia)).
  pose proof (Z.mod_pos_bound (- a) b Hb). lia.
Qed.

Lemma ceil_div_unique a b t : 0 < b -> b * (t - 1) < a <= b * t -> ceil_div a b = t.
Proof. intros Hb Ht. pose proof (ceil_div_spec a b Hb). nia. Qed.

(** The quotient before rounding. *)
Lemma sticky_quotient n m : 0 < m -> 0 <= n ->
  let c := n / m in
  let c' := if negb (n mod m =? 0) && (c mod 5 =? 0) then c + 1 else c in
  Z.abs (c' * m - n) <= m /\ c <= c' <= c + 1.
Proof.
  intros Hm Hn. cbv zeta. pose proof (Z.div_mod n m ltac:(lia)).
  pose proof (Z.mod_pos_bound n m Hm). destruct (_ && _); nia.
Qed.

(** The rounded quotient lies on the same side of every integer. *)
Lemma rounded_ceiling c N x g q c' :
  0 < c -> 10 <= 10 ^ g -> 0 <= g -> x + g <= 0 -> c <= 10 ^ (- (x + g)) ->
  Z.abs (c' * c - N * 10 ^ (- x)) <= c -> 2 * Z.abs (q * 10 ^ g - c') <= 10 ^ g ->
  dec_ceil (Dec q (x + g)) = ceil_div N c.
Proof.
  intros Hc HG Hg Hx HK Hd Hr. unfold dec_ceil. cbn [coef dexp].
  set (G := 10 ^ g) in *. set (K := 10 ^ (- (x + g))) in *.
  assert (10 ^ (- x) = K * G) as HM.
  { unfold K, G. rewrite <- Z.pow_add_r by lia. f_equal. lia. }
  rewrite HM in Hd. symmetry. apply ceil_div_unique; [done|].
  assert (0 < K) as HK0 by lia.
  pose proof (ceil_div_spec q K HK0) as Ht. set (t := ceil_div q K) in *.
  replace (if 0 <=? x + g then q * 10 ^ (x + g) else - (- q / K)) with t.
  2:{ destruct (Z.leb_spec 0 (x + g)) as [H0|H0]; [|done].
      unfold t, ceil_div, K. replace (x + g) with 0 by lia. cbn. rewrite Z.div_1_r. lia. }
  split.
  - apply Z.nle_gt. intros HN. assert (N * K * G <= c * (t - 1) * K * G) as H1 by nia.
    assert (2 * (q * G) * c <= 2 * (c * (t - 1) * K * G) + (G + 2) * c) as H2 by nia.
    assert (2 * (q * G) <= 2 * ((t - 1) * K * G) + (G + 2)) as H3 by nia.
    assert (K * (t - 1) + 1 <= q) as H4 by lia. nia.
  - apply Z.nlt_ge. intros HN. assert ((c * t + 1) * K * G <= N * K * G) as H1 by nia.
    assert (2 * ((c * t + 1) * K * G) - (G + 2) * c <= 2 * (q * G) * c) as H2 by nia.
    assert (c * G <= K * G) as H3 by nia.
    assert (2 * (q * G) * c <= 2 * (K * t * G) * c) as H4 by nia. nia.
Qed.

(** Dividing by a calibration of a few digits and rounding up gives the exact
    ceiling, in spite of the rounding of the quotient to 28 digits. *)
Lemma dec_div_ceil n c e : 0 <= n -> 0 < c < 10 ^ 20 -> -20 <= e <= 0 -> n * 10 ^ (- e) < 10 ^ 20 ->
  exists r, dec_div (dec_of_int n) (Dec c e) = Ok r /\ dec_ceil r = ceil_div (n * 10 ^ (- e)) c.
Proof.
  intros Hn Hc He HN. assert (PREC = 28) as HP by done. unfold dec_div, dec_of_int. cbn [coef dexp].
  destruct (Z.eqb_spec n 0) as [->|Hne].
  { eexists. split; [apply dec_fix_exact; [done|unfold ETINY, ETOP, EMIN, EMAX; lia]|].
    unfold dec_ceil. cbn [coef dexp]. rewrite (proj2 (Z.leb_le 0 (0 - e))) by lia.
    by rewrite !Z.mul_0_l. }
  destruct (ndigits_bounds n Hne) as [[Nlo Nhi] N1]. destruct (ndigits_bounds c ltac:(lia)) as [[Clo Chi] C1].
  rewrite Z.abs_eq in Nlo, Nhi, Clo, Chi by lia.
  assert (ndigits n - e <= 20) as Hne20.
  { apply Z.le_ngt. intros Hge. assert (10 ^ 20 <= 10 ^ (ndigits n - 1 + - e)) as H20
      by (apply Z.pow_le_mono_r; lia).
    rewrite Z.pow_add_r in H20 by lia. assert (0 < 10 ^ (- e)) by (apply Z.pow_pos_nonneg; lia). nia. }
  assert (ndigits c <= 20) as Hc20 by (apply ndigits_le; lia).
  set (a := ndigits n) in *. set (b := ndigits c) in *.
  set (shift := b - a + PREC + 1). rewrite (proj2 (Z.leb_le 0 shift)) by lia.
  cbv iota zeta. rewrite Z.sgn_pos, Z.mul_1_l, Z.abs_eq by lia.
  pose proof (sticky_quotient (n * 10 ^ shift) c) as Hq.
  set (c0 := n * 10 ^ shift / c) in *.
  set (c' := if negb (_ =? 0) && _ then c0 + 1 else c0) in *.
  assert (0 < 10 ^ shift) as Hs by (apply Z.pow_pos_nonneg; lia).
  destruct (Hq ltac:(lia) ltac:(nia)) as [Hnear Hc0']. clear Hq.
  assert (10 ^ 28 <= c0 < 10 ^ 30) as Hc0.
  { split.
    - apply Z.div_le_lower_bound; [lia|]. 
      assert (10 ^ (a - 1) * 10 ^ shift = 10 ^ 28 * 10 ^ b) as E
        by (rewrite <- !Z.pow_add_r by lia; f_equal; lia). nia.
    - apply Z.div_lt_upper_bound; [lia|].
      assert (10 ^ a * 10 ^ shift = 10 ^ 30 * 10 ^ (b - 1)) as E
        by (rewrite <- !Z.pow_add_r by lia; f_equal; lia). nia. }
  assert (28 < ndigits c' <= 31) as Hdig.
  { split; [|apply ndigits_le; lia]. apply Z.nle_gt. intros Hle.
    destruct (ndigits_bounds c' ltac:(lia)) as [[_ H] _].
    assert (10 ^ ndigits c' <= 10 ^ 28) by (apply Z.pow_le_mono_r; lia). lia. }
  destruct (dec_fix_rounds c' (0 - e - shift)) as (r & Hr & Hd & Herr);
    [lia|lia|unfold ETINY, ETOP, EMIN, EMAX; lia|].
  exists r. split; [exact Hr|]. destruct r as [q y]. cbn [coef dexp] in *.
  set (x := 0 - e - shift) in *. replace y with (x + (y - x)) by lia.
  apply (rounded_ceiling c (n * 10 ^ (- e)) x (y - x) q c'); try lia.
  - change 10 with (10 ^ 1) at 1. apply Z.pow_le_mono_r; lia.
  - assert (10 ^ b <= 10 ^ (- (x + (y - x)))) by (apply Z.pow_le_mono_r; lia). lia.
  - rewrite <- Z.mul_assoc, <- Z.pow_add_r by lia.
    replace (- e + - x) with shift by lia. exact Hnear.
  - assert (10 ^ (ndigits c' - PREC) <= 10 ^ (y - x)) by (apply Z.pow_le_mono_r; lia). lia.
Qed.
