(* ===== verification/SpendControl.v ===== *)
(** * Spend control ([evaluation_spend_control.py])

    Paid model calls, one at a time under a per-call and a per-run limit, with
    a ledger of what was charged.  A call is a computation over the state of
    [SpendControlledCalls] and of the provider: what the callbacks do is given
    by a [provider_call], among it how many other threads try to call while
    this one is busy.  A ledger record is kept as its fields; its JSON text,
    and the quotient of the two token counts that it also carries, rounded to
    four decimals, are not modelled.

    ** Properties

    No request is made that could exceed a limit, the ledger accounts for
    every charge, and a failure closes the controller for good. *)
From S2P Require Import Prelude PyText Json Digest Effects GeneratedTests Database Decimal AsciiRuntime.

Definition MICROUSD_PER_USD : Z := 1000000.
Definition TOKENS_PER_MILLION : Z := 1000000.
Definition BASE_LEDGER_FIELDS : list pystr :=
  [u "schema_version"; u "provider"; u "model_id"; u "configuration_version";
   u "prompt_version"; u "pricing_version"; u "call_index"; u "outcome"; u "failure";
   u "estimated_input_tokens"; u "actual_input_tokens"; u "output_tokens";
   u "calibration_ratio"; u "response_id"; u "worst_case_microusd"; u "charged_microusd";
   u "running_total_microusd"; u "max_call_microusd"; u "max_run_microusd";
   u "characters_per_token"; u "tolerance"].

(** [metrics.ProviderPricing] *)
Record ProviderPricing := {
  provider : pystr;
  pricing_model_id : pystr;
  pricing_version : pystr;
  source_reference : pystr;
  input_microusd_per_million_tokens : Z;
  output_microusd_per_million_tokens : Z;
}.

(** [model_gateway.ModelUsage] and [StructuredModelResponse] *)
Record ModelUsage := { input_tokens : Z; output_tokens : Z; total_tokens : Z }.
Record StructuredModelResponse := {
  correlation_id : uuid;
  response_id : pystr;
  response_model_id : pystr;
  output_json : list (pystr * json);
  usage : ModelUsage;
  response_configuration_version : pystr;
  response_provider : pystr;
}.

Abbreviation reject_spend_if c msg := (raise_if c SpendControlRejected msg).

Record SpendLimits := { max_call_microusd : Z; max_run_microusd : Z }.

(** [SpendLimits.__post_init__] *)
Definition limits_post_init (l : SpendLimits) : result unit :=
  reject_spend_if (max_call_microusd l <=? 0) "max_call_microusd must be a positive integer" ;;
  reject_spend_if (max_run_microusd l <=? 0) "max_run_microusd must be a positive integer" ;;
  reject_spend_if (max_run_microusd l <? max_call_microusd l)
    "The per-call limit cannot exceed the run limit".

Record Calibration := { characters_per_token : decimal; tolerance : decimal }.

(** [Calibration.__post_init__] *)
Definition calibration_post_init (c : Calibration) : result unit :=
  reject_spend_if ((coef (characters_per_token c) <=? 0) || (coef (tolerance c) <? 0))
    "Calibration values must be positive".

Record LedgerIdentity := {
  schema_version : pystr;
  ledger_provider : pystr;
  model_id : pystr;
  configuration_version : pystr;
  prompt_version : pystr;
  ledger_pricing_version : pystr;
}.

Definition estimate_input_tokens (characters : Z) (c : Calibration) : result Z :=
  dec_ceil <$> dec_div (dec_of_int characters) (characters_per_token c).

Definition cost_microusd (p : ProviderPricing) (input_tokens output_tokens : Z) : Z :=
  let numerator := input_tokens * input_microusd_per_million_tokens p +
                   output_tokens * output_microusd_per_million_tokens p in
  - (- numerator / TOKENS_PER_MILLION).

Definition exceeds_tolerance (estimated actual : Z) (c : Calibration) : result bool :=
  factor ← dec_add (dec_of_int 1) (tolerance c);
  allowed ← dec_mul (dec_of_int estimated) factor;
  Ok (dec_lt allowed (dec_of_int actual)).

(** ** The controller *)

(** The values [usage_details] may give a field. *)
Inductive detail := DNone | DInt (z : Z) | DOther.
Definition valid_detail (d : detail) : bool :=
  match d with DNone => true | DInt z => 0 <=? z | DOther => false end.

Record ledger_record := {
  lr_call_index : Z;
  lr_succeeded : bool;
  lr_failure : option pystr;
  lr_estimated_input_tokens : Z;
  lr_actual_input_tokens : option Z;
  lr_output_tokens : option Z;
  lr_response_id : option pystr;
  lr_worst_case_microusd : Z;
  lr_charged_microusd : Z;
  lr_running_total_microusd : Z;
  lr_details : list (pystr * option detail);
}.

(** The arguments of [SpendControlledCalls(...)] that it keeps. *)
Record controller := {
  identity : LedgerIdentity;
  pricing : ProviderPricing;
  worst_case_pricing : ProviderPricing;
  limits : SpendLimits;
  calibration : Calibration;
  output_token_cap : Z;
  extra_ledger_fields : list pystr;
  usage_details : option (StructuredModelResponse -> result (list (pystr * detail)));
}.

(** Its attributes that change, its ledger file, and the requests it made the
    provider receive: the total and the worst case at the time of each. *)
Record spend_state := {
  busy : bool;
  closed_reason : option pystr;
  call_count : Z;
  running_total_microusd : Z;
  ledger : list ledger_record;
  requests : list (Z * Z);
}.

(** The file [ledger_path] names. *)
Inductive ledger_file := Absent | Present | Unwritable.

(** [replace(pricing, input_microusd_per_million_tokens=rate)] *)
Definition with_input_rate (p : ProviderPricing) (rate : Z) : ProviderPricing := {|
  provider := provider p; pricing_model_id := pricing_model_id p;
  pricing_version := pricing_version p; source_reference := source_reference p;
  input_microusd_per_million_tokens := rate;
  output_microusd_per_million_tokens := output_microusd_per_million_tokens p |}.

(** [SpendControlledCalls.__init__] *)
Definition make_controller (id : LedgerIdentity) (p : ProviderPricing) (l : SpendLimits)
    (c : Calibration) (cap : Z) (file : ledger_file) (worst_case_rate : option Z)
    (extra : list pystr)
    (details : option (StructuredModelResponse -> result (list (pystr * detail)))) :
    result (controller * spend_state) :=
  reject_spend_if (cap <=? 0) "output_token_cap must be positive" ;;
  reject_spend_if
    match worst_case_rate with
    | Some rate => rate <? input_microusd_per_million_tokens p
    | None => false
    end "The worst-case input rate must be an integer not below the input rate" ;;
  reject_spend_if (negb (eqb (is_null details) (bool_decide (extra = []))))
    "extra_ledger_fields and usage_details must be set together" ;;
  reject_spend_if (negb (no_repeats extra) ||
                   existsb (fun f => bool_decide (f ∈ BASE_LEDGER_FIELDS)) extra)
    "extra_ledger_fields must be unique and must not replace ledger fields" ;;
  reject_spend_if match file with Present => true | _ => false end
    "Call ledger already exists; choose a new ledger path" ;;
  reject_spend_if match file with Unwritable => true | _ => false end
    "Call ledger could not be created" ;;
  Ok ({| identity := id; pricing := p;
         worst_case_pricing := match worst_case_rate with
                               | Some rate => with_input_rate p rate
                               | None => p
                               end;
         limits := l; calibration := c; output_token_cap := cap;
         extra_ledger_fields := extra; usage_details := details |},
      {| busy := false; closed_reason := None; call_count := 0; running_total_microusd := 0;
         ledger := []; requests := [] |}).

(** ** One call *)

(** What [invoke] does: it returns, or raises an [Exception] of a class of
    that name, or is interrupted by an exception that is none. *)
Inductive provider_outcome :=
  | Returned (response : StructuredModelResponse)
  | Failed (class_name : pystr)
  | Interrupted.

Record provider_call := {
  estimated_characters : Z;
  invoke : provider_outcome;
  overlaps : nat;                                (* calls of other threads meanwhile *)
  validate : StructuredModelResponse -> bool;    (* whether it accepts the output *)
  overlaps' : nat;                               (* calls of other threads meanwhile *)
  ledger_writable : bool;
}.

Definition modify (f : spend_state -> spend_state) : io spend_state unit := fun s => (Ok tt, f s).

Definition set_busy (b : bool) (s : spend_state) : spend_state := {|
  busy := b; closed_reason := closed_reason s; call_count := call_count s;
  running_total_microusd := running_total_microusd s; ledger := ledger s; requests := requests s |}.
Definition set_closed (reason : pystr) (s : spend_state) : spend_state := {|
  busy := busy s; closed_reason := Some reason; call_count := call_count s;
  running_total_microusd := running_total_microusd s; ledger := ledger s; requests := requests s |}.
Definition count_call (s : spend_state) : spend_state := {|
  busy := busy s; closed_reason := closed_reason s; call_count := call_count s + 1;
  running_total_microusd := running_total_microusd s; ledger := ledger s; requests := requests s |}.
Definition add_charge (charged : Z) (s : spend_state) : spend_state := {|
  busy := busy s; closed_reason := closed_reason s; call_count := call_count s;
  running_total_microusd := running_total_microusd s + charged; ledger := ledger s;
  requests := requests s |}.
Definition append_ledger (r : ledger_record) (s : spend_state) : spend_state := {|
  busy := busy s; closed_reason := closed_reason s; call_count := call_count s;
  running_total_microusd := running_total_microusd s; ledger := ledger s ++ [r];
  requests := requests s |}.
Definition log_request (worst_case : Z) (s : spend_state) : spend_state := {|
  busy := busy s; closed_reason := closed_reason s; call_count := call_count s;
  running_total_microusd := running_total_microusd s; ledger := ledger s;
  requests := requests s ++ [(running_total_microusd s, worst_case)] |}.

(** The keys of [entry] so far. *)
Record ledger_entry := {
  en_call_index : Z;
  en_estimated_input_tokens : Z;
  en_worst_case_microusd : Z;
  en_response : option StructuredModelResponse;
  en_details : list (pystr * detail);
}.

Section calls.
Context (k : controller).

(** [_write_ledger] *)
Definition write_ledger (e : ledger_entry) (succeeded : bool) (charged : Z)
    (failure : option pystr) (writable : bool) : io spend_state unit :=
  if writable then
    modify (fun s => append_ledger {|
      lr_call_index := en_call_index e; lr_succeeded := succeeded; lr_failure := failure;
      lr_estimated_input_tokens := en_estimated_input_tokens e;
      lr_actual_input_tokens := (fun r => input_tokens (usage r)) <$> en_response e;
      lr_output_tokens := (fun r => output_tokens (usage r)) <$> en_response e;
      lr_response_id := response_id <$> en_response e;
      lr_worst_case_microusd := en_worst_case_microusd e; lr_charged_microusd := charged;
      lr_running_total_microusd := running_total_microusd s;
      lr_details := (fun name => (name, snd <$> List.find (fun d => str_eqb d.1 name)
                                            (en_details e))) <$> extra_ledger_fields k |} s)
  else io_raise OSError "".

(** [_fail] *)
Definition fail {A} (e : ledger_entry) (reason : pystr) (charged : Z) (writable : bool) :
    io spend_state A :=
  modify (set_closed reason) ;;
  modify (add_charge charged) ;;
  write_ledger e false charged (Some reason) writable ;;
  io_raise SpendControlRejected "Evaluation call failed closed".
(** [usage_details]: the checked extra fields, or [None] when they are invalid. *)
Definition checked_details (response : StructuredModelResponse) :
    option (list (pystr * detail)) :=
  match usage_details k with
  | None => Some []
  | Some f =>
      match f response with
      | Raise _ => None
      | Ok details =>
          if forallb (fun d => bool_decide (d.1 ∈ extra_ledger_fields k)) details &&
             forallb (fun name => bool_decide (name ∈ fst <$> details)) (extra_ledger_fields k) &&
             forallb (fun d => valid_detail d.2) details
          then Some details else None
      end
  end.

(** [run] of a thread that finds the lock taken. *)
Definition overlapping_call : io spend_state StructuredModelResponse :=
  modify (set_closed (u "concurrent_call")) ;;
  io_raise SpendControlRejected "Evaluation requires max_concurrency 1".
Definition other_threads (n : nat) : io spend_state unit :=
  modify (Nat.iter n (fun s => (overlapping_call s).2)).

(** [_run_one], after [invoke] returned. *)
Definition settle_call (c : provider_call) (e : ledger_entry) (response : StructuredModelResponse) :
    io spend_state StructuredModelResponse :=
  let charged := cost_microusd (pricing k) (input_tokens (usage response))
                   (output_tokens (usage response)) in
  let e := {| en_call_index := en_call_index e;
              en_estimated_input_tokens := en_estimated_input_tokens e;
              en_worst_case_microusd := en_worst_case_microusd e;
              en_response := Some response; en_details := [] |} in
  match checked_details response with
  | None => fail e (u "invalid_usage_details") charged (ledger_writable c)
  | Some details =>
      let e := {| en_call_index := en_call_index e;
                  en_estimated_input_tokens := en_estimated_input_tokens e;
                  en_worst_case_microusd := en_worst_case_microusd e;
                  en_response := Some response; en_details := details |} in
      total ← (fun s => (Ok (running_total_microusd s), s));
      if max_run_microusd (limits k) <? total + charged
      then fail e (u "run_limit_exceeded_after_call") charged (ledger_writable c)
      else
        exceeded ← lift (exceeds_tolerance (en_estimated_input_tokens e)
                           (input_tokens (usage response)) (calibration k));
        if exceeded : bool
        then fail e (u "input_token_estimate_exceeded") charged (ledger_writable c)
        else
          other_threads (overlaps' c) ;;
          if negb (validate c response)
          then fail e (u "invalid_output") charged (ledger_writable c)
          else
            modify (add_charge charged) ;;
            write_ledger e true charged None (ledger_writable c) ;;
            mret response
  end.

(** [_run_one] *)
Definition run_one (c : provider_call) : io spend_state StructuredModelResponse :=
  closed ← (fun s => (Ok (closed_reason s), s));
  match closed with
  | Some _ => io_raise SpendControlRejected "Model is closed after an earlier failure"
  | None =>
      modify count_call ;;
      index ← (fun s => (Ok (call_count s), s));
      estimated ← lift (estimate_input_tokens (estimated_characters c) (calibration k));
      let worst_case := cost_microusd (worst_case_pricing k) estimated (output_token_cap k) in
      let e := {| en_call_index := index; en_estimated_input_tokens := estimated;
                  en_worst_case_microusd := worst_case; en_response := None; en_details := [] |} in
      if max_call_microusd (limits k) <? worst_case
      then fail e (u "worst_case_exceeds_call_limit") 0 (ledger_writable c)
      else
        total ← (fun s => (Ok (running_total_microusd s), s));
        if max_run_microusd (limits k) <? total + worst_case
        then fail e (u "worst_case_exceeds_remaining_run_budget") 0 (ledger_writable c)
        else
          modify (log_request worst_case) ;;
          other_threads (overlaps c) ;;
          match invoke c with
          | Interrupted => io_raise OtherException "KeyboardInterrupt"
          | Failed name =>
              fail e (u "provider_call_failed:" ++ name) worst_case (ledger_writable c)
          | Returned response => settle_call c e response
          end
  end.

(** [run]: the lock is released whatever happens. *)
Definition run (c : provider_call) : io spend_state StructuredModelResponse := fun s =>
  if busy s then overlapping_call s
  else let '(r, s) := run_one c (set_busy true s) in (r, set_busy false s).

(** The state after a sequence of calls. *)
Definition run_calls (cs : list provider_call) (s : spend_state) : spend_state :=
  foldl (fun s c => (run c s).2) s cs.
End calls.

(** ** Settings *)

Section settings.
Context {rt : PyRuntime}.

Definition required_setting (environment : list (pystr * pystr)) (name : pystr) : result pystr :=
  let value := strip (default [] (dict_get name environment)) in
  reject_spend_if (bool_decide (value = [])) "must be set for evaluation" ;;
  Ok value.

Definition usd_setting_to_microusd (environment : list (pystr * pystr)) (name : pystr) : result Z :=
  text ← required_setting environment name;
  amount ← or_raise (decimal_of_text text) (Exn SpendControlRejected "must be a USD amount");
  amount ← match amount with
           | Finite d =>
               reject_spend_if (coef d <=? 0) "must be a positive USD amount" ;; Ok d
           | NotFinite => raise SpendControlRejected "must be a positive USD amount"
           end;
  microusd ← dec_mul amount (dec_of_int MICROUSD_PER_USD);
  reject_spend_if (negb (dec_integral microusd)) "must not be finer than one micro-USD" ;;
  Ok (dec_int microusd).
End settings.

(** * Properties *)

(** ** What a call does *)

Section effects.
Context (k : controller).

Definition run_limit : Z := max_run_microusd (limits k).
Definition response_cost (r : StructuredModelResponse) : Z :=
  cost_microusd (pricing k) (input_tokens (usage r)) (output_tokens (usage r)).

(** What was charged for a request whose worst case was [worst]. *)
Definition charge_of (c : provider_call) (worst charged : Z) : Prop :=
  match invoke c with
  | Returned r => charged = response_cost r \/ charged = 0
  | Failed _ => charged = worst
  | Interrupted => charged = 0
  end.

(** The estimate and the tolerance check do not leave the range of [Decimal]. *)
Definition computable (c : provider_call) : Prop :=
  exists est, estimate_input_tokens (estimated_characters c) (calibration k) = Ok est /\
  forall r, invoke c = Returned r ->
    exists b, exceeds_tolerance est (input_tokens (usage r)) (calibration k) = Ok b.

(** A call on an open controller, from the state [s]: whether a request was
    made, what was charged, and what the ledger says of it. *)
Record call_effect (s : spend_state) (c : provider_call)
    (r : result StructuredModelResponse) (s' : spend_state) : Prop := {
  ce_busy : busy s' = false;
  ce_count : call_count s' = call_count s + 1;
  ce_charge : exists worst charged,
    running_total_microusd s' = running_total_microusd s + charged /\
    (requests s' = requests s /\ charged = 0 \/
     requests s' = requests s ++ [(running_total_microusd s, worst)] /\
     worst <= max_call_microusd (limits k) /\ running_total_microusd s + worst <= run_limit /\
     (exists est, estimate_input_tokens (estimated_characters c) (calibration k) = Ok est /\
        worst = cost_microusd (worst_case_pricing k) est (output_token_cap k)) /\
     charge_of c worst charged) /\
    (ledger s' = ledger s \/ exists rec, ledger s' = ledger s ++ [rec] /\
       lr_charged_microusd rec = charged /\ lr_call_index rec = call_count s' /\
       lr_running_total_microusd rec = running_total_microusd s');
  ce_open : closed_reason s' = None -> running_total_microusd s' <= run_limit \/
    running_total_microusd s' = running_total_microusd s;
  ce_unlogged : ledger s' = ledger s ->
    ledger_writable c = false \/ invoke c = Interrupted \/ ~ computable c;
  ce_logged : (exists resp, r = Ok resp) \/ (exists msg, r = raise SpendControlRejected msg) ->
    ledger s' <> ledger s;
  ce_result : match r with
    | Ok resp => invoke c = Returned resp /\
        running_total_microusd s' = running_total_microusd s + response_cost resp /\
        running_total_microusd s' <= run_limit
    | Raise e => exn_cls e = SpendControlRejected -> closed_reason s' <> None
    end;
}.

Lemma io_modify {A} (f : spend_state -> spend_state) (m : io spend_state A) s :
  (modify f ;; m) s = m (f s).
Proof. done. Qed.

Lemma other_threads_keep n s : exists s1,
  Nat.iter n (fun s => (overlapping_call s).2) s = s1 /\
  busy s1 = busy s /\ call_count s1 = call_count s /\
  running_total_microusd s1 = running_total_microusd s /\ ledger s1 = ledger s /\
  requests s1 = requests s /\ (closed_reason s1 = None -> n = 0%nat /\ s1 = s).
Proof.
  eexists. split; [done|]. induction n as [|n IH]; [done|]. cbn [Nat.iter nat_rect].
  destruct IH as (H1 & H2 & H3 & H4 & H5 & _). by split_and!.
Qed.

Definition failed_record (e : ledger_entry) (reason : pystr) (charged total : Z) : ledger_record := {|
  lr_call_index := en_call_index e; lr_succeeded := false; lr_failure := Some reason;
  lr_estimated_input_tokens := en_estimated_input_tokens e;
  lr_actual_input_tokens := (fun r => input_tokens (usage r)) <$> en_response e;
  lr_output_tokens := (fun r => output_tokens (usage r)) <$> en_response e;
  lr_response_id := response_id <$> en_response e;
  lr_worst_case_microusd := en_worst_case_microusd e; lr_charged_microusd := charged;
  lr_running_total_microusd := total;
  lr_details := (fun name => (name, snd <$> List.find (fun d => str_eqb d.1 name)
                                        (en_details e))) <$> extra_ledger_fields k |}.

Lemma fail_run {A} e reason charged w s : exists (r : result A) s',
  fail k e reason charged w s = (r, s') /\ busy s' = busy s /\ call_count s' = call_count s /\
  running_total_microusd s' = running_total_microusd s + charged /\ requests s' = requests s /\
  closed_reason s' <> None /\ (forall a, r <> Ok a) /\
  if w then ledger s' = ledger s ++ [failed_record e reason charged (running_total_microusd s')]
  else ledger s' = ledger s /\ forall e, r = Raise e -> exn_cls e = OSError.
Proof.
  destruct w; eexists _, _; (split; [reflexivity|]); cbn; split_and!; try done. by intros e0 [= <-].
Qed.
(** The state in the middle of a call, with or without its request. *)
Record midcall (s s1 : spend_state) (reqs : list (Z * Z)) : Prop := {
  mc_count : call_count s1 = call_count s + 1;
  mc_total : running_total_microusd s1 = running_total_microusd s;
  mc_ledger : ledger s1 = ledger s;
  mc_requests : requests s1 = reqs;
}.

Definition request_ok (s : spend_state) (c : provider_call) (worst : Z) : Prop :=
  worst <= max_call_microusd (limits k) /\ running_total_microusd s + worst <= run_limit /\
  exists est, estimate_input_tokens (estimated_characters c) (calibration k) = Ok est /\
    worst = cost_microusd (worst_case_pricing k) est (output_token_cap k).

(** The charge of a call, by whether it made its request. *)
Definition charged_for (s : spend_state) (c : provider_call) (reqs : list (Z * Z)) (charged : Z) : Prop :=
  reqs = requests s /\ charged = 0 \/
  exists worst, reqs = requests s ++ [(running_total_microusd s, worst)] /\ request_ok s c worst /\
    charge_of c worst charged.

Lemma fail_effect s c s1 reqs e reason charged r s2 :
  midcall s s1 reqs -> charged_for s c reqs charged -> en_call_index e = call_count s + 1 ->
  fail k e reason charged (ledger_writable c) s1 = (r, s2) ->
  call_effect s c r (set_busy false s2).
Proof.
  intros [Hc Ht Hl Hr] Hch He H.
  set (w := ledger_writable c) in *.
  destruct (fail_run (A := StructuredModelResponse) e reason charged w s1)
    as (r' & s' & Hf & Hb & Hc' & Ht' & Hr' & Hcl & Hok & Hw).
  rewrite Hf in H. injection H as <- <-. split; cbn.
  - done.
  - congruence.
  - destruct Hch as [[-> ->]|(worst & -> & (H1 & H2 & H3) & Hcharge)].
    + exists 0, 0. split; [lia|]. split; [left; split; congruence|].
      destruct w; [right|left; destruct Hw; congruence]. eexists. split; [rewrite Hw, Hl; done|].
      cbn. split_and!; congruence.
    + exists worst, charged. split; [lia|]. split; [right; split_and!; try done; congruence|].
      destruct w; [right|left; destruct Hw; congruence]. eexists. split; [rewrite Hw, Hl; done|].
      cbn. split_and!; congruence.
  - done.
  - intros E. destruct w eqn:Ew; [exfalso|by left]. rewrite Hw, Hl in E.
    apply (f_equal length) in E. rewrite length_app in E. cbn in E. lia.
  - intros Hex. destruct w.
    + rewrite Hw, Hl. intros E. apply (f_equal length) in E. rewrite length_app in E. cbn in E. lia.
    + destruct Hex as [[a ->]|[msg ->]]; [by destruct (Hok a)|].
      destruct Hw as [_ Hw]. by specialize (Hw _ eq_refl).
  - destruct r' as [a|e']; [by destruct (Hok a)|]. done.
Qed.

(** The rest of the call is [_fail]. *)
Ltac call_fails :=
  match goal with H : fail _ _ _ _ _ _ = _ |- _ =>
    eapply fail_effect; [eassumption|eassumption| |exact H]; done end.

(** A call that ends without a ledger record. *)
Lemma silent_effect s c s1 reqs e :
  invoke c = Interrupted \/ ~ computable c -> midcall s s1 reqs -> charged_for s c reqs 0 ->
  exn_cls e <> SpendControlRejected -> call_effect s c (Raise e) (set_busy false s1).
Proof.
  intros Hwhy [Hc Ht Hl Hr] Hch He. split; cbn; try done.
  - destruct Hch as [[-> _]|(worst & -> & (H1 & H2 & H3) & Hcharge)].
    + exists 0, 0. split; [lia|]. split; [left; split; congruence|by left].
    + exists worst, 0. split; [lia|]. split; [right; split_and!; try done; congruence|by left].
  - intros _. by right.
  - intros _. by right.
  - intros [[a [=]]|[msg [= ->]]]. done.
Qed.

Lemma dec_fix_raises d : raises (fun c => c = OtherException) (dec_fix d).
Proof. unfold dec_fix. cbv zeta. repeat raises_step. Qed.

Lemma estimate_raises n c : raises (fun c => c = OtherException) (estimate_input_tokens n c).
Proof.
  unfold estimate_input_tokens, dec_div. apply raises_fmap. destruct (_ =? 0); [apply dec_fix_raises|].
  cbv zeta. destruct (0 <=? _); apply dec_fix_raises.
Qed.

Lemma exceeds_raises a b c : raises (fun c => c = OtherException) (exceeds_tolerance a b c).
Proof.
  unfold exceeds_tolerance, dec_add, dec_mul. destruct (aligned _ _) as [[x y] z].
  apply raises_bind; [apply dec_fix_raises|]. intros f _.
  apply raises_bind; [apply dec_fix_raises|]. intros ? _. apply raises_Ok.
Qed.

Lemma settle_effect s c s1 reqs e resp worst r s2 :
  midcall s s1 reqs -> reqs = requests s ++ [(running_total_microusd s, worst)] ->
  request_ok s c worst -> invoke c = Returned resp -> en_call_index e = call_count s + 1 ->
  estimate_input_tokens (estimated_characters c) (calibration k) =
    Ok (en_estimated_input_tokens e) ->
  settle_call k c e resp s1 = (r, s2) -> call_effect s c r (set_busy false s2).
Proof.
  intros Hm Hreqs Hok Hinv He Hest H.
  assert (forall charged, charged = response_cost resp \/ charged = 0 -> charged_for s c reqs charged) as Hch.
  { intros charged Hcc. right. exists worst. split_and!; try done. unfold charge_of. by rewrite Hinv. }
  assert (charged_for s c reqs (response_cost resp)) as Hcost by (apply Hch; by left).
  unfold settle_call in H. fold (response_cost resp) in H.
  destruct (checked_details k resp) as [details|]; [|call_fails].
  rewrite io_bind_eq in H. destruct (Z.ltb_spec (max_run_microusd (limits k))
    (running_total_microusd s1 + response_cost resp)) as [Hover|Hfits]; [call_fails|].
  rewrite io_bind_eq in H. unfold lift in H.
  pose proof (exceeds_raises (en_estimated_input_tokens e) (input_tokens (usage resp)) (calibration k)) as Hx.
  cbn [en_estimated_input_tokens] in H.
  destruct (exceeds_tolerance _ _ _) as [b|ex] eqn:Hexc.
  2:{ injection H as <- <-. eapply silent_effect; [|exact Hm|apply Hch; by right|].
      - right. intros (est & Hest' & Hcomp). destruct (Hcomp resp Hinv) as [b Hb]. congruence.
      - rewrite (Hx ex eq_refl). done. }
  destruct b; [call_fails|].
  rewrite io_bind_eq in H. unfold other_threads, modify in H.
  destruct (other_threads_keep (overlaps' c) s1) as (s1' & Hs1 & Hb & Hc & Ht & Hl & Hr & _).
  rewrite Hs1 in H. destruct Hm as [Mc Mt Ml Mr].
  assert (midcall s s1' reqs) as Hm' by (split; congruence).
  destruct (negb (validate c resp)); [call_fails|].
  rewrite !io_bind_eq in H. unfold write_ledger in H. destruct (ledger_writable c) eqn:Ew.
  - injection H as <- <-. split; cbn; try done.
    + congruence.
    + exists worst, (response_cost resp). split; [congruence|]. split.
      * right. destruct Hok as (H1 & H2 & H3). split_and!; try done; [congruence|].
        unfold charge_of. rewrite Hinv. by left.
      * right. eexists. split; [by rewrite Hl, Ml|]. cbn. split_and!; congruence.
    + intros _. left. unfold run_limit. lia.
    + intros E. exfalso. rewrite Hl, Ml in E. apply (f_equal length) in E.
      rewrite length_app in E. cbn in E. lia.
    + intros _ E. rewrite Hl, Ml in E. apply (f_equal length) in E. rewrite length_app in E. cbn in E. lia.
    + split_and!; try done; [lia|]. unfold run_limit. lia.
  - injection H as <- <-. split; cbn; try done.
    + congruence.
    + exists worst, (response_cost resp). split; [congruence|]. split.
      * right. destruct Hok as (H1 & H2 & H3). split_and!; try done; [congruence|].
        unfold charge_of. rewrite Hinv. by left.
      * left. congruence.
    + intros _. left. unfold run_limit. lia.
    + intros _. by left.
    + by intros [[a [=]]|[msg [=]]].
Qed.

Lemma run_open s c r s' : busy s = false -> closed_reason s = None -> run k c s = (r, s') ->
  call_effect s c r s'.
Proof.
  intros Hb Hcl H. unfold run in H. rewrite Hb in H. destruct (run_one k c (set_busy true s)) as [r1 s1] eqn:R.
  injection H as <- <-. unfold run_one in R. rewrite io_bind_eq in R. cbn [set_busy closed_reason] in R.
  rewrite Hcl in R. rewrite io_bind_eq in R. unfold modify at 1 in R. rewrite io_bind_eq in R.
  rewrite io_bind_eq in R. unfold lift in R. pose proof (estimate_raises (estimated_characters c) (calibration k)) as Hx.
  set (s0 := count_call _) in R.
  assert (midcall s s0 (requests s)) as Hm by done.
  assert (charged_for s c (requests s) 0) as Hnone by by left.
  destruct (estimate_input_tokens _ _) as [est|ex] eqn:Hest.
  2:{ injection R as <- <-. eapply silent_effect; [|exact Hm|done|].
      - right. intros (est & Hest' & _). congruence.
      - rewrite (Hx ex eq_refl). done. }
  set (worst := cost_microusd (worst_case_pricing k) est (output_token_cap k)) in R.
  cbv zeta in R.
  destruct (Z.ltb_spec (max_call_microusd (limits k)) worst) as [Hover|Hcall]; [call_fails|].
  rewrite io_bind_eq in R. destruct (Z.ltb_spec (max_run_microusd (limits k))
    (running_total_microusd s0 + worst)) as [Hover|Hrun]; [call_fails|].
  rewrite io_bind_eq in R. unfold modify at 1 in R. rewrite io_bind_eq in R. unfold other_threads, modify in R.
  destruct (other_threads_keep (overlaps c) (log_request worst s0)) as (s2 & Hs2 & _ & Hc & Ht & Hl & Hr & _).
  rewrite Hs2 in R. set (reqs := requests s ++ [(running_total_microusd s, worst)]).
  assert (midcall s s2 reqs) as Hm2 by (split; rewrite ?Hc, ?Ht, ?Hl, ?Hr; done).
  assert (request_ok s c worst) as Hreq by (split_and!; [done|done|by exists est]).
  destruct (invoke c) as [resp|name|] eqn:Hinv.
  - by eapply settle_effect; [exact Hm2|reflexivity|exact Hreq|exact Hinv| | |exact R]; cbn.
  - eapply fail_effect; [exact Hm2| | |exact R]; [|done]. right. exists worst. split_and!; try done.
    unfold charge_of. by rewrite Hinv.
  - injection R as <- <-. eapply silent_effect; [by left|exact Hm2| |done]. right. exists worst.
    split_and!; try done. unfold charge_of. by rewrite Hinv.
Qed.

Lemma run_closed s c reason : busy s = false -> closed_reason s = Some reason ->
  exists msg, run k c s = (raise SpendControlRejected msg, s).
Proof.
  intros Hb Hc. exists "Model is closed after an earlier failure"%string. unfold run. rewrite Hb.
  unfold run_one. rewrite io_bind_eq. cbn [set_busy closed_reason]. rewrite Hc.
  unfold io_raise, lift. destruct s; cbn in *. by subst.
Qed.
End effects.

(** ** Costs *)

Section costs.
Implicit Types (p : ProviderPricing).

Lemma cost_ceil p i o : cost_microusd p i o =
  ceil_div (i * input_microusd_per_million_tokens p + o * output_microusd_per_million_tokens p)
    TOKENS_PER_MILLION.
Proof. done. Qed.

Lemma ceil_div_mono a b m : 0 < m -> a <= b -> ceil_div a m <= ceil_div b m.
Proof.
  intros Hm Hab. unfold ceil_div. assert (- b / m <= - a / m) by (apply Z.div_le_mono; lia). lia.
Qed.

(** The worst case covers what a response within the estimate costs. *)
Lemma cost_mono p q i o i' o' :
  0 <= input_microusd_per_million_tokens p <= input_microusd_per_million_tokens q ->
  0 <= output_microusd_per_million_tokens p ->
  output_microusd_per_million_tokens p = output_microusd_per_million_tokens q ->
  0 <= i <= i' -> 0 <= o <= o' -> cost_microusd p i o <= cost_microusd q i' o'.
Proof. intros Hin Ho He Hi Hoo. rewrite !cost_ceil. apply ceil_div_mono; [done|]. nia. Qed.
End costs.

(** ** Sequences of calls *)

(** Prices are not negative, and the worst-case rate is none below the input
    rate: what [ProviderPricing] and the constructor check. *)
Record well_priced (k : controller) : Prop := {
  wp_input : 0 <= input_microusd_per_million_tokens (pricing k)
             <= input_microusd_per_million_tokens (worst_case_pricing k);
  wp_output : 0 <= output_microusd_per_million_tokens (pricing k);
  wp_same : output_microusd_per_million_tokens (pricing k) =
            output_microusd_per_million_tokens (worst_case_pricing k);
  wp_limit : 0 < run_limit k;
}.

Lemma make_controller_priced id p l c cap file rate extra details k s :
  limits_post_init l = Ok tt ->
  0 <= input_microusd_per_million_tokens p -> 0 <= output_microusd_per_million_tokens p ->
  make_controller id p l c cap file rate extra details = Ok (k, s) ->
  well_priced k /\ busy s = false /\ closed_reason s = None /\ call_count s = 0 /\
  running_total_microusd s = 0 /\ ledger s = [] /\ requests s = [].
Proof.
  intros Hl Hi Ho H. unfold make_controller in H. unfold limits_post_init in Hl. ok_inv. bools.
  split; [|done]. split; cbn; try done.
  all: destruct rate as [r0|]; cbn; try done; bools; lia.
Qed.

(** A response within the estimate of its call and the cap on its output. *)
Definition within_estimate (k : controller) (c : provider_call) : Prop :=
  forall r est, invoke c = Returned r ->
    estimate_input_tokens (estimated_characters c) (calibration k) = Ok est ->
    0 <= input_tokens (usage r) <= est /\ 0 <= output_tokens (usage r) <= output_token_cap k.

Section sequences.
Context (k : controller) (Hk : well_priced k).

Lemma charge_within c worst charged :
  within_estimate k c ->
  (exists est, estimate_input_tokens (estimated_characters c) (calibration k) = Ok est /\
     worst = cost_microusd (worst_case_pricing k) est (output_token_cap k)) ->
  charge_of k c worst charged -> charged <= worst \/ charged = 0.
Proof.
  intros Hw (est & He & ->) Hc. unfold charge_of in Hc. destruct (invoke c) as [r|name|] eqn:Hi; [|lia..].
  destruct Hc as [-> | ->]; [|by right]. left. destruct Hk as [H1 H2 H3 _].
  destruct (Hw r est Hi He) as [? ?]. unfold response_cost. by apply cost_mono.
Qed.

(** The controller between calls. *)
Definition in_order (s : spend_state) : Prop :=
  busy s = false /\
  (forall t w, (t, w) ∈ requests s -> w <= max_call_microusd (limits k) /\ t + w <= run_limit k) /\
  (closed_reason s = None -> running_total_microusd s <= run_limit k).

Lemma run_in_order s c : in_order s -> in_order (run k c s).2.
Proof.
  intros Hs. pose proof Hs as (Hb & Hr & Ht). destruct (closed_reason s) as [reason|] eqn:Hc.
  { by destruct (run_closed k s c reason Hb Hc) as [msg ->]. }
  destruct (run k c s) as [r s'] eqn:E.
  destruct (run_open k s c r s' Hb Hc E) as [B _ (w & ch & _ & Hq & _) Ho _ _ _].
  cbn [snd]. split_and!; [done| |].
  - destruct Hq as [[-> _]|(-> & H1 & H2 & _)]; [done|].
    intros t w' [Hin|[= -> ->]%list_elem_of_singleton]%elem_of_app; [by apply Hr|done].
  - intros Hn. destruct (Ho Hn) as [?| ->]; [done|]. by apply Ht.
Qed.

Lemma run_calls_in_order cs s : in_order s -> in_order (run_calls k cs s).
Proof. revert s. induction cs as [|c cs IH]; intros s Hs; [done|]. by apply IH, run_in_order. Qed.

Lemma run_within s c : in_order s -> within_estimate k c ->
  running_total_microusd s <= run_limit k -> running_total_microusd (run k c s).2 <= run_limit k.
Proof.
  intros (Hb & _) Hw Ht. destruct (closed_reason s) as [reason|] eqn:Hc.
  { by destruct (run_closed k s c reason Hb Hc) as [msg ->]. }
  destruct (run k c s) as [r s'] eqn:E. destruct (run_open k s c r s' Hb Hc E) as [_ _ (w & ch & Htot & Hq & _) _ _ _ _].
  cbn [snd]. destruct Hq as [[_ ->]|(_ & _ & H2 & Hest & Hch)]; [lia|].
  destruct (charge_within c w ch Hw Hest Hch); lia.
Qed.

(** The records of a ledger, from the index and the total before them. *)
Fixpoint accounts (index total : Z) (l : list ledger_record) : Prop :=
  match l with
  | [] => True
  | r :: l => lr_call_index r = index + 1 /\
              lr_running_total_microusd r = total + lr_charged_microusd r /\
              accounts (index + 1) (lr_running_total_microusd r) l
  end.
Definition charged_in (l : list ledger_record) : Z := foldr (fun r n => lr_charged_microusd r + n) 0 l.

Lemma accounts_snoc index total l r :
  accounts index total l -> lr_call_index r = index + zlen l + 1 ->
  lr_running_total_microusd r = total + charged_in l + lr_charged_microusd r ->
  accounts index total (l ++ [r]).
Proof.
  revert index total. induction l as [|x l IH]; intros index total Ha Hi Ht; cbn in *.
  - unfold zlen in Hi. cbn in Hi. split_and!; [lia|lia|done].
  - destruct Ha as (H1 & H2 & H3). split_and!; [done|done|]. unfold zlen in *. cbn in Hi.
    unfold charged_in in *. apply IH; [done|lia|lia].
Qed.

Lemma charged_app l l' : charged_in (l ++ l') = charged_in l + charged_in l'.
Proof. unfold charged_in in *. induction l as [|r l IH]; cbn in *; lia. Qed.

(** A call that leaves its mark: the ledger can be written, the call is not
    interrupted, and the arithmetic of its checks stays in range. *)
Definition recorded (c : provider_call) : Prop :=
  ledger_writable c = true /\ invoke c <> Interrupted /\ computable k c.

Definition accounted (s : spend_state) : Prop :=
  busy s = false /\ accounts 0 0 (ledger s) /\ call_count s = zlen (ledger s) /\
  running_total_microusd s = charged_in (ledger s).

Lemma run_accounted s c : recorded c -> accounted s -> accounted (run k c s).2.
Proof.
  intros (Hw & Hi & Hcomp) Hs. pose proof Hs as (Hb & Ha & Hn & Ht).
  destruct (closed_reason s) as [reason|] eqn:Hc.
  { by destruct (run_closed k s c reason Hb Hc) as [msg ->]. }
  destruct (run k c s) as [r s'] eqn:E.
  destruct (run_open k s c r s' Hb Hc E) as [B Hn' (w & ch & Htot & _ & Hl) _ Hu _ _]. cbn [snd].
  destruct Hl as [Hl|(rec & Hl & H1 & H2 & H3)].
  { exfalso. destruct (Hu Hl) as [?|[?|?]]; [congruence|done..]. }
  split_and!; [done|..]; rewrite Hl.
  - apply accounts_snoc; [done|lia|]. lia.
  - unfold zlen in *. rewrite length_app. cbn. lia.
  - rewrite charged_app. cbn. lia.
Qed.
End sequences.

(** C8: Spending stays within its limits, whatever the provider, the callers
    and the ledger do: each request was made when its worst case was within
    the per-call limit and fitted what was left of the run limit; while the
    controller is open the total is within the run limit; and when responses
    stay within their estimates and output caps, the total never exceeds the
    run limit, failed calls included. *)
Theorem spend_within_limits id p l c cap file rate extra details k s cs :
  limits_post_init l = Ok tt ->
  0 <= input_microusd_per_million_tokens p -> 0 <= output_microusd_per_million_tokens p ->
  make_controller id p l c cap file rate extra details = Ok (k, s) ->
  let s' := run_calls k cs s in
  (forall t w, (t, w) ∈ requests s' ->
     w <= max_call_microusd (limits k) /\ t + w <= max_run_microusd (limits k)) /\
  (closed_reason s' = None -> running_total_microusd s' <= max_run_microusd (limits k)) /\
  ((forall c, c ∈ cs -> within_estimate k c) ->
   running_total_microusd s' <= max_run_microusd (limits k)).
Proof.
  intros Hl Hi Ho Hm s'. destruct (make_controller_priced _ _ _ _ _ _ _ _ _ _ _ Hl Hi Ho Hm)
    as (Hk & Hb & Hc & _ & Ht & _ & Hr).
  assert (in_order k s) as Hs.
  { split_and!; [done| |intros _; rewrite Ht; apply Z.lt_le_incl, Hk].
    rewrite Hr. intros t w Hin. by apply not_elem_of_nil in Hin. }
  destruct (run_calls_in_order k cs s Hs) as (_ & H1 & H2). split; [done|]. split; [done|].
  intros Hw. subst s'. assert (running_total_microusd s <= run_limit k) as Hle
    by (rewrite Ht; apply Z.lt_le_incl, Hk).
  clear Ht Hr H1 H2 Hc Hb Hm. revert s Hs Hle. induction cs as [|c' cs IH]; intros s Hs Hle; [done|].
  apply IH; [intros; apply Hw; by right|by apply run_in_order|].
  apply run_within; [done..|apply Hw; left|done].
Qed.

(** C14: The ledger accounts for every call that the controller counts, in a
    sequence of calls in which none is interrupted, the ledger can always be
    written, and the estimates and tolerance tests can be computed: its
    records number the calls from 1, each carries the running total after its
    charge, and the controller's count and total are the number of the
    records and the sum of their charges. *)
Theorem spend_ledger_accounts id p l c cap file rate extra details k s cs :
  limits_post_init l = Ok tt ->
  0 <= input_microusd_per_million_tokens p -> 0 <= output_microusd_per_million_tokens p ->
  make_controller id p l c cap file rate extra details = Ok (k, s) ->
  (forall c, c ∈ cs -> recorded k c) ->
  let s' := run_calls k cs s in
  accounts 0 0 (ledger s') /\ call_count s' = zlen (ledger s') /\
  running_total_microusd s' = charged_in (ledger s').
Proof.
  intros Hl Hi Ho Hm Hrec s'. destruct (make_controller_priced _ _ _ _ _ _ _ _ _ _ _ Hl Hi Ho Hm)
    as (Hk & Hb & _ & Hn & Ht & Hled & _).
  assert (accounted s) as Hs by (unfold accounted; rewrite Hled, Hn, Ht; done).
  enough (accounted s') as (_ & H1 & H2 & H3) by done. subst s'. clear -Hs Hrec.
  revert s Hs. induction cs as [|c' cs IH]; intros s Hs; [done|].
  apply IH; [intros; apply Hrec; by right|]. apply run_accounted; [apply Hrec; left|done].
Qed.

(** Failures latch: a call that is refused or fails closed leaves the
    controller closed, and a closed controller refuses every later call
    without a request, a charge or a ledger record. *)
Theorem spend_failures_latch k s c :
  busy s = false ->
  (forall msg s', run k c s = (raise SpendControlRejected msg, s') -> closed_reason s' <> None) /\
  (closed_reason s <> None -> forall cs, run_calls k cs s = s /\
     forall c, exists msg, run k c s = (raise SpendControlRejected msg, s)).
Proof.
  intros Hb. split.
  - intros msg s' H. destruct (closed_reason s) as [reason|] eqn:Hc.
    { destruct (run_closed k s c reason Hb Hc) as [msg' E]. rewrite E in H. injection H as _ <-. congruence. }
    destruct (run_open k s c _ s' Hb Hc H) as [_ _ _ _ _ _ Hr]. by apply Hr.
  - intros Hc cs. destruct (closed_reason s) as [reason|] eqn:E; [|done].
    split; [|intros c'; by eapply run_closed].
    induction cs as [|c' cs IH]; [done|]. cbn. destruct (run_closed k s c' reason Hb E) as [msg ->]. exact IH.
Qed.

(** ** The arithmetic of the checks *)

Section arithmetic.
Context (c : Calibration).
Let k := coef (characters_per_token c).
Let e := dexp (characters_per_token c).
Let j := coef (tolerance c).
Let f := dexp (tolerance c).

Lemma estimate_exact characters :
  0 <= characters -> 0 < k < 10 ^ 20 -> -20 <= e <= 0 -> characters * 10 ^ (- e) < 10 ^ 20 ->
  estimate_input_tokens characters c = Ok (ceil_div (characters * 10 ^ (- e)) k).
Proof.
  intros Hn Hk He Hb. destruct (dec_div_ceil characters k e Hn Hk He Hb) as (r & Hr & Hc).
  unfold estimate_input_tokens. subst k e. destruct (characters_per_token c) as [k0 e0]. cbn [coef dexp] in *.
  rewrite Hr, <- Hc. done.
Qed.

Lemma tolerance_exact estimated actual :
  0 <= j < 10 ^ 20 -> -20 <= f <= 0 -> 0 <= estimated < 10 ^ 7 ->
  exceeds_tolerance estimated actual c =
    Ok (estimated * (10 ^ (- f) + j) <? actual * 10 ^ (- f)).
Proof.
  intros Hj Hf Hn. unfold exceeds_tolerance, dec_add, dec_mul, dec_lt, dec_of_int.
  subst j f. destruct (tolerance c) as [j f]. cbn [coef dexp] in *.
  assert (0 < 10 ^ (- f) <= 10 ^ 20) as Hp by (split; [|apply Z.pow_le_mono_r]; lia).
  unfold aligned. cbn [coef dexp]. cbv beta iota zeta. rewrite (Z.min_r 0 f) by lia.
  rewrite Z.mul_1_l, Z.sub_diag, Z.pow_0_r, Z.mul_1_r, Z.sub_0_l.
  assert (PREC = 28) as HP by done.
  rewrite dec_fix_exact by (rewrite ?HP; unfold ETINY, ETOP, EMIN, EMAX, PREC; lia). rewrite bind_ok.
  cbn [coef dexp]. rewrite Z.add_0_l.
  rewrite dec_fix_exact by (rewrite ?HP; unfold ETINY, ETOP, EMIN, EMAX, PREC; nia). rewrite bind_ok.
  cbn [coef dexp]. rewrite (Z.min_l f 0) by lia.
  replace (f - f) with 0 by lia. replace (0 - f) with (- f) by lia. by rewrite Z.pow_0_r, Z.mul_1_r.
Qed.
End arithmetic.

(** C15: The decimal arithmetic of the checks is exact where it is used: with
    calibration values of at most 20 digits and 20 places, the token estimate
    is the exact quotient rounded up (never below it) for texts whose number
    of characters times 10 to the number of places of the ratio is below 10 to
    the 20; and for estimates below 10 to the 7 the tolerance test compares
    the exact product with the provider's count. *)
Theorem spend_checks_exact c characters estimated actual :
  0 < coef (characters_per_token c) < 10 ^ 20 -> -20 <= dexp (characters_per_token c) <= 0 ->
  0 <= coef (tolerance c) < 10 ^ 20 -> -20 <= dexp (tolerance c) <= 0 ->
  0 <= characters -> characters * 10 ^ (- dexp (characters_per_token c)) < 10 ^ 20 ->
  0 <= estimated < 10 ^ 7 ->
  (exists t, estimate_input_tokens characters c = Ok t /\
     coef (characters_per_token c) * (t - 1) <
       characters * 10 ^ (- dexp (characters_per_token c)) <= coef (characters_per_token c) * t) /\
  (exists b, exceeds_tolerance estimated actual c = Ok b /\
     (b = true <-> estimated * (10 ^ (- dexp (tolerance c)) + coef (tolerance c)) <
                   actual * 10 ^ (- dexp (tolerance c)))).
Proof.
  intros Hk He Hj Hf Hn Hb Hest. split.
  - eexists. split; [by apply estimate_exact|]. apply ceil_div_spec; lia.
  - eexists. split; [by apply tolerance_exact|]. apply Z.ltb_lt.
Qed.

(** ** Concrete inputs *)

Definition sample_pricing : ProviderPricing := {|
  provider := u "p"; pricing_model_id := u "m"; pricing_version := u "1";
  source_reference := u "r"; input_microusd_per_million_tokens := 2000000;
  output_microusd_per_million_tokens := 8000000 |}.
Definition sample_identity : LedgerIdentity := {|
  schema_version := u "1"; ledger_provider := u "p"; model_id := u "m";
  configuration_version := u "1"; prompt_version := u "1"; ledger_pricing_version := u "1" |}.
Definition sample_limits : SpendLimits := {| max_call_microusd := 1000; max_run_microusd := 1500 |}.
(** 3.5 characters per token, and a tolerance of 10%. *)
Definition sample_calibration : Calibration := {|
  characters_per_token := Dec 35 (-1); tolerance := Dec 10 (-2) |}.

Definition sample_make : result (controller * spend_state) :=
  make_controller sample_identity sample_pricing sample_limits sample_calibration 50 Absent None
    [] None.
Definition sample_controller : controller := {|
  identity := sample_identity; pricing := sample_pricing; worst_case_pricing := sample_pricing;
  SpendControl.limits := sample_limits; calibration := sample_calibration; output_token_cap := 50;
  extra_ledger_fields := []; usage_details := None |}.
Definition sample_state : spend_state := {|
  busy := false; closed_reason := None; call_count := 0; running_total_microusd := 0;
  ledger := []; requests := [] |}.

Definition sample_answer : StructuredModelResponse := {|
  correlation_id := 1; response_id := u "r1"; response_model_id := u "m"; output_json := [];
  usage := {| input_tokens := 100; output_tokens := 20; total_tokens := 120 |};
  response_configuration_version := u "1"; response_provider := u "p" |}.
Definition sample_call (outcome : provider_outcome) (writable : bool) : provider_call := {|
  estimated_characters := 350; invoke := outcome; overlaps := 0; validate := fun _ => true;
  overlaps' := 0; ledger_writable := writable |}.
Definition sample_calls : list provider_call :=
  [sample_call (Returned sample_answer) true; sample_call (Failed (u "TimeoutError")) true;
   sample_call (Returned sample_answer) true].

(** The first call costs 360 micro-USD, the failed one its worst case of 600;
    the third is refused. *)
Example sample_calls_run :
  let s := run_calls sample_controller sample_calls sample_state in
  (running_total_microusd s, zlen (ledger s), closed_reason s) =
  (960, 2, Some (u "provider_call_failed:TimeoutError")).
Proof. by vm_compute. Qed.

(** A ledger that cannot be written after a successful call raises without
    closing the controller: the charge is kept, its record is lost. *)
Example unwritten_success_stays_open :
  let '(r, s) := run sample_controller (sample_call (Returned sample_answer) false) sample_state in
  r = raise OSError "" /\ closed_reason s = None /\ running_total_microusd s = 360 /\ ledger s = [].
Proof. by vm_compute. Qed.

Ltac sample_case H :=
  repeat (apply elem_of_cons in H as [->|H]); [..|by apply not_elem_of_nil in H].

Lemma sample_within : forall c, c ∈ sample_calls -> within_estimate sample_controller c.
Proof.
  intros c Hc r est. sample_case Hc; intros [= <-] H; vm_compute in H; injection H as <-; cbn; lia.
Qed.

Lemma sample_computable outcome writable :
  (forall r, outcome = Returned r -> r = sample_answer) ->
  computable sample_controller (sample_call outcome writable).
Proof.
  intros Ho. exists 100. split; [by vm_compute|]. intros r ->%Ho. exists false. by vm_compute.
Qed.

Lemma sample_ledger_recorded : forall c, c ∈ sample_calls -> recorded sample_controller c.
Proof.
  intros c Hc. unfold sample_calls in Hc. sample_case Hc.
  all: split; [done|]; split; [done|]; apply sample_computable; congruence.
Qed.

Lemma spend_within_limits_witness :
  let s' := run_calls sample_controller sample_calls sample_state in
  (forall t w, (t, w) ∈ requests s' -> w <= 1000 /\ t + w <= 1500) /\
  (closed_reason s' = None -> running_total_microusd s' <= 1500) /\
  ((forall c, c ∈ sample_calls -> within_estimate sample_controller c) ->
   running_total_microusd s' <= 1500).
Proof.
  apply (spend_within_limits sample_identity sample_pricing sample_limits sample_calibration 50 Absent
           None [] None); [reflexivity|cbn; lia|cbn; lia|reflexivity].
Defined.

Lemma spend_ledger_accounts_witness :
  let s' := run_calls sample_controller sample_calls sample_state in
  accounts 0 0 (ledger s') /\ call_count s' = zlen (ledger s') /\
  running_total_microusd s' = charged_in (ledger s').
Proof.
  apply (spend_ledger_accounts sample_identity sample_pricing sample_limits sample_calibration 50
           Absent None [] None); [reflexivity|cbn; lia|cbn; lia|reflexivity|exact sample_ledger_recorded].
Defined.

Lemma spend_failures_latch_witness :
  (forall msg s', run sample_controller (sample_call (Returned sample_answer) true) sample_state =
     (raise SpendControlRejected msg, s') -> closed_reason s' <> None) /\
  (closed_reason sample_state <> None -> forall cs,
     run_calls sample_controller cs sample_state = sample_state /\
     forall c, exists msg, run sample_controller c sample_state =
       (raise SpendControlRejected msg, sample_state)).
Proof. apply (spend_failures_latch sample_controller). reflexivity. Defined.

Lemma spend_checks_exact_witness :
  (exists t, estimate_input_tokens 350 sample_calibration = Ok t /\
     35 * (t - 1) < 350 * 10 ^ 1 <= 35 * t) /\
  (exists b, exceeds_tolerance 100 111 sample_calibration = Ok b /\
     (b = true <-> 100 * (10 ^ 2 + 10) < 111 * 10 ^ 2)).
Proof.
  apply (spend_checks_exact sample_calibration 350 100 111); cbn; lia.
Defined.

(** The product is rounded to 28 digits before it is tested for being whole,
    so an amount finer than one micro-USD is accepted. *)
Example fine_amount_accepted :
  usd_setting_to_microusd [(u "CAP", u "1.00000000000000000000000000000001")] (u "CAP") = Ok 1000000.
Proof. by vm_compute. Qed.
