(* ===== verification/JobTables.v ===== *)
(** * The document and job tables ([documents.py])

    The rows of [documents], [document_intakes], [parser_jobs] and
    [indexing_jobs]; the two job tables with their constraints.  Both kinds of
    job carry the same lease columns, gathered in [lease]. *)
From S2P Require Import Prelude PyText Json Digest Effects Database.

(** ** Rows *)

Record DocumentRecord := {
  doc_id : uuid;
  doc_project_id : uuid;
  document_type : pystr;
  display_name : pystr;
  doc_created_at : instant;
}.

Inductive DocumentIntakeState := QUARANTINED | INTAKE_REJECTED.
#[export] Instance intake_state_eq_dec : EqDecision DocumentIntakeState.
Proof. solve_decision. Defined.

Record DocumentIntakeRecord := {
  in_id : uuid;
  in_project_id : uuid;
  in_document_id : option uuid;
  in_document_version_id : option uuid;
  in_state : DocumentIntakeState;
  quarantine_key : option pystr;
  original_filename : pystr;
  declared_content_type : pystr;
  in_byte_size : Z;
  in_content_sha256 : option pystr;
  rejection_code : option pystr;
  in_created_at : instant;
}.

(** [ParserJobState]; [IndexingJobState] is the same without [REJECTED]. *)
Inductive JobState := JOB_QUEUED | JOB_CLAIMED | JOB_ACCEPTED | JOB_REJECTED | JOB_FAILED.
#[export] Instance jobs_state_eq_dec : EqDecision JobState.
Proof. solve_decision. Defined.

(** The columns that the queues of both tables write. *)
Record lease := {
  l_state : JobState;
  created_at : instant;
  claim_token : option uuid;
  claimed_at : option instant;
  claim_expires_at : option instant;
  completed_at : option instant;
  failure_code : option pystr;
}.

Record ParserJobRecord := { pj_id : uuid; document_intake_id : uuid; pj_lease : lease }.

Record IndexingJobRecord := {
  ij_id : uuid;
  ij_project_id : uuid;
  ij_document_version_id : uuid;
  ij_chunking_version : pystr;
  ij_embedding_model : pystr;
  ij_embedding_version : pystr;
  ij_lease : lease;
}.

(** What the queues share: a row, its primary key and its lease. *)
Class LeaseRow (R : Type) := {
  row_id : R -> uuid;
  row_lease : R -> lease;
  with_lease : R -> lease -> R;
  row_check : R -> bool;
}.

(** ** Constraints *)

Definition has {A} (o : option A) : bool := negb (is_null o).

(** [ck_parser_jobs_lifecycle], [ck_indexing_jobs_lifecycle] *)
Definition lifecycle_check (rejectable : bool) (l : lease) : bool :=
  let claimed := has (claim_token l) && has (claimed_at l) && has (claim_expires_at l) in
  match l_state l with
  | JOB_QUEUED =>
      is_null (claim_token l) && is_null (claimed_at l) && is_null (claim_expires_at l) &&
      is_null (completed_at l) && is_null (failure_code l)
  | JOB_CLAIMED => claimed && is_null (completed_at l) && is_null (failure_code l)
  | JOB_ACCEPTED => claimed && has (completed_at l) && is_null (failure_code l)
  | JOB_REJECTED => rejectable && claimed && has (completed_at l) && has (failure_code l)
  | JOB_FAILED => claimed && has (completed_at l) && has (failure_code l)
  end.

(** A comparison in a CHECK holds when a side is NULL. *)
Definition unknown_or (p : instant -> bool) (t : option instant) : bool :=
  match t with Some t => p t | None => true end.

(** [ck_parser_jobs_timestamps], [ck_indexing_jobs_timestamps] *)
Definition timestamps_check (l : lease) : bool :=
  match claimed_at l with
  | None => true
  | Some claimed =>
      (created_at l <=? claimed) && unknown_or (Z.ltb claimed) (claim_expires_at l) &&
      unknown_or (Z.leb claimed) (completed_at l)
  end.

(** [ck_parser_jobs_failure_code] *)
Definition parser_failure_code_check (l : lease) : bool :=
  match failure_code l, l_state l with
  | None, _ => true
  | Some code, JOB_REJECTED => str_eqb code (u "PARSER_DOCUMENT_REJECTED")
  | Some code, JOB_FAILED =>
      bool_decide (code ∈ [u "PARSER_WORKER_FAILED"; u "PARSER_CLAIM_EXPIRED"])
  | _, _ => false
  end.

(** [ck_indexing_jobs_failure_code] *)
Definition indexing_failure_code_check (l : lease) : bool :=
  match failure_code l with
  | None => true
  | Some code => bool_decide (code ∈ [u "INDEXING_WORKER_FAILED"; u "INDEXING_CLAIM_EXPIRED"])
  end.

Definition parser_job_check (r : ParserJobRecord) : bool :=
  lifecycle_check true (pj_lease r) && timestamps_check (pj_lease r) &&
  parser_failure_code_check (pj_lease r).

Definition indexing_job_check (r : IndexingJobRecord) : bool :=
  not_blank (ij_chunking_version r) && not_blank (ij_embedding_model r) &&
  not_blank (ij_embedding_version r) && lifecycle_check false (ij_lease r) &&
  timestamps_check (ij_lease r) && indexing_failure_code_check (ij_lease r).

#[export] Instance parser_lease_row : LeaseRow ParserJobRecord := {|
  row_id := pj_id; row_lease := pj_lease;
  with_lease r l := {| pj_id := pj_id r; document_intake_id := document_intake_id r;
                       pj_lease := l |};
  row_check := parser_job_check |}.

#[export] Instance indexing_lease_row : LeaseRow IndexingJobRecord := {|
  row_id := ij_id; row_lease := ij_lease;
  with_lease r l := {| ij_id := ij_id r; ij_project_id := ij_project_id r;
                       ij_document_version_id := ij_document_version_id r;
                       ij_chunking_version := ij_chunking_version r;
                       ij_embedding_model := ij_embedding_model r;
                       ij_embedding_version := ij_embedding_version r; ij_lease := l |};
  row_check := indexing_job_check |}.

(** ** Tables and statements *)

(** What the callers of a queue see it do, for the history. *)
Inductive lease_event :=
  | Claimed (job token : uuid) (at_ deadline : instant)
  | Completed (job token : uuid) (at_ : instant)
  | Expired (count : nat) (at_ : instant).

(** The tables; the histories are history variables, which no statement reads. *)
Record job_db := {
  documents : gmap uuid DocumentRecord;
  intakes : gmap uuid DocumentIntakeRecord;
  parser_jobs : gmap uuid ParserJobRecord;
  indexing_jobs : gmap uuid IndexingJobRecord;
  parser_history : list lease_event;
  indexing_history : list lease_event;
}.

Definition with_parser_jobs (d : job_db) (m : gmap uuid ParserJobRecord) : job_db := {|
  documents := documents d; intakes := intakes d; parser_jobs := m;
  indexing_jobs := indexing_jobs d; parser_history := parser_history d;
  indexing_history := indexing_history d |}.
Definition with_indexing_jobs (d : job_db) (m : gmap uuid IndexingJobRecord) : job_db := {|
  documents := documents d; intakes := intakes d; parser_jobs := parser_jobs d;
  indexing_jobs := m; parser_history := parser_history d;
  indexing_history := indexing_history d |}.
Definition log_parser (e : lease_event) (d : job_db) : job_db := {|
  documents := documents d; intakes := intakes d; parser_jobs := parser_jobs d;
  indexing_jobs := indexing_jobs d; parser_history := parser_history d ++ [e];
  indexing_history := indexing_history d |}.
Definition log_indexing (e : lease_event) (d : job_db) : job_db := {|
  documents := documents d; intakes := intakes d; parser_jobs := parser_jobs d;
  indexing_jobs := indexing_jobs d; parser_history := parser_history d;
  indexing_history := indexing_history d ++ [e] |}.

(** [UPDATE ... SET f WHERE p RETURNING *]: the new rows, and the table.  A
    row that breaks a constraint fails the statement. *)
Definition update_rows {R} `{LeaseRow R} (p : R -> bool) (f : lease -> lease)
    (m : gmap uuid R) : result (list R * gmap uuid R) :=
  let set r := with_lease r (f (row_lease r)) in
  let rows := set <$> select p m in
  raise_if (negb (forallb row_check rows)) IntegrityError "check constraint" ;;
  Ok (rows, (fun r => if p r then set r else r) <$> m).

Definition insert_parser_job (r : ParserJobRecord) (d : job_db) : result job_db :=
  raise_if (negb (parser_job_check r) || is_null (intakes d !! document_intake_id r) ||
            negb (is_null (parser_jobs d !! pj_id r)) ||
            negb (no_row (fun o => (document_intake_id o =? document_intake_id r)%N)
                    (parser_jobs d)))
    IntegrityError "parser_jobs" ;;
  Ok (with_parser_jobs d (<[pj_id r := r]> (parser_jobs d))).
