(* ===== verification/ParserJobClaims.v ===== *)
(** * The parser queue ([parser_queue.py], [parser_job_claims.py],
      [claim_durations.py])

    Jobs are enqueued once per document intake and claimed once, under a
    lease; a claim is finished by its holder before its deadline, or expires.
    [others] is what other sessions commit between two statements, or between
    the subquery that picks a candidate and the update that claims it. *)
From S2P Require Import Prelude PyText Json Digest Effects GeneratedTests Database JobTables.

(** [_utc] *)
Definition utc (t : datetime) : result instant :=
  match utcoffset t with
  | None => raise ValueError "claim clock must be timezone-aware"
  | Some offset => Ok (wall t - offset)
  end.
Definition at_utc (t : instant) : datetime := {| wall := t; utcoffset := Some 0 |}.

(** A [timedelta] is its number of microseconds. *)
Definition seconds (n : Z) : Z := n * 1000000.

(** ** Claim durations *)

Definition DEFAULT_CLAIM_DURATION : Z := seconds 60.
Definition MAX_CLAIM_DURATION_SECONDS : Z := 3600.

(** [int(value)] of ASCII digits refuses more than 4300 of them. *)
Definition int_of_digits (s : pystr) : result Z :=
  raise_if (4300 <? zlen s) ValueError "Exceeds the limit for integer string conversion" ;;
  Ok (Z.of_N (N_of_digits s)).

Section durations.
Context {rt : PyRuntime}.

Definition claim_duration_from_environment (name : pystr) (environ : list (pystr * pystr)) :
    result Z :=
  match dict_get name environ with
  | None => Ok DEFAULT_CLAIM_DURATION
  | Some raw =>
      let value := strip raw in
      raise_if (negb (ascii_digits value))
        ClaimDurationConfigurationError
        "Claim duration must be a positive integer number of seconds" ;;
      n ← int_of_digits value;
      raise_if (n <=? 0) ClaimDurationConfigurationError
        "Claim duration must be a positive integer number of seconds" ;;
      raise_if (MAX_CLAIM_DURATION_SECONDS <? n) ClaimDurationConfigurationError
        "Claim duration must not exceed 3600 seconds" ;;
      Ok (seconds n)
  end.
End durations.

(** ** The queue *)

Definition parser_unavailable {A} (m : io job_db A) : io job_db A :=
  io_try m is_SQLAlchemyError (fun _ => io_raise ParserJobQueueUnavailable "").

Definition queued_lease (now : instant) : lease := {|
  l_state := JOB_QUEUED; created_at := now; claim_token := None; claimed_at := None;
  claim_expires_at := None; completed_at := None; failure_code := None |}.

Definition new_parser_job (new_id intake_id : uuid) (now : datetime) : ParserJobRecord := {|
  pj_id := new_id; document_intake_id := intake_id; pj_lease := queued_lease (utc_datetime now) |}.

(** [SqlAlchemyParserJobQueue.enqueue] *)
Definition enqueue (fault fault2 : bool) (now : datetime) (new_id intake_id : uuid)
    (others : job_db -> job_db) : io job_db unit :=
  io_try (execute fault (insert_parser_job (new_parser_job new_id intake_id now)))
    is_SQLAlchemyError
    (fun error =>
       if bool_decide (exn_cls error = IntegrityError) then
         interleave others ;;
         existing ← parser_unavailable (query fault2 (fun d =>
           Ok (head (select (fun r => (document_intake_id r =? intake_id)%N) (parser_jobs d)))));
         match existing with
         | Some _ => mret tt
         | None => io_raise ParserJobQueueUnavailable ""
         end
       else io_raise ParserJobQueueUnavailable "").

(** ** Claims *)

Record ClaimedParserJob := {
  cp_job_id : uuid;
  cp_document_intake_id : uuid;
  cp_claim_token : uuid;
  cp_claimed_at : datetime;
  cp_claim_expires_at : datetime;
}.

(** The arguments of [SqlAlchemyParserJobClaims(...)] that it keeps. *)
Record parser_claims := {
  pc_duration : Z;
  pc_intake_id : option uuid;
  pc_document_types : option (list pystr);
}.

(** [SqlAlchemyParserJobClaims.__init__] *)
Definition make_parser_claims (duration : Z) (intake_id : option uuid)
    (document_types : option (list pystr)) : result parser_claims :=
  raise_if (duration <=? 0) ValueError "Parser claim duration must be positive" ;;
  raise_if (bool_decide (document_types = Some [])) ValueError
    "Parser document-type scope must not be empty" ;;
  Ok {| pc_duration := duration; pc_intake_id := intake_id;
        pc_document_types := document_types |}.

(** [ORDER BY created_at, id] *)
Definition row_le {R} `{LeaseRow R} (a b : R) : Prop :=
  created_at (row_lease a) < created_at (row_lease b) \/
  (created_at (row_lease a) = created_at (row_lease b) /\ (row_id a <= row_id b)%N).
#[export] Instance row_le_dec {R} `{LeaseRow R} (a b : R) : Decision (row_le a b).
Proof. unfold row_le. apply _. Defined.

(** The changes a claim and its end make to a row. *)
Definition claim_lease (token : uuid) (now deadline : instant) (l : lease) : lease := {|
  l_state := JOB_CLAIMED; created_at := created_at l; claim_token := Some token;
  claimed_at := Some now; claim_expires_at := Some deadline;
  completed_at := completed_at l; failure_code := failure_code l |}.
Definition finish_lease (state : JobState) (now : instant) (code : option pystr) (l : lease) :
    lease := {|
  l_state := state; created_at := created_at l; claim_token := claim_token l;
  claimed_at := claimed_at l; claim_expires_at := claim_expires_at l;
  completed_at := Some now; failure_code := code |}.

Definition lease_in (s : JobState) (l : lease) : bool := bool_decide (l_state l = s).
(** [column == value], which NULL never satisfies *)
Definition is_uuid (o : option uuid) (x : uuid) : bool :=
  match o with Some y => (y =? x)%N | None => false end.
Definition is_at (o : option instant) (p : instant -> bool) : bool :=
  match o with Some t => p t | None => false end.

(** A lease of [token] from [at_] to [deadline] that is running at [now]. *)
Definition holds_lease (token : uuid) (at_ deadline now : instant) (l : lease) : bool :=
  lease_in JOB_CLAIMED l && is_uuid (claim_token l) token &&
  is_at (claimed_at l) (Z.eqb at_) && is_at (claim_expires_at l) (Z.eqb deadline) &&
  is_at (claimed_at l) (fun t => t <=? now) && is_at (claim_expires_at l) (Z.ltb now).

Section claims.
Context (c : parser_claims).

Definition scope (r : ParserJobRecord) : bool :=
  match pc_intake_id c with Some i => (document_intake_id r =? i)%N | None => true end.

Definition document_type_scope (doc : DocumentRecord) : bool :=
  match pc_document_types c with
  | Some types => bool_decide (document_type doc ∈ types)
  | None => true
  end.

(** The condition of the candidate query on a job and the rows joined to it. *)
Definition claimable (now : instant) (d : job_db) (r : ParserJobRecord) : bool :=
  match intakes d !! document_intake_id r with
  | Some intake =>
      match in_document_id intake ≫= fun i => documents d !! i with
      | Some doc =>
          lease_in JOB_QUEUED (pj_lease r) && (created_at (pj_lease r) <=? now) &&
          bool_decide (in_state intake = QUARANTINED) && scope r && document_type_scope doc
      | None => false
      end
  | None => false
  end.

Definition claimed_parser_job (token : uuid) (now deadline : instant) (r : ParserJobRecord) :
    ClaimedParserJob := {|
  cp_job_id := pj_id r; cp_document_intake_id := document_intake_id r;
  cp_claim_token := token; cp_claimed_at := at_utc now; cp_claim_expires_at := at_utc deadline |}.

(** The update that claims the candidate, if it is still queued. *)
Definition claim_update (candidate : option uuid) (token : uuid) (now deadline : instant)
    (d : job_db) : result (option ClaimedParserJob * job_db) :=
  updated ← update_rows (fun r => is_uuid candidate (pj_id r) &&
                                    lease_in JOB_QUEUED (pj_lease r))
                 (claim_lease token now deadline) (parser_jobs d);
  row ← scalar_one_or_none updated.1;
  Ok (option_map (claimed_parser_job token now deadline) row, with_parser_jobs d updated.2).

Definition claim_next (fault : bool) (clock : datetime) (token : uuid)
    (others : job_db -> job_db) : io job_db (option ClaimedParserJob) :=
  now ← lift (utc clock);
  let deadline := now + pc_duration c in
  parser_unavailable
    (candidate ← query false (fun d =>
       Ok (pj_id <$> head (merge_sort row_le (select (claimable now d) (parser_jobs d)))));
     interleave others ;;
     statement fault (claim_update candidate token now deadline)).

(** The update that ends a running lease. *)
Definition finish_update (claim : ClaimedParserJob) (claimed expires now : instant)
    (state : JobState) (code : pystr) (d : job_db) : result (option ParserJobRecord * job_db) :=
  updated ← update_rows (fun r => (pj_id r =? cp_job_id claim)%N && scope r &&
                                    (document_intake_id r =? cp_document_intake_id claim)%N &&
                                    holds_lease (cp_claim_token claim) claimed expires now
                                      (pj_lease r))
                 (finish_lease state now (Some code)) (parser_jobs d);
  Ok (head updated.1, with_parser_jobs d updated.2).

(** [_finish] *)
Definition finish (fault : bool) (clock : datetime) (claim : ClaimedParserJob)
    (state : JobState) (code : pystr) : io job_db unit :=
  now ← lift (utc clock);
  parser_unavailable
    (claimed ← lift (utc (cp_claimed_at claim));
     expires ← lift (utc (cp_claim_expires_at claim));
     row ← statement fault (finish_update claim claimed expires now state code);
     match row with
     | Some _ => mret tt
     | None => io_raise ParserJobClaimRejected "Parser job claim is not active"
     end).

Definition reject (fault : bool) (clock : datetime) (claim : ClaimedParserJob) : io job_db unit :=
  finish fault clock claim JOB_REJECTED (u "PARSER_DOCUMENT_REJECTED").

Definition fail (fault : bool) (clock : datetime) (claim : ClaimedParserJob) : io job_db unit :=
  finish fault clock claim JOB_FAILED (u "PARSER_WORKER_FAILED").

(** The update that ends the leases past their deadline. *)
Definition expire_update (now : instant) (d : job_db) : result (nat * job_db) :=
  updated ← update_rows (fun r => lease_in JOB_CLAIMED (pj_lease r) && scope r &&
                                    is_at (claim_expires_at (pj_lease r)) (fun t => t <=? now))
                 (finish_lease JOB_FAILED now (Some (u "PARSER_CLAIM_EXPIRED"))) (parser_jobs d);
  Ok (length updated.1, with_parser_jobs d updated.2).

Definition expire_claims (fault : bool) (clock : datetime) : io job_db nat :=
  now ← lift (utc clock);
  parser_unavailable
    (statement fault (expire_update now)).
End claims.
