(* ===== verification/IndexingJobClaims.v ===== *)
(** * Indexing claims ([indexing_job_claims.py])

    The leases of the jobs that a promotion enqueues, for one chunking and
    embedding configuration.  A finished job is accepted or failed. *)
From S2P Require Import Prelude PyText Json Digest Effects GeneratedTests Database JobTables.
From S2P Require Import ParserJobClaims.

(** [indexing.DEFAULT_CHUNKING_VERSION], [DEFAULT_EMBEDDING_MODEL] and
    [DEFAULT_EMBEDDING_VERSION] *)
Definition DEFAULT_CHUNKING_VERSION : pystr := u "chunking-v1".
Definition DEFAULT_EMBEDDING_MODEL : pystr := u "embedding-test-v1".
Definition DEFAULT_EMBEDDING_VERSION : pystr := u "embedding-v1".

Record ClaimedIndexingJob := {
  ci_job_id : uuid;
  ci_project_id : uuid;
  ci_document_version_id : uuid;
  ci_chunking_version : pystr;
  ci_embedding_model : pystr;
  ci_embedding_version : pystr;
  ci_claim_token : uuid;
  ci_claimed_at : datetime;
  ci_claim_expires_at : datetime;
}.

(** The arguments of [SqlAlchemyIndexingJobClaims(...)] that it keeps. *)
Record indexing_claims := {
  ic_duration : Z;
  ic_document_version_id : option uuid;
  ic_chunking_version : pystr;
  ic_embedding_model : pystr;
  ic_embedding_version : pystr;
}.

(** [SqlAlchemyIndexingJobClaims.__init__] *)
Definition make_indexing_claims `{PyRuntime} (duration : Z) (version_id : option uuid)
    (chunking model version : pystr) : result indexing_claims :=
  raise_if (duration <=? 0) ValueError "Indexing claim duration must be positive" ;;
  raise_if (existsb (fun value => bool_decide (strip value = [])) [chunking; model; version])
    ValueError "Indexing configuration values must be non-empty" ;;
  Ok {| ic_duration := duration; ic_document_version_id := version_id;
        ic_chunking_version := chunking; ic_embedding_model := model;
        ic_embedding_version := version |}.

Definition indexing_unavailable {A} (m : io job_db A) : io job_db A :=
  io_try m is_SQLAlchemyError (fun _ => io_raise IndexingJobUnavailable "").

Section claims.
Context (c : indexing_claims).

Definition scope (r : IndexingJobRecord) : bool :=
  match ic_document_version_id c with
  | Some i => (ij_document_version_id r =? i)%N
  | None => true
  end.

Definition configuration_scope (r : IndexingJobRecord) : bool :=
  str_eqb (ij_chunking_version r) (ic_chunking_version c) &&
  str_eqb (ij_embedding_model r) (ic_embedding_model c) &&
  str_eqb (ij_embedding_version r) (ic_embedding_version c).

(** The condition of the candidate query. *)
Definition claimable (now : instant) (r : IndexingJobRecord) : bool :=
  lease_in JOB_QUEUED (ij_lease r) && (created_at (ij_lease r) <=? now) && scope r &&
  configuration_scope r.

Definition claimed_indexing_job (token : uuid) (now deadline : instant)
    (r : IndexingJobRecord) : ClaimedIndexingJob := {|
  ci_job_id := ij_id r; ci_project_id := ij_project_id r;
  ci_document_version_id := ij_document_version_id r;
  ci_chunking_version := ij_chunking_version r; ci_embedding_model := ij_embedding_model r;
  ci_embedding_version := ij_embedding_version r; ci_claim_token := token;
  ci_claimed_at := at_utc now; ci_claim_expires_at := at_utc deadline |}.

(** The update that claims the candidate, if it is still queued. *)
Definition claim_update (candidate : option uuid) (token : uuid) (now deadline : instant)
    (d : job_db) : result (option ClaimedIndexingJob * job_db) :=
  updated ← update_rows (fun r => is_uuid candidate (ij_id r) &&
                                    lease_in JOB_QUEUED (ij_lease r) && scope r &&
                                    configuration_scope r)
                 (claim_lease token now deadline) (indexing_jobs d);
  row ← scalar_one_or_none updated.1;
  Ok (option_map (claimed_indexing_job token now deadline) row, with_indexing_jobs d updated.2).

Definition claim_next (fault : bool) (clock : datetime) (token : uuid)
    (others : job_db -> job_db) : io job_db (option ClaimedIndexingJob) :=
  now ← lift (utc clock);
  let deadline := now + ic_duration c in
  indexing_unavailable
    (candidate ← query false (fun d =>
       Ok (ij_id <$> head (merge_sort row_le (select (claimable now) (indexing_jobs d)))));
     interleave others ;;
     statement fault (claim_update candidate token now deadline)).

(** The row is the one the claim describes. *)
Definition describes (claim : ClaimedIndexingJob) (r : IndexingJobRecord) : bool :=
  (ij_project_id r =? ci_project_id claim)%N &&
  (ij_document_version_id r =? ci_document_version_id claim)%N &&
  str_eqb (ij_chunking_version r) (ci_chunking_version claim) &&
  str_eqb (ij_embedding_model r) (ci_embedding_model claim) &&
  str_eqb (ij_embedding_version r) (ci_embedding_version claim).

(** The update that ends a running lease. *)
Definition finish_update (claim : ClaimedIndexingJob) (claimed expires now : instant)
    (state : JobState) (code : option pystr) (d : job_db) :
    result (option IndexingJobRecord * job_db) :=
  updated ← update_rows (fun r => (ij_id r =? ci_job_id claim)%N && scope r &&
                                    configuration_scope r && describes claim r &&
                                    holds_lease (ci_claim_token claim) claimed expires now
                                      (ij_lease r))
                 (finish_lease state now code) (indexing_jobs d);
  Ok (head updated.1, with_indexing_jobs d updated.2).

(** [_finish] *)
Definition finish (fault : bool) (clock : datetime) (claim : ClaimedIndexingJob)
    (state : JobState) (code : option pystr) : io job_db unit :=
  now ← lift (utc clock);
  indexing_unavailable
    (claimed ← lift (utc (ci_claimed_at claim));
     expires ← lift (utc (ci_claim_expires_at claim));
     row ← statement fault (finish_update claim claimed expires now state code);
     match row with
     | Some _ => mret tt
     | None => io_raise IndexingJobClaimRejected "Indexing job claim is not active"
     end).

Definition accept (fault : bool) (clock : datetime) (claim : ClaimedIndexingJob) :
    io job_db unit :=
  finish fault clock claim JOB_ACCEPTED None.

Definition fail (fault : bool) (clock : datetime) (claim : ClaimedIndexingJob) : io job_db unit :=
  finish fault clock claim JOB_FAILED (Some (u "INDEXING_WORKER_FAILED")).

(** The update that ends the leases past their deadline. *)
Definition expire_update (now : instant) (d : job_db) : result (nat * job_db) :=
  updated ← update_rows (fun r => lease_in JOB_CLAIMED (ij_lease r) && scope r &&
                                    configuration_scope r &&
                                    is_at (claim_expires_at (ij_lease r)) (fun t => t <=? now))
                 (finish_lease JOB_FAILED now (Some (u "INDEXING_CLAIM_EXPIRED")))
                 (indexing_jobs d);
  Ok (length updated.1, with_indexing_jobs d updated.2).

Definition expire_claims (fault : bool) (clock : datetime) : io job_db nat :=
  now ← lift (utc clock);
  indexing_unavailable
    (statement fault (expire_update now)).
End claims.
