(* ===== verification/Leases.v ===== *)
(** * Leases: what both job queues promise

    The abstract queue: a job waits, is held under a token from an instant to
    a deadline, and has ended; [lease_step] says how a queue may move and what
    its callers then observe.  Every statement on a table of lease rows is a
    step of the abstract queue of that table. *)
From S2P Require Import Prelude PyText Json Digest Effects GeneratedTests Database DatabaseFacts.
From S2P Require Import JobTables ParserJobClaims.

(** ** The abstract queue *)

Inductive phase := Waiting | Held (token : uuid) (at_ deadline : instant) | Ended.

Abbreviation queue := (gmap uuid phase).

(** The queue after the jobs [ids] have ended. *)
Definition end_all (ids : gset uuid) (q : queue) : queue :=
  map_imap (fun i p => Some (if bool_decide (i ∈ ids) then Ended else p)) q.

Inductive lease_step (q : queue) : list lease_event -> queue -> Prop :=
  | step_enqueue id :
      q !! id = None -> lease_step q [] (<[id := Waiting]> q)
  | step_claim id token at_ deadline :
      q !! id = Some Waiting -> at_ < deadline ->
      lease_step q [Claimed id token at_ deadline] (<[id := Held token at_ deadline]> q)
  | step_complete id token at_ deadline now :
      q !! id = Some (Held token at_ deadline) -> at_ <= now < deadline ->
      lease_step q [Completed id token now] (<[id := Ended]> q)
  | step_expire ids now :
      (forall id, id ∈ ids -> exists token at_ deadline,
         q !! id = Some (Held token at_ deadline) /\ deadline <= now) ->
      lease_step q [Expired (size ids) now] (end_all ids q).

(** Any number of steps, with everything observed. *)
Inductive lease_steps (q : queue) : list lease_event -> queue -> Prop :=
  | steps_nil : lease_steps q [] q
  | steps_snoc tr q1 e q2 :
      lease_steps q tr q1 -> lease_step q1 e q2 -> lease_steps q (tr ++ e) q2.
#[export] Hint Constructors lease_steps : py.

Lemma steps_one q e q' : lease_step q e q' -> lease_steps q e q'.
Proof. intros H. eapply (steps_snoc q [] q); [constructor|done]. Qed.

Lemma steps_trans q tr q1 tr' q2 :
  lease_steps q tr q1 -> lease_steps q1 tr' q2 -> lease_steps q (tr ++ tr') q2.
Proof.
  intros H1 H2. induction H2 as [|tr' q2 e q3 _ IH Hs]; [by rewrite app_nil_r|].
  rewrite app_assoc. by econstructor.
Qed.

Lemma lookup_end_all ids q i :
  end_all ids q !! i = (fun p => if bool_decide (i ∈ ids) then Ended else p) <$> q !! i.
Proof. unfold end_all. rewrite map_lookup_imap. by destruct (q !! i). Qed.

(** *** What a history says *)

Definition claimed_ids (tr : list lease_event) : list uuid :=
  omap (fun e => match e with Claimed id _ _ _ => Some id | _ => None end) tr.
Definition completed_ids (tr : list lease_event) : list uuid :=
  omap (fun e => match e with Completed id _ _ => Some id | _ => None end) tr.

(** Each job is claimed once and completed once; who completes it claimed it,
    under the token it presents, and does so before the deadline. *)
Definition exclusive (q : queue) (tr : list lease_event) : Prop :=
  NoDup (claimed_ids tr) /\ NoDup (completed_ids tr) /\
  forall tr1 id token now tr2, tr = tr1 ++ Completed id token now :: tr2 ->
    exists at_ deadline, at_ <= now < deadline /\
      (Claimed id token at_ deadline ∈ tr1 \/ q !! id = Some (Held token at_ deadline)).

(** What the queue knows of the past. *)
Record remembers (q : queue) (tr : list lease_event) (q' : queue) : Prop := {
  rm_claimed : forall id, id ∈ claimed_ids tr -> q' !! id <> None /\ q' !! id <> Some Waiting;
  rm_completed : forall id, id ∈ completed_ids tr -> q' !! id = Some Ended;
  rm_held : forall id token at_ deadline, q' !! id = Some (Held token at_ deadline) ->
    Claimed id token at_ deadline ∈ tr \/ q !! id = Some (Held token at_ deadline);
}.

(** Only a completion can be the last event of a history that ends in one. *)
Lemma split_snoc {A} (tr tr1 tr2 : list A) e x : tr ++ [e] = tr1 ++ x :: tr2 ->
  (tr2 = [] /\ x = e /\ tr1 = tr) \/ exists tr2', tr2 = tr2' ++ [e] /\ tr = tr1 ++ x :: tr2'.
Proof.
  intros H. destruct (decide (tr2 = [])) as [->|Hne].
  - left. apply app_inj_tail in H as [-> ->]. done.
  - right. destruct (exists_last Hne) as (l & y & ->). exists l.
    rewrite app_comm_cons, app_assoc in H. apply app_inj_tail in H as [-> ->]. done.
Qed.

Lemma exclusive_snoc q tr e :
  exclusive q tr ->
  match e with
  | Claimed id _ _ _ => id ∉ claimed_ids tr
  | Completed id token now => id ∉ completed_ids tr /\
      exists at_ deadline, at_ <= now < deadline /\
        (Claimed id token at_ deadline ∈ tr \/ q !! id = Some (Held token at_ deadline))
  | Expired _ _ => True
  end -> exclusive q (tr ++ [e]).
Proof.
  intros (Hc & Hf & Hp) He. unfold exclusive, claimed_ids, completed_ids in *. rewrite !omap_app.
  split; [|split].
  - destruct e; cbn; [|by rewrite app_nil_r..]. apply NoDup_app. split; [done|]. split; [|apply NoDup_singleton].
    intros x Hx ->%list_elem_of_singleton. by apply He.
  - destruct e; cbn; [by rewrite app_nil_r| |by rewrite app_nil_r]. destruct He as [He _].
    apply NoDup_app. split; [done|]. split; [|apply NoDup_singleton].
    intros x Hx ->%list_elem_of_singleton. by apply He.
  - intros tr1 id token now tr2 E. apply split_snoc in E as [(-> & <- & ->)|(tr2' & -> & E)]; [apply He|].
    by apply (Hp tr1 id token now tr2').
Qed.

Lemma step_exclusive q tr q1 e q2 :
  exclusive q tr -> remembers q tr q1 -> lease_step q1 e q2 -> exclusive q (tr ++ e).
Proof.
  intros Hx [Rc Rf Rh] Hs. destruct Hs as [id Hid|id tok a dl Hid Hlt|id tok a dl now Hid Hlt|ids now Hids].
  - by rewrite app_nil_r.
  - apply exclusive_snoc; [done|]. intros [_ Hin]%Rc. congruence.
  - apply exclusive_snoc; [done|]. split; [intros Hin%Rf; congruence|].
    exists a, dl. split; [done|]. by apply Rh.
  - by apply exclusive_snoc.
Qed.

(** The ids of a history and the events of it, one more event on. *)
Lemma step_remembers q tr q1 e q2 :
  remembers q tr q1 -> lease_step q1 e q2 -> remembers q (tr ++ e) q2.
Proof.
  intros [Rc Rf Rh] Hs.
  split; unfold claimed_ids, completed_ids in *; intros j; rewrite ?omap_app, ?elem_of_app.
  - intros Hj. destruct Hs as [id Hid|id tok a dl Hid Hlt|id tok a dl now Hid Hlt|ids now Hids].
    + destruct Hj as [Hj|[]%not_elem_of_nil]. apply Rc in Hj. rewrite lookup_insert_ne; naive_solver.
    + destruct (decide (id = j)) as [->|Hne]; [by rewrite lookup_insert_eq|].
      rewrite lookup_insert_ne by done. destruct Hj as [Hj|Hj]; [by apply Rc|]. cbn in Hj. set_solver.
    + destruct (decide (id = j)) as [->|Hne]; [by rewrite lookup_insert_eq|].
      rewrite lookup_insert_ne by done. destruct Hj as [Hj|[]%not_elem_of_nil]. by apply Rc.
    + destruct Hj as [Hj|[]%not_elem_of_nil]. apply Rc in Hj. rewrite lookup_end_all.
      destruct (q1 !! j); [|naive_solver]. cbn. case_bool_decide; naive_solver.
  - intros Hj. destruct Hs as [id Hid|id tok a dl Hid Hlt|id tok a dl now Hid Hlt|ids now Hids].
    + destruct Hj as [Hj|[]%not_elem_of_nil]. apply Rf in Hj. rewrite lookup_insert_ne; congruence.
    + destruct Hj as [Hj|[]%not_elem_of_nil]. apply Rf in Hj. rewrite lookup_insert_ne; congruence.
    + destruct (decide (id = j)) as [->|Hne]; [by rewrite lookup_insert_eq|].
      rewrite lookup_insert_ne by done. destruct Hj as [Hj|Hj]; [by apply Rf|]. cbn in Hj. set_solver.
    + destruct Hj as [Hj|[]%not_elem_of_nil]. apply Rf in Hj. rewrite lookup_end_all, Hj. cbn.
      by case_bool_decide.
  - intros tk at_ dl'. rewrite elem_of_app.
    destruct Hs as [id Hid|id tok a dl Hid Hlt|id tok a dl now Hid Hlt|ids now Hids].
    + rewrite lookup_insert_Some. naive_solver.
    + rewrite lookup_insert_Some. intros [[-> [= <- <- <-]]|[_ Hj]]; [left; right; left|].
      apply Rh in Hj. naive_solver.
    + rewrite lookup_insert_Some. naive_solver.
    + rewrite lookup_end_all. intros (p & Hp & Hq)%fmap_Some. case_bool_decide; [done|]. subst p.
      apply Rh in Hp. naive_solver.
Qed.

Lemma lease_steps_exclusive q tr q' : lease_steps q tr q' -> exclusive q tr /\ remembers q tr q'.
Proof.
  induction 1 as [|tr q1 e q2 _ [Hx Hr] Hs].
  - split.
    + split; [constructor|]. split; [constructor|]. intros tr1 id tok now tr2 E. by destruct tr1.
    + split; [by intros ? ?%not_elem_of_nil..|]. by right.
  - split; [by eapply step_exclusive|by eapply step_remembers].
Qed.

(** ** Tables of lease rows *)

Definition phase_of (l : lease) : phase :=
  match l_state l, claim_token l, claimed_at l, claim_expires_at l with
  | JOB_QUEUED, _, _, _ => Waiting
  | JOB_CLAIMED, Some token, Some at_, Some deadline => Held token at_ deadline
  | _, _, _, _ => Ended
  end.

Class LeaseRowLaws (R : Type) `{LeaseRow R} := {
  row_lease_with : forall (r : R) l, row_lease (with_lease r l) = l;
  row_id_with : forall (r : R) l, row_id (with_lease r l) = row_id r;
  row_check_lease : forall (r : R), row_check r = true ->
    lifecycle_check true (row_lease r) = true /\ timestamps_check (row_lease r) = true;
}.

#[export] Instance parser_row_laws : LeaseRowLaws ParserJobRecord.
Proof. split; [done..|]. intros r H. unfold row_check in H. cbn in *. unfold parser_job_check in H. by bools. Qed.

#[export] Instance indexing_row_laws : LeaseRowLaws IndexingJobRecord.
Proof.
  split; [done..|]. intros r H. unfold row_check in H. cbn in *. unfold indexing_job_check in H. bools.
  split; [|done]. unfold lifecycle_check in *. destruct (l_state (ij_lease r)); [done..| |done].
  bools. discriminate.
Qed.

Section tables.
Context {R : Type} `{LeaseRowLaws R}.
Implicit Types (r : R) (m : gmap uuid R).

(** The queue that a table implements. *)
Definition phases (m : gmap uuid R) : queue := (fun r => phase_of (row_lease r)) <$> m.

Definition wf_rows (m : gmap uuid R) : Prop :=
  forall i r, m !! i = Some r -> row_id r = i /\ row_check r = true.

Lemma lookup_phases m i : phases m !! i = (fun r => phase_of (row_lease r)) <$> m !! i.
Proof. apply lookup_fmap. Qed.

(** An update of the rows that satisfy [p]. *)
Lemma update_rows_Ok p f m rows m' : wf_rows m -> update_rows p f m = Ok (rows, m') ->
  wf_rows m' /\ rows = (fun r => with_lease r (f (row_lease r))) <$> select p m /\
  forall i, m' !! i = (fun r => if p r then with_lease r (f (row_lease r)) else r) <$> m !! i.
Proof.
  intros Hwf Hu. unfold update_rows in Hu. ok_inv. bools. rename H1 into Hch.
  rewrite forallb_Forall, Forall_fmap, Forall_forall in Hch. split; [|split; [done|intros; apply lookup_fmap]].
  intros i r (r0 & <- & Hr)%lookup_fmap_Some. destruct (Hwf _ _ Hr) as [Hid Hc].
  destruct (p r0) eqn:Hp; [|done]. rewrite row_id_with. split; [done|].
  apply Hch, elem_of_select. eauto.
Qed.

Lemma select_nil p m : select p m = [] -> forall i r, m !! i = Some r -> p r = false.
Proof.
  intros E i r Hr. destruct (p r) eqn:Hp; [|done].
  assert (r ∈ select p m) as Hin by (apply elem_of_select; eauto). rewrite E in Hin. by apply not_elem_of_nil in Hin.
Qed.

(** An update that finds at most one row. *)
Lemma update_at p f m rows m' x : wf_rows m -> (forall r, p r = true -> row_id r = x) ->
  update_rows p f m = Ok (rows, m') ->
  (rows = [] /\ m' = m) \/
  exists r, m !! x = Some r /\ p r = true /\ rows = [with_lease r (f (row_lease r))] /\
    row_check (with_lease r (f (row_lease r))) = true /\
    m' = <[x := with_lease r (f (row_lease r))]> m.
Proof.
  intros Hwf Hx Hu. destruct (update_rows_Ok _ _ _ _ _ Hwf Hu) as (Hwf' & -> & Hm).
  assert (forall i r, m !! i = Some r -> p r = true -> i = x) as Hone.
  { intros i r Hr Hp. destruct (Hwf _ _ Hr) as [<- _]. by apply Hx. }
  destruct (select_unique p m row_id) as [E|(r & E & Hp & Hr)].
  { intros i r Hr. by apply Hwf. }
  { intros i j r s Hi Hj Hpi Hpj. by rewrite (Hone _ _ Hi Hpi), (Hone _ _ Hj Hpj). }
  - left. rewrite E. split; [done|]. apply map_eq. intros i. rewrite Hm. destruct (m !! i) as [r|] eqn:Hr; [|done].
    cbn. by rewrite (select_nil p m E _ _ Hr).
  - right. rewrite (Hx _ Hp) in Hr. exists r. rewrite E. split_and!; [done..| |].
    + apply (Hwf' x). by rewrite Hm, Hr; cbn; rewrite Hp.
    + apply map_eq. intros i. rewrite Hm. destruct (decide (i = x)) as [->|Hne].
      * rewrite lookup_insert_eq, Hr. cbn. by rewrite Hp.
      * rewrite lookup_insert_ne by done. destruct (m !! i) as [s|] eqn:Hs; [|done]. cbn.
        destruct (p s) eqn:Hps; [|done]. destruct Hne. by eapply Hone.
Qed.

Lemma update_one p f m rows m' x : wf_rows m -> (forall r, p r = true -> row_id r = x) ->
  update_rows p f m = Ok (rows, m') ->
  (rows = [] /\ m' = m) \/
  exists r, m !! x = Some r /\ p r = true /\ rows = [with_lease r (f (row_lease r))] /\
    row_check (with_lease r (f (row_lease r))) = true /\
    phases m' = <[x := phase_of (f (row_lease r))]> (phases m).
Proof.
  intros Hwf Hx Hu. destruct (update_at _ _ _ _ _ _ Hwf Hx Hu) as [?|(r & Hr & Hp & Hrows & Hc & ->)]; [by left|].
  right. exists r. split_and!; [done..|]. unfold phases. by rewrite fmap_insert, row_lease_with.
Qed.

Lemma lease_in_true s l : lease_in s l = true <-> l_state l = s.
Proof. unfold lease_in. apply bool_decide_eq_true. Qed.

Lemma holds_lease_true token at_ deadline now l : holds_lease token at_ deadline now l = true <->
  l_state l = JOB_CLAIMED /\ claim_token l = Some token /\ claimed_at l = Some at_ /\
  claim_expires_at l = Some deadline /\ at_ <= now < deadline.
Proof.
  unfold holds_lease, is_uuid, is_at. rewrite !andb_true_iff, lease_in_true.
  destruct (claim_token l) as [t|], (claimed_at l) as [a|], (claim_expires_at l) as [e|];
    rewrite ?N.eqb_eq, ?Z.eqb_eq, ?Z.leb_le, ?Z.ltb_lt; naive_solver.
Qed.

(** The time constraints of a claimed row. *)
Lemma held_before_deadline r token at_ deadline : row_check r = true ->
  phase_of (row_lease r) = Held token at_ deadline ->
  l_state (row_lease r) = JOB_CLAIMED /\ claim_token (row_lease r) = Some token /\
  claimed_at (row_lease r) = Some at_ /\ claim_expires_at (row_lease r) = Some deadline /\
  at_ < deadline.
Proof.
  intros [Hl Ht]%row_check_lease Hp. unfold phase_of in Hp. unfold timestamps_check, unknown_or in Ht.
  destruct (l_state (row_lease r)), (claim_token (row_lease r)), (claimed_at (row_lease r)),
    (claim_expires_at (row_lease r)); try discriminate Hp. injection Hp as -> -> ->. bools. done.
Qed.

(** The statement of a claim. *)
Lemma claim_rows m p token now deadline rows m' x : wf_rows m ->
  (forall r, p r = true -> row_id r = x /\ l_state (row_lease r) = JOB_QUEUED) ->
  update_rows p (claim_lease token now deadline) m = Ok (rows, m') ->
  (rows = [] /\ m' = m) \/
  exists r, rows = [with_lease r (claim_lease token now deadline (row_lease r))] /\ row_id r = x /\
    lease_step (phases m) [Claimed x token now deadline] (phases m').
Proof.
  intros Hwf Hp Hu. destruct (update_one _ _ _ _ _ x Hwf (fun r h => proj1 (Hp r h)) Hu)
    as [?|(r & Hr & Hpr & -> & Hc & ->)]; [by left|right].
  destruct (Hp r Hpr) as [Hid Hq]. exists r. split_and!; [done..|]. apply step_claim.
  - rewrite lookup_phases, Hr. cbn. unfold phase_of. by rewrite Hq.
  - pose proof (held_before_deadline _ token now deadline Hc). rewrite row_lease_with in *. by apply H1.
Qed.

(** The statement that ends a running lease. *)
Lemma finish_rows m p token at_ deadline now state code rows m' x : wf_rows m ->
  (forall r, p r = true -> row_id r = x /\
                        holds_lease token at_ deadline now (row_lease r) = true) ->
  state <> JOB_QUEUED /\ state <> JOB_CLAIMED ->
  update_rows p (finish_lease state now code) m = Ok (rows, m') ->
  (rows = [] /\ m' = m) \/
  exists r, rows = [r] /\ lease_step (phases m) [Completed x token now] (phases m').
Proof.
  intros Hwf Hp Hs Hu. destruct (update_one _ _ _ _ _ x Hwf (fun r h => proj1 (Hp r h)) Hu)
    as [?|(r & Hr & Hpr & -> & Hc & ->)]; [by left|right].
  destruct (Hp r Hpr) as [_ Hl]. eexists. split; [done|].
  assert (phase_of (row_lease r) = Held token at_ deadline /\ at_ <= now < deadline) as [Hph Hn].
  { apply holds_lease_true in Hl as (Hst & Ht & Ha & He & Hn). split; [|done].
    unfold phase_of. by rewrite Hst, Ht, Ha, He. }
  replace (phase_of (finish_lease state now code (row_lease r))) with Ended
    by (unfold phase_of; cbn; destruct Hs, state; congruence).
  eapply step_complete; [|done]. by rewrite lookup_phases, Hr, <- Hph.
Qed.

(** The statement that ends the leases past their deadline. *)
Lemma expire_rows m p now code rows m' : wf_rows m ->
  (forall r, p r = true -> l_state (row_lease r) = JOB_CLAIMED /\
                        is_at (claim_expires_at (row_lease r)) (fun t => t <=? now) = true) ->
  update_rows p (finish_lease JOB_FAILED now code) m = Ok (rows, m') ->
  lease_step (phases m) [Expired (length rows) now] (phases m').
Proof.
  intros Hwf Hp Hu. destruct (update_rows_Ok _ _ _ _ _ Hwf Hu) as (Hwf' & -> & Hm).
  set (ids := list_to_set (row_id <$> select p m) : gset uuid).
  assert (forall i r, m !! i = Some r -> i ∈ ids <-> p r = true) as Hids.
  { intros i r Hr. unfold ids. rewrite elem_of_list_to_set, list_elem_of_fmap. split.
    - intros (s & -> & [Hps [j Hj]]%elem_of_select). destruct (Hwf _ _ Hj) as [Hjd _].
      rewrite Hjd in Hr. by simplify_eq.
    - intros Hpr. exists r. split; [symmetry; by apply Hwf|]. apply elem_of_select. eauto. }
  assert (length (select p m) = size ids) as Hsize.
  { unfold ids. rewrite size_list_to_set; [by rewrite length_fmap|].
    apply NoDup_fmap_2_strong; [|apply (select_nodup p m row_id); intros i r Hr; by apply Hwf].
    intros r s [_ [i Hi]]%elem_of_select [_ [j Hj]]%elem_of_select E.
    destruct (Hwf _ _ Hi), (Hwf _ _ Hj). congruence. }
  rewrite length_fmap, Hsize. replace (phases m') with (end_all ids (phases m)).
  - apply step_expire. intros i Hi. unfold ids in Hi.
    apply elem_of_list_to_set, list_elem_of_fmap in Hi as (r & -> & [Hpr [j Hj]]%elem_of_select).
    destruct (Hwf _ _ Hj) as [Hjd Hc]. rewrite Hjd, lookup_phases, Hj. cbn.
    destruct (Hp r Hpr) as [Hst He]. apply row_check_lease in Hc as [Hl _].
    unfold lifecycle_check in Hl. rewrite Hst in Hl. unfold phase_of, is_at, has in *. rewrite Hst.
    destruct (claim_token (row_lease r)), (claimed_at (row_lease r)), (claim_expires_at (row_lease r));
      try discriminate. bools. eauto.
  - apply map_eq. intros i. rewrite lookup_end_all, !lookup_phases, Hm.
    destruct (m !! i) as [r|] eqn:Hr; [|done]. cbn. pose proof (Hids _ _ Hr) as Hi.
    destruct (p r) eqn:Hpr; [rewrite bool_decide_true by (by apply Hi)|rewrite bool_decide_false by (by intros ?%Hi)];
      [|done]. by rewrite row_lease_with.
Qed.
End tables.
