(* ===== verification/JobQueues.v ===== *)
(** * The job queues as a system

    A [queue_call] is one call of a repository, with the calls that other
    sessions complete while it runs; a list of calls is an interleaving.  The
    history of each queue records what its callers saw.  Both tables refine
    the abstract queue of [Leases]. *)
From S2P Require Import Prelude PyText Json Digest Effects GeneratedTests Database DatabaseFacts.
From S2P Require Import JobTables ParserJobClaims IndexingJobClaims Leases.

Inductive queue_call :=
  | ParserEnqueue (fault fault2 : bool) (now : datetime) (new_id intake_id : uuid)
      (between : list queue_call)
  | ParserClaim (c : parser_claims) (fault : bool) (clock : datetime) (token : uuid)
      (between : list queue_call)
  | ParserFinish (c : parser_claims) (fault : bool) (clock : datetime) (claim : ClaimedParserJob)
      (rejected : bool)
  | ParserExpire (c : parser_claims) (fault : bool) (clock : datetime)
  | IndexingClaim (c : indexing_claims) (fault : bool) (clock : datetime) (token : uuid)
      (between : list queue_call)
  | IndexingFinish (c : indexing_claims) (fault : bool) (clock : datetime)
      (claim : ClaimedIndexingJob) (accepted : bool)
  | IndexingExpire (c : indexing_claims) (fault : bool) (clock : datetime).

(** A claim that a caller received. *)
Definition log_parser_claim (claim : option ClaimedParserJob) (d : job_db) : job_db :=
  match claim with
  | Some claim => log_parser (Claimed (cp_job_id claim) (cp_claim_token claim)
                                (utc_datetime (cp_claimed_at claim))
                                (utc_datetime (cp_claim_expires_at claim))) d
  | None => d
  end.
Definition log_indexing_claim (claim : option ClaimedIndexingJob) (d : job_db) : job_db :=
  match claim with
  | Some claim => log_indexing (Claimed (ci_job_id claim) (ci_claim_token claim)
                                  (utc_datetime (ci_claimed_at claim))
                                  (utc_datetime (ci_claim_expires_at claim))) d
  | None => d
  end.

(** The tables after a call. *)
Fixpoint run (c : queue_call) (d : job_db) : job_db :=
  let runs calls d := foldl (fun d c => run c d) d calls in
  match c with
  | ParserEnqueue fault fault2 now new_id intake between =>
      (enqueue fault fault2 now new_id intake (runs between) d).2
  | ParserClaim c fault clock token between =>
      match ParserJobClaims.claim_next c fault clock token (runs between) d with
      | (Ok claim, d) => log_parser_claim claim d
      | (_, d) => d
      end
  | ParserFinish c fault clock claim rejected =>
      match (if rejected then reject c fault clock claim
             else ParserJobClaims.fail c fault clock claim) d with
      | (Ok _, d) => log_parser (Completed (cp_job_id claim) (cp_claim_token claim)
                                   (utc_datetime clock)) d
      | (_, d) => d
      end
  | ParserExpire c fault clock =>
      match ParserJobClaims.expire_claims c fault clock d with
      | (Ok n, d) => log_parser (Expired n (utc_datetime clock)) d
      | (_, d) => d
      end
  | IndexingClaim c fault clock token between =>
      match IndexingJobClaims.claim_next c fault clock token (runs between) d with
      | (Ok claim, d) => log_indexing_claim claim d
      | (_, d) => d
      end
  | IndexingFinish c fault clock claim accepted =>
      match (if accepted then accept c fault clock claim
             else IndexingJobClaims.fail c fault clock claim) d with
      | (Ok _, d) => log_indexing (Completed (ci_job_id claim) (ci_claim_token claim)
                                     (utc_datetime clock)) d
      | (_, d) => d
      end
  | IndexingExpire c fault clock =>
      match IndexingJobClaims.expire_claims c fault clock d with
      | (Ok n, d) => log_indexing (Expired n (utc_datetime clock)) d
      | (_, d) => d
      end
  end.

Definition run_all (calls : list queue_call) (d : job_db) : job_db :=
  foldl (fun d c => run c d) d calls.

(** ** Each call is a number of steps of the abstract queues *)

Definition wf_jobs (d : job_db) : Prop := wf_rows (parser_jobs d) /\ wf_rows (indexing_jobs d).

(** [d'] is reached from [d] by steps of both queues, which its histories record. *)
Definition moves (d d' : job_db) : Prop :=
  wf_jobs d -> wf_jobs d' /\ exists ptr itr,
    lease_steps (phases (parser_jobs d)) ptr (phases (parser_jobs d')) /\
    parser_history d' = parser_history d ++ ptr /\
    lease_steps (phases (indexing_jobs d)) itr (phases (indexing_jobs d')) /\
    indexing_history d' = indexing_history d ++ itr.

#[export] Instance moves_preorder : PreOrder moves.
Proof.
  split.
  - intros d Hwf. split; [done|]. exists [], []. rewrite !app_nil_r. split_and!; by constructor.
  - intros d1 d2 d3 H12 H23 Hwf. destruct (H12 Hwf) as (Hwf2 & p & i & Hp & Ep & Hi & Ei).
    destruct (H23 Hwf2) as (Hwf3 & p' & i' & Hp' & Ep' & Hi' & Ei'). split; [done|].
    exists (p ++ p'), (i ++ i'). rewrite Ep', Ei', Ep, Ei, !app_assoc.
    split_and!; try done; by eapply steps_trans.
Qed.

Lemma moves_wf d d' : (wf_jobs d -> moves d d') -> moves d d'.
Proof. intros H Hwf. by apply H. Qed.

(** One step of one queue. *)
Lemma moves_parser d m e d' :
  (wf_rows (parser_jobs d) -> wf_rows m /\ lease_step (phases (parser_jobs d)) e (phases m)) ->
  d' = {| documents := documents d; intakes := intakes d; parser_jobs := m;
          indexing_jobs := indexing_jobs d; parser_history := parser_history d ++ e;
          indexing_history := indexing_history d |} ->
  moves d d'.
Proof.
  intros H -> [Hp Hi]. destruct (H Hp) as [Hm Hs]. split; [by split|]. exists e, []. cbn.
  rewrite app_nil_r. split_and!; [by apply steps_one|done|constructor|done].
Qed.

Lemma moves_indexing d m e d' :
  (wf_rows (indexing_jobs d) -> wf_rows m /\ lease_step (phases (indexing_jobs d)) e (phases m)) ->
  d' = {| documents := documents d; intakes := intakes d; parser_jobs := parser_jobs d;
          indexing_jobs := m; parser_history := parser_history d;
          indexing_history := indexing_history d ++ e |} ->
  moves d d'.
Proof.
  intros H -> [Hp Hi]. destruct (H Hi) as [Hm Hs]. split; [by split|]. exists [], e. cbn.
  rewrite app_nil_r. split_and!; [constructor|done|by apply steps_one|done].
Qed.

(** *** The state that a computation leaves *)

Lemma io_try_raise_run {S A} (m : io S A) h c msg s r s' :
  io_try m h (fun _ => io_raise c msg) s = (r, s') ->
  (exists a, r = Ok a /\ m s = (Ok a, s')) \/ exists e e', r = Raise e /\ m s = (Raise e', s').
Proof.
  unfold io_try, io_raise, lift, raise. destruct (m s) as [[a|e] s1]; [intros [= <- <-]; eauto|].
  destruct (h (exn_cls e)); intros [= <- <-]; right; eauto.
Qed.

Lemma query_state {S A} fault (f : S -> result A) s : (query fault f s).2 = s.
Proof. unfold query, statement. destruct fault; [done|]. by destruct (f s) as [a|e]. Qed.

Lemma statement_state {S A} fault (f : S -> result (A * S)) s r s' :
  statement fault f s = (r, s') ->
  (exists a, r = Ok a /\ f s = Ok (a, s')) \/ (s' = s /\ exists e, r = Raise e).
Proof.
  unfold statement. destruct fault; [intros [= <- <-]; eauto|].
  destruct (f s) as [[a s1]|e]; intros [= <- <-]; eauto.
Qed.

Lemma utc_aware t x : utc t = Ok x -> utc_datetime t = x.
Proof. unfold utc, utc_datetime. destruct (utcoffset t); [congruence|done]. Qed.

Lemma is_uuid_true o x : is_uuid o x = true -> x = default 0%N o.
Proof. destruct o as [y|]; [|done]. cbn. by intros ->%N.eqb_eq. Qed.

(** *** Parser jobs *)

Lemma insert_parser_job_moves r d d' : l_state (pj_lease r) = JOB_QUEUED ->
  insert_parser_job r d = Ok d' -> moves d d'.
Proof.
  intros Hq H. unfold insert_parser_job in H. ok_inv. bools.
  eapply (moves_parser _ (<[pj_id r := r]> (parser_jobs d)) []).
  - intros Hwf. split.
    + intros i s [[<- <-]|[_ Hs]]%lookup_insert_Some; [done|by apply Hwf].
    + unfold phases. rewrite fmap_insert. replace (phase_of (row_lease r)) with Waiting
        by (unfold phase_of; cbn; by rewrite Hq).
      apply step_enqueue. rewrite lookup_fmap. unfold is_null in *. by destruct (parser_jobs d !! pj_id r).
  - unfold with_parser_jobs. by rewrite app_nil_r.
Qed.

Lemma enqueue_moves fault fault2 now new_id intake others d :
  (forall d, moves d (others d)) -> moves d (enqueue fault fault2 now new_id intake others d).2.
Proof.
  intros Ho. unfold enqueue, io_try. destruct (execute _ _ d) as [[[]|e] d1] eqn:E.
  - apply execute_Ok in E as [_ E]. by eapply insert_parser_job_moves; [|exact E].
  - assert (d1 = d) as -> by (unfold execute in E; by apply statement_Raise in E as [-> _]).
    destruct (is_SQLAlchemyError _); [|done]. case_bool_decide; [|done].
    rewrite (io_step _ _ _ tt (others d)) by done. rewrite io_bind_eq.
    unfold parser_unavailable, io_try. pose proof (query_state fault2
      (fun d => Ok (head (select (fun r => (document_intake_id r =? intake)%N) (parser_jobs d)))) (others d)) as Q.
    destruct (query _ _ _) as [[row|e'] d2]; cbn in Q; subst d2.
    + destruct row; apply Ho.
    + destruct (is_SQLAlchemyError _); apply Ho.
Qed.

Definition final (state : JobState) : Prop := state <> JOB_QUEUED /\ state <> JOB_CLAIMED.

Section parser.
Context (c : parser_claims).

Lemma parser_claim_update_moves candidate token now deadline d claim d' :
  ParserJobClaims.claim_update candidate token now deadline d = Ok (claim, d') ->
  moves d (log_parser_claim claim d').
Proof.
  intros H. apply moves_wf. intros [Hwf _].
  unfold ParserJobClaims.claim_update in H. ok_inv. destruct x as [rows m]. cbn [fst snd] in *.
  assert (wf_rows m) as Hm by (by eapply update_rows_Ok).
  assert (forall r, is_uuid candidate (pj_id r) && lease_in JOB_QUEUED (pj_lease r) = true ->
    row_id r = default 0%N candidate /\ l_state (row_lease r) = JOB_QUEUED) as Hp.
  { intros r Hr. bools. split; [by apply is_uuid_true|by apply lease_in_true]. }
  destruct (claim_rows _ _ _ _ _ _ _ _ Hwf Hp H0) as [[-> ->]|(r & -> & Hid & Hs)].
  - injection H1 as <-. cbn. destruct d. reflexivity.
  - injection H1 as <-. eapply (moves_parser _ m); [intros _; split; [done|exact Hs]|].
    unfold log_parser_claim, option_map, log_parser, with_parser_jobs, claimed_parser_job, utc_datetime, at_utc.
    cbn [parser_history documents intakes parser_jobs indexing_jobs indexing_history wall utcoffset
         cp_job_id cp_claim_token cp_claimed_at cp_claim_expires_at].
    rewrite !Z.sub_0_r. cbn in Hid. cbn. by rewrite Hid.
Qed.

Lemma parser_claim_moves fault clock token others d : (forall d, moves d (others d)) ->
  match ParserJobClaims.claim_next c fault clock token others d with
  | (Ok claim, d') => moves d (log_parser_claim claim d')
  | (Raise _, d') => moves d d'
  end.
Proof.
  intros Ho. destruct (ParserJobClaims.claim_next _ _ _ _ _ _) as [r d'] eqn:H.
  unfold ParserJobClaims.claim_next in H. rewrite io_bind_eq in H. unfold lift at 1 in H.
  destruct (utc clock) as [now|e]; [|by injection H as <- <-].
  apply io_try_raise_run in H. rewrite io_bind_eq in H.
  destruct (query false _ d) as [[candidate|e] d1] eqn:Q; [|discriminate Q].
  apply query_Ok in Q as (_ & _ & ->). rewrite (io_step _ _ _ tt (others d)) in H by done.
  destruct H as [(claim & -> & H)|(e & e' & -> & H)].
  - apply statement_Ok in H as [_ H]. etransitivity; [apply Ho|by eapply parser_claim_update_moves].
  - apply statement_Raise in H as [-> _]. apply Ho.
Qed.

Lemma parser_finish_update_moves claim at_ deadline now state code d row d' : final state ->
  ParserJobClaims.finish_update c claim at_ deadline now state code d = Ok (row, d') ->
  match row with
  | Some _ => moves d (log_parser (Completed (cp_job_id claim) (cp_claim_token claim) now) d')
  | None => moves d d'
  end.
Proof.
  intros Hst H. unfold ParserJobClaims.finish_update in H. ok_inv. destruct x as [rows m]. cbn [fst snd] in *.
  assert (forall r, (pj_id r =? cp_job_id claim)%N && ParserJobClaims.scope c r &&
    (document_intake_id r =? cp_document_intake_id claim)%N &&
    holds_lease (cp_claim_token claim) at_ deadline now (pj_lease r) = true ->
    row_id r = cp_job_id claim /\
    holds_lease (cp_claim_token claim) at_ deadline now (row_lease r) = true) as Hp.
  { intros r Hr. bools. by split. }
  enough (wf_rows (parser_jobs d) -> match head rows with
    | Some _ => wf_rows m /\ lease_step (phases (parser_jobs d))
                  [Completed (cp_job_id claim) (cp_claim_token claim) now] (phases m)
    | None => m = parser_jobs d end) as He.
  { destruct (head rows); [by eapply moves_parser|].
    apply moves_wf. intros [Hwf _]. rewrite (He Hwf). destruct d. reflexivity. }
  intros Hwf. destruct (finish_rows _ _ _ _ _ _ _ _ _ _ _ Hwf Hp Hst H0) as [[-> ->]|(r & -> & Hs)]; [done|].
  split; [by eapply update_rows_Ok|done].
Qed.

Lemma parser_finish_moves fault clock claim state code d : final state ->
  match ParserJobClaims.finish c fault clock claim state code d with
  | (Ok _, d') => moves d (log_parser (Completed (cp_job_id claim) (cp_claim_token claim)
                                         (utc_datetime clock)) d')
  | (Raise _, d') => moves d d'
  end.
Proof.
  intros Hst. destruct (ParserJobClaims.finish _ _ _ _ _ _ _) as [r d'] eqn:H.
  unfold ParserJobClaims.finish in H. rewrite io_bind_eq in H. unfold lift at 1 in H.
  destruct (utc clock) as [now|e] eqn:Hnow; [|by injection H as <- <-]. apply utc_aware in Hnow as ->.
  apply io_try_raise_run in H.
  destruct H as [(a & -> & H)|(e & e' & -> & H)].
  - apply io_bind_Ok in H as (at_ & d1 & [_ ->]%lift_Ok & H).
    apply io_bind_Ok in H as (dl & d1 & [_ ->]%lift_Ok & H).
    apply io_bind_Ok in H as (row & d1 & [_ Hu]%statement_Ok & H).
    apply (parser_finish_update_moves _ _ _ _ _ _ _ _ _ Hst) in Hu. by destruct row; io_inv.
  - apply io_bind_Raise in H as [[_ ->]%lift_Raise|(at_ & d1 & [_ ->]%lift_Ok & H)]; [done|].
    apply io_bind_Raise in H as [[_ ->]%lift_Raise|(dl & d1 & [_ ->]%lift_Ok & H)]; [done|].
    apply io_bind_Raise in H as [[-> _]%statement_Raise|(row & d1 & [_ Hu]%statement_Ok & H)]; [done|].
    apply (parser_finish_update_moves _ _ _ _ _ _ _ _ _ Hst) in Hu. destruct row; [discriminate H|]. by io_inv.
Qed.

Lemma parser_expire_moves fault clock d :
  match ParserJobClaims.expire_claims c fault clock d with
  | (Ok n, d') => moves d (log_parser (Expired n (utc_datetime clock)) d')
  | (Raise _, d') => moves d d'
  end.
Proof.
  destruct (ParserJobClaims.expire_claims _ _ _ _) as [r d'] eqn:H.
  unfold ParserJobClaims.expire_claims in H. rewrite io_bind_eq in H. unfold lift in H.
  destruct (utc clock) as [now|e] eqn:Hnow; [|by injection H as <- <-]. apply utc_aware in Hnow as ->.
  apply io_try_raise_run in H.
  destruct H as [(n & -> & [_ H]%statement_Ok)|(e & e' & -> & [-> _]%statement_Raise)]; [|done].
  apply moves_wf. intros [Hwf _]. unfold ParserJobClaims.expire_update in H. ok_inv.
  destruct x as [rows m]. cbn [fst snd].
  eapply (moves_parser _ m); [|done]. intros _. split; [by eapply update_rows_Ok|].
  eapply expire_rows; [done| |done]. intros r Hr. cbv beta in Hr. bools. split; [by apply lease_in_true|done].
Qed.
End parser.

(** *** Indexing jobs *)

Section indexing.
Context (c : indexing_claims).

Lemma indexing_claim_update_moves candidate token now deadline d claim d' :
  IndexingJobClaims.claim_update c candidate token now deadline d = Ok (claim, d') ->
  moves d (log_indexing_claim claim d').
Proof.
  intros H. apply moves_wf. intros [_ Hwf].
  unfold IndexingJobClaims.claim_update in H. ok_inv. destruct x as [rows m]. cbn [fst snd] in *.
  assert (wf_rows m) as Hm by (by eapply update_rows_Ok).
  assert (forall r, is_uuid candidate (ij_id r) && lease_in JOB_QUEUED (ij_lease r) &&
    IndexingJobClaims.scope c r && configuration_scope c r = true ->
    row_id r = default 0%N candidate /\ l_state (row_lease r) = JOB_QUEUED) as Hp.
  { intros r Hr. bools. split; [by apply is_uuid_true|by apply lease_in_true]. }
  destruct (claim_rows _ _ _ _ _ _ _ _ Hwf Hp H0) as [[-> ->]|(r & -> & Hid & Hs)].
  - injection H1 as <-. cbn. destruct d. reflexivity.
  - injection H1 as <-. eapply (moves_indexing _ m); [intros _; split; [done|exact Hs]|].
    unfold log_indexing_claim, option_map, log_indexing, with_indexing_jobs, claimed_indexing_job, utc_datetime, at_utc.
    cbn [parser_history documents intakes parser_jobs indexing_jobs indexing_history wall utcoffset
         ci_job_id ci_claim_token ci_claimed_at ci_claim_expires_at].
    rewrite !Z.sub_0_r. cbn in Hid. cbn. by rewrite Hid.
Qed.

Lemma indexing_claim_moves fault clock token others d : (forall d, moves d (others d)) ->
  match IndexingJobClaims.claim_next c fault clock token others d with
  | (Ok claim, d') => moves d (log_indexing_claim claim d')
  | (Raise _, d') => moves d d'
  end.
Proof.
  intros Ho. destruct (IndexingJobClaims.claim_next _ _ _ _ _ _) as [r d'] eqn:H.
  unfold IndexingJobClaims.claim_next in H. rewrite io_bind_eq in H. unfold lift at 1 in H.
  destruct (utc clock) as [now|e]; [|by injection H as <- <-].
  apply io_try_raise_run in H. rewrite io_bind_eq in H.
  destruct (query false _ d) as [[candidate|e] d1] eqn:Q; [|discriminate Q].
  apply query_Ok in Q as (_ & _ & ->). rewrite (io_step _ _ _ tt (others d)) in H by done.
  destruct H as [(claim & -> & H)|(e & e' & -> & H)].
  - apply statement_Ok in H as [_ H]. etransitivity; [apply Ho|by eapply indexing_claim_update_moves].
  - apply statement_Raise in H as [-> _]. apply Ho.
Qed.

Lemma indexing_finish_update_moves claim at_ deadline now state code d row d' : final state ->
  IndexingJobClaims.finish_update c claim at_ deadline now state code d = Ok (row, d') ->
  match row with
  | Some _ => moves d (log_indexing (Completed (ci_job_id claim) (ci_claim_token claim) now) d')
  | None => moves d d'
  end.
Proof.
  intros Hst H. unfold IndexingJobClaims.finish_update in H. ok_inv. destruct x as [rows m]. cbn [fst snd] in *.
  assert (forall r, (ij_id r =? ci_job_id claim)%N && IndexingJobClaims.scope c r &&
    configuration_scope c r && describes claim r &&
    holds_lease (ci_claim_token claim) at_ deadline now (ij_lease r) = true ->
    row_id r = ci_job_id claim /\
    holds_lease (ci_claim_token claim) at_ deadline now (row_lease r) = true) as Hp.
  { intros r Hr. bools. by split. }
  enough (wf_rows (indexing_jobs d) -> match head rows with
    | Some _ => wf_rows m /\ lease_step (phases (indexing_jobs d))
                  [Completed (ci_job_id claim) (ci_claim_token claim) now] (phases m)
    | None => m = indexing_jobs d end) as He.
  { destruct (head rows); [by eapply moves_indexing|].
    apply moves_wf. intros [_ Hwf]. rewrite (He Hwf). destruct d. reflexivity. }
  intros Hwf. destruct (finish_rows _ _ _ _ _ _ _ _ _ _ _ Hwf Hp Hst H0) as [[-> ->]|(r & -> & Hs)]; [done|].
  split; [by eapply update_rows_Ok|done].
Qed.

Lemma indexing_finish_moves fault clock claim state code d : final state ->
  match IndexingJobClaims.finish c fault clock claim state code d with
  | (Ok _, d') => moves d (log_indexing (Completed (ci_job_id claim) (ci_claim_token claim)
                                         (utc_datetime clock)) d')
  | (Raise _, d') => moves d d'
  end.
Proof.
  intros Hst. destruct (IndexingJobClaims.finish _ _ _ _ _ _ _) as [r d'] eqn:H.
  unfold IndexingJobClaims.finish in H. rewrite io_bind_eq in H. unfold lift at 1 in H.
  destruct (utc clock) as [now|e] eqn:Hnow; [|by injection H as <- <-]. apply utc_aware in Hnow as ->.
  apply io_try_raise_run in H.
  destruct H as [(a & -> & H)|(e & e' & -> & H)].
  - apply io_bind_Ok in H as (at_ & d1 & [_ ->]%lift_Ok & H).
    apply io_bind_Ok in H as (dl & d1 & [_ ->]%lift_Ok & H).
    apply io_bind_Ok in H as (row & d1 & [_ Hu]%statement_Ok & H).
    apply (indexing_finish_update_moves _ _ _ _ _ _ _ _ _ Hst) in Hu. by destruct row; io_inv.
  - apply io_bind_Raise in H as [[_ ->]%lift_Raise|(at_ & d1 & [_ ->]%lift_Ok & H)]; [done|].
    apply io_bind_Raise in H as [[_ ->]%lift_Raise|(dl & d1 & [_ ->]%lift_Ok & H)]; [done|].
    apply io_bind_Raise in H as [[-> _]%statement_Raise|(row & d1 & [_ Hu]%statement_Ok & H)]; [done|].
    apply (indexing_finish_update_moves _ _ _ _ _ _ _ _ _ Hst) in Hu. destruct row; [discriminate H|]. by io_inv.
Qed.

Lemma indexing_expire_moves fault clock d :
  match IndexingJobClaims.expire_claims c fault clock d with
  | (Ok n, d') => moves d (log_indexing (Expired n (utc_datetime clock)) d')
  | (Raise _, d') => moves d d'
  end.
Proof.
  destruct (IndexingJobClaims.expire_claims _ _ _ _) as [r d'] eqn:H.
  unfold IndexingJobClaims.expire_claims in H. rewrite io_bind_eq in H. unfold lift in H.
  destruct (utc clock) as [now|e] eqn:Hnow; [|by injection H as <- <-]. apply utc_aware in Hnow as ->.
  apply io_try_raise_run in H.
  destruct H as [(n & -> & [_ H]%statement_Ok)|(e & e' & -> & [-> _]%statement_Raise)]; [|done].
  apply moves_wf. intros [_ Hwf]. unfold IndexingJobClaims.expire_update in H. ok_inv.
  destruct x as [rows m]. cbn [fst snd].
  eapply (moves_indexing _ m); [|done]. intros _. split; [by eapply update_rows_Ok|].
  eapply expire_rows; [done| |done]. intros r Hr. cbv beta in Hr. bools. split; [by apply lease_in_true|done].
Qed.
End indexing.

(** *** Whole runs *)

Lemma foldl_moves (f : job_db -> queue_call -> job_db) calls d :
  Forall (fun c => forall d, moves d (f d c)) calls -> moves d (foldl f d calls).
Proof.
  intros H. revert d. induction H as [|c calls Hc _ IH]; intros d; [done|]. cbn.
  etransitivity; [apply Hc|apply IH].
Qed.

(** Induction on calls and on the calls inside them. *)
Fixpoint queue_call_nested (P : queue_call -> Prop)
    (HE : forall fault fault2 now new_id intake l, Forall P l ->
       P (ParserEnqueue fault fault2 now new_id intake l))
    (HC : forall c fault clock token l, Forall P l -> P (ParserClaim c fault clock token l))
    (HF : forall c fault clock claim b, P (ParserFinish c fault clock claim b))
    (HX : forall c fault clock, P (ParserExpire c fault clock))
    (IC : forall c fault clock token l, Forall P l -> P (IndexingClaim c fault clock token l))
    (IF_ : forall c fault clock claim b, P (IndexingFinish c fault clock claim b))
    (IX : forall c fault clock, P (IndexingExpire c fault clock)) (c : queue_call) : P c :=
  let all := fix all (l : list queue_call) : Forall P l :=
    match l with
    | [] => List.Forall_nil _
    | c :: l => List.Forall_cons _ _ _ (queue_call_nested P HE HC HF HX IC IF_ IX c) (all l)
    end in
  match c with
  | ParserEnqueue fault fault2 now new_id intake l => HE _ _ _ _ _ l (all l)
  | ParserClaim c fault clock token l => HC _ _ _ _ l (all l)
  | ParserFinish c fault clock claim b => HF _ _ _ _ _
  | ParserExpire c fault clock => HX _ _ _
  | IndexingClaim c fault clock token l => IC _ _ _ _ l (all l)
  | IndexingFinish c fault clock claim b => IF_ _ _ _ _ _
  | IndexingExpire c fault clock => IX _ _ _
  end.

Lemma run_moves c d : moves d (run c d).
Proof.
  revert d. induction c as [fault fault2 now new_id intake l IH|c fault clock token l IH
    |c fault clock claim b|c fault clock|c fault clock token l IH|c fault clock claim b|c fault clock]
    using queue_call_nested; intros d; cbn [run].
  - apply enqueue_moves. intros d0. by apply foldl_moves.
  - pose proof (parser_claim_moves c fault clock token (fun d => foldl (fun d c => run c d) d l) d) as H.
    destruct (ParserJobClaims.claim_next _ _ _ _ _ _) as [[claim|e] d']; apply H; intros; by apply foldl_moves.
  - destruct b; unfold reject, ParserJobClaims.fail;
      match goal with |- context [ParserJobClaims.finish ?c ?f ?t ?k ?s ?x d] =>
        pose proof (parser_finish_moves c f t k s x d) as H;
        destruct (ParserJobClaims.finish c f t k s x d) as [[[]|e] d'] end; by apply H.
  - pose proof (parser_expire_moves c fault clock d) as H.
    by destruct (ParserJobClaims.expire_claims c fault clock d) as [[n|e] d'].
  - pose proof (indexing_claim_moves c fault clock token (fun d => foldl (fun d c => run c d) d l) d) as H.
    destruct (IndexingJobClaims.claim_next _ _ _ _ _ _) as [[claim|e] d']; apply H; intros; by apply foldl_moves.
  - destruct b; unfold accept, IndexingJobClaims.fail;
      match goal with |- context [IndexingJobClaims.finish ?c ?f ?t ?k ?s ?x d] =>
        pose proof (indexing_finish_moves c f t k s x d) as H;
        destruct (IndexingJobClaims.finish c f t k s x d) as [[[]|e] d'] end; by apply H.
  - pose proof (indexing_expire_moves c fault clock d) as H.
    by destruct (IndexingJobClaims.expire_claims c fault clock d) as [[n|e] d'].
Qed.

Lemma run_all_moves calls d : moves d (run_all calls d).
Proof. apply foldl_moves, Forall_true. intros c d0. apply run_moves. Qed.
