(* ===== verification/JobQueuesSpec.v ===== *)
(** * The operations of the job queues

    What a claim, its completion and the reading of a claim duration return
    and leave in the tables, without other sessions at work; the witnesses of
    the queues' theorems. *)
From S2P Require Import Prelude PyText Json JsonFacts AsciiRuntime Digest Effects GeneratedTests.
From S2P Require Import Database DatabaseFacts JobTables ParserJobClaims IndexingJobClaims.
From S2P Require Import Leases JobQueues.

(** ** The queues as a system *)

(** C6: The two job tables refine the abstract queue: whatever calls are made
    in whatever interleaving, with whatever clocks and database failures, each
    table only moves as its abstract queue may, and what the callers of the
    repositories observed is what that queue says they observe. *)
Theorem queues_refine_leases calls d : wf_jobs d ->
  let d' := run_all calls d in
  wf_jobs d' /\ exists ptr itr,
    lease_steps (phases (parser_jobs d)) ptr (phases (parser_jobs d')) /\
    parser_history d' = parser_history d ++ ptr /\
    lease_steps (phases (indexing_jobs d)) itr (phases (indexing_jobs d')) /\
    indexing_history d' = indexing_history d ++ itr.
Proof. intros Hwf d'. by apply run_all_moves. Qed.

(** C7: A lease is exclusive: a job is claimed at most once and completed at
    most once, by the caller that presents the token of its claim, not before
    the claim and before the deadline; no call can retry an abandoned job. *)
Theorem leases_are_exclusive calls d :
  wf_jobs d -> parser_history d = [] -> indexing_history d = [] ->
  let d' := run_all calls d in
  exclusive (phases (parser_jobs d)) (parser_history d') /\
  exclusive (phases (indexing_jobs d)) (indexing_history d').
Proof.
  intros Hwf Hp Hi d'. destruct (run_all_moves calls d Hwf) as (_ & ptr & itr & H1 & E1 & H2 & E2).
  fold d' in E1, E2. rewrite E1, E2, Hp, Hi. cbn [app].
  split; by eapply lease_steps_exclusive.
Qed.

(** ** Single updates *)

Section rows.
Context {R : Type} `{LeaseRowLaws R}.
Implicit Types (r : R) (m : gmap uuid R).

#[export] Instance row_le_total : Total (row_le (R:=R)).
Proof. intros a b. unfold row_le. lia. Qed.
#[export] Instance row_le_trans : Transitive (row_le (R:=R)).
Proof. intros a b c. unfold row_le. lia. Qed.

(** An update of no row, and of one. *)
Lemma update_none p f m : (forall i r, m !! i = Some r -> p r = false) ->
  update_rows p f m = Ok ([], m).
Proof.
  intros Hp. unfold update_rows. assert (select p m = []) as ->.
  { destruct (select p m) as [|r l] eqn:E; [done|]. exfalso.
    assert (r ∈ select p m) as [Hr [i Hi]]%elem_of_select by (rewrite E; left).
    by rewrite (Hp _ _ Hi) in Hr. }
  cbn. do 2 f_equal. apply map_eq. intros i. rewrite lookup_fmap.
  destruct (m !! i) as [r|] eqn:Hr; [|done]. cbn. by rewrite (Hp _ _ Hr).
Qed.

Lemma update_the p f m r : wf_rows m -> m !! row_id r = Some r -> p r = true ->
  (forall i s, m !! i = Some s -> p s = true -> i = row_id r) ->
  row_check (with_lease r (f (row_lease r))) = true ->
  update_rows p f m = Ok ([with_lease r (f (row_lease r))],
                          <[row_id r := with_lease r (f (row_lease r))]> m).
Proof.
  intros Hwf Hr Hp Hone Hc.
  pose proof (select_by_key p m row_id _ _ (fun i s h => proj1 (Hwf i s h)) Hr Hp Hone) as Hs.
  unfold update_rows. destruct (select p m) as [|x [|]]; cbn in Hs; try discriminate.
  injection Hs as ->. cbn. rewrite Hc. cbn. do 2 f_equal. apply map_eq. intros i.
  rewrite lookup_fmap. destruct (decide (i = row_id r)) as [->|Hne].
  - rewrite lookup_insert_eq, Hr. cbn. by rewrite Hp.
  - rewrite lookup_insert_ne by done. destruct (m !! i) as [s|] eqn:Hi; [|done]. cbn.
    destruct (p s) eqn:Hps; [|done]. by destruct Hne, (Hone _ _ Hi Hps).
Qed.
End rows.

(** ** Claiming *)

Lemma claimed_check now deadline token r :
  parser_job_check r = true -> l_state (pj_lease r) = JOB_QUEUED ->
  created_at (pj_lease r) <= now < deadline ->
  parser_job_check (with_lease r (claim_lease token now deadline (pj_lease r))) = true.
Proof.
  intros Hc Hq Hn. unfold parser_job_check, lifecycle_check, timestamps_check, parser_failure_code_check,
    has in *. rewrite Hq in Hc. cbn. bools. unfold is_null in *.
  destruct (completed_at _), (failure_code _); try discriminate. cbn. bool_goal; lia.
Qed.

Lemma claimable_true c now d r : ParserJobClaims.claimable c now d r = true ->
  l_state (pj_lease r) = JOB_QUEUED /\ created_at (pj_lease r) <= now.
Proof.
  unfold ParserJobClaims.claimable. destruct (intakes d !! _); [|done]. destruct (_ ≫= _); [|done].
  intros H. bools. split; [by apply lease_in_true|done].
Qed.

(** What a claim without rivals finds and does. *)
Definition claims_oldest (c : parser_claims) (now : instant) (token : uuid) (d : job_db)
    (claim : option ClaimedParserJob) (d' : job_db) : Prop :=
  match claim with
  | Some claim => exists r,
      parser_jobs d !! pj_id r = Some r /\ ParserJobClaims.claimable c now d r = true /\
      (forall i s, parser_jobs d !! i = Some s -> ParserJobClaims.claimable c now d s = true -> row_le r s) /\
      claim = claimed_parser_job token now (now + pc_duration c) r /\
      d' = with_parser_jobs d (<[pj_id r :=
             with_lease r (claim_lease token now (now + pc_duration c) (pj_lease r))]> (parser_jobs d))
  | None => d' = d /\ forall i r, parser_jobs d !! i = Some r -> ParserJobClaims.claimable c now d r = false
  end.

Lemma claim_next_oldest c clock now token d : wf_jobs d -> 0 < pc_duration c ->
  utc clock = Ok now ->
  exists claim d', ParserJobClaims.claim_next c false clock token (fun d => d) d = (Ok claim, d') /\
    claims_oldest c now token d claim d'.
Proof.
  intros [Hwf _] Hd Hnow. unfold ParserJobClaims.claim_next. io_run.
  pose proof (head_merge_sort row_le (select (ParserJobClaims.claimable c now d) (parser_jobs d))) as Hh.
  unfold parser_unavailable, io_try. erewrite io_step by (apply query_Ok; split_and!; done).
  rewrite (io_step _ _ _ tt d) by done. unfold statement, ParserJobClaims.claim_update.
  destruct (head _) as [r|]; cbn [fmap option_fmap option_map].
  - destruct Hh as [[Hc [i Hi]]%elem_of_select Hle]. destruct (Hwf _ _ Hi) as [<- Hck].
    destruct (claimable_true _ _ _ _ Hc) as [Hq Hcr].
    rewrite update_the with (r := r).
    + eexists _, _. split; [reflexivity|]. exists r. split_and!; [done..| |done|done].
      intros i s Hs Hcs. apply Hle, elem_of_select. eauto.
    + done.
    + done.
    + cbn. rewrite N.eqb_refl. by apply lease_in_true.
    + intros i s Hs Hp. bools. destruct (Hwf _ _ Hs) as [<- _]. cbn in *. symmetry. by apply N.eqb_eq.
    + apply claimed_check; [done..|lia].
  - rewrite update_none by done. eexists _, _. split; [reflexivity|]. split; [by destruct d|].
    intros i r Hi. destruct (ParserJobClaims.claimable c now d r) eqn:Hc; [|done]. exfalso.
    apply (not_elem_of_nil r). rewrite <- Hh. apply elem_of_select. eauto.
Qed.

(** A claim is first in, first out: without rivals it takes the oldest
    queued job whose document is quarantined, of a type and intake in scope
    and not created in the future, leases it until the claim's duration has
    passed and changes nothing else; it finds nothing exactly when there is
    no such job. *)
Theorem parser_claim_oldest duration intake types c clock now token d :
  make_parser_claims duration intake types = Ok c -> wf_jobs d -> utc clock = Ok now ->
  exists claim d', ParserJobClaims.claim_next c false clock token (fun d => d) d = (Ok claim, d') /\
    claims_oldest c now token d claim d'.
Proof.
  intros Hc Hwf Hnow. apply claim_next_oldest; [done| |done].
  unfold make_parser_claims in Hc. ok_inv. bools. done.
Qed.

(** ** Ending a claim *)

Definition ended_state (rejected : bool) : JobState :=
  if rejected then JOB_REJECTED else JOB_FAILED.
Definition ended_code (rejected : bool) : pystr :=
  if rejected then u "PARSER_DOCUMENT_REJECTED" else u "PARSER_WORKER_FAILED".

Lemma ended_check at_ deadline now token rejected r :
  parser_job_check r = true -> holds_lease token at_ deadline now (pj_lease r) = true ->
  parser_job_check (with_lease r (finish_lease (ended_state rejected) now
                                    (Some (ended_code rejected)) (pj_lease r))) = true.
Proof.
  intros Hc (Hq & Ht & Ha & He & Hn)%holds_lease_true.
  unfold parser_job_check, lifecycle_check, timestamps_check, parser_failure_code_check, has in *.
  rewrite Hq, Ha in Hc. cbn. rewrite Ht, Ha, He. rewrite He in Hc. bools. cbn in *. bools.
  destruct rejected; cbn; bool_goal; try done; try lia; try apply str_eqb_refl; set_solver.
Qed.

(** The claim is that of a running lease of the job. *)
Definition active (c : parser_claims) (claim : ClaimedParserJob) (at_ deadline now : instant)
    (r : ParserJobRecord) : bool :=
  ParserJobClaims.scope c r && (document_intake_id r =? cp_document_intake_id claim)%N &&
  holds_lease (cp_claim_token claim) at_ deadline now (pj_lease r).

Lemma finish_eq c clock claim state code d now at_ deadline : utc clock = Ok now ->
  utc (cp_claimed_at claim) = Ok at_ -> utc (cp_claim_expires_at claim) = Ok deadline ->
  ParserJobClaims.finish c false clock claim state code d =
  match ParserJobClaims.finish_update c claim at_ deadline now state code d with
  | Ok (Some _, d') => (Ok tt, d')
  | Ok (None, d') => (raise ParserJobClaimRejected "Parser job claim is not active", d')
  | Raise e => parser_unavailable (lift (Raise e)) d
  end.
Proof.
  intros Hnow Hat Hdl. unfold ParserJobClaims.finish. rewrite io_bind_eq. unfold lift at 1. rewrite Hnow.
  unfold parser_unavailable, io_try. rewrite io_bind_eq. unfold lift at 1. rewrite Hat.
  rewrite io_bind_eq. unfold lift at 1. rewrite Hdl. rewrite io_bind_eq. unfold statement.
  by destruct (ParserJobClaims.finish_update _ _ _ _ _ _ _ _) as [[[r|] d']|e].
Qed.

(** Only the holder of a running lease can end it: [reject] and [fail]
    record their outcome in the job of the claim when its token, its times,
    its intake and the scope match and the deadline has not passed, and
    otherwise raise [ParserJobClaimRejected] and change nothing. *)
Theorem parser_finish_spec c clock claim rejected d now at_ deadline :
  wf_jobs d -> utc clock = Ok now -> utc (cp_claimed_at claim) = Ok at_ ->
  utc (cp_claim_expires_at claim) = Ok deadline ->
  let finish := if rejected : bool then reject c false clock claim
                else ParserJobClaims.fail c false clock claim in
  let refused := (raise ParserJobClaimRejected "Parser job claim is not active", d) in
  match parser_jobs d !! cp_job_id claim with
  | Some r =>
      if active c claim at_ deadline now r
      then finish d = (Ok tt, with_parser_jobs d (<[cp_job_id claim :=
             with_lease r (finish_lease (ended_state rejected) now (Some (ended_code rejected))
                             (pj_lease r))]> (parser_jobs d)))
      else finish d = refused
  | None => finish d = refused
  end.
Proof.
  intros [Hwf _] Hnow Hat Hdl finish refused.
  assert (finish = ParserJobClaims.finish c false clock claim (ended_state rejected)
                     (ended_code rejected)) as -> by (subst finish; by destruct rejected).
  rewrite (finish_eq c clock claim _ _ d now at_ deadline Hnow Hat Hdl). subst refused.
  unfold ParserJobClaims.finish_update.
  assert (forall i s, parser_jobs d !! i = Some s -> (pj_id s =? cp_job_id claim)%N = true ->
    i = cp_job_id claim) as Hkey.
  { intros i s Hs Hi. bools. destruct (Hwf _ _ Hs) as [<- _]. done. }
  destruct (parser_jobs d !! cp_job_id claim) as [r|] eqn:Hr.
  - destruct (Hwf _ _ Hr) as [Hid Hck]. cbn in Hid.
    destruct (active c claim at_ deadline now r) eqn:Ha; unfold active in Ha.
    + bools. rewrite update_the with (r := r).
      * cbn. by rewrite Hid.
      * done.
      * cbn. by rewrite Hid.
      * rewrite Hid. bool_goal; try done; by apply N.eqb_eq.
      * intros i s Hs Hp. cbn. rewrite Hid. bools. apply (Hkey i s Hs). by apply N.eqb_eq.
      * by eapply ended_check.
    + rewrite update_none; [cbn; by destruct d|]. intros i s Hs.
      destruct (pj_id s =? cp_job_id claim)%N eqn:Hi; [|done].
      pose proof (Hkey i s Hs Hi) as ->. rewrite Hr in Hs. injection Hs as <-. done.
  - rewrite update_none; [cbn; by destruct d|]. intros i s Hs.
    destruct (pj_id s =? cp_job_id claim)%N eqn:Hi; [|done].
    pose proof (Hkey i s Hs Hi) as ->. by rewrite Hr in Hs.
Qed.

(** ** Claim durations *)

(** A configured lease is between one second and one hour: the duration
    is 60 seconds when the variable is not set, and otherwise the number of
    seconds that its text spells in at most 4300 decimal digits; any other
    text raises a [ValueError]. *)
Theorem claim_duration_spec `{PyRuntime} name environ :
  match claim_duration_from_environment name environ, dict_get name environ with
  | Ok t, None => t = seconds 60
  | Ok t, Some raw => ascii_digits (strip raw) = true /\ zlen (strip raw) <= 4300 /\
      t = seconds (Z.of_N (N_of_digits (strip raw))) /\ seconds 1 <= t <= seconds 3600
  | Raise e, Some raw => is_ValueError (exn_cls e) = true /\
      ~ (ascii_digits (strip raw) = true /\ zlen (strip raw) <= 4300 /\
         1 <= Z.of_N (N_of_digits (strip raw)) <= 3600)
  | Raise _, None => False
  end.
Proof.
  unfold claim_duration_from_environment, int_of_digits, MAX_CLAIM_DURATION_SECONDS, seconds.
  destruct (dict_get name environ) as [raw|]; [|done].
  destruct (ascii_digits (strip raw)) eqn:Hd; cbn [negb raise_if]; [rewrite !bind_ok|cbn; naive_solver].
  generalize (zlen (strip raw)), (Z.of_N (N_of_digits (strip raw))). clear. intros k n.
  destruct (4300 <? k) eqn:Hk; bools; cbn [raise_if]; [cbn; split; [done|lia]|rewrite !bind_ok].
  destruct (n <=? 0) eqn:Hn; bools; cbn [raise_if]; [cbn; split; [done|lia]|rewrite !bind_ok].
  destruct (3600 <? n) eqn:Hm; bools; cbn [raise_if]; [cbn; split; [done|lia]|rewrite !bind_ok].
  split_and!; try done; lia.
Qed.

(** ** Concrete inputs *)

Definition sample_parser_job : ParserJobRecord := {|
  pj_id := 7; document_intake_id := 5; pj_lease := queued_lease 10 |}.
Definition sample_jobs : job_db := {|
  documents := {[ 3%N := {| doc_id := 3; doc_project_id := 1; document_type := u "markdown";
                            display_name := u "Orders"; doc_created_at := 5 |} ]};
  intakes := {[ 5%N := {| in_id := 5; in_project_id := 1; in_document_id := Some 3%N;
                          in_document_version_id := Some 4%N; in_state := QUARANTINED;
                          quarantine_key := Some (u "k"); original_filename := u "orders.md";
                          declared_content_type := u "text/markdown"; in_byte_size := 4;
                          in_content_sha256 := Some []; rejection_code := None;
                          in_created_at := 6 |} ]};
  parser_jobs := {[ 7%N := sample_parser_job ]}; indexing_jobs := ∅;
  parser_history := []; indexing_history := [] |}.

Definition sample_scope : parser_claims := {|
  pc_duration := seconds 60; pc_intake_id := None;
  pc_document_types := Some [u "markdown"; u "text"] |}.
Definition sample_claim : ClaimedParserJob := {|
  cp_job_id := 7; cp_document_intake_id := 5; cp_claim_token := 9;
  cp_claimed_at := at_utc 20; cp_claim_expires_at := at_utc (20 + seconds 60) |}.
Definition sample_claimed_jobs : job_db :=
  with_parser_jobs sample_jobs {[ 7%N := with_lease sample_parser_job
    (claim_lease 9 20 (20 + seconds 60) (pj_lease sample_parser_job)) ]}.

Lemma singleton_wf {R} `{LeaseRow R} (r : R) : row_check r = true -> wf_rows {[ row_id r := r ]}.
Proof. by intros Hc i s [<- <-]%lookup_singleton_Some. Qed.

Lemma sample_jobs_wf : wf_jobs sample_jobs.
Proof. split; [exact (singleton_wf sample_parser_job eq_refl)|by intros i r Hr]. Qed.

Lemma sample_claimed_jobs_wf : wf_jobs sample_claimed_jobs.
Proof.
  split; [|by intros i r Hr]. exact (singleton_wf (with_lease sample_parser_job
    (claim_lease 9 20 (20 + seconds 60) (pj_lease sample_parser_job))) eq_refl).
Qed.

Lemma parser_claim_oldest_witness :
  ParserJobClaims.claim_next sample_scope false (at_utc 20) 9 (fun d => d) sample_jobs =
    (Ok (Some sample_claim), sample_claimed_jobs) /\
  exists claim d', ParserJobClaims.claim_next sample_scope false (at_utc 20) 9 (fun d => d)
      sample_jobs = (Ok claim, d') /\ claims_oldest sample_scope 20 9 sample_jobs claim d'.
Proof.
  split; [by vm_compute|].
  apply (parser_claim_oldest (seconds 60) None (Some [u "markdown"; u "text"])).
  - reflexivity.
  - exact sample_jobs_wf.
  - reflexivity.
Defined.

Lemma parser_finish_spec_witness :
  (exists r, parser_jobs sample_claimed_jobs !! 7%N = Some r /\
     active sample_scope sample_claim 20 (20 + seconds 60) 30 r = true) /\
  match parser_jobs sample_claimed_jobs !! 7%N with
  | Some r =>
      if active sample_scope sample_claim 20 (20 + seconds 60) 30 r
      then reject sample_scope false (at_utc 30) sample_claim sample_claimed_jobs =
           (Ok tt, with_parser_jobs sample_claimed_jobs (<[7%N :=
              with_lease r (finish_lease JOB_REJECTED 30 (Some (u "PARSER_DOCUMENT_REJECTED"))
                              (pj_lease r))]> (parser_jobs sample_claimed_jobs)))
      else reject sample_scope false (at_utc 30) sample_claim sample_claimed_jobs =
           (raise ParserJobClaimRejected "Parser job claim is not active", sample_claimed_jobs)
  | None => reject sample_scope false (at_utc 30) sample_claim sample_claimed_jobs =
           (raise ParserJobClaimRejected "Parser job claim is not active", sample_claimed_jobs)
  end.
Proof.
  split; [eexists; split; [reflexivity|by vm_compute]|].
  exact (parser_finish_spec sample_scope (at_utc 30) sample_claim true sample_claimed_jobs 30 20
           (20 + seconds 60) sample_claimed_jobs_wf eq_refl eq_refl eq_refl).
Defined.

(** A claim, another session's late one, and the outcome of the first. *)
Definition sample_queue_calls : list queue_call :=
  [ParserClaim sample_scope false (at_utc 20) 9 [ParserClaim sample_scope false (at_utc 21) 8 []];
   ParserFinish sample_scope false (at_utc 30) sample_claim false;
   ParserFinish sample_scope false (at_utc 30)
     {| cp_job_id := 7; cp_document_intake_id := 5; cp_claim_token := 8;
        cp_claimed_at := at_utc 21; cp_claim_expires_at := at_utc (21 + seconds 60) |} false].

Example sample_queue_history :
  parser_history (run_all sample_queue_calls sample_jobs) =
  [Claimed 7 8 21 (21 + seconds 60); Completed 7 8 30].
Proof. by vm_compute. Qed.

Lemma queues_refine_leases_witness :
  wf_jobs (run_all sample_queue_calls sample_jobs) /\ exists ptr itr,
    lease_steps (phases (parser_jobs sample_jobs)) ptr
      (phases (parser_jobs (run_all sample_queue_calls sample_jobs))) /\
    parser_history (run_all sample_queue_calls sample_jobs) = parser_history sample_jobs ++ ptr /\
    lease_steps (phases (indexing_jobs sample_jobs)) itr
      (phases (indexing_jobs (run_all sample_queue_calls sample_jobs))) /\
    indexing_history (run_all sample_queue_calls sample_jobs) =
      indexing_history sample_jobs ++ itr.
Proof. exact (queues_refine_leases sample_queue_calls sample_jobs sample_jobs_wf). Defined.

Lemma leases_are_exclusive_witness :
  exclusive (phases (parser_jobs sample_jobs))
    (parser_history (run_all sample_queue_calls sample_jobs)) /\
  exclusive (phases (indexing_jobs sample_jobs))
    (indexing_history (run_all sample_queue_calls sample_jobs)).
Proof.
  exact (leases_are_exclusive sample_queue_calls sample_jobs sample_jobs_wf eq_refl eq_refl).
Defined.
