(* ===== verification/Indexing.v ===== *)
(** * Indexing ([indexing.py])

    Normalized sections are split into chunks, each distinct chunk text is
    embedded once per project and configuration, and every chunk is attached
    to its embedding.  The store of that state is an interface, implemented
    here by the in-memory store and in [IndexingStore] by the SQL one; the
    embedding adapter is an interface as well.  A vector is a list of floats. *)
From Stdlib Require Import Floats.SpecFloat.
From S2P Require Import Prelude PyText Json Digest Effects GeneratedTests TargetRegistry.
From S2P Require Import ExecutionPlans IndexingJobClaims.

Definition DEFAULT_MAX_CHUNK_CHARACTERS : Z := 1000.
Definition DEFAULT_OVERLAP_CHARACTERS : Z := 100.

(** ** Data *)

Record ChunkingConfiguration := {
  chunking_version : pystr;
  max_characters : Z;
  overlap_characters : Z;
}.
Record EmbeddingConfiguration := { model : pystr; embedding_version : pystr }.
#[export] Instance embedding_configuration_eq_dec : EqDecision EmbeddingConfiguration.
Proof. solve_decision. Defined.

Record NormalizedSection := {
  section_id : uuid;
  section_location_id : uuid;
  section_ordinal : Z;
  section_text : pystr;
}.
Record ChunkDraft := {
  draft_section_id : uuid;
  draft_location_id : uuid;
  draft_ordinal : Z;
  draft_text : pystr;
  draft_sha256 : pystr;
  draft_chunking_version : pystr;
}.
Record IndexedChunk := { chunk_id : uuid; chunk_sha256 : pystr; chunk_text : pystr }.
Record CachedEmbedding := {
  embedding_id : uuid;
  embedding_project_id : uuid;
  embedding_sha256 : pystr;
  embedding_configuration : EmbeddingConfiguration;
  embedding_values : list spec_float;
}.
Record IndexingResult := {
  indexed_version_id : uuid;
  chunk_count : nat;
  chunks_created : nat;
  embeddings_created : nat;
  embedding_cache_hits : nat;
}.

(** ** Validation *)

Section validation.
Context {rt : PyRuntime}.

(** [not value.strip()] *)
Definition blank (s : pystr) : bool := bool_decide (strip s = []).

(** [ChunkingConfiguration.validate] *)
Definition validate_chunking (c : ChunkingConfiguration) : result unit :=
  raise_if (blank (chunking_version c)) ValueError "Chunking version must be non-empty" ;;
  raise_if (max_characters c <? 1) ValueError "Chunk maximum must be positive" ;;
  raise_if (negb ((0 <=? overlap_characters c) && (overlap_characters c <? max_characters c)))
    ValueError "Chunk overlap must be non-negative and smaller than maximum".

(** [EmbeddingConfiguration.validate] *)
Definition validate_embedding_configuration (c : EmbeddingConfiguration) : result unit :=
  raise_if (blank (model c) || blank (embedding_version c)) ValueError
    "Embedding model and version must be non-empty".

(** [NormalizedSection.validate] *)
Definition validate_section (s : NormalizedSection) : result unit :=
  raise_if ((section_ordinal s <? 0) || blank (section_text s)) ValueError
    "Normalized sections require an ordinal and non-empty text".
End validation.

(** [CachedEmbedding.validate] *)
Definition validate_cached (e : CachedEmbedding) : result unit :=
  raise_if (bool_decide (embedding_values e = []) ||
            existsb (fun x => negb (float_finite x)) (embedding_values e))
    EmbeddingProtocolError "Embedding vectors must be finite and non-empty".

(** ** Chunking *)

Definition space : pystr := [32%N].

(** [_overlap_words]: the loop over the words from the last one. *)
Fixpoint take_overlap (limit length : Z) (reversed overlap : list pystr) : list pystr :=
  match reversed with
  | [] => overlap
  | word :: rest =>
      let addition := zlen word + (if bool_decide (overlap = []) then 0 else 1) in
      if limit <? length + addition then overlap
      else take_overlap limit (length + addition) rest (overlap ++ [word])
  end.
Definition overlap_words (words : list pystr) (limit : Z) : list pystr :=
  if limit =? 0 then [] else reverse (take_overlap limit 0 (reverse words) []).

(** The loop of [_split_text] over the words: [chunks], [current] and
    [current_length] so far. *)
Fixpoint split_words (c : ChunkingConfiguration) (words : list pystr) (chunks : list pystr)
    (current : list pystr) (current_length : Z) : result (list pystr) :=
  match words with
  | [] => Ok (if bool_decide (current = []) then chunks else chunks ++ [join space current])
  | word :: rest =>
      raise_if (max_characters c <? zlen word) ValueError
        "A normalized token exceeds the chunk maximum" ;;
      let addition := zlen word + (if bool_decide (current = []) then 0 else 1) in
      let '(chunks, current, current_length) :=
        if negb (bool_decide (current = [])) && (max_characters c <? current_length + addition)
        then let kept := overlap_words current (overlap_characters c) in
             (chunks ++ [join space current], kept, zlen (join space kept))
        else (chunks, current, current_length) in
      let current := current ++ [word] in
      split_words c rest chunks current
        (current_length + zlen word + (if 1 <? zlen current then 1 else 0))
  end.

Section chunking.
Context {rt : PyRuntime}.

(** [_split_text] *)
Definition split_text (text : pystr) (c : ChunkingConfiguration) : result (list pystr) :=
  let normalized := join space (split_ws text) in
  if zlen normalized <=? max_characters c then Ok [normalized]
  else split_words c (split_on 32 normalized) [] [] 0.

(** [sha256(text.encode("utf-8")).hexdigest()] *)
Definition content_sha256 (text : pystr) : result pystr := sha256_hex <$> encode text.

(** The inner loop of [_chunk_sections]: one section's chunks from an ordinal. *)
Fixpoint section_drafts (s : NormalizedSection) (c : ChunkingConfiguration) (ordinal : Z)
    (texts : list pystr) : result (list ChunkDraft) :=
  match texts with
  | [] => Ok []
  | text :: texts =>
      digest ← content_sha256 text;
      rest ← section_drafts s c (ordinal + 1) texts;
      Ok ({| draft_section_id := section_id s; draft_location_id := section_location_id s;
             draft_ordinal := ordinal; draft_text := text; draft_sha256 := digest;
             draft_chunking_version := chunking_version c |} :: rest)
  end.

(** [_chunk_sections] *)
Fixpoint chunk_sections (sections : list NormalizedSection) (c : ChunkingConfiguration)
    (ordinal : Z) : result (list ChunkDraft) :=
  match sections with
  | [] => Ok []
  | s :: sections =>
      texts ← split_text (section_text s) c;
      drafts ← section_drafts s c ordinal texts;
      rest ← chunk_sections sections c (ordinal + zlen texts);
      Ok (drafts ++ rest)
  end.
End chunking.

(** ** The interfaces *)

(** [ChunkEmbeddingStore] *)
Class ChunkEmbeddingStore (S : Type) := {
  sections_for_version : uuid -> uuid -> io S (list NormalizedSection);
  chunks_for_version : uuid -> pystr -> io S (list IndexedChunk);
  create_chunks : uuid -> list ChunkDraft -> io S (list IndexedChunk);
  cached_embedding : uuid -> pystr -> EmbeddingConfiguration -> io S (option CachedEmbedding);
  create_embedding : uuid -> pystr -> EmbeddingConfiguration -> list spec_float ->
    io S CachedEmbedding;
  attach_embedding : uuid -> uuid -> EmbeddingConfiguration -> io S unit;
}.

(** [EmbeddingAdapter] *)
Class EmbeddingAdapter (S : Type) := {
  embed : list pystr -> EmbeddingConfiguration -> io S (list (list spec_float));
}.

(** ** [IndexingService.index] *)

Definition section_le (a b : NormalizedSection) : Prop := section_ordinal a <= section_ordinal b.
#[export] Instance section_le_dec a b : Decision (section_le a b).
Proof. unfold section_le. apply _. Defined.

Definition dict_setdefault {A} (k : pystr) (v : A) (d : list (pystr * A)) : list (pystr * A) :=
  match dict_get k d with Some _ => d | None => d ++ [(k, v)] end.

Section service.
Context {rt : PyRuntime} {S : Type} {store : ChunkEmbeddingStore S} {adapter : EmbeddingAdapter S}.
Context (chunking : ChunkingConfiguration) (embedding : EmbeddingConfiguration).

(** [IndexingService.__init__] *)
Definition service_init : result unit :=
  validate_chunking chunking ;; validate_embedding_configuration embedding.

Abbreviation cache := (list (pystr * CachedEmbedding)).

(** The loop that looks the chunks up: [cache], [misses] and [hits] so far. *)
Fixpoint look_up (project_id : uuid) (chunks : list IndexedChunk) (cached : cache)
    (misses : list (pystr * pystr)) (hits : nat) :
    io S (cache * list (pystr * pystr) * nat) :=
  match chunks with
  | [] => mret (cached, misses, hits)
  | chunk :: chunks =>
      found ← cached_embedding project_id (chunk_sha256 chunk) embedding;
      match found with
      | None =>
          look_up project_id chunks cached
            (dict_setdefault (chunk_sha256 chunk) (chunk_text chunk) misses) hits
      | Some e =>
          lift (validate_cached e) ;;
          look_up project_id chunks (dict_set (chunk_sha256 chunk) e cached) misses (hits + 1)
      end
  end.

(** The loop that stores the new vectors. *)
Fixpoint store_vectors (project_id : uuid) (new : list (pystr * list spec_float))
    (cached : cache) : io S cache :=
  match new with
  | [] => mret cached
  | (digest, values) :: new =>
      e ← create_embedding project_id digest embedding values;
      lift (validate_cached e) ;;
      store_vectors project_id new (dict_set digest e cached)
  end.

(** [if misses: ...] *)
Definition embed_misses (project_id : uuid) (misses : list (pystr * pystr)) (cached : cache) :
    io S cache :=
  match misses with
  | [] => mret cached
  | _ =>
      vectors ← embed misses.*2 embedding;
      lift (raise_if (negb (bool_decide (length vectors = length misses))) EmbeddingProtocolError
              "Embedding adapter returned an unexpected vector count") ;;
      store_vectors project_id (zip misses.*1 vectors) cached
  end.

Fixpoint attach_all (chunks : list IndexedChunk) (cached : cache) : io S unit :=
  match chunks with
  | [] => mret tt
  | chunk :: chunks =>
      e ← lift (or_raise (dict_get (chunk_sha256 chunk) cached) (Exn KeyError ""));
      attach_embedding (chunk_id chunk) (embedding_id e) embedding ;;
      attach_all chunks cached
  end.

(** The chunks of a version, created from its sections when it has none. *)
Definition chunks_of (version_id : uuid) (sections : list NormalizedSection) :
    io S (list IndexedChunk * nat) :=
  chunks ← chunks_for_version version_id (chunking_version chunking);
  match chunks with
  | [] =>
      drafts ← lift (chunk_sections sections chunking 0);
      chunks ← create_chunks version_id drafts;
      mret (chunks, length chunks)
  | _ => mret (chunks, 0%nat)
  end.

Definition index (project_id version_id : uuid) : io S IndexingResult :=
  rows ← sections_for_version project_id version_id;
  let sections := stable_sort section_le rows in
  lift (foldr (fun s rest => validate_section s ;; rest) (Ok tt) sections) ;;
  created ← chunks_of version_id sections;
  looked ← look_up project_id created.1 [] [] 0;
  cached ← embed_misses project_id looked.1.2 looked.1.1;
  attach_all created.1 cached ;;
  mret {| indexed_version_id := version_id; chunk_count := length created.1;
          chunks_created := created.2; embeddings_created := length looked.1.2;
          embedding_cache_hits := looked.2 |}.
End service.

(** ** The in-memory store and the fake adapter *)

Abbreviation cache_key := (uuid * pystr * pystr * pystr)%type.

(** [InMemoryChunkEmbeddingStore] and [FakeEmbeddingAdapter]; [draws] counts
    the calls of [uuid4]. *)
Record memory := {
  m_sections : gmap (uuid * uuid) (list NormalizedSection);
  m_chunks : gmap (uuid * pystr) (list IndexedChunk);
  m_cache : gmap cache_key CachedEmbedding;
  attachments : gmap (uuid * pystr * pystr) uuid;
  draws : N;
  vectors_by_text : gmap pystr (list spec_float);
  adapter_requests : list (list pystr);
}.

Definition with_chunks (m : memory) (cs : gmap (uuid * pystr) (list IndexedChunk)) (n : N) :
    memory := {|
  m_sections := m_sections m; m_chunks := cs; m_cache := m_cache m; attachments := attachments m;
  draws := draws m + n; vectors_by_text := vectors_by_text m;
  adapter_requests := adapter_requests m |}.
Definition with_cache (m : memory) (c : gmap cache_key CachedEmbedding) : memory := {|
  m_sections := m_sections m; m_chunks := m_chunks m; m_cache := c; attachments := attachments m;
  draws := draws m; vectors_by_text := vectors_by_text m;
  adapter_requests := adapter_requests m |}.
Definition with_attachments (m : memory) (a : gmap (uuid * pystr * pystr) uuid) : memory := {|
  m_sections := m_sections m; m_chunks := m_chunks m; m_cache := m_cache m; attachments := a;
  draws := draws m; vectors_by_text := vectors_by_text m;
  adapter_requests := adapter_requests m |}.
Definition draw (m : memory) : memory := with_chunks m (m_chunks m) 1.
Definition log_adapter_request (texts : list pystr) (m : memory) : memory := {|
  m_sections := m_sections m; m_chunks := m_chunks m; m_cache := m_cache m;
  attachments := attachments m; draws := draws m; vectors_by_text := vectors_by_text m;
  adapter_requests := adapter_requests m ++ [texts] |}.

Section in_memory.
Context {rt : PyRuntime} (uuid4 : N -> uuid).

(** New chunks of drafts, with identifiers from the [n]-th draw on. *)
Fixpoint new_chunks (n : N) (drafts : list ChunkDraft) : list IndexedChunk :=
  match drafts with
  | [] => []
  | d :: drafts =>
      {| chunk_id := uuid4 n; chunk_sha256 := draft_sha256 d; chunk_text := draft_text d |}
      :: new_chunks (n + 1) drafts
  end.

Definition memory_create_chunks (version_id : uuid) (drafts : list ChunkDraft) :
    io memory (list IndexedChunk) := fun m =>
  match drafts with
  | [] => (Ok [], m)
  | first :: _ =>
      let key := (version_id, draft_chunking_version first) in
      match m_chunks m !! key with
      | Some chunks => (Ok chunks, m)
      | None =>
          let chunks := new_chunks (draws m) drafts in
          (Ok chunks, with_chunks m (<[key := chunks]> (m_chunks m)) (N.of_nat (length drafts)))
      end
  end.

Definition memory_key (project_id : uuid) (digest : pystr) (c : EmbeddingConfiguration) :
    cache_key := (project_id, digest, model c, embedding_version c).

Definition memory_create_embedding (project_id : uuid) (digest : pystr)
    (c : EmbeddingConfiguration) (values : list spec_float) : io memory CachedEmbedding := fun m =>
  let key := memory_key project_id digest c in
  match m_cache m !! key with
  | Some existing => (Ok existing, m)
  | None =>
      let e := {| embedding_id := uuid4 (draws m); embedding_project_id := project_id;
                  embedding_sha256 := digest; embedding_configuration := c;
                  embedding_values := values |} in
      let m := draw m in
      match validate_cached e with
      | Raise x => (Raise x, m)
      | Ok _ => (Ok e, with_cache m (<[key := e]> (m_cache m)))
      end
  end.

#[export] Instance memory_store : ChunkEmbeddingStore memory := {|
  sections_for_version project_id version_id m :=
    (Ok (default [] (m_sections m !! (project_id, version_id))), m);
  chunks_for_version version_id version m :=
    (Ok (default [] (m_chunks m !! (version_id, version))), m);
  create_chunks := memory_create_chunks;
  cached_embedding project_id digest c m :=
    (Ok (m_cache m !! memory_key project_id digest c), m);
  create_embedding := memory_create_embedding;
  attach_embedding id embedding c m :=
    (Ok tt, with_attachments m (<[(id, model c, embedding_version c) := embedding]> (attachments m)));
|}.

(** [FakeEmbeddingAdapter.embed] *)
#[export] Instance fake_adapter : EmbeddingAdapter memory := {|
  embed texts c m :=
    match validate_embedding_configuration c with
    | Raise e => (Raise e, m)
    | Ok _ =>
        let m := log_adapter_request texts m in
        (or_raise (mapM (fun text => vectors_by_text m !! text) texts)
           (Exn EmbeddingProtocolError "No fake embedding vector was configured"), m)
    end;
|}.
End in_memory.
