(* ===== verification/ChunkingSpec.v ===== *)
(** * Chunking: properties

    How [_split_text] cuts a text: the chunks hold the words of the text in
    order, each chunk after the first begins with the longest run of words of
    its predecessor that fits the overlap, and how long a chunk can be. *)
From S2P Require Import Prelude PyText Json JsonFacts AsciiRuntime Digest Effects GeneratedTests.
From S2P Require Import Samples IndexingJobClaims Indexing.

(** ** Joined words *)

Definition jlen (ws : list pystr) : Z := zlen (join space ws).

Lemma jlen_cons w ws : jlen (w :: ws) = zlen w + (if bool_decide (ws = []) then 0 else 1 + jlen ws).
Proof.
  unfold jlen. destruct ws as [|x ws]; cbn [join bool_decide]; [by rewrite Z.add_0_r|].
  rewrite bool_decide_false by done. change (join space (w :: x :: ws)) with (w ++ space ++ join space (x :: ws)).
  rewrite !zlen_app. change (zlen space) with 1. lia.
Qed.

Lemma jlen_snoc ws w : jlen (ws ++ [w]) = jlen ws + zlen w + (if bool_decide (ws = []) then 0 else 1).
Proof.
  induction ws as [|x ws IH]; [cbn [app]; rewrite jlen_cons; change (jlen []) with 0; cbn; lia|]. cbn [app].
  rewrite !jlen_cons, IH. rewrite (bool_decide_false (ws ++ [w] = [])) by (by destruct ws).
  rewrite (bool_decide_false (x :: ws = [])) by done. case_bool_decide as E; [|lia].
  rewrite E. change (jlen []) with 0. lia.
Qed.

Lemma jlen_nonneg ws : 0 <= jlen ws.
Proof. apply zlen_nonneg. Qed.

(** ** The overlap *)

(** [kept] is the longest run of words at the end of [words] that fits. *)
Definition longest_tail (limit : Z) (words kept : list pystr) : Prop :=
  exists rest, words = rest ++ kept /\ jlen kept <= limit /\
    forall rest' w, rest = rest' ++ [w] -> limit < jlen (w :: kept).

Lemma take_overlap_spec limit reversed overlap : jlen (reverse overlap) <= limit ->
  exists rest, reverse reversed ++ reverse overlap =
               rest ++ reverse (take_overlap limit (jlen (reverse overlap)) reversed overlap) /\
    jlen (reverse (take_overlap limit (jlen (reverse overlap)) reversed overlap)) <= limit /\
    forall rest' w, rest = rest' ++ [w] ->
      limit < jlen (w :: reverse (take_overlap limit (jlen (reverse overlap)) reversed overlap)).
Proof.
  revert overlap. induction reversed as [|word reversed IH]; intros overlap Hfit; cbn [take_overlap].
  - exists []. split; [done|]. split; [done|]. intros rest' w E. by destruct rest'.
  - assert (jlen (reverse overlap) + (zlen word + (if bool_decide (overlap = []) then 0 else 1)) =
            jlen (reverse (overlap ++ [word]))) as Hlen.
    { rewrite reverse_snoc, jlen_cons.
      replace (bool_decide (reverse overlap = [])) with (bool_decide (overlap = [])).
      - case_bool_decide as E; [rewrite E; change (jlen (reverse [])) with 0; lia|lia].
      - apply bool_decide_ext. destruct overlap; [done|]. rewrite reverse_cons. split; [done|].
        intros E. by destruct (reverse overlap). }
    rewrite Hlen. destruct (Z.ltb_spec limit (jlen (reverse (overlap ++ [word])))) as [Hover|Hok].
    + exists (reverse (word :: reversed)). split; [done|]. split; [done|]. intros rest' w E.
      rewrite reverse_cons in E. apply app_inj_tail in E as [_ <-]. by rewrite reverse_snoc in Hover.
    + destruct (IH (overlap ++ [word]) Hok) as (rest & E & H1 & H2). exists rest. split; [|done].
      rewrite <- E, reverse_cons, reverse_snoc. by rewrite <- app_assoc.
Qed.

Lemma overlap_words_spec words limit : 0 <= limit -> Forall (fun w => w <> []) words ->
  longest_tail limit words (overlap_words words limit).
Proof.
  intros Hl Hw. unfold overlap_words. destruct (Z.eqb_spec limit 0) as [->|Hne].
  - exists words. split; [by rewrite app_nil_r|]. split; [done|]. intros rest' w ->.
    apply Forall_app in Hw as [_ Hw]. apply Forall_cons in Hw as [Hw _]. rewrite jlen_cons. cbn.
    destruct w; [done|]. rewrite zlen_cons. pose proof (zlen_nonneg w). lia.
  - destruct (take_overlap_spec limit (reverse words) []) as (rest & E & H); [done|].
    rewrite reverse_involutive, app_nil_r in E. exists rest. by split.
Qed.

(** ** The chunks *)

Section segments.
Context (c : ChunkingConfiguration).

(** A chunk is what it keeps of its predecessor, and fresh words. *)
Definition segment := (list pystr * list pystr)%type.
Definition segment_words (s : segment) : list pystr := s.1 ++ s.2.

(** Within the maximum, unless one word was added to what was kept. *)
Definition segment_fits (s : segment) : Prop :=
  jlen (segment_words s) <= max_characters c \/ (s.1 <> [] /\ exists w, s.2 = [w]).

Fixpoint segmented (previous : list pystr) (segs : list segment) : Prop :=
  match segs with
  | [] => True
  | s :: segs =>
      longest_tail (overlap_characters c) previous s.1 /\ s.2 <> [] /\ segment_fits s /\
      Forall (fun w => zlen w <= max_characters c) s.2 /\ segmented (segment_words s) segs
  end.

Definition chunk_text_of (s : segment) : pystr := join space (segment_words s).

Lemma split_words_segments words : 0 <= overlap_characters c ->
  Forall (fun w => w <> []) words ->
  forall chunks previous kept fresh out,
  Forall (fun w : pystr => w <> []) (kept ++ fresh) ->
  longest_tail (overlap_characters c) previous kept -> fresh <> [] ->
  segment_fits (kept, fresh) -> Forall (fun w => zlen w <= max_characters c) fresh ->
  split_words c words chunks (kept ++ fresh) (jlen (kept ++ fresh)) = Ok out ->
  exists more segs, out = chunks ++ (chunk_text_of <$> (kept, fresh ++ more) :: segs) /\
    segmented previous ((kept, fresh ++ more) :: segs) /\ more ++ concat segs.*2 = words.
Proof.
  intros Ho Hws. induction Hws as [|word words Hw Hws IH]; intros chunks previous kept fresh out Hne Hk Hf Hfit Hall H.
  - cbn [split_words] in H. rewrite bool_decide_false in H by (by destruct kept, fresh).
    injection H as <-. exists [], []. rewrite app_nil_r. by split_and!.
  - cbn [split_words] in H. ok_inv. bools. rename H0 into Hmax.
    assert (kept ++ fresh <> []) as Hcur by (by destruct kept, fresh).
    rewrite !(bool_decide_false (kept ++ fresh = [])) in H by done. cbn [negb andb] in H.
    destruct (Z.ltb_spec (max_characters c) (jlen (kept ++ fresh) + (zlen word + 1))) as [Hover|Hok].
    + set (kept' := overlap_words (kept ++ fresh) (overlap_characters c)) in H.
      assert (longest_tail (overlap_characters c) (kept ++ fresh) kept') as Hk' by by apply overlap_words_spec.
      assert (Forall (fun w : pystr => w <> []) (kept' ++ [word])) as Hne'.
      { apply Forall_app. split; [|by constructor]. destruct Hk' as (rest & E & _). rewrite E in Hne.
        by apply Forall_app in Hne as [_ ?]. }
      replace (zlen (join space kept') + zlen word + (if 1 <? zlen (kept' ++ [word]) then 1 else 0))
        with (jlen (kept' ++ [word])) in H.
      2:{ rewrite jlen_snoc. fold (jlen kept'). rewrite zlen_app. change (zlen [word]) with 1.
          destruct kept' as [|x l]; [done|]. rewrite bool_decide_false, zlen_cons by done.
          rewrite (proj2 (Z.ltb_lt _ _)); [done|]. pose proof (zlen_nonneg l). lia. }
      apply (IH (chunks ++ [join space (kept ++ fresh)]) (kept ++ fresh) kept' [word]) in H
        as (more & segs & -> & Hseg & E); try done; [| |by constructor].
      * exists [], ((kept', [word] ++ more) :: segs). rewrite app_nil_r. split; [|split].
        -- cbn. by rewrite <- app_assoc.
        -- split; [exact Hk|]. split; [exact Hf|]. split; [exact Hfit|]. by split.
        -- cbn. by rewrite <- E.
      * unfold segment_fits, segment_words. cbn [fst snd]. destruct kept' as [|x l]; [left|right].
        -- cbn [app]. rewrite jlen_cons. cbn. lia.
        -- split; [done|]. by exists word.
    + replace (jlen (kept ++ fresh) + zlen word + (if 1 <? zlen ((kept ++ fresh) ++ [word]) then 1 else 0))
        with (jlen (kept ++ (fresh ++ [word]))) in H.
      2:{ rewrite app_assoc, jlen_snoc, (bool_decide_false (kept ++ fresh = [])) by done.
          rewrite zlen_app. change (zlen [word]) with 1. destruct (kept ++ fresh) as [|x l]; [done|].
          rewrite zlen_cons, (proj2 (Z.ltb_lt _ _)); [done|]. pose proof (zlen_nonneg l). lia. }
      rewrite <- app_assoc in H.
      apply (IH chunks previous kept (fresh ++ [word])) in H as (more & segs & -> & Hseg & E).
      * exists (word :: more), segs. rewrite <- app_assoc in *. cbn [app] in *. split_and!; [done..|]. by rewrite <- E.
      * rewrite app_assoc. apply Forall_app. split; [done|by constructor].
      * done.
      * by destruct fresh.
      * left. unfold segment_words. cbn [fst snd]. rewrite app_assoc, jlen_snoc.
        rewrite (bool_decide_false (kept ++ fresh = [])) by done. lia.
      * apply Forall_app. split; [done|]. by constructor.
Qed.
End segments.

(** ** Outcomes *)

Lemma split_words_Ok c words : Forall (fun w => zlen w <= max_characters c) words ->
  forall chunks current n, exists out, split_words c words chunks current n = Ok out.
Proof.
  induction 1 as [|word words Hw _ IH]; intros chunks current n; cbn [split_words]; [by eexists|].
  rewrite (proj2 (Z.ltb_ge _ _) Hw). cbn [raise_if]. rewrite bind_ok.
  destruct (_ && _); apply IH.
Qed.

Lemma split_words_Raise c words : forall chunks current n e,
  split_words c words chunks current n = Raise e ->
  exn_cls e = ValueError /\ exists w, w ∈ words /\ max_characters c < zlen w.
Proof.
  induction words as [|word words IH]; intros chunks current n e H; cbn [split_words] in H; [done|].
  destruct (Z.ltb_spec (max_characters c) (zlen word)) as [Hlt|_]; cbn [raise_if] in H.
  - injection H as <-. split; [done|]. exists word. split; [left|done].
  - rewrite bind_ok in H. destruct (_ && _); apply IH in H as (He & w & Hw & Hm);
      (split; [done|]); exists w; (split; [by right|done]).
Qed.

(** A text of words without separators is the join of those words. *)
Lemma split_on_words (ws : list pystr) : ws <> [] -> Forall (fun w : pystr => ~ (32%N ∈ w)) ws ->
  split_on 32 (join space ws) = ws.
Proof.
  intros Hne Hw. induction Hw as [|w ws Hw Hws IH]; [done|]. clear Hne.
  assert (forall s l, split_on 32 s = l -> split_on 32 (w ++ space ++ s) = w :: l) as Hcons.
  { intros s l <-. clear -Hw. induction w as [|x w IH]; [done|]. cbn [app split_on].
    apply not_elem_of_cons in Hw as [Hx Hw]. rewrite (proj2 (N.eqb_neq _ _)) by congruence.
    by rewrite (IH Hw). }
  destruct ws as [|w' ws]; [|by apply Hcons, IH].
  cbn [join]. clear -Hw. induction w as [|x w IH]; [done|]. cbn [split_on].
  apply not_elem_of_cons in Hw as [Hx Hw]. rewrite (proj2 (N.eqb_neq _ _)) by congruence. by rewrite (IH Hw).
Qed.

Section text.
Context `{!PyRuntimeLaws rt}.

Lemma isspace_32 : cp_isspace 32 = true.
Proof. rewrite isspace_ascii; done. Qed.

Lemma split_ws_words s : Forall (fun w => w <> [] /\ ~ (32%N ∈ w)) (split_ws s).
Proof.
  unfold split_ws. assert (forall cur : pystr, Forall (fun x => cp_isspace x = false) cur ->
    Forall (fun w => w <> [] /\ ~ (32%N ∈ w)) (split_ws_aux cur s)) as H; [|by apply H].
  assert (forall cur : pystr, cur <> [] -> Forall (fun x => cp_isspace x = false) cur ->
    reverse cur <> [] /\ ~ (32%N ∈ reverse cur)) as Hrev.
  { intros cur Hne Hc. split.
    - intros E. apply Hne. by rewrite <- (reverse_involutive cur), E.
    - rewrite elem_of_reverse. intros Hin. rewrite Forall_forall in Hc. apply Hc in Hin.
      by rewrite isspace_32 in Hin. }
  induction s as [|x s IH]; intros cur Hc; cbn [split_ws_aux].
  - destruct cur; [done|]. constructor; [by apply Hrev|done].
  - destruct (cp_isspace x) eqn:Hx.
    + destruct cur; [by apply IH|]. constructor; [by apply Hrev|by apply IH].
    + apply IH. by constructor.
Qed.

(** The words of a text, and what its chunks say of them. *)
Definition chunks_text (c : ChunkingConfiguration) (words chunks : list pystr) : Prop :=
  if jlen words <=? max_characters c then chunks = [join space words]
  else exists segs, chunks = chunk_text_of <$> segs /\ segmented c [] segs /\ concat segs.*2 = words.

Lemma segment_bound c previous segs : 0 <= overlap_characters c ->
  segmented c previous segs ->
  Forall (fun s => jlen (segment_words s) <= max_characters c + overlap_characters c + 1) segs.
Proof.
  intros Ho. revert previous. induction segs as [|[kept fresh] segs IH]; intros previous H; [done|].
  destruct H as ((rest & _ & Hk & _) & Hf & Hfit & Hall & H). constructor; [|by eapply IH].
  destruct Hfit as [Hfit|[Hne [w Hw]]]; [lia|]. cbn in Hw, Hall, Hk. subst fresh.
  apply Forall_cons in Hall as [Hw _]. unfold segment_words. cbn [fst snd]. rewrite jlen_snoc.
  case_bool_decide; lia.
Qed.

(** A text is split into chunks that hold its words in order: each chunk
    but the first begins with the longest run of words ending its predecessor
    that fits the overlap, followed by at least one new word; the new words
    together are the text.  A chunk is at most one separator and one overlap
    longer than the maximum.  Only a word longer than the maximum is refused. *)
Theorem split_text_spec text c :
  validate_chunking c = Ok tt ->
  match split_text text c with
  | Ok chunks =>
      chunks_text c (split_ws text) chunks /\
      Forall (fun s => zlen s <= max_characters c + overlap_characters c + 1) chunks
  | Raise e => exn_cls e = ValueError /\
      exists w, w ∈ split_ws text /\ max_characters c < zlen w
  end.
Proof.
  intros Hv. unfold validate_chunking in Hv. ok_inv. bools.
  pose proof (split_ws_words text) as Hws. unfold split_text, chunks_text. set (words := split_ws text) in *.
  destruct (Z.leb_spec (zlen (join space words)) (max_characters c)) as [Hle|Hgt].
  { fold (jlen words) in Hle. rewrite (proj2 (Z.leb_le _ _) Hle). split; [done|]. constructor; [|done].
    fold (jlen words). lia. }
  fold (jlen words) in Hgt. rewrite (proj2 (Z.leb_gt _ _) Hgt).
  assert (words <> []) as Hne.
  { intros E. rewrite E in Hgt. change (jlen []) with 0 in Hgt. lia. }
  rewrite split_on_words; [|done|eapply Forall_impl; [exact Hws|by intros w []]].
  destruct (split_words c words [] [] 0) as [chunks|e] eqn:E; [|by apply split_words_Raise in E].
  destruct words as [|word words]; [done|]. cbn [split_words] in E. ok_inv. bools.
  apply Forall_cons in Hws as [[Hw _] Hws]. rewrite !(bool_decide_true ([] = [])) in E by done.
  cbn [andb negb app] in E. change (1 <? zlen [word]) with false in E. cbv iota in E.
  replace (0 + zlen word + 0) with (jlen ([] ++ [word])) in E
    by (cbn [app]; rewrite jlen_cons, bool_decide_true by done; lia).
  apply (split_words_segments c words ltac:(done) ltac:(eapply Forall_impl; [exact Hws|by intros w []])
           [] [] [] [word]) in E as (more & segs & -> & Hseg & Ec); try done.
  - split.
    + exists (([], [word] ++ more) :: segs). split; [done|]. split; [done|]. cbn. by rewrite <- Ec.
    + pose proof (segment_bound c [] _ ltac:(done) Hseg) as Hb. cbn [app]. apply Forall_fmap.
      eapply Forall_impl; [exact Hb|]. done.
  - by constructor.
  - exists []. split; [done|]. split; [done|]. intros rest' w Er. by destruct rest'.
  - left. unfold segment_words. cbn [fst snd app]. rewrite jlen_cons. cbn. lia.
  - by constructor.
Qed.
End text.

(** ** A concrete text *)

Definition small_chunks : ChunkingConfiguration := {|
  chunking_version := DEFAULT_CHUNKING_VERSION; max_characters := 10; overlap_characters := 5 |}.

(** The maximum is exceeded by a word that follows an overlap. *)
Example chunk_exceeds_maximum :
  split_text (u "aaaa bbbb cccccccccc") small_chunks = Ok [u "aaaa bbbb"; u "bbbb cccccccccc"] /\
  max_characters small_chunks < zlen (u "bbbb cccccccccc").
Proof. by vm_compute. Qed.

Lemma split_text_spec_witness :
  validate_chunking small_chunks = Ok tt /\
  match split_text (u "aaaa bbbb cccccccccc") small_chunks with
  | Ok chunks =>
      chunks_text small_chunks (split_ws (u "aaaa bbbb cccccccccc")) chunks /\
      Forall (fun s => zlen s <= 10 + 5 + 1) chunks
  | Raise e => exn_cls e = ValueError /\
      exists w, w ∈ split_ws (u "aaaa bbbb cccccccccc") /\ 10 < zlen w
  end.
Proof.
  split; [reflexivity|].
  exact (split_text_spec (u "aaaa bbbb cccccccccc") small_chunks eq_refl).
Defined.
