(* ===== verification/IndexingSpec.v ===== *)
(** * The indexing service: properties

    [StoreLaws] says what the service relies on of a store and an adapter; the
    in-memory store and the fake adapter satisfy it.  From the laws alone: an
    indexed version has all its chunks attached to embeddings of their own
    text, nothing is embedded twice, and indexing again changes nothing. *)
From Stdlib Require Import Floats.SpecFloat.
From S2P Require Import Prelude PyText Json JsonFacts AsciiRuntime Digest Effects GeneratedTests.
From S2P Require Import TargetRegistry Samples ExecutionPlans IndexingJobClaims Indexing.

(** ** Dictionaries *)

Section dicts.
Context {A : Type}.
Implicit Types (d : list (pystr * A)).

Lemma dict_get_app k d d' :
  dict_get k (d ++ d') = match dict_get k d with Some v => Some v | None => dict_get k d' end.
Proof. induction d as [|[k' v'] d IH]; cbn; [done|]. by destruct (str_eqb k k'). Qed.

Lemma dict_get_setdefault k v d j : dict_get j (dict_setdefault k v d) =
  match dict_get j d with Some x => Some x | None => if str_eqb j k then Some v else None end.
Proof.
  unfold dict_setdefault. destruct (dict_get k d) as [x|] eqn:Hk.
  - destruct (dict_get j d) eqn:Hj; [done|]. destruct (str_eqb j k) eqn:E; [|done].
    apply str_eqb_eq in E as ->. congruence.
  - rewrite dict_get_app. cbn. by destruct (dict_get j d).
Qed.

Lemma dict_get_keys k d : dict_get k d = None <-> k ∉ d.*1.
Proof.
  induction d as [|[k' v'] d IH]; cbn; [split; [intros _; apply not_elem_of_nil|done]|].
  rewrite not_elem_of_cons. destruct (str_eqb k k') eqn:E.
  - apply str_eqb_eq in E. naive_solver.
  - apply str_eqb_neq in E. naive_solver.
Qed.

Lemma setdefault_nodup k v d : NoDup d.*1 -> NoDup (dict_setdefault k v d).*1.
Proof.
  intros Hd. unfold dict_setdefault. destruct (dict_get k d) eqn:Hk; [done|].
  rewrite fmap_app. apply NoDup_app. split; [done|]. split; [|apply NoDup_singleton].
  intros x Hx ->%list_elem_of_singleton. by apply dict_get_keys in Hk.
Qed.
End dicts.

Definition is_Some_b {A} (o : option A) : bool := match o with Some _ => true | None => false end.

(** ** What the service relies on *)

(** The observable parts of a store. *)
Record store_view := {
  v_ok : Prop;  (* the store's own invariant *)
  v_sections : uuid -> uuid -> list NormalizedSection;
  v_chunks : uuid -> pystr -> list IndexedChunk;
  v_cached : uuid -> pystr -> EmbeddingConfiguration -> option CachedEmbedding;
  v_attached : uuid -> EmbeddingConfiguration -> option uuid;
  v_requests : list (list pystr);
}.

(** Two views agree but for the parts that an operation may change. *)
Record agree (chunks cached attached requests : bool) (v v' : store_view) : Prop := {
  ag_ok : v_ok v -> v_ok v';
  ag_sections : forall p i, v_sections v' p i = v_sections v p i;
  ag_chunks : chunks = true -> forall i x, v_chunks v' i x = v_chunks v i x;
  ag_cached : cached = true -> forall p h c, v_cached v' p h c = v_cached v p h c;
  ag_attached : attached = true -> forall i c, v_attached v' i c = v_attached v i c;
  ag_requests : requests = true -> v_requests v' = v_requests v;
}.
Abbreviation same := (agree true true true true).

Lemma agree_refl a b c d v : agree a b c d v v.
Proof. by split. Qed.
Lemma agree_trans a b c d v1 v2 v3 : agree a b c d v1 v2 -> agree a b c d v2 v3 -> agree a b c d v1 v3.
Proof.
  intros [A A0 A1 A2 A3 A4] [B B0 B1 B2 B3 B4]. split; [auto| |intros E; intros..].
  - intros. by rewrite B0, A0. - by rewrite B1, A1. - by rewrite B2, A2. - by rewrite B3, A3.
  - by rewrite B4, A4.
Qed.
Lemma agree_weaken a b c d a' b' c' d' v v' : (a' = true -> a = true) -> (b' = true -> b = true) ->
  (c' = true -> c = true) -> (d' = true -> d = true) -> agree a b c d v v' -> agree a' b' c' d' v v'.
Proof. intros ???? []. split; auto. Qed.

Definition chunk_of_draft (d : ChunkDraft) : pystr * pystr := (draft_sha256 d, draft_text d).
Definition chunk_key (c : IndexedChunk) : pystr * pystr := (chunk_sha256 c, chunk_text c).

Definition draft_lt (a b : ChunkDraft) : Prop := draft_ordinal a < draft_ordinal b.

Class StoreLaws (S : Type) `{ChunkEmbeddingStore S} `{EmbeddingAdapter S} := {
  view : S -> store_view;
  law_sections p i s l s' : sections_for_version p i s = (Ok l, s') ->
    same (view s) (view s') /\ l = v_sections (view s) p i;
  law_chunks i x s l s' : chunks_for_version i x s = (Ok l, s') ->
    same (view s) (view s') /\ l = v_chunks (view s) i x;
  (** creating the chunks of a version that has none *)
  law_create i d drafts s l s' : v_ok (view s) ->
    Forall (fun d' => draft_chunking_version d' = draft_chunking_version d) drafts ->
    StronglySorted draft_lt (d :: drafts) ->
    v_chunks (view s) i (draft_chunking_version d) = [] ->
    create_chunks i (d :: drafts) s = (Ok l, s') ->
    agree false true true true (view s) (view s') /\
    v_chunks (view s') i (draft_chunking_version d) = l /\
    chunk_key <$> l = chunk_of_draft <$> d :: drafts /\
    (forall i' x', (i', x') <> (i, draft_chunking_version d) ->
      v_chunks (view s') i' x' = v_chunks (view s) i' x');
  law_create_nil i s r s' : create_chunks i [] s = (r, s') -> r = Ok [] /\ same (view s) (view s');
  law_cached p h c s o s' : cached_embedding p h c s = (Ok o, s') ->
    same (view s) (view s') /\ o = v_cached (view s) p h c;
  law_create_embedding p h c values s e s' : v_ok (view s) -> create_embedding p h c values s = (Ok e, s') ->
    agree true false true true (view s) (view s') /\
    (forall p' h' c', v_cached (view s') p' h' c' =
       if bool_decide ((p', h', c') = (p, h, c)) then Some e else v_cached (view s) p' h' c') /\
    (forall e', v_cached (view s) p h c = Some e' -> e = e');
  law_attach i x c s s' : v_ok (view s) -> attach_embedding i x c s = (Ok tt, s') ->
    agree true true false true (view s) (view s') /\
    forall i' c', v_attached (view s') i' c' =
      if bool_decide ((i', c') = (i, c)) then Some x else v_attached (view s) i' c';
  law_embed texts c s r s' : embed texts c s = (Ok r, s') ->
    agree true true true false (view s) (view s') /\
    v_requests (view s') = v_requests (view s) ++ [texts];
}.

Lemma section_drafts_versions `{PyRuntime} s c texts : forall n drafts,
  section_drafts s c n texts = Ok drafts ->
  Forall (fun d => draft_chunking_version d = chunking_version c) drafts.
Proof.
  induction texts as [|t texts IH]; intros n drafts Hd; cbn [section_drafts] in Hd; ok_inv; [done|].
  constructor; [done|by eapply IH].
Qed.

Lemma chunk_sections_versions `{PyRuntime} sections c : forall n drafts,
  chunk_sections sections c n = Ok drafts ->
  Forall (fun d => draft_chunking_version d = chunking_version c) drafts.
Proof.
  induction sections as [|s sections IH]; intros n drafts Hd; cbn [chunk_sections] in Hd; ok_inv; [done|].
  apply Forall_app. split; [by eapply section_drafts_versions|by eapply IH].
Qed.

(** The ordinals of the drafts count from the given one. *)
Lemma section_drafts_ordinals `{PyRuntime} s c texts : forall n drafts,
  section_drafts s c n texts = Ok drafts -> draft_ordinal <$> drafts = seqZ n (zlen texts).
Proof.
  induction texts as [|t texts IH]; intros n drafts Hd; cbn [section_drafts] in Hd; ok_inv; [done|].
  rewrite seqZ_cons by (rewrite zlen_cons; pose proof (zlen_nonneg texts); lia).
  cbn. f_equal. rewrite (IH _ _ H1). f_equal. rewrite zlen_cons. lia.
Qed.

Lemma chunk_sections_ordinals `{PyRuntime} sections c : forall n drafts,
  chunk_sections sections c n = Ok drafts -> draft_ordinal <$> drafts = seqZ n (zlen drafts).
Proof.
  induction sections as [|s sections IH]; intros n drafts Hd; cbn [chunk_sections] in Hd; ok_inv; [done|].
  apply section_drafts_ordinals in H1 as Ho. apply IH in H2.
  assert (zlen x0 = zlen x) as Hlen.
  { unfold zlen. rewrite <- (length_fmap draft_ordinal), Ho, length_seqZ. unfold zlen. lia. }
  rewrite zlen_app, seqZ_app by auto with py. by rewrite fmap_app, Ho, H2, Hlen.
Qed.

Lemma seqZ_ordinals drafts n : draft_ordinal <$> drafts = seqZ n (zlen drafts) ->
  StronglySorted draft_lt drafts.
Proof.
  revert n. induction drafts as [|d drafts IH]; intros n Hd; [constructor|].
  rewrite seqZ_cons in Hd by (rewrite zlen_cons; pose proof (zlen_nonneg drafts); lia).
  injection Hd as Hn Hd. replace (Z.pred (zlen (d :: drafts))) with (zlen drafts) in Hd by (rewrite zlen_cons; lia).
  constructor; [by eapply IH|]. rewrite Forall_forall. intros d' Hin. unfold draft_lt.
  assert (draft_ordinal d' ∈ seqZ (Z.succ n) (zlen drafts)) as Hs by (rewrite <- Hd; by apply list_elem_of_fmap_2).
  apply elem_of_seqZ in Hs. lia.
Qed.

(** ** One run *)

Section service.
Context {rt : PyRuntime} {S : Type} {store : ChunkEmbeddingStore S} {adapter : EmbeddingAdapter S}.
Context {laws : StoreLaws S}.
Context (chunking : ChunkingConfiguration) (embedding : EmbeddingConfiguration) (project : uuid).
Abbreviation cached_at s h := (v_cached (view s) project h embedding).

Definition is_cached (s : S) (c : IndexedChunk) : bool := is_Some_b (cached_at s (chunk_sha256 c)).

(** What the look-up loop knows after the chunks [seen]. *)
Record looked_up (s : S) (seen : list IndexedChunk) (cached : list (pystr * CachedEmbedding))
    (misses : list (pystr * pystr)) (hits : nat) : Prop := {
  lu_valid : forall h e, dict_get h cached = Some e ->
    cached_at s h = Some e /\ validate_cached e = Ok tt;
  lu_hit : forall c e, c ∈ seen -> cached_at s (chunk_sha256 c) = Some e ->
    dict_get (chunk_sha256 c) cached = Some e;
  lu_miss : forall h, dict_get h misses <> None <->
    cached_at s h = None /\ h ∈ chunk_sha256 <$> seen;
  lu_once : NoDup misses.*1;
  lu_texts : forall h t, dict_get h misses = Some t -> (h, t) ∈ chunk_key <$> seen;
  lu_hits : hits = length (List.filter (is_cached s) seen);
}.

Lemma look_up_spec chunks : forall seen cached misses hits s0 s r s',
  same (view s0) (view s) -> looked_up s0 seen cached misses hits ->
  look_up embedding project chunks cached misses hits s = (Ok r, s') ->
  same (view s0) (view s') /\ looked_up s0 (seen ++ chunks) r.1.1 r.1.2 r.2.
Proof.
  induction chunks as [|c chunks IH]; intros seen cached misses hits s0 s r s' Hs Hl H; cbn [look_up] in H.
  - injection H as <- <-. by rewrite app_nil_r.
  - apply io_bind_Ok in H as (found & s1 & Hc & H). apply law_cached in Hc as [Hs1 ->].
    pose proof (agree_trans _ _ _ _ _ _ _ Hs Hs1) as Hs01.
    rewrite (ag_cached _ _ _ _ _ _ Hs) in H by done. change (c :: chunks) with ([c] ++ chunks). rewrite app_assoc.
    destruct (cached_at s0 (chunk_sha256 c)) as [e|] eqn:He.
    + apply io_bind_Ok in H as ([] & s2 & [Hv ->]%lift_Ok & H). eapply IH; [exact Hs01| |exact H].
      destruct Hl as [L1 L2 L3 L4 L5 L6]. split.
      * intros h e'. rewrite dict_get_set. destruct (str_eqb h (chunk_sha256 c)) eqn:E; [|apply L1].
        apply str_eqb_eq in E as ->. by intros [= <-].
      * intros c' e' [Hin| ->%list_elem_of_singleton]%elem_of_app He'; rewrite dict_get_set.
        -- destruct (str_eqb _ _) eqn:E; [|by apply L2]. apply str_eqb_eq in E. congruence.
        -- rewrite str_eqb_refl. congruence.
      * intros h. rewrite L3, fmap_app, elem_of_app. split; [naive_solver|].
        intros [Hn [?|Hh%list_elem_of_singleton]]; [done|]. cbn in Hh. congruence.
      * done.
      * intros h t Ht. rewrite fmap_app. apply elem_of_app. left. by apply L5.
      * rewrite List.filter_app, length_app, <- L6. cbn. unfold is_cached, is_Some_b at 1. rewrite He. done.
    + eapply IH; [exact Hs01| |exact H]. destruct Hl as [L1 L2 L3 L4 L5 L6]. split.
      * done.
      * intros c' e' [Hin| ->%list_elem_of_singleton]%elem_of_app He'; [by apply L2|congruence].
      * intros h. rewrite dict_get_setdefault, fmap_app, elem_of_app. specialize (L3 h).
        destruct (dict_get h misses); [naive_solver|]. destruct (str_eqb h (chunk_sha256 c)) eqn:E.
        -- apply str_eqb_eq in E as ->. split; [|done]. intros _. split; [done|right]. cbn. left.
        -- apply str_eqb_neq in E. split; [done|]. intros [Hn [Hin|Hh%list_elem_of_singleton]]; [naive_solver|done].
      * by apply setdefault_nodup.
      * intros h t. rewrite dict_get_setdefault, fmap_app, elem_of_app. specialize (L5 h).
        destruct (dict_get h misses) as [t'|]; [intros [= <-]; left; by apply L5|].
        destruct (str_eqb h _) eqn:E; [|done]. apply str_eqb_eq in E as ->. intros [= <-]. right. left.
      * rewrite List.filter_app, length_app, <- L6. cbn. unfold is_cached, is_Some_b at 1. rewrite He. cbn. lia.
Qed.

(** A cache that agrees with the store. *)
Definition consistent (s : S) (cached : list (pystr * CachedEmbedding)) : Prop :=
  forall h e, dict_get h cached = Some e -> cached_at s h = Some e /\ validate_cached e = Ok tt.

Lemma store_vectors_spec new : forall cached s r s', v_ok (view s) -> consistent s cached ->
  store_vectors embedding project new cached s = (Ok r, s') ->
  agree true false true true (view s) (view s') /\ consistent s' r /\
  (forall h e, cached_at s h = Some e -> cached_at s' h = Some e) /\
  (forall h, dict_get h cached <> None \/ h ∈ new.*1 -> dict_get h r <> None).
Proof.
  induction new as [|[digest values] new IH]; intros cached s r s' Hok Hc H; cbn [store_vectors] in H.
  - injection H as <- <-. split_and!; [apply agree_refl|done|done|].
    intros h [?|Hh]; [done|]. by apply not_elem_of_nil in Hh.
  - apply io_bind_Ok in H as (e & s1 & He & H). apply law_create_embedding in He as (Ha & Hnew & Hold); [|done].
    apply io_bind_Ok in H as ([] & s2 & [Hv ->]%lift_Ok & H).
    assert (forall h x, cached_at s h = Some x -> cached_at s1 h = Some x) as Hmono.
    { intros h x Hx. rewrite Hnew. case_bool_decide as E; [|done]. injection E as ->. f_equal. by apply Hold. }
    apply IH in H as (Ha' & Hc' & Hm' & Hg'); [|by apply (ag_ok _ _ _ _ _ _ Ha)|].
    + split_and!; [by eapply agree_trans|done|by auto|]. intros h Hh. apply Hg'. rewrite dict_get_set.
      destruct (str_eqb h digest) eqn:E; [by left|]. destruct Hh as [?|Hh]; [by left|]. right.
      cbn in Hh. apply elem_of_cons in Hh as [->|?]; [by rewrite str_eqb_refl in E|done].
    + intros h x. rewrite dict_get_set. destruct (str_eqb h digest) eqn:E.
      * apply str_eqb_eq in E as ->. intros [= <-]. split; [|done]. rewrite Hnew. by rewrite bool_decide_true.
      * intros Hx. apply Hc in Hx as [Hx Hvx]. split; [|done]. by apply Hmono.
Qed.

Lemma embed_misses_spec misses cached s r s' : v_ok (view s) -> consistent s cached ->
  embed_misses embedding project misses cached s = (Ok r, s') ->
  agree true false true false (view s) (view s') /\ consistent s' r /\
  (forall h e, cached_at s h = Some e -> cached_at s' h = Some e) /\
  (forall h, dict_get h cached <> None \/ h ∈ misses.*1 -> dict_get h r <> None) /\
  v_requests (view s') = v_requests (view s) ++ match misses with [] => [] | _ => [misses.*2] end /\
  (misses = [] -> r = cached /\ s' = s).
Proof.
  intros Hok Hc H. unfold embed_misses in H. destruct misses as [|m misses].
  - injection H as <- <-. split_and!; try done; [|by rewrite app_nil_r].
    intros h [?|Hh]; [done|]. by apply not_elem_of_nil in Hh.
  - apply io_bind_Ok in H as (vectors & s1 & He & H). apply law_embed in He as [Ha Hr].
    apply io_bind_Ok in H as ([] & s2 & [Hlen ->]%lift_Ok & H). ok_inv. bools.
    apply store_vectors_spec in H as (Ha' & Hc' & Hm & Hg); [|by apply (ag_ok _ _ _ _ _ _ Ha)|].
    + split_and!; try done.
      * eapply agree_trans; [eapply agree_weaken; [..|exact Ha]; done|eapply agree_weaken; [..|exact Ha']; done].
      * intros h e Hh. apply Hm. by rewrite (ag_cached _ _ _ _ _ _ Ha).
      * intros h Hh. apply Hg. destruct Hh as [?|Hh]; [by left|right]. rewrite fst_zip; [done|].
        rewrite length_fmap. lia.
      * by rewrite (ag_requests _ _ _ _ _ _ Ha'), Hr.
    + intros h e Hh. apply Hc in Hh as [Hh ?]. split; [|done]. by rewrite (ag_cached _ _ _ _ _ _ Ha).
Qed.

Lemma attach_all_frame chunks cached : forall s s', v_ok (view s) ->
  attach_all embedding chunks cached s = (Ok tt, s') -> agree true true false true (view s) (view s').
Proof.
  induction chunks as [|c chunks IH]; intros s s' Hok H; cbn [attach_all] in H.
  - injection H as <-. apply agree_refl.
  - apply io_bind_Ok in H as (e & s1 & [_ ->]%lift_Ok & H).
    apply io_bind_Ok in H as ([] & s2 & Ha & H). apply law_attach in Ha as [Ha _]; [|done].
    eapply agree_trans; [exact Ha|apply IH; [by apply (ag_ok _ _ _ _ _ _ Ha)|done]].
Qed.

Lemma attach_all_spec chunks cached : forall s s', v_ok (view s) -> NoDup (chunk_id <$> chunks) ->
  attach_all embedding chunks cached s = (Ok tt, s') ->
  agree true true false true (view s) (view s') /\
  (forall c, c ∈ chunks -> exists e, dict_get (chunk_sha256 c) cached = Some e /\
     v_attached (view s') (chunk_id c) embedding = Some (embedding_id e)) /\
  (forall i c', i ∉ chunk_id <$> chunks \/ c' <> embedding ->
     v_attached (view s') i c' = v_attached (view s) i c').
Proof.
  induction chunks as [|c chunks IH]; intros s s' Hok Hnd H; cbn [attach_all] in H.
  - injection H as <-. split_and!; [apply agree_refl| |done]. by intros c ?%not_elem_of_nil.
  - apply io_bind_Ok in H as (e & s1 & [He ->]%lift_Ok & H). apply or_raise_Ok in He.
    apply io_bind_Ok in H as ([] & s2 & Ha & H). apply law_attach in Ha as [Ha Hat]; [|done].
    cbn [fmap list_fmap] in Hnd. apply NoDup_cons in Hnd as [Hni Hnd].
    apply IH in H as (Ha' & Hall & Hother); [|by apply (ag_ok _ _ _ _ _ _ Ha)|done]. split_and!; [by eapply agree_trans| |].
    + intros c' [->|Hin]%elem_of_cons; [|by apply Hall]. exists e. split; [done|].
      rewrite Hother by (by left). rewrite Hat. by rewrite bool_decide_true.
    + intros i c' Hi. rewrite Hother; [rewrite Hat, bool_decide_false; [done|]|].
      * intros [= -> ->]. destruct Hi as [Hi|?]; [|done]. apply Hi. cbn. left.
      * destruct Hi as [Hi|?]; [left|by right]. cbn [fmap list_fmap] in Hi. by apply not_elem_of_cons in Hi as [_ ?].
Qed.

Abbreviation chunks_at s i := (v_chunks (view s) i (chunking_version chunking)).

Lemma chunks_of_spec version sections s r s' : v_ok (view s) ->
  chunks_of chunking version sections s = (Ok r, s') ->
  agree false true true true (view s) (view s') /\ r.1 = chunks_at s' version /\
  (chunks_at s version <> [] -> r.2 = 0%nat /\ same (view s) (view s')) /\
  (chunks_at s version = [] -> r.2 = length r.1 /\ exists drafts,
     chunk_sections sections chunking 0 = Ok drafts /\ chunk_key <$> r.1 = chunk_of_draft <$> drafts) /\
  (r.1 = [] -> same (view s) (view s')) /\
  (forall i x, (i, x) <> (version, chunking_version chunking) ->
     v_chunks (view s') i x = v_chunks (view s) i x).
Proof.
  intros Hok H. unfold chunks_of in H. apply io_bind_Ok in H as (chunks & s1 & Hc & H).
  apply law_chunks in Hc as [Hs ->]. pose proof (ag_chunks _ _ _ _ _ _ Hs eq_refl) as Hs1.
  assert (agree false true true true (view s) (view s1)) as Hw by by eapply agree_weaken; [..|exact Hs].
  destruct (chunks_at s version) as [|c cs] eqn:E.
  - apply io_bind_Ok in H as (drafts & s2 & [Hd ->]%lift_Ok & H).
    apply io_bind_Ok in H as (chunks & s3 & Hc & H). injection H as <- <-. cbn [fst snd].
    pose proof (chunk_sections_versions _ _ _ _ Hd) as Hv.
    pose proof (seqZ_ordinals _ _ (chunk_sections_ordinals _ _ _ _ Hd)) as Ho.
    destruct drafts as [|d drafts].
    + apply law_create_nil in Hc as [[= ->] Hs']. pose proof (agree_trans _ _ _ _ _ _ _ Hs Hs') as Ht.
      pose proof (ag_chunks _ _ _ _ _ _ Ht eq_refl) as Hs3. rewrite Hs3.
      split_and!; try done; [by eapply agree_weaken; [..|exact Ht]|intros _; split; [done|by exists []]].
    + apply Forall_cons in Hv as [Hv Hvs]. rewrite <- Hv in Hvs.
      apply law_create in Hc as (Ha & Hl & Hk & Hother); [|by apply (ag_ok _ _ _ _ _ _ Hs)|done|done|by rewrite Hs1, Hv].
      split_and!; [by eapply agree_trans|by rewrite <- Hl, Hv|done
        |intros _; split; [done|by exists (d :: drafts)]|by intros ->|].
      intros i x Hne. rewrite Hother, Hs1; [done|by rewrite Hv].
  - injection H as <- <-. cbn [fst snd]. by rewrite Hs1.
Qed.

(** What a successful run found and did. *)
Record indexed (version : uuid) (s : S) (r : IndexingResult) (s' : S) : Prop := {
  ix_ok : v_ok (view s) -> v_ok (view s');
  ix_version : indexed_version_id r = version;
  ix_count : chunk_count r = length (chunks_at s' version);
  ix_kept : chunks_at s version <> [] ->
    chunks_at s' version = chunks_at s version /\ chunks_created r = 0%nat;
  ix_chunks : chunks_at s version <> [] \/ chunks_at s' version = [] ->
    forall i x, v_chunks (view s') i x = v_chunks (view s) i x;
  ix_other_chunks : forall i x, (i, x) <> (version, chunking_version chunking) ->
    v_chunks (view s') i x = v_chunks (view s) i x;
  ix_created : chunks_at s version = [] -> chunks_created r = chunk_count r /\ exists drafts,
    chunk_sections (stable_sort section_le (v_sections (view s) project version)) chunking 0 = Ok drafts /\
    chunk_key <$> chunks_at s' version = chunk_of_draft <$> drafts;
  (** each chunk is attached to a valid embedding of its text *)
  ix_attached : NoDup (chunk_id <$> chunks_at s' version) ->
    forall c, c ∈ chunks_at s' version -> exists e,
    cached_at s' (chunk_sha256 c) = Some e /\ validate_cached e = Ok tt /\
    v_attached (view s') (chunk_id c) embedding = Some (embedding_id e);
  (** what was embedded before is not embedded again, and nothing else is
      embedded twice *)
  ix_cache : forall h e, cached_at s h = Some e -> cached_at s' h = Some e;
  ix_same_cache : embeddings_created r = 0%nat ->
    forall p h c, v_cached (view s') p h c = v_cached (view s) p h c;
  ix_hits : embedding_cache_hits r = length (List.filter (is_cached s) (chunks_at s' version));
  ix_requests : exists new : list (pystr * pystr), NoDup new.*1 /\
    (forall h, h ∈ new.*1 <-> cached_at s h = None /\ h ∈ chunk_sha256 <$> chunks_at s' version) /\
    (forall h t, (h, t) ∈ new -> (h, t) ∈ chunk_key <$> chunks_at s' version) /\
    embeddings_created r = length new /\
    v_requests (view s') = v_requests (view s) ++ match new with [] => [] | _ => [new.*2] end;
  (** what the run leaves alone *)
  ix_sections : forall p i, v_sections (view s') p i = v_sections (view s) p i;
  ix_others : NoDup (chunk_id <$> chunks_at s' version) -> forall i c, i ∉ chunk_id <$> chunks_at s' version \/ c <> embedding ->
    v_attached (view s') i c = v_attached (view s) i c;
}.

(** The states a successful run goes through: [s2] once the version has its
    chunks [cs], [s4] once the missing texts are embedded. *)
Record ran (version : uuid) (s : S) (r : IndexingResult) (s' : S) (s2 s4 : S)
    (cs : list IndexedChunk) (misses : list (pystr * pystr)) (cached : list (pystr * CachedEmbedding)) : Prop := {
  rn_result : r = {| indexed_version_id := version; chunk_count := length cs;
    chunks_created := chunks_created r; embeddings_created := length misses;
    embedding_cache_hits := length (List.filter (is_cached s) cs) |};
  rn_created : agree false true true true (view s) (view s2);
  rn_embedded : agree true false true false (view s2) (view s4);
  rn_attached : agree true true false true (view s4) (view s');
  rn_chunks : cs = chunks_at s2 version;
  rn_kept : chunks_at s version <> [] -> chunks_created r = 0%nat /\ same (view s) (view s2);
  rn_new : chunks_at s version = [] -> chunks_created r = length cs /\ exists drafts,
    chunk_sections (stable_sort section_le (v_sections (view s) project version)) chunking 0 = Ok drafts /\
    chunk_key <$> cs = chunk_of_draft <$> drafts;
  rn_empty : cs = [] -> same (view s) (view s2);
  rn_others : forall i x, (i, x) <> (version, chunking_version chunking) ->
    v_chunks (view s2) i x = v_chunks (view s) i x;
  rn_misses : NoDup misses.*1;
  rn_missing : forall h, h ∈ misses.*1 <-> cached_at s h = None /\ h ∈ chunk_sha256 <$> cs;
  rn_texts : forall h t, (h, t) ∈ misses -> (h, t) ∈ chunk_key <$> cs;
  rn_cached : consistent s4 cached;
  rn_mono : forall h e, cached_at s2 h = Some e -> cached_at s4 h = Some e;
  rn_requests : v_requests (view s4) =
    v_requests (view s2) ++ match misses with [] => [] | _ => [misses.*2] end;
  rn_all_hit : misses = [] -> same (view s2) (view s4);
  rn_attach : NoDup (chunk_id <$> cs) -> (forall c, c ∈ cs -> exists e,
      dict_get (chunk_sha256 c) cached = Some e /\
      v_attached (view s') (chunk_id c) embedding = Some (embedding_id e)) /\
    (forall i c', i ∉ chunk_id <$> cs \/ c' <> embedding ->
      v_attached (view s') i c' = v_attached (view s4) i c');
}.

Lemma index_ran version s r s' : v_ok (view s) ->
  index chunking embedding project version s = (Ok r, s') ->
  exists s2 s4 cs misses cached, ran version s r s' s2 s4 cs misses cached.
Proof.
  intros Hok H. unfold index in H. apply io_bind_Ok in H as (rows & s1 & Hr & H).
  apply law_sections in Hr as [Hs1 ->]. apply io_bind_Ok in H as ([] & s2 & [_ ->]%lift_Ok & H).
  apply io_bind_Ok in H as (created & s2 & Hc & H).
  apply chunks_of_spec in Hc as (Ha2 & Hc1 & Hc2 & Hc3 & Hc4 & Hc5); [|by apply (ag_ok _ _ _ _ _ _ Hs1)].
  rewrite (ag_chunks _ _ _ _ _ _ Hs1) in Hc2, Hc3 by done.
  apply io_bind_Ok in H as (looked & s3 & Hl & H).
  apply (look_up_spec _ [] [] [] 0%nat s2) in Hl as [Hs3 [L1 L2 L3 L4 L5 L6]]; [|by apply agree_refl|].
  2:{ split; try done; [by intros ? ? ?%not_elem_of_nil| |constructor].
      intros h. split; [done|]. by intros [_ ?%not_elem_of_nil]. }
  apply io_bind_Ok in H as (cached & s4 & He & H). rewrite app_nil_l in *.
  assert (v_ok (view s3)) as Hok3.
  { by apply (ag_ok _ _ _ _ _ _ Hs3), (ag_ok _ _ _ _ _ _ Ha2), (ag_ok _ _ _ _ _ _ Hs1). }
  apply embed_misses_spec in He as (Ha4 & Hcons & Hm4 & Hg4 & Hr4 & Hn4); [|done|].
  2:{ intros h e Hh. rewrite (ag_cached _ _ _ _ _ _ Hs3) by done. by apply L1. }
  apply io_bind_Ok in H as ([] & s5 & Ht & H). injection H as <- <-.
  destruct looked as [[cache0 misses] hits]. cbn [fst snd] in *.
  assert (forall h, cached_at s2 h = cached_at s h) as Hcs.
  { intros h. rewrite (ag_cached _ _ _ _ _ _ Ha2) by done. by apply (ag_cached _ _ _ _ _ _ Hs1). }
  exists s2, s4, created.1, misses, cached.
  split; cbn [indexed_version_id chunk_count chunks_created embeddings_created embedding_cache_hits]; try done.
  - rewrite L6. f_equal. f_equal. apply List.filter_ext. intros c. unfold is_cached. by rewrite Hcs.
  - eapply agree_trans; [eapply agree_weaken; [..|exact Hs1]; done|done].
  - eapply agree_trans; [eapply agree_weaken; [..|exact Hs3]; done|done].
  - eapply attach_all_frame; [by apply (ag_ok _ _ _ _ _ _ Ha4)|done].
  - intros Hn. destruct (Hc2 Hn). split; [done|by eapply agree_trans].
  - intros Hn. by eapply agree_trans; [|apply Hc4].
  - intros i x Hne. rewrite Hc5 by done. by apply (ag_chunks _ _ _ _ _ _ Hs1).
  - intros h. rewrite <- Hcs, <- L3, dict_get_keys. destruct (decide (h ∈ misses.*1)); tauto.
  - intros h t Hin. apply L5. by apply dict_get_NoDup.
  - intros h e Hh. apply Hm4. by rewrite (ag_cached _ _ _ _ _ _ Hs3).
  - rewrite Hr4. by rewrite (ag_requests _ _ _ _ _ _ Hs3).
  - intros Hn. by destruct (Hn4 Hn) as [_ ->].
  - intros Hnd. apply attach_all_spec in Ht as (_ & ? & ?); [done|by apply (ag_ok _ _ _ _ _ _ Ha4)|done].
Qed.

Lemma index_inv version s r s' : v_ok (view s) ->
  index chunking embedding project version s = (Ok r, s') -> indexed version s r s'.
Proof.
  intros Hok H. apply index_ran in H as (s2 & s4 & cs & misses & cached & H); [|done].
  destruct H as [Hr A2 A4 A5 Hcs Hkept Hnew Hempty Hrest Hnd Hmiss Htexts Hcons Hmono Hreq Hhit Hatt].
  assert (chunks_at s' version = cs) as Hch.
  { by rewrite Hcs, (ag_chunks _ _ _ _ _ _ A5), (ag_chunks _ _ _ _ _ _ A4). }
  assert (forall p h c, v_cached (view s') p h c = v_cached (view s4) p h c) as Hc5
    by (intros; by apply (ag_cached _ _ _ _ _ _ A5)).
  pose proof (ag_cached _ _ _ _ _ _ A2 eq_refl) as Hc2.
  split; rewrite ?Hch.
  - intros ?. by apply (ag_ok _ _ _ _ _ _ A5), (ag_ok _ _ _ _ _ _ A4), (ag_ok _ _ _ _ _ _ A2).
  - by rewrite Hr.
  - by rewrite Hr.
  - intros Hn. destruct (Hkept Hn) as [-> Hs]. by rewrite Hcs, (ag_chunks _ _ _ _ _ _ Hs).
  - intros Hor i x. rewrite (ag_chunks _ _ _ _ _ _ A5), (ag_chunks _ _ _ _ _ _ A4) by done.
    destruct Hor as [[_ Hs]%Hkept|Hs%Hempty]; by apply (ag_chunks _ _ _ _ _ _ Hs).
  - intros i x Hne. rewrite (ag_chunks _ _ _ _ _ _ A5), (ag_chunks _ _ _ _ _ _ A4) by done. by apply Hrest.
  - intros Hn. destruct (Hnew Hn) as [-> Hd]. split; [by rewrite Hr|done].
  - intros Hids c Hin. destruct (Hatt Hids) as [Hall _]. destruct (Hall c Hin) as (e & He & Hat).
    destruct (Hcons _ _ He). exists e. by rewrite Hc5.
  - intros h e Hh. rewrite Hc5. apply Hmono. by rewrite Hc2.
  - intros Hlen p h c. rewrite Hr in Hlen. apply length_zero_iff_nil, Hhit in Hlen.
    by rewrite Hc5, (ag_cached _ _ _ _ _ _ Hlen), Hc2.
  - by rewrite Hr.
  - exists misses. split_and!; [done|done|done|by rewrite Hr|].
    by rewrite (ag_requests _ _ _ _ _ _ A5), Hreq, (ag_requests _ _ _ _ _ _ A2).
  - intros p i. by rewrite (ag_sections _ _ _ _ _ _ A5), (ag_sections _ _ _ _ _ _ A4), (ag_sections _ _ _ _ _ _ A2).
  - intros Hids i c Hi. destruct (Hatt Hids) as [_ Hother].
    by rewrite Hother, (ag_attached _ _ _ _ _ _ A4), (ag_attached _ _ _ _ _ _ A2).
Qed.

(** Indexing a version succeeds only when every chunk of it is attached to
    a valid cached embedding of its own text; the chunks are those of its
    sections, split once; and each distinct text that had no embedding under
    this project and configuration is sent to the adapter exactly once, in
    one request, while what was cached is reused unchanged. *)
Theorem index_complete version s r s' : v_ok (view s) ->
  index chunking embedding project version s = (Ok r, s') -> indexed version s r s'.
Proof. apply index_inv. Qed.

(** Indexing the same version again. *)
Lemma index_again version s r s1 r2 s2 : v_ok (view s) ->
  NoDup (chunk_id <$> chunks_at s1 version) ->
  index chunking embedding project version s = (Ok r, s1) ->
  index chunking embedding project version s1 = (Ok r2, s2) ->
  r2 = {| indexed_version_id := version; chunk_count := chunk_count r; chunks_created := 0;
          embeddings_created := 0; embedding_cache_hits := chunk_count r |} /\
  same (view s1) (view s2).
Proof.
  intros Hok Hnd H1 H2. apply index_inv in H1; [|done]. pose proof (ix_ok _ _ _ _ H1 Hok) as Hok1.
  apply index_inv in H2; [|done].
  assert (chunks_at s2 version = chunks_at s1 version /\ chunks_created r2 = 0%nat) as [Hch Hcr].
  { destruct (chunks_at s1 version) as [|c cs] eqn:E; [|rewrite <- E; apply (ix_kept _ _ _ _ H2); by rewrite E].
    assert (chunks_at s version = []) as E0.
    { destruct (chunks_at s version) as [|c cs] eqn:E0; [done|].
      destruct (ix_kept _ _ _ _ H1) as [Hk _]; [by rewrite E0|]. congruence. }
    destruct (ix_created _ _ _ _ H1 E0) as (_ & drafts & Hd & Hk). rewrite E in Hk. destruct drafts; [|done].
    destruct (ix_created _ _ _ _ H2 E) as (-> & drafts2 & Hd2 & Hk2).
    rewrite (ix_sections _ _ _ _ H1), Hd in Hd2. injection Hd2 as <-. rewrite (ix_count _ _ _ _ H2).
    by destruct (chunks_at s2 version). }
  destruct (ix_requests _ _ _ _ H2) as (new & Hn1 & Hn2 & _ & Hn4 & Hn5).
  pose proof (ix_attached _ _ _ _ H1 Hnd) as Hat.
  assert (forall c, c ∈ chunks_at s1 version -> is_cached s1 c = true) as Hall.
  { intros c Hc. destruct (Hat c Hc) as (e & He & _). unfold is_cached. by rewrite He. }
  destruct new as [|[h t] new].
  2:{ exfalso. destruct (proj1 (Hn2 h)) as [Hno Hin]; [by left|]. rewrite Hch in Hin.
      apply list_elem_of_fmap in Hin as (c & -> & Hc). apply Hall in Hc. unfold is_cached in Hc. by rewrite Hno in Hc. }
  assert (embedding_cache_hits r2 = chunk_count r) as Hhits.
  { rewrite (ix_hits _ _ _ _ H2), Hch, (ix_count _ _ _ _ H1). f_equal.
    by apply List.forallb_filter_id, forallb_Forall, Forall_forall. }
  split.
  - pose proof (ix_version _ _ _ _ H2). pose proof (ix_count _ _ _ _ H2) as Hcc.
    rewrite Hch, <- (ix_count _ _ _ _ H1) in Hcc. destruct r2; cbn in *. congruence.
  - split.
    + apply (ix_ok _ _ _ _ H2).
    + apply (ix_sections _ _ _ _ H2).
    + intros _. apply (ix_chunks _ _ _ _ H2). rewrite Hch. by destruct (chunks_at s1 version); [right|left].
    + intros _. by apply (ix_same_cache _ _ _ _ H2).
    + intros _ i c.
      destruct (decide (i ∈ chunk_id <$> chunks_at s1 version /\ c = embedding)) as [[Hi ->]|Hn].
      * apply list_elem_of_fmap in Hi as (ch & -> & Hc). destruct (Hat ch Hc) as (e & He & _ & ->).
        destruct (ix_attached _ _ _ _ H2) with (c := ch) as (e2 & He2 & _ & ->); [by rewrite Hch..|].
        apply (ix_cache _ _ _ _ H2) in He. congruence.
      * apply (ix_others _ _ _ _ H2); [by rewrite Hch|]. rewrite Hch.
        destruct (decide (c = embedding)); [left; tauto|by right].
    + intros _. by rewrite Hn5, app_nil_r.
Qed.

(** Indexing is idempotent: indexing the same version again creates no
    chunk and no embedding, asks the adapter nothing, hits the cache for every
    chunk and leaves the store as it was. *)
Theorem index_idempotent version s r s1 r2 s2 : v_ok (view s) ->
  NoDup (chunk_id <$> chunks_at s1 version) ->
  index chunking embedding project version s = (Ok r, s1) ->
  index chunking embedding project version s1 = (Ok r2, s2) ->
  r2 = {| indexed_version_id := version; chunk_count := chunk_count r; chunks_created := 0;
          embeddings_created := 0; embedding_cache_hits := chunk_count r |} /\
  same (view s1) (view s2).
Proof. apply index_again. Qed.
End service.

(** ** The in-memory store *)

Section memory.
Context {rt : PyRuntime} (uuid4 : N -> uuid).

Definition memory_view (m : memory) : store_view := {|
  v_ok := forall key, m_chunks m !! key <> Some [];
  v_sections p i := default [] (m_sections m !! (p, i));
  v_chunks i x := default [] (m_chunks m !! (i, x));
  v_cached p h c := m_cache m !! memory_key p h c;
  v_attached i c := attachments m !! (i, model c, embedding_version c);
  v_requests := adapter_requests m |}.

Lemma new_chunks_keys drafts : forall n,
  chunk_key <$> new_chunks uuid4 n drafts = chunk_of_draft <$> drafts.
Proof. induction drafts as [|d drafts IH]; intros n; cbn; [done|]. by rewrite IH. Qed.

Lemma configuration_eq (c c' : EmbeddingConfiguration) :
  model c = model c' -> embedding_version c = embedding_version c' -> c = c'.
Proof. destruct c, c'; cbn. congruence. Qed.

Lemma memory_create_chunks_spec i d drafts (m : memory) l m' : v_ok (memory_view m) ->
  v_chunks (memory_view m) i (draft_chunking_version d) = [] ->
  memory_create_chunks uuid4 i (d :: drafts) m = (Ok l, m') ->
  agree false true true true (memory_view m) (memory_view m') /\
  v_chunks (memory_view m') i (draft_chunking_version d) = l /\
  chunk_key <$> l = chunk_of_draft <$> d :: drafts /\
  (forall i' x', (i', x') <> (i, draft_chunking_version d) ->
     v_chunks (memory_view m') i' x' = v_chunks (memory_view m) i' x').
Proof.
  intros Hok Hnone H. unfold memory_create_chunks in H. cbn [v_chunks v_ok memory_view] in *.
  destruct (m_chunks m !! (i, draft_chunking_version d)) as [[|x l']|] eqn:E;
    [by apply Hok in E|done|].
  injection H as <- <-. split; [split; try done|split_and!].
  - cbn. intros _ key. destruct (decide (key = (i, draft_chunking_version d))) as [->|Hne].
    + by rewrite lookup_insert_eq.
    + rewrite lookup_insert_ne by congruence. apply Hok.
  - cbn. by rewrite lookup_insert_eq.
  - apply (new_chunks_keys (d :: drafts)).
  - intros i' x' Hne. cbn. by rewrite lookup_insert_ne by congruence.
Qed.

Lemma memory_create_embedding_spec p h c values (m : memory) e m' :
  memory_create_embedding uuid4 p h c values m = (Ok e, m') ->
  agree true false true true (memory_view m) (memory_view m') /\
  (forall p' h' c', v_cached (memory_view m') p' h' c' =
     if bool_decide ((p', h', c') = (p, h, c)) then Some e else v_cached (memory_view m) p' h' c') /\
  (forall e', v_cached (memory_view m) p h c = Some e' -> e = e').
Proof.
  intros H. unfold memory_create_embedding in H. cbn [v_cached memory_view].
  destruct (m_cache m !! memory_key p h c) as [x|] eqn:E.
  - injection H as <- <-. split; [apply agree_refl|]. split; [|congruence].
    intros p' h' c'. case_bool_decide as Heq; [|done]. by injection Heq as -> -> ->.
  - destruct (validate_cached _) as [[]|?] in H; [|done]. injection H as <- <-.
    split; [by split|]. split; [|done]. intros p' h' c'. cbn. case_bool_decide as Heq.
    + injection Heq as -> -> ->. by rewrite lookup_insert_eq.
    + rewrite lookup_insert_ne; [done|]. intros [= <- <- Hm Hv]. apply Heq. f_equal.
      by apply configuration_eq.
Qed.

#[export] Instance memory_laws :
  @StoreLaws memory (memory_store uuid4) fake_adapter.
Proof.
  unshelve econstructor; [exact memory_view|..].
  - intros p i s l s' [= <- <-]. split; [apply agree_refl|done].
  - intros i x s l s' [= <- <-]. split; [apply agree_refl|done].
  - intros i d drafts s l s' Hok _ _. by apply memory_create_chunks_spec.
  - intros i s r s' [= <- <-]. split; [done|apply agree_refl].
  - intros p h c s o s' [= <- <-]. split; [apply agree_refl|done].
  - intros p h c values s e s' _. apply memory_create_embedding_spec.
  - intros i x c s s' _ [= <-]. split; [by split|]. intros i' c'. cbn. case_bool_decide as Heq.
    + injection Heq as -> ->. by rewrite lookup_insert_eq.
    + rewrite lookup_insert_ne; [done|]. intros [= <- Hm Hv]. apply Heq. f_equal.
      by apply configuration_eq.
  - intros texts c s r s' H. cbn in H. destruct (validate_embedding_configuration c); [|done].
    injection H as _ <-. by split.
Defined.
End memory.

(** ** A concrete store

    A version of two sections, three chunks and one cached embedding: the chunk
    of digest [aa] is a hit, [bb] is embedded once for its two chunks. *)
Definition sample_uuid4 (n : N) : uuid := (100 + n)%N.
Definition sample_chunking : ChunkingConfiguration := {|
  chunking_version := u "c"; max_characters := DEFAULT_MAX_CHUNK_CHARACTERS;
  overlap_characters := DEFAULT_OVERLAP_CHARACTERS |}.
Definition sample_embedding : EmbeddingConfiguration := {|
  model := u "m"; embedding_version := u "e" |}.
Definition sample_vector : list spec_float := [S754_zero false].

Definition sample_store : memory := {|
  m_sections := {[ (1%N, 2%N) :=
    [{| section_id := 4; section_location_id := 5; section_ordinal := 1; section_text := u "y y" |};
     {| section_id := 3; section_location_id := 5; section_ordinal := 0; section_text := u "x" |}] ]};
  m_chunks := {[ (2%N, u "c") :=
    [{| chunk_id := 10; chunk_sha256 := u "aa"; chunk_text := u "x" |};
     {| chunk_id := 11; chunk_sha256 := u "bb"; chunk_text := u "y" |};
     {| chunk_id := 12; chunk_sha256 := u "bb"; chunk_text := u "y" |}] ]};
  m_cache := {[ memory_key 1 (u "aa") sample_embedding :=
    {| embedding_id := 20; embedding_project_id := 1; embedding_sha256 := u "aa";
       embedding_configuration := sample_embedding; embedding_values := sample_vector |} ]};
  attachments := ∅; draws := 0;
  vectors_by_text := {[ u "y" := sample_vector ]};
  adapter_requests := [] |}.

Definition index_sample : io memory IndexingResult :=
  index (store := memory_store sample_uuid4) sample_chunking sample_embedding 1 2.
Definition once_indexed : memory := (index_sample sample_store).2.

Lemma sample_store_ok : v_ok (memory_view sample_store).
Proof.
  intros key H. unfold sample_store in H. cbn [m_chunks] in H.
  by apply lookup_singleton_Some in H as [_ ?].
Qed.

Lemma index_complete_witness :
  v_ok (memory_view sample_store) /\
  index_sample sample_store =
    (Ok {| indexed_version_id := 2; chunk_count := 3; chunks_created := 0;
           embeddings_created := 1; embedding_cache_hits := 1 |}, once_indexed) /\
  indexed (laws := memory_laws sample_uuid4) sample_chunking sample_embedding 1 2 sample_store
    {| indexed_version_id := 2; chunk_count := 3; chunks_created := 0;
       embeddings_created := 1; embedding_cache_hits := 1 |} once_indexed /\
  adapter_requests once_indexed = [[u "y"]].
Proof.
  pose proof sample_store_ok as Hok.
  split; [exact Hok|]. split; [vm_compute; reflexivity|]. split; [|vm_compute; reflexivity].
  apply (index_complete (laws := memory_laws sample_uuid4)); [exact Hok|vm_compute; reflexivity].
Defined.

Lemma index_idempotent_witness :
  v_ok (memory_view sample_store) /\
  NoDup (chunk_id <$> v_chunks (memory_view once_indexed) 2 (chunking_version sample_chunking)) /\
  ({| indexed_version_id := 2; chunk_count := 3; chunks_created := 0;
      embeddings_created := 0; embedding_cache_hits := 3 |} =
   {| indexed_version_id := 2; chunk_count := 3; chunks_created := 0;
      embeddings_created := 0; embedding_cache_hits := 3 |} /\
   same (memory_view once_indexed) (memory_view (index_sample once_indexed).2)).
Proof.
  pose proof sample_store_ok as Hok.
  assert (NoDup (chunk_id <$> v_chunks (memory_view once_indexed) 2 (chunking_version sample_chunking)))
    as Hnd by (apply (bool_decide_unpack _); vm_compute; exact I).
  split; [exact Hok|]. split; [exact Hnd|].
  apply (index_idempotent (laws := memory_laws sample_uuid4) sample_chunking sample_embedding 1 2 sample_store
    {| indexed_version_id := 2; chunk_count := 3; chunks_created := 0;
       embeddings_created := 1; embedding_cache_hits := 1 |} once_indexed _ (index_sample once_indexed).2);
    [exact Hok|exact Hnd|vm_compute; reflexivity|vm_compute; reflexivity].
Defined.
