(* ===== verification/DocumentTables.v ===== *)
(** * The document pipeline's tables ([documents.py])

    The rows that parsing, indexing and retrieval write (parser versions,
    document versions, source locations, sections, chunks, cached embeddings
    and their links, retrieval traces with their candidates, citations, analysis
    runs with their findings, feedback on findings) with their constraints,
    next to the tables of [JobTables].  A JSON
    column of floats holds the floats; of a project the tables know the
    identifier. *)
From Stdlib Require Import Floats.SpecFloat.
From S2P Require Import Prelude PyText Json Digest Effects Database JobTables.

(** ** Rows *)

Record ParserVersionRecord := {
  prs_id : uuid; parser_name : pystr; parser_version : pystr; normalization_version : pystr;
  prs_created_at : instant;
}.

Record DocumentVersionRecord := {
  ver_id : uuid; ver_document_id : uuid; ver_parser_version_id : uuid; version_number : Z;
  ver_content_sha256 : pystr; ver_byte_size : Z; ver_content_type : pystr;
  ver_created_at : instant;
}.

Record SourceLocationRecord := {
  loc_id : uuid; loc_version_id : uuid; location_kind : pystr; loc_heading : option pystr;
  loc_line_start : option Z; loc_line_end : option Z;
  loc_page_start : option Z; loc_page_end : option Z; loc_json_pointer : option pystr;
}.

Record DocumentSectionRecord := {
  sec_id : uuid; sec_version_id : uuid; sec_location_id : uuid; sec_ordinal : Z;
  section_key : option pystr; sec_text : pystr; sec_sha256 : pystr;
}.

Record DocumentChunkRecord := {
  chk_id : uuid; chk_version_id : uuid; chk_section_id : option uuid; chk_location_id : uuid;
  chk_ordinal : Z; chk_text : pystr; chk_sha256 : pystr; chk_chunking_version : pystr;
}.

Record EmbeddingCacheRecord := {
  emb_id : uuid; emb_project_id : uuid; emb_sha256 : pystr; emb_model : pystr;
  emb_version : pystr; dimensions : Z; emb_values : list spec_float; emb_created_at : instant;
}.

Record DocumentChunkEmbeddingRecord := {
  lnk_id : uuid; lnk_chunk_id : uuid; lnk_embedding_id : uuid; lnk_model : pystr;
  lnk_version : pystr; lnk_created_at : instant;
}.

Record RetrievalTraceRecord := {
  rt_id : uuid; rt_project_id : uuid; retrieval_version : pystr; fusion_method : pystr;
  rt_query : pystr; query_embedding : list spec_float; rt_model : pystr; rt_version : pystr;
  rt_version_ids : option (list pystr); rt_types : option (list pystr);
  rt_chunking_version : option pystr; candidate_limit : Z; result_limit : Z;
  rt_created_at : instant;
}.

Record RetrievalTraceCandidateRecord := {
  rc_id : uuid; rc_trace_id : uuid; rc_chunk_id : uuid;
  rc_lexical_score : option spec_float; rc_lexical_rank : option Z;
  rc_semantic_distance : option spec_float; rc_semantic_rank : option Z;
  rc_fusion_score : spec_float; final_rank : option Z;
}.

Record CitationRecord := {
  ct_id : uuid; ct_project_id : uuid; ct_trace_id : uuid; ct_chunk_id : uuid; ct_version_id : uuid;
  ct_location_id : uuid; ct_created_at : instant;
}.

Record RequirementAnalysisRunRecord := {
  ra_id : uuid; ra_project_id : uuid; ra_analyzer_version : pystr; ra_citation_ids : list pystr;
  ra_created_at : instant;
}.

Record RequirementFindingRecord := {
  rf_id : uuid; rf_project_id : uuid; rf_run_id : uuid; rf_category : pystr; rf_severity : pystr;
  rf_evidence : json; rf_analysis : pystr; rf_confidence : spec_float; rf_recommendation : pystr;
  rf_unsupported : bool; rf_unsupported_reason : option pystr; rf_created_at : instant;
}.

Record FindingFeedbackRecord := {
  fb_id : uuid; fb_project_id : uuid; fb_run_id : uuid; fb_finding_id : uuid;
  fb_citation_ids : list pystr; fb_action : pystr; fb_annotation : option pystr;
  fb_reviewer_id : pystr; fb_reviewer_source : pystr; fb_created_at : instant;
}.

(** ** The database *)

Record doc_db := {
  queues : job_db;
  project_ids : gset uuid;
  parser_versions : gmap uuid ParserVersionRecord;
  versions : gmap uuid DocumentVersionRecord;
  locations : gmap uuid SourceLocationRecord;
  sections : gmap uuid DocumentSectionRecord;
  chunk_rows : gmap uuid DocumentChunkRecord;
  embedding_rows : gmap uuid EmbeddingCacheRecord;
  link_rows : gmap uuid DocumentChunkEmbeddingRecord;
  trace_rows : gmap uuid RetrievalTraceRecord;
  candidate_rows : gmap uuid RetrievalTraceCandidateRecord;
  citation_rows : gmap uuid CitationRecord;
  run_rows : gmap uuid RequirementAnalysisRunRecord;
  finding_rows : gmap uuid RequirementFindingRecord;
  feedback_rows : gmap uuid FindingFeedbackRecord;
}.

Definition with_queues (d : doc_db) (q : job_db) : doc_db := {|
  queues := q; project_ids := project_ids d; parser_versions := parser_versions d;
  versions := versions d; locations := locations d; sections := sections d;
  chunk_rows := chunk_rows d; embedding_rows := embedding_rows d; link_rows := link_rows d;
  trace_rows := trace_rows d; candidate_rows := candidate_rows d; citation_rows := citation_rows d;
  run_rows := run_rows d; finding_rows := finding_rows d; feedback_rows := feedback_rows d |}.
Definition with_parser_versions (d : doc_db) (m : gmap uuid ParserVersionRecord) : doc_db := {|
  queues := queues d; project_ids := project_ids d; parser_versions := m;
  versions := versions d; locations := locations d; sections := sections d;
  chunk_rows := chunk_rows d; embedding_rows := embedding_rows d; link_rows := link_rows d;
  trace_rows := trace_rows d; candidate_rows := candidate_rows d; citation_rows := citation_rows d;
  run_rows := run_rows d; finding_rows := finding_rows d; feedback_rows := feedback_rows d |}.
Definition with_versions (d : doc_db) (m : gmap uuid DocumentVersionRecord) : doc_db := {|
  queues := queues d; project_ids := project_ids d; parser_versions := parser_versions d;
  versions := m; locations := locations d; sections := sections d;
  chunk_rows := chunk_rows d; embedding_rows := embedding_rows d; link_rows := link_rows d;
  trace_rows := trace_rows d; candidate_rows := candidate_rows d; citation_rows := citation_rows d;
  run_rows := run_rows d; finding_rows := finding_rows d; feedback_rows := feedback_rows d |}.
Definition with_locations (d : doc_db) (m : gmap uuid SourceLocationRecord) : doc_db := {|
  queues := queues d; project_ids := project_ids d; parser_versions := parser_versions d;
  versions := versions d; locations := m; sections := sections d;
  chunk_rows := chunk_rows d; embedding_rows := embedding_rows d; link_rows := link_rows d;
  trace_rows := trace_rows d; candidate_rows := candidate_rows d; citation_rows := citation_rows d;
  run_rows := run_rows d; finding_rows := finding_rows d; feedback_rows := feedback_rows d |}.
Definition with_sections (d : doc_db) (m : gmap uuid DocumentSectionRecord) : doc_db := {|
  queues := queues d; project_ids := project_ids d; parser_versions := parser_versions d;
  versions := versions d; locations := locations d; sections := m;
  chunk_rows := chunk_rows d; embedding_rows := embedding_rows d; link_rows := link_rows d;
  trace_rows := trace_rows d; candidate_rows := candidate_rows d; citation_rows := citation_rows d;
  run_rows := run_rows d; finding_rows := finding_rows d; feedback_rows := feedback_rows d |}.
Definition with_chunk_rows (d : doc_db) (m : gmap uuid DocumentChunkRecord) : doc_db := {|
  queues := queues d; project_ids := project_ids d; parser_versions := parser_versions d;
  versions := versions d; locations := locations d; sections := sections d;
  chunk_rows := m; embedding_rows := embedding_rows d; link_rows := link_rows d;
  trace_rows := trace_rows d; candidate_rows := candidate_rows d; citation_rows := citation_rows d;
  run_rows := run_rows d; finding_rows := finding_rows d; feedback_rows := feedback_rows d |}.
Definition with_embedding_rows (d : doc_db) (m : gmap uuid EmbeddingCacheRecord) : doc_db := {|
  queues := queues d; project_ids := project_ids d; parser_versions := parser_versions d;
  versions := versions d; locations := locations d; sections := sections d;
  chunk_rows := chunk_rows d; embedding_rows := m; link_rows := link_rows d;
  trace_rows := trace_rows d; candidate_rows := candidate_rows d; citation_rows := citation_rows d;
  run_rows := run_rows d; finding_rows := finding_rows d; feedback_rows := feedback_rows d |}.
Definition with_link_rows (d : doc_db) (m : gmap uuid DocumentChunkEmbeddingRecord) : doc_db := {|
  queues := queues d; project_ids := project_ids d; parser_versions := parser_versions d;
  versions := versions d; locations := locations d; sections := sections d;
  chunk_rows := chunk_rows d; embedding_rows := embedding_rows d; link_rows := m;
  trace_rows := trace_rows d; candidate_rows := candidate_rows d; citation_rows := citation_rows d;
  run_rows := run_rows d; finding_rows := finding_rows d; feedback_rows := feedback_rows d |}.
Definition with_trace_rows (d : doc_db) (m : gmap uuid RetrievalTraceRecord) : doc_db := {|
  queues := queues d; project_ids := project_ids d; parser_versions := parser_versions d;
  versions := versions d; locations := locations d; sections := sections d;
  chunk_rows := chunk_rows d; embedding_rows := embedding_rows d; link_rows := link_rows d;
  trace_rows := m; candidate_rows := candidate_rows d; citation_rows := citation_rows d;
  run_rows := run_rows d; finding_rows := finding_rows d; feedback_rows := feedback_rows d |}.
Definition with_candidate_rows (d : doc_db) (m : gmap uuid RetrievalTraceCandidateRecord) : doc_db := {|
  queues := queues d; project_ids := project_ids d; parser_versions := parser_versions d;
  versions := versions d; locations := locations d; sections := sections d;
  chunk_rows := chunk_rows d; embedding_rows := embedding_rows d; link_rows := link_rows d;
  trace_rows := trace_rows d; candidate_rows := m; citation_rows := citation_rows d;
  run_rows := run_rows d; finding_rows := finding_rows d; feedback_rows := feedback_rows d |}.
Definition with_citation_rows (d : doc_db) (m : gmap uuid CitationRecord) : doc_db := {|
  queues := queues d; project_ids := project_ids d; parser_versions := parser_versions d;
  versions := versions d; locations := locations d; sections := sections d;
  chunk_rows := chunk_rows d; embedding_rows := embedding_rows d; link_rows := link_rows d;
  trace_rows := trace_rows d; candidate_rows := candidate_rows d; citation_rows := m;
  run_rows := run_rows d; finding_rows := finding_rows d; feedback_rows := feedback_rows d |}.
Definition with_run_rows (d : doc_db) (m : gmap uuid RequirementAnalysisRunRecord) : doc_db := {|
  queues := queues d; project_ids := project_ids d; parser_versions := parser_versions d;
  versions := versions d; locations := locations d; sections := sections d;
  chunk_rows := chunk_rows d; embedding_rows := embedding_rows d; link_rows := link_rows d;
  trace_rows := trace_rows d; candidate_rows := candidate_rows d; citation_rows := citation_rows d;
  run_rows := m; finding_rows := finding_rows d; feedback_rows := feedback_rows d |}.
Definition with_finding_rows (d : doc_db) (m : gmap uuid RequirementFindingRecord) : doc_db := {|
  queues := queues d; project_ids := project_ids d; parser_versions := parser_versions d;
  versions := versions d; locations := locations d; sections := sections d;
  chunk_rows := chunk_rows d; embedding_rows := embedding_rows d; link_rows := link_rows d;
  trace_rows := trace_rows d; candidate_rows := candidate_rows d; citation_rows := citation_rows d;
  run_rows := run_rows d; finding_rows := m; feedback_rows := feedback_rows d |}.
Definition with_feedback_rows (d : doc_db) (m : gmap uuid FindingFeedbackRecord) : doc_db := {|
  queues := queues d; project_ids := project_ids d; parser_versions := parser_versions d;
  versions := versions d; locations := locations d; sections := sections d;
  chunk_rows := chunk_rows d; embedding_rows := embedding_rows d; link_rows := link_rows d;
  trace_rows := trace_rows d; candidate_rows := candidate_rows d; citation_rows := citation_rows d;
  run_rows := run_rows d; finding_rows := finding_rows d; feedback_rows := m |}.

(** ** Constraints *)

Definition parser_version_check (r : ParserVersionRecord) : bool :=
  not_blank (parser_name r) && not_blank (parser_version r) && not_blank (normalization_version r).

(** NULL, or a positive number. *)
Definition null_or_positive (n : option Z) : bool := match n with Some n => 0 <? n | None => true end.
(** Either end is NULL, or the range is not reversed. *)
Definition in_order (first last : option Z) : bool :=
  match first, last with Some a, Some b => a <=? b | _, _ => true end.
Definition location_check (r : SourceLocationRecord) : bool :=
  not_blank (location_kind r) && null_or_positive (loc_line_start r) &&
  null_or_positive (loc_line_end r) && in_order (loc_line_start r) (loc_line_end r) &&
  null_or_positive (loc_page_start r) && null_or_positive (loc_page_end r) &&
  in_order (loc_page_start r) (loc_page_end r).

Definition section_check (r : DocumentSectionRecord) : bool :=
  (0 <=? sec_ordinal r) && not_blank (sec_text r) && (zlen (sec_sha256 r) =? 64).

Definition chunk_check (r : DocumentChunkRecord) : bool :=
  (0 <=? chk_ordinal r) && not_blank (chk_text r) && (zlen (chk_sha256 r) =? 64) &&
  not_blank (chk_chunking_version r).

Definition embedding_check (r : EmbeddingCacheRecord) : bool :=
  (zlen (emb_sha256 r) =? 64) && not_blank (emb_model r) && not_blank (emb_version r) &&
  (0 <? dimensions r).

Definition link_check (r : DocumentChunkEmbeddingRecord) : bool :=
  not_blank (lnk_model r) && not_blank (lnk_version r).

Definition trace_check (r : RetrievalTraceRecord) : bool :=
  not_blank (retrieval_version r) && not_blank (fusion_method r) && not_blank (rt_query r) &&
  not_blank (rt_model r) && not_blank (rt_version r) && (0 <? candidate_limit r) &&
  (0 <? result_limit r) && (result_limit r <=? candidate_limit r).

(** A rank comes with its value, and neither without the other. *)
Definition same_null {A B} (a : option A) (b : option B) : bool := Bool.eqb (is_null a) (is_null b).
Definition candidate_check (r : RetrievalTraceCandidateRecord) : bool :=
  null_or_positive (rc_lexical_rank r) && null_or_positive (rc_semantic_rank r) &&
  null_or_positive (final_rank r) && same_null (rc_lexical_rank r) (rc_lexical_score r) &&
  same_null (rc_semantic_rank r) (rc_semantic_distance r).

(** The row a foreign key of a chunk names is one of the same version. *)
Definition of_version {R} (version_of : R -> uuid) (version : uuid) (o : option R) : bool :=
  match o with Some r => (version_of r =? version)%N | None => false end.

(** A row of the same identity: the unique constraints. *)
Definition same_parser (r o : ParserVersionRecord) : bool :=
  str_eqb (parser_name o) (parser_name r) && str_eqb (parser_version o) (parser_version r) &&
  str_eqb (normalization_version o) (normalization_version r).
Definition same_ordinal (r o : DocumentSectionRecord) : bool :=
  (sec_version_id o =? sec_version_id r)%N && (sec_ordinal o =? sec_ordinal r).
Definition same_indexing_job (r o : IndexingJobRecord) : bool :=
  (ij_document_version_id o =? ij_document_version_id r)%N &&
  str_eqb (ij_chunking_version o) (ij_chunking_version r) &&
  str_eqb (ij_embedding_model o) (ij_embedding_model r) &&
  str_eqb (ij_embedding_version o) (ij_embedding_version r).
Definition same_chunk (r o : DocumentChunkRecord) : bool :=
  (chk_version_id o =? chk_version_id r)%N &&
  str_eqb (chk_chunking_version o) (chk_chunking_version r) &&
  (chk_ordinal o =? chk_ordinal r).
Definition same_embedding (r o : EmbeddingCacheRecord) : bool :=
  (emb_project_id o =? emb_project_id r)%N && str_eqb (emb_sha256 o) (emb_sha256 r) &&
  str_eqb (emb_model o) (emb_model r) && str_eqb (emb_version o) (emb_version r).
Definition same_link (r o : DocumentChunkEmbeddingRecord) : bool :=
  (lnk_chunk_id o =? lnk_chunk_id r)%N && str_eqb (lnk_model o) (lnk_model r) &&
  str_eqb (lnk_version o) (lnk_version r).

Definition same_candidate (r o : RetrievalTraceCandidateRecord) : bool :=
  (rc_trace_id o =? rc_trace_id r)%N && (rc_chunk_id o =? rc_chunk_id r)%N.
Definition same_citation (r o : CitationRecord) : bool :=
  (ct_trace_id o =? ct_trace_id r)%N && (ct_chunk_id o =? ct_chunk_id r)%N.
(** [fk_citations_trace_candidate] *)
Definition cites_candidate (r : CitationRecord) (c : RetrievalTraceCandidateRecord) : bool :=
  (rc_trace_id c =? ct_trace_id r)%N && (rc_chunk_id c =? ct_chunk_id r)%N.

(** ** Statements *)

Definition insert_parser_version (r : ParserVersionRecord) (d : doc_db) : result doc_db :=
  raise_if (negb (parser_version_check r) || negb (is_null (parser_versions d !! prs_id r)) ||
            negb (no_row (same_parser r) (parser_versions d)))
    IntegrityError "parser_versions" ;;
  Ok (with_parser_versions d (<[prs_id r := r]> (parser_versions d))).

(** [UPDATE document_versions SET parser_version_id = ... WHERE id = ...] of
    the unit of work, which must find its row. *)
Definition with_parser (parser_id : uuid) (v : DocumentVersionRecord) : DocumentVersionRecord := {|
  ver_id := ver_id v; ver_document_id := ver_document_id v; ver_parser_version_id := parser_id;
  version_number := version_number v; ver_content_sha256 := ver_content_sha256 v;
  ver_byte_size := ver_byte_size v; ver_content_type := ver_content_type v;
  ver_created_at := ver_created_at v |}.
Definition set_parser_version (version_id parser_id : uuid) (d : doc_db) : result doc_db :=
  match versions d !! version_id with
  | Some v =>
      raise_if (is_null (parser_versions d !! parser_id)) IntegrityError "document_versions" ;;
      Ok (with_versions d (<[version_id := with_parser parser_id v]> (versions d)))
  | None => raise SQLAlchemyError "UPDATE statement on table expected to update 1 row(s)"
  end.

Definition insert_location (r : SourceLocationRecord) (d : doc_db) : result doc_db :=
  raise_if (negb (location_check r) || is_null (versions d !! loc_version_id r) ||
            negb (is_null (locations d !! loc_id r)))
    IntegrityError "source_locations" ;;
  Ok (with_locations d (<[loc_id r := r]> (locations d))).

Definition insert_section (r : DocumentSectionRecord) (d : doc_db) : result doc_db :=
  raise_if (negb (section_check r) || is_null (versions d !! sec_version_id r) ||
            negb (of_version loc_version_id (sec_version_id r) (locations d !! sec_location_id r)) ||
            negb (is_null (sections d !! sec_id r)) || negb (no_row (same_ordinal r) (sections d)))
    IntegrityError "document_sections" ;;
  Ok (with_sections d (<[sec_id r := r]> (sections d))).

Definition insert_indexing_job (r : IndexingJobRecord) (d : doc_db) : result doc_db :=
  raise_if (negb (indexing_job_check r) || negb (bool_decide (ij_project_id r ∈ project_ids d)) ||
            is_null (versions d !! ij_document_version_id r) ||
            negb (is_null (indexing_jobs (queues d) !! ij_id r)) ||
            negb (no_row (same_indexing_job r) (indexing_jobs (queues d))))
    IntegrityError "indexing_jobs" ;;
  Ok (with_queues d (with_indexing_jobs (queues d) (<[ij_id r := r]> (indexing_jobs (queues d))))).

Definition insert_chunk (r : DocumentChunkRecord) (d : doc_db) : result doc_db :=
  raise_if (negb (chunk_check r) || is_null (versions d !! chk_version_id r) ||
            negb (of_version loc_version_id (chk_version_id r) (locations d !! chk_location_id r)) ||
            match chk_section_id r with
            | None => false
            | Some i => negb (of_version sec_version_id (chk_version_id r) (sections d !! i))
            end ||
            negb (is_null (chunk_rows d !! chk_id r)) || negb (no_row (same_chunk r) (chunk_rows d)))
    IntegrityError "document_chunks" ;;
  Ok (with_chunk_rows d (<[chk_id r := r]> (chunk_rows d))).

(** The rows of one flush: all of them or none. *)
Fixpoint insert_chunks (rows : list DocumentChunkRecord) (d : doc_db) : result doc_db :=
  match rows with
  | [] => Ok d
  | r :: rows => d ← insert_chunk r d; insert_chunks rows d
  end.

Definition insert_embedding (r : EmbeddingCacheRecord) (d : doc_db) : result doc_db :=
  raise_if (negb (embedding_check r) || negb (bool_decide (emb_project_id r ∈ project_ids d)) ||
            negb (is_null (embedding_rows d !! emb_id r)) ||
            negb (no_row (same_embedding r) (embedding_rows d)))
    IntegrityError "embedding_cache_entries" ;;
  Ok (with_embedding_rows d (<[emb_id r := r]> (embedding_rows d))).

Definition insert_link (r : DocumentChunkEmbeddingRecord) (d : doc_db) : result doc_db :=
  raise_if (negb (link_check r) || is_null (chunk_rows d !! lnk_chunk_id r) ||
            is_null (embedding_rows d !! lnk_embedding_id r) ||
            negb (is_null (link_rows d !! lnk_id r)) ||
            negb (no_row (same_link r) (link_rows d)))
    IntegrityError "document_chunk_embeddings" ;;
  Ok (with_link_rows d (<[lnk_id r := r]> (link_rows d))).

Definition insert_trace (r : RetrievalTraceRecord) (d : doc_db) : result doc_db :=
  raise_if (negb (trace_check r) || negb (bool_decide (rt_project_id r ∈ project_ids d)) ||
            negb (is_null (trace_rows d !! rt_id r)))
    IntegrityError "retrieval_traces" ;;
  Ok (with_trace_rows d (<[rt_id r := r]> (trace_rows d))).

Definition insert_candidate (r : RetrievalTraceCandidateRecord) (d : doc_db) : result doc_db :=
  raise_if (negb (candidate_check r) || is_null (trace_rows d !! rc_trace_id r) ||
            is_null (chunk_rows d !! rc_chunk_id r) ||
            negb (is_null (candidate_rows d !! rc_id r)) ||
            negb (no_row (same_candidate r) (candidate_rows d)))
    IntegrityError "retrieval_trace_candidates" ;;
  Ok (with_candidate_rows d (<[rc_id r := r]> (candidate_rows d))).

Definition insert_citation (r : CitationRecord) (d : doc_db) : result doc_db :=
  raise_if (negb (bool_decide (ct_project_id r ∈ project_ids d)) ||
            no_row (cites_candidate r) (candidate_rows d) || is_null (versions d !! ct_version_id r) ||
            is_null (locations d !! ct_location_id r) ||
            negb (is_null (citation_rows d !! ct_id r)) ||
            negb (no_row (same_citation r) (citation_rows d)))
    IntegrityError "citations" ;;
  Ok (with_citation_rows d (<[ct_id r := r]> (citation_rows d))).

Definition insert_run (r : RequirementAnalysisRunRecord) (d : doc_db) : result doc_db :=
  raise_if (negb (bool_decide (ra_project_id r ∈ project_ids d)) ||
            negb (is_null (run_rows d !! ra_id r)))
    IntegrityError "requirement_analysis_runs" ;;
  Ok (with_run_rows d (<[ra_id r := r]> (run_rows d))).

Definition insert_finding (r : RequirementFindingRecord) (d : doc_db) : result doc_db :=
  raise_if (negb (bool_decide (rf_project_id r ∈ project_ids d)) || is_null (run_rows d !! rf_run_id r) ||
            negb (is_null (finding_rows d !! rf_id r)))
    IntegrityError "requirement_findings" ;;
  Ok (with_finding_rows d (<[rf_id r := r]> (finding_rows d))).

Definition insert_feedback (r : FindingFeedbackRecord) (d : doc_db) : result doc_db :=
  raise_if (negb (bool_decide (fb_project_id r ∈ project_ids d)) || is_null (run_rows d !! fb_run_id r) ||
            is_null (finding_rows d !! fb_finding_id r) || negb (is_null (feedback_rows d !! fb_id r)))
    IntegrityError "finding_feedback" ;;
  Ok (with_feedback_rows d (<[fb_id r := r]> (feedback_rows d))).
