(* ===== verification/IndexingStore.v ===== *)
(** * The SQL store of the indexing service ([indexing.py])

    [SqlAlchemyChunkEmbeddingStore] over the tables of [DocumentTables].  What
    the store reads from outside (fresh identifiers, the clock, whether a
    statement fails, what other sessions commit before a write) is given by
    [outside], for each time it looks outside; a [world] counts these times.
    A write is one statement with its commit. *)
From Stdlib Require Import Floats.SpecFloat.
From S2P Require Import Prelude PyText Json Digest Effects Database JobTables DocumentTables.
From S2P Require Import IndexingJobClaims Indexing.

(** ** The world of an indexing worker *)

(** [embed_log] is a history variable: the requests made to the provider,
    whose own state is [provider]. *)
Record world {E : Type} := {
  tables : doc_db;
  ticks : N;
  provider : E;
  embed_log : list (list pystr);
}.
Arguments world : clear implicits.

Record outside := {
  new_id : N -> uuid;
  clock_at : N -> instant;
  fails : N -> bool;
  others_at : N -> doc_db -> doc_db;
}.

Section effects.
Context {E : Type}.

Definition with_tables (w : world E) (d : doc_db) : world E := {|
  tables := d; ticks := ticks w; provider := provider w; embed_log := embed_log w |}.

(** One look outside. *)
Definition look_outside {A} (f : N -> A) : io (world E) A := fun w =>
  (Ok (f (ticks w)), {| tables := tables w; ticks := ticks w + 1; provider := provider w;
                        embed_log := embed_log w |}).

Definition on_tables {A} (m : io doc_db A) : io (world E) A := fun w =>
  ((m (tables w)).1, with_tables w (m (tables w)).2).

Definition on_queues {A} (m : io job_db A) : io (world E) A :=
  on_tables (fun d => ((m (queues d)).1, with_queues d (m (queues d)).2)).

(** What other sessions commit at this point. *)
Definition commits (o : outside) : io (world E) unit :=
  others ← look_outside (others_at o);
  on_tables (interleave others).
End effects.

(** ** The columns of the rows *)

Definition section_row_le (a b : DocumentSectionRecord) : Prop :=
  sec_ordinal a < sec_ordinal b \/
  (sec_ordinal a = sec_ordinal b /\ (sec_id a <= sec_id b)%N).
#[export] Instance section_row_le_dec a b : Decision (section_row_le a b).
Proof. unfold section_row_le. apply _. Defined.

Definition chunk_row_le (a b : DocumentChunkRecord) : Prop :=
  chk_ordinal a < chk_ordinal b \/
  (chk_ordinal a = chk_ordinal b /\ (chk_id a <= chk_id b)%N).
#[export] Instance chunk_row_le_dec a b : Decision (chunk_row_le a b).
Proof. unfold chunk_row_le. apply _. Defined.

Definition section_of_row (r : DocumentSectionRecord) : NormalizedSection := {|
  section_id := sec_id r; section_location_id := sec_location_id r;
  section_ordinal := sec_ordinal r; section_text := sec_text r |}.

Definition chunk_of_row (r : DocumentChunkRecord) : IndexedChunk := {|
  chunk_id := chk_id r; chunk_sha256 := chk_sha256 r; chunk_text := chk_text r |}.

Definition embedding_of_row (r : EmbeddingCacheRecord) : CachedEmbedding := {|
  embedding_id := emb_id r; embedding_project_id := emb_project_id r;
  embedding_sha256 := emb_sha256 r;
  embedding_configuration := {| model := emb_model r; embedding_version := emb_version r |};
  embedding_values := emb_values r |}.

(** [_cached_embedding_from_record] *)
Definition cached_embedding_from_record (r : EmbeddingCacheRecord) : result CachedEmbedding :=
  validate_cached (embedding_of_row r) ;; Ok (embedding_of_row r).

(** ** The queries *)

(** The sections of a version of a document of the project. *)
Definition section_rows (d : doc_db) (project_id version_id : uuid) :
    list DocumentSectionRecord :=
  match v ← versions d !! version_id; documents (queues d) !! ver_document_id v with
  | Some document =>
      if (doc_project_id document =? project_id)%N
      then merge_sort section_row_le (select (fun r => (sec_version_id r =? version_id)%N) (sections d))
      else []
  | None => []
  end.

Definition in_version (version_id : uuid) (version : pystr) (r : DocumentChunkRecord) : bool :=
  (chk_version_id r =? version_id)%N && str_eqb (chk_chunking_version r) version.
Definition chunk_rows_of (d : doc_db) (version_id : uuid) (version : pystr) :
    list DocumentChunkRecord :=
  merge_sort chunk_row_le (select (in_version version_id version) (chunk_rows d)).

Definition embeds (project_id : uuid) (digest : pystr) (c : EmbeddingConfiguration)
    (r : EmbeddingCacheRecord) : bool :=
  (emb_project_id r =? project_id)%N && str_eqb (emb_sha256 r) digest &&
  str_eqb (emb_model r) (model c) && str_eqb (emb_version r) (embedding_version c).

Definition links (id : uuid) (c : EmbeddingConfiguration) (r : DocumentChunkEmbeddingRecord) :
    bool :=
  (lnk_chunk_id r =? id)%N && str_eqb (lnk_model r) (model c) &&
  str_eqb (lnk_version r) (embedding_version c).

(** ** The operations *)

Section store.
Context {E : Type} (o : outside).
Abbreviation io := (io (world E)).

(** A reading and a writing statement; what others commit in between. *)
Definition reads {A} (f : doc_db -> A) : io A :=
  fault ← look_outside (fails o);
  on_tables (query fault (fun d => Ok (f d))).
Definition writes (f : doc_db -> result doc_db) : io unit :=
  others ← look_outside (others_at o);
  on_tables (interleave others) ;;
  fault ← look_outside (fails o);
  on_tables (execute fault f).

Definition unavailable {A} (m : io A) : io A :=
  io_try m is_SQLAlchemyError (fun _ => io_raise IndexingUnavailable "").

Definition sql_sections_for_version (project_id version_id : uuid) : io (list NormalizedSection) :=
  records ← unavailable (reads (fun d => section_rows d project_id version_id));
  mret (section_of_row <$> records).

Definition sql_chunks_for_version (version_id : uuid) (version : pystr) : io (list IndexedChunk) :=
  records ← unavailable (reads (fun d => chunk_rows_of d version_id version));
  mret (chunk_of_row <$> records).

Definition chunk_row (id version_id : uuid) (d : ChunkDraft) : DocumentChunkRecord := {|
  chk_id := id; chk_version_id := version_id; chk_section_id := Some (draft_section_id d);
  chk_location_id := draft_location_id d; chk_ordinal := draft_ordinal d;
  chk_text := draft_text d; chk_sha256 := draft_sha256 d;
  chk_chunking_version := draft_chunking_version d |}.

Fixpoint new_chunk_rows (version_id : uuid) (drafts : list ChunkDraft) :
    io (list DocumentChunkRecord) :=
  match drafts with
  | [] => mret []
  | d :: drafts =>
      id ← look_outside (new_id o);
      rows ← new_chunk_rows version_id drafts;
      mret (chunk_row id version_id d :: rows)
  end.

Definition sql_create_chunks (version_id : uuid) (drafts : list ChunkDraft) :
    io (list IndexedChunk) :=
  match drafts with
  | [] => mret []
  | first :: _ =>
      let version := draft_chunking_version first in
      lift (raise_if (existsb (fun d => negb (str_eqb (draft_chunking_version d) version)) drafts)
              ValueError "All created chunks must use one chunking version") ;;
      unavailable
        (existing ← reads (fun d => chunk_rows_of d version_id version);
         match existing with
         | [] =>
             records ← new_chunk_rows version_id drafts;
             writes (insert_chunks records) ;;
             mret (chunk_of_row <$> records)
         | _ => mret (chunk_of_row <$> existing)
         end)
  end.

Definition sql_cached_embedding (project_id : uuid) (digest : pystr) (c : EmbeddingConfiguration) :
    io (option CachedEmbedding) :=
  record ← unavailable (reads (fun d => head (select (embeds project_id digest c) (embedding_rows d))));
  match record with
  | Some r => e ← lift (cached_embedding_from_record r); mret (Some e)
  | None => mret None
  end.

Definition embedding_row (e : CachedEmbedding) (now : instant) : EmbeddingCacheRecord := {|
  emb_id := embedding_id e; emb_project_id := embedding_project_id e;
  emb_sha256 := embedding_sha256 e; emb_model := model (embedding_configuration e);
  emb_version := embedding_version (embedding_configuration e);
  dimensions := zlen (embedding_values e); emb_values := embedding_values e;
  emb_created_at := now |}.

Definition sql_create_embedding (project_id : uuid) (digest : pystr) (c : EmbeddingConfiguration)
    (values : list spec_float) : io CachedEmbedding :=
  id ← look_outside (new_id o);
  let candidate := {| embedding_id := id; embedding_project_id := project_id;
                      embedding_sha256 := digest; embedding_configuration := c;
                      embedding_values := values |} in
  lift (validate_cached candidate) ;;
  unavailable
    (existing ← reads (fun d => head (select (embeds project_id digest c) (embedding_rows d)));
     match existing with
     | Some r => lift (cached_embedding_from_record r)
     | None =>
         now ← look_outside (clock_at o);
         writes (insert_embedding (embedding_row candidate now)) ;;
         mret candidate
     end).

Definition link_row (id chunk embedding : uuid) (c : EmbeddingConfiguration) (now : instant) :
    DocumentChunkEmbeddingRecord := {|
  lnk_id := id; lnk_chunk_id := chunk; lnk_embedding_id := embedding; lnk_model := model c;
  lnk_version := embedding_version c; lnk_created_at := now |}.

Definition sql_attach_embedding (chunk embedding : uuid) (c : EmbeddingConfiguration) : io unit :=
  unavailable
    (existing ← reads (fun d => head (select (links chunk c) (link_rows d)));
     match existing with
     | Some r =>
         if (lnk_embedding_id r =? embedding)%N then mret tt
         else io_raise IndexingUnavailable "Chunk embedding cache identity changed"
     | None =>
         id ← look_outside (new_id o);
         now ← look_outside (clock_at o);
         writes (insert_link (link_row id chunk embedding c now))
     end).

#[export] Instance sql_store : ChunkEmbeddingStore (world E) := {|
  sections_for_version := sql_sections_for_version;
  chunks_for_version := sql_chunks_for_version;
  create_chunks := sql_create_chunks;
  cached_embedding := sql_cached_embedding;
  create_embedding := sql_create_embedding;
  attach_embedding := sql_attach_embedding;
|}.

(** The embedding provider, with its requests in the log. *)
Context (provider_embed : list pystr -> EmbeddingConfiguration -> Effects.io E (list (list spec_float))).
#[export] Instance world_adapter : EmbeddingAdapter (world E) := {|
  embed texts c w :=
    let '(r, s) := provider_embed texts c (provider w) in
    (r, {| tables := tables w; ticks := ticks w; provider := s;
           embed_log := embed_log w ++ [texts] |});
|}.
End store.
