(* ===== verification/IndexingStoreSpec.v ===== *)
(** * The SQL store of the indexing service: properties

    The invariant of the tables (rows under their keys, the unique
    constraints), that every operation keeps it whatever other sessions do
    that keeps it too, and that without other sessions the store satisfies the
    laws of [IndexingSpec]: the service's theorems hold of it. *)
From Stdlib Require Import Floats.SpecFloat.
From S2P Require Import Prelude PyText Json JsonFacts Digest AsciiRuntime Effects Samples.
From S2P Require Import Database DatabaseFacts JobTables.
From S2P Require Import DocumentTables IndexingJobClaims Indexing IndexingSpec IndexingStore.

#[export] Instance list_filter_Permutation {A} (p : A -> bool) :
  Proper (Permutation ==> Permutation) (List.filter p).
Proof.
  induction 1 as [|x l l' _ IH|x y l|l l' l'' _ IH _ IH']; cbn; [done| | |by etrans].
  - destruct (p x); [by f_equiv|done].
  - destruct (p x), (p y); try done. apply Permutation_swap.
Qed.

(** ** Tables whose rows are keyed *)

Section keyed.
Context {R : Type} (key : R -> uuid).
Implicit Types (m : gmap uuid R) (p : R -> bool).

Definition keyed m : Prop := forall i r, m !! i = Some r -> key r = i.
Definition unique (same : R -> R -> bool) m : Prop :=
  forall i j r s, m !! i = Some r -> m !! j = Some s -> same r s = true -> i = j.

Lemma keyed_insert m r : keyed m -> keyed (<[key r := r]> m).
Proof. intros Hk i s [[<- <-]|[_ Hi]]%lookup_insert_Some; [done|by apply Hk]. Qed.

Lemma unique_insert same m r : (forall r s, same r s = same s r) -> unique same m ->
  no_row (same r) m = true -> unique same (<[key r := r]> m).
Proof.
  intros Hsym Hu Hno i j x y Hi Hj Hs. rewrite no_row_true in Hno.
  apply lookup_insert_Some in Hi as [[<- <-]|[Hni Hi]], Hj as [[<- <-]|[Hnj Hj]]; [done| | |by eapply Hu].
  - by rewrite (Hno _ _ Hj) in Hs.
  - by rewrite Hsym, (Hno _ _ Hi) in Hs.
Qed.

(** The first row that satisfies a condition at most one row satisfies. *)
Lemma head_select p m r : keyed m ->
  (forall i j r s, m !! i = Some r -> m !! j = Some s -> p r = true -> p s = true -> i = j) ->
  head (select p m) = Some r <-> p r = true /\ m !! key r = Some r.
Proof.
  intros Hk Hu. destruct (select_unique p m key Hk Hu) as [E|(s & E & Hs & Hm)]; rewrite E; cbn; split.
  - done.
  - intros [Hp Hr]. assert (r ∈ select p m) as Hin by (apply elem_of_select; eauto).
    rewrite E in Hin. by apply not_elem_of_nil in Hin.
  - by intros [= <-].
  - intros [Hp Hr]. rewrite (Hu _ _ _ _ Hm Hr Hs Hp) in Hm. congruence.
Qed.

(** A row inserted under a unique constraint. *)
Lemma head_select_insert same p m r : keyed m -> unique same m ->
  (forall r s, same r s = same s r) -> (forall x y, p x = true -> p y = true -> same x y = true) ->
  no_row (same r) m = true -> m !! key r = None ->
  head (select p (<[key r := r]> m)) = if p r then Some r else head (select p m).
Proof.
  intros Hk Hu Hsym Hp Hno Hn. pose proof (keyed_insert m r Hk) as Hk'.
  pose proof (unique_insert same m r Hsym Hu Hno) as Hu'.
  assert (forall x, head (select p (<[key r := r]> m)) = Some x <-> p x = true /\ <[key r := r]> m !! key x = Some x)
    as Hh' by (intros x; apply head_select; [done|]; intros; eapply Hu'; eauto).
  destruct (p r) eqn:Hr; [apply Hh'; by rewrite lookup_insert_eq|].
  apply option_eq. intros x. rewrite Hh', (head_select p m x) by (done || intros; eapply Hu; eauto).
  rewrite lookup_insert_Some. split.
  - intros [Hx [[_ ->]|[_ ?]]]; [congruence|done].
  - intros [Hx Hm]. split; [done|right]. split; [congruence|done].
Qed.

Lemma select_insert p m r : m !! key r = None ->
  select p (<[key r := r]> m) ≡ₚ (if p r then [r] else []) ++ select p m.
Proof.
  intros Hr. unfold select. rewrite map_to_list_insert by done. cbn. by destruct (p r).
Qed.
End keyed.

(** Sorting the rows of a selection by an order that includes the key. *)
Lemma sorted_rows_unique {R} (le : relation R) `{forall x y, Decision (le x y), !Total le, !Transitive le}
    (l l' : list R) : (forall x y, x ∈ l -> y ∈ l -> le x y -> le y x -> x = y) ->
  l ≡ₚ l' -> merge_sort le l = merge_sort le l'.
Proof.
  intros Ha Hp. apply (StronglySorted_unique_strong le).
  - intros x y. rewrite (merge_sort_Permutation le l), (merge_sort_Permutation le l'), <- Hp. apply Ha.
  - by apply StronglySorted_merge_sort.
  - by apply StronglySorted_merge_sort.
  - by rewrite !merge_sort_Permutation.
Qed.

#[export] Instance chunk_row_total : Total chunk_row_le.
Proof. intros a b. unfold chunk_row_le. lia. Qed.
#[export] Instance chunk_row_trans : Transitive chunk_row_le.
Proof. intros a b c. unfold chunk_row_le. lia. Qed.

(** ** The invariant *)

Record wf_doc (d : doc_db) : Prop := {
  wd_chunks : keyed chk_id (chunk_rows d);
  wd_embeddings : keyed emb_id (embedding_rows d);
  wd_links : keyed lnk_id (link_rows d);
  wd_one_chunk : unique same_chunk (chunk_rows d);
  wd_one_embedding : unique same_embedding (embedding_rows d);
  wd_one_link : unique same_link (link_rows d);
}.

Lemma same_chunk_sym r s : same_chunk r s = same_chunk s r.
Proof. unfold same_chunk. by rewrite N.eqb_sym, str_eqb_sym, Z.eqb_sym. Qed.
Lemma same_embedding_sym r s : same_embedding r s = same_embedding s r.
Proof. unfold same_embedding. by rewrite N.eqb_sym, (str_eqb_sym (emb_sha256 s)), (str_eqb_sym (emb_model s)), (str_eqb_sym (emb_version s)). Qed.
Lemma same_link_sym r s : same_link r s = same_link s r.
Proof. unfold same_link. by rewrite N.eqb_sym, (str_eqb_sym (lnk_model s)), (str_eqb_sym (lnk_version s)). Qed.

Lemma insert_chunk_Ok r d d' : insert_chunk r d = Ok d' ->
  d' = with_chunk_rows d (<[chk_id r := r]> (chunk_rows d)) /\ chunk_rows d !! chk_id r = None /\
  no_row (same_chunk r) (chunk_rows d) = true /\ chunk_check r = true.
Proof.
  intros H. unfold insert_chunk in H. ok_inv. bools. split_and!; try done.
  by destruct (chunk_rows d !! chk_id r).
Qed.

Lemma insert_chunk_wf r d d' : wf_doc d -> insert_chunk r d = Ok d' -> wf_doc d'.
Proof.
  intros Hwf (-> & Hn & Hno & _)%insert_chunk_Ok. split; cbn; try apply Hwf.
  - apply keyed_insert, Hwf.
  - apply unique_insert; [apply same_chunk_sym|apply Hwf|done].
Qed.

Lemma insert_chunks_Ok rows : forall d d', wf_doc d -> insert_chunks rows d = Ok d' ->
  wf_doc d' /\ d' = with_chunk_rows d (chunk_rows d') /\
  forall p, select p (chunk_rows d') ≡ₚ List.filter p rows ++ select p (chunk_rows d).
Proof.
  induction rows as [|r rows IH]; intros d d' Hwf H; cbn [insert_chunks] in H.
  - injection H as <-. split; [done|]. by destruct d.
  - ok_inv. pose proof (insert_chunk_wf _ _ _ Hwf H0) as Hwf1.
    destruct (IH _ _ Hwf1 H) as (Hwf' & Hd & Hp). apply insert_chunk_Ok in H0 as (-> & Hn & _).
    split; [done|]. split; [done|]. intros p. rewrite Hp. cbn. rewrite select_insert by done.
    destruct (p r); cbn; [|done]. by rewrite Permutation_middle.
Qed.

Lemma insert_embedding_Ok r d d' : insert_embedding r d = Ok d' ->
  d' = with_embedding_rows d (<[emb_id r := r]> (embedding_rows d)) /\
  no_row (same_embedding r) (embedding_rows d) = true /\ embedding_rows d !! emb_id r = None.
Proof.
  intros H. unfold insert_embedding in H. ok_inv. bools. split_and!; try done.
  by destruct (embedding_rows d !! emb_id r).
Qed.

Lemma insert_embedding_wf r d d' : wf_doc d -> insert_embedding r d = Ok d' -> wf_doc d'.
Proof.
  intros Hwf (-> & Hno & _)%insert_embedding_Ok. split; cbn; try apply Hwf.
  - apply keyed_insert, Hwf.
  - apply unique_insert; [apply same_embedding_sym|apply Hwf|done].
Qed.

Lemma insert_link_Ok r d d' : insert_link r d = Ok d' ->
  d' = with_link_rows d (<[lnk_id r := r]> (link_rows d)) /\
  no_row (same_link r) (link_rows d) = true /\ link_rows d !! lnk_id r = None.
Proof.
  intros H. unfold insert_link in H. ok_inv. bools. split_and!; try done.
  by destruct (link_rows d !! lnk_id r).
Qed.

Lemma insert_link_wf r d d' : wf_doc d -> insert_link r d = Ok d' -> wf_doc d'.
Proof.
  intros Hwf (-> & Hno & _)%insert_link_Ok. split; cbn; try apply Hwf.
  - apply keyed_insert, Hwf.
  - apply unique_insert; [apply same_link_sym|apply Hwf|done].
Qed.

(** ** What every operation keeps *)

Section invariant.
Context {E : Type} (o : outside) (P : doc_db -> Prop).

(** Other sessions and the store's writes keep [P]. *)
Record kept : Prop := {
  others_keep : forall n d, P d -> P (others_at o n d);
  chunks_keep : forall rows d d', P d -> insert_chunks rows d = Ok d' -> P d';
  embedding_keeps : forall r d d', P d -> insert_embedding r d = Ok d' -> P d';
  link_keeps : forall r d d', P d -> insert_link r d = Ok d' -> P d';
}.
Context (Hkept : kept).

(** However [m] ends, the tables still satisfy [P]. *)
Definition keeps {A} (m : io (world E) A) : Prop :=
  forall w, P (tables w) -> P (tables (m w).2).

Lemma keeps_bind {A B} (m : io (world E) A) (f : A -> io (world E) B) :
  keeps m -> (forall a, keeps (f a)) -> keeps (m ≫= f).
Proof.
  intros Hm Hf w Hw. specialize (Hm w Hw). rewrite io_bind_eq.
  destruct (m w) as [[a|e] w']; [by apply Hf|done].
Qed.
Lemma keeps_ret {A} (a : A) : keeps (mret a).
Proof. by intros w. Qed.
Lemma keeps_lift {A} (r : result A) : keeps (lift r).
Proof. by intros w. Qed.
Lemma keeps_look {A} (f : N -> A) : keeps (look_outside f).
Proof. by intros w. Qed.
Lemma keeps_reads {A} (f : doc_db -> A) : keeps (reads o f).
Proof. intros w Hw. unfold reads. rewrite io_bind_eq. cbn. by destruct (fails o (ticks w)). Qed.
Lemma writes_run (f : doc_db -> result doc_db) (w : world E) :
  let r := execute (fails o (ticks w + 1)) f (others_at o (ticks w) (tables w)) in
  writes o f w = (r.1, {| tables := r.2; ticks := ticks w + 1 + 1; provider := provider w;
                          embed_log := embed_log w |}).
Proof. reflexivity. Qed.

Lemma keeps_writes f : (forall d d', P d -> f d = Ok d' -> P d') -> keeps (writes o f).
Proof.
  intros Hf w Hw. rewrite writes_run. cbn [snd tables].
  pose proof (others_keep Hkept (ticks w) _ Hw) as Hw'. set (d := others_at o (ticks w) (tables w)) in *.
  unfold execute, statement. destruct (fails o (ticks w + 1)); [done|].
  destruct (f d) as [d'|e] eqn:Hd; cbn; [|done]. by eapply Hf.
Qed.
Lemma keeps_try {A} (m : io (world E) A) handles h :
  keeps m -> (forall e, keeps (h e)) -> keeps (io_try m handles h).
Proof.
  intros Hm Hh w Hw. specialize (Hm w Hw). unfold io_try.
  destruct (m w) as [[a|e] w']; [done|]. destruct (handles _); [by apply Hh|done].
Qed.
Lemma keeps_unavailable {A} (m : io (world E) A) : keeps m -> keeps (unavailable m).
Proof. intros Hm. apply keeps_try; [done|]. intros e. apply keeps_lift. Qed.

Lemma keeps_new_chunk_rows version drafts : keeps (new_chunk_rows o version drafts).
Proof.
  induction drafts as [|d drafts IH]; cbn [new_chunk_rows]; [apply keeps_ret|].
  apply keeps_bind; [apply keeps_look|intros id]. apply keeps_bind; [done|intros rows]. apply keeps_ret.
Qed.
Lemma keeps_write_chunks rows : keeps (writes o (insert_chunks rows)).
Proof. apply keeps_writes, Hkept. Qed.
Lemma keeps_write_embedding r : keeps (writes o (insert_embedding r)).
Proof. apply keeps_writes, Hkept. Qed.
Lemma keeps_write_link r : keeps (writes o (insert_link r)).
Proof. apply keeps_writes, Hkept. Qed.

(** The steps of an operation, one after the other. *)
Ltac keeps_step :=
  repeat match goal with
  | |- keeps (mret _) => apply keeps_ret
  | |- keeps (lift _) => apply keeps_lift
  | |- keeps (io_raise _ _) => apply keeps_lift
  | |- keeps (look_outside _) => apply keeps_look
  | |- keeps (reads _ _) => apply keeps_reads
  | |- keeps (new_chunk_rows _ _ _) => apply keeps_new_chunk_rows
  | |- keeps (writes _ (insert_chunks _)) => apply keeps_write_chunks
  | |- keeps (writes _ (insert_embedding _)) => apply keeps_write_embedding
  | |- keeps (writes _ (insert_link _)) => apply keeps_write_link
  | |- keeps (unavailable _) => apply keeps_unavailable
  | |- keeps (match ?x with _ => _ end) => destruct x
  | |- keeps (_ ≫= _) => apply keeps_bind; [|intros ?]
  end.

Lemma keeps_sections p i : keeps (sql_sections_for_version o p i).
Proof. unfold sql_sections_for_version. keeps_step. Qed.
Lemma keeps_chunks i x : keeps (sql_chunks_for_version o i x).
Proof. unfold sql_chunks_for_version. keeps_step. Qed.
Lemma keeps_create_chunks i drafts : keeps (sql_create_chunks o i drafts).
Proof. unfold sql_create_chunks. keeps_step. Qed.
Lemma keeps_cached p h c : keeps (sql_cached_embedding o p h c).
Proof. unfold sql_cached_embedding. keeps_step. Qed.
Lemma keeps_create_embedding p h c values : keeps (sql_create_embedding o p h c values).
Proof. unfold sql_create_embedding. keeps_step. Qed.
Lemma keeps_attach i x c : keeps (sql_attach_embedding o i x c).
Proof. unfold sql_attach_embedding. keeps_step. Qed.

(** The service over the store. *)
Context {rt : PyRuntime} (provider_embed : list pystr -> EmbeddingConfiguration -> io E (list (list spec_float))).
Context (chunking : ChunkingConfiguration) (embedding : EmbeddingConfiguration).
#[local] Existing Instance sql_store.
#[local] Existing Instance world_adapter.

Lemma keeps_embed texts c : keeps (embed (EmbeddingAdapter := world_adapter provider_embed) texts c).
Proof. intros w Hw. cbn. by destruct (provider_embed texts c (provider w)). Qed.

Lemma keeps_look_up project chunks : forall cached misses hits,
  keeps (look_up (store := sql_store o) embedding project chunks cached misses hits).
Proof.
  induction chunks as [|c chunks IH]; intros cached misses hits; cbn [look_up]; [apply keeps_ret|].
  apply keeps_bind; [apply keeps_cached|]. intros [e|]; [|apply IH]. apply keeps_bind; [apply keeps_lift|intros _; apply IH].
Qed.

Lemma keeps_store_vectors project new : forall cached,
  keeps (store_vectors (store := sql_store o) embedding project new cached).
Proof.
  induction new as [|[h values] new IH]; intros cached; cbn [store_vectors]; [apply keeps_ret|].
  apply keeps_bind; [apply keeps_create_embedding|intros e].
  apply keeps_bind; [apply keeps_lift|intros _; apply IH].
Qed.

Lemma keeps_attach_all chunks cached :
  keeps (attach_all (store := sql_store o) embedding chunks cached).
Proof.
  induction chunks as [|c chunks IH]; cbn [attach_all]; [apply keeps_ret|].
  apply keeps_bind; [apply keeps_lift|intros e]. apply keeps_bind; [apply keeps_attach|done].
Qed.

Lemma index_keeps project version :
  keeps (index (store := sql_store o) (adapter := world_adapter provider_embed) chunking embedding
           project version).
Proof using Hkept.
  unfold index. apply keeps_bind; [apply keeps_sections|intros rows].
  apply keeps_bind; [apply keeps_lift|intros _]. apply keeps_bind.
  { unfold chunks_of. apply keeps_bind; [apply keeps_chunks|intros [|c cs]]; [|apply keeps_ret].
    apply keeps_bind; [apply keeps_lift|intros drafts]. apply keeps_bind; [apply keeps_create_chunks|intros; apply keeps_ret]. }
  intros created. apply keeps_bind; [apply keeps_look_up|intros looked]. apply keeps_bind.
  { unfold embed_misses. destruct looked.1.2 as [|m misses]; [apply keeps_ret|].
    apply keeps_bind; [apply keeps_embed|intros vectors].
    apply keeps_bind; [apply keeps_lift|intros _; apply keeps_store_vectors]. }
  intros cached. apply keeps_bind; [apply keeps_attach_all|intros _; apply keeps_ret].
Qed.
End invariant.

Lemma wf_doc_kept o : (forall n d, wf_doc d -> wf_doc (others_at o n d)) -> kept o wf_doc.
Proof.
  intros Ho. split; [done| | |].
  - intros rows d d' Hwf H. by apply insert_chunks_Ok in H as [? _].
  - intros r d d'. apply insert_embedding_wf.
  - intros r d d'. apply insert_link_wf.
Qed.


(** ** Without other sessions the store satisfies the laws *)

Definition sql_view {E} (w : world E) : store_view := {|
  v_ok := wf_doc (tables w);
  v_sections p i := section_of_row <$> section_rows (tables w) p i;
  v_chunks i x := chunk_of_row <$> chunk_rows_of (tables w) i x;
  v_cached p h c := embedding_of_row <$> head (select (embeds p h c) (embedding_rows (tables w)));
  v_attached i c := lnk_embedding_id <$> head (select (links i c) (link_rows (tables w)));
  v_requests := embed_log w |}.

(** What reading and looking outside leave alone. *)
Definition calm {E} (w w' : world E) : Prop := tables w' = tables w /\ embed_log w' = embed_log w.

Lemma calm_same {E} (w w' : world E) : calm w w' -> same (sql_view w) (sql_view w').
Proof. intros [Ht Hl]. by split; cbn; rewrite ?Ht, ?Hl. Qed.

Section quiet.
Context {E : Type} (o : outside).
Hypothesis quiet : forall n d, others_at o n d = d.

Lemma look_outside_Ok {A} (f : N -> A) (w : world E) a w' :
  look_outside f w = (Ok a, w') -> a = f (ticks w) /\ calm w w'.
Proof. by intros [= <- <-]. Qed.

Lemma reads_Ok {A} (f : doc_db -> A) (w : world E) a w' :
  reads o f w = (Ok a, w') -> a = f (tables w) /\ calm w w'.
Proof.
  unfold reads. rewrite io_bind_eq. cbn. unfold on_tables. cbn [tables].
  destruct (query _ _ (tables w)) as [r d] eqn:Hq. cbn. intros [= -> <-].
  apply query_Ok in Hq as (_ & [= <-] & ->). by split.
Qed.

Lemma writes_Ok f (w : world E) x w' : writes o f w = (Ok x, w') ->
  f (tables w) = Ok (tables w') /\ embed_log w' = embed_log w.
Proof.
  rewrite writes_run, quiet. destruct (execute _ _ _) as [r d] eqn:He. cbn. intros [= -> <-].
  by apply execute_Ok in He as [_ ?].
Qed.

Lemma calm_trans (w1 w2 w3 : world E) : calm w1 w2 -> calm w2 w3 -> calm w1 w3.
Proof. intros [A B] [C D]. split; congruence. Qed.

Ltac quiet_inv :=
  repeat match goal with
  | H : (_ ≫= _) _ = (Ok _, _) |- _ => apply io_bind_Ok in H as (? & ? & ? & H)
  | H : unavailable _ _ = (Ok _, _) |- _ => apply io_try_raise_Ok in H
  | H : reads _ _ _ = (Ok _, _) |- _ => apply reads_Ok in H as [? ?]; subst
  | H : look_outside _ _ = (Ok _, _) |- _ => apply look_outside_Ok in H as [? ?]; subst
  | H : lift _ _ = (Ok _, _) |- _ => apply lift_Ok in H as [? ->]
  | H : mret _ _ = (Ok _, _) |- _ => injection H as <- <-
  end.

Lemma quiet_sections p i (w : world E) l w' : sql_sections_for_version o p i w = (Ok l, w') ->
  same (sql_view w) (sql_view w') /\ l = v_sections (sql_view w) p i.
Proof. intros H. unfold sql_sections_for_version in H. quiet_inv. split; [by apply calm_same|done]. Qed.

Lemma quiet_chunks i x (w : world E) l w' : sql_chunks_for_version o i x w = (Ok l, w') ->
  same (sql_view w) (sql_view w') /\ l = v_chunks (sql_view w) i x.
Proof. intros H. unfold sql_chunks_for_version in H. quiet_inv. split; [by apply calm_same|done]. Qed.

Lemma quiet_cached p h c (w : world E) r w' : sql_cached_embedding o p h c w = (Ok r, w') ->
  same (sql_view w) (sql_view w') /\ r = v_cached (sql_view w) p h c.
Proof.
  intros H. unfold sql_cached_embedding in H. quiet_inv. cbn.
  destruct (head _) as [row|]; quiet_inv; (split; [by apply calm_same|]); [|done].
  unfold cached_embedding_from_record in *. ok_inv. done.
Qed.

(** ** Creating chunks *)

Lemma chunk_row_antisym d p x y : wf_doc d ->
  x ∈ select p (chunk_rows d) -> y ∈ select p (chunk_rows d) ->
  chunk_row_le x y -> chunk_row_le y x -> x = y.
Proof.
  intros Hwf [_ [i Hi]]%elem_of_select [_ [j Hj]]%elem_of_select Hxy Hyx.
  pose proof (wd_chunks _ Hwf _ _ Hi) as Hki. pose proof (wd_chunks _ Hwf _ _ Hj) as Hkj.
  unfold chunk_row_le in *. assert (i = j) as -> by (subst; lia). congruence.
Qed.

(** Rows for the drafts, under some identifiers. *)
Definition rows_of (i : uuid) : list DocumentChunkRecord -> list ChunkDraft -> Prop :=
  Forall2 (fun r d => exists id, r = chunk_row id i d).

Lemma new_chunk_rows_Ok i drafts : forall (w : world E) rows w',
  new_chunk_rows o i drafts w = (Ok rows, w') ->
  calm w w' /\ rows_of i rows drafts.
Proof.
  induction drafts as [|d drafts IH]; intros w rows w' H; cbn [new_chunk_rows] in H; quiet_inv; [by split; [|constructor]|].
  match goal with H : new_chunk_rows _ _ _ _ = _ |- _ => apply IH in H as [? ?] end.
  split; [by eapply calm_trans|]. constructor; [by eexists|done].
Qed.

Lemma new_rows_keys i rows drafts : rows_of i rows drafts ->
  chunk_key <$> (chunk_of_row <$> rows) = chunk_of_draft <$> drafts.
Proof. induction 1 as [|r d rs ds (id & ->) _ IH]; cbn; [done|]. by f_equal. Qed.

Lemma new_rows_sorted i rows drafts : rows_of i rows drafts ->
  StronglySorted draft_lt drafts -> StronglySorted chunk_row_le rows.
Proof.
  induction 1 as [|r d rs ds (id & ->) Hall IH]; intros Hs; [constructor|].
  apply StronglySorted_inv in Hs as [Hs Hd]. constructor; [by apply IH|].
  clear -Hall Hd. induction Hall as [|r d' rs ds (id' & ->) _ IH]; [constructor|].
  apply Forall_cons in Hd as [Hd Hds]. constructor; [by left|by apply IH].
Qed.

(** The new rows are of the one version, and of no other. *)
Lemma new_rows_filter i rows drafts x i' x' : rows_of i rows drafts ->
  Forall (fun d => draft_chunking_version d = x) drafts ->
  List.filter (in_version i' x') rows = if decide ((i', x') = (i, x)) then rows else [].
Proof.
  intros Hrows. induction Hrows as [|r d rs ds (id & ->) _ IH]; intros Hv; cbn; [by case_decide|].
  apply Forall_cons in Hv as [Hd Hv]. rewrite IH by done. unfold in_version. cbn. rewrite Hd.
  case_decide as Heq.
  - injection Heq as -> ->. by rewrite N.eqb_refl, str_eqb_refl.
  - destruct (N.eqb_spec i i') as [->|]; [|done]. destruct (str_eqb x x') eqn:Hx; [|done].
    apply str_eqb_eq in Hx as ->. done.
Qed.

Lemma quiet_create i d drafts (w : world E) l w' : wf_doc (tables w) ->
  Forall (fun d' => draft_chunking_version d' = draft_chunking_version d) drafts ->
  StronglySorted draft_lt (d :: drafts) ->
  v_chunks (sql_view w) i (draft_chunking_version d) = [] ->
  sql_create_chunks o i (d :: drafts) w = (Ok l, w') ->
  agree false true true true (sql_view w) (sql_view w') /\
  v_chunks (sql_view w') i (draft_chunking_version d) = l /\
  chunk_key <$> l = chunk_of_draft <$> d :: drafts /\
  (forall i' x', (i', x') <> (i, draft_chunking_version d) ->
    v_chunks (sql_view w') i' x' = v_chunks (sql_view w) i' x').
Proof.
  set (x := draft_chunking_version d). intros Hwf Hv Hs Hnone H.
  assert (Forall (fun d' => draft_chunking_version d' = x) (d :: drafts)) as Hall by by constructor.
  cbn [v_chunks sql_view] in Hnone. apply fmap_nil_inv in Hnone. fold x.
  unfold sql_create_chunks in H. quiet_inv. fold x in H. rewrite Hnone in H. quiet_inv.
  match goal with H : new_chunk_rows _ _ _ _ = _ |- _ => apply new_chunk_rows_Ok in H as [[Ht Hl] Hrows] end.
  match goal with H : calm w _ |- _ => destruct H as [Ht0 Hl0] end.
  match goal with H : writes _ _ _ = (_, ?x) |- _ => rename x into w2; apply writes_Ok in H as [Hins Hl'] end.
  rewrite Ht, Ht0 in Hins. apply insert_chunks_Ok in Hins as (Hwf' & Hd' & Hsel); [|done].
  match goal with H : rows_of _ ?rows _ |- _ => rename rows into rows0 end.
  assert (forall i' x', chunk_rows_of (tables w2) i' x' =
    if decide ((i', x') = (i, x)) then rows0 else chunk_rows_of (tables w) i' x') as Hrows'.
  { intros i' x'. unfold chunk_rows_of. specialize (Hsel (in_version i' x')).
    rewrite (new_rows_filter i rows0 (d :: drafts) x) in Hsel by done. case_decide as Heq.
    - injection Heq as -> ->. unfold chunk_rows_of in Hnone.
      pose proof (merge_sort_Permutation chunk_row_le (select (in_version i x) (chunk_rows (tables w)))) as Hp.
      rewrite Hnone in Hp. apply Permutation_nil_l in Hp. rewrite <- Hp, app_nil_r in Hsel.
      apply (StronglySorted_unique_strong chunk_row_le).
      + intros a b. rewrite merge_sort_Permutation, <- Hsel. by apply chunk_row_antisym.
      + apply StronglySorted_merge_sort; apply _.
      + by eapply new_rows_sorted.
      + by rewrite merge_sort_Permutation.
    - apply (sorted_rows_unique chunk_row_le); [|exact Hsel]. intros a b. by apply chunk_row_antisym. }
  split_and!.
  - split; try (intros; cbn; rewrite Hd'; done); [done|]. intros _. cbn. by rewrite Hl', Hl, Hl0.
  - cbn. by rewrite Hrows', decide_True.
  - by eapply new_rows_keys.
  - intros i' x' Hne. cbn. by rewrite Hrows', decide_False.
Qed.

(** ** Embeddings and links *)

(** A row's key, under which it is found. *)
Definition embedding_key (r : EmbeddingCacheRecord) : uuid * pystr * EmbeddingConfiguration :=
  (emb_project_id r, emb_sha256 r, {| model := emb_model r; embedding_version := emb_version r |}).
Definition link_key (r : DocumentChunkEmbeddingRecord) : uuid * EmbeddingConfiguration :=
  (lnk_chunk_id r, {| model := lnk_model r; embedding_version := lnk_version r |}).

Lemma embeds_key p h c r : embeds p h c r = bool_decide (embedding_key r = (p, h, c)).
Proof.
  destruct c as [m v]. apply eq_true_iff_eq. unfold embeds, embedding_key. cbn.
  rewrite !andb_true_iff, N.eqb_eq, !str_eqb_eq, bool_decide_eq_true. naive_solver.
Qed.
Lemma links_key i c r : links i c r = bool_decide (link_key r = (i, c)).
Proof.
  destruct c as [m v]. apply eq_true_iff_eq. unfold links, link_key. cbn.
  rewrite !andb_true_iff, N.eqb_eq, !str_eqb_eq, bool_decide_eq_true. naive_solver.
Qed.

Lemma embeds_same p h c x y : embeds p h c x = true -> embeds p h c y = true -> same_embedding x y = true.
Proof.
  rewrite !embeds_key, !bool_decide_eq_true. intros <- [= Hp Hh Hm Hv]. unfold same_embedding.
  by rewrite Hp, Hh, Hm, Hv, N.eqb_refl, !str_eqb_refl.
Qed.
Lemma links_same i c x y : links i c x = true -> links i c y = true -> same_link x y = true.
Proof.
  rewrite !links_key, !bool_decide_eq_true. intros <- [= Hi Hm Hv]. unfold same_link.
  by rewrite Hi, Hm, Hv, N.eqb_refl, !str_eqb_refl.
Qed.

Lemma quiet_create_embedding p h c values (w : world E) e w' : wf_doc (tables w) ->
  sql_create_embedding o p h c values w = (Ok e, w') ->
  agree true false true true (sql_view w) (sql_view w') /\
  (forall p' h' c', v_cached (sql_view w') p' h' c' =
     if bool_decide ((p', h', c') = (p, h, c)) then Some e else v_cached (sql_view w) p' h' c') /\
  (forall e', v_cached (sql_view w) p h c = Some e' -> e = e').
Proof.
  intros Hwf H. unfold sql_create_embedding in H. quiet_inv.
  match goal with H : calm w ?x, H' : calm ?x _ |- _ => pose proof (calm_trans _ _ _ H H') as Hc; destruct H as [Ht1 _] end.
  rewrite Ht1 in H. destruct (head _) as [r|] eqn:Hr; quiet_inv.
  - unfold cached_embedding_from_record in *. ok_inv.
    pose proof (calm_same _ _ Hc) as Hs. split; [by eapply agree_weaken; [..|exact Hs]|]. split.
    + intros p' h' c'. rewrite (ag_cached _ _ _ _ _ _ Hs) by done. case_bool_decide as Heq; [|done].
      injection Heq as -> -> ->. cbn. by rewrite Hr.
    + intros e'. cbn. rewrite Hr. by intros [= <-].
  - match goal with H : calm ?x ?y, H' : writes _ _ ?y = (_, ?z) |- _ =>
      rename z into w2; pose proof (calm_trans _ _ _ Hc H) as [Ht Hl]; apply writes_Ok in H' as [Hins Hl'] end.
    rewrite Ht in Hins. pose proof (insert_embedding_wf _ _ _ Hwf Hins) as Hwf'.
    apply insert_embedding_Ok in Hins as (Hd & Hno & Hn). split; [|split].
    + split; try (intros; cbn; rewrite Hd; done); [done|]. intros _. cbn. congruence.
    + intros p' h' c'. cbn. rewrite Hd. cbn [with_embedding_rows embedding_rows].
      rewrite (head_select_insert emb_id same_embedding)
        by (apply Hwf || apply same_embedding_sym || apply embeds_same || done).
      rewrite embeds_key. destruct c as [m v]. cbn. rewrite (bool_decide_ext _ ((p', h', c') = (p, h, {| model := m; embedding_version := v |}))) by done.
      by case_bool_decide.
    + intros e'. cbn. by rewrite Hr.
Qed.

Lemma quiet_attach i x c (w : world E) w' : wf_doc (tables w) ->
  sql_attach_embedding o i x c w = (Ok tt, w') ->
  agree true true false true (sql_view w) (sql_view w') /\
  forall i' c', v_attached (sql_view w') i' c' =
    if bool_decide ((i', c') = (i, c)) then Some x else v_attached (sql_view w) i' c'.
Proof.
  intros Hwf H. unfold sql_attach_embedding in H. quiet_inv.
  match goal with H : calm w _ |- _ => pose proof H as Hc end.
  destruct (head _) as [r|] eqn:Hr in H.
  - destruct (N.eqb_spec (lnk_embedding_id r) x) as [Hx|]; [|done]. injection H as <-.
    pose proof (calm_same _ _ Hc) as Hs. split; [by eapply agree_weaken; [..|exact Hs]|].
    intros i' c'. rewrite (ag_attached _ _ _ _ _ _ Hs) by done. case_bool_decide as Heq; [|done].
    injection Heq as -> ->. cbn. rewrite Hr. cbn. by rewrite Hx.
  - quiet_inv. match goal with H : writes _ _ ?y = _ |- _ =>
      assert (calm w y) as [Ht Hl] by (eapply calm_trans; [|eassumption]; by eapply calm_trans);
      apply writes_Ok in H as [Hins Hl'] end.
    rewrite Ht in Hins. apply insert_link_Ok in Hins as Hd. destruct Hd as (Hd & Hno & Hn).
    pose proof (insert_link_wf _ _ _ Hwf Hins) as Hwf'. split.
    + split; try (intros; cbn; rewrite Hd; done); [done|]. intros _. cbn. congruence.
    + intros i' c'. cbn. rewrite Hd. cbn [with_link_rows link_rows].
      rewrite (head_select_insert lnk_id same_link)
        by (apply Hwf || apply same_link_sym || apply links_same || done).
      rewrite links_key. destruct c as [m v]. cbn.
      rewrite (bool_decide_ext _ ((i', c') = (i, {| model := m; embedding_version := v |}))) by done.
      by case_bool_decide.
Qed.

Context (provider_embed : list pystr -> EmbeddingConfiguration -> io E (list (list spec_float))).

#[export] Instance sql_laws :
  @StoreLaws (world E) (sql_store o) (world_adapter provider_embed).
Proof using quiet.
  unshelve econstructor; [exact sql_view|..].
  - apply quiet_sections.
  - apply quiet_chunks.
  - apply quiet_create.
  - intros i s r s' [= <- <-]. split; [done|apply agree_refl].
  - apply quiet_cached.
  - intros p h c values s e s'. apply quiet_create_embedding.
  - apply quiet_attach.
  - intros texts c s r s' H. cbn in H. destruct (provider_embed texts c (provider s)).
    injection H as _ <-. by split.
Defined.

(** The chunks a version has in the tables are distinct. *)
Lemma chunk_ids_distinct (w : world E) i x : wf_doc (tables w) ->
  NoDup (chunk_id <$> v_chunks (sql_view w) i x).
Proof.
  intros Hwf. cbn. rewrite <- list_fmap_compose. unfold chunk_rows_of.
  apply NoDup_fmap_2_strong.
  - intros r s. rewrite merge_sort_Permutation. intros [_ [j Hj]]%elem_of_select [_ [k Hk]]%elem_of_select Heq.
    cbn in Heq. pose proof (wd_chunks _ Hwf _ _ Hj). pose proof (wd_chunks _ Hwf _ _ Hk). congruence.
  - rewrite merge_sort_Permutation. apply (select_nodup _ _ chk_id), Hwf.
Qed.
End quiet.

(** ** The service over the SQL store *)

(** Whatever other sessions commit between the statements, as long as they
    respect the constraints themselves, and wherever a run stops, the SQL
    store keeps its tables well formed: rows under their keys, one chunk per
    version, chunking and ordinal, one embedding per project, text and
    configuration, one link per chunk and configuration. *)
Theorem sql_index_keeps_tables {rt : PyRuntime} {E : Type} (o : outside)
    (provider_embed : list pystr -> EmbeddingConfiguration -> io E (list (list spec_float)))
    chunking embedding project version (w : world E) :
  (forall n d, wf_doc d -> wf_doc (others_at o n d)) -> wf_doc (tables w) ->
  wf_doc (tables (index (store := sql_store o) (adapter := world_adapter provider_embed)
                    chunking embedding project version w).2).
Proof. intros Ho. by apply (index_keeps o), wf_doc_kept. Qed.

(** Over the SQL store, without other sessions, indexing a version again
    creates nothing, asks the provider nothing and changes nothing that can be
    read. *)
Theorem sql_index_idempotent {rt : PyRuntime} {E : Type} (o : outside)
    (provider_embed : list pystr -> EmbeddingConfiguration -> io E (list (list spec_float)))
    chunking embedding project version (w w1 w2 : world E) r r2 :
  let run := index (store := sql_store o) (adapter := world_adapter provider_embed)
               chunking embedding project version in
  (forall n d, others_at o n d = d) -> wf_doc (tables w) ->
  run w = (Ok r, w1) -> run w1 = (Ok r2, w2) ->
  r2 = {| indexed_version_id := version; chunk_count := chunk_count r; chunks_created := 0;
          embeddings_created := 0; embedding_cache_hits := chunk_count r |} /\
  same (sql_view w1) (sql_view w2).
Proof.
  intros run quiet Hwf H1 H2.
  eapply (index_again (laws := sql_laws o quiet provider_embed)); [..|exact H1|exact H2]; [done|].
  apply chunk_ids_distinct.
  apply (index_inv (laws := sql_laws o quiet provider_embed)) in H1; [|done].
  by apply (ix_ok _ _ _ _ _ _ _ H1).
Qed.

(** ** Concrete tables

    A version with two chunks of different texts, one of them embedded, and a
    queued indexing job for it. *)
Lemma check_tables d :
  map_Forall (fun i r => chk_id r = i /\ map_Forall (fun j s => same_chunk r s = true -> i = j) (chunk_rows d))
    (chunk_rows d) ->
  map_Forall (fun i r => emb_id r = i /\ map_Forall (fun j s => same_embedding r s = true -> i = j) (embedding_rows d))
    (embedding_rows d) ->
  link_rows d = ∅ -> wf_doc d.
Proof.
  intros Hc He Hl. split; rewrite ?Hl.
  - intros i r Hr. by apply Hc.
  - intros i r Hr. by apply He.
  - by intros i r Hr.
  - intros i j r s Hi Hj Hs. destruct (Hc _ _ Hi) as [_ Hu]. by apply (Hu _ _ Hj).
  - intros i j r s Hi Hj Hs. destruct (He _ _ Hi) as [_ Hu]. by apply (Hu _ _ Hj).
  - by intros i j r s Hi.
Qed.

Definition digest_of (x : N) : pystr := repeat x 64.
Definition sample_chunk (id : uuid) (ordinal : Z) (text : pystr) (digest : pystr) : DocumentChunkRecord := {|
  chk_id := id; chk_version_id := 2; chk_section_id := Some 3%N; chk_location_id := 5;
  chk_ordinal := ordinal; chk_text := text; chk_sha256 := digest; chk_chunking_version := u "c" |}.

Definition sample_tables : doc_db := {|
  queues := {|
    documents := {[ 7%N := {| doc_id := 7; doc_project_id := 1; document_type := u "text";
                              display_name := u "d"; doc_created_at := 0 |} ]};
    intakes := ∅; parser_jobs := ∅;
    indexing_jobs := {[ 50%N :=
      {| ij_id := 50; ij_project_id := 1; ij_document_version_id := 2; ij_chunking_version := u "c";
         ij_embedding_model := u "m"; ij_embedding_version := u "e";
         ij_lease := {| l_state := JOB_QUEUED; created_at := 0; claim_token := None; claimed_at := None;
                        claim_expires_at := None; completed_at := None; failure_code := None |} |} ]};
    parser_history := []; indexing_history := [] |};
  project_ids := {[ 1%N ]};
  parser_versions := ∅;
  versions := {[ 2%N := {| ver_id := 2; ver_document_id := 7; ver_parser_version_id := 8;
                           version_number := 1; ver_content_sha256 := digest_of 99; ver_byte_size := 3;
                           ver_content_type := u "text/plain"; ver_created_at := 0 |} ]};
  locations := {[ 5%N := {| loc_id := 5; loc_version_id := 2; location_kind := u "line_range";
                            loc_heading := None; loc_line_start := Some 1; loc_line_end := Some 1;
                            loc_page_start := None; loc_page_end := None; loc_json_pointer := None |} ]};
  sections := {[ 3%N := {| sec_id := 3; sec_version_id := 2; sec_location_id := 5; sec_ordinal := 0;
                           section_key := None; sec_text := u "x y"; sec_sha256 := digest_of 99 |} ]};
  chunk_rows := {[ 10%N := sample_chunk 10 1 (u "y") (digest_of 98);
                   11%N := sample_chunk 11 0 (u "x") (digest_of 97) ]};
  embedding_rows := {[ 20%N :=
    {| emb_id := 20; emb_project_id := 1; emb_sha256 := digest_of 97; emb_model := u "m";
       emb_version := u "e"; dimensions := 1; emb_values := sample_vector; emb_created_at := 0 |} ]};
  link_rows := ∅;
  trace_rows := ∅; candidate_rows := ∅; citation_rows := ∅;
  run_rows := ∅; finding_rows := ∅; feedback_rows := ∅ |}.

Definition sample_outside : outside := {|
  new_id n := (100 + n)%N; clock_at n := 1000 + Z.of_N n; fails _ := false; others_at _ d := d |}.

Definition sample_provider (texts : list pystr) (c : EmbeddingConfiguration) :
    io unit (list (list spec_float)) := fun s => (Ok (map (fun _ => sample_vector) texts), s).

Definition sample_world : world unit := {|
  tables := sample_tables; ticks := 0; provider := tt; embed_log := [] |}.

Lemma sample_tables_wf : wf_doc sample_tables.
Proof. apply check_tables; [apply (bool_decide_unpack _); vm_compute; exact I..|reflexivity]. Qed.

Definition sql_sample : io (world unit) IndexingResult :=
  index (store := sql_store sample_outside) (adapter := world_adapter sample_provider)
    sample_chunking sample_embedding 1 2.
Definition sql_once : world unit := (sql_sample sample_world).2.

Lemma sql_index_keeps_tables_witness :
  wf_doc (tables sample_world) /\ wf_doc (tables sql_once).
Proof.
  split; [exact sample_tables_wf|]. unfold sql_once, sql_sample.
  apply (sql_index_keeps_tables sample_outside sample_provider sample_chunking sample_embedding 1 2 sample_world);
    [intros n d Hd; exact Hd|exact sample_tables_wf].
Defined.

Lemma sql_index_idempotent_witness :
  wf_doc (tables sample_world) /\
  sql_sample sample_world =
    (Ok {| indexed_version_id := 2; chunk_count := 2; chunks_created := 0;
           embeddings_created := 1; embedding_cache_hits := 1 |}, sql_once) /\
  ({| indexed_version_id := 2; chunk_count := 2; chunks_created := 0;
      embeddings_created := 0; embedding_cache_hits := 2 |} =
   {| indexed_version_id := 2; chunk_count := 2; chunks_created := 0;
      embeddings_created := 0; embedding_cache_hits := 2 |} /\
   same (sql_view sql_once) (sql_view (sql_sample sql_once).2)).
Proof.
  split; [exact sample_tables_wf|]. split; [vm_compute; reflexivity|].
  apply (sql_index_idempotent sample_outside sample_provider sample_chunking sample_embedding 1 2
           sample_world sql_once (sql_sample sql_once).2
           {| indexed_version_id := 2; chunk_count := 2; chunks_created := 0;
              embeddings_created := 1; embedding_cache_hits := 1 |});
    [intros n d; reflexivity|exact sample_tables_wf|vm_compute; reflexivity|vm_compute; reflexivity].
Defined.
