(* ===== verification/IndexingWorker.v ===== *)
(** * The indexing worker ([indexing_worker.py])

    [run_once]: claim one indexing job, index its document version with the
    SQL store, accept or fail the job.  Other sessions commit between the
    claim, the indexing and the end of the claim ([others_at]) and between the
    two statements of the claim ([queue_others]).

    ** Properties

    Over the SQL store, without other sessions at work: a job becomes accepted
    only when every chunk of its document version is attached to a valid
    embedding of its text, whatever fails on the way; and what each outcome of
    a run says of the job. *)
From Stdlib Require Import Floats.SpecFloat.
From S2P Require Import Prelude PyText Json Digest Effects GeneratedTests Database JobTables ParserJobClaims.
From S2P Require Import IndexingJobClaims DocumentTables Indexing IndexingStore AsciiRuntime Samples.
From S2P Require Import DatabaseFacts Leases JobQueues IndexingSpec IndexingStoreSpec.

Inductive IndexingRunState := RUN_IDLE | RUN_ACCEPTED | RUN_FAILED | RUN_NOT_PUBLISHED.

Record IndexingRun := {
  run_state : IndexingRunState;
  run_job_id : option uuid;
  run_version_id : option uuid;
  run_chunk_count : nat;
  run_chunks_created : nat;
  run_embeddings_created : nat;
  run_cache_hits : nat;
}.

(** A run without counts. *)
Definition bare_run (state : IndexingRunState) (job : option uuid) : IndexingRun := {|
  run_state := state; run_job_id := job; run_version_id := None; run_chunk_count := 0;
  run_chunks_created := 0; run_embeddings_created := 0; run_cache_hits := 0 |}.

Definition accepted_run (job : uuid) (r : IndexingResult) : IndexingRun := {|
  run_state := RUN_ACCEPTED; run_job_id := Some job;
  run_version_id := Some (indexed_version_id r); run_chunk_count := chunk_count r;
  run_chunks_created := chunks_created r; run_embeddings_created := embeddings_created r;
  run_cache_hits := embedding_cache_hits r |}.

(** The claims a worker makes are of its service's configuration
    ([create_indexing_worker]). *)
Definition worker_claims (duration : Z) (chunking : ChunkingConfiguration)
    (embedding : EmbeddingConfiguration) : indexing_claims := {|
  ic_duration := duration; ic_document_version_id := None;
  ic_chunking_version := chunking_version chunking; ic_embedding_model := model embedding;
  ic_embedding_version := embedding_version embedding |}.

(** What the except clauses of [run_once] tell apart. *)
Definition fails_job (c : exn_class) : bool :=
  bool_decide (c = IndexingUnavailable) || bool_decide (c = EmbeddingProtocolError) || is_ValueError c.

Section worker.
Context {rt : PyRuntime} {E : Type} (o : outside).
Context (provider_embed : list pystr -> EmbeddingConfiguration -> io E (list (list spec_float))).
Context (queue_others : N -> job_db -> job_db) (runtime_verifier : N -> result unit).
Context (duration : Z) (chunking : ChunkingConfiguration) (embedding : EmbeddingConfiguration).

Abbreviation claims := (worker_claims duration chunking embedding).

Definition claim_next : io (world E) (option ClaimedIndexingJob) :=
  now ← look_outside (clock_at o);
  token ← look_outside (new_id o);
  others ← look_outside queue_others;
  fault ← look_outside (fails o);
  on_queues (IndexingJobClaims.claim_next claims fault (at_utc now) token others).

Definition accept (claim : ClaimedIndexingJob) : io (world E) unit :=
  now ← look_outside (clock_at o);
  fault ← look_outside (fails o);
  on_queues (IndexingJobClaims.accept claims fault (at_utc now) claim).

Definition fail (claim : ClaimedIndexingJob) : io (world E) unit :=
  now ← look_outside (clock_at o);
  fault ← look_outside (fails o);
  on_queues (IndexingJobClaims.fail claims fault (at_utc now) claim).

(** [_terminalize] *)
Definition terminalize (claim : ClaimedIndexingJob) : io (world E) IndexingRun :=
  io_try (commits o ;; fail claim ;; mret (bare_run RUN_FAILED (Some (ci_job_id claim))))
    (fun c => bool_decide (c = IndexingJobClaimRejected))
    (fun _ => mret (bare_run RUN_NOT_PUBLISHED (Some (ci_job_id claim)))).

(** The body of the try statement. *)
Definition index_claim (claim : ClaimedIndexingJob) : io (world E) IndexingRun :=
  result ← index (store := sql_store o) (adapter := world_adapter provider_embed) chunking embedding
             (ci_project_id claim) (ci_document_version_id claim);
  commits o ;;
  accept claim ;;
  mret (accepted_run (ci_job_id claim) result).

Definition run_once : io (world E) IndexingRun :=
  verified ← look_outside runtime_verifier;
  lift verified ;;
  claim ← claim_next;
  match claim with
  | None => mret (bare_run RUN_IDLE None)
  | Some claim =>
      commits o ;;
      io_try (index_claim claim) (fun _ => true) (fun error =>
        if fails_job (exn_cls error) then terminalize claim
        else if bool_decide (exn_cls error = IndexingJobClaimRejected)
        then mret (bare_run RUN_NOT_PUBLISHED (Some (ci_job_id claim)))
        else terminalize claim ;; lift (Raise error))
  end.
End worker.

(** * Properties *)

(** ** The claims of the queue *)

Lemma wf_rows_insert (m : gmap uuid IndexingJobRecord) r x : wf_rows m -> row_id r = x ->
  row_check r = true -> wf_rows (<[x := r]> m).
Proof. intros Hwf Hx Hc i s [[<- <-]|[_ Hi]]%lookup_insert_Some; [done|by apply Hwf]. Qed.

Definition set_job (d : job_db) (job : uuid) (r : IndexingJobRecord) : job_db :=
  with_indexing_jobs d (<[job := r]> (indexing_jobs d)).

Lemma set_job_wf d job r : wf_jobs d -> row_id r = job -> row_check r = true -> wf_jobs (set_job d job r).
Proof. intros [Hp Hi] Hid Hc. split; [done|by apply wf_rows_insert]. Qed.

Lemma same_jobs d : with_indexing_jobs d (indexing_jobs d) = d.
Proof. by destruct d. Qed.

Section queue.
Context (c : indexing_claims).

(** A job held under a lease of this claim. *)
Definition held_by (claim : ClaimedIndexingJob) (d : job_db) (row : IndexingJobRecord) : Prop :=
  indexing_jobs d !! ci_job_id claim = Some row /\ l_state (ij_lease row) = JOB_CLAIMED /\
  configuration_scope c row = true /\ describes claim row = true.

(** A claim changes nothing, or claims one queued job. *)
Definition claim_effect (d d' : job_db) (claim : option ClaimedIndexingJob) : Prop :=
  match claim with
  | None => d' = d
  | Some claim => exists row l, indexing_jobs d !! ci_job_id claim = Some row /\
      l_state (ij_lease row) = JOB_QUEUED /\ l_state l = JOB_CLAIMED /\
      ci_project_id claim = ij_project_id row /\
      ci_document_version_id claim = ij_document_version_id row /\
      d' = set_job d (ci_job_id claim) (with_lease row l)
  end.

Lemma claim_update_effect candidate token now deadline d claim d' : wf_jobs d ->
  IndexingJobClaims.claim_update c candidate token now deadline d = Ok (claim, d') ->
  wf_jobs d' /\ claim_effect d d' claim.
Proof.
  intros [Hp Hwf] H. unfold IndexingJobClaims.claim_update in H. ok_inv. destruct x as [rows m]. cbn [fst snd] in *.
  apply (update_at _ _ _ _ _ (default 0%N candidate) Hwf) in H0; [|intros r ?; bools; by apply is_uuid_true].
  destruct H0 as [[-> ->]|(row & Hr & Hpr & -> & Hc & ->)]; cbn in H1; injection H1 as <-.
  - rewrite same_jobs. split; [by split|done].
  - bools. destruct (Hwf _ _ Hr) as [Hid _]. cbn in Hid.
    split; [by apply set_job_wf|]. cbn. rewrite Hid.
    exists row, (claim_lease token now deadline (ij_lease row)). split_and!; try done; [by apply lease_in_true|].
    unfold set_job. cbn. by rewrite Hid.
Qed.

Lemma claim_next_effect fault clock token others d r d' : (forall d, others d = d) -> wf_jobs d ->
  IndexingJobClaims.claim_next c fault clock token others d = (r, d') ->
  wf_jobs d' /\ match r with Ok claim => claim_effect d d' claim | Raise _ => d' = d end.
Proof.
  intros Ho Hwf H. unfold IndexingJobClaims.claim_next in H. rewrite io_bind_eq in H. unfold lift at 1 in H.
  destruct (utc clock) as [now|e]; [|by injection H as <- <-]. apply io_try_raise_run in H.
  rewrite io_bind_eq in H. destruct (query false _ d) as [[candidate|e] d1] eqn:Q; [|discriminate Q].
  apply query_Ok in Q as (_ & _ & ->). rewrite (io_step _ _ _ tt d) in H by (unfold interleave; by rewrite Ho).
  destruct H as [(claim & -> & [_ H]%statement_Ok)|(e & e' & -> & [-> _]%statement_Raise)]; [|done].
  by apply claim_update_effect in H.
Qed.

(** Ending a claim changes nothing, or ends the job the claim holds. *)
Lemma finish_effect fault clock claim state code d r d' : wf_jobs d ->
  IndexingJobClaims.finish c fault clock claim state code d = (r, d') ->
  wf_jobs d' /\
  match r with
  | Ok _ => exists row now, held_by claim d row /\
      d' = set_job d (ci_job_id claim) (with_lease row (finish_lease state now code (ij_lease row)))
  | Raise _ => d' = d
  end.
Proof.
  intros Hwf H. unfold IndexingJobClaims.finish in H. rewrite io_bind_eq in H. unfold lift at 1 in H.
  destruct (utc clock) as [now|e]; [|by injection H as <- <-].
  assert (forall at_ deadline row d', IndexingJobClaims.finish_update c claim at_ deadline now state code d = Ok (row, d') ->
    wf_jobs d' /\ match row with None => d' = d | Some _ => exists row, held_by claim d row /\
      d' = set_job d (ci_job_id claim) (with_lease row (finish_lease state now code (ij_lease row))) end) as Hu.
  { clear d' H. intros at_ deadline row d' H. destruct Hwf as [Hp Hwf]. unfold finish_update in H. ok_inv.
    destruct x as [rows m]. cbn [fst snd] in *.
    apply (update_at _ _ _ _ _ (ci_job_id claim) Hwf) in H0; [|intros s ?; by bools].
    destruct H0 as [[-> ->]|(s & Hs & Hps & -> & Hc & ->)].
    - rewrite same_jobs. split; [by split|done].
    - bools. split; [apply set_job_wf; [done| |done]; by cbn|]. exists s. split; [|done].
      match goal with H : holds_lease _ _ _ _ _ = true |- _ => apply holds_lease_true in H as (? & _) end. done. }
  apply io_try_raise_run in H. destruct H as [(a & -> & H)|(e & e' & -> & H)].
  - apply io_bind_Ok in H as (at_ & d1 & [_ ->]%lift_Ok & H).
    apply io_bind_Ok in H as (dl & d1 & [_ ->]%lift_Ok & H).
    apply io_bind_Ok in H as (row & d1 & [_ Hrow]%statement_Ok & H). apply Hu in Hrow as [Hwf' Hrow].
    destruct row; [|discriminate H]. destruct a; injection H as <-. split; [done|]. destruct Hrow as (s & ? & ?). by exists s, now.
  - apply io_bind_Raise in H as [[_ ->]%lift_Raise|(at_ & d1 & [_ ->]%lift_Ok & H)]; [done|].
    apply io_bind_Raise in H as [[_ ->]%lift_Raise|(dl & d1 & [_ ->]%lift_Ok & H)]; [done|].
    apply io_bind_Raise in H as [[-> _]%statement_Raise|(row & d1 & [_ Hrow]%statement_Ok & H)]; [done|].
    apply Hu in Hrow as [Hwf' Hrow]. destruct row; [discriminate H|]. by injection H as _ <-.
Qed.
End queue.

(** ** The worker *)

Lemma on_queues_run {E A} (m : io job_db A) (w : world E) :
  on_queues m w = ((m (queues (tables w))).1, with_tables w (with_queues (tables w) (m (queues (tables w))).2)).
Proof. reflexivity. Qed.

Section worker.
Context {rt : PyRuntime} {E : Type} (o : outside).
Context (provider_embed : list pystr -> EmbeddingConfiguration -> io E (list (list spec_float))).
Context (queue_others : N -> job_db -> job_db) (runtime_verifier : N -> result unit).
Context (duration : Z) (chunking : ChunkingConfiguration) (embedding : EmbeddingConfiguration).
Hypothesis quiet : forall n d, others_at o n d = d.
Hypothesis queue_quiet : forall n d, queue_others n d = d.
Abbreviation claims := (worker_claims duration chunking embedding).
Abbreviation jobs_of w := (indexing_jobs (queues (tables w))).

(** Each chunk of the job's version is attached to a valid embedding of its
    text, cached for the job's project. *)
Definition fully_indexed (w : world E) (job : IndexingJobRecord) : Prop :=
  configuration_scope claims job = true /\
  forall c, c ∈ v_chunks (sql_view w) (ij_document_version_id job) (chunking_version chunking) ->
    exists e, v_cached (sql_view w) (ij_project_id job) (chunk_sha256 c) embedding = Some e /\
      validate_cached e = Ok tt /\
      v_attached (sql_view w) (chunk_id c) embedding = Some (embedding_id e).

(** The tables are well formed, and no job became accepted since [jobs]. *)
Definition unaccepted (jobs : gmap uuid IndexingJobRecord) (d : doc_db) : Prop :=
  wf_doc d /\ wf_jobs (queues d) /\
  forall i r, indexing_jobs (queues d) !! i = Some r -> l_state (ij_lease r) = JOB_ACCEPTED ->
    jobs !! i = Some r.

Lemma unaccepted_kept jobs : kept o (unaccepted jobs).
Proof using quiet.
  split.
  - intros n d. by rewrite quiet.
  - intros rows d d' (Hwf & H) Hi. apply insert_chunks_Ok in Hi as (Hwf' & Hd & _); [|done].
    split; [done|]. by rewrite Hd.
  - intros r d d' (Hwf & H) Hi. split; [by eapply insert_embedding_wf|].
    by apply insert_embedding_Ok in Hi as [-> _].
  - intros r d d' (Hwf & H) Hi. split; [by eapply insert_link_wf|].
    by apply insert_link_Ok in Hi as [-> _].
Qed.

(** An operation of the queue that leaves its jobs alone or in another state
    than accepted. *)
Lemma keeps_on_queues {A} jobs (m : io job_db A) :
  (forall d, wf_jobs d -> wf_jobs (m d).2 /\
    ((m d).2 = d \/ exists job row, (m d).2 = set_job d job row /\ l_state (ij_lease row) <> JOB_ACCEPTED)) ->
  keeps (E := E) (unaccepted jobs) (on_queues m).
Proof.
  intros Hm w (Hwf & Hj & Hacc). rewrite on_queues_run. cbn [snd tables with_tables].
  destruct (Hm _ Hj) as [Hj' Hcases]. split; [destruct Hwf; by split|]. split; [done|]. cbn [queues with_queues].
  destruct Hcases as [->|(job & row & -> & Hst)]; [done|]. intros i r.
  unfold set_job. cbn. intros [[<- <-]|[_ Hi]]%lookup_insert_Some Hr; [done|by apply Hacc].
Qed.

Lemma keeps_claim jobs : keeps (E := E) (unaccepted jobs) (claim_next o queue_others duration chunking embedding).
Proof using queue_quiet.
  intros w Hw. unfold claim_next. do 4 (erewrite io_step by reflexivity). cbn [ticks tables].
  apply keeps_on_queues; [|done]. intros d Hd.
  destruct (IndexingJobClaims.claim_next _ _ _ _ _ d) as [r d'] eqn:H.
  apply claim_next_effect in H as [Hd' H]; [|intros; apply queue_quiet|done]. split; [done|]. cbn [snd].
  destruct r as [[claim|]|e]; [|by left|by left]. right.
  destruct H as (row & l & _ & _ & Hl & _ & _ & ->). do 2 eexists. split; [done|]. cbn. by rewrite Hl.
Qed.

Lemma keeps_fail jobs claim : keeps (E := E) (unaccepted jobs) (fail o duration chunking embedding claim).
Proof.
  intros w Hw. unfold fail. do 2 (erewrite io_step by reflexivity). cbn [ticks tables].
  apply keeps_on_queues; [|done]. intros d Hd.
  destruct (IndexingJobClaims.fail _ _ _ _ d) as [r d'] eqn:H.
  apply finish_effect in H as [Hd' H]; [|done]. split; [done|]. cbn [snd].
  destruct r as [x|e]; [right|by left]. destruct H as (row & now & _ & ->). do 2 eexists. split; [done|]. done.
Qed.

Lemma keeps_commits jobs : keeps (E := E) (unaccepted jobs) (commits o).
Proof using quiet. intros w Hw. change (unaccepted jobs (others_at o (ticks w) (tables w))). by rewrite quiet. Qed.

Lemma keeps_terminalize jobs claim :
  keeps (E := E) (unaccepted jobs) (terminalize o duration chunking embedding claim).
Proof using quiet.
  apply keeps_try; [|intros e; apply keeps_ret]. apply keeps_bind; [apply keeps_commits|intros _].
  apply keeps_bind; [apply keeps_fail|intros _; apply keeps_ret].
Qed.

Lemma keeps_index jobs claim : keeps (unaccepted jobs)
  (index (store := sql_store o) (adapter := world_adapter provider_embed) chunking embedding
     (ci_project_id claim) (ci_document_version_id claim)).
Proof using quiet. apply (index_keeps o), unaccepted_kept. Qed.

Lemma commits_Ok (w : world E) x w' : commits o w = (Ok x, w') -> calm w w'.
Proof using quiet.
  intros H. change (commits o w) with (Ok tt, {| tables := others_at o (ticks w) (tables w);
    ticks := ticks w + 1; provider := provider w; embed_log := embed_log w |}) in H.
  injection H as <- <-. split; [|done]. cbn. by rewrite quiet.
Qed.

(** The job a successful run ends with. *)
Definition ended_as (w w' : world E) (run : IndexingRun) (claim : ClaimedIndexingJob)
    (state : JobState) (code : option pystr) : Prop :=
  exists row now, let row' := with_lease row (finish_lease state now code (ij_lease row)) in
    held_by claims claim (queues (tables w)) row /\
    queues (tables w') = set_job (queues (tables w)) (ci_job_id claim) row' /\
    run_job_id run = Some (ci_job_id claim).

Lemma fully_indexed_ext (w w' : world E) job :
  chunk_rows (tables w') = chunk_rows (tables w) -> embedding_rows (tables w') = embedding_rows (tables w) ->
  link_rows (tables w') = link_rows (tables w) -> fully_indexed w job -> fully_indexed w' job.
Proof.
  intros Hc He Hl [Hs Hf]. split; [done|]. intros c. cbn. unfold chunk_rows_of. rewrite Hc, He, Hl. apply Hf.
Qed.

Lemma index_claim_Ok jobs claim (w : world E) run w' : unaccepted jobs (tables w) ->
  index_claim o provider_embed duration chunking embedding claim w = (Ok run, w') ->
  exists w1, unaccepted jobs (tables w1) /\ ended_as w1 w' run claim JOB_ACCEPTED None /\
    run_state run = RUN_ACCEPTED /\ run_version_id run = Some (ci_document_version_id claim) /\
    run_chunk_count run =
      length (v_chunks (sql_view w') (ci_document_version_id claim) (chunking_version chunking)) /\
    wf_doc (tables w') /\ wf_jobs (queues (tables w')) /\
    forall row, configuration_scope claims row = true -> describes claim row = true -> fully_indexed w' row.
Proof using quiet.
  intros Hw H. unfold index_claim in H. apply io_bind_Ok in H as (res & w1 & Hi & H).
  pose proof (keeps_index jobs claim w Hw) as Hw1. rewrite Hi in Hw1. cbn [snd] in Hw1.
  apply (index_inv (laws := sql_laws o quiet provider_embed)) in Hi; [|apply Hw].
  apply io_bind_Ok in H as (x & w2 & Hc & H). apply commits_Ok in Hc as [Ht2 _].
  apply io_bind_Ok in H as (y & w3 & Ha & H). injection H as <- <-.
  unfold accept in Ha. do 2 (erewrite io_step in Ha by reflexivity). rewrite on_queues_run in Ha.
  cbn [tables] in Ha. rewrite Ht2 in Ha. injection Ha as Ha <-.
  destruct (IndexingJobClaims.accept _ _ _ _ _) as [r d'] eqn:Hr. cbn [fst snd] in *. subst r.
  apply finish_effect in Hr as (Hj' & row & now & Hheld & ->); [|apply Hw1].
  exists w1. split; [done|]. split; [by exists row, now|]. split; [done|].
  split; [cbn; by rewrite (ix_version _ _ _ _ _ _ _ Hi)|]. split; [apply (ix_count _ _ _ _ _ _ _ Hi)|].
  split; [destruct Hw1 as [[] _]; by split|]. split; [done|].
  intros r Hs Hd. apply (fully_indexed_ext w1); [done..|]. split; [done|]. intros c.
  unfold describes in Hd. bools.
  replace (ij_document_version_id r) with (ci_document_version_id claim) by congruence.
  replace (ij_project_id r) with (ci_project_id claim) by congruence.
  apply (ix_attached _ _ _ _ _ _ _ Hi). apply chunk_ids_distinct, Hw1.
Qed.

Lemma index_claim_Raise jobs claim (w : world E) e w' : unaccepted jobs (tables w) ->
  index_claim o provider_embed duration chunking embedding claim w = (Raise e, w') ->
  unaccepted jobs (tables w').
Proof using quiet.
  intros Hw H. pose proof (keeps_index jobs claim w Hw) as Hw1. unfold index_claim in H.
  apply io_bind_Raise in H as [Hi|(res & w1 & Hi & H)]; rewrite Hi in Hw1; [done|]. cbn [snd] in Hw1.
  apply io_bind_Raise in H as [H|(x & w2 & Hc & H)].
  { pose proof (keeps_commits jobs w1 Hw1) as Hk. by rewrite H in Hk. }
  pose proof (keeps_commits jobs w1 Hw1) as Hw2. rewrite Hc in Hw2. cbn [snd] in Hw2.
  apply io_bind_Raise in H as [Ha|(y & w3 & _ & H)]; [|discriminate H].
  unfold accept in Ha. do 2 (erewrite io_step in Ha by reflexivity). rewrite on_queues_run in Ha. cbn [tables] in Ha.
  destruct (IndexingJobClaims.accept _ _ _ _ _) as [r d'] eqn:Hr. injection Ha as Hx <-. cbn in Hx. subst r.
  apply finish_effect in Hr as [Hj ->]; [|apply Hw2]. cbn. destruct Hw2 as ([] & ? & ?). by split.
Qed.

(** The steps of a run. *)
Inductive ran_as (w : world E) : result IndexingRun -> world E -> Prop :=
  | ran_idle w' : unaccepted (jobs_of w) (tables w') -> ran_as w (Ok (bare_run RUN_IDLE None)) w'
  | ran_accepted claim w1 run w' : unaccepted (jobs_of w) (tables w1) ->
      index_claim o provider_embed duration chunking embedding claim w1 = (Ok run, w') ->
      ran_as w (Ok run) w'
  | ran_not_published job w' : unaccepted (jobs_of w) (tables w') ->
      ran_as w (Ok (bare_run RUN_NOT_PUBLISHED (Some job))) w'
  | ran_failed claim w1 w' run : unaccepted (jobs_of w) (tables w1) ->
      terminalize o duration chunking embedding claim w1 = (Ok run, w') -> ran_as w (Ok run) w'
  | ran_raise e w' : unaccepted (jobs_of w) (tables w') -> ran_as w (Raise e) w'.

Lemma run_once_ran (w : world E) r w' : wf_doc (tables w) -> wf_jobs (queues (tables w)) ->
  run_once o provider_embed queue_others runtime_verifier duration chunking embedding w = (r, w') ->
  ran_as w r w'.
Proof using quiet queue_quiet.
  intros Hwf Hj H. unfold run_once in H. erewrite io_step in H by reflexivity.
  rewrite io_bind_eq in H. unfold lift at 1 in H. destruct (runtime_verifier _) as [[]|e]; [|by injection H as <- <-; apply ran_raise].
  pose proof (keeps_claim (jobs_of w) {| tables := tables w; ticks := ticks w + 1; provider := provider w;
    embed_log := embed_log w |} ltac:(done)) as Hw1.
  rewrite io_bind_eq in H. destruct (claim_next _ _ _ _ _ _) as [[[claim|]|e] w1]; cbn [snd] in Hw1.
  2,3: by injection H as <- <-; constructor.
  rewrite io_bind_eq in H. pose proof (keeps_commits (jobs_of w) w1 Hw1) as Hw2.
  destruct (commits o w1) as [[x|e] w2]; cbn [snd] in Hw2; [|by injection H as <- <-; constructor].
  unfold io_try in H. destruct (index_claim _ _ _ _ _ _ w2) as [[run|e] w3] eqn:Hi.
  { injection H as <- <-. by apply (ran_accepted _ claim w2). }
  apply (index_claim_Raise (jobs_of w)) in Hi; [|done]. destruct (fails_job (exn_cls e)).
  { pose proof (keeps_terminalize (jobs_of w) claim w3 Hi) as Hk. rewrite H in Hk. cbn [snd] in Hk.
    destruct r as [run|e']; [by apply (ran_failed _ claim w3)|by constructor]. }
  case_bool_decide; [by injection H as <- <-; constructor|].
  pose proof (keeps_terminalize (jobs_of w) claim w3 Hi) as Hk. rewrite io_bind_eq in H.
  destruct (terminalize _ _ _ _ claim w3) as [[run|e'] w4]; injection H as <- <-; by constructor.
Qed.

(** C19: A job becomes accepted only when its document version is indexed:
    without other sessions at work, in tables that satisfy their constraints,
    however a run ends and whichever statements fail, every job accepted after it was accepted before, or is of
    the worker's configuration and each chunk of its version is attached to a
    valid embedding of its text that is cached for its project. *)
Theorem accepted_jobs_are_indexed w r w' : wf_doc (tables w) -> wf_jobs (queues (tables w)) ->
  run_once o provider_embed queue_others runtime_verifier duration chunking embedding w = (r, w') ->
  forall job row, jobs_of w' !! job = Some row -> l_state (ij_lease row) = JOB_ACCEPTED ->
    jobs_of w !! job = Some row \/ fully_indexed w' row.
Proof using quiet queue_quiet.
  intros Hwf Hj H job row Hr Hs. apply run_once_ran in H; [|done..].
  assert (unaccepted (jobs_of w) (tables w') -> jobs_of w !! job = Some row \/ fully_indexed w' row) as Hno
    by (intros (_ & _ & Hacc); left; by apply Hacc).
  destruct H as [w' Hu|claim w1 run w' Hw1 H|? w' Hu|claim w1 w' run Hw1 H|e w' Hu]; auto.
  - eapply index_claim_Ok in H as (w2 & (_ & _ & Hacc) & (s & now & (_ & _ & Hsc & Hd) & Hq & _) & _ & _ & _ & _ & _ & Hall); [|done].
    rewrite Hq in Hr. unfold set_job, with_indexing_jobs in Hr. cbn [indexing_jobs] in Hr.
    apply lookup_insert_Some in Hr as [[<- <-]|[_ Hr]]; [right; by apply Hall|left; by apply Hacc].
  - apply Hno. pose proof (keeps_terminalize (jobs_of w) claim w1 Hw1) as Hk. by rewrite H in Hk.
Qed.

Lemma terminalize_Ok jobs claim (w : world E) run w' : unaccepted jobs (tables w) ->
  terminalize o duration chunking embedding claim w = (Ok run, w') ->
  (run = bare_run RUN_NOT_PUBLISHED (Some (ci_job_id claim))) \/
  (run = bare_run RUN_FAILED (Some (ci_job_id claim)) /\ exists row,
    jobs_of w' !! ci_job_id claim = Some row /\ l_state (ij_lease row) = JOB_FAILED /\
    failure_code (ij_lease row) = Some (u "INDEXING_WORKER_FAILED")).
Proof using quiet.
  intros Hw H. unfold terminalize, io_try in H. rewrite io_bind_eq in H.
  pose proof (keeps_commits jobs w Hw) as Hw1. destruct (commits o w) as [[x|e] w1]; cbn [snd] in Hw1;
    [|revert H; case_bool_decide; [intros [= <- <-]; by left|done]].
  rewrite io_bind_eq in H. destruct (fail _ _ _ _ claim w1) as [[y|e] w2] eqn:Hf;
    [|revert H; case_bool_decide; [intros [= <- <-]; by left|done]].
  injection H as <- <-. right. split; [done|].
  unfold fail in Hf. do 2 (erewrite io_step in Hf by reflexivity). rewrite on_queues_run in Hf. cbn [tables] in Hf.
  destruct (IndexingJobClaims.fail _ _ _ _ _) as [r d'] eqn:Hr. injection Hf as Hx <-. cbn in Hx. subst r.
  apply finish_effect in Hr as (_ & row & now & _ & ->); [|apply Hw1].
  eexists. cbn. rewrite lookup_insert_eq. by split_and!.
Qed.

(** What each outcome of a run says of the job it names. *)
Definition outcome_true (w w' : world E) (run : IndexingRun) : Prop :=
  match run_state run with
  | RUN_ACCEPTED => exists job row, run_job_id run = Some job /\ jobs_of w' !! job = Some row /\
      l_state (ij_lease row) = JOB_ACCEPTED /\ fully_indexed w' row /\
      run_version_id run = Some (ij_document_version_id row) /\
      run_chunk_count run =
        length (v_chunks (sql_view w') (ij_document_version_id row) (chunking_version chunking))
  | RUN_FAILED => exists job row, run_job_id run = Some job /\ jobs_of w' !! job = Some row /\
      l_state (ij_lease row) = JOB_FAILED /\
      failure_code (ij_lease row) = Some (u "INDEXING_WORKER_FAILED")
  | RUN_IDLE | RUN_NOT_PUBLISHED => unaccepted (jobs_of w) (tables w')
  end.

(** The outcome a run reports is the job's: accepted with the version
    whose chunks are all embedded and their count, failed with the worker's
    failure code; an idle or unpublished run has accepted nothing. *)
Theorem run_once_outcome w run w' : wf_doc (tables w) -> wf_jobs (queues (tables w)) ->
  run_once o provider_embed queue_others runtime_verifier duration chunking embedding w = (Ok run, w') ->
  outcome_true w w' run.
Proof using quiet queue_quiet.
  intros Hwf Hj H. apply run_once_ran in H; [|done..]. unfold outcome_true.
  inversion H as [? Hu|claim w1 ? ? Hw1 Hi|job ? Hu|claim w1 ? ? Hw1 Ht|]; subst; [done| |done|].
  - eapply index_claim_Ok in Hi as (w2 & _ & (s & now & Hheld & Hq & Hjob) & -> & Hv & Hn & _ & _ & Hall); [|done].
    destruct Hheld as (_ & _ & Hsc & Hd). exists (ci_job_id claim). eexists. split; [done|]. rewrite Hq. cbn.
    rewrite lookup_insert_eq. split; [done|]. split; [done|]. split; [by apply Hall|]. cbn.
    unfold describes in Hd. bools. replace (ij_document_version_id s) with (ci_document_version_id claim) by congruence.
    by split.
  - pose proof (keeps_terminalize (jobs_of w) claim w1 Hw1) as Hk. rewrite Ht in Hk.
    eapply terminalize_Ok in Ht as [->|(-> & row & Hr)]; [done| |done]. exists (ci_job_id claim), row. by split.
Qed.
End worker.

(** ** A concrete run *)

Lemma sample_queues_wf : wf_jobs (queues (tables sample_world)).
Proof.
  split; [by intros i r Hr|]. intros i r Hr. cbn in Hr.
  apply lookup_singleton_Some in Hr as [<- <-]. by split.
Qed.

Definition run_sample : io (world unit) IndexingRun :=
  run_once sample_outside sample_provider (fun _ d => d) (fun _ => Ok tt) 60 sample_chunking
    sample_embedding.
Definition after_run : world unit := (run_sample sample_world).2.
Definition accepted_sample : IndexingRun := {|
  run_state := RUN_ACCEPTED; run_job_id := Some 50%N; run_version_id := Some 2%N;
  run_chunk_count := 2; run_chunks_created := 0; run_embeddings_created := 1; run_cache_hits := 1 |}.

Lemma sample_accepted :
  run_sample sample_world = (Ok accepted_sample, after_run).
Proof. vm_compute. reflexivity. Qed.

Lemma accepted_jobs_are_indexed_witness :
  wf_doc (tables sample_world) /\ wf_jobs (queues (tables sample_world)) /\
  run_sample sample_world = (Ok accepted_sample, after_run) /\
  forall job row, indexing_jobs (queues (tables after_run)) !! job = Some row ->
    l_state (ij_lease row) = JOB_ACCEPTED ->
    indexing_jobs (queues (tables sample_world)) !! job = Some row \/
    fully_indexed 60 sample_chunking sample_embedding after_run row.
Proof.
  split; [exact sample_tables_wf|]. split; [exact sample_queues_wf|]. split; [exact sample_accepted|].
  apply (accepted_jobs_are_indexed sample_outside sample_provider (fun _ d => d) (fun _ => Ok tt) 60
           sample_chunking sample_embedding (fun n d => eq_refl) (fun n d => eq_refl)
           sample_world (Ok accepted_sample) after_run sample_tables_wf sample_queues_wf sample_accepted).
Defined.

Lemma run_once_outcome_witness :
  wf_doc (tables sample_world) /\ wf_jobs (queues (tables sample_world)) /\
  run_sample sample_world = (Ok accepted_sample, after_run) /\
  outcome_true 60 sample_chunking sample_embedding sample_world after_run accepted_sample.
Proof.
  split; [exact sample_tables_wf|]. split; [exact sample_queues_wf|]. split; [exact sample_accepted|].
  exact (run_once_outcome sample_outside sample_provider (fun _ d => d) (fun _ => Ok tt) 60
           sample_chunking sample_embedding (fun n d => eq_refl) (fun n d => eq_refl)
           sample_world accepted_sample after_run sample_tables_wf sample_queues_wf sample_accepted).
Defined.
