(* ===== verification/Regex.v ===== *)
(** * Regular expressions ([re])

    The patterns of the repository as data, and [re.match] on them: a
    backtracking matcher that tries the alternatives of a pattern in the order
    Python does (the first of an alternation first, a greedy repetition from
    its longest match, a lazy one from its shortest).  A repetition is of one
    character class, which is all the modelled patterns need. *)
From S2P Require Import Prelude PyText.

Inductive re :=
  | Class (p : N -> bool)
  | Rep (lo : nat) (hi : option nat) (greedy : bool) (p : N -> bool)
  | Seq (r1 r2 : re)
  | Alt (r1 r2 : re)
  | Opt (r : re)
  | Group (n : nat) (r : re)
  | Eol.

(** The groups closed so far, the last one first. *)
Abbreviation groups := (list (nat * pystr)).

Definition pred_hi (hi : option nat) : option nat := pred <$> hi.

Section matcher.
Context {A : Type}.

(** [p{lo,hi}] from the text [s], then [k]. *)
Fixpoint rep_greedy (p : N -> bool) (lo : nat) (hi : option nat) (s : pystr)
    (k : pystr -> option A) : option A :=
  let stop := match lo with O => k s | _ => None end in
  match s with
  | x :: s' =>
      if p x && negb (bool_decide (hi = Some 0%nat)) then
        match rep_greedy p (pred lo) (pred_hi hi) s' k with Some a => Some a | None => stop end
      else stop
  | [] => stop
  end.

(** [p{lo,hi}?] *)
Fixpoint rep_lazy (p : N -> bool) (lo : nat) (hi : option nat) (s : pystr)
    (k : pystr -> option A) : option A :=
  let more :=
    match s with
    | x :: s' =>
        if p x && negb (bool_decide (hi = Some 0%nat))
        then rep_lazy p (pred lo) (pred_hi hi) s' k else None
    | [] => None
    end in
  match lo with
  | O => match k s with Some a => Some a | None => more end
  | _ => more
  end.

Fixpoint run (r : re) (s : pystr) (g : groups) (k : pystr -> groups -> option A) : option A :=
  match r with
  | Class p => match s with x :: s' => if p x then k s' g else None | [] => None end
  | Rep lo hi greedy p =>
      (if greedy then rep_greedy else rep_lazy) p lo hi s (fun s' => k s' g)
  | Seq r1 r2 => run r1 s g (fun s' g' => run r2 s' g' k)
  | Alt r1 r2 => match run r1 s g k with Some a => Some a | None => run r2 s g k end
  | Opt r => match run r s g k with Some a => Some a | None => k s g end
  | Group n r =>
      run r s g (fun s' g' => k s' ((n, take (length s - length s') s) :: g'))
  | Eol => if bool_decide (s = [] \/ s = [10%N]) then k s g else None
  end.
End matcher.

(** [pattern.match(s)]: the groups of the match. *)
Definition re_match (r : re) (s : pystr) : option groups := run r s [] (fun _ g => Some g).

(** [pattern.fullmatch(s)], as a test *)
Definition re_fullmatch (r : re) (s : pystr) : bool :=
  match run r s [] (fun s' g => match s' with [] => Some g | _ => None end) with
  | Some _ => true
  | None => false
  end.

(** [match.group(n)] *)
Fixpoint group (n : nat) (g : groups) : pystr :=
  match g with
  | [] => []
  | (m, t) :: g => if (m =? n)%nat then t else group n g
  end.

(** A literal text, and a class of code points given by its members. *)
Fixpoint lit (s : list (N -> bool)) : re :=
  match s with
  | [] => Rep 0 (Some 0%nat) true (fun _ => false)
  | [p] => Class p
  | p :: s => Seq (Class p) (lit s)
  end.
Definition one_of (cs : list N) (x : N) : bool := existsb (N.eqb x) cs.
(** [.] *)
Definition dot (x : N) : bool := negb (x =? 10)%N.

(** ** What a pattern matches *)

(** [r] matches [s] up to [s'], closing groups on the way. *)
Inductive matches : re -> pystr -> groups -> pystr -> groups -> Prop :=
  | m_class p x s g : p x = true -> matches (Class p) (x :: s) g s g
  | m_rep lo hi b p w s g : Forall (fun x => p x = true) w -> (lo <= length w)%nat ->
      (forall n, hi = Some n -> (length w <= n)%nat) -> matches (Rep lo hi b p) (w ++ s) g s g
  | m_seq r1 r2 s g s1 g1 s2 g2 : matches r1 s g s1 g1 -> matches r2 s1 g1 s2 g2 ->
      matches (Seq r1 r2) s g s2 g2
  | m_alt1 r1 r2 s g s' g' : matches r1 s g s' g' -> matches (Alt r1 r2) s g s' g'
  | m_alt2 r1 r2 s g s' g' : matches r2 s g s' g' -> matches (Alt r1 r2) s g s' g'
  | m_opt r s g s' g' : matches r s g s' g' -> matches (Opt r) s g s' g'
  | m_none r s g : matches (Opt r) s g s g
  | m_group n r s g s' g' : matches r s g s' g' ->
      matches (Group n r) s g s' ((n, take (length s - length s') s) :: g')
  | m_eol s g : s = [] \/ s = [10%N] -> matches Eol s g s g.

(** *** Taking a match apart *)

Lemma match_class p s g s' g' : matches (Class p) s g s' g' -> exists x, s = x :: s' /\ p x = true /\ g' = g.
Proof. intros H. inversion H; subst. eauto. Qed.
Lemma match_rep lo hi b p s g s' g' : matches (Rep lo hi b p) s g s' g' ->
  exists w, s = w ++ s' /\ Forall (fun x => p x = true) w /\ (lo <= length w)%nat /\
    (forall n, hi = Some n -> (length w <= n)%nat) /\ g' = g.
Proof. intros H. inversion H; subst. eauto 10. Qed.
Lemma match_seq r1 r2 s g s2 g2 : matches (Seq r1 r2) s g s2 g2 ->
  exists s1 g1, matches r1 s g s1 g1 /\ matches r2 s1 g1 s2 g2.
Proof. intros H. inversion H; subst. eauto. Qed.
Lemma match_alt r1 r2 s g s' g' : matches (Alt r1 r2) s g s' g' ->
  matches r1 s g s' g' \/ matches r2 s g s' g'.
Proof. intros H. inversion H; subst; eauto. Qed.
Lemma match_opt r s g s' g' : matches (Opt r) s g s' g' -> matches r s g s' g' \/ (s' = s /\ g' = g).
Proof. intros H. inversion H; subst; eauto. Qed.
Lemma match_group n r s g s' g' : matches (Group n r) s g s' g' ->
  exists g1, matches r s g s' g1 /\ g' = (n, take (length s - length s') s) :: g1.
Proof. intros H. inversion H; subst; eauto. Qed.
Lemma match_eol s g s' g' : matches Eol s g s' g' -> (s = [] \/ s = [10%N]) /\ s' = s /\ g' = g.
Proof. intros H. inversion H; subst; eauto. Qed.

(** A match consumes a front part of the text. *)
Lemma match_suffix r s g s' g' : matches r s g s' g' -> exists w, s = w ++ s'.
Proof.
  induction 1 as [p x s g Hx|lo hi b p w s g|r1 r2 s g s1 g1 s2 g2 _ [w1 ->] _ [w2 ->]
                 |r1 r2 s g s' g' _ IH|r1 r2 s g s' g' _ IH|r s g s' g' _ IH|r s g|n r s g s' g' _ IH|s g Hs]; eauto.
  - by exists [x].
  - exists (w1 ++ w2). by rewrite app_assoc.
  - by exists [].
  - by exists [].
Qed.

(** The captured text. *)
Lemma captured (w s' : pystr) : take (length (w ++ s') - length s') (w ++ s') = w.
Proof. rewrite length_app. replace (length w + length s' - length s')%nat with (length w) by lia. by rewrite take_app_length. Qed.

Section facts.
Context {A : Type}.

Lemma rep_greedy_complete p w : forall lo hi s' (k : pystr -> option A),
  Forall (fun x => p x = true) w -> (lo <= length w)%nat ->
  (forall n, hi = Some n -> (length w <= n)%nat) -> k s' <> None ->
  rep_greedy p lo hi (w ++ s') k <> None.
Proof.
  induction w as [|x w IH]; intros lo hi s' k Hw Hlo Hhi Hk; cbn [app].
  - destruct lo; [|cbn in Hlo; lia]. destruct s' as [|x s']; cbn; [done|].
    destruct (_ && _); [|done]. by destruct (rep_greedy _ _ _ _ _).
  - apply Forall_cons in Hw as [Hx Hw]. cbn. rewrite Hx.
    rewrite (bool_decide_false (hi = Some 0%nat)) by (intros ->; specialize (Hhi _ eq_refl); cbn in Hhi; lia).
    cbn. destruct (rep_greedy _ _ _ _ _) eqn:E; [done|]. exfalso. revert E. apply IH; [done| | |done].
    + cbn in Hlo. lia.
    + intros n Hn. destruct hi as [m|]; [|done]. injection Hn as <-. specialize (Hhi _ eq_refl). cbn in *. lia.
Qed.

Lemma rep_greedy_sound p s : forall lo hi (k : pystr -> option A) a,
  rep_greedy p lo hi s k = Some a ->
  exists w s', s = w ++ s' /\ Forall (fun x => p x = true) w /\ (lo <= length w)%nat /\
    (forall n, hi = Some n -> (length w <= n)%nat) /\ k s' = Some a /\
    (** longer matches fail *)
    forall v s'', s' = v ++ s'' -> v <> [] -> Forall (fun x => p x = true) v ->
      (forall n, hi = Some n -> (length (w ++ v) <= n)%nat) -> k s'' = None.
Proof.
  induction s as [|x s IH]; intros lo hi k a H; cbn in H.
  - destruct lo; [|done]. exists [], []. split_and!; try done; [cbn; lia|]. by intros [] [].
  - assert (match lo with O => k (x :: s) | _ => None end = Some a ->
      (p x = true -> hi <> Some 0%nat -> rep_greedy p (pred lo) (pred_hi hi) s k = None) -> exists w s',
      x :: s = w ++ s' /\ Forall (fun x => p x = true) w /\ (lo <= length w)%nat /\
      (forall n, hi = Some n -> (length w <= n)%nat) /\ k s' = Some a /\
      forall v s'', s' = v ++ s'' -> v <> [] -> Forall (fun x => p x = true) v ->
        (forall n, hi = Some n -> (length (w ++ v) <= n)%nat) -> k s'' = None) as Hstop.
    { destruct lo; [|done]. intros Hk Hmore. exists [], (x :: s). split_and!; try done; [cbn; lia|].
      intros [|y v] s'' Heq Hne Hv Hlen; [done|]. injection Heq as <- ->. apply Forall_cons in Hv as [Hx Hv].
      destruct (k s'') eqn:E; [|done]. exfalso.
      assert (hi <> Some 0%nat) as H0 by (intros ->; specialize (Hlen _ eq_refl); cbn in Hlen; lia).
      specialize (Hmore Hx H0). revert Hmore. apply rep_greedy_complete; [done|cbn; lia| |by rewrite E].
      intros n Hn. destruct hi as [m|]; [|done]. injection Hn as <-. specialize (Hlen _ eq_refl). cbn in *. lia. }
    destruct (p x && _) eqn:Hx.
    2:{ apply Hstop; [done|]. intros Hpx H0. rewrite Hpx in Hx. cbn in Hx. bools. done. }
    destruct (rep_greedy _ _ _ s k) eqn:E; [|by apply Hstop]. injection H as <-. bools.
    apply IH in E as (w & s' & -> & Hw & Hlo & Hhi & Hk & Hlong). exists (x :: w), s'.
    split_and!; try done; [by constructor|cbn; lia| |].
    + intros n ->. cbn in *. destruct n; [done|]. specialize (Hhi n eq_refl). lia.
    + intros v s'' Heq Hne Hv Hlen. apply (Hlong v s''); [done..|]. intros n Hn.
      destruct hi as [m|]; [|done]. injection Hn as <-. specialize (Hlen _ eq_refl). cbn in *. lia.
Qed.

Lemma rep_lazy_sound p s : forall lo hi (k : pystr -> option A) a,
  rep_lazy p lo hi s k = Some a ->
  exists w s', s = w ++ s' /\ Forall (fun x => p x = true) w /\ (lo <= length w)%nat /\
    (forall n, hi = Some n -> (length w <= n)%nat) /\ k s' = Some a /\
    (** shorter matches fail *)
    forall w1 w2, w = w1 ++ w2 -> w2 <> [] -> (lo <= length w1)%nat -> k (w2 ++ s') = None.
Proof.
  induction s as [|x s IH]; intros lo hi k a H; cbn in H.
  - destruct lo; [|done]. destruct (k []) eqn:Hk; [|done]. injection H as <-. exists [], [].
    split_and!; try done; [cbn; lia|]. by intros [] [].
  - assert ((if p x && negb (bool_decide (hi = Some 0%nat)) then rep_lazy p (pred lo) (pred_hi hi) s k else None)
      = Some a -> (lo = 0%nat -> k (x :: s) = None) -> exists w s',
      x :: s = w ++ s' /\ Forall (fun x => p x = true) w /\ (lo <= length w)%nat /\
      (forall n, hi = Some n -> (length w <= n)%nat) /\ k s' = Some a /\
      forall w1 w2, w = w1 ++ w2 -> w2 <> [] -> (lo <= length w1)%nat -> k (w2 ++ s') = None) as Hmore.
    { destruct (p x && _) eqn:Hx; [|done]. bools. intros E Hnone.
      apply IH in E as (w & s' & -> & Hw & Hlo & Hhi & Hk & Hshort). exists (x :: w), s'.
      split_and!; try done; [by constructor|cbn; lia| |].
      - intros n ->. cbn in *. destruct n; [done|]. specialize (Hhi n eq_refl). lia.
      - intros [|y w1] w2 Hww Hne Hl; cbn in Hww.
        + rewrite <- Hww. cbn in Hl |- *. apply Hnone. lia.
        + injection Hww as _ Hww. apply (Hshort w1); [done..|]. cbn in Hl. lia. }
    destruct lo; [|by apply Hmore]. destruct (k (x :: s)) eqn:Hk; [|by apply Hmore].
    injection H as <-. exists [], (x :: s). split_and!; try done; [cbn; lia|]. by intros [] [].
Qed.

Lemma rep_lazy_complete p w : forall lo hi s' (k : pystr -> option A),
  Forall (fun x => p x = true) w -> (lo <= length w)%nat ->
  (forall n, hi = Some n -> (length w <= n)%nat) -> k s' <> None ->
  rep_lazy p lo hi (w ++ s') k <> None.
Proof.
  induction w as [|x w IH]; intros lo hi s' k Hw Hlo Hhi Hk; cbn [app].
  - destruct lo; [|cbn in Hlo; lia]. destruct s' as [|x s']; cbn; by destruct (k _).
  - apply Forall_cons in Hw as [Hx Hw]. cbn. rewrite Hx.
    rewrite (bool_decide_false (hi = Some 0%nat)) by (intros ->; specialize (Hhi _ eq_refl); cbn in Hhi; lia).
    cbn. assert (rep_lazy p (pred lo) (pred_hi hi) (w ++ s') k <> None) as Hm.
    { apply IH; [done| | |done].
      - cbn in Hlo. lia.
      - intros n Hn. destruct hi as [m|]; [|done]. injection Hn as <-. specialize (Hhi _ eq_refl). cbn in *. lia. }
    destruct lo; [|done]. by destruct (k (x :: w ++ s')).
Qed.
End facts.

Lemma run_sound {A} r : forall s g (k : pystr -> groups -> option A) a,
  run r s g k = Some a -> exists s' g', matches r s g s' g' /\ k s' g' = Some a.
Proof.
  induction r as [p|lo hi b p|r1 IH1 r2 IH2|r1 IH1 r2 IH2|r IH|n r IH|]; intros s g k a H; cbn in H.
  - destruct s as [|x s]; [done|]. destruct (p x) eqn:Hx; [|done]. exists s, g. by split; [constructor|].
  - assert (exists w s', s = w ++ s' /\ Forall (fun x => p x = true) w /\ (lo <= length w)%nat /\
      (forall n, hi = Some n -> (length w <= n)%nat) /\ k s' g = Some a) as (w & s' & -> & Hw & Hlo & Hhi & Hk).
    { destruct b; [apply rep_greedy_sound in H as (w & s' & ? & ? & ? & ? & ? & _); by exists w, s'|].
      apply rep_lazy_sound in H as (w & s' & ? & ? & ? & ? & ? & _). by exists w, s'. }
    exists s', g. split; [by apply m_rep|done].
  - apply IH1 in H as (s1 & g1 & H1 & H). apply IH2 in H as (s2 & g2 & H2 & H).
    exists s2, g2. by split; [econstructor|].
  - destruct (run r1 s g k) eqn:E.
    + injection H as <-. apply IH1 in E as (s' & g' & ? & ?). exists s', g'. by split; [apply m_alt1|].
    + apply IH2 in H as (s' & g' & ? & ?). exists s', g'. by split; [apply m_alt2|].
  - destruct (run r s g k) eqn:E.
    + injection H as <-. apply IH in E as (s' & g' & ? & ?). exists s', g'. by split; [apply m_opt|].
    + exists s, g. by split; [apply m_none|].
  - apply IH in H as (s' & g' & Hm & Hk). eexists s', _. by split; [apply m_group|].
  - case_bool_decide; [|done]. exists s, g. by split; [constructor|].
Qed.

Lemma run_complete {A} r s g s' g' : matches r s g s' g' ->
  forall k : pystr -> groups -> option A, k s' g' <> None -> run r s g k <> None.
Proof.
  induction 1 as [p x s g Hx|lo hi b p w s g Hw Hlo Hhi|r1 r2 s g s1 g1 s2 g2 _ IH1 _ IH2
                 |r1 r2 s g s' g' _ IH|r1 r2 s g s' g' _ IH|r s g s' g' _ IH|r s g|n r s g s' g' _ IH|s g Hs];
    intros k Hk; cbn.
  - by rewrite Hx.
  - destruct b; [by apply rep_greedy_complete|by apply rep_lazy_complete].
  - apply IH1. by apply IH2.
  - specialize (IH k Hk). by destruct (run r1 s g k).
  - specialize (IH k Hk). by destruct (run r1 s g k).
  - specialize (IH k Hk). by destruct (run r s g k).
  - by destruct (run r s g k).
  - by apply IH.
  - by rewrite bool_decide_true.
Qed.

(** A pattern matches a text exactly when it does so in some way. *)
Lemma re_match_iff r s : re_match r s <> None <-> exists s' g', matches r s [] s' g'.
Proof.
  unfold re_match. split.
  - destruct (run r s [] _) as [g|] eqn:E; [|done]. intros _. apply run_sound in E as (s' & g' & ? & _). eauto.
  - intros (s' & g' & H). by eapply run_complete.
Qed.
