(* ===== verification/MarkdownParser.v ===== *)
(** * The Markdown and text parser ([markdown_parser.py])

    UTF-8 bytes become requirement units, one per line: lines that carry a
    requirement identifier, and in plain text every other non-blank line.  The
    two patterns are [Regex] terms.  [TextCase] is what they and [str.upper]
    take from the interpreter's case tables.

    ** Properties

    What a heading line is and which part of it is the heading, against a
    description without backtracking; what the parsed requirements are; and
    that nothing but [DocumentParseRejected] is raised. *)
From S2P Require Import Prelude PyText Json Digest GeneratedTests Effects TargetRegistry ExecutionPlans Regex.
From S2P Require Import JsonFacts AsciiRuntime Samples Url.

(** [sre_lower] is the simple lower-casing of the [re] module. *)
Class TextCase := { sre_lower : N -> N; str_upper : pystr -> pystr }.

Definition ascii_to_upper (c : N) : N := if ascii_lower_letter c then (c - 32)%N else c.
Class TextCaseLaws (tc : TextCase) := {
  sre_lower_ascii c : (c < 128)%N -> sre_lower c = ascii_to_lower c;
  upper_ascii s : is_ascii s = true -> str_upper s = ascii_to_upper <$> s;
}.

Definition MAX_TEXT_LINES : Z := 100000.
Definition MAX_TEXT_CODEPOINTS : Z := 500000.
Definition MAX_TEXT_LINE_BYTES : Z := 16 * 1024.
Definition PARSER_VERSION : pystr := u "markdown-text-v1".
Definition NORMALIZATION_VERSION : pystr := u "line-normalized-v1".

Record ParsedRequirement := {
  pr_ordinal : Z;
  requirement_id : option pystr;
  heading : option pystr;
  line_start : Z;
  line_end : Z;
  normalized_text : pystr;
  pr_sha256 : pystr;
}.
#[export] Instance parsed_requirement_eq_dec : EqDecision ParsedRequirement.
Proof. solve_decision. Defined.

Definition reject_document {A} (code : string) : result A := raise DocumentParseRejected code.

(** [str.splitlines()] *)
Definition line_break (c : N) : bool :=
  one_of [10; 11; 12; 13; 28; 29; 30; 133; 8232; 8233]%N c.
Fixpoint splitlines_aux (current : pystr) (s : pystr) : list pystr :=
  match s with
  | [] => match current with [] => [] | _ => [reverse current] end
  | x :: s' =>
      if line_break x then
        reverse current ::
        match s' with
        | y :: s'' => if (x =? 13)%N && (y =? 10)%N then splitlines_aux [] s'' else splitlines_aux [] s'
        | [] => splitlines_aux [] s'
        end
      else splitlines_aux (x :: current) s'
  end.
Definition splitlines (s : pystr) : list pystr := splitlines_aux [] s.

(** ** The patterns *)

Definition blank_or_tab : N -> bool := one_of [32; 9]%N.
Definition hash : N -> bool := one_of [35%N].
(** [*], [+] and [?] *)
Definition star (p : N -> bool) : re := Rep 0 None true p.
Definition plus (p : N -> bool) : re := Rep 1 None true p.
Definition lazy_text : re := Rep 1 None false dot.

(** [_HEADING]: one to six hashes, blanks, the text, blanks, hashes, blanks;
    [match] begins at the start of the line. *)
Definition heading_pattern : re :=
  Seq (Group 1 (Rep 1 (Some 6%nat) true hash))
    (Seq (plus blank_or_tab)
      (Seq (Group 2 lazy_text)
        (Seq (star blank_or_tab) (Seq (star hash) (Seq (star blank_or_tab) Eol))))).

Section parser.
Context {rt : PyRuntime} {tc : TextCase}.

(** A letter of a pattern that ignores case; [I] also stands for the dotless
    [i], which [re] treats as its equal. *)
Definition letter (c : N) (x : N) : bool :=
  (sre_lower x =? ascii_to_lower c)%N ||
  ((ascii_to_lower c =? 105)%N && (sre_lower x =? 305)%N).
Definition word (w : string) : re := lit (letter <$> u w).

(** [[A-Z0-9]] ignoring case: also the dotless [i] and the long [s]. *)
Definition alnum_class (x : N) : bool :=
  let c := sre_lower x in ascii_lower_letter c || ascii_digit c || one_of [305; 383]%N c.
Definition id_class (x : N) : bool := alnum_class x || one_of [95; 45]%N x.

(** [_REQUIREMENT]: blanks, an optional bullet and blanks, the identifier,
    blanks, a colon or a dash (also the em dash), blanks, the text. *)
Definition requirement_pattern : re :=
  Seq (star cp_isspace)
    (Seq (Opt (Seq (Class (one_of [45; 42; 43]%N)) (plus cp_isspace)))
      (Seq (Group 1 (Seq (Alt (word "REQ") (word "REQUIREMENT"))
                      (Seq (Class (one_of [45%N])) (Seq (Class alnum_class) (star id_class)))))
        (Seq (star cp_isspace)
          (Seq (Class (one_of [58; 8212; 45]%N))
            (Seq (star cp_isspace)
              (Seq (Group 2 lazy_text) (Seq (star cp_isspace) Eol))))))).

(** ** The parser *)

(** [_normalize] *)
Definition normalize (value : pystr) : pystr := join [32%N] (split_ws (strip value)).

(** What a line that is not a heading says: an identifier and a text. *)
Definition requirement_of (document_type line : pystr) : option (option pystr * pystr) :=
  match re_match requirement_pattern line with
  | Some g => Some (Some (str_upper (group 1 g)), normalize (group 2 g))
  | None =>
      if str_eqb document_type (u "text") && negb (bool_decide (strip line = []))
      then Some (None, normalize line) else None
  end.

Definition new_requirement (parsed : list ParsedRequirement) (line_number : Z)
    (heading : option pystr) (id : option pystr) (text : pystr) : result ParsedRequirement :=
  bytes ← encode text;
  Ok {| pr_ordinal := zlen parsed; requirement_id := id; heading := heading;
        line_start := line_number; line_end := line_number; normalized_text := text;
        pr_sha256 := sha256_hex bytes |}.

(** The loop over the lines from [line_number] on. *)
Fixpoint parse_lines (document_type : pystr) (line_number : Z) (lines : list pystr)
    (heading : option pystr) (parsed : list ParsedRequirement) : result (list ParsedRequirement) :=
  match lines with
  | [] => Ok parsed
  | line :: lines =>
      bytes ← encode line;
      (if MAX_TEXT_LINE_BYTES <? zlen bytes then reject_document "PARSER_LINE_SIZE_LIMIT" else Ok tt) ;;
      match re_match heading_pattern line with
      | Some g => parse_lines document_type (line_number + 1) lines (Some (normalize (group 2 g))) parsed
      | None =>
          match requirement_of document_type line with
          | Some (id, (_ :: _) as text) =>
              item ← new_requirement parsed line_number heading id text;
              parse_lines document_type (line_number + 1) lines heading (parsed ++ [item])
          | _ => parse_lines document_type (line_number + 1) lines heading parsed
          end
      end
  end.

Definition parse_markdown_or_text (document_type : pystr) (raw : bytes) :
    result (list ParsedRequirement) :=
  (if bool_decide (document_type ∈ [u "markdown"; u "text"]) then Ok tt
   else reject_document "PARSER_DOCUMENT_TYPE_UNSUPPORTED") ;;
  text ← match utf8_decode raw with
         | Some text => Ok text
         | None => reject_document "PARSER_TEXT_ENCODING_INVALID"
         end;
  (if MAX_TEXT_CODEPOINTS <? zlen text then reject_document "PARSER_TEXT_CODEPOINT_LIMIT" else Ok tt) ;;
  let lines := splitlines text in
  (if MAX_TEXT_LINES <? zlen lines then reject_document "PARSER_LINE_COUNT_LIMIT" else Ok tt) ;;
  parse_lines document_type 1 lines None [].
End parser.

(** * Properties *)

#[export] Instance ascii_case : TextCase := {|
  sre_lower := ascii_to_lower; str_upper s := ascii_to_upper <$> s |}.
#[export] Instance ascii_case_laws : TextCaseLaws ascii_case.
Proof. by split. Qed.

Example requirement_example :
  requirement_of (u "markdown") (u " - req-1a:  one   two ") = Some (Some (u "REQ-1A"), u "one two").
Proof. vm_compute. reflexivity. Qed.
Example heading_example : group 2 <$> re_match heading_pattern (u "## A b  ## ") = Some (u "A b").
Proof. vm_compute. reflexivity. Qed.
(** A heading of blanks only: the last blank is its text. *)
Example blank_heading : group 2 <$> re_match heading_pattern (u "#  ") = Some (u " ").
Proof. vm_compute. reflexivity. Qed.

(** ** Decoded text is scalar text *)

Ltac code_point :=
  unfold scalar, cont in *; unfold between in *;
  repeat (rewrite ?andb_true_iff, ?orb_true_iff in * ); rewrite ?N.leb_le, ?N.ltb_lt, ?N.eqb_eq in *;
  rewrite ?negb_true_iff, ?andb_false_iff, ?N.leb_gt; lia.

Lemma utf8_decode_scalar bs : forall s, utf8_decode bs = Some s -> scalar_text s = true.
Proof.
  induction bs as [bs IH] using (induction_ltof1 _ (@length N)); unfold ltof in IH. intros s H.
  destruct bs as [|a r]; [by injection H as <-|].
  assert (forall c (r' : bytes) s, (length r' < length (a :: r))%nat -> scalar c = true ->
    cons c <$> utf8_decode r' = Some s -> scalar_text s = true) as Hcons.
  { intros c r' s' Hl Hc H'. destruct (utf8_decode r') eqn:E; [|done]. injection H' as <-.
    cbn. rewrite Hc. by eapply IH. }
  clear IH. cbn [utf8_decode] in H. destruct (a <? 128)%N eqn:H1.
  { eapply Hcons; [|..|exact H]; [cbn; lia|]. clear Hcons H. code_point. }
  destruct r as [|b r]; [done|]. destruct (_ && _)%bool eqn:H2 in H.
  { eapply Hcons; [|..|exact H]; [cbn; lia|]. clear Hcons H. code_point. }
  destruct r as [|c r]; [done|]. destruct (_ && cont c)%bool eqn:H3 in H.
  { eapply Hcons; [|..|exact H]; [cbn; lia|]. clear Hcons H. code_point. }
  destruct r as [|d r]; [done|]. destruct (_ && cont d)%bool eqn:H4 in H; [|done].
  eapply Hcons; [|..|exact H]; [cbn; lia|]. clear Hcons H. code_point.
Qed.

(** ** Headings *)

(** What may close a heading: blanks, hashes, blanks. *)
Definition closing (t : pystr) : Prop :=
  exists b1 h b2, t = b1 ++ h ++ b2 /\ Forall (fun x => blank_or_tab x = true) b1 /\
    Forall (fun x => hash x = true) h /\ Forall (fun x => blank_or_tab x = true) b2.

Definition newline_free (s : pystr) : Prop := ~ (10%N ∈ s).

Abbreviation closing_pattern :=
  (Regex.Seq (star blank_or_tab) (Regex.Seq (star hash) (Regex.Seq (star blank_or_tab) Eol))).

Lemma closing_pattern_iff s g : newline_free s ->
  run closing_pattern s g (fun _ g => Some g) <> None <-> closing s.
Proof.
  intros Hn. split.
  - destruct (run _ _ _ _) eqn:E; [intros _|done]. apply run_sound in E as (s' & g' & Hm & _).
    apply match_seq in Hm as (s1 & g1 & (b1 & -> & H1 & _)%match_rep & Hm).
    apply match_seq in Hm as (s2 & g2 & (h & -> & H2 & _)%match_rep & Hm).
    apply match_seq in Hm as (s3 & g3 & (b2 & -> & H3 & _)%match_rep & ([ -> | -> ] & _)%match_eol).
    + do 3 eexists. rewrite app_nil_r. split; [reflexivity|]. done.
    + exfalso. apply Hn. do 3 (apply elem_of_app; right). left.
  - intros (b1 & h & b2 & -> & H1 & H2 & H3). eapply run_complete with (s' := []) (g' := g); [|done].
    econstructor; [apply m_rep; [done|lia|done]|]. econstructor; [apply m_rep; [done|lia|done]|].
    rewrite <- (app_nil_r b2). econstructor; [apply m_rep; [done|lia|done]|]. constructor. by left.
Qed.

(** A heading line: hashes, blanks, a text and what closes it.  The text does
    not begin with a blank unless nothing but blanks follows the hashes, and
    no shorter text would do. *)
Record heading_line (line h b t tail : pystr) : Prop := {
  hl_line : line = h ++ b ++ t ++ tail;
  hl_hashes : Forall (fun x => hash x = true) h /\ (1 <= length h <= 6)%nat;
  hl_blanks : Forall (fun x => blank_or_tab x = true) b /\ b <> [];
  hl_text : t <> [];
  hl_closing : closing tail;
}.
Record heading_parts (line h b t tail : pystr) : Prop := {
  hp_line : heading_line line h b t tail;
  hp_first : forall x t', t = x :: t' -> blank_or_tab x = true -> t' = [] /\ tail = [];
  hp_shortest : forall t1 t2, t = t1 ++ t2 -> t1 <> [] -> t2 <> [] -> ~ closing (t2 ++ tail);
}.

Lemma closing_groups s g a : run closing_pattern s g (fun _ g => Some g) = Some a -> a = g.
Proof.
  intros (s' & g' & Hm & [= <-])%run_sound.
  apply match_seq in Hm as (s1 & g1 & (b1 & _ & _ & _ & _ & ->)%match_rep & Hm).
  apply match_seq in Hm as (s2 & g2 & (h & _ & _ & _ & _ & ->)%match_rep & Hm).
  by apply match_seq in Hm as (s3 & g3 & (b2 & _ & _ & _ & _ & ->)%match_rep & (_ & _ & ->)%match_eol).
Qed.

(** The search for a heading, step by step. *)
Definition heading_tail (line s1 s2 s3 : pystr) : option groups :=
  run closing_pattern s3 [(2%nat, take (length s2 - length s3) s2);
                          (1%nat, take (length line - length s1) line)] (fun _ g => Some g).
Definition heading_text_search (line s1 s2 : pystr) : option groups :=
  rep_lazy dot 1 None s2 (heading_tail line s1 s2).
Lemma heading_search line : re_match heading_pattern line =
  rep_greedy hash 1 (Some 6%nat) line (fun s1 =>
    rep_greedy blank_or_tab 1 None s1 (heading_text_search line s1)).
Proof. reflexivity. Qed.

Lemma newline_free_app s t : newline_free (s ++ t) <-> newline_free s /\ newline_free t.
Proof. unfold newline_free. rewrite elem_of_app. tauto. Qed.

Lemma newline_free_dot s : newline_free s -> Forall (fun x => dot x = true) s.
Proof.
  intros Hn. apply Forall_forall. intros x Hx. unfold dot. apply negb_true_iff, N.eqb_neq. by intros ->.
Qed.

Lemma heading_tail_iff line s1 s2 s3 : newline_free s3 -> heading_tail line s1 s2 s3 <> None <-> closing s3.
Proof. apply closing_pattern_iff. Qed.

Lemma closing_nil : closing [].
Proof. by exists [], [], []. Qed.

(** A text that is not empty has a heading's text in front of what closes it. *)
Lemma heading_text_found line s1 t tail : newline_free (t ++ tail) -> t <> [] -> closing tail ->
  heading_text_search line s1 (t ++ tail) <> None.
Proof.
  intros Hn Ht Hc. pose proof Hn as [Hnt Hnc]%newline_free_app.
  apply rep_lazy_complete; [by apply newline_free_dot| |done|by apply heading_tail_iff].
  destruct t; [done|]. cbn. lia.
Qed.

(** On a line, the heading pattern finds what its regular expression
    describes, and of the possible texts the one Python's search order picks:
    one to six hashes, all blanks after them but the last when nothing else
    follows, and the shortest text that leaves only closing blanks and hashes.
    It fails only on lines that are no heading. *)
Theorem heading_pattern_spec line : newline_free line ->
  match re_match heading_pattern line with
  | Some g => exists h b t tail, heading_parts line h b t tail /\ group 2 g = t
  | None => ~ exists h b t tail, heading_line line h b t tail
  end.
Proof.
  intros Hn. rewrite heading_search. destruct (rep_greedy _ _ _ _ _) as [g|] eqn:E.
  - apply rep_greedy_sound in E as (h & s1 & -> & Hh & Hlo & Hhi & E & _).
    apply rep_greedy_sound in E as (b & s2 & -> & Hb & Hlo' & _ & E & Hlong).
    set (line := h ++ b ++ s2) in *. pose proof Hn as [_ [_ Hns]%newline_free_app]%newline_free_app.
    apply rep_lazy_sound in E as (t & tail & -> & _ & Hlt & _ & E & Hshort).
    pose proof Hns as [Hnt Hnc]%newline_free_app. exists h, b, t, tail. split; [split; [split|..]|].
    + done.
    + split; [done|]. specialize (Hhi _ eq_refl). lia.
    + split; [done|]. by destruct b; cbn in Hlo'; [lia|].
    + destruct t; [cbn in Hlt; lia|done].
    + eapply heading_tail_iff; [done|by rewrite E].
    + intros x t' -> Hx. specialize (Hlong [x] (t' ++ tail) eq_refl ltac:(done) ltac:(by constructor) ltac:(done)).
      destruct (decide (t' ++ tail = [])) as [[-> ->]%app_nil|Hne]; [done|]. exfalso.
      apply (heading_text_found line (b ++ (x :: t') ++ tail) (t' ++ tail) []); rewrite ?app_nil_r; try done; [|apply closing_nil].
      by apply newline_free_app in Hns as [[_ ?]%(newline_free_app [x]) ?]; apply newline_free_app.
    + intros t1 t2 -> Hne1 Hne2 Hc. specialize (Hshort t1 t2 eq_refl Hne2).
      eapply heading_tail_iff; [|exact Hc|apply Hshort]; [|destruct t1; [done|cbn; lia]].
      rewrite <- app_assoc in Hns. by apply newline_free_app in Hns as [_ ?].
    + apply closing_groups in E as ->. cbn. by rewrite captured.
  - intros (h & b & t & tail & [-> [Hh Hl] [Hb Hbn] Ht Hc]). revert E.
    apply rep_greedy_complete; [done|lia|intros n [= <-]; lia|].
    apply rep_greedy_complete; [done|by destruct b; [|cbn; lia]|done|].
    apply heading_text_found; [|done|done]. by apply newline_free_app in Hn as [_ [_ ?]%newline_free_app].
Qed.

Example heading_pattern_spec_witness :
  newline_free (u "# A b #") /\
  exists h b t tail, heading_parts (u "# A b #") h b t tail /\ u "A b" = t.
Proof.
  assert (newline_free (u "# A b #")) as Hn by (unfold newline_free; by apply (bool_decide_unpack (~ (10%N ∈ u "# A b #")))).
  split; [exact Hn|]. exact (heading_pattern_spec (u "# A b #") Hn).
Defined.

(** ** Requirements *)

Section chars.
Context {rt : PyRuntime} {tc : TextCase} (P : N -> Prop).

Lemma match_groups r s g s' g' : matches r s g s' g' -> Forall P s ->
  Forall (fun c => Forall P c.2) g -> Forall (fun c => Forall P c.2) g'.
Proof.
  induction 1 as [p x s g Hx|lo hi b p w s g|r1 r2 s g s1 g1 s2 g2 H1 IH1 H2 IH2
                 |r1 r2 s g s' g' _ IH|r1 r2 s g s' g' _ IH|r s g s' g' _ IH|r s g|n r s g s' g' _ IH|s g He];
    intros Hs Hg; auto.
  - apply IH2; [|by apply IH1]. apply match_suffix in H1 as [w ->]. by apply Forall_app in Hs as [_ ?].
  - constructor; [by apply Forall_take|by apply IH].
Qed.

Lemma group_Forall n g : Forall (fun c : nat * pystr => Forall P c.2) g -> Forall P (group n g).
Proof.
  induction 1 as [|[m t] g Ht _ IH]; cbn; [constructor|]. by destruct (m =? n)%nat.
Qed.

Lemma re_match_Forall r s g n : re_match r s = Some g -> Forall P s -> Forall P (group n g).
Proof.
  intros (s' & g' & Hm & [= <-])%run_sound Hs. apply group_Forall.
  eapply match_groups; [exact Hm|done|constructor].
Qed.

Lemma split_ws_Forall s : forall cur, Forall P cur -> Forall P s -> Forall (Forall P) (split_ws_aux cur s).
Proof.
  induction s as [|x s IH]; intros cur Hc Hs; cbn.
  - destruct cur; [constructor|]. constructor; [by apply Forall_reverse|constructor].
  - apply Forall_cons in Hs as [Hx Hs]. destruct (cp_isspace x).
    + destruct cur; [by apply IH|]. constructor; [by apply Forall_reverse|by apply IH].
    + apply IH; [by constructor|done].
Qed.

Lemma join_Forall sep ws : Forall P sep -> Forall (Forall P) ws -> Forall P (join sep ws).
Proof.
  intros Hsep. induction 1 as [|w ws Hw Hws IH]; [constructor|]. destruct ws; cbn [join]; [done|].
  apply Forall_app. split; [done|]. apply Forall_app. by split.
Qed.

Lemma drop_while_Forall p s : Forall P s -> Forall P (drop_while p s).
Proof. induction 1 as [|x s Hx Hs IH]; cbn; [constructor|]. destruct (p x); [done|by constructor]. Qed.

Lemma normalize_Forall s : P 32%N -> Forall P s -> Forall P (normalize s).
Proof.
  intros H32 Hs. unfold normalize. apply join_Forall; [by constructor|]. apply split_ws_Forall; [constructor|].
  unfold strip, rstrip, lstrip. apply Forall_reverse, drop_while_Forall, Forall_reverse. by apply drop_while_Forall.
Qed.

Lemma requirement_Forall t line id text : P 32%N -> Forall P line ->
  requirement_of t line = Some (id, text) -> Forall P text.
Proof.
  intros H32 Hl H. unfold requirement_of in H. destruct (re_match _ _) as [g|] eqn:E.
  - injection H as _ <-. apply normalize_Forall; [done|]. by eapply re_match_Forall.
  - destruct (_ && _); [|done]. injection H as _ <-. by apply normalize_Forall.
Qed.

Lemma splitlines_Forall s : forall cur, Forall P cur -> Forall P s -> Forall (Forall P) (splitlines_aux cur s).
Proof.
  induction s as [s IH] using (induction_ltof1 _ (@length N)); unfold ltof in IH. intros cur Hc Hs.
  destruct s as [|x s]; cbn [splitlines_aux].
  - destruct cur; [constructor|]. constructor; [by apply Forall_reverse|constructor].
  - apply Forall_cons in Hs as [Hx Hs]. destruct (line_break x).
    + constructor; [by apply Forall_reverse|]. destruct s as [|y s]; [constructor|].
      pose proof Hs as [Hy Hs']%Forall_cons.
      destruct (_ && _); (apply IH; [cbn; lia|constructor|done]).
    + apply IH; [cbn; lia|by constructor|done].
Qed.
End chars.

Section parse.
Context {rt : PyRuntime} {tc : TextCase}.

(** The heading in force after some lines. *)
Definition line_heading (line : pystr) : option pystr :=
  (fun g => normalize (group 2 g)) <$> re_match heading_pattern line.
Definition last_heading (lines : list pystr) : option pystr := last (omap line_heading lines).

(** What the [n]-th line contributes: its number, its identifier, the heading
    it stands under and its text. *)
Definition line_unit (t : pystr) (lines : list pystr) (n : nat) (line : pystr) :
    option (Z * option pystr * option pystr * pystr) :=
  match line_heading line, requirement_of t line with
  | None, Some (id, (_ :: _) as text) => Some (Z.of_nat n + 1, id, last_heading (take n lines), text)
  | _, _ => None
  end.
Definition units (t : pystr) (lines : list pystr) : list (Z * option pystr * option pystr * pystr) :=
  omap (fun o => o) (imap (line_unit t lines) lines).

Definition summary (x : ParsedRequirement) : Z * option pystr * option pystr * pystr :=
  (line_start x, requirement_id x, heading x, normalized_text x).

Definition digest_ok (x : ParsedRequirement) : Prop :=
  line_end x = line_start x /\
  exists bytes, encode (normalized_text x) = Ok bytes /\ pr_sha256 x = sha256_hex bytes.

Abbreviation scalars := (Forall (fun c => scalar c = true)).

Lemma encode_scalars s : scalars s -> exists bytes, encode s = Ok bytes.
Proof.
  intros Hs. destruct (utf8_encode_scalar s) as (b & Hb & _); [by apply forallb_Forall|].
  exists b. unfold encode. by rewrite Hb.
Qed.

Lemma last_heading_snoc pre line : last_heading (pre ++ [line]) =
  match line_heading line with Some h => Some h | None => last_heading pre end.
Proof.
  unfold last_heading. rewrite omap_app. cbn [omap list_omap].
  destruct (line_heading line); [apply last_snoc|by rewrite app_nil_r].
Qed.

Lemma units_step t pre line lines :
  imap (fun k => line_unit t ((pre ++ [line]) ++ lines) (length (pre ++ [line]) + k)%nat) lines =
  imap (fun k => line_unit t (pre ++ line :: lines) (length pre + S k)%nat) lines.
Proof.
  apply imap_ext. intros k x _. rewrite <- app_assoc, length_app. cbn [app length]. f_equal. lia.
Qed.

Definition line_too_long (lines : list pystr) : Prop :=
  exists line bytes, line ∈ lines /\ encode line = Ok bytes /\ MAX_TEXT_LINE_BYTES < zlen bytes.

Lemma parse_lines_spec t lines : forall pre parsed, Forall scalars lines ->
  match parse_lines t (zlen pre + 1) lines (last_heading pre) parsed with
  | Ok out => exists new, out = parsed ++ new /\
      summary <$> new = omap (fun o => o) (imap (fun k => line_unit t (pre ++ lines) (length pre + k)%nat) lines) /\
      pr_ordinal <$> new = seqZ (zlen parsed) (zlen new) /\ Forall digest_ok new
  | Raise e => e = Exn DocumentParseRejected "PARSER_LINE_SIZE_LIMIT" /\ line_too_long lines
  end.
Proof.
  induction lines as [|line lines IH]; intros pre parsed Hs; cbn [parse_lines].
  - exists []. by rewrite app_nil_r.
  - apply Forall_cons in Hs as [Hl Hs]. destruct (encode_scalars line Hl) as [bytes Hb]. rewrite Hb, bind_ok.
    destruct (Z.ltb_spec MAX_TEXT_LINE_BYTES (zlen bytes)) as [Hlong|_].
    { split; [done|]. exists line, bytes. split; [left|done]. }
    rewrite bind_ok. specialize (IH (pre ++ [line])). rewrite last_heading_snoc, zlen_app in IH.
    replace (zlen pre + zlen [line] + 1) with (zlen pre + 1 + 1) in IH by (unfold zlen; cbn; lia).
    rewrite (units_step t pre line lines) in IH. rewrite imap_cons. cbn [omap list_omap].
    unfold line_unit at 1. unfold line_heading at 1. unfold line_heading in IH at 1.
    assert (forall e, (e = Exn DocumentParseRejected "PARSER_LINE_SIZE_LIMIT" /\ line_too_long lines) ->
      e = Exn DocumentParseRejected "PARSER_LINE_SIZE_LIMIT" /\ line_too_long (line :: lines)) as Hraise.
    { intros e [-> (l & b & Hin & ?)]. split; [done|]. exists l, b. split; [by right|done]. }
    destruct (re_match heading_pattern line) as [g|]; cbn [fmap option_fmap option_map].
    { specialize (IH parsed Hs). destruct (parse_lines _ _ _ _ _); [done|by apply Hraise]. }
    destruct (requirement_of t line) as [[id [|c text]]|] eqn:Hr.
    1,3: specialize (IH parsed Hs); destruct (parse_lines _ _ _ _ _); [done|by apply Hraise].
    destruct (encode_scalars (c :: text)) as [bytes' Hb']; [by eapply requirement_Forall|].
    unfold new_requirement. rewrite Hb', !bind_ok.
    match goal with |- context [parsed ++ [?x]] => specialize (IH (parsed ++ [x]) Hs) end.
    destruct (parse_lines _ _ _ _ _) as [out|e]; [|by apply Hraise].
    destruct IH as (new & -> & Hsum & Hord & Hd). eexists. rewrite <- app_assoc. split; [reflexivity|].
    rewrite take_app_length' by lia. rewrite Nat.add_0_r. split; [|split].
    + cbn. by rewrite Hsum.
    + rewrite zlen_app in Hord. cbn [fmap list_fmap pr_ordinal app]. rewrite zlen_cons.
      rewrite seqZ_cons by (pose proof (zlen_nonneg new); lia). f_equal. rewrite Hord. f_equal; unfold zlen; cbn; lia.
    + constructor; [|done]. split; [done|]. by exists bytes'.
Qed.

(** Parsed requirements are numbered in order. *)
Lemma parsed_ordinals t raw items : parse_markdown_or_text t raw = Ok items ->
  pr_ordinal <$> items = seqZ 0 (zlen items).
Proof.
  intros H. unfold parse_markdown_or_text, reject_document in H. case_bool_decide; [|discriminate H].
  rewrite bind_ok in H. destruct (utf8_decode raw) as [text|] eqn:Hd; [|discriminate H].
  rewrite bind_ok in H. destruct (MAX_TEXT_CODEPOINTS <? zlen text); [discriminate H|].
  rewrite bind_ok in H. destruct (MAX_TEXT_LINES <? zlen (splitlines text)); [discriminate H|].
  rewrite bind_ok in H. apply utf8_decode_scalar, forallb_Forall in Hd as Hs.
  pose proof (parse_lines_spec t (splitlines text) [] [] (splitlines_Forall _ text [] (Forall_nil_2 _) Hs)) as Hp.
  change (zlen ([] : list pystr) + 1) with 1 in Hp. change (last_heading []) with (@None pystr) in Hp.
  rewrite H in Hp. by destruct Hp as (new & -> & _ & Hord & _).
Qed.

(** Why a document is refused. *)
Definition refused (t : pystr) (raw : bytes) (code : string) : Prop :=
  (code = "PARSER_DOCUMENT_TYPE_UNSUPPORTED" /\ t <> u "markdown" /\ t <> u "text") \/
  (code = "PARSER_TEXT_ENCODING_INVALID" /\ utf8_decode raw = None) \/
  exists text, utf8_decode raw = Some text /\
    ((code = "PARSER_TEXT_CODEPOINT_LIMIT" /\ MAX_TEXT_CODEPOINTS < zlen text) \/
     (code = "PARSER_LINE_COUNT_LIMIT" /\ MAX_TEXT_LINES < zlen (splitlines text)) \/
     (code = "PARSER_LINE_SIZE_LIMIT" /\ line_too_long (splitlines text))).

(** The parsed requirements are, in the order of the lines, one for each
    line that is no heading and says something: its text, its identifier, its
    number and the last heading above it; they are numbered from zero and each
    carries the SHA-256 digest of its text.  Nothing but
    [DocumentParseRejected] is raised, and the code says which limit was
    exceeded. *)
Theorem parse_markdown_or_text_spec t raw :
  match parse_markdown_or_text t raw with
  | Ok items => exists text, utf8_decode raw = Some text /\
      summary <$> items = units t (splitlines text) /\
      pr_ordinal <$> items = seqZ 0 (zlen items) /\ Forall digest_ok items
  | Raise e => exn_cls e = DocumentParseRejected /\ refused t raw (exn_msg e)
  end.
Proof.
  unfold parse_markdown_or_text, reject_document, raise, refused. case_bool_decide as Ht.
  2:{ cbn. split; [done|]. left. split; [done|]. split; intros ->; apply Ht; set_solver. }
  rewrite bind_ok. destruct (utf8_decode raw) as [text|] eqn:Hd; [|cbn; split; [done|right; by left]].
  rewrite bind_ok. destruct (Z.ltb_spec MAX_TEXT_CODEPOINTS (zlen text)); [cbn; split; [done|]; right; right; eauto 10|].
  rewrite bind_ok. destruct (Z.ltb_spec MAX_TEXT_LINES (zlen (splitlines text))); [cbn; split; [done|]; right; right; eauto 10|].
  rewrite bind_ok. apply utf8_decode_scalar, forallb_Forall in Hd as Hs.
  pose proof (parse_lines_spec t (splitlines text) [] [] (splitlines_Forall _ text [] (Forall_nil_2 _) Hs)) as Hp.
  change (zlen ([] : list pystr) + 1) with 1 in Hp. change (last_heading []) with (@None pystr) in Hp.
  destruct (parse_lines _ _ _ _ _) as [items|e].
  - destruct Hp as (new & -> & Hsum & Hord & Hg). exists text. by split_and!.
  - destruct Hp as [-> Hlong]. cbn. split; [done|]. right. right. eauto 10.
Qed.

(** An identifier: [REQ] or [REQUIREMENT] in any case, a dash, and letters,
    digits, underscores and dashes of which the first is a letter or digit. *)
Definition identifier (s : pystr) : Prop :=
  exists w x rest, s = w ++ [45%N] ++ x :: rest /\ alnum_class x = true /\
    Forall (fun y => id_class y = true) rest /\
    (Forall2 (fun c y => letter c y = true) (u "REQ") w \/
     Forall2 (fun c y => letter c y = true) (u "REQUIREMENT") w).

Lemma lit_match ps : forall s g s' g', matches (lit ps) s g s' g' ->
  exists w, s = w ++ s' /\ Forall2 (fun p y => p y = true) ps w /\ g' = g.
Proof.
  induction ps as [|p [|q ps] IH]; intros s g s' g' H; cbn [lit] in H.
  - apply match_rep in H as (w & -> & _ & _ & Hl & ->). exists w. specialize (Hl _ eq_refl).
    by destruct w; [|cbn in Hl; lia].
  - apply match_class in H as (x & -> & Hx & ->). exists [x]. split; [done|]. split; [by repeat constructor|done].
  - apply match_seq in H as (s1 & g1 & (x & -> & Hx & ->)%match_class & H). apply IH in H as (w & -> & Hw & ->).
    exists (x :: w). split; [done|]. split; [by constructor|done].
Qed.

Lemma word_match w s g s' g' : matches (word w) s g s' g' ->
  exists t, s = t ++ s' /\ Forall2 (fun c y => letter c y = true) (u w) t /\ g' = g.
Proof.
  intros (t & -> & Ht & ->)%lit_match. exists t. split; [done|]. split; [|done]. by apply Forall2_fmap_l in Ht.
Qed.

(** The identifier group of a requirement line. *)
Lemma requirement_identifier line s g : matches requirement_pattern line [] s g -> identifier (group 1 g).
Proof.
  unfold requirement_pattern. intros Hm.
  apply match_seq in Hm as (s1 & g1 & (b1 & _ & _ & _ & _ & ->)%match_rep & Hm).
  apply match_seq in Hm as (s2 & g2 & Ho & Hm).
  apply match_seq in Hm as (s3 & g3 & (gi & Hid & ->)%match_group & Hm).
  apply match_seq in Hm as (s4 & g4 & (b4 & _ & _ & _ & _ & ->)%match_rep & Hm).
  apply match_seq in Hm as (s5 & g5 & (x5 & _ & _ & ->)%match_class & Hm).
  apply match_seq in Hm as (s6 & g6 & (b6 & _ & _ & _ & _ & ->)%match_rep & Hm).
  apply match_seq in Hm as (s7 & g7 & (gt & (b7 & _ & _ & _ & _ & ->)%match_rep & ->)%match_group & Hm).
  apply match_seq in Hm as (s8 & g8 & (b8 & _ & _ & _ & _ & ->)%match_rep & (_ & _ & ->)%match_eol).
  cbn [group Nat.eqb].
  apply match_seq in Hid as (t1 & h1 & Hw & Hid).
  apply match_seq in Hid as (t2 & h2 & (d & -> & Hd & ->)%match_class & Hid).
  apply match_seq in Hid as (t3 & h3 & (x & -> & Hx & ->)%match_class & (rest & -> & Hrest & _ & _ & ->)%match_rep).
  assert (d = 45%N) as -> by (cbn in Hd; rewrite orb_false_r in Hd; by apply N.eqb_eq).
  assert (exists w, s2 = w ++ 45%N :: x :: rest ++ s3 /\
    (Forall2 (fun c y => letter c y = true) (u "REQ") w \/
     Forall2 (fun c y => letter c y = true) (u "REQUIREMENT") w)) as (w & -> & Hl).
  { apply match_alt in Hw as [(w & -> & Hw & _)%word_match|(w & -> & Hw & _)%word_match]; exists w; auto. }
  exists w, x, rest. split; [|done].
  replace (w ++ 45%N :: x :: rest ++ s3) with ((w ++ [45%N] ++ x :: rest) ++ s3) by by rewrite <- app_assoc.
  apply captured.
Qed.

(** A requirement line carries an identifier of the expected shape and a
    text without blanks at its ends or in a row; in Markdown a line without an
    identifier is no requirement. *)
Theorem requirement_of_shape t line id text : requirement_of t line = Some (id, text) ->
  (match id with
   | Some i => exists raw_id, identifier raw_id /\ i = str_upper raw_id
   | None => t = u "text" /\ strip line <> [] /\ text = normalize line
   end) /\ exists value, text = normalize value.
Proof.
  intros H. unfold requirement_of in H. destruct (re_match _ _) as [g|] eqn:E.
  - injection H as <- <-. split; [|by eexists]. exists (group 1 g). split; [|done].
    apply run_sound in E as (s' & g' & Hm & [= <-]). by apply requirement_identifier in Hm.
  - destruct (str_eqb t (u "text") && _) eqn:Ht; [|done]. injection H as <- <-.
    split; [|by eexists]. unfold str_eqb in Ht. bools. done.
Qed.

End parse.

Example req_shape_at :
  requirement_of (u "markdown") (u "* req-1: a") = Some (Some (u "REQ-1"), u "a") /\
  exists raw_id, identifier raw_id /\ u "REQ-1" = str_upper raw_id.
Proof.
  assert (requirement_of (u "markdown") (u "* req-1: a") = Some (Some (u "REQ-1"), u "a")) as H
    by (vm_compute; reflexivity).
  split; [exact H|]. exact (proj1 (requirement_of_shape _ _ _ _ H)).
Defined.
