(* ===== verification/Sessions.v ===== *)
(** * Transactions of several statements

    A session of [sessionmaker.begin()] over the tables of [DocumentTables]
    while other sessions work: before each of its statements others commit
    ([others_at]), a statement may fail, and so may the commit.  The session
    sees its own writes and what others have committed; when it raises, the
    tables are left as the others made them.

    ** Growth

    The tables that retrieval and citations rest on only grow: rows are added
    and stay as they are, and a version keeps its document.  Every statement
    of the document pipeline has this property, and sessions whose neighbours have it
    keep what they have seen. *)
From S2P Require Import Prelude Effects Database DocumentTables IndexingStore PyText Json Digest JobTables.

Section session.
Context {E : Type} (o : outside).

(** The world as the session sees it, and the tables without its writes. *)
Definition txn : Type := world E * doc_db.

(** What is done outside the database. *)
Definition inside {A} (m : io (world E) A) : io txn A := fun s =>
  ((m s.1).1, ((m s.1).2, s.2)).

Definition committed (others : doc_db -> doc_db) : io txn unit := fun s =>
  (Ok tt, (with_tables s.1 (others (tables s.1)), others s.2)).
Definition others_commit : io txn unit :=
  others ← inside (look_outside (others_at o));
  committed others.

(** One statement of the session, a query, and a write. *)
Definition sql {A} (f : doc_db -> result (A * doc_db)) : io txn A :=
  others_commit ;;
  inside (fault ← look_outside (fails o); on_tables (statement fault f)).
Definition ask {A} (f : doc_db -> A) : io txn A := sql (fun d => Ok (f d, d)).
Definition change (f : doc_db -> result doc_db) : io txn unit :=
  sql (fun d => d' ← f d; Ok (tt, d')).

(** [session.flush()]: the pending writes, all of them or none. *)
Fixpoint flush (work : list (doc_db -> result doc_db)) (d : doc_db) : result doc_db :=
  match work with
  | [] => Ok d
  | f :: work => d ← f d; flush work d
  end.

Definition commit : io txn unit :=
  inside (fault ← look_outside (fails o);
          lift (raise_if fault SQLAlchemyError "database failure")).

(** [with sessions.begin() as session: m] *)
Definition begin {A} (m : io txn A) : io (world E) A := fun w =>
  match (a ← m; commit ;; mret a) (w, tables w) with
  | (Ok a, (w', _)) => (Ok a, w')
  | (Raise e, (w', d)) => (Raise e, with_tables w' d)
  end.

(** A query of a session that only reads, after others have committed. *)
Definition observes {A} (f : doc_db -> A) : io (world E) A := commits o ;; reads o f.

(** ** What a session leaves *)

(** [d'] is [d] with commits of other sessions. *)
Definition only_others : relation doc_db := rtc (fun d d' => exists n, d' = others_at o n d).

(** However [m] ends, the tables without its writes change only by commits of
    other sessions, and the state of the provider does not change. *)
Definition isolated {A} (m : io txn A) : Prop := forall s,
  only_others s.2 (m s).2.2 /\ provider (m s).2.1 = provider s.1.

Lemma isolated_bind {A B} (m : io txn A) (f : A -> io txn B) :
  isolated m -> (forall a, isolated (f a)) -> isolated (m ≫= f).
Proof.
  intros Hm Hf s. specialize (Hm s) as [Ho Hp]. rewrite io_bind_eq.
  destruct (m s) as [[a|e] s']; [|done]. destruct (Hf a s') as [Ho' Hp'].
  split; [by etrans|by rewrite Hp'].
Qed.
Lemma isolated_ret {A} (a : A) : isolated (mret a).
Proof. by split. Qed.
Lemma isolated_lift {A} (r : result A) : isolated (lift r).
Proof. by split. Qed.
Lemma isolated_look {A} (f : N -> A) : isolated (inside (look_outside f)).
Proof. by split. Qed.
Lemma isolated_others : isolated others_commit.
Proof. split; [|done]. apply rtc_once. by eexists. Qed.
Lemma isolated_sql {A} (f : doc_db -> result (A * doc_db)) : isolated (sql f).
Proof. apply isolated_bind; [apply isolated_others|]. by intros _ s. Qed.
Lemma isolated_commit : isolated commit.
Proof. intros s. split; [done|]. unfold commit, inside. rewrite io_bind_eq. cbn. by destruct (fails o (ticks s.1)). Qed.
Lemma isolated_try {A} (m : io txn A) handles h :
  isolated m -> (forall e, isolated (h e)) -> isolated (io_try m handles h).
Proof.
  intros Hm Hh s. specialize (Hm s) as [Ho Hp]. unfold io_try. destruct (m s) as [[a|e] s']; [done|].
  destruct (handles _); [|done]. destruct (Hh e s') as [Ho' Hp']. split; [by etrans|by rewrite Hp'].
Qed.

Lemma isolated_commits {A} (m : io txn A) : isolated m -> isolated (a ← m; commit ;; mret a).
Proof.
  intros Hm. apply isolated_bind; [done|]. intros a. apply isolated_bind; [apply isolated_commit|].
  intros _. apply isolated_ret.
Qed.

(** [m] raises only exceptions whose class satisfies [P]. *)
Definition raising (P : exn_class -> Prop) {S A} (m : io S A) : Prop := forall s, raises P (m s).1.

Lemma raising_bind P {S A B} (m : io S A) (f : A -> io S B) :
  raising P m -> (forall a, raising P (f a)) -> raising P (m ≫= f).
Proof.
  intros Hm Hf s. specialize (Hm s). rewrite io_bind_eq. destruct (m s) as [[a|e] s']; [apply Hf|].
  intros e' [= <-]. by apply Hm.
Qed.
Lemma raising_lift P {S A} (r : result A) : raises P r -> raising P (lift (S := S) r).
Proof. by intros H s. Qed.
Lemma raising_look P {A} (f : N -> A) : raising P (inside (look_outside f)).
Proof. intros s. apply raises_Ok. Qed.
Lemma raising_sql P {A} (f : doc_db -> result (A * doc_db)) :
  P SQLAlchemyError -> (forall d, raises P (f d)) -> raising P (sql f).
Proof.
  intros HP Hf s. unfold sql, others_commit. erewrite io_step by reflexivity. unfold inside. rewrite io_bind_eq. cbn.
  unfold statement. destruct (fails o _); [by apply raises_raise|].
  specialize (Hf (others_at o (ticks s.1) (tables s.1))). cbn. destruct (f _) as [[a d]|e]; [apply raises_Ok|]. intros e' [= <-]. by apply Hf.
Qed.
Lemma raising_commit P : P SQLAlchemyError -> raising P commit.
Proof.
  intros HP s. unfold commit, inside. rewrite io_bind_eq. cbn. destruct (fails o _); [by apply raises_raise|apply raises_Ok].
Qed.
Lemma raising_begin P {A} (m : io txn A) : P SQLAlchemyError -> raising P m -> raising P (begin m).
Proof.
  intros HP Hm w. unfold begin.
  assert (raising P (a ← m; commit ;; mret a)) as H.
  { apply raising_bind; [done|]. intros a. apply raising_bind; [by apply raising_commit|]. intros _ s. apply raises_Ok. }
  specialize (H (w, tables w)). destruct ((m ≫= _) (w, tables w)) as [[a|e] [w1 d]]; [apply raises_Ok|]. intros e' [= <-]. by apply H.
Qed.

(** *** What a session keeps *)

(** [m] keeps [I] when it returns, next to sessions that keep it. *)
Definition keeps (I : doc_db -> Prop) {A} (m : io txn A) : Prop := forall s a s',
  m s = (Ok a, s') -> I (tables s.1) -> I (tables s'.1).

Lemma run_keeps_bind I {A B} (m : io txn A) (f : A -> io txn B) :
  keeps I m -> (forall a, keeps I (f a)) -> keeps I (m ≫= f).
Proof. intros Hm Hf s b s' (a & s1 & H1 & H2)%io_bind_Ok Hs. eapply Hf; [exact H2|]. by eapply Hm. Qed.
Lemma keeps_pure I {A} (m : io txn A) :
  (forall s a s', m s = (Ok a, s') -> tables s'.1 = tables s.1) -> keeps I m.
Proof. intros Hm s a s' H Hs. by rewrite (Hm _ _ _ H). Qed.
Lemma run_keeps_ret I {A} (a : A) : keeps I (mret a).
Proof. apply keeps_pure. by intros s b s' [= _ <-]. Qed.
Lemma run_keeps_lift I {A} (r : result A) : keeps I (lift r).
Proof. apply keeps_pure. by intros s b s' [_ ->]%lift_Ok. Qed.
Lemma run_keeps_look I {A} (f : N -> A) : keeps I (inside (look_outside f)).
Proof. apply keeps_pure. by intros s b s' [= _ <-]. Qed.

(** A session that raises leaves only what the others committed. *)
Lemma begin_Raise {A} (m : io txn A) w e w' : isolated m ->
  begin m w = (Raise e, w') -> only_others (tables w) (tables w').
Proof.
  intros Hm H. unfold begin in H. destruct (isolated_commits m Hm (w, tables w)) as [Hi _].
  destruct ((m ≫= _) (w, tables w)) as [[a|e'] [w1 d]]; [done|]. by injection H as _ <-.
Qed.

Lemma begin_provider {A} (m : io txn A) w : isolated m -> provider (begin m w).2 = provider w.
Proof.
  intros Hm. unfold begin. destruct (isolated_commits m Hm (w, tables w)) as [_ Hi].
  by destruct ((m ≫= _) (w, tables w)) as [[a|e'] [w1 d]].
Qed.

(** A statement that returned ran on what others had made of the tables the
    session saw. *)
Lemma sql_saw {A} (f : doc_db -> result (A * doc_db)) s a s' :
  sql f s = (Ok a, s') -> exists n, f (others_at o n (tables s.1)) = Ok (a, tables s'.1).
Proof.
  unfold sql, others_commit. erewrite io_step by reflexivity. cbn.
  intros H. unfold inside in H. rewrite io_bind_eq in H. cbn in H. unfold statement in H.
  exists (ticks s.1). destruct (fails o _); [discriminate H|].
  destruct (f _) as [[b d]|e] eqn:Hf; [|discriminate H]. by injection H as <- <-.
Qed.
Lemma ask_saw {A} (f : doc_db -> A) s a s' : ask f s = (Ok a, s') ->
  exists n, a = f (others_at o n (tables s.1)) /\ tables s'.1 = others_at o n (tables s.1).
Proof. intros [n [= <- <-]]%sql_saw. by exists n. Qed.
Lemma change_saw (f : doc_db -> result doc_db) s a s' : change f s = (Ok a, s') ->
  exists n, f (others_at o n (tables s.1)) = Ok (tables s'.1).
Proof.
  intros [n H]%sql_saw. exists n. destruct (f _) as [d|e]; [|done]. by injection H as _ <-.
Qed.

(** The statements of a session keep what others keep and they keep. *)
Lemma keeps_sql (I : doc_db -> Prop) {A} (f : doc_db -> result (A * doc_db)) :
  (forall n d, I d -> I (others_at o n d)) -> (forall d a d', I d -> f d = Ok (a, d') -> I d') -> keeps I (sql f).
Proof. intros Ho Hf s a s' [n H]%sql_saw Hs. eapply Hf; [|exact H]. by apply Ho. Qed.
Lemma keeps_ask (I : doc_db -> Prop) {A} (f : doc_db -> A) :
  (forall n d, I d -> I (others_at o n d)) -> keeps I (ask f).
Proof. intros Ho. apply keeps_sql; [done|]. by intros d a d' Hd [= _ <-]. Qed.
Lemma keeps_change (I : doc_db -> Prop) (f : doc_db -> result doc_db) :
  (forall n d, I d -> I (others_at o n d)) -> (forall d d', I d -> f d = Ok d' -> I d') -> keeps I (change f).
Proof. intros Ho Hf s a s' [n H]%change_saw Hs. eapply Hf; [|exact H]. by apply Ho. Qed.

Lemma begin_keeps (I : doc_db -> Prop) {A} (m : io txn A) w :
  (forall n d, I d -> I (others_at o n d)) -> isolated m -> keeps I m -> I (tables w) -> I (tables (begin m w).2).
Proof.
  intros Ho Hi Hk Hw. destruct (begin m w) as [[a|e] w'] eqn:Hb; cbn.
  - unfold begin in Hb. destruct ((a ← m; commit ;; mret a) (w, tables w)) as [[b|e] [w1 d]] eqn:H; [|done].
    injection Hb as <- <-. apply io_bind_Ok in H as (x & s & Hm & H). apply io_bind_Ok in H as (y & s1 & Hc & H).
    injection H as <- ->. unfold commit, inside in Hc. rewrite io_bind_eq in Hc. cbn in Hc.
    assert (tables s.1 = tables w1) as <- by (by destruct (fails o (ticks s.1)); injection Hc as _ <- _).
    by apply (Hk _ _ _ Hm).
  - apply (begin_Raise m w e w' Hi) in Hb. clear -Ho Hb Hw. induction Hb as [|d d1 d2 [n ->] _ IH]; [done|].
    by apply IH, Ho.
Qed.

(** *** Without other sessions at work *)

Context (quiet : forall n d, others_at o n d = d).

Lemma only_others_quiet d d' : only_others d d' -> d' = d.
Proof using quiet. induction 1 as [|d d1 d' [n ->] _ ->]; by rewrite ?quiet. Qed.

Lemma others_commit_run s : others_commit s =
  (Ok tt, ({| tables := tables s.1; ticks := ticks s.1 + 1; provider := provider s.1;
              embed_log := embed_log s.1 |}, s.2)).
Proof using quiet.
  unfold others_commit. erewrite io_step by reflexivity. unfold committed, with_tables. cbn. by rewrite !quiet.
Qed.

(** A statement ran on the tables the session saw. *)
Lemma sql_Ok {A} (f : doc_db -> result (A * doc_db)) s a s' :
  sql f s = (Ok a, s') -> f (tables s.1) = Ok (a, tables s'.1).
Proof using quiet.
  unfold sql. rewrite (io_step _ _ _ _ _ (others_commit_run s)).
  intros H. unfold inside in H. rewrite io_bind_eq in H. cbn in H. unfold statement in H.
  destruct (fails o (ticks s.1 + 1)); [discriminate H|].
  destruct (f (tables s.1)) as [[b d]|e] eqn:Hf; [|discriminate H]. by injection H as <- <-.
Qed.

(** A statement that fails changes nothing. *)
Lemma sql_Raise {A} (f : doc_db -> result (A * doc_db)) s e s' :
  sql f s = (Raise e, s') -> tables s'.1 = tables s.1.
Proof using quiet.
  unfold sql. rewrite (io_step _ _ _ _ _ (others_commit_run s)).
  intros H. unfold inside in H. rewrite io_bind_eq in H. cbn in H. unfold statement in H.
  destruct (fails o (ticks s.1 + 1)); [by injection H as _ <-|].
  destruct (f (tables s.1)) as [[b d]|e'] eqn:Hf; [discriminate H|]. by injection H as _ <-.
Qed.

Lemma ask_Ok {A} (f : doc_db -> A) s a s' : ask f s = (Ok a, s') ->
  a = f (tables s.1) /\ tables s'.1 = tables s.1.
Proof using quiet. by intros [= <- <-]%sql_Ok. Qed.

Lemma change_Ok (f : doc_db -> result doc_db) s a s' : change f s = (Ok a, s') ->
  f (tables s.1) = Ok (tables s'.1).
Proof using quiet.
  intros H%sql_Ok. destruct (f (tables s.1)) as [d|e]; [|done]. by injection H as _ <-.
Qed.

Lemma look_Ok {A} (f : N -> A) s a s' : inside (look_outside f) s = (Ok a, s') -> tables s'.1 = tables s.1.
Proof using. by intros [= _ <-]. Qed.

(** The session that returned. *)
Lemma begin_Ok {A} (m : io txn A) w a w' : begin m w = (Ok a, w') ->
  exists s, m (w, tables w) = (Ok a, s) /\ tables w' = tables s.1.
Proof using.
  unfold begin. destruct ((a ← m; commit ;; mret a) (w, tables w)) as [[b|e] [w1 d]] eqn:H; [|done].
  intros [= <- <-]. apply io_bind_Ok in H as (x & s & Hm & H). apply io_bind_Ok in H as (y & s1 & Hc & H).
  injection H as <- ->. exists s. split; [done|]. unfold commit, inside in Hc.
  rewrite io_bind_eq in Hc. cbn in Hc. by destruct (fails o (ticks s.1)); injection Hc as _ <- _.
Qed.
End session.

(** What the steps of a session keep; what a statement keeps is left. *)
Ltac keeps_step :=
  repeat match goal with
  | |- keeps _ (mret _) => apply run_keeps_ret
  | |- keeps _ (lift _) => apply run_keeps_lift
  | |- keeps _ (io_raise _ _) => apply run_keeps_lift
  | |- keeps _ (inside _) => apply run_keeps_look
  | |- keeps _ (sql _ _) => apply keeps_sql; [done|intros ???]
  | |- keeps _ (ask _ _) => apply keeps_ask; done
  | |- keeps _ (change _ _) => apply keeps_change; [done|intros ??]
  | |- keeps _ (match ?x with _ => _ end) => destruct x
  | |- keeps _ (_ ≫= _) => apply run_keeps_bind; intros
  end.

(** The steps of a session are isolated. *)
Ltac isolated_step :=
  repeat match goal with
  | |- isolated _ (mret _) => apply isolated_ret
  | |- isolated _ (lift _) => apply isolated_lift
  | |- isolated _ (io_raise _ _) => apply isolated_lift
  | |- isolated _ (inside _) => apply isolated_look
  | |- isolated _ (sql _ _) => apply isolated_sql
  | |- isolated _ (ask _ _) => apply isolated_sql
  | |- isolated _ (change _ _) => apply isolated_sql
  | |- isolated _ (io_try _ _ _) => apply isolated_try; intros
  | |- isolated _ (match ?x with _ => _ end) => destruct x
  | |- isolated _ (_ ≫= _) => apply isolated_bind; intros
  end.

(** What the steps of a session raise; what a statement raises is left. *)
Ltac raising_step :=
  repeat match goal with
  | |- raising _ (mret _) => intros ?; apply raises_Ok
  | |- raising _ (lift _) => apply raising_lift
  | |- raising _ (io_raise _ _) => apply raising_lift
  | |- raising _ (inside _) => apply raising_look
  | |- raising _ (sql _ _) => apply raising_sql; [by auto|intros ?]
  | |- raising _ (ask _ _) => apply raising_sql; [by auto|intros ?; apply raises_Ok]
  | |- raising _ (change _ _) => apply raising_sql; [by auto|intros ?; apply raises_bind; [|intros; apply raises_Ok]]
  | |- raising _ (match ?x with _ => _ end) => destruct x
  | |- raising _ (_ ≫= _) => apply raising_bind; intros
  end.

(** * Growth *)

Record grows (d d' : doc_db) : Prop := {
  gr_documents : documents (queues d) ⊆ documents (queues d');
  gr_versions : forall i v, versions d !! i = Some v ->
    exists v', versions d' !! i = Some v' /\ ver_document_id v' = ver_document_id v;
  gr_locations : locations d ⊆ locations d';
  gr_chunks : chunk_rows d ⊆ chunk_rows d';
  gr_traces : trace_rows d ⊆ trace_rows d';
  gr_candidates : candidate_rows d ⊆ candidate_rows d';
  gr_citations : citation_rows d ⊆ citation_rows d';
  gr_runs : run_rows d ⊆ run_rows d';
  gr_findings : finding_rows d ⊆ finding_rows d';
  gr_feedback : feedback_rows d ⊆ feedback_rows d';
}.

#[export] Instance grows_refl : Reflexive grows.
Proof. intros d. split; try reflexivity. eauto. Qed.
#[export] Instance grows_trans : Transitive grows.
Proof.
  intros d1 d2 d3 [] []. split; try (by etrans). intros i v Hv.
  destruct (gr_versions0 _ _ Hv) as (v2 & H2 & E2). destruct (gr_versions1 _ _ H2) as (v3 & H3 & E3).
  exists v3. split; [done|congruence].
Qed.
#[export] Instance grows_preorder : PreOrder grows.
Proof. split; apply _. Qed.

(** A row added under a new key. *)
Lemma insert_grows {R} (m : gmap uuid R) i (r : R) : negb (is_null (m !! i)) = false -> m ⊆ <[i := r]> m.
Proof. intros H. apply insert_subseteq. destruct (m !! i); done. Qed.

Ltac grows_solve :=
  split; cbn; try reflexivity; try (by eauto); try (by apply insert_grows).

Lemma insert_parser_version_grows r d d' : insert_parser_version r d = Ok d' -> grows d d'.
Proof. unfold insert_parser_version. intros H. ok_inv. grows_solve. Qed.
Lemma set_parser_version_grows v p d d' : set_parser_version v p d = Ok d' -> grows d d'.
Proof.
  unfold set_parser_version. destruct (versions d !! v) as [row|] eqn:Hv; [|done]. intros H. ok_inv.
  split; cbn; try reflexivity. intros i w Hw. destruct (decide (i = v)) as [->|Hne].
  - rewrite lookup_insert_eq. exists (with_parser p row). split; [done|]. rewrite Hv in Hw. by injection Hw as ->.
  - rewrite lookup_insert_ne by done. eauto.
Qed.
Lemma insert_location_grows r d d' : insert_location r d = Ok d' -> grows d d'.
Proof. unfold insert_location. intros H. ok_inv. bools. grows_solve. apply insert_grows. by apply negb_false_iff. Qed.
Lemma insert_section_grows r d d' : insert_section r d = Ok d' -> grows d d'.
Proof. unfold insert_section. intros H. ok_inv. grows_solve. Qed.
Lemma insert_indexing_job_grows r d d' : insert_indexing_job r d = Ok d' -> grows d d'.
Proof. unfold insert_indexing_job. intros H. ok_inv. grows_solve. Qed.
Lemma insert_chunk_grows r d d' : insert_chunk r d = Ok d' -> grows d d'.
Proof. unfold insert_chunk. intros H. ok_inv. bools. grows_solve. apply insert_grows. by apply negb_false_iff. Qed.
Lemma insert_chunks_grows rows d d' : insert_chunks rows d = Ok d' -> grows d d'.
Proof.
  revert d. induction rows as [|r rows IH]; intros d H; cbn in H; ok_inv; [reflexivity|].
  etrans; [by eapply insert_chunk_grows|by apply IH].
Qed.
Lemma insert_embedding_grows r d d' : insert_embedding r d = Ok d' -> grows d d'.
Proof. unfold insert_embedding. intros H. ok_inv. grows_solve. Qed.
Lemma insert_link_grows r d d' : insert_link r d = Ok d' -> grows d d'.
Proof. unfold insert_link. intros H. ok_inv. grows_solve. Qed.
Lemma insert_trace_grows r d d' : insert_trace r d = Ok d' -> grows d d'.
Proof. unfold insert_trace. intros H. ok_inv. bools. grows_solve. apply insert_grows. by apply negb_false_iff. Qed.
Lemma insert_candidate_grows r d d' : insert_candidate r d = Ok d' -> grows d d'.
Proof. unfold insert_candidate. intros H. ok_inv. bools. grows_solve. apply insert_grows. by apply negb_false_iff. Qed.
Lemma insert_citation_grows r d d' : insert_citation r d = Ok d' -> grows d d'.
Proof. unfold insert_citation. intros H. ok_inv. bools. grows_solve. apply insert_grows. by apply negb_false_iff. Qed.
Lemma insert_run_grows r d d' : insert_run r d = Ok d' -> grows d d'.
Proof. unfold insert_run. intros H. ok_inv. bools. grows_solve. apply insert_grows. by apply negb_false_iff. Qed.
Lemma insert_finding_grows r d d' : insert_finding r d = Ok d' -> grows d d'.
Proof. unfold insert_finding. intros H. ok_inv. bools. grows_solve. apply insert_grows. by apply negb_false_iff. Qed.
Lemma insert_feedback_grows r d d' : insert_feedback r d = Ok d' -> grows d d'.
Proof. unfold insert_feedback. intros H. ok_inv. bools. grows_solve. apply insert_grows. by apply negb_false_iff. Qed.

Create HintDb grows discriminated.
#[export] Hint Resolve insert_parser_version_grows set_parser_version_grows insert_location_grows
  insert_section_grows insert_indexing_job_grows insert_chunk_grows insert_chunks_grows
  insert_embedding_grows insert_link_grows insert_trace_grows insert_candidate_grows
  insert_citation_grows insert_run_grows insert_finding_grows insert_feedback_grows : grows.

Lemma flush_grows work d d' :
  (forall f d d', f ∈ work -> f d = Ok d' -> grows d d') -> flush work d = Ok d' -> grows d d'.
Proof.
  revert d. induction work as [|f work IH]; intros d Hf H; cbn in H; ok_inv; [reflexivity|].
  etrans; [eapply Hf; [left|done]|]. apply IH; [|done]. intros g d1 d2 Hg. apply Hf. by right.
Qed.
Lemma flush_all_grows {R} (insert : R -> doc_db -> result doc_db) rows d d' :
  (forall r d d', insert r d = Ok d' -> grows d d') -> flush (insert <$> rows) d = Ok d' -> grows d d'.
Proof. intros Hi. apply flush_grows. intros f d1 d2 (r & -> & _)%list_elem_of_fmap. apply Hi. Qed.

(** ** What the inserts raise *)

Abbreviation database_error := (fun c => is_SQLAlchemyError c = true).
Lemma insert_trace_raises r d : raises database_error (insert_trace r d).
Proof. unfold insert_trace. repeat raises_step. Qed.
Lemma insert_candidate_raises r d : raises database_error (insert_candidate r d).
Proof. unfold insert_candidate. repeat raises_step. Qed.
Lemma insert_citation_raises r d : raises database_error (insert_citation r d).
Proof. unfold insert_citation. repeat raises_step. Qed.
Lemma insert_run_raises r d : raises database_error (insert_run r d).
Proof. unfold insert_run. repeat raises_step. Qed.
Lemma insert_finding_raises r d : raises database_error (insert_finding r d).
Proof. unfold insert_finding. repeat raises_step. Qed.
Lemma insert_feedback_raises r d : raises database_error (insert_feedback r d).
Proof. unfold insert_feedback. repeat raises_step. Qed.
Lemma flush_raises {R} (P : exn_class -> Prop) (insert : R -> doc_db -> result doc_db) rows :
  (forall r d, raises P (insert r d)) -> forall d, raises P (flush (insert <$> rows) d).
Proof.
  intros Hi. induction rows as [|r rows IH]; intros d; [apply raises_Ok|]. cbn.
  apply raises_bind; [apply Hi|]. intros d' _. apply IH.
Qed.

(** ** Sessions between growing neighbours *)

Section sessions.
Context {E : Type} (o : outside) (others_grow : forall n d, grows d (others_at o n d)).

Lemma only_others_grow d d' : only_others o d d' -> grows d d'.
Proof using others_grow. induction 1 as [|d d1 d' [n ->] _ IH]; [reflexivity|]. etrans; [apply others_grow|done]. Qed.

Lemma ask_grows {A} (f : doc_db -> A) (s : txn (E := E)) a s' : ask o f s = (Ok a, s') ->
  a = f (tables s'.1) /\ grows (tables s.1) (tables s'.1).
Proof using others_grow. intros (n & -> & ->)%ask_saw. split; [done|apply others_grow]. Qed.

Lemma change_grows (f : doc_db -> result doc_db) (s : txn (E := E)) a s' :
  (forall d d', f d = Ok d' -> grows d d') -> change o f s = (Ok a, s') ->
  exists d, grows (tables s.1) d /\ f d = Ok (tables s'.1) /\ grows d (tables s'.1).
Proof using others_grow. intros Hf [n H]%change_saw. exists (others_at o n (tables s.1)). split; [apply others_grow|]. split; [done|by apply Hf]. Qed.
End sessions.

(** A query of a session that only reads sees what the others had committed. *)
Lemma observes_run {E A} (o : outside) (f : doc_db -> A) (w : world E) :
  exists n, tables (observes o f w).2 = others_at o n (tables w) /\
  match (observes o f w).1 with
  | Ok a => a = f (others_at o n (tables w))
  | Raise e => exn_cls e = SQLAlchemyError
  end.
Proof.
  exists (ticks w). unfold observes, commits. erewrite io_step by (erewrite io_step by reflexivity; reflexivity).
  unfold reads. erewrite io_step by reflexivity. unfold on_tables, query, statement. cbn. by destruct (fails o _).
Qed.

Lemma observes_healthy {E A} (o : outside) (f : doc_db -> A) (w : world E) : (forall n, fails o n = false) ->
  exists n w1, observes o f w = (Ok (f (others_at o n (tables w))), w1) /\ tables w1 = others_at o n (tables w).
Proof.
  intros Hq. exists (ticks w). unfold observes, commits, reads.
  erewrite io_step by (erewrite io_step by reflexivity; reflexivity). erewrite io_step by reflexivity.
  unfold on_tables, query, statement. cbn. rewrite Hq. by eexists.
Qed.
