(* ===== verification/ParserPromotion.v ===== *)
(** * Publishing parser evidence ([parser_evidence_promotion.py])

    A claimed document is read from quarantine under its lease; its parsed
    requirements become source locations and sections, the job is accepted and
    an indexing job is queued in one transaction ([Sessions.begin]).  The
    private storage is an argument.

    ** Properties

    A promotion that raises leaves nothing of its own in the tables, whatever
    other sessions commit meanwhile; one that returns has written exactly the
    evidence of the parsed requirements, which the indexing service then reads
    back in order. *)
From stdpp Require Import sorting.
From S2P Require Import Prelude PyText Json Digest GeneratedTests Effects Database JobTables ParserJobClaims.
From S2P Require Import DocumentTables IndexingJobClaims Indexing IndexingStore Sessions Regex MarkdownParser.
From S2P Require Import JsonFacts AsciiRuntime DatabaseFacts Leases JobQueues IndexingStoreSpec.

Definition MAX_PROMOTED_TEXT_BYTES : Z := 2 * 1024 * 1024.
Definition PARSER_NAME : pystr := u "markdown-text".

Record ClaimedDocument := { cd_document_type : pystr; raw : bytes }.

Record PromotedParserEvidence := {
  pe_document_version_id : uuid;
  pe_parser_version_id : uuid;
  pe_section_ids : list uuid;
  pe_indexing_job_id : uuid;
}.

(** [_utc] *)
Definition promotion_utc (t : datetime) : result instant :=
  match utcoffset t with
  | None => raise ValueError "Parser promotion clock must be timezone-aware"
  | Some offset => Ok (wall t - offset)
  end.

(** [_claim_predicate]: the job is in [state] under the claim's lease, which
    runs at [now]. *)
Definition lease_runs (claim : ClaimedParserJob) (claimed expires now : instant) (state : JobState)
    (r : ParserJobRecord) : bool :=
  (pj_id r =? cp_job_id claim)%N && (document_intake_id r =? cp_document_intake_id claim)%N &&
  lease_in state (pj_lease r) && is_uuid (claim_token (pj_lease r)) (cp_claim_token claim) &&
  is_at (claimed_at (pj_lease r)) (Z.eqb claimed) &&
  is_at (claim_expires_at (pj_lease r)) (Z.eqb expires) &&
  is_at (claimed_at (pj_lease r)) (fun t => t <=? now) &&
  is_at (claim_expires_at (pj_lease r)) (Z.ltb now).
Definition claim_predicate (claim : ClaimedParserJob) (now : instant) (state : JobState) :
    result (ParserJobRecord -> bool) :=
  claimed ← promotion_utc (cp_claimed_at claim);
  expires ← promotion_utc (cp_claim_expires_at claim);
  Ok (lease_runs claim claimed expires now state).

Abbreviation source_rows := (DocumentIntakeRecord * DocumentRecord * DocumentVersionRecord)%type.

(** The joined rows of [_source]. *)
Definition source_query (intake_id : uuid) (d : doc_db) : option source_rows :=
  intake ← intakes (queues d) !! intake_id;
  document ← (i ← in_document_id intake; documents (queues d) !! i);
  version ← (i ← in_document_version_id intake; versions d !! i);
  if bool_decide (in_state intake = QUARANTINED) &&
     (doc_project_id document =? in_project_id intake)%N &&
     (ver_document_id version =? doc_id document)%N
  then Some (intake, document, version) else None.

(** [_source] *)
Definition source_of (rows : option source_rows) : result source_rows :=
  match rows with
  | Some rows => Ok rows
  | None => reject_document "PARSER_SOURCE_PROVENANCE_INVALID"
  end.

Definition parsable (document_type : pystr) : bool :=
  bool_decide (document_type ∈ [u "markdown"; u "text"]).

Section promotion.
Context {rt : PyRuntime} {tc : TextCase}.

(** [_validate_source] *)
Definition source_intact (source : source_rows) (parsed_input : ClaimedDocument) : bool :=
  let '(intake, document, version) := source in
  let expected_type :=
    if str_eqb (document_type document) (u "markdown") then u "text/markdown" else u "text/plain" in
  str_eqb (cd_document_type parsed_input) (document_type document) &&
  str_eqb (declared_content_type intake) expected_type &&
  str_eqb (ver_content_type version) expected_type &&
  has (quarantine_key intake) &&
  (0 <? zlen (raw parsed_input)) && (zlen (raw parsed_input) <=? MAX_PROMOTED_TEXT_BYTES) &&
  (zlen (raw parsed_input) =? in_byte_size intake) &&
  (zlen (raw parsed_input) =? ver_byte_size version) &&
  bool_decide (in_content_sha256 intake = Some (sha256_hex (raw parsed_input))) &&
  bool_decide (in_content_sha256 intake = Some (ver_content_sha256 version)).
Definition validate_source (source : source_rows) (parsed_input : ClaimedDocument) : result unit :=
  (if parsable (document_type source.1.2) then Ok tt
   else reject_document "PARSER_DOCUMENT_TYPE_UNSUPPORTED") ;;
  if source_intact source parsed_input then Ok tt
  else reject_document "PARSER_SOURCE_INTEGRITY_INVALID".

(** ** Reading the claimed document *)

Section operations.
Context {E : Type} (o : outside) (storage : pystr -> N -> result (bytes * pystr)).
Abbreviation io := (io (world E)).

Definition evidence_unavailable {A} (m : io A) : io A :=
  io_try m is_SQLAlchemyError (fun _ => io_raise ParserEvidenceUnavailable "").

(** The lease runs, and the source of the claim. *)
Definition claimed_source (claim : ClaimedParserJob) : io source_rows :=
  now ← look_outside (clock_at o);
  predicate ← lift (claim_predicate claim now JOB_CLAIMED);
  active ← observes o (fun d => select predicate (parser_jobs (queues d)));
  match active with
  | [] => io_raise ParserJobClaimRejected "Parser job claim is not active"
  | _ => rows ← observes o (source_query (cp_document_intake_id claim)); lift (source_of rows)
  end.

(** [SqlAlchemyClaimedDocumentReader.read] *)
Definition read (claim : ClaimedParserJob) : io ClaimedDocument :=
  evidence_unavailable
    (source ← claimed_source claim;
     let '(intake, document, _) := source in
     key ← lift (match quarantine_key intake with
                 | Some key => Ok key
                 | None => reject_document "PARSER_SOURCE_PROVENANCE_INVALID"
                 end);
     lift (if parsable (document_type document) then Ok tt
           else reject_document "PARSER_DOCUMENT_TYPE_UNSUPPORTED") ;;
     stored ← look_outside (storage key);
     object ← lift stored;
     let parsed_input := {| cd_document_type := document_type document; raw := object.1 |} in
     source ← claimed_source claim;
     let '(intake, _, version) := source in
     lift (if bool_decide (quarantine_key intake <> Some key) ||
              negb (str_eqb object.2 (ver_content_type version))
           then reject_document "PARSER_SOURCE_INTEGRITY_INVALID" else Ok tt) ;;
     lift (validate_source source parsed_input) ;;
     mret parsed_input).

(** ** Publishing *)

Abbreviation txn := (Effects.io (@txn E)).

Definition this_parser (r : ParserVersionRecord) : bool :=
  str_eqb (parser_name r) PARSER_NAME && str_eqb (parser_version r) PARSER_VERSION &&
  str_eqb (normalization_version r) NORMALIZATION_VERSION.
Definition find_parser (d : doc_db) : option uuid := prs_id <$> head (select this_parser (parser_versions d)).

Definition new_parser (id : uuid) (now : instant) : ParserVersionRecord := {|
  prs_id := id; parser_name := PARSER_NAME; parser_version := PARSER_VERSION;
  normalization_version := NORMALIZATION_VERSION; prs_created_at := now |}.

(** [_parser_version] *)
Definition parser_version_of (now : instant) : txn uuid :=
  existing ← ask o find_parser;
  match existing with
  | Some id => mret id
  | None =>
      id ← inside (look_outside (new_id o));
      io_try (change o (insert_parser_version (new_parser id now)) ;; mret id)
        (fun c => bool_decide (c = IntegrityError))
        (fun error =>
           existing ← ask o find_parser;
           match existing with
           | Some id => mret id
           | None => lift (Raise error)
           end)
  end.

Definition location_row (id version_id : uuid) (item : ParsedRequirement) : SourceLocationRecord := {|
  loc_id := id; loc_version_id := version_id; location_kind := u "line_range";
  loc_heading := heading item; loc_line_start := Some (line_start item);
  loc_line_end := Some (line_end item); loc_page_start := None; loc_page_end := None;
  loc_json_pointer := None |}.
Definition section_row (id version_id location_id : uuid) (item : ParsedRequirement) :
    DocumentSectionRecord := {|
  sec_id := id; sec_version_id := version_id; sec_location_id := location_id;
  sec_ordinal := pr_ordinal item; section_key := requirement_id item;
  sec_text := normalized_text item; sec_sha256 := pr_sha256 item |}.

(** The loop over the requirements.  [work] is what the session has not
    flushed yet: a section is written with the next location. *)
Fixpoint publish (version_id : uuid) (items : list ParsedRequirement)
    (work : list (doc_db -> result doc_db)) (section_ids : list uuid) : txn (list uuid) :=
  match items with
  | [] => change o (flush work) ;; mret section_ids
  | item :: items =>
      location_id ← inside (look_outside (new_id o));
      change o (flush (work ++ [insert_location (location_row location_id version_id item)])) ;;
      section_id ← inside (look_outside (new_id o));
      publish version_id items [insert_section (section_row section_id version_id location_id item)]
        (section_ids ++ [section_id])
  end.

Definition new_indexing_job (id project_id version_id : uuid) (now : instant) : IndexingJobRecord := {|
  ij_id := id; ij_project_id := project_id; ij_document_version_id := version_id;
  ij_chunking_version := DEFAULT_CHUNKING_VERSION; ij_embedding_model := DEFAULT_EMBEDDING_MODEL;
  ij_embedding_version := DEFAULT_EMBEDDING_VERSION; ij_lease := queued_lease now |}.

(** [.values(state="accepted", completed_at=now)] and
    [.values(completed_at=finished)] *)
Definition accept_lease (now : instant) (l : lease) : lease := {|
  l_state := JOB_ACCEPTED; created_at := created_at l; claim_token := claim_token l;
  claimed_at := claimed_at l; claim_expires_at := claim_expires_at l;
  completed_at := Some now; failure_code := failure_code l |}.
Definition complete_lease (finished : instant) (l : lease) : lease := {|
  l_state := l_state l; created_at := created_at l; claim_token := claim_token l;
  claimed_at := claimed_at l; claim_expires_at := claim_expires_at l;
  completed_at := Some finished; failure_code := failure_code l |}.

(** The update of the claimed job that returns its identifier. *)
Definition update_job (p : ParserJobRecord -> bool) (f : lease -> lease) (d : doc_db) :
    result (option uuid * doc_db) :=
  updated ← update_rows p f (parser_jobs (queues d));
  Ok (pj_id <$> head updated.1, with_queues d (with_parser_jobs (queues d) updated.2)).

Definition pending_parser (r : ParserVersionRecord) : bool :=
  str_eqb (parser_name r) (u "quarantine-pending") && str_eqb (parser_version r) (u "v1") &&
  str_eqb (normalization_version r) (u "pending").

Definition first_row {R} (p : R -> bool) (m : gmap uuid R) : option R := head (select p m).

(** The version was parsed by no parser and has no evidence yet. *)
Definition check_unparsed (version : DocumentVersionRecord) : txn unit :=
  pending ← ask o (fun d => parser_versions d !! ver_parser_version_id version);
  lift (match pending with
        | Some r => if pending_parser r then Ok tt else reject_document "PARSER_VERSION_NOT_PENDING"
        | None => reject_document "PARSER_VERSION_NOT_PENDING"
        end) ;;
  location ← ask o (fun d => first_row (fun r => (loc_version_id r =? ver_id version)%N) (locations d));
  lift (if has location then reject_document "PARSER_EVIDENCE_ALREADY_EXISTS" else Ok tt) ;;
  section ← ask o (fun d => first_row (fun r => (sec_version_id r =? ver_id version)%N) (sections d));
  lift (if has section then reject_document "PARSER_EVIDENCE_ALREADY_EXISTS" else Ok tt).

(** The transaction of [promote]. *)
Definition promotion (claim : ClaimedParserJob) (document : ClaimedDocument)
    (requirements : list ParsedRequirement) (now : instant) : txn PromotedParserEvidence :=
  predicate ← lift (claim_predicate claim now JOB_CLAIMED);
  accepted ← sql o (update_job predicate (accept_lease now));
  lift (raise_if (is_null accepted) ParserJobClaimRejected "Parser job claim is not active") ;;
  rows ← ask o (source_query (cp_document_intake_id claim));
  source ← lift (source_of rows);
  let '(_, source_document, version) := source in
  lift (validate_source source document) ;;
  check_unparsed version ;;
  parser_id ← parser_version_of now;
  section_ids ← publish (ver_id version) requirements [set_parser_version (ver_id version) parser_id] [];
  indexing_job_id ← inside (look_outside (new_id o));
  change o (insert_indexing_job
    (new_indexing_job indexing_job_id (doc_project_id source_document) (ver_id version) now)) ;;
  finished ← inside (look_outside (clock_at o));
  completed ← (if finished <? now then mret None
               else predicate ← lift (claim_predicate claim finished JOB_ACCEPTED);
                    sql o (update_job predicate (complete_lease finished)));
  lift (raise_if (is_null completed) ParserJobClaimRejected "Parser job claim expired during promotion") ;;
  mret {| pe_document_version_id := ver_id version; pe_parser_version_id := parser_id;
          pe_section_ids := section_ids; pe_indexing_job_id := indexing_job_id |}.

(** What [promote] checks before it opens the transaction. *)
Definition check_requirements (document : ClaimedDocument) (requirements : list ParsedRequirement) :
    result unit :=
  (if (0 <? zlen (raw document)) && (zlen (raw document) <=? MAX_PROMOTED_TEXT_BYTES) then Ok tt
   else reject_document "PARSER_SOURCE_INTEGRITY_INVALID") ;;
  expected ← parse_markdown_or_text (cd_document_type document) (raw document);
  (if bool_decide (requirements = []) || negb (bool_decide (requirements = expected))
   then reject_document "PARSER_EVIDENCE_INVALID" else Ok tt) ;;
  if existsb (fun item => match requirement_id item with
                          | Some id => 255 <? zlen id
                          | None => false
                          end) requirements
  then reject_document "PARSER_EVIDENCE_INVALID" else Ok tt.

(** [SqlAlchemyParserEvidencePromotion.promote] *)
Definition promote (claim : ClaimedParserJob) (document : ClaimedDocument)
    (requirements : list ParsedRequirement) : io PromotedParserEvidence :=
  lift (check_requirements document requirements) ;;
  now ← look_outside (clock_at o);
  evidence_unavailable (begin o (promotion claim document requirements now)).
End operations.
End promotion.

(** * Properties *)

#[export] Instance section_row_total : Total section_row_le.
Proof. intros a b. unfold section_row_le. lia. Qed.
#[export] Instance section_row_trans : Transitive section_row_le.
Proof. intros a b c. unfold section_row_le. lia. Qed.

Lemma select_all {A} (p : A -> bool) l : (forall x, x ∈ l -> p x = true) -> List.filter p l = l.
Proof.
  induction l as [|x l IH]; intros Hp; [done|]. cbn. rewrite (Hp x) by left. f_equal. apply IH. intros y Hy.
  apply Hp. by right.
Qed.

Section promotion.
Context {rt : PyRuntime} {tc : TextCase} {E : Type} (o : outside).

(** ** Nothing of a failed promotion stays *)

Lemma isolated_publish version items : forall work ids,
  isolated (E := E) o (publish o version items work ids).
Proof. induction items as [|item items IH]; intros work ids; cbn [publish]; isolated_step. apply IH. Qed.

Lemma isolated_promotion claim document requirements now :
  isolated (E := E) o (promotion o claim document requirements now).
Proof.
  unfold promotion, check_unparsed, parser_version_of. isolated_step; try apply isolated_publish; isolated_step.
Qed.

Lemma failed_promotion_only_others claim document requirements (w : world E) e w' :
  promote o claim document requirements w = (Raise e, w') -> only_others o (tables w) (tables w').
Proof.
  unfold promote. intros [[_ ->]%lift_Raise|(a & w1 & [_ ->]%lift_Ok & H)]%io_bind_Raise; [apply rtc_refl|].
  erewrite io_step in H by reflexivity. unfold evidence_unavailable, io_try in H.
  destruct (begin o _ _) as [[r|e'] w1] eqn:Hb; [done|].
  apply begin_Raise in Hb; [|apply isolated_promotion]. cbn [tables] in Hb.
  destruct (is_SQLAlchemyError _); injection H as _ <-; done.
Qed.

(** C20: All or nothing: a promotion that raises, at whatever statement and
    for whatever reason, leaves the tables as the other sessions made them. *)
Theorem failed_promotion_leaves_nothing claim document requirements (w : world E) e w' :
  promote o claim document requirements w = (Raise e, w') -> only_others o (tables w) (tables w').
Proof. apply failed_promotion_only_others. Qed.

(** ** What a promotion writes *)

Context (quiet : forall n d, others_at o n d = d).

(** The invariant of the tables that a promotion relies on. *)
Record wf_sources (d : doc_db) : Prop := {
  ws_jobs : wf_rows (parser_jobs (queues d));
  ws_documents : keyed doc_id (documents (queues d));
  ws_parsers : keyed prs_id (parser_versions d);
  ws_versions : keyed ver_id (versions d);
}.

(** The rows of the requirements, under their identifiers: each item's
    location and then its section. *)
Inductive writes_evidence (version : uuid) : list ParsedRequirement -> list (uuid * uuid) -> doc_db -> doc_db -> Prop :=
  | no_evidence d : writes_evidence version [] [] d d
  | more_evidence item items location section ids d d1 d2 d' :
      insert_location (location_row location version item) d = Ok d1 ->
      insert_section (section_row section version location item) d1 = Ok d2 ->
      writes_evidence version items ids d2 d' ->
      writes_evidence version (item :: items) ((location, section) :: ids) d d'.

Lemma flush_snoc work f d d' : flush (work ++ [f]) d = Ok d' ->
  exists d1, flush work d = Ok d1 /\ f d1 = Ok d'.
Proof.
  revert d. induction work as [|g work IH]; intros d H; cbn in H |- *.
  - destruct (f d) as [d1|e] eqn:Hd; [|discriminate H]. injection H as <-. eauto.
  - destruct (g d) as [d1|e]; [|discriminate H]. by apply IH.
Qed.

Lemma publish_Ok version items : forall work ids s out s',
  publish o version items work ids s = (Ok out, s') ->
  exists d1 rows, flush work (tables s.1) = Ok d1 /\ out = ids ++ rows.*2 /\
    writes_evidence version items rows d1 (tables (E := E) s'.1).
Proof using quiet.
  induction items as [|item items IH]; intros work ids s out s' H; cbn [publish] in H.
  - apply io_bind_Ok in H as (? & s1 & Hc%change_Ok & H); [|done]. injection H as <- <-.
    exists (tables s1.1), []. rewrite app_nil_r. split_and!; [done|done|constructor].
  - apply io_bind_Ok in H as (location & s1 & Hl%look_Ok & H).
    apply io_bind_Ok in H as (? & s2 & Hc%change_Ok & H); [|done].
    apply io_bind_Ok in H as (section & s3 & Hs%look_Ok & H).
    apply IH in H as (d2 & rows & Hf & -> & Hw). cbn [flush] in Hf. rewrite Hs in Hf.
    rewrite Hl in Hc. apply flush_snoc in Hc as (d1 & Hd1 & Hloc).
    destruct (insert_section _ (tables s2.1)) as [d2'|e] eqn:Hsec; [|discriminate Hf]. injection Hf as <-.
    exists d1, ((location, section) :: rows). rewrite <- app_assoc. split_and!; [done|done|by econstructor].
Qed.

Definition set_parser_job (d : doc_db) (r : ParserJobRecord) : doc_db :=
  with_queues d (with_parser_jobs (queues d) (<[pj_id r := r]> (parser_jobs (queues d)))).

Lemma update_job_Ok p f d id d' x : wf_rows (parser_jobs (queues d)) -> (forall r, p r = true -> pj_id r = x) ->
  update_job p f d = Ok (Some id, d') ->
  exists r, parser_jobs (queues d) !! x = Some r /\ pj_id r = x /\ p r = true /\
    d' = set_parser_job d (with_lease r (f (pj_lease r))) /\ wf_rows (parser_jobs (queues d')).
Proof using.
  intros Hwf Hx H. unfold update_job in H. ok_inv. destruct x0 as [rows m]. cbn [fst snd] in *.
  pose proof (update_rows_Ok _ _ _ _ _ Hwf H0) as [Hwf' _].
  apply (update_at _ _ _ _ _ x Hwf) in H0; [|done].
  destruct H0 as [[-> _]|(r & Hr & Hp & -> & _ & ->)]; [discriminate|].
  exists r. pose proof (Hx _ Hp) as <-. split_and!; try done.
Qed.

Lemma parser_version_of_Ok now s id s' : keyed prs_id (parser_versions (tables s.1)) ->
  parser_version_of o now s = (Ok id, s') ->
  exists r, parser_versions (tables (E := E) s'.1) !! id = Some r /\ this_parser r = true /\
    tables s'.1 = with_parser_versions (tables s.1) (parser_versions (tables s'.1)) /\
    (parser_versions (tables s'.1) = parser_versions (tables s.1) \/
     parser_versions (tables s.1) !! id = None /\
     parser_versions (tables s'.1) = <[id := new_parser id now]> (parser_versions (tables s.1))).
Proof using quiet.
  intros Hk H. unfold parser_version_of in H.
  assert (forall d id, keyed prs_id (parser_versions d) -> find_parser d = Some id ->
    exists r, parser_versions d !! id = Some r /\ this_parser r = true) as Hfind.
  { clear. intros d id Hk H. unfold find_parser in H. destruct (head _) as [r|] eqn:Hr; [|done]. injection H as <-.
    apply head_Some_elem_of, elem_of_select in Hr as (Hp & i & Hi). exists r. split; [|done]. by rewrite (Hk _ _ Hi). }
  apply io_bind_Ok in H as (found & s1 & [-> Ht]%ask_Ok & H); [|done].
  destruct (find_parser (tables s.1)) as [x|] eqn:Hf.
  { injection H as <- <-. rewrite Ht. apply Hfind in Hf as (r & Hr & Hp); [|done]. exists r.
    split_and!; [done|done| |by left]. by destruct (tables s.1). }
  apply io_bind_Ok in H as (x & s2 & Hx%look_Ok & H). unfold io_try in H.
  destruct ((change o _ ≫= _) s2) as [[y|err] s3] eqn:Hc.
  - injection H as <- <-. apply io_bind_Ok in Hc as (? & s4 & Hi%change_Ok & [= <- <-]); [|done].
    rewrite Hx, Ht in Hi. unfold insert_parser_version in Hi. ok_inv. exists (new_parser x now).
    bools. rewrite <- Hi. cbn. rewrite lookup_insert_eq. split_and!; [done| |done|].
    + unfold this_parser. cbn [new_parser parser_name parser_version normalization_version]. by rewrite !str_eqb_refl.
    + right. split; [|done]. cbn [new_parser prs_id] in *. by destruct (parser_versions (tables s.1) !! x).
  - destruct (bool_decide _); [|done].
    apply io_bind_Raise in Hc as [Hc%sql_Raise|(? & s4 & _ & [=])]; [|done].
    apply io_bind_Ok in H as (found & s4 & [-> _]%ask_Ok & H); [|done].
    by rewrite Hc, Hx, Ht, Hf in H.
Qed.

(** *** The rows of the evidence *)

(** The section rows of the requirements. *)
Definition section_rows_of (version : uuid) (items : list ParsedRequirement) (ids : list (uuid * uuid)) :
    list DocumentSectionRecord :=
  zip_with (fun item id => section_row id.2 version id.1 item) items ids.

Lemma insert_location_Ok r d d' : insert_location r d = Ok d' ->
  d' = with_locations d (<[loc_id r := r]> (locations d)) /\ locations d !! loc_id r = None.
Proof. intros H. unfold insert_location in H. ok_inv. bools. split; [done|]. by destruct (locations d !! loc_id r). Qed.

Lemma insert_section_Ok r d d' : insert_section r d = Ok d' ->
  d' = with_sections d (<[sec_id r := r]> (sections d)) /\ sections d !! sec_id r = None.
Proof. intros H. unfold insert_section in H. ok_inv. bools. split; [done|]. by destruct (sections d !! sec_id r). Qed.

(** The rows of [ids] are new in [m'], and the others as they were. *)
Definition only_new {R} (ids : list uuid) (m m' : gmap uuid R) : Prop :=
  (forall i, i ∈ ids -> m !! i = None) /\ (forall i, i ∉ ids -> m' !! i = m !! i).

Lemma only_new_cons {R} (i : uuid) (r : R) ids m m' :
  m !! i = None -> only_new ids (<[i := r]> m) m' -> only_new (i :: ids) m m' /\ m' !! i = Some r.
Proof.
  intros Hi [Hnew Hold].
  assert (i ∉ ids) as Hni by (intros Hin; specialize (Hnew i Hin); by rewrite lookup_insert_eq in Hnew).
  split; [split|by rewrite Hold, lookup_insert_eq].
  - intros j [->|Hj]%elem_of_cons; [done|]. specialize (Hnew j Hj). by apply lookup_insert_None in Hnew as [? _].
  - intros j [Hne Hj]%not_elem_of_cons. by rewrite Hold, lookup_insert_ne by done.
Qed.

Lemma writes_evidence_rows version items ids d d' : writes_evidence version items ids d d' ->
  length ids = length items /\
  d' = with_sections (with_locations d (locations d')) (sections d') /\
  only_new ids.*1 (locations d) (locations d') /\ only_new ids.*2 (sections d) (sections d') /\
  (forall p, select p (sections d') ≡ₚ List.filter p (section_rows_of version items ids) ++ select p (sections d)) /\
  Forall2 (fun item id => locations d' !! id.1 = Some (location_row id.1 version item) /\
    sections d' !! id.2 = Some (section_row id.2 version id.1 item)) items ids.
Proof.
  induction 1 as [d|item items location section ids d d1 d2 d' Hl Hs _ (Hlen & Hd & Hloc & Hsec & Hp & Hrows)].
  { split; [done|]. split; [by destruct d|]. split; [|split; [|by split]];
      (split; [by intros i ?%not_elem_of_nil|done]). }
  apply insert_location_Ok in Hl as [-> Hln]. apply insert_section_Ok in Hs as [-> Hsn]. cbn in *.
  apply only_new_cons in Hloc as [Hloc Hl]; [|done]. apply only_new_cons in Hsec as [Hsec Hs]; [|done].
  split; [by rewrite Hlen|]. split; [done|]. split; [done|]. split; [done|]. split; [|by constructor].
  intros p. rewrite Hp. rewrite (select_insert sec_id p (sections d) (section_row section version location item)) by done.
  destruct (p _); cbn; [|done]. by rewrite Permutation_middle.
Qed.

Lemma section_rows_lookup version items ids k n r : length ids = length items ->
  pr_ordinal <$> items = seqZ k (zlen items) ->
  section_rows_of version items ids !! n = Some r -> sec_ordinal r = k + Z.of_nat n /\ sec_version_id r = version.
Proof.
  intros Hlen Hord (item & id & -> & Hi & Hid)%lookup_zip_with_Some. cbn. split; [|done].
  assert ((pr_ordinal <$> items) !! n = Some (pr_ordinal item)) as H by by rewrite list_lookup_fmap, Hi.
  rewrite Hord in H. by apply lookup_seqZ in H as [-> _].
Qed.

(** Reading the sections of a version that had none. *)
Lemma sections_read_back version items ids (l : list DocumentSectionRecord) : length ids = length items ->
  pr_ordinal <$> items = seqZ 0 (zlen items) -> l ≡ₚ section_rows_of version items ids ->
  merge_sort section_row_le l = section_rows_of version items ids.
Proof.
  intros Hlen Hord Hp. set (rows := section_rows_of version items ids) in *.
  assert (forall n r, rows !! n = Some r -> sec_ordinal r = Z.of_nat n) as Hn.
  { intros n r Hr. by apply section_rows_lookup with (k := 0) in Hr as [-> _]. }
  apply (StronglySorted_unique_strong section_row_le).
  - intros x y Hx Hy Hxy Hyx. rewrite (merge_sort_Permutation section_row_le l), Hp in Hx.
    apply list_elem_of_lookup in Hx as [n Hx], Hy as [m Hy]. pose proof (Hn _ _ Hx). pose proof (Hn _ _ Hy).
    assert (n = m) as -> by (unfold section_row_le in *; lia). congruence.
  - by apply (StronglySorted_merge_sort section_row_le).
  - clear Hp. assert (forall i j r s, rows !! i = Some r -> rows !! j = Some s -> (i < j)%nat -> section_row_le r s) as Hle.
    { intros i j r s' Hi Hj Hij. left. rewrite (Hn _ _ Hi), (Hn _ _ Hj). lia. }
    clear Hn. clearbody rows. induction rows as [|r rows IH]; constructor.
    + apply IH. intros i j x y Hi Hj Hij. apply (Hle (S i) (S j)); [done|done|lia].
    + apply Forall_lookup. intros i y Hi. by apply (Hle 0%nat (S i)); [..|lia].
  - by rewrite merge_sort_Permutation.
Qed.

Lemma select_nil_inv {R} (p : R -> bool) (m : gmap uuid R) : select p m = [] ->
  forall i r, m !! i = Some r -> p r <> true.
Proof. intros H i r Hr Hp. apply (not_elem_of_nil r). rewrite <- H. apply elem_of_select. eauto. Qed.

Lemma check_unparsed_Ok version s a s' : check_unparsed o version s = (Ok a, s') ->
  tables (E := E) s'.1 = tables s.1 /\
  select (fun r => (loc_version_id r =? ver_id version)%N) (locations (tables s.1)) = [] /\
  select (fun r => (sec_version_id r =? ver_id version)%N) (sections (tables s.1)) = [].
Proof using quiet.
  intros H. unfold check_unparsed, first_row in H.
  apply io_bind_Ok in H as (pending & s1 & [_ H1]%ask_Ok & H); [|done].
  apply io_bind_Ok in H as (? & s2 & [_ ->]%lift_Ok & H).
  apply io_bind_Ok in H as (location & s2 & [-> H2]%ask_Ok & H); [|done].
  apply io_bind_Ok in H as (? & s3 & [Hl ->]%lift_Ok & H).
  apply io_bind_Ok in H as (section & s3 & [-> H3]%ask_Ok & H); [|done].
  apply lift_Ok in H as [H ->]. split; [congruence|]. split.
  - rewrite <- H1. clear H. by destruct (select _ _).
  - rewrite <- H1, <- H2. clear Hl. by destruct (select _ _).
Qed.

(** What a promotion has done to the tables. *)
Record published (claim : ClaimedParserJob) (document : ClaimedDocument) (requirements : list ParsedRequirement)
    (evidence : PromotedParserEvidence) (intake : DocumentIntakeRecord) (source : DocumentRecord)
    (version : DocumentVersionRecord) (ids : list (uuid * uuid)) (d d' : doc_db) : Prop := {
  (** the document is the one the claim names, and its bytes are intact *)
  pb_source : source_query (cp_document_intake_id claim) d = Some (intake, source, version) /\
    source_intact (intake, source, version) document = true /\
    pe_document_version_id evidence = ver_id version;
  (** the job was held by the claim and is accepted *)
  pb_job : exists row row', parser_jobs (queues d) !! cp_job_id claim = Some row /\
    l_state (pj_lease row) = JOB_CLAIMED /\ claim_token (pj_lease row) = Some (cp_claim_token claim) /\
    (exists now finished, row' = with_lease row (complete_lease finished (accept_lease now (pj_lease row)))) /\
    parser_jobs (queues d') = <[cp_job_id claim := row']> (parser_jobs (queues d));
  (** the version names its parser *)
  pb_parser : exists r, parser_versions d' !! pe_parser_version_id evidence = Some r /\ this_parser r = true;
  (** which was known, or is the only new one *)
  pb_parsers : let id := pe_parser_version_id evidence in
    parser_versions d' = parser_versions d \/
    parser_versions d !! id = None /\ exists now, parser_versions d' = <[id := new_parser id now]> (parser_versions d);
  pb_version : versions d' =
    <[ver_id version := with_parser (pe_parser_version_id evidence) version]> (versions d);
  (** the sections of the version are the requirements, in order, each with
      its location *)
  pb_sections : section_rows d' (doc_project_id source) (ver_id version) =
    section_rows_of (ver_id version) requirements ids;
  pb_evidence : Forall2 (fun item id =>
    locations d' !! id.1 = Some (location_row id.1 (ver_id version) item) /\
    sections d' !! id.2 = Some (section_row id.2 (ver_id version) id.1 item)) requirements ids;
  pb_section_ids : pe_section_ids evidence = ids.*2;
  (** and it had no location and no section; those of other versions are as
      they were *)
  pb_unparsed : (forall i r, locations d !! i = Some r -> loc_version_id r <> ver_id version) /\
    (forall i r, sections d !! i = Some r -> sec_version_id r <> ver_id version);
  pb_locations : only_new ids.*1 (locations d) (locations d');
  pb_other_sections : only_new ids.*2 (sections d) (sections d');
  (** one indexing job waits for the version *)
  pb_indexing : exists now, indexing_jobs (queues d') = <[pe_indexing_job_id evidence :=
    new_indexing_job (pe_indexing_job_id evidence) (doc_project_id source) (ver_id version) now]>
      (indexing_jobs (queues d));
  pb_new_job : indexing_jobs (queues d) !! pe_indexing_job_id evidence = None;
  (** nothing else has changed *)
  pb_rest : documents (queues d') = documents (queues d) /\ intakes (queues d') = intakes (queues d) /\
    parser_history (queues d') = parser_history (queues d) /\
    indexing_history (queues d') = indexing_history (queues d) /\
    project_ids d' = project_ids d /\ chunk_rows d' = chunk_rows d /\
    embedding_rows d' = embedding_rows d /\ link_rows d' = link_rows d /\
    trace_rows d' = trace_rows d /\ candidate_rows d' = candidate_rows d /\
    citation_rows d' = citation_rows d /\ run_rows d' = run_rows d /\
    finding_rows d' = finding_rows d /\ feedback_rows d' = feedback_rows d;
}.

Lemma source_query_Some intake_id d intake source version : keyed doc_id (documents (queues d)) ->
  keyed ver_id (versions d) -> source_query intake_id d = Some (intake, source, version) ->
  versions d !! ver_id version = Some version /\
  documents (queues d) !! ver_document_id version = Some source.
Proof.
  intros Hd Hv H. unfold source_query in H.
  apply bind_Some in H as (intake' & _ & H). apply bind_Some in H as (source' & Hs & H).
  apply bind_Some in H as (version' & Hver & H). destruct (_ && _) eqn:Hc; [|done].
  injection H as -> -> ->. bools. apply bind_Some in Hs as (i & _ & Hi). apply bind_Some in Hver as (j & _ & Hj).
  rewrite H0, (Hd _ _ Hi), (Hv _ _ Hj). done.
Qed.

Lemma lease_runs_true claim claimed expires now state r : lease_runs claim claimed expires now state r = true ->
  pj_id r = cp_job_id claim /\ l_state (pj_lease r) = state /\ claim_token (pj_lease r) = Some (cp_claim_token claim).
Proof.
  intros H. unfold lease_runs in H. bools. split_and!; [done|by apply lease_in_true|].
  unfold is_uuid in *. destruct (claim_token _) as [t|]; [|done]. f_equal. by apply N.eqb_eq.
Qed.

Lemma claim_predicate_Ok claim now state p r : claim_predicate claim now state = Ok p -> p r = true ->
  pj_id r = cp_job_id claim /\ l_state (pj_lease r) = state /\ claim_token (pj_lease r) = Some (cp_claim_token claim).
Proof. intros H Hp. unfold claim_predicate in H. ok_inv. by apply lease_runs_true in Hp. Qed.

Lemma validate_source_Ok source document a : validate_source source document = Ok a ->
  source_intact source document = true.
Proof.
  intros H. unfold validate_source, reject_document in H. destruct (parsable _); [|discriminate H].
  by destruct (source_intact source document).
Qed.

Lemma wf_sources_frame d d' : wf_sources d -> queues d' = queues d -> parser_versions d' = parser_versions d ->
  versions d' = versions d -> wf_sources d'.
Proof. intros [] Hq Hp Hv. split; by rewrite ?Hq, ?Hp, ?Hv. Qed.

(** The accepting update, the checks and the parser version. *)
Lemma insert_indexing_job_Ok r d d' : insert_indexing_job r d = Ok d' ->
  d' = with_queues d (with_indexing_jobs (queues d) (<[ij_id r := r]> (indexing_jobs (queues d)))) /\
  indexing_jobs (queues d) !! ij_id r = None.
Proof.
  intros H. unfold insert_indexing_job in H. ok_inv. bools. split; [done|].
  by destruct (indexing_jobs (queues d) !! ij_id r).
Qed.

Lemma set_parser_version_Ok version_id parser_id d d' : set_parser_version version_id parser_id d = Ok d' ->
  exists v, versions d !! version_id = Some v /\
    d' = with_versions d (<[version_id := with_parser parser_id v]> (versions d)).
Proof.
  intros H. unfold set_parser_version in H. destruct (versions d !! version_id) as [v|]; [|done].
  ok_inv. by exists v.
Qed.

Lemma promotion_Ok claim document requirements now s evidence s' :
  wf_sources (tables s.1) -> pr_ordinal <$> requirements = seqZ 0 (zlen requirements) ->
  promotion o claim document requirements now s = (Ok evidence, s') ->
  exists intake source version ids,
    published claim document requirements evidence intake source version ids (tables s.1) (tables (E := E) s'.1).
Proof using quiet.
  intros Hwf Hord H. unfold promotion in H.
  apply io_bind_Ok in H as (p & s1 & [Hp ->]%lift_Ok & H).
  apply io_bind_Ok in H as (accepted & s1 & Ha%sql_Ok & H); [|done].
  apply io_bind_Ok in H as (? & s2 & [Hacc ->]%lift_Ok & H). destruct accepted as [id|]; [|done]. clear Hacc.
  apply (update_job_Ok _ _ _ _ _ (cp_job_id claim)) in Ha as (row & Hrow & Hid & Hpr & Hd1 & Hwf1);
    [|apply Hwf|intros r Hr; by eapply claim_predicate_Ok].
  eapply claim_predicate_Ok in Hpr as (_ & Hstate & Htoken); [|exact Hp].
  apply io_bind_Ok in H as (rows & s2 & [-> Ht2]%ask_Ok & H); [|done].
  apply io_bind_Ok in H as (source & s3 & [Hsource ->]%lift_Ok & H).
  destruct (source_query _ (tables s1.1)) as [[[intake doc] version]|] eqn:Hq; [|done]. injection Hsource as <-.
  apply io_bind_Ok in H as (? & s3 & [Hvalid%validate_source_Ok ->]%lift_Ok & H).
  apply io_bind_Ok in H as (? & s3 & (Ht3 & Hnoloc & Hnone)%check_unparsed_Ok & H).
  apply io_bind_Ok in H as (parser_id & s4 & Hpar & H).
  apply parser_version_of_Ok in Hpar as (parser & Hparser & Hthis & Ht4 & Hparsers); [|rewrite Ht3, Ht2, Hd1; apply Hwf].
  apply io_bind_Ok in H as (section_ids & s5 & (d5 & ids & Hflush & -> & Hev)%publish_Ok & H).
  apply io_bind_Ok in H as (job & s6 & Ht6%look_Ok & H).
  apply io_bind_Ok in H as (? & s7 & Ht7%change_Ok & H); [|done]. apply insert_indexing_job_Ok in Ht7 as [Ht7 Hnew].
  apply io_bind_Ok in H as (finished & s8 & Ht8%look_Ok & H).
  apply io_bind_Ok in H as (completed & s9 & Hc & H).
  apply io_bind_Ok in H as (? & s10 & [Hcomp ->]%lift_Ok & [= <- <-]). destruct completed as [id'|]; [|done]. clear Hcomp.
  destruct (finished <? now); [discriminate Hc|].
  apply io_bind_Ok in Hc as (p' & s10 & [Hp' ->]%lift_Ok & Hc%sql_Ok); [|done].
  assert (exists v, versions (tables s4.1) !! ver_id version = Some v /\
    d5 = with_versions (tables s4.1) (<[ver_id version := with_parser parser_id v]> (versions (tables s4.1))))
    as (v & Hv & ->).
  { cbn [flush] in Hflush. destruct (set_parser_version _ _ _) as [d'|] eqn:Hset; [|done]. injection Hflush as <-.
    by apply set_parser_version_Ok in Hset. }
  clear Hflush. apply writes_evidence_rows in Hev as (Hlen & Ht5 & Hnewloc & Hnewsec & Hsel & Hloc).
  rewrite Hd1 in Hq. change (source_query _ (set_parser_job ?d _)) with (source_query (cp_document_intake_id claim) d) in Hq.
  destruct (source_query_Some _ _ _ _ _ (ws_documents _ Hwf) (ws_versions _ Hwf) Hq) as [Hver Hdoc].
  set (P := parser_versions (tables s4.1)) in *. set (L := locations (tables s5.1)) in *.
  set (S := sections (tables s5.1)) in *. clearbody P L S.
  rewrite Ht3, Ht2, Hd1 in Ht4, Hparsers. cbn in Hparsers.
  rewrite Ht4 in Hv, Hsel, Ht5, Hnewloc, Hnewsec. cbn in Hv, Hsel, Ht5, Hnewloc, Hnewsec. rewrite Hver in Hv. injection Hv as <-.
  rewrite Ht2, Hd1 in Hnone, Hnoloc. cbn in Hnone, Hnoloc. rewrite Ht6, Ht5 in Ht7, Hnew. cbn in Ht7, Hnew. rewrite Ht8, Ht7 in Hc.
  apply (update_job_Ok _ _ _ _ _ (cp_job_id claim)) in Hc as (row2 & Hrow2 & Hid2 & Hpr2 & Hd9 & _);
    [|rewrite Hd1 in Hwf1; exact Hwf1|intros r Hr; by eapply claim_predicate_Ok].
  cbn in Hrow2. rewrite Hid, lookup_insert_eq in Hrow2. injection Hrow2 as <-. 
  exists intake, doc, version, ids. rewrite Hd9. split.
  - split_and!; done.
  - exists row, (with_lease row (complete_lease finished (accept_lease now (pj_lease row)))).
    split_and!; [done|done|done|by exists now, finished|cbn; by rewrite Hid, insert_insert_eq].
  - by exists parser.
  - destruct Hparsers as [->|[? ->]]; [by left|right; eauto].
  - reflexivity.
  - unfold section_rows. cbn. rewrite lookup_insert_eq. cbn. rewrite Hdoc, N.eqb_refl.
    apply sections_read_back; [done|done|]. rewrite Hsel, Hnone, app_nil_r.
    rewrite select_all; [done|]. intros r [n Hr]%list_elem_of_lookup.
    apply section_rows_lookup with (k := 0) in Hr as [_ ->]; [|done|done]. apply N.eqb_refl.
  - done.
  - done.
  - split; intros i r Hr Hv; [apply (select_nil_inv _ _ Hnoloc i r Hr)|apply (select_nil_inv _ _ Hnone i r Hr)]; by apply N.eqb_eq.
  - done.
  - done.
  - exists now. reflexivity.
  - exact Hnew.
  - by split_and!.
Qed.

Lemma section_texts version items : forall ids, length items = length ids ->
  section_text <$> (section_of_row <$> section_rows_of version items ids) = normalized_text <$> items.
Proof.
  induction items as [|item items IH]; intros [|id ids] Hl; try done.
  cbn in Hl |- *. f_equal. apply IH. by injection Hl.
Qed.

Lemma check_requirements_Ok document requirements a : check_requirements document requirements = Ok a ->
  requirements <> [] /\ parse_markdown_or_text (cd_document_type document) (raw document) = Ok requirements.
Proof.
  intros H. unfold check_requirements, reject_document in H. destruct (_ && _); [|discriminate H].
  rewrite bind_ok in H. destruct (parse_markdown_or_text _ _) as [expected|]; [|discriminate H].
  rewrite bind_ok in H. destruct (_ || _) eqn:Hc; [discriminate H|]. bools. by subst.
Qed.

Lemma promote_published claim document requirements (w : world E) evidence w' : wf_sources (tables w) ->
  promote o claim document requirements w = (Ok evidence, w') ->
  requirements <> [] /\ parse_markdown_or_text (cd_document_type document) (raw document) = Ok requirements /\
  exists intake source version ids,
    published claim document requirements evidence intake source version ids (tables w) (tables w').
Proof using quiet.
  intros Hwf H. unfold promote in H. apply io_bind_Ok in H as (? & w1 & [[Hne Hparse]%check_requirements_Ok ->]%lift_Ok & H).
  split; [done|]. split; [done|]. erewrite io_step in H by reflexivity. unfold evidence_unavailable, io_try in H.
  destruct (begin o _ _) as [[r|err] w2] eqn:Hb; [|by destruct (is_SQLAlchemyError _)]. injection H as -> ->.
  apply begin_Ok in Hb as (s & Hb & ->). apply promotion_Ok in Hb; [done|done|by eapply parsed_ordinals].
Qed.

(** C21: A promotion that returns, when no other session is at work and the
    rows of the tables stand under their keys, has checked that the
    requirements are those of the document's bytes, and that the bytes are the
    ones the version's digest names; it has accepted the job that the claim
    held, given the version its parser (a known one, or the one it inserted),
    written one new section and location per requirement for a version that
    had none, queued one indexing job, and changed no other row of any table.
    The indexing service then reads exactly the parsed texts, in order. *)
Theorem promotion_publishes claim document requirements (w : world E) evidence w' : wf_sources (tables w) ->
  promote o claim document requirements w = (Ok evidence, w') ->
  parse_markdown_or_text (cd_document_type document) (raw document) = Ok requirements /\
  exists intake source version ids,
    published claim document requirements evidence intake source version ids (tables w) (tables w') /\
    sha256_hex (raw document) = ver_content_sha256 version /\
    section_text <$> (section_of_row <$> section_rows (tables w') (doc_project_id source) (ver_id version)) =
      normalized_text <$> requirements.
Proof using quiet.
  intros Hwf H. apply promote_published in H as (_ & Hparse & intake & source & version & ids & Hp); [|done].
  split; [done|]. exists intake, source, version, ids. split; [done|]. split.
  - destruct (pb_source _ _ _ _ _ _ _ _ _ _ Hp) as (_ & Hi & _). unfold source_intact in Hi. bools. rewrite H1 in H0. by injection H0.
  - rewrite (pb_sections _ _ _ _ _ _ _ _ _ _ Hp). pose proof (pb_evidence _ _ _ _ _ _ _ _ _ _ Hp) as Hl.
    apply section_texts. by apply Forall2_length in Hl.
Qed.
End promotion.

(** ** A concrete promotion *)

Definition promotion_raw : bytes :=
  u "# Orders" ++ [10%N] ++ u "REQ-1: Pay." ++ [10%N] ++ u "- req-2 - Ship  it.".
Definition promotion_claim : ClaimedParserJob := {|
  cp_job_id := 4%N; cp_document_intake_id := 3%N; cp_claim_token := 9%N;
  cp_claimed_at := at_utc 5; cp_claim_expires_at := at_utc 65 |}.
Definition promotion_job : ParserJobRecord := {|
  pj_id := 4%N; document_intake_id := 3%N;
  pj_lease := {| l_state := JOB_CLAIMED; created_at := 0; claim_token := Some 9%N; claimed_at := Some 5;
                 claim_expires_at := Some 65; completed_at := None; failure_code := None |} |}.
Definition promotion_digest : pystr := Eval vm_compute in sha256_hex promotion_raw.
Definition promotion_tables : doc_db := {|
  queues := {|
    documents := {[ 1%N := {| doc_id := 1%N; doc_project_id := 1%N; document_type := u "markdown";
                              display_name := u "orders"; doc_created_at := 0 |} ]};
    intakes := {[ 3%N := {| in_id := 3%N; in_project_id := 1%N; in_document_id := Some 1%N;
                            in_document_version_id := Some 2%N; in_state := QUARANTINED;
                            quarantine_key := Some (u "k"); original_filename := u "orders.md";
                            declared_content_type := u "text/markdown"; in_byte_size := zlen promotion_raw;
                            in_content_sha256 := Some promotion_digest; rejection_code := None;
                            in_created_at := 0 |} ]};
    parser_jobs := {[ 4%N := promotion_job ]}; indexing_jobs := ∅; parser_history := []; indexing_history := [] |};
  project_ids := {[ 1%N ]};
  parser_versions := {[ 7%N := {| prs_id := 7%N; parser_name := u "quarantine-pending"; parser_version := u "v1";
                                  normalization_version := u "pending"; prs_created_at := 0 |} ]};
  versions := {[ 2%N := {| ver_id := 2%N; ver_document_id := 1%N; ver_parser_version_id := 7%N; version_number := 1;
                           ver_content_sha256 := promotion_digest; ver_byte_size := zlen promotion_raw;
                           ver_content_type := u "text/markdown"; ver_created_at := 0 |} ]};
  locations := ∅; sections := ∅; chunk_rows := ∅; embedding_rows := ∅; link_rows := ∅;
  trace_rows := ∅; candidate_rows := ∅; citation_rows := ∅;
  run_rows := ∅; finding_rows := ∅; feedback_rows := ∅ |}.
Definition promotion_outside : outside := {|
  new_id n := (100 + n)%N; clock_at _ := 10; fails _ := false; others_at _ d := d |}.
(** The same, but the last statement fails. *)
Definition failing_outside : outside := {|
  new_id n := (100 + n)%N; clock_at _ := 10; fails n := (n =? 31)%N; others_at _ d := d |}.
Definition promotion_world : world unit := {|
  tables := promotion_tables; ticks := 0; provider := tt; embed_log := [] |}.
Definition promotion_document : ClaimedDocument := {| cd_document_type := u "markdown"; raw := promotion_raw |}.
Definition promotion_items : list ParsedRequirement := Eval vm_compute in
  match parse_markdown_or_text (u "markdown") promotion_raw with Ok items => items | Raise _ => [] end.
Definition promote_sample (o : outside) : io (world unit) PromotedParserEvidence :=
  promote o promotion_claim promotion_document promotion_items.

Lemma promotion_tables_wf : wf_sources promotion_tables.
Proof.
  split.
  - intros i r Hr. cbn in Hr. apply lookup_singleton_Some in Hr as [<- <-]. by split.
  - intros i r Hr. cbn in Hr. by apply lookup_singleton_Some in Hr as [<- <-].
  - intros i r Hr. cbn in Hr. by apply lookup_singleton_Some in Hr as [<- <-].
  - intros i r Hr. cbn in Hr. by apply lookup_singleton_Some in Hr as [<- <-].
Qed.

Definition sample_evidence : PromotedParserEvidence := {|
  pe_document_version_id := 2; pe_parser_version_id := 113; pe_section_ids := [119%N; 123%N];
  pe_indexing_job_id := 126 |}.
Definition promoted_world : world unit := (promote_sample promotion_outside promotion_world).2.
Lemma sample_promoted :
  promote_sample promotion_outside promotion_world = (Ok sample_evidence, promoted_world).
Proof. vm_compute. reflexivity. Qed.

Lemma promotion_publishes_witness :
  wf_sources (tables promotion_world) /\
  promote_sample promotion_outside promotion_world = (Ok sample_evidence, promoted_world) /\
  (parse_markdown_or_text (u "markdown") promotion_raw = Ok promotion_items /\
   exists intake source version ids,
     published promotion_claim promotion_document promotion_items sample_evidence intake source version ids
       (tables promotion_world) (tables promoted_world) /\
     sha256_hex promotion_raw = ver_content_sha256 version /\
     section_text <$> (section_of_row <$> section_rows (tables promoted_world) (doc_project_id source) (ver_id version)) =
       normalized_text <$> promotion_items).
Proof.
  split; [exact promotion_tables_wf|]. split; [exact sample_promoted|].
  exact (promotion_publishes promotion_outside (fun n d => eq_refl) promotion_claim promotion_document
           promotion_items promotion_world sample_evidence promoted_world promotion_tables_wf sample_promoted).
Defined.

Definition failed_world : world unit := (promote_sample failing_outside promotion_world).2.
Lemma sample_failed : promote_sample failing_outside promotion_world =
  (Raise (Exn ParserEvidenceUnavailable ""), failed_world).
Proof. vm_compute. reflexivity. Qed.

Lemma failed_promotion_leaves_nothing_witness :
  promote_sample failing_outside promotion_world = (Raise (Exn ParserEvidenceUnavailable ""), failed_world) /\
  only_others failing_outside (tables promotion_world) (tables failed_world).
Proof.
  split; [exact sample_failed|].
  exact (failed_promotion_leaves_nothing failing_outside promotion_claim promotion_document promotion_items
           promotion_world (Exn ParserEvidenceUnavailable "") failed_world sample_failed).
Defined.
