(* ===== verification/ParserRuntime.v ===== *)
(** * The parser worker's runtime ([parser_worker.py])

    Before a worker reads untrusted bytes it checks the environment it runs
    in: its role, that it has no network, that it is not root, and that no
    credential is present, except the temporary ones of its own Lambda role. *)
From S2P Require Import Prelude PyText Json.

Definition PARSER_WORKER_ROLE : pystr := u "restricted-parser".
Definition LAMBDA_EXECUTION_ROLE_CREDENTIAL_VARIABLES : list pystr :=
  [u "AWS_ACCESS_KEY_ID"; u "AWS_SECRET_ACCESS_KEY"; u "AWS_SESSION_TOKEN"].
Definition FORBIDDEN_CREDENTIAL_ENVIRONMENT_VARIABLES : list pystr :=
  [u "OPENAI_API_KEY"; u "ANTHROPIC_API_KEY"] ++ LAMBDA_EXECUTION_ROLE_CREDENTIAL_VARIABLES.
Definition TEMPORARY_ACCESS_KEY_PREFIX : pystr := u "ASIA".

Abbreviation environment := (list (pystr * pystr)).

(** [environment.get(name, "")] *)
Definition getenv (name : string) (env : environment) : pystr := default [] (dict_get (u name) env).
(** [bool(environment.get(name))] *)
Definition present (env : environment) (name : pystr) : bool :=
  match dict_get name env with Some (_ :: _) => true | _ => false end.

Record ParserWorkerRuntime := { runtime_role : pystr; runtime_network : pystr; runtime_uid : option Z }.

Section runtime.
Context {rt : PyRuntime}.

Definition lambda_parser_credentials_allowed (env : environment) : bool :=
  if bool_decide (strip (getenv "AWS_LAMBDA_FUNCTION_NAME" env) = []) then false
  else if negb (starts_with TEMPORARY_ACCESS_KEY_PREFIX (getenv "AWS_ACCESS_KEY_ID" env)) ||
          bool_decide (getenv "AWS_SECRET_ACCESS_KEY" env = []) ||
          bool_decide (strip (getenv "AWS_SESSION_TOKEN" env) = []) then false
  else if bool_decide (dict_get (u "PARSER_WORKER_ROLE") env <> Some PARSER_WORKER_ROLE) ||
          bool_decide (dict_get (u "PARSER_WORKER_NETWORK") env <> Some (u "none")) then false
  else negb (existsb (present env)
         (List.filter (fun name => negb (bool_decide (name ∈ LAMBDA_EXECUTION_ROLE_CREDENTIAL_VARIABLES)))
            FORBIDDEN_CREDENTIAL_ENVIRONMENT_VARIABLES)).

Definition misconfigured {A} : string -> result A := raise ParserWorkerConfigurationError.

(** [ParserWorkerRuntime.from_environment] *)
Definition from_environment (env : environment) (uid : option Z) : result ParserWorkerRuntime :=
  let forbidden := List.filter (present env) FORBIDDEN_CREDENTIAL_ENVIRONMENT_VARIABLES in
  (if negb (bool_decide (forbidden = [])) &&
      negb (forallb (fun name => bool_decide (name ∈ LAMBDA_EXECUTION_ROLE_CREDENTIAL_VARIABLES)) forbidden &&
            lambda_parser_credentials_allowed env)
   then misconfigured "Parser worker received forbidden credential environment variables" else Ok tt) ;;
  let runtime := {| runtime_role := getenv "PARSER_WORKER_ROLE" env;
                    runtime_network := getenv "PARSER_WORKER_NETWORK" env; runtime_uid := uid |} in
  (if negb (str_eqb (runtime_role runtime) PARSER_WORKER_ROLE)
   then misconfigured "Parser worker role is not restricted" else Ok tt) ;;
  (if negb (str_eqb (runtime_network runtime) (u "none"))
   then misconfigured "Parser worker network is not denied" else Ok tt) ;;
  (if bool_decide (runtime_uid runtime = Some 0)
   then misconfigured "Parser worker must not run as root" else Ok tt) ;;
  Ok runtime.

(** [verify_runtime] with the environment and the user of the process. *)
Definition verify_runtime (env : environment) (uid : option Z) : result unit :=
  from_environment env uid ;; Ok tt.
End runtime.

(** ** What an accepted runtime is *)

Section runtime.
Context {rt : PyRuntime}.

(** No key of a model provider, and the credentials of a Lambda function's own
    role: a temporary access key, a secret and a session token. *)
Record lambda_role (env : environment) : Prop := {
  lr_no_model_keys : present env (u "OPENAI_API_KEY") = false /\ present env (u "ANTHROPIC_API_KEY") = false;
  lr_function : strip (getenv "AWS_LAMBDA_FUNCTION_NAME" env) <> [];
  lr_temporary : TEMPORARY_ACCESS_KEY_PREFIX `prefix_of` getenv "AWS_ACCESS_KEY_ID" env;
  lr_secret : getenv "AWS_SECRET_ACCESS_KEY" env <> [];
  lr_token : strip (getenv "AWS_SESSION_TOKEN" env) <> [];
}.

Record isolated_runtime (env : environment) (uid : option Z) : Prop := {
  ir_role : getenv "PARSER_WORKER_ROLE" env = PARSER_WORKER_ROLE;
  ir_network : getenv "PARSER_WORKER_NETWORK" env = u "none";
  ir_user : uid <> Some 0;
  ir_credentials :
    (forall name, name ∈ FORBIDDEN_CREDENTIAL_ENVIRONMENT_VARIABLES -> present env name = false) \/ lambda_role env;
}.

Lemma getenv_some name env v : v <> [] -> getenv name env = v <-> dict_get (u name) env = Some v.
Proof. intros Hv. unfold getenv. destruct (dict_get (u name) env); cbn; split; congruence. Qed.

Lemma lambda_allowed_iff env : getenv "PARSER_WORKER_ROLE" env = PARSER_WORKER_ROLE ->
  getenv "PARSER_WORKER_NETWORK" env = u "none" ->
  lambda_parser_credentials_allowed env = true <-> lambda_role env.
Proof.
  intros Hr Hn. apply getenv_some in Hr; [|done]. apply getenv_some in Hn; [|done].
  unfold lambda_parser_credentials_allowed. rewrite Hr, Hn.
  rewrite (bool_decide_false (Some PARSER_WORKER_ROLE <> Some PARSER_WORKER_ROLE)) by (intros Hc; by apply Hc).
  rewrite (bool_decide_false (Some (u "none") <> Some (u "none"))) by (intros Hc; by apply Hc).
  change (List.filter _ _) with [u "OPENAI_API_KEY"; u "ANTHROPIC_API_KEY"]. cbn [existsb orb].
  case_bool_decide as H1; [split; [done|]; by intros []|].
  destruct (negb (starts_with _ _) || _ || _) eqn:H2.
  - split; [done|]. intros [_ _ Ht Hs Hk]. apply starts_with_prefix in Ht. rewrite Ht in H2. cbn in H2.
    by rewrite !bool_decide_false in H2.
  - bools. rewrite negb_true_iff, orb_false_r, orb_false_iff. split; [|by intros []].
    intros [Ho Ha]. split; try done. by apply starts_with_prefix.
Qed.

Lemma no_credentials env :
  List.filter (present env) FORBIDDEN_CREDENTIAL_ENVIRONMENT_VARIABLES = [] <->
  forall name, name ∈ FORBIDDEN_CREDENTIAL_ENVIRONMENT_VARIABLES -> present env name = false.
Proof.
  split.
  - intros H name Hn. destruct (present env name) eqn:Hp; [|done].
    assert (In name (List.filter (present env) FORBIDDEN_CREDENTIAL_ENVIRONMENT_VARIABLES)) as Hin.
    { apply List.filter_In. split; [by apply list_elem_of_In|done]. }
    by rewrite H in Hin.
  - intros H. destruct (List.filter _ _) as [|x l] eqn:E; [done|]. exfalso.
    assert (In x (List.filter (present env) FORBIDDEN_CREDENTIAL_ENVIRONMENT_VARIABLES)) as Hin by (rewrite E; by left).
    apply List.filter_In in Hin as [Hin Hp]. apply list_elem_of_In, H in Hin. congruence.
Qed.

(** The forbidden variables that are present, under the check's exception. *)
Lemma only_role_credentials env :
  forallb (fun name => bool_decide (name ∈ LAMBDA_EXECUTION_ROLE_CREDENTIAL_VARIABLES))
    (List.filter (present env) FORBIDDEN_CREDENTIAL_ENVIRONMENT_VARIABLES) = true <->
  present env (u "OPENAI_API_KEY") = false /\ present env (u "ANTHROPIC_API_KEY") = false.
Proof.
  unfold FORBIDDEN_CREDENTIAL_ENVIRONMENT_VARIABLES. cbn [app List.filter].
  destruct (present env (u "OPENAI_API_KEY")), (present env (u "ANTHROPIC_API_KEY")); cbn [forallb];
    try (split; [done|by intros []]).
  split; [done|intros _]. apply forallb_forall. intros name [Hin _]%List.filter_In.
  by apply bool_decide_eq_true, list_elem_of_In.
Qed.

(** The worker starts exactly in an isolated runtime: the restricted role,
    no network, not root, and no credential but, next to no model key, the
    temporary ones of its own Lambda role.  Anything else raises the
    configuration error. *)
Theorem verify_runtime_iff env uid :
  match verify_runtime env uid with
  | Ok _ => isolated_runtime env uid
  | Raise e => exn_cls e = ParserWorkerConfigurationError /\ ~ isolated_runtime env uid
  end.
Proof.
  unfold verify_runtime, from_environment, misconfigured, raise. cbv zeta.
  set (role := getenv "PARSER_WORKER_ROLE" env). set (network := getenv "PARSER_WORKER_NETWORK" env).
  destruct (negb (bool_decide _) && _) eqn:Hc; cbn [runtime_role runtime_network runtime_uid].
  { split; [done|]. intros [Hr Hn _ Hcred]. bools. destruct Hcred as [Hnone%no_credentials|Hl]; [done|].
    rewrite andb_false_iff in H0. pose proof (lr_no_model_keys _ Hl) as Hk%only_role_credentials.
    apply (lambda_allowed_iff env Hr Hn) in Hl. destruct H0; congruence. }
  rewrite bind_ok. destruct (str_eqb role PARSER_WORKER_ROLE) eqn:Hr.
  2:{ split; [done|]. intros [Hr' _ _ _]. by apply str_eqb_neq in Hr. }
  cbn [negb]. rewrite bind_ok. destruct (str_eqb network (u "none")) eqn:Hn.
  2:{ split; [done|]. intros [_ Hn' _ _]. by apply str_eqb_neq in Hn. }
  cbn [negb]. rewrite bind_ok. destruct (decide (uid = Some 0)) as [Hu|Hu].
  { rewrite (bool_decide_true _ Hu). split; [done|]. by intros [_ _ Hu' _]. }
  rewrite (bool_decide_false _ Hu), bind_ok.
  apply str_eqb_eq in Hr, Hn. split; [done..|].
  destruct (decide (List.filter (present env) FORBIDDEN_CREDENTIAL_ENVIRONMENT_VARIABLES = [])) as [He|He];
    [left; by apply no_credentials|right].
  rewrite (bool_decide_false _ He) in Hc. cbn in Hc. apply negb_false_iff, andb_true_iff in Hc as [_ Ha].
  by apply lambda_allowed_iff in Ha.
Qed.
End runtime.
