(* ===== verification/ParserPromotionWorker.v ===== *)
(** * The parser worker's turn ([parser_promotion_worker.py])

    [run_once]: verify the runtime, claim one Markdown or text job, read,
    parse and promote its document, or reject or fail the job; every claimed
    job ends with one line in the outcome log.  The log and the local variable
    [requirement_count] are the state next to the tables.

    ** Properties

    Without other sessions at work: what a turn leaves in the tables and in
    the outcome log, whatever it meets and whether it returns or raises. *)
From S2P Require Import Prelude PyText Json Digest GeneratedTests Effects Database JobTables ParserJobClaims.
From S2P Require Import DocumentTables Indexing IndexingStore Sessions Regex MarkdownParser ParserPromotion.
From S2P Require Import JsonFacts AsciiRuntime DatabaseFacts Leases JobQueues IndexingJobClaims.
From S2P Require Import IndexingStoreSpec.

Definition MARKDOWN_TEXT_DOCUMENT_TYPES : list pystr := [u "markdown"; u "text"].

Inductive ParserOutcome := OUT_ACCEPTED | OUT_REJECTED | OUT_FAILED | OUT_NOT_PUBLISHED.
#[export] Instance outcome_eq_dec : EqDecision ParserOutcome.
Proof. solve_decision. Defined.

Inductive ParserOutcomeReason :=
  | NONE
  | DOCUMENT_TYPE_UNSUPPORTED | TEXT_ENCODING_INVALID | TEXT_CODEPOINT_LIMIT | LINE_COUNT_LIMIT
  | LINE_SIZE_LIMIT | SOURCE_PROVENANCE_INVALID | SOURCE_INTEGRITY_INVALID | EVIDENCE_INVALID
  | VERSION_NOT_PENDING | EVIDENCE_ALREADY_EXISTS | REJECTED_UNCLASSIFIED
  | SOURCE_UNAVAILABLE | DATABASE_UNAVAILABLE | WORKER_EXCEPTION | OUTCOME_NOT_STORED
  | CLAIM_NOT_ACTIVE.
#[export] Instance reason_eq_dec : EqDecision ParserOutcomeReason.
Proof. solve_decision. Defined.

Definition reason_value (r : ParserOutcomeReason) : string :=
  match r with
  | NONE => "none"
  | DOCUMENT_TYPE_UNSUPPORTED => "PARSER_DOCUMENT_TYPE_UNSUPPORTED"
  | TEXT_ENCODING_INVALID => "PARSER_TEXT_ENCODING_INVALID"
  | TEXT_CODEPOINT_LIMIT => "PARSER_TEXT_CODEPOINT_LIMIT"
  | LINE_COUNT_LIMIT => "PARSER_LINE_COUNT_LIMIT"
  | LINE_SIZE_LIMIT => "PARSER_LINE_SIZE_LIMIT"
  | SOURCE_PROVENANCE_INVALID => "PARSER_SOURCE_PROVENANCE_INVALID"
  | SOURCE_INTEGRITY_INVALID => "PARSER_SOURCE_INTEGRITY_INVALID"
  | EVIDENCE_INVALID => "PARSER_EVIDENCE_INVALID"
  | VERSION_NOT_PENDING => "PARSER_VERSION_NOT_PENDING"
  | EVIDENCE_ALREADY_EXISTS => "PARSER_EVIDENCE_ALREADY_EXISTS"
  | REJECTED_UNCLASSIFIED => "PARSER_REJECTED_UNCLASSIFIED"
  | SOURCE_UNAVAILABLE => "PARSER_SOURCE_UNAVAILABLE"
  | DATABASE_UNAVAILABLE => "PARSER_DATABASE_UNAVAILABLE"
  | WORKER_EXCEPTION => "PARSER_WORKER_EXCEPTION"
  | OUTCOME_NOT_STORED => "PARSER_OUTCOME_NOT_STORED"
  | CLAIM_NOT_ACTIVE => "PARSER_CLAIM_NOT_ACTIVE"
  end.

Definition all_reasons : list ParserOutcomeReason :=
  [NONE; DOCUMENT_TYPE_UNSUPPORTED; TEXT_ENCODING_INVALID; TEXT_CODEPOINT_LIMIT; LINE_COUNT_LIMIT;
   LINE_SIZE_LIMIT; SOURCE_PROVENANCE_INVALID; SOURCE_INTEGRITY_INVALID; EVIDENCE_INVALID;
   VERSION_NOT_PENDING; EVIDENCE_ALREADY_EXISTS; REJECTED_UNCLASSIFIED; SOURCE_UNAVAILABLE;
   DATABASE_UNAVAILABLE; WORKER_EXCEPTION; OUTCOME_NOT_STORED; CLAIM_NOT_ACTIVE].

(** [_REJECTION_REASONS] *)
Definition REJECTION_REASONS : list (string * ParserOutcomeReason) :=
  (fun r => (reason_value r, r)) <$>
    List.filter (fun r => negb (bool_decide (r ∈ [NONE; REJECTED_UNCLASSIFIED; SOURCE_UNAVAILABLE;
      DATABASE_UNAVAILABLE; WORKER_EXCEPTION; OUTCOME_NOT_STORED; CLAIM_NOT_ACTIVE]))) all_reasons.

(** [_rejection_reason] *)
Definition rejection_reason (error : exn) : ParserOutcomeReason :=
  match find (fun kv => bool_decide (kv.1 = exn_msg error)) REJECTION_REASONS with
  | Some (_, r) => r
  | None => REJECTED_UNCLASSIFIED
  end.

Definition outcome_value (o : ParserOutcome) : string :=
  match o with
  | OUT_ACCEPTED => "accepted" | OUT_REJECTED => "rejected" | OUT_FAILED => "failed"
  | OUT_NOT_PUBLISHED => "not_published"
  end.

(** A line of the outcome log. *)
Record outcome_line := {
  line_outcome : ParserOutcome;
  line_reason : ParserOutcomeReason;
  line_sections : Z;
  line_requirements : option Z;
  line_exc_type : pystr;
}.

(** Its level is WARNING, and its text. *)
Definition line_warns (l : outcome_line) : bool := bool_decide (line_outcome l = OUT_FAILED).
Definition line_text (l : outcome_line) : pystr :=
  u "event=parser.outcome outcome=" ++ u (outcome_value (line_outcome l)) ++ u " reason=" ++
  u (reason_value (line_reason l)) ++ u " sections=" ++ str_of_Z (line_sections l) ++
  u " requirements=" ++ match line_requirements l with Some n => str_of_Z n | None => u "none" end ++
  u " exc_type=" ++ line_exc_type l.

(** The state of a turn next to the tables. *)
Record turn := { requirement_count : option Z; outcome_log : list outcome_line }.

Inductive ParserPromotionRunState := IDLE | ACCEPTED | REJECTED | FAILED | NOT_PUBLISHED.
#[export] Instance promotion_run_state_eq_dec : EqDecision ParserPromotionRunState.
Proof. solve_decision. Defined.

Record ParserPromotionRun := {
  pr_state : ParserPromotionRunState;
  pr_job_id : option uuid;
  pr_document_version_id : option uuid;
  pr_section_count : Z;
}.
Definition bare_promotion_run (state : ParserPromotionRunState) (job : option uuid) : ParserPromotionRun := {|
  pr_state := state; pr_job_id := job; pr_document_version_id := None; pr_section_count := 0 |}.

(** [_EXCEPTION_CLASS_NAME] *)
Definition name_start (x : N) : bool := ascii_letter x || (x =? 95)%N.
Definition name_char (x : N) : bool := name_start x || ascii_digit x.
Definition class_name_pattern : re := Seq (Class name_start) (Rep 0 (Some 63%nat) true name_char).

Section worker.
Context {rt : PyRuntime} {tc : TextCase}.
(** [type(error).__name__] *)
Context (type_name : exn -> pystr).

(** [_exception_class_name] *)
Definition exception_class_name (error : exn) : pystr :=
  if re_fullmatch class_name_pattern (type_name error) then type_name error else u "unknown".

Context (o : outside) (storage : pystr -> N -> result (bytes * pystr)).
Context (queue_others : N -> job_db -> job_db) (runtime_verifier : N -> result unit).
Abbreviation io := (io (world turn)).

(** The claims of [create_markdown_text_promotion_worker]. *)
Definition promotion_claims : parser_claims := {|
  pc_duration := seconds 60; pc_intake_id := None;
  pc_document_types := Some MARKDOWN_TEXT_DOCUMENT_TYPES |}.

Definition set_turn (t : turn) (w : world turn) : world turn := {|
  tables := tables w; ticks := ticks w; provider := t; embed_log := embed_log w |}.
Definition count_requirements (n : option Z) : io unit := fun w =>
  (Ok tt, set_turn {| requirement_count := n; outcome_log := outcome_log (provider w) |} w).

(** [log_parser_outcome] with the requirements counted so far *)
Definition log_parser_outcome (outcome : ParserOutcome) (reason : ParserOutcomeReason)
    (section_count : Z) (exc_type : pystr) : io unit := fun w =>
  let t := provider w in
  (Ok tt, set_turn {| requirement_count := requirement_count t;
    outcome_log := outcome_log t ++
      [{| line_outcome := outcome; line_reason := reason; line_sections := section_count;
          line_requirements := requirement_count t; line_exc_type := exc_type |}] |} w).

Definition claim_next : io (option ClaimedParserJob) :=
  now ← look_outside (clock_at o);
  token ← look_outside (new_id o);
  others ← look_outside queue_others;
  fault ← look_outside (fails o);
  on_queues (ParserJobClaims.claim_next promotion_claims fault (at_utc now) token others).

(** [self._claims.reject(claim)] and [self._claims.fail(claim)] *)
Definition reject_or_fail (rejected : bool) (claim : ClaimedParserJob) : io unit :=
  commits o ;;
  now ← look_outside (clock_at o);
  fault ← look_outside (fails o);
  on_queues ((if rejected then ParserJobClaims.reject else ParserJobClaims.fail)
               promotion_claims fault (at_utc now) claim).

(** [_terminalize] *)
Definition terminalize (claim : ClaimedParserJob) (rejected : bool) (reason : ParserOutcomeReason)
    (exc_type : pystr) : io ParserPromotionRun :=
  io_try
    (reject_or_fail rejected claim ;;
     log_parser_outcome (if rejected then OUT_REJECTED else OUT_FAILED) reason 0 exc_type ;;
     mret (bare_promotion_run (if rejected then REJECTED else FAILED) (Some (cp_job_id claim))))
    (fun _ => true)
    (fun error =>
       if bool_decide (exn_cls error = ParserJobClaimRejected) then
         log_parser_outcome OUT_NOT_PUBLISHED CLAIM_NOT_ACTIVE 0 (u "none") ;;
         mret (bare_promotion_run NOT_PUBLISHED (Some (cp_job_id claim)))
       else if bool_decide (exn_cls error = ParserJobQueueUnavailable) then
         log_parser_outcome OUT_FAILED OUTCOME_NOT_STORED 0 (u "ParserJobQueueUnavailable") ;;
         lift (Raise error)
       else lift (Raise error)).

(** The body of the try statement. *)
Definition promote_claim (claim : ClaimedParserJob) : io ParserPromotionRun :=
  document ← read o storage claim;
  requirements ← lift (parse_markdown_or_text (cd_document_type document) (raw document));
  count_requirements (Some (zlen requirements)) ;;
  evidence ← promote o claim document requirements;
  log_parser_outcome OUT_ACCEPTED NONE (zlen (pe_section_ids evidence)) (u "none") ;;
  mret {| pr_state := ACCEPTED; pr_job_id := Some (cp_job_id claim);
          pr_document_version_id := Some (pe_document_version_id evidence);
          pr_section_count := zlen (pe_section_ids evidence) |}.

Definition run_once : io ParserPromotionRun :=
  verified ← look_outside runtime_verifier;
  lift verified ;;
  claim ← claim_next;
  match claim with
  | None => mret (bare_promotion_run IDLE None)
  | Some claim =>
      count_requirements None ;;
      io_try (promote_claim claim) (fun _ => true) (fun error =>
        match exn_cls error with
        | DocumentParseRejected => terminalize claim true (rejection_reason error) (u "none")
        | DocumentIntakeUnavailable =>
            terminalize claim false SOURCE_UNAVAILABLE (exception_class_name error)
        | ParserEvidenceUnavailable =>
            terminalize claim false DATABASE_UNAVAILABLE (exception_class_name error)
        | ParserJobClaimRejected =>
            log_parser_outcome OUT_NOT_PUBLISHED CLAIM_NOT_ACTIVE 0 (u "none") ;;
            mret (bare_promotion_run NOT_PUBLISHED (Some (cp_job_id claim)))
        | _ =>
            terminalize claim false WORKER_EXCEPTION (exception_class_name error) ;;
            lift (Raise error)
        end)
  end.
End worker.

(** * Properties *)

(** ** The claims of the queue *)

Definition set_parser (d : job_db) (r : ParserJobRecord) : job_db :=
  with_parser_jobs d (<[pj_id r := r]> (parser_jobs d)).

Lemma same_parser_jobs d : with_parser_jobs d (parser_jobs d) = d.
Proof. by destruct d. Qed.

Lemma wf_set_parser d r : wf_rows (parser_jobs d) -> row_check r = true -> wf_rows (parser_jobs (set_parser d r)).
Proof.
  intros Hwf Hc i s Hi. cbn in Hi. apply lookup_insert_Some in Hi as [[<- <-]|[_ Hi]]; [done|by apply Hwf].
Qed.

Section queue.
Context (c : parser_claims).

(** A claim changes nothing, or claims one queued job; its times are aware. *)
Definition parser_claim_effect (d d' : job_db) (claim : option ClaimedParserJob) : Prop :=
  match claim with
  | None => d' = d
  | Some claim => exists row l, parser_jobs d !! cp_job_id claim = Some row /\
      l_state (pj_lease row) = JOB_QUEUED /\ l_state l = JOB_CLAIMED /\
      document_intake_id row = cp_document_intake_id claim /\
      d' = set_parser d (with_lease row l) /\
      exists at_ deadline, cp_claimed_at claim = at_utc at_ /\ cp_claim_expires_at claim = at_utc deadline
  end.

Lemma parser_claim_update_effect candidate token now deadline d claim d' : wf_rows (parser_jobs d) ->
  ParserJobClaims.claim_update candidate token now deadline d = Ok (claim, d') ->
  wf_rows (parser_jobs d') /\ parser_claim_effect d d' claim.
Proof.
  intros Hwf H. unfold ParserJobClaims.claim_update in H. ok_inv. destruct x as [rows m]. cbn [fst snd] in *.
  apply (update_at _ _ _ _ _ (default 0%N candidate) Hwf) in H0; [|intros r ?; bools; by apply is_uuid_true].
  destruct H0 as [[-> ->]|(row & Hr & Hpr & -> & Hc & ->)]; cbn in H1; injection H1 as <-.
  - by rewrite same_parser_jobs.
  - bools. destruct (Hwf _ _ Hr) as [Hid _]. cbn in Hid. rewrite <- Hid. split; [exact (wf_set_parser d _ Hwf Hc)|].
    exists row, (claim_lease token now deadline (pj_lease row)). cbn. rewrite Hid.
    split_and!; [done|by apply lease_in_true|done|done|by rewrite <- Hid|by eexists _, _].
Qed.

Lemma parser_claim_next_effect fault clock token others d r d' : (forall d, others d = d) -> wf_rows (parser_jobs d) ->
  ParserJobClaims.claim_next c fault clock token others d = (r, d') ->
  match r with Ok claim => wf_rows (parser_jobs d') /\ parser_claim_effect d d' claim | Raise _ => d' = d end.
Proof.
  intros Ho Hwf H. unfold ParserJobClaims.claim_next in H. rewrite io_bind_eq in H. unfold lift at 1 in H.
  destruct (utc clock) as [now|e]; [|by injection H as <- <-]. apply io_try_raise_run in H.
  rewrite io_bind_eq in H. destruct (query false _ d) as [[candidate|e] d1] eqn:Q; [|discriminate Q].
  apply query_Ok in Q as (_ & _ & ->). rewrite (io_step _ _ _ tt d) in H by (unfold interleave; by rewrite Ho).
  destruct H as [(claim & -> & [_ H]%statement_Ok)|(e & e' & -> & [-> _]%statement_Raise)]; [|done].
  by apply parser_claim_update_effect in H.
Qed.

(** A job that was claimed has ended. *)
Definition job_ended (claim : ClaimedParserJob) (state : JobState) (code : pystr) (d d' : job_db) : Prop :=
  exists row now, parser_jobs d !! cp_job_id claim = Some row /\ l_state (pj_lease row) = JOB_CLAIMED /\
    claim_token (pj_lease row) = Some (cp_claim_token claim) /\
    d' = set_parser d (with_lease row (finish_lease state now (Some code) (pj_lease row))).

Lemma parser_finish_update_effect claim claimed expires now state code d row d' : wf_rows (parser_jobs d) ->
  ParserJobClaims.finish_update c claim claimed expires now state code d = Ok (row, d') ->
  match row with Some _ => job_ended claim state code d d' | None => d' = d end.
Proof.
  intros Hwf H. unfold ParserJobClaims.finish_update in H. ok_inv. destruct x as [rows m]. cbn [fst snd] in *.
  apply (update_at _ _ _ _ _ (cp_job_id claim) Hwf) in H0; [|intros s ?; by bools].
  destruct H0 as [[-> ->]|(s & Hs & Hp & -> & Hc & ->)]; cbn; [by apply same_parser_jobs|]. bools.
  match goal with H : holds_lease _ _ _ _ _ = true |- _ => apply holds_lease_true in H as (? & ? & _) end.
  exists s, now. split_and!; [done..|]. unfold set_parser. cbn.
  by match goal with H : pj_id s = _ |- _ => rewrite H end.
Qed.

Lemma finish_update_raises claim claimed expires now state code d e :
  ParserJobClaims.finish_update c claim claimed expires now state code d = Raise e ->
  is_SQLAlchemyError (exn_cls e) = true.
Proof.
  unfold ParserJobClaims.finish_update, update_rows, raise_if, raise.
  match goal with |- context [if ?b then _ else _] => destruct b end; [by intros [= <-]|discriminate].
Qed.

(** Ending a claim changes nothing, or ends the job the claim holds. *)
Lemma parser_finish_effect fault now claim state code d r d' : wf_rows (parser_jobs d) ->
  (exists at_ deadline, cp_claimed_at claim = at_utc at_ /\ cp_claim_expires_at claim = at_utc deadline) ->
  ParserJobClaims.finish c fault (at_utc now) claim state code d = (r, d') ->
  match r with
  | Ok _ => job_ended claim state code d d'
  | Raise e => d' = d /\ (exn_cls e = ParserJobClaimRejected \/ exn_cls e = ParserJobQueueUnavailable)
  end.
Proof.
  intros Hwf (at_ & deadline & Hat & Hdl) H. unfold ParserJobClaims.finish in H.
  erewrite io_step in H by (apply lift_run; reflexivity). rewrite Hat, Hdl in H.
  unfold parser_unavailable, io_try in H. erewrite io_step in H by (apply lift_run; reflexivity).
  erewrite io_step in H by (apply lift_run; reflexivity).
  destruct ((statement fault _ ≫= _) d) as [[a|e] d1] eqn:Hs.
  - injection H as <- <-. apply io_bind_Ok in Hs as (row & d2 & [_ Hu]%statement_Ok & Hrow).
    apply parser_finish_update_effect in Hu; [|done]. destruct row as [row|]; [|discriminate Hrow]. by injection Hrow as _ <-.
  - assert (d1 = d /\ (exn_cls e = ParserJobClaimRejected \/ is_SQLAlchemyError (exn_cls e) = true)) as [-> He].
    { apply io_bind_Raise in Hs as [[-> [->|Hf]]%statement_Raise|(row & d2 & [_ Hu]%statement_Ok & Hrow)].
      - split; [done|by right].
      - split; [done|right]. by eapply finish_update_raises.
      - apply parser_finish_update_effect in Hu; [|done]. destruct row as [row|]; [discriminate Hrow|].
        injection Hrow as <- <-. split; [done|by left]. }
    destruct (is_SQLAlchemyError (exn_cls e)) eqn:Hsql; injection H as <- <-.
    + split; [done|]. by right.
    + split; [done|]. left. by destruct He.
Qed.
End queue.

Section worker.
Context {rt : PyRuntime} {tc : TextCase} (type_name : exn -> pystr).
Context (o : outside) (storage : pystr -> N -> result (bytes * pystr)).
Context (queue_others : N -> job_db -> job_db) (runtime_verifier : N -> result unit).
Context (quiet : forall n d, others_at o n d = d) (queue_quiet : forall n d, queue_others n d = d).

(** ** Steps that change nothing *)

Definition still {A} (m : io (world turn) A) : Prop := forall w,
  tables (m w).2 = tables w /\ provider (m w).2 = provider w.

Lemma still_bind {A B} (m : io (world turn) A) (f : A -> io (world turn) B) :
  still m -> (forall a, still (f a)) -> still (m ≫= f).
Proof using.
  intros Hm Hf w. destruct (Hm w) as [Ht Hp]. rewrite io_bind_eq. destruct (m w) as [[a|e] w1]; [|done].
  destruct (Hf a w1) as [Ht' Hp']. by rewrite Ht', Hp'.
Qed.
Lemma still_lift {A} (r : result A) : still (lift r).
Proof using. done. Qed.
Lemma still_ret {A} (a : A) : still (mret a).
Proof using. done. Qed.
Lemma still_look {A} (f : N -> A) : still (look_outside f).
Proof using. done. Qed.
Lemma still_try {A} (m : io (world turn) A) handles h :
  still m -> (forall e, still (h e)) -> still (io_try m handles h).
Proof using.
  intros Hm Hh w. destruct (Hm w) as [Ht Hp]. unfold io_try. destruct (m w) as [[a|e] w1]; [done|].
  destruct (handles _); [|done]. destruct (Hh e w1) as [Ht' Hp']. by rewrite Ht', Hp'.
Qed.
Lemma commits_run (w : world turn) : commits o w = (Ok tt, {| tables := tables w; ticks := ticks w + 1;
  provider := provider w; embed_log := embed_log w |}).
Proof using quiet. unfold commits. erewrite io_step by reflexivity. unfold on_tables, with_tables. cbn. by rewrite quiet. Qed.
Lemma still_observes {A} (f : doc_db -> A) : still (observes o f).
Proof using quiet.
  intros w. unfold observes. erewrite io_step by apply commits_run. unfold reads.
  erewrite io_step by reflexivity. unfold on_tables, query, statement. cbn. by destruct (fails o _).
Qed.

Ltac still_step :=
  repeat match goal with
  | |- still (mret _) => apply still_ret
  | |- still (lift _) => apply still_lift
  | |- still (io_raise _ _) => apply still_lift
  | |- still (look_outside _) => apply still_look
  | |- still (observes _ _) => apply still_observes
  | |- still (match ?x with _ => _ end) => destruct x
  | |- still (io_try _ _ _) => apply still_try; intros
  | |- still (_ ≫= _) => apply still_bind; intros
  end.

Lemma still_source claim : still (claimed_source o claim).
Proof using quiet. unfold claimed_source. still_step. Qed.
Lemma still_read claim : still (read o storage claim).
Proof using quiet. unfold read, evidence_unavailable. still_step; try apply still_source; still_step. Qed.

Lemma promote_provider claim document requirements (w : world turn) :
  provider (promote o claim document requirements w).2 = provider w.
Proof using.
  unfold promote. rewrite io_bind_eq. unfold lift at 1. destruct (check_requirements _ _); [|done].
  erewrite io_step by reflexivity. unfold evidence_unavailable, io_try.
  set (w1 := {| tables := _; ticks := _; provider := _; embed_log := _ |}).
  pose proof (begin_provider o (promotion o claim document requirements (clock_at o (ticks w))) w1
    (isolated_promotion o claim document requirements (clock_at o (ticks w)))) as Hp.
  destruct (begin o _ w1) as [[r|e] w2]; [done|]. by destruct (is_SQLAlchemyError _).
Qed.

(** A promotion that raises changes nothing. *)
Lemma promote_Raise claim document requirements (w : world turn) e w' :
  promote o claim document requirements w = (Raise e, w') -> tables w' = tables w.
Proof using quiet.
  intros H. pose proof (failed_promotion_only_others o claim document requirements w e w' H) as Ho.
  by apply only_others_quiet in Ho.
Qed.

(** ** What a turn leaves *)

Abbreviation log_of w := (outcome_log (provider w)).

(** How a claimed job ends, by the line of the outcome log. *)
Inductive ends (claim : ClaimedParserJob) (d : doc_db) :
    outcome_line -> result ParserPromotionRun -> doc_db -> Prop :=
  | ends_accepted document requirements evidence intake source version ids d' :
      published claim document requirements evidence intake source version ids d d' ->
      ends claim d
        {| line_outcome := OUT_ACCEPTED; line_reason := NONE; line_sections := zlen ids;
           line_requirements := Some (zlen requirements); line_exc_type := u "none" |}
        (Ok {| pr_state := ACCEPTED; pr_job_id := Some (cp_job_id claim);
               pr_document_version_id := Some (ver_id version); pr_section_count := zlen ids |}) d'
  | ends_rejected reason counted exc_type q :
      job_ended claim JOB_REJECTED (u "PARSER_DOCUMENT_REJECTED") (queues d) q ->
      ends claim d
        {| line_outcome := OUT_REJECTED; line_reason := reason; line_sections := 0;
           line_requirements := counted; line_exc_type := exc_type |}
        (Ok (bare_promotion_run REJECTED (Some (cp_job_id claim)))) (with_queues d q)
  | ends_failed reason counted exc_type q r :
      job_ended claim JOB_FAILED (u "PARSER_WORKER_FAILED") (queues d) q ->
      r = Ok (bare_promotion_run FAILED (Some (cp_job_id claim))) \/ (exists e, r = Raise e) ->
      ends claim d
        {| line_outcome := OUT_FAILED; line_reason := reason; line_sections := 0;
           line_requirements := counted; line_exc_type := exc_type |} r (with_queues d q)
  | ends_unstored counted exc_type e :
      exn_cls e = ParserJobQueueUnavailable ->
      ends claim d
        {| line_outcome := OUT_FAILED; line_reason := OUTCOME_NOT_STORED; line_sections := 0;
           line_requirements := counted; line_exc_type := exc_type |} (Raise e) d
  | ends_unpublished counted exc_type r :
      r = Ok (bare_promotion_run NOT_PUBLISHED (Some (cp_job_id claim))) \/ (exists e, r = Raise e) ->
      ends claim d
        {| line_outcome := OUT_NOT_PUBLISHED; line_reason := CLAIM_NOT_ACTIVE; line_sections := 0;
           line_requirements := counted; line_exc_type := exc_type |} r d.

(** The worker's own claims have aware times. *)
Definition aware (claim : ClaimedParserJob) : Prop :=
  exists at_ deadline, cp_claimed_at claim = at_utc at_ /\ cp_claim_expires_at claim = at_utc deadline.

Lemma reject_or_fail_effect rejected claim (w : world turn) r w' : aware claim ->
  wf_rows (parser_jobs (queues (tables w))) ->
  reject_or_fail o rejected claim w = (r, w') ->
  provider w' = provider w /\
  match r with
  | Ok _ => exists q, job_ended claim (if rejected then JOB_REJECTED else JOB_FAILED)
      (if rejected then u "PARSER_DOCUMENT_REJECTED" else u "PARSER_WORKER_FAILED") (queues (tables w)) q /\
      tables w' = with_queues (tables w) q
  | Raise e => tables w' = tables w /\
      (exn_cls e = ParserJobClaimRejected \/ exn_cls e = ParserJobQueueUnavailable)
  end.
Proof using quiet.
  intros Ha Hwf H. unfold reject_or_fail in H. erewrite io_step in H by apply commits_run.
  do 2 (erewrite io_step in H by reflexivity). unfold on_queues, on_tables, with_tables in H. cbn in H.
  match type of H with context [(?m (queues (tables w))).1] =>
    destruct (m (queues (tables w))) as [r' q] eqn:Hf end. cbn in H. injection H as <- <-.
  assert (match r' with
    | Ok _ => job_ended claim (if rejected then JOB_REJECTED else JOB_FAILED)
        (if rejected then u "PARSER_DOCUMENT_REJECTED" else u "PARSER_WORKER_FAILED") (queues (tables w)) q
    | Raise e => q = queues (tables w) /\ (exn_cls e = ParserJobClaimRejected \/ exn_cls e = ParserJobQueueUnavailable)
    end) as He by (destruct rejected; unfold ParserJobClaims.reject, ParserJobClaims.fail in Hf; by apply parser_finish_effect in Hf).
  split; [done|]. destruct r' as [a|e]; cbn; [by exists q|]. destruct He as [-> He]. split; [|done]. by destruct (tables w).
Qed.

Lemma terminalize_ends claim rejected reason exc_type (w : world turn) r w' : aware claim ->
  wf_rows (parser_jobs (queues (tables w))) ->
  terminalize o claim rejected reason exc_type w = (r, w') ->
  exists line, log_of w' = log_of w ++ [line] /\
    line_outcome line <> OUT_ACCEPTED /\ (rejected = false -> line_outcome line <> OUT_REJECTED) /\
    (line_exc_type line = exc_type \/ line_exc_type line = u "none" \/
     line_exc_type line = u "ParserJobQueueUnavailable") /\
    ends claim (tables w) line r (tables w').
Proof using quiet.
  intros Ha Hwf H. unfold terminalize, io_try in H.
  destruct ((reject_or_fail _ _ _ ≫= _) w) as [[a|e] w1] eqn:Hb.
  - injection H as <- <-. apply io_bind_Ok in Hb as (x & w2 & Hr & Hb).
    apply reject_or_fail_effect in Hr as (Hp & q & Hended & Ht); [|done..]. cbn in Hb. injection Hb as <- <-.
    cbn. rewrite Hp, Ht. eexists. split; [reflexivity|]. split; [by destruct rejected|].
    split; [by intros ->|]. split; [by left|]. destruct rejected; [by constructor|constructor; auto].
  - apply io_bind_Raise in Hb as [Hr|(x & w2 & _ & Hb)]; [|discriminate Hb].
    apply reject_or_fail_effect in Hr as (Hp & Ht & [He|He]); [| |done..]; rewrite He in H; cbn in H; injection H as <- <-;
      cbn; rewrite Hp, Ht; eexists; (split; [reflexivity|]); (split; [done|]); (split; [done|]); (split; [by auto|]).
    + constructor. by left.
    + by constructor.
Qed.

(** What a turn comes to: nothing was claimed, or one job was, which ended
    with one line in the log. *)
Inductive turn_result (w w' : world turn) (r : result ParserPromotionRun) : Prop :=
  | no_claim :
      tables w' = tables w -> log_of w' = log_of w ->
      r = Ok (bare_promotion_run IDLE None) \/ (exists e, r = Raise e) -> turn_result w w' r
  | one_claim claim q line :
      parser_claim_effect (queues (tables w)) q (Some claim) ->
      ends claim (with_queues (tables w) q) line r (tables w') ->
      log_of w' = log_of w ++ [line] ->
      re_fullmatch class_name_pattern (line_exc_type line) = true ->
      turn_result w w' r.

Lemma class_name_clean error : re_fullmatch class_name_pattern (exception_class_name type_name error) = true.
Proof using. unfold exception_class_name. by destruct (re_fullmatch _ (type_name error)) eqn:H. Qed.

Lemma claim_next_turn (w : world turn) r w' : wf_rows (parser_jobs (queues (tables w))) ->
  claim_next o queue_others w = (r, w') ->
  provider w' = provider w /\
  match r with
  | Ok claim => exists q, tables w' = with_queues (tables w) q /\ wf_rows (parser_jobs q) /\
      parser_claim_effect (queues (tables w)) q claim
  | Raise _ => tables w' = tables w
  end.
Proof using queue_quiet.
  intros Hwf H. unfold claim_next in H. do 4 (erewrite io_step in H by reflexivity).
  unfold on_queues, on_tables, with_tables in H. cbn in H.
  match type of H with context [(?m (queues (tables w))).1] =>
    destruct (m (queues (tables w))) as [r' q] eqn:Hc end. cbn in H. injection H as <- <-.
  apply parser_claim_next_effect in Hc; [|intros; apply queue_quiet|done]. split; [done|].
  destruct r' as [claim|e]; cbn; [by exists q|]. rewrite Hc. by destruct (tables w).
Qed.

(** The line of a claim that is not active any more. *)
Lemma not_published_ends claim (w : world turn) r w' :
  (log_parser_outcome OUT_NOT_PUBLISHED CLAIM_NOT_ACTIVE 0 (u "none") ;;
   mret (bare_promotion_run NOT_PUBLISHED (Some (cp_job_id claim)))) w = (r, w') ->
  exists line, log_of w' = log_of w ++ [line] /\ re_fullmatch class_name_pattern (line_exc_type line) = true /\
    ends claim (tables w) line r (tables w').
Proof using.
  intros H. erewrite io_step in H by reflexivity. injection H as <- <-. eexists. split; [reflexivity|].
  split; [by vm_compute|]. constructor. by left.
Qed.

(** Ending a job after an error, and raising the error again or not. *)
Lemma terminalize_clean claim rejected reason exc_type (again : option exn) (w : world turn) r w' : aware claim ->
  wf_rows (parser_jobs (queues (tables w))) -> re_fullmatch class_name_pattern exc_type = true ->
  (again = None \/ rejected = false) ->
  (run ← terminalize o claim rejected reason exc_type;
   match again with Some e => lift (Raise e) | None => mret run end) w = (r, w') ->
  exists line, log_of w' = log_of w ++ [line] /\ re_fullmatch class_name_pattern (line_exc_type line) = true /\
    ends claim (tables w) line r (tables w').
Proof using quiet.
  intros Ha Hwf Hx Hagain H. rewrite io_bind_eq in H.
  destruct (terminalize _ _ _ _ _ w) as [r1 w1] eqn:Ht.
  pose proof Ht as (line & Hlog & Hna & Hnr & Hexc & Hends)%terminalize_ends; [|done..].
  assert (re_fullmatch class_name_pattern (line_exc_type line) = true) as Hc.
  { destruct Hexc as [ -> | [ -> | -> ] ]; [done|by vm_compute|by vm_compute]. }
  exists line. destruct r1 as [run|e]; [|injection H as <- <-; done].
  destruct again as [e|]; injection H as <- <-; [|done]. split; [done|]. split; [done|].
  destruct Hagain as [?| ->]; [done|].
  inversion Hends; subst; [done|by destruct Hnr|by constructor; eauto|by constructor; eauto].
Qed.

Lemma claim_effect_sources d q claim : wf_sources d -> wf_rows (parser_jobs q) ->
  parser_claim_effect (queues d) q (Some claim) -> wf_sources (with_queues d q).
Proof using.
  intros Hwf Hq (row & l & _ & _ & _ & _ & -> & _). split; [done|apply Hwf..].
Qed.

Lemma promote_claim_ends claim (w : world turn) r w' : aware claim -> wf_sources (tables w) ->
  promote_claim o storage claim w = (r, w') ->
  match r with
  | Ok _ => exists line, log_of w' = log_of w ++ [line] /\
      re_fullmatch class_name_pattern (line_exc_type line) = true /\ ends claim (tables w) line r (tables w')
  | Raise _ => tables w' = tables w /\ log_of w' = log_of w
  end.
Proof using quiet.
  intros Ha Hwf H. unfold promote_claim in H. rewrite io_bind_eq in H. destruct (still_read claim w) as [Ht Hp].
  destruct (read o storage claim w) as [[document|e] w1]; cbn [snd] in Ht, Hp; [|by injection H as <- <-; rewrite Ht, Hp].
  rewrite io_bind_eq in H. unfold lift at 1 in H.
  destruct (parse_markdown_or_text _ _) as [requirements|e]; [|by injection H as <- <-; rewrite Ht, Hp].
  erewrite io_step in H by reflexivity. rewrite io_bind_eq in H.
  set (w2 := set_turn _ w1) in *. pose proof (promote_provider claim document requirements w2) as Hp3.
  destruct (promote o claim document requirements w2) as [[evidence|e] w3] eqn:Hpr; cbn [snd] in Hp3.
  - apply promote_published in Hpr as (_ & _ & intake & source & version & ids & Hpub); [|done|by cbn; rewrite Ht].
    cbn [tables w2 set_turn] in Hpub. rewrite Ht in Hpub.
    erewrite io_step in H by reflexivity. injection H as <- <-. cbn. rewrite Hp3. cbn. rewrite Hp.
    assert (zlen (pe_section_ids evidence) = zlen ids) as Hl.
    { rewrite (pb_section_ids _ _ _ _ _ _ _ _ _ _ Hpub). unfold zlen. by rewrite length_fmap. }
    destruct (pb_source _ _ _ _ _ _ _ _ _ _ Hpub) as (_ & _ & Hv).
    eexists. split; [reflexivity|]. split; [by vm_compute|]. rewrite Hl, Hv. by econstructor.
  - injection H as <- <-. apply promote_Raise in Hpr. rewrite Hpr, Hp3. cbn. by rewrite Ht, Hp.
Qed.

(** However a turn ends, what it leaves is told by one line of the log:
    accepted means that the evidence of the document is published and the job
    accepted, rejected and failed that the job ended so and nothing else
    changed, and otherwise the claimed job is left as it was; a turn that
    claims nothing changes nothing and logs nothing.  The exception class in
    the line is an identifier, whatever was raised. *)
Theorem turn_leaves_what_it_logs (w : world turn) r w' : wf_sources (tables w) ->
  run_once type_name o storage queue_others runtime_verifier w = (r, w') -> turn_result w w' r.
Proof using quiet queue_quiet.
  intros Hwf H. unfold run_once in H. erewrite io_step in H by reflexivity. rewrite io_bind_eq in H.
  unfold lift at 1 in H. set (w0 := {| tables := _; ticks := _; provider := _; embed_log := _ |}) in H.
  destruct (runtime_verifier _) as [a|e]; [|injection H as <- <-; apply no_claim; eauto].
  rewrite io_bind_eq in H. destruct (claim_next o queue_others w0) as [[claim|e] w1] eqn:Hc.
  2:{ apply claim_next_turn in Hc as [Hp Ht]; [|apply Hwf]. injection H as <- <-.
      apply no_claim; [done|by rewrite Hp|eauto]. }
  apply claim_next_turn in Hc as (Hp & q & Ht & Hq & He); [|apply Hwf].
  destruct claim as [claim|].
  2:{ injection H as <- <-. apply no_claim; [|by rewrite Hp|by left]. rewrite Ht. cbn in He. subst q.
      cbn. by destruct (tables w). }
  pose proof (claim_effect_sources _ _ _ Hwf Hq He) as Hwf1.
  assert (aware claim) as Ha by (destruct He as (? & ? & _ & _ & _ & _ & _ & Ha); exact Ha).
  erewrite io_step in H by reflexivity. set (w2 := set_turn _ w1) in H.
  assert (tables w2 = with_queues (tables w) q) as Ht2 by done.
  assert (log_of w2 = log_of w) as Hl2 by (cbn; by rewrite Hp). clearbody w2. rewrite <- Ht2 in Hwf1.
  cut (exists line, log_of w' = log_of w2 ++ [line] /\
    re_fullmatch class_name_pattern (line_exc_type line) = true /\ ends claim (tables w2) line r (tables w')).
  { intros (line & Hlog & Hx & Hends). rewrite Ht2 in Hends. rewrite Hl2 in Hlog. by eapply one_claim. }
  unfold io_try in H. destruct (promote_claim o storage claim w2) as [[run|e] w3] eqn:Hpc;
    (apply promote_claim_ends in Hpc; [|done|done]); [by injection H as <- <-|].
  destruct Hpc as [Ht3 Hl3]. rewrite <- Ht3, <- Hl3. rewrite <- Ht3 in Hwf1.
  assert (wf_rows (parser_jobs (queues (tables w3)))) as Hq3 by apply Hwf1.
  assert (forall rejected reason exc_type, re_fullmatch class_name_pattern exc_type = true ->
    terminalize o claim rejected reason exc_type w3 = (r, w') ->
    exists line, log_of w' = log_of w3 ++ [line] /\
      re_fullmatch class_name_pattern (line_exc_type line) = true /\ ends claim (tables w3) line r (tables w')) as Hterm.
  { intros rejected reason exc_type Hx Hrun. apply (terminalize_clean claim rejected reason exc_type None); [done..|by left|].
    rewrite io_bind_eq, Hrun. by destruct r. }
  assert ((terminalize o claim false WORKER_EXCEPTION (exception_class_name type_name e) ;; lift (Raise e)) w3 = (r, w') ->
    exists line, log_of w' = log_of w3 ++ [line] /\
      re_fullmatch class_name_pattern (line_exc_type line) = true /\ ends claim (tables w3) line r (tables w')) as Hagain.
  { intros Hrun. apply (terminalize_clean claim false WORKER_EXCEPTION (exception_class_name type_name e) (Some e));
      [done..|apply class_name_clean|by right|exact Hrun]. }
  destruct (exn_cls e); try (by apply Hagain); try (by eapply Hterm; [apply class_name_clean|exact H]).
  - by apply not_published_ends in H.
  - by eapply Hterm; [|exact H].
Qed.
End worker.

(** ** A concrete turn *)

Definition turn_tables : doc_db := with_queues promotion_tables
  (with_parser_jobs (queues promotion_tables)
    {[ 4%N := {| pj_id := 4%N; document_intake_id := 3%N; pj_lease := queued_lease 0 |} ]}).
Definition turn_world : world turn := {|
  tables := turn_tables; ticks := 0; provider := {| requirement_count := None; outcome_log := [] |};
  embed_log := [] |}.
Definition turn_storage (key : pystr) (n : N) : result (bytes * pystr) := Ok (promotion_raw, u "text/markdown").
Definition turn_sample : io (world turn) ParserPromotionRun :=
  run_once (fun _ => u "Error") promotion_outside turn_storage (fun _ d => d) (fun _ => Ok tt).
Definition after_turn : world turn := (turn_sample turn_world).2.

Lemma turn_tables_wf : wf_sources turn_tables.
Proof.
  split; [|apply promotion_tables_wf..]. intros i r Hr. cbn in Hr.
  apply lookup_singleton_Some in Hr as [<- <-]. by split.
Qed.

Lemma turn_accepted : turn_sample turn_world =
  (Ok {| pr_state := ACCEPTED; pr_job_id := Some 4%N; pr_document_version_id := Some 2%N;
         pr_section_count := 2 |}, after_turn).
Proof. vm_compute. reflexivity. Qed.

Lemma turn_leaves_what_it_logs_witness :
  wf_sources (tables turn_world) /\ turn_sample turn_world =
    (Ok {| pr_state := ACCEPTED; pr_job_id := Some 4%N; pr_document_version_id := Some 2%N;
           pr_section_count := 2 |}, after_turn) /\
  turn_result turn_world after_turn
    (Ok {| pr_state := ACCEPTED; pr_job_id := Some 4%N; pr_document_version_id := Some 2%N;
           pr_section_count := 2 |}).
Proof.
  split; [exact turn_tables_wf|]. split; [exact turn_accepted|].
  pose proof turn_accepted as H. unfold turn_sample in H.
  exact (turn_leaves_what_it_logs (fun _ => u "Error") promotion_outside turn_storage (fun _ d => d) (fun _ => Ok tt)
    (fun n d => eq_refl) (fun n d => eq_refl) turn_world _ after_turn turn_tables_wf H).
Defined.

Example turn_line : line_text <$> outcome_log (provider after_turn) =
  [u "event=parser.outcome outcome=accepted reason=none sections=2 requirements=2 exc_type=none"].
Proof. vm_compute. reflexivity. Qed.
