(* ===== verification/PipelineSpec.v ===== *)
(** * From uploaded bytes to chunks

    The parser's promotion and the indexing service together: the job that a
    promotion queues, when it is indexed, cuts exactly the texts parsed from
    the uploaded bytes into chunks and attaches each to an embedding. *)
From Stdlib Require Import Floats.SpecFloat.
From S2P Require Import Prelude PyText Json JsonFacts AsciiRuntime Digest GeneratedTests Effects Database.
From S2P Require Import DatabaseFacts JobTables.
From S2P Require Import ParserJobClaims Leases DocumentTables IndexingJobClaims Indexing IndexingSpec.
From S2P Require Import IndexingStore IndexingStoreSpec.
From S2P Require Import Sessions Regex MarkdownParser ParserPromotion.

Section pipeline.
Context {rt : PyRuntime} {tc : TextCase} {E : Type} (o : outside).
Context (quiet : forall n d, others_at o n d = d).
Context (provider_embed : list pystr -> EmbeddingConfiguration -> io E (list (list spec_float))).
Context (chunking : ChunkingConfiguration) (embedding : EmbeddingConfiguration).

Lemma published_wf_doc claim document requirements evidence intake source version ids d d' :
  published claim document requirements evidence intake source version ids d d' -> wf_doc d -> wf_doc d'.
Proof using. intros Hp []. destruct (pb_rest _ _ _ _ _ _ _ _ _ _ Hp) as (_ & _ & _ & _ & _ & Hc & He & Hl & _). by split; rewrite ?Hc, ?He, ?Hl. Qed.

Lemma published_sections_sorted claim document requirements evidence intake source version ids d d' :
  published claim document requirements evidence intake source version ids d d' ->
  pr_ordinal <$> requirements = seqZ 0 (zlen requirements) ->
  StronglySorted section_le (section_of_row <$> section_rows d' (doc_project_id source) (ver_id version)).
Proof using.
  intros Hp Hord. rewrite (pb_sections _ _ _ _ _ _ _ _ _ _ Hp). pose proof (pb_evidence _ _ _ _ _ _ _ _ _ _ Hp) as Hl.
  apply Forall2_length in Hl. assert (forall n r, section_rows_of (ver_id version) requirements ids !! n = Some r ->
    sec_ordinal r = Z.of_nat n) as Hn.
  { intros n r Hr. by apply section_rows_lookup with (k := 0) in Hr as [-> _]. }
  clear Hl Hord Hp. revert Hn. generalize (section_rows_of (ver_id version) requirements ids) as rows. intros rows.
  assert (forall k, (forall n r, rows !! n = Some r -> sec_ordinal r = k + Z.of_nat n) ->
    StronglySorted section_le (section_of_row <$> rows)) as Hs; [|by apply (Hs 0)].
  induction rows as [|r rows IH]; intros k Hk; cbn; constructor.
  - apply (IH (k + 1)). intros n s Hs. rewrite (Hk (S n) s Hs). lia.
  - apply Forall_fmap, Forall_lookup. intros n s Hs. cbn. unfold section_le. cbn.
    rewrite (Hk 0%nat r eq_refl), (Hk (S n) s Hs). lia.
Qed.

(** The foreign key of a chunk to a location of its own version. *)
Definition chunks_located (d : doc_db) : Prop := forall i c, chunk_rows d !! i = Some c ->
  of_version loc_version_id (chk_version_id c) (locations d !! chk_location_id c) = true.

(** A version that is being promoted has no chunks. *)
Lemma published_unchunked claim document requirements evidence intake source version ids d d' x :
  published claim document requirements evidence intake source version ids d d' -> chunks_located d ->
  chunk_rows_of d' (ver_id version) x = [].
Proof using.
  intros Hp Hfk. destruct (pb_rest _ _ _ _ _ _ _ _ _ _ Hp) as (_ & _ & _ & _ & _ & Hc & _).
  destruct (pb_unparsed _ _ _ _ _ _ _ _ _ _ Hp) as [Hnone _].
  unfold chunk_rows_of. rewrite Hc. enough (select (in_version (ver_id version) x) (chunk_rows d) = []) as -> by done.
  apply elem_of_nil_inv. intros c (Hv & i & Hi)%elem_of_select. specialize (Hfk i c Hi).
  unfold in_version in Hv. bools. destruct (locations d !! chk_location_id c) as [l|] eqn:Hl; [|done].
  cbn in Hfk. bools. apply (Hnone _ _ Hl). congruence.
Qed.

(** C22: When the job that a promotion has queued is indexed, and no other
    session is at work, the chunks of the version are the drafts cut from
    sections whose texts, in order, are those parsed from the uploaded bytes,
    and each chunk is attached to a valid embedding of its own text. The
    tables satisfy their keys, unique constraints and the foreign key of a
    chunk to a location of its version. *)
Theorem promoted_documents_are_chunked claim document requirements evidence (w w1 w2 : world E) job r :
  wf_sources (tables w) -> wf_doc (tables w) -> chunks_located (tables w) ->
  promote o claim document requirements w = (Ok evidence, w1) ->
  indexing_jobs (queues (tables w1)) !! pe_indexing_job_id evidence = Some job ->
  index (store := sql_store o) (adapter := world_adapter provider_embed) chunking embedding
    (ij_project_id job) (ij_document_version_id job) w1 = (Ok r, w2) ->
  parse_markdown_or_text (cd_document_type document) (raw document) = Ok requirements /\
  let cs := v_chunks (sql_view w2) (ij_document_version_id job) (chunking_version chunking) in
  exists sections drafts, section_text <$> sections = normalized_text <$> requirements /\
    chunk_sections sections chunking 0 = Ok drafts /\ chunk_key <$> cs = chunk_of_draft <$> drafts /\
    forall c, c ∈ cs -> exists e,
      v_cached (sql_view w2) (ij_project_id job) (chunk_sha256 c) embedding = Some e /\
      validate_cached e = Ok tt /\ v_attached (sql_view w2) (chunk_id c) embedding = Some (embedding_id e).
Proof using quiet.
  intros Hwf Hdoc Hfk Hpr Hjob Hix.
  apply promote_published in Hpr as (_ & Hparse & intake & source & version & ids & Hp); [|done|done].
  split; [done|]. pose proof (published_wf_doc _ _ _ _ _ _ _ _ _ _ Hp Hdoc) as Hdoc1.
  destruct (pb_indexing _ _ _ _ _ _ _ _ _ _ Hp) as [now Hi]. rewrite Hi, lookup_insert_eq in Hjob.
  injection Hjob as <-. cbn [ij_project_id ij_document_version_id new_indexing_job] in *.
  apply (index_inv (laws := sql_laws o quiet provider_embed)) in Hix; [|done].
  assert (v_chunks (sql_view w1) (ver_id version) (chunking_version chunking) = []) as Hnone
    by (cbn [v_chunks sql_view]; by rewrite (published_unchunked _ _ _ _ _ _ _ _ _ _ _ Hp Hfk)).
  destruct (ix_created _ _ _ _ _ _ _ Hix Hnone) as (_ & drafts & Hd & Hk).
  rewrite stable_sort_id in Hd.
  2:{ eapply published_sections_sorted; [exact Hp|]. by eapply parsed_ordinals. }
  exists (section_of_row <$> section_rows (tables w1) (doc_project_id source) (ver_id version)), drafts.
  split; [|split; [done|split; [done|]]].
  - rewrite (pb_sections _ _ _ _ _ _ _ _ _ _ Hp). apply section_texts.
    by apply Forall2_length with (1 := pb_evidence _ _ _ _ _ _ _ _ _ _ Hp).
  - intros c Hc. apply (ix_attached _ _ _ _ _ _ _ Hix); [|done]. apply chunk_ids_distinct.
    by apply (ix_ok _ _ _ _ _ _ _ Hix).
Qed.
End pipeline.

(** ** A concrete document *)

Lemma promotion_tables_doc : wf_doc promotion_tables.
Proof. by split; intros ?. Qed.

Definition pipeline_job : IndexingJobRecord := new_indexing_job 126 1 2 10.
Definition pipeline_index : io (world unit) IndexingResult :=
  index (store := sql_store promotion_outside) (adapter := world_adapter sample_provider)
    sample_chunking sample_embedding 1 2.
Definition indexed_world : world unit := (pipeline_index promoted_world).2.

Lemma pipeline_queued : indexing_jobs (queues (tables promoted_world)) !! 126%N = Some pipeline_job.
Proof. vm_compute. reflexivity. Qed.
Lemma pipeline_located : chunks_located promotion_tables.
Proof. by intros i c. Qed.
Definition pipeline_result : IndexingResult := Eval vm_compute in
  match (pipeline_index promoted_world).1 with
  | Ok r => r
  | Raise _ => {| indexed_version_id := 0; chunk_count := 0; chunks_created := 0;
                  embeddings_created := 0; embedding_cache_hits := 0 |}
  end.
Lemma pipeline_indexed : pipeline_index promoted_world = (Ok pipeline_result, indexed_world).
Proof. vm_compute. reflexivity. Qed.

Lemma promoted_documents_are_chunked_witness :
  chunk_count pipeline_result = 2%nat /\
  pipeline_index promoted_world = (Ok pipeline_result, indexed_world) /\
  (parse_markdown_or_text (u "markdown") promotion_raw = Ok promotion_items /\
   let cs := v_chunks (sql_view indexed_world) 2 (chunking_version sample_chunking) in
   exists sections drafts, section_text <$> sections = normalized_text <$> promotion_items /\
     chunk_sections sections sample_chunking 0 = Ok drafts /\ chunk_key <$> cs = chunk_of_draft <$> drafts /\
     forall c, c ∈ cs -> exists e,
       v_cached (sql_view indexed_world) 1 (chunk_sha256 c) sample_embedding = Some e /\
       validate_cached e = Ok tt /\
       v_attached (sql_view indexed_world) (chunk_id c) sample_embedding = Some (embedding_id e)).
Proof.
  split; [reflexivity|]. split; [exact pipeline_indexed|]. pose proof pipeline_indexed as Hi.
  pose proof sample_promoted as Hp. unfold pipeline_index in Hi. unfold promote_sample in Hp.
  exact (promoted_documents_are_chunked promotion_outside (fun n d => eq_refl) sample_provider sample_chunking
    sample_embedding promotion_claim promotion_document promotion_items sample_evidence promotion_world
    promoted_world indexed_world pipeline_job pipeline_result promotion_tables_wf promotion_tables_doc pipeline_located Hp
    pipeline_queued Hi).
Defined.
