(* ===== verification/Findings.v ===== *)
(** * Requirement findings ([findings.py])

    The contract of grounded findings: an untrusted payload becomes a
    [RequirementFindingV1] or is refused, and [as_payload] renders it back.

    ** Properties

    What an accepted finding is, that it survives the round trip through its
    rendering, and which exceptions leave the validators. *)
From Stdlib Require Import SpecFloat.
From S2P Require Import Prelude PyText Json Digest GeneratedTests JsonFacts AsciiRuntime GeneratedTestsFacts.
From S2P Require Import Samples.

Definition REQUIREMENT_FINDING_SCHEMA_VERSION : pystr := u "requirement-finding/v1".
Definition MAX_FINDING_TEXT_LENGTH : Z := 4000.

Inductive FindingCategory :=
  | AMBIGUITY | CONTRADICTION | MISSING_ACCEPTANCE_CRITERIA | VALIDATION_GAP
  | AUTHORIZATION_GAP | ERROR_HANDLING_GAP | STATE_TRANSITION_GAP
  | REQUIREMENTS_CONTRACT_MISMATCH | UNMAPPED_REQUIREMENT | UNMAPPED_OPERATION
  | SECURITY_RISK | PERFORMANCE_RISK | UNSUPPORTED_CLAIM.
Inductive FindingSeverity := CRITICAL | HIGH | MEDIUM | LOW | INFO.
#[export] Instance category_eq_dec : EqDecision FindingCategory.
Proof. solve_decision. Defined.
#[export] Instance severity_eq_dec : EqDecision FindingSeverity.
Proof. solve_decision. Defined.

Definition category_value (c : FindingCategory) : pystr :=
  match c with
  | AMBIGUITY => u "ambiguity" | CONTRADICTION => u "contradiction"
  | MISSING_ACCEPTANCE_CRITERIA => u "missing_acceptance_criteria"
  | VALIDATION_GAP => u "validation_gap" | AUTHORIZATION_GAP => u "authorization_gap"
  | ERROR_HANDLING_GAP => u "error_handling_gap"
  | STATE_TRANSITION_GAP => u "state_transition_gap"
  | REQUIREMENTS_CONTRACT_MISMATCH => u "requirements_contract_mismatch"
  | UNMAPPED_REQUIREMENT => u "unmapped_requirement"
  | UNMAPPED_OPERATION => u "unmapped_operation" | SECURITY_RISK => u "security_risk"
  | PERFORMANCE_RISK => u "performance_risk" | UNSUPPORTED_CLAIM => u "unsupported_claim"
  end.
Definition severity_value (s : FindingSeverity) : pystr :=
  match s with
  | CRITICAL => u "critical" | HIGH => u "high" | MEDIUM => u "medium" | LOW => u "low"
  | INFO => u "info"
  end.
#[export] Program Instance category_enum : StrEnum FindingCategory := {|
  members := [AMBIGUITY; CONTRADICTION; MISSING_ACCEPTANCE_CRITERIA; VALIDATION_GAP;
    AUTHORIZATION_GAP; ERROR_HANDLING_GAP; STATE_TRANSITION_GAP;
    REQUIREMENTS_CONTRACT_MISMATCH; UNMAPPED_REQUIREMENT; UNMAPPED_OPERATION;
    SECURITY_RISK; PERFORMANCE_RISK; UNSUPPORTED_CLAIM];
  value := category_value |}.
Next Obligation. by intros [] []. Qed.
Next Obligation. intros []; set_solver. Qed.
#[export] Program Instance severity_enum : StrEnum FindingSeverity := {|
  members := [CRITICAL; HIGH; MEDIUM; LOW; INFO]; value := severity_value |}.
Next Obligation. by intros [] []. Qed.
Next Obligation. intros []; set_solver. Qed.

Record FindingEvidence := { citation_id : uuid; observed_fact : pystr }.
#[export] Instance evidence_eq_dec : EqDecision FindingEvidence.
Proof. solve_decision. Defined.

Record RequirementFindingV1 := {
  finding_id : uuid;
  category : FindingCategory;
  severity : FindingSeverity;
  evidence : list FindingEvidence;
  analysis : pystr;
  confidence : spec_float;
  recommendation : pystr;
  unsupported : bool;
  unsupported_reason : option pystr;
}.

(** [RequirementFindingV1.as_payload] *)
Definition evidence_payload (e : FindingEvidence) : json :=
  JObj [(u "citation_id", JStr (uuid_str (citation_id e)));
        (u "observed_fact", JStr (observed_fact e))].
Definition finding_payload (f : RequirementFindingV1) : list (pystr * json) :=
  [(u "schema_version", JStr REQUIREMENT_FINDING_SCHEMA_VERSION);
   (u "id", JStr (uuid_str (finding_id f)));
   (u "category", JStr (value (category f)));
   (u "severity", JStr (value (severity f)));
   (u "evidence", JList (evidence_payload <$> evidence f));
   (u "analysis", JStr (analysis f));
   (u "confidence", JFloat (confidence f));
   (u "recommendation", JStr (recommendation f));
   (u "unsupported", JBool (unsupported f));
   (u "unsupported_reason", opt_json JStr (unsupported_reason f))].

Definition FINDING_FIELDS : list pystr :=
  [u "schema_version"; u "id"; u "category"; u "severity"; u "evidence"; u "analysis";
   u "confidence"; u "recommendation"; u "unsupported"; u "unsupported_reason"].
Definition EVIDENCE_FIELDS : list pystr := [u "citation_id"; u "observed_fact"].

(** [float(z)]: the nearest binary64, ties to even; [None] where Python raises
    [OverflowError]. *)
Definition float_of_int (z : Z) : option spec_float :=
  match binary_normalize 53 1024 z 0 false with
  | S754_infinity _ => None
  | x => Some x
  end.
Definition one : spec_float := S754_finite false 4503599627370496 (-52).

(** [raise RequirementFindingValidationError(msg)] *)
Definition invalid {A} (msg : string) : result A := raise RequirementFindingValidationError msg.
Definition invalid_if (c : bool) (msg : string) : result unit :=
  raise_if c RequirementFindingValidationError msg.

Section validation.
Context {rt : PyRuntime}.

(** [_require_exact_fields] *)
Definition exact_fields (payload : list (pystr * json)) (expected : list pystr) (label : string) :
    result unit :=
  invalid_if (negb (has_exactly expected payload))
    (label +:+ " fields must exactly match the versioned schema").

(** [_uuid], [_enum], [_text], [_optional_text], [_bool] *)
Definition finding_uuid (v : json) (label : string) : result uuid :=
  match v with
  | JStr s =>
      or_raise (uuid_parse s)
        (Exn RequirementFindingValidationError (label +:+ " must be a UUID string"))
  | _ => invalid (label +:+ " must be a UUID string")
  end.
Definition finding_enum {T} `{StrEnum T} (v : json) (label : string) : result T :=
  match v with
  | JStr s =>
      or_raise (enum_of s) (Exn RequirementFindingValidationError (label +:+ " is not allowed"))
  | _ => invalid (label +:+ " is not allowed")
  end.
Definition finding_text (v : json) (label : string) : result pystr :=
  match v with
  | JStr s =>
      let normalized := strip s in
      invalid_if (bool_decide (normalized = []) || (MAX_FINDING_TEXT_LENGTH <? zlen normalized))
        (label +:+ " must be bounded, non-empty text") ;;
      Ok normalized
  | _ => invalid (label +:+ " must be text")
  end.
Definition optional_text (v : json) (label : string) : result (option pystr) :=
  match v with
  | JNull => Ok None
  | _ => t ← finding_text v label; Ok (Some t)
  end.
Definition finding_bool (v : json) (label : string) : result bool :=
  match v with
  | JBool b => Ok b
  | _ => invalid (label +:+ " must be boolean")
  end.

(** [_confidence]: [bool] is excluded, an [int] is converted first. *)
Definition in_unit_interval (x : spec_float) : bool :=
  is_finite x && SFleb (S754_zero false) x && SFleb x one.
Definition as_float (v : json) : result spec_float :=
  match v with
  | JInt z => or_raise (float_of_int z) (Exn OverflowError "int too large to convert to float")
  | JFloat x => Ok x
  | _ => invalid "Finding confidence must be numeric"
  end.
Definition to_confidence (v : json) : result spec_float :=
  normalized ← as_float v;
  invalid_if (negb (in_unit_interval normalized)) "Finding confidence must be between 0 and 1" ;;
  Ok normalized.

(** [_evidence] *)
Definition evidence_item (item : json) : result FindingEvidence :=
  fields ← match item with
           | JObj kvs => Ok kvs
           | _ => invalid "Finding evidence item must be an object"
           end;
  exact_fields fields EVIDENCE_FIELDS "Finding evidence" ;;
  c ← field "citation_id" fields;
  c ← finding_uuid c "Citation id";
  o ← field "observed_fact" fields;
  o ← finding_text o "Observed fact";
  Ok {| citation_id := c; observed_fact := o |}.
Definition to_evidence (v : json) : result (list FindingEvidence) :=
  items ← match v with JList l => Ok l | _ => invalid "Finding evidence must be a list" end;
  evidence ← try_map evidence_item items;
  invalid_if (negb (no_repeats evidence)) "Finding evidence must not repeat" ;;
  Ok evidence.

(** [_validate_evidence_state] *)
Definition validate_evidence_state (f : RequirementFindingV1) : result unit :=
  if unsupported f then
    invalid_if (negb (bool_decide (evidence f = []))) "Unsupported findings must not present evidence" ;;
    invalid_if (negb (bool_decide (category f = UNSUPPORTED_CLAIM)))
      "Unsupported findings must use the unsupported_claim category" ;;
    invalid_if (negb (bool_decide (severity f = INFO)))
      "Unsupported findings must use info severity" ;;
    invalid_if (bool_decide (unsupported_reason f = None))
      "Unsupported findings require an evidence-gap reason"
  else
    invalid_if (bool_decide (evidence f = [])) "Supported findings require at least one citation" ;;
    invalid_if (bool_decide (category f = UNSUPPORTED_CLAIM))
      "Supported findings must use a material finding category" ;;
    invalid_if (negb (bool_decide (unsupported_reason f = None)))
      "Supported findings must not include an unsupported reason".

Definition validate_requirement_finding (payload : list (pystr * json)) :
    result RequirementFindingV1 :=
  exact_fields payload FINDING_FIELDS "Finding" ;;
  version ← field "schema_version" payload;
  invalid_if
    (match version with
     | JStr s => negb (str_eqb s REQUIREMENT_FINDING_SCHEMA_VERSION)
     | _ => true
     end) "Unsupported finding schema version" ;;
  v ← field "id" payload; id ← finding_uuid v "Finding id";
  v ← field "category" payload; category ← finding_enum v "Finding category";
  v ← field "severity" payload; severity ← finding_enum v "Finding severity";
  v ← field "evidence" payload; evidence ← to_evidence v;
  v ← field "analysis" payload; analysis ← finding_text v "Finding analysis";
  v ← field "confidence" payload; confidence ← to_confidence v;
  v ← field "recommendation" payload; recommendation ← finding_text v "Finding recommendation";
  v ← field "unsupported" payload; unsupported ← finding_bool v "Finding unsupported state";
  v ← field "unsupported_reason" payload;
  reason ← optional_text v "Finding unsupported reason";
  let finding := {|
    finding_id := id; category := category; severity := severity; evidence := evidence;
    analysis := analysis; confidence := confidence; recommendation := recommendation;
    unsupported := unsupported; unsupported_reason := reason |} in
  validate_evidence_state finding ;;
  Ok finding.

Definition validate_requirement_findings (payloads : list (list (pystr * json))) :
    result (list RequirementFindingV1) :=
  invalid_if (bool_decide (payloads = [])) "At least one finding is required" ;;
  findings ← try_map validate_requirement_finding payloads;
  invalid_if (negb (no_repeats (finding_id <$> findings))) "Finding IDs must be unique" ;;
  Ok findings.
End validation.

(** * Properties *)

Section findings.
Context {rt : PyRuntime}.

(** ** The invariant of findings *)

(** Stripped, non-empty text of bounded length. *)
Definition finding_text_ok (s : pystr) : bool :=
  bool_decide (strip s = s) && negb (bool_decide (s = [])) && (zlen s <=? MAX_FINDING_TEXT_LENGTH).
Definition evidence_ok (e : FindingEvidence) : bool :=
  uuid_ok (citation_id e) && finding_text_ok (observed_fact e).

(** A finding is grounded: it cites evidence, or it says that there is none. *)
Definition grounded (f : RequirementFindingV1) : bool :=
  if unsupported f then
    bool_decide (evidence f = []) && bool_decide (category f = UNSUPPORTED_CLAIM) &&
    bool_decide (severity f = INFO) && negb (bool_decide (unsupported_reason f = None))
  else
    negb (bool_decide (evidence f = [])) && negb (bool_decide (category f = UNSUPPORTED_CLAIM)) &&
    bool_decide (unsupported_reason f = None).

Definition wf_finding (f : RequirementFindingV1) : bool :=
  uuid_ok (finding_id f) && forallb evidence_ok (evidence f) && no_repeats (evidence f) &&
  finding_text_ok (analysis f) && in_unit_interval (confidence f) &&
  finding_text_ok (recommendation f) &&
  match unsupported_reason f with Some s => finding_text_ok s | None => true end &&
  grounded f.

(** ** Soundness *)

Lemma finding_text_sound v label s : finding_text v label = Ok s -> finding_text_ok s = true.
Proof.
  destruct v as [| | | |s'| |]; try done. cbn. unfold invalid_if. intros H. ok_inv. bools.
  unfold finding_text_ok. bool_goal; [apply strip_strip | done | lia].
Qed.

Lemma finding_uuid_sound v label n : finding_uuid v label = Ok n -> uuid_ok n = true.
Proof.
  intros H. apply (as_uuid_sound v label). destruct v; try done. cbn in *.
  by apply or_raise_Ok in H as ->.
Qed.

Lemma evidence_item_sound v e : evidence_item v = Ok e -> evidence_ok e = true.
Proof.
  unfold evidence_item. intros H. ok_inv. unfold evidence_ok. cbn. bool_goal.
  - by eapply finding_uuid_sound.
  - by eapply finding_text_sound.
Qed.

Lemma to_evidence_sound v l : to_evidence v = Ok l -> forallb evidence_ok l = true /\ NoDup l.
Proof.
  unfold to_evidence, invalid_if. intros H. ok_inv. bools. split; [|done].
  eapply try_map_forallb; [|done]. intros a b _. apply evidence_item_sound.
Qed.

Lemma evidence_state_ok f : validate_evidence_state f = Ok tt <-> grounded f = true.
Proof.
  unfold validate_evidence_state, grounded, invalid_if.
  destruct (unsupported f), (bool_decide (evidence f = [])), (bool_decide (category f = UNSUPPORTED_CLAIM)),
    (bool_decide (severity f = INFO)), (bool_decide (unsupported_reason f = None)); cbn; split; intros; done || discriminate.
Qed.

Lemma optional_text_sound v label o : optional_text v label = Ok o ->
  match o with Some s => finding_text_ok s | None => true end = true.
Proof.
  unfold optional_text. destruct v; intros H; ok_inv; try done; by eapply finding_text_sound.
Qed.

Lemma validate_finding_sound p f : validate_requirement_finding p = Ok f -> wf_finding f = true.
Proof.
  unfold validate_requirement_finding, to_confidence, invalid_if. intros H. ok_inv.
  match goal with E : validate_evidence_state _ = _ |- _ => apply evidence_state_ok in E end.
  match goal with E : to_evidence _ = _ |- _ => apply to_evidence_sound in E as [? ?] end.
  bools. unfold wf_finding. bool_goal; cbn; try done;
    by eauto using finding_uuid_sound, finding_text_sound, optional_text_sound.
Qed.

(** ** Completeness *)

Lemma finding_text_complete s label : finding_text_ok s = true -> finding_text (JStr s) label = Ok s.
Proof.
  unfold finding_text_ok. intros H; bools. cbn. match goal with E : strip s = s |- _ => rewrite E end.
  unfold invalid_if. rewrite raise_if_false; [done|]. apply orb_false_iff.
  rewrite bool_decide_eq_false_2, (proj2 (Z.ltb_ge _ _)) by done. done.
Qed.

Lemma finding_uuid_complete n label : uuid_ok n = true -> finding_uuid (JStr (uuid_str n)) label = Ok n.
Proof. intros H%N.ltb_lt. unfold finding_uuid. by rewrite uuid_parse_str. Qed.

Lemma finding_enum_complete {T} `{StrEnum T} (x : T) label : finding_enum (JStr (value x)) label = Ok x.
Proof. unfold finding_enum. by rewrite enum_of_value. Qed.

Lemma evidence_item_complete e : evidence_ok e = true -> evidence_item (evidence_payload e) = Ok e.
Proof.
  intros H. unfold evidence_ok in H. bools. unfold evidence_item, evidence_payload.
  rewrite bind_ok. unfold exact_fields, invalid_if. rewrite raise_if_false by done. rewrite bind_ok.
  rewrite !(field_eq "citation_id" _ (JStr (uuid_str (citation_id e)))),
    (field_eq "observed_fact" _ (JStr (observed_fact e))) by done.
  rewrite bind_ok, finding_uuid_complete by done. rewrite !bind_ok, finding_text_complete by done. rewrite bind_ok. by destruct e.
Qed.

Lemma to_evidence_complete l : forallb evidence_ok l = true -> NoDup l ->
  to_evidence (JList (evidence_payload <$> l)) = Ok l.
Proof.
  intros Hl Hn. unfold to_evidence, invalid_if. rewrite bind_ok.
  rewrite try_map_id by (intros; eapply evidence_item_complete, forallb_elem; done).
  rewrite bind_ok, raise_if_false; [done|]. by apply negb_false_iff, bool_decide_eq_true.
Qed.

Lemma optional_text_complete o label :
  match o with Some s => finding_text_ok s | None => true end = true ->
  optional_text (opt_json JStr o) label = Ok o.
Proof. destruct o as [s|]; [|done]. intros H. unfold optional_text, opt_json. by rewrite finding_text_complete. Qed.

Lemma validate_finding_complete f : wf_finding f = true ->
  validate_requirement_finding (finding_payload f) = Ok f.
Proof.
  unfold wf_finding. intros H. bools. unfold validate_requirement_finding.
  assert (exact_fields (finding_payload f) FINDING_FIELDS "Finding" = Ok tt) as ->
    by (unfold exact_fields, invalid_if; by rewrite raise_if_false).
  rewrite bind_ok.
  rewrite !(field_eq "schema_version" _ (JStr REQUIREMENT_FINDING_SCHEMA_VERSION)),
    (field_eq "id" _ (JStr (uuid_str (finding_id f)))),
    (field_eq "category" _ (JStr (value (category f)))), (field_eq "severity" _ (JStr (value (severity f)))),
    (field_eq "evidence" _ (JList (evidence_payload <$> evidence f))), (field_eq "analysis" _ (JStr (analysis f))),
    (field_eq "confidence" _ (JFloat (confidence f))), (field_eq "recommendation" _ (JStr (recommendation f))),
    (field_eq "unsupported" _ (JBool (unsupported f))),
    (field_eq "unsupported_reason" _ (opt_json JStr (unsupported_reason f))) by done.
  rewrite bind_ok, str_eqb_refl. unfold invalid_if at 1. rewrite (raise_if_false (negb true)), !bind_ok by done.
  rewrite finding_uuid_complete by done. rewrite !bind_ok, finding_enum_complete, !bind_ok, finding_enum_complete, !bind_ok.
  rewrite to_evidence_complete by done. rewrite !bind_ok. rewrite finding_text_complete by done. rewrite !bind_ok.
  unfold to_confidence. cbn [as_float]. rewrite bind_ok. unfold invalid_if.
  match goal with E : in_unit_interval _ = true |- _ => rewrite E end. cbn [negb raise_if]. rewrite !bind_ok.
  rewrite finding_text_complete by done. rewrite !bind_ok. cbn [finding_bool]. rewrite !bind_ok.
  rewrite optional_text_complete by done. rewrite !bind_ok.
  match goal with E : grounded _ = true |- _ => apply evidence_state_ok in E end. destruct f. cbn in *.
  match goal with E : validate_evidence_state _ = _ |- _ => by rewrite E end.
Qed.

(** ** Errors *)

(** The exceptions of a validation: the contract's own, and the one a very
    large integer raises when it is converted. *)
Definition finding_error (payload : list (pystr * json)) (c : exn_class) : Prop :=
  c = RequirementFindingValidationError \/
  c = OverflowError /\ exists z, dict_get (u "confidence") payload = Some (JInt z) /\ float_of_int z = None.

Abbreviation refuses m := (raises (eq RequirementFindingValidationError) m).

Lemma refuses_field name payload fields label :
  exact_fields payload fields label = Ok tt -> u name ∈ fields -> refuses (field name payload).
Proof.
  unfold exact_fields, invalid_if, has_exactly. intros H Hin. ok_inv. bools.
  match goal with E : Forall (.∈ keys payload) fields |- _ => rewrite Forall_forall in E; apply E in Hin end.
  unfold field. destruct (dict_get (u name) payload) eqn:E; [apply raises_Ok|].
  exfalso. clear -Hin E. induction payload as [|[k' v] d IH]; simpl in *; [by apply not_elem_of_nil in Hin|].
  destruct (str_eqb (u name) k') eqn:Ek; [done|]. apply str_eqb_neq in Ek. apply elem_of_cons in Hin as [?|?]; auto.
Qed.

Ltac refuses_step :=
  match goal with
  | |- raises _ (exact_fields _ _ _) => apply raises_raise_if; done
  | |- raises _ (invalid_if _ _) => apply raises_raise_if; done
  | |- raises _ (invalid _) => apply raises_raise; done
  | H : exact_fields ?p _ _ = Ok tt |- raises _ (field _ ?p) =>
      eapply refuses_field; [exact H | by apply (bool_decide_unpack _)]
  | _ => raises_step
  end.
Ltac refuses_solve := repeat first [solve [auto] | refuses_step].

Lemma refuses_text v label : refuses (finding_text v label).
Proof. destruct v; unfold finding_text; cbv zeta; refuses_solve. Qed.
Lemma refuses_uuid v label : refuses (finding_uuid v label).
Proof. destruct v; unfold finding_uuid; refuses_solve. Qed.
Lemma refuses_enum {T} `{StrEnum T} v label : refuses (finding_enum v label : result T).
Proof. destruct v; unfold finding_enum; refuses_solve. Qed.
Lemma refuses_evidence v : refuses (to_evidence v).
Proof. pose proof refuses_text. pose proof refuses_uuid. unfold to_evidence, evidence_item. refuses_solve. Qed.

Lemma as_float_errors p v : field "confidence" p = Ok v -> raises (finding_error p) (as_float v).
Proof.
  intros Hf%or_raise_Ok. destruct v as [|b|z|x|s|l|kvs]; cbn [as_float]; try apply raises_Ok;
    try (apply raises_raise; by left).
  destruct (float_of_int z) eqn:Hz; [apply raises_Ok|]. intros e [= <-]. right. split; [done|]. by exists z.
Qed.

Lemma finding_errors p : raises (finding_error p) (validate_requirement_finding p).
Proof.
  unfold validate_requirement_finding.
  assert (forall A (m : result A), refuses m -> raises (finding_error p) m) as Hw
    by (intros A m Hm; eapply raises_weaken; [exact Hm|]; intros c <-; by left).
  apply raises_bind; [apply Hw; refuses_solve|]. intros [] Hx.
  repeat first
    [ apply raises_Ok
    | match goal with |- raises _ (to_confidence _ ≫= _) => fail 1 | |- raises _ (mbind _ _) => idtac end;
      apply raises_bind; [apply Hw; solve [refuses_step | apply refuses_text | apply refuses_uuid
        | apply refuses_enum | apply refuses_evidence | refuses_solve
        | unfold finding_bool; refuses_solve
        | unfold optional_text; pose proof refuses_text; refuses_solve
        | unfold validate_evidence_state; refuses_solve]|]; intros ? ?
    | by apply as_float_errors
    | apply raises_bind; [|intros ? ?] ].
Qed.

(** C39: A payload is either accepted, as a grounded finding of bounded,
    stripped text with a confidence between 0 and 1 that its own rendering
    gives back, or refused with [RequirementFindingValidationError]; only an
    integer confidence that no float can hold raises something else,
    [OverflowError]. *)
Theorem validate_requirement_finding_spec payload :
  match validate_requirement_finding payload with
  | Ok f => wf_finding f = true /\ validate_requirement_finding (finding_payload f) = Ok f
  | Raise e => finding_error payload (exn_cls e)
  end.
Proof.
  pose proof (finding_errors payload) as He.
  destruct (validate_requirement_finding payload) as [f|e] eqn:Hv; [|by apply He].
  apply validate_finding_sound in Hv. split; [done|]. by apply validate_finding_complete.
Qed.

(** The well-formed findings are exactly those that survive the round trip. *)
Theorem requirement_finding_roundtrip f :
  wf_finding f = true <-> validate_requirement_finding (finding_payload f) = Ok f.
Proof. split; [apply validate_finding_complete | apply validate_finding_sound]. Qed.

(** A batch is accepted exactly when it is not empty, every finding is
    accepted and no two share an identifier; the results keep the order. *)
Theorem validate_requirement_findings_spec payloads fs :
  validate_requirement_findings payloads = Ok fs <->
  payloads <> [] /\
  Forall2 (fun p f => validate_requirement_finding p = Ok f) payloads fs /\
  NoDup (finding_id <$> fs).
Proof.
  unfold validate_requirement_findings, invalid_if. split.
  - intros H. ok_inv. bools. split_and!; [done | by apply try_map_Ok | done].
  - intros (Hne & Hf & Hnd). rewrite bool_decide_eq_false_2 by done. cbn [raise_if].
    rewrite bind_ok, (proj2 (try_map_Ok _ _ _) Hf), bind_ok.
    unfold no_repeats. by rewrite bool_decide_eq_true_2.
Qed.
End findings.

(** ** A confidence that no float can hold *)

Definition sample_finding : RequirementFindingV1 := {|
  finding_id := 8; category := AMBIGUITY; severity := HIGH;
  evidence := [{| citation_id := 9; observed_fact := u "The limit is not stated." |}];
  analysis := u "No limit"; confidence := one; recommendation := u "State it";
  unsupported := false; unsupported_reason := None |}.

Example sample_finding_accepted :
  validate_requirement_finding (finding_payload sample_finding) = Ok sample_finding.
Proof. vm_compute. reflexivity. Qed.

(** The payload of [sample_finding] with the confidence [2 ** 1024]: the error
    is not of the class the module declares for invalid payloads. *)
Definition huge_confidence : list (pystr * json) :=
  dict_set (u "confidence") (JInt (2 ^ 1024)) (finding_payload sample_finding).
Example huge_confidence_overflows :
  validate_requirement_finding huge_confidence = raise OverflowError "int too large to convert to float".
Proof. vm_compute. reflexivity. Qed.
