(* ===== verification/Traceability.v ===== *)
(** * Traceability ([traceability.py])

    Matrices that link requirements and API operations to generated test
    cases, and what becomes of the links when a source is revised.

    ** Properties

    The matrices hold exactly the links of the sources and test cases, in an
    order that does not depend on the order of the inputs; refreshing keeps
    every link and marks exactly those whose source is gone or revised. *)
From stdpp Require Import sorting.
From S2P Require Import Prelude PyText Json Digest Ordering GeneratedTests JsonFacts AsciiRuntime Samples.

Definition MAX_TRACEABILITY_TEXT_LENGTH : Z := 1000.

Inductive TraceabilityLinkState := CURRENT | STALE.
#[export] Instance link_state_eq_dec : EqDecision TraceabilityLinkState.
Proof. solve_decision. Defined.

Record RequirementTraceSourceV1 := {
  rs_finding_id : uuid; rs_requirement_id : pystr; rs_revision : pystr }.
Record OperationTraceSourceV1 := { os_operation_id : pystr; os_revision : pystr }.
Record RequirementTestTraceLinkV1 := {
  rl_finding_id : uuid; rl_requirement_id : pystr; rl_revision : pystr; rl_test_case_id : uuid;
  rl_state : TraceabilityLinkState }.
Record OperationTestTraceLinkV1 := {
  ol_operation_id : pystr; ol_revision : pystr; ol_test_case_id : uuid;
  ol_state : TraceabilityLinkState }.
Record TraceabilityMatricesV1 := {
  requirement_test_links : list RequirementTestTraceLinkV1;
  operation_test_links : list OperationTestTraceLinkV1 }.

Definition rejected {A} (msg : string) : result A := raise TraceabilityRejected msg.

Definition operation_id_for_test_case (test_case : GeneratedTestCaseV1) : pystr :=
  method_value (method (request test_case)) ++ u " " ++ path (request test_case).

Section traceability.
Context {rt : PyRuntime}.

(** [_require_text] *)
Definition require_text (value : pystr) (label : string) : result unit :=
  raise_if (bool_decide (value = []) || negb (str_eqb value (strip value)) ||
            (MAX_TRACEABILITY_TEXT_LENGTH <? zlen value))
    TraceabilityRejected (label +:+ " must be bounded, non-empty canonical text").

(** [_index_requirement_sources]: the dictionary, in insertion order *)
Fixpoint index_requirements (sources : list RequirementTraceSourceV1)
    (indexed : list (uuid * RequirementTraceSourceV1)) :
    result (list (uuid * RequirementTraceSourceV1)) :=
  match sources with
  | [] => Ok indexed
  | source :: sources =>
      require_text (rs_requirement_id source) "Requirement identifier" ;;
      require_text (rs_revision source) "Requirement revision" ;;
      (if bool_decide (rs_finding_id source ∈ indexed.*1)
       then rejected "Requirement source finding IDs must be unique" else Ok tt) ;;
      index_requirements sources (indexed ++ [(rs_finding_id source, source)])
  end.

(** [_index_operation_sources] *)
Fixpoint index_operations (sources : list OperationTraceSourceV1)
    (indexed : list (pystr * OperationTraceSourceV1)) :
    result (list (pystr * OperationTraceSourceV1)) :=
  match sources with
  | [] => Ok indexed
  | source :: sources =>
      require_text (os_operation_id source) "Operation identifier" ;;
      require_text (os_revision source) "Operation revision" ;;
      (if bool_decide (os_operation_id source ∈ indexed.*1)
       then rejected "Operation identifiers must be unique" else Ok tt) ;;
      index_operations sources (indexed ++ [(os_operation_id source, source)])
  end.

(** [_require_unique_test_case_ids] *)
Definition require_unique_test_case_ids (test_cases : list GeneratedTestCaseV1) : result unit :=
  if no_repeats (id <$> test_cases) then Ok tt
  else rejected "Generated test case IDs must be unique".

(** The links of one test case. *)
Definition requirement_link (requirements : list (uuid * RequirementTraceSourceV1))
    (test_case : GeneratedTestCaseV1) : option RequirementTestTraceLinkV1 :=
  (fun requirement => {|
     rl_finding_id := rs_finding_id requirement; rl_requirement_id := rs_requirement_id requirement;
     rl_revision := rs_revision requirement; rl_test_case_id := id test_case; rl_state := CURRENT |})
  <$> assoc_get (source_finding_id test_case) requirements.
Definition operation_link (operations : list (pystr * OperationTraceSourceV1))
    (test_case : GeneratedTestCaseV1) : option OperationTestTraceLinkV1 :=
  (fun operation => {|
     ol_operation_id := os_operation_id operation; ol_revision := os_revision operation;
     ol_test_case_id := id test_case; ol_state := CURRENT |})
  <$> assoc_get (operation_id_for_test_case test_case) operations.

(** The sort keys. *)
Definition test_case_key (t : GeneratedTestCaseV1) : list pystr := [uuid_str (id t)].
Definition requirement_link_key (l : RequirementTestTraceLinkV1) : list pystr :=
  [rl_requirement_id l; uuid_str (rl_finding_id l); uuid_str (rl_test_case_id l)].
Definition operation_link_key (l : OperationTestTraceLinkV1) : list pystr :=
  [ol_operation_id l; uuid_str (ol_test_case_id l)].

Definition build_traceability_matrices (requirement_sources : list RequirementTraceSourceV1)
    (operation_sources : list OperationTraceSourceV1) (test_cases : list GeneratedTestCaseV1) :
    result TraceabilityMatricesV1 :=
  requirements ← index_requirements requirement_sources [];
  operations ← index_operations operation_sources [];
  require_unique_test_case_ids test_cases ;;
  let test_cases := stable_sort (by_texts test_case_key) test_cases in
  Ok {| requirement_test_links :=
          stable_sort (by_texts requirement_link_key) (omap (requirement_link requirements) test_cases);
        operation_test_links :=
          stable_sort (by_texts operation_link_key) (omap (operation_link operations) test_cases) |}.

(** [_validate_matrix_links] *)
Definition validate_matrix_links (matrices : TraceabilityMatricesV1) : result unit :=
  (if no_repeats ((fun l => (rl_finding_id l, rl_test_case_id l)) <$> requirement_test_links matrices)
   then Ok tt else rejected "Requirement/test traceability links must be unique") ;;
  if no_repeats ((fun l => (ol_operation_id l, ol_test_case_id l)) <$> operation_test_links matrices)
  then Ok tt else rejected "Operation/test traceability links must be unique".

(** [_refresh_requirement_link] *)
Definition refresh_requirement_link (requirements : list (uuid * RequirementTraceSourceV1))
    (link : RequirementTestTraceLinkV1) : RequirementTestTraceLinkV1 :=
  let state :=
    match assoc_get (rl_finding_id link) requirements with
    | Some source =>
        if str_eqb (rs_requirement_id source) (rl_requirement_id link) &&
           str_eqb (rs_revision source) (rl_revision link) then CURRENT else STALE
    | None => STALE
    end in
  {| rl_finding_id := rl_finding_id link; rl_requirement_id := rl_requirement_id link;
     rl_revision := rl_revision link; rl_test_case_id := rl_test_case_id link; rl_state := state |}.

(** [_refresh_operation_link] *)
Definition refresh_operation_link (operations : list (pystr * OperationTraceSourceV1))
    (link : OperationTestTraceLinkV1) : OperationTestTraceLinkV1 :=
  let state :=
    match assoc_get (ol_operation_id link) operations with
    | Some source => if str_eqb (os_revision source) (ol_revision link) then CURRENT else STALE
    | None => STALE
    end in
  {| ol_operation_id := ol_operation_id link; ol_revision := ol_revision link;
     ol_test_case_id := ol_test_case_id link; ol_state := state |}.

Definition refresh_traceability_staleness (matrices : TraceabilityMatricesV1)
    (requirement_sources : list RequirementTraceSourceV1)
    (operation_sources : list OperationTraceSourceV1) : result TraceabilityMatricesV1 :=
  requirements ← index_requirements requirement_sources [];
  operations ← index_operations operation_sources [];
  validate_matrix_links matrices ;;
  Ok {| requirement_test_links := refresh_requirement_link requirements <$> requirement_test_links matrices;
        operation_test_links := refresh_operation_link operations <$> operation_test_links matrices |}.
End traceability.

(** * Properties *)

Section traceability.
Context {rt : PyRuntime}.

(** ** Valid inputs *)

Definition canonical_text (s : pystr) : Prop :=
  s <> [] /\ strip s = s /\ zlen s <= MAX_TRACEABILITY_TEXT_LENGTH.
Definition valid_requirements (sources : list RequirementTraceSourceV1) : Prop :=
  Forall (fun s => canonical_text (rs_requirement_id s) /\ canonical_text (rs_revision s)) sources /\
  NoDup (rs_finding_id <$> sources).
Definition valid_operations (sources : list OperationTraceSourceV1) : Prop :=
  Forall (fun s => canonical_text (os_operation_id s) /\ canonical_text (os_revision s)) sources /\
  NoDup (os_operation_id <$> sources).

Lemma require_text_spec value label :
  match require_text value label with
  | Ok _ => canonical_text value
  | Raise e => exn_cls e = TraceabilityRejected /\ ~ canonical_text value
  end.
Proof.
  unfold require_text, raise_if, raise, canonical_text. destruct (_ || _) eqn:H.
  - split; [done|]. intros (Hn & Hs & Hl). rewrite Hs, str_eqb_refl in H. cbn in H.
    rewrite bool_decide_false in H by done. cbn in H. apply Z.ltb_lt in H. lia.
  - bools. split_and!; [done| |lia]. symmetry. by apply str_eqb_eq.
Qed.

Definition requirement_dict (sources : list RequirementTraceSourceV1) : list (uuid * RequirementTraceSourceV1) :=
  (fun s => (rs_finding_id s, s)) <$> sources.
Definition operation_dict (sources : list OperationTraceSourceV1) : list (pystr * OperationTraceSourceV1) :=
  (fun s => (os_operation_id s, s)) <$> sources.

Lemma index_requirements_spec sources : forall indexed, NoDup indexed.*1 ->
  match index_requirements sources indexed with
  | Ok d => d = indexed ++ requirement_dict sources /\ NoDup d.*1 /\
      Forall (fun s => canonical_text (rs_requirement_id s) /\ canonical_text (rs_revision s)) sources
  | Raise e => exn_cls e = TraceabilityRejected /\
      ~ (Forall (fun s => canonical_text (rs_requirement_id s) /\ canonical_text (rs_revision s)) sources /\
         NoDup (indexed.*1 ++ (rs_finding_id <$> sources)))
  end.
Proof.
  induction sources as [|s sources IH]; intros indexed Hnd; cbn [index_requirements].
  { rewrite app_nil_r. split_and!; [done|done|constructor]. }
  pose proof (require_text_spec (rs_requirement_id s) "Requirement identifier") as H1.
  destruct (require_text _ _) as [[]|e]; [|split; [apply H1|]; intros [[[Hc _] _]%Forall_cons _]; by apply H1].
  rewrite bind_ok. pose proof (require_text_spec (rs_revision s) "Requirement revision") as H2.
  destruct (require_text _ _) as [[]|e]; [|split; [apply H2|]; intros [[[_ Hc] _]%Forall_cons _]; by apply H2].
  rewrite bind_ok. case_bool_decide as Hin.
  { split; [done|]. intros [_ [_ [Hd _]]%NoDup_app]. destruct (Hd _ Hin). left. }
  rewrite bind_ok. specialize (IH (indexed ++ [(rs_finding_id s, s)])). rewrite fmap_app in IH. cbn [fmap list_fmap fst] in IH.
  cbn [fmap list_fmap].
  specialize (IH ltac:(apply NoDup_app; split_and!; [done|by intros x Hx ->%list_elem_of_singleton|apply NoDup_singleton])).
  destruct (index_requirements _ _) as [d|e].
  - destruct IH as (-> & Hd & Hall). rewrite <- app_assoc in *. split_and!; [done|done|by constructor].
  - destruct IH as [He Hn]. split; [done|]. intros [[_ Hall]%Forall_cons Hd]. apply Hn. by rewrite <- app_assoc.
Qed.

Lemma index_operations_spec sources : forall indexed, NoDup indexed.*1 ->
  match index_operations sources indexed with
  | Ok d => d = indexed ++ operation_dict sources /\ NoDup d.*1 /\
      Forall (fun s => canonical_text (os_operation_id s) /\ canonical_text (os_revision s)) sources
  | Raise e => exn_cls e = TraceabilityRejected /\
      ~ (Forall (fun s => canonical_text (os_operation_id s) /\ canonical_text (os_revision s)) sources /\
         NoDup (indexed.*1 ++ (os_operation_id <$> sources)))
  end.
Proof.
  induction sources as [|s sources IH]; intros indexed Hnd; cbn [index_operations].
  { rewrite app_nil_r. split_and!; [done|done|constructor]. }
  pose proof (require_text_spec (os_operation_id s) "Operation identifier") as H1.
  destruct (require_text _ _) as [[]|e]; [|split; [apply H1|]; intros [[[Hc _] _]%Forall_cons _]; by apply H1].
  rewrite bind_ok. pose proof (require_text_spec (os_revision s) "Operation revision") as H2.
  destruct (require_text _ _) as [[]|e]; [|split; [apply H2|]; intros [[[_ Hc] _]%Forall_cons _]; by apply H2].
  rewrite bind_ok. case_bool_decide as Hin.
  { split; [done|]. intros [_ [_ [Hd _]]%NoDup_app]. destruct (Hd _ Hin). left. }
  rewrite bind_ok. specialize (IH (indexed ++ [(os_operation_id s, s)])). rewrite fmap_app in IH. cbn [fmap list_fmap fst] in IH.
  cbn [fmap list_fmap].
  specialize (IH ltac:(apply NoDup_app; split_and!; [done|by intros x Hx ->%list_elem_of_singleton|apply NoDup_singleton])).
  destruct (index_operations _ _) as [d|e].
  - destruct IH as (-> & Hd & Hall). rewrite <- app_assoc in *. split_and!; [done|done|by constructor].
  - destruct IH as [He Hn]. split; [done|]. intros [[_ Hall]%Forall_cons Hd]. apply Hn. by rewrite <- app_assoc.
Qed.

Lemma requirement_dict_get sources f s : NoDup (rs_finding_id <$> sources) ->
  assoc_get f (requirement_dict sources) = Some s <-> s ∈ sources /\ rs_finding_id s = f.
Proof.
  intros Hnd. unfold requirement_dict. rewrite assoc_get_Some by (rewrite <- list_fmap_compose; exact Hnd).
  rewrite list_elem_of_fmap. naive_solver.
Qed.
Lemma operation_dict_get sources o s : NoDup (os_operation_id <$> sources) ->
  assoc_get o (operation_dict sources) = Some s <-> s ∈ sources /\ os_operation_id s = o.
Proof.
  intros Hnd. unfold operation_dict. rewrite assoc_get_Some by (rewrite <- list_fmap_compose; exact Hnd).
  rewrite list_elem_of_fmap. naive_solver.
Qed.

(** ** Building *)

Definition valid_inputs (rs : list RequirementTraceSourceV1) (os : list OperationTraceSourceV1)
    (ts : list GeneratedTestCaseV1) : Prop :=
  valid_requirements rs /\ valid_operations os /\ NoDup (id <$> ts).

Definition built_requirement_links (rs : list RequirementTraceSourceV1) (ts : list GeneratedTestCaseV1) :=
  stable_sort (by_texts requirement_link_key)
    (omap (requirement_link (requirement_dict rs)) (stable_sort (by_texts test_case_key) ts)).
Definition built_operation_links (os : list OperationTraceSourceV1) (ts : list GeneratedTestCaseV1) :=
  stable_sort (by_texts operation_link_key)
    (omap (operation_link (operation_dict os)) (stable_sort (by_texts test_case_key) ts)).

Lemma build_cases rs os ts :
  match build_traceability_matrices rs os ts with
  | Ok m => valid_inputs rs os ts /\
      m = {| requirement_test_links := built_requirement_links rs ts;
             operation_test_links := built_operation_links os ts |}
  | Raise e => exn_cls e = TraceabilityRejected /\ ~ valid_inputs rs os ts
  end.
Proof.
  unfold build_traceability_matrices, valid_inputs, valid_requirements, valid_operations.
  pose proof (index_requirements_spec rs [] (NoDup_nil_2)) as H1.
  destruct (index_requirements rs []) as [d1|e]; [|split; [apply H1|]; intros ([Hf Hn] & _); by apply H1].
  destruct H1 as (-> & Hn1 & Hf1). rewrite bind_ok. cbn [app] in *.
  pose proof (index_operations_spec os [] (NoDup_nil_2)) as H2.
  destruct (index_operations os []) as [d2|e]; [|split; [apply H2|]; intros (_ & [Hf Hn] & _); by apply H2].
  destruct H2 as (-> & Hn2 & Hf2). rewrite bind_ok. cbn [app] in *.
  unfold require_unique_test_case_ids, rejected, raise. destruct (no_repeats _) eqn:Hu.
  - bools. split; [|done]. unfold requirement_dict, operation_dict in Hn1, Hn2. rewrite <- list_fmap_compose in Hn1. rewrite <- list_fmap_compose in Hn2.
    done.
  - split; [done|]. intros (_ & _ & Hn). unfold no_repeats in Hu. by apply bool_decide_eq_false in Hu.
Qed.

(** The links between a source and a test case. *)
Definition links_requirement (rs : list RequirementTraceSourceV1) (ts : list GeneratedTestCaseV1)
    (l : RequirementTestTraceLinkV1) : Prop :=
  exists r t, r ∈ rs /\ t ∈ ts /\ source_finding_id t = rs_finding_id r /\
    l = {| rl_finding_id := rs_finding_id r; rl_requirement_id := rs_requirement_id r;
           rl_revision := rs_revision r; rl_test_case_id := id t; rl_state := CURRENT |}.
Definition links_operation (os : list OperationTraceSourceV1) (ts : list GeneratedTestCaseV1)
    (l : OperationTestTraceLinkV1) : Prop :=
  exists r t, r ∈ os /\ t ∈ ts /\ operation_id_for_test_case t = os_operation_id r /\
    l = {| ol_operation_id := os_operation_id r; ol_revision := os_revision r;
           ol_test_case_id := id t; ol_state := CURRENT |}.

Lemma built_requirement_elem rs ts l : NoDup (rs_finding_id <$> rs) ->
  l ∈ built_requirement_links rs ts <-> links_requirement rs ts l.
Proof.
  intros Hnd. unfold built_requirement_links, links_requirement.
  rewrite stable_sort_Permutation, list_elem_of_omap. setoid_rewrite stable_sort_Permutation.
  unfold requirement_link. setoid_rewrite fmap_Some. setoid_rewrite requirement_dict_get; [|done]. naive_solver.
Qed.
Lemma built_operation_elem os ts l : NoDup (os_operation_id <$> os) ->
  l ∈ built_operation_links os ts <-> links_operation os ts l.
Proof.
  intros Hnd. unfold built_operation_links, links_operation.
  rewrite stable_sort_Permutation, list_elem_of_omap. setoid_rewrite stable_sort_Permutation.
  unfold operation_link. setoid_rewrite fmap_Some. setoid_rewrite operation_dict_get; [|done]. naive_solver.
Qed.

(** One link per test case. *)
Lemma built_requirement_nodup rs ts : NoDup (id <$> ts) -> NoDup (rl_test_case_id <$> built_requirement_links rs ts).
Proof.
  intros Hnd. unfold built_requirement_links. rewrite stable_sort_Permutation. apply (omap_nodup _ id).
  - intros t l. unfold requirement_link. destruct (assoc_get _ _); [by intros [= <-]|done].
  - by rewrite stable_sort_Permutation.
Qed.
Lemma built_operation_nodup os ts : NoDup (id <$> ts) -> NoDup (ol_test_case_id <$> built_operation_links os ts).
Proof.
  intros Hnd. unfold built_operation_links. rewrite stable_sort_Permutation. apply (omap_nodup _ id).
  - intros t l. unfold operation_link. destruct (assoc_get _ _); [by intros [= <-]|done].
  - by rewrite stable_sort_Permutation.
Qed.

(** C38: The matrices are built exactly for valid sources and distinct test
    cases, and then hold exactly the links between a source and a test case
    that names it, each once, at the source's revision, sorted by their keys;
    other inputs raise [TraceabilityRejected]. *)
Theorem build_traceability_matrices_spec rs os ts :
  match build_traceability_matrices rs os ts with
  | Ok m => valid_inputs rs os ts /\
      (forall l, l ∈ requirement_test_links m <-> links_requirement rs ts l) /\
      (forall l, l ∈ operation_test_links m <-> links_operation os ts l) /\
      NoDup (rl_test_case_id <$> requirement_test_links m) /\
      NoDup (ol_test_case_id <$> operation_test_links m) /\
      StronglySorted (by_texts requirement_link_key) (requirement_test_links m) /\
      StronglySorted (by_texts operation_link_key) (operation_test_links m)
  | Raise e => exn_cls e = TraceabilityRejected /\ ~ valid_inputs rs os ts
  end.
Proof.
  pose proof (build_cases rs os ts) as H. destruct (build_traceability_matrices rs os ts) as [m|e]; [|done].
  destruct H as [Hv ->]. pose proof Hv as ([_ Hr] & [_ Ho] & Ht). cbn. split; [done|].
  split; [intros l; by apply built_requirement_elem|]. split; [intros l; by apply built_operation_elem|].
  split; [by apply built_requirement_nodup|]. split; [by apply built_operation_nodup|].
  split; by apply (stable_sort_sorted (by_texts _)).
Qed.

Lemma omap_fun_ext {A B} (f g : A -> option B) (l : list A) : (forall a, f a = g a) -> omap f l = omap g l.
Proof. intros H. induction l as [|a l IH]; cbn; [done|]. by rewrite H, IH. Qed.

(** The matrices do not depend on the order in which sources and test
    cases are given. *)
Theorem build_is_deterministic rs rs' os os' ts ts' :
  Forall (fun t => (id t < 2 ^ 128)%N) ts -> rs ≡ₚ rs' -> os ≡ₚ os' -> ts ≡ₚ ts' ->
  match build_traceability_matrices rs os ts, build_traceability_matrices rs' os' ts' with
  | Ok m, Ok m' => m = m'
  | Raise _, Raise _ => True
  | _, _ => False
  end.
Proof.
  intros Hid Hr Ho Ht.
  assert (valid_inputs rs os ts <-> valid_inputs rs' os' ts') as Hv.
  { unfold valid_inputs, valid_requirements, valid_operations. by rewrite Hr, Ho, Ht. }
  pose proof (build_cases rs os ts) as H. pose proof (build_cases rs' os' ts') as H'.
  destruct (build_traceability_matrices rs os ts) as [m|e], (build_traceability_matrices rs' os' ts') as [m'|e'];
    [|exfalso; apply H', Hv, H|exfalso; apply H, Hv, H'|done].
  destruct H as [([_ Hnr] & [_ Hno] & Hnt) ->], H' as [_ ->].
  assert (stable_sort (by_texts test_case_key) ts' = stable_sort (by_texts test_case_key) ts) as Hs.
  { symmetry. apply stable_sort_keys_unique; [|done]. intros x y Hx Hy Hk.
    rewrite Forall_forall in Hid. apply (f_equal head) in Hk. apply (inj Some) in Hk. apply uuid_str_inj in Hk; [|by apply Hid..].
    by apply (nodup_key id ts). }
  assert (forall t, requirement_link (requirement_dict rs) t = requirement_link (requirement_dict rs') t) as Hrl.
  { intros t. unfold requirement_link. f_equal. apply assoc_get_perm; unfold requirement_dict.
    - rewrite <- list_fmap_compose. exact Hnr.
    - by rewrite Hr. }
  assert (forall t, operation_link (operation_dict os) t = operation_link (operation_dict os') t) as Hol.
  { intros t. unfold operation_link. f_equal. apply assoc_get_perm; unfold operation_dict.
    - rewrite <- list_fmap_compose. exact Hno.
    - by rewrite Ho. }
  unfold built_requirement_links, built_operation_links. rewrite Hs. by rewrite !(omap_fun_ext _ _ _ Hrl), !(omap_fun_ext _ _ _ Hol).
Qed.

(** ** Refreshing *)

(** The source of a link is still what it was. *)
Definition requirement_current (rs : list RequirementTraceSourceV1) (l : RequirementTestTraceLinkV1) : Prop :=
  exists r, r ∈ rs /\ rs_finding_id r = rl_finding_id l /\ rs_requirement_id r = rl_requirement_id l /\
    rs_revision r = rl_revision l.
Definition operation_current (os : list OperationTraceSourceV1) (l : OperationTestTraceLinkV1) : Prop :=
  exists r, r ∈ os /\ os_operation_id r = ol_operation_id l /\ os_revision r = ol_revision l.

(** The same link, in a state that says whether its source is current. *)
Definition refreshed_requirement (rs : list RequirementTraceSourceV1) (l l' : RequirementTestTraceLinkV1) : Prop :=
  (rl_finding_id l', rl_requirement_id l', rl_revision l', rl_test_case_id l') =
  (rl_finding_id l, rl_requirement_id l, rl_revision l, rl_test_case_id l) /\
  (rl_state l' = CURRENT <-> requirement_current rs l).
Definition refreshed_operation (os : list OperationTraceSourceV1) (l l' : OperationTestTraceLinkV1) : Prop :=
  (ol_operation_id l', ol_revision l', ol_test_case_id l') = (ol_operation_id l, ol_revision l, ol_test_case_id l) /\
  (ol_state l' = CURRENT <-> operation_current os l).

Definition distinct_links (m : TraceabilityMatricesV1) : Prop :=
  NoDup ((fun l => (rl_finding_id l, rl_test_case_id l)) <$> requirement_test_links m) /\
  NoDup ((fun l => (ol_operation_id l, ol_test_case_id l)) <$> operation_test_links m).

Lemma refresh_requirement_spec rs l : NoDup (rs_finding_id <$> rs) ->
  refreshed_requirement rs l (refresh_requirement_link (requirement_dict rs) l).
Proof.
  intros Hnd. split; [done|]. unfold refresh_requirement_link, requirement_current. cbn.
  destruct (assoc_get (rl_finding_id l) (requirement_dict rs)) as [r|] eqn:Hg.
  - apply requirement_dict_get in Hg as [Hr Hf]; [|done]. destruct (_ && _) eqn:Hc.
    + bools. split; [intros _|done]. exists r. split_and!; try done; by apply str_eqb_eq.
    + split; [done|]. intros (r' & Hr' & Hf' & Hi & Hv).
      assert (r' = r) as -> by (apply (nodup_key rs_finding_id rs); [done..|congruence]).
      rewrite Hi, Hv, !str_eqb_refl in Hc. done.
  - split; [done|]. intros (r & Hr & Hf & _). exfalso.
    assert (assoc_get (rl_finding_id l) (requirement_dict rs) = Some r) as Hs by by apply requirement_dict_get.
    congruence.
Qed.
Lemma refresh_operation_spec os l : NoDup (os_operation_id <$> os) ->
  refreshed_operation os l (refresh_operation_link (operation_dict os) l).
Proof.
  intros Hnd. split; [done|]. unfold refresh_operation_link, operation_current. cbn.
  destruct (assoc_get (ol_operation_id l) (operation_dict os)) as [r|] eqn:Hg.
  - apply operation_dict_get in Hg as [Hr Hf]; [|done]. destruct (str_eqb _ _) eqn:Hc.
    + split; [intros _|done]. exists r. split_and!; try done; by apply str_eqb_eq.
    + split; [done|]. intros (r' & Hr' & Hf' & Hv).
      assert (r' = r) as -> by (apply (nodup_key os_operation_id os); [done..|congruence]).
      rewrite Hv, str_eqb_refl in Hc. done.
  - split; [done|]. intros (r & Hr & Hf & _). exfalso.
    assert (assoc_get (ol_operation_id l) (operation_dict os) = Some r) as Hs by by apply operation_dict_get.
    congruence.
Qed.

Lemma refresh_cases m rs os :
  match refresh_traceability_staleness m rs os with
  | Ok m' => valid_requirements rs /\ valid_operations os /\ distinct_links m /\
      m' = {| requirement_test_links := refresh_requirement_link (requirement_dict rs) <$> requirement_test_links m;
              operation_test_links := refresh_operation_link (operation_dict os) <$> operation_test_links m |}
  | Raise e => exn_cls e = TraceabilityRejected /\
      ~ (valid_requirements rs /\ valid_operations os /\ distinct_links m)
  end.
Proof.
  unfold refresh_traceability_staleness, valid_requirements, valid_operations, distinct_links.
  pose proof (index_requirements_spec rs [] (NoDup_nil_2)) as H1.
  destruct (index_requirements rs []) as [d1|e]; [|split; [apply H1|]; intros ([Hf Hn] & _); by apply H1].
  destruct H1 as (-> & Hn1 & Hf1). rewrite bind_ok. cbn [app] in *.
  pose proof (index_operations_spec os [] (NoDup_nil_2)) as H2.
  destruct (index_operations os []) as [d2|e]; [|split; [apply H2|]; intros (_ & [Hf Hn] & _); by apply H2].
  destruct H2 as (-> & Hn2 & Hf2). rewrite bind_ok. cbn [app] in *.
  unfold requirement_dict, operation_dict in Hn1, Hn2. rewrite <- list_fmap_compose in Hn1. rewrite <- list_fmap_compose in Hn2.
  unfold validate_matrix_links, rejected, raise.
  destruct (no_repeats ((fun l => (rl_finding_id l, _)) <$> _)) eqn:Hu1.
  2:{ split; [done|]. intros (_ & _ & Hn & _). unfold no_repeats in Hu1. by apply bool_decide_eq_false in Hu1. }
  rewrite bind_ok. destruct (no_repeats _) eqn:Hu2 in |- *.
  2:{ split; [done|]. intros (_ & _ & _ & Hn). unfold no_repeats in Hu2. by apply bool_decide_eq_false in Hu2. }
  rewrite bind_ok. bools. done.
Qed.

(** Refreshing keeps every link, in place and unchanged but for its state,
    which becomes current exactly if a source still has the link's identifiers
    and revision; it raises [TraceabilityRejected] exactly for invalid sources
    or repeated links. *)
Theorem refresh_traceability_staleness_spec m rs os :
  match refresh_traceability_staleness m rs os with
  | Ok m' => valid_requirements rs /\ valid_operations os /\ distinct_links m /\
      Forall2 (refreshed_requirement rs) (requirement_test_links m) (requirement_test_links m') /\
      Forall2 (refreshed_operation os) (operation_test_links m) (operation_test_links m')
  | Raise e => exn_cls e = TraceabilityRejected /\
      ~ (valid_requirements rs /\ valid_operations os /\ distinct_links m)
  end.
Proof.
  pose proof (refresh_cases m rs os) as H. destruct (refresh_traceability_staleness m rs os) as [m'|e]; [|done].
  destruct H as (Hr & Ho & Hm & ->). cbn. split_and!; [done..| |]; apply Forall2_fmap_r, Forall_Forall2_diag, Forall_true.
  - intros l. apply refresh_requirement_spec, Hr.
  - intros l. apply refresh_operation_spec, Ho.
Qed.

Lemma refreshed_requirement_current rs l :
  NoDup (rs_finding_id <$> rs) -> requirement_current rs l -> rl_state l = CURRENT ->
  refresh_requirement_link (requirement_dict rs) l = l.
Proof.
  intros Hnd Hc Hs. destruct (refresh_requirement_spec rs l Hnd) as [_ H5]. apply H5 in Hc.
  destruct l. unfold refresh_requirement_link in *. cbn in *. f_equal. congruence.
Qed.
Lemma refreshed_operation_current os l :
  NoDup (os_operation_id <$> os) -> operation_current os l -> ol_state l = CURRENT ->
  refresh_operation_link (operation_dict os) l = l.
Proof.
  intros Hnd Hc Hs. destruct (refresh_operation_spec os l Hnd) as [_ H5]. apply H5 in Hc.
  destruct l. unfold refresh_operation_link in *. cbn in *. f_equal. congruence.
Qed.

Lemma fmap_keeps {A} (f : A -> A) (l : list A) : (forall x, x ∈ l -> f x = x) -> f <$> l = l.
Proof. intros H. rewrite <- (list_fmap_id l) at 2. apply list_fmap_ext. intros i x Hx. by apply H, list_elem_of_lookup_2 with i. Qed.

(** A matrix refreshed against the sources it was built from is not changed. *)
Lemma refresh_built rs os ts m : build_traceability_matrices rs os ts = Ok m ->
  refresh_traceability_staleness m rs os = Ok m.
Proof.
  intros Hb. pose proof (build_cases rs os ts) as H. rewrite Hb in H. destruct H as [(Hr & Ho & Ht) ->].
  assert (distinct_links {| requirement_test_links := built_requirement_links rs ts;
      operation_test_links := built_operation_links os ts |}) as Hd.
  { split; cbn.
    - apply (NoDup_fmap_1 snd). rewrite <- list_fmap_compose. by apply built_requirement_nodup.
    - apply (NoDup_fmap_1 snd). rewrite <- list_fmap_compose. by apply built_operation_nodup. }
  match type of Hd with distinct_links ?m => pose proof (refresh_cases m rs os) as H end.
  destruct (refresh_traceability_staleness _ rs os) as [m'|e].
  2:{ by destruct H as [_ []]. }
  destruct H as (_ & _ & _ & ->). destruct Hr as [_ Hr], Ho as [_ Ho]. f_equal. f_equal; apply fmap_keeps; intros l Hl.
  - apply built_requirement_elem in Hl as (r & t & Hin & _ & _ & ->); [|done].
    apply refreshed_requirement_current; [done| |done]. by exists r.
  - apply built_operation_elem in Hl as (r & t & Hin & _ & _ & ->); [|done].
    apply refreshed_operation_current; [done| |done]. by exists r.
Qed.

(** What is built from sources and refreshed against the same sources is
    unchanged. *)
Theorem refresh_after_build rs os ts :
  (m ← build_traceability_matrices rs os ts; refresh_traceability_staleness m rs os) =
  build_traceability_matrices rs os ts.
Proof.
  destruct (build_traceability_matrices rs os ts) as [m|e] eqn:Hb; [|done]. rewrite bind_ok. by eapply refresh_built.
Qed.
End traceability.

Definition sample_requirement : RequirementTraceSourceV1 :=
  {| rs_finding_id := 8; rs_requirement_id := u "REQ-1"; rs_revision := u "r1" |}.
Definition sample_operation : OperationTraceSourceV1 :=
  {| os_operation_id := u "POST /orders"; os_revision := u "v1" |}.
Definition other_operation : OperationTraceSourceV1 :=
  {| os_operation_id := u "GET /orders"; os_revision := u "v1" |}.

(** The sample links both, and a revised source makes its links stale. *)
Example sample_links :
  build_traceability_matrices [sample_requirement] [other_operation; sample_operation] [sample_case] =
  Ok {| requirement_test_links := [{| rl_finding_id := 8; rl_requirement_id := u "REQ-1"; rl_revision := u "r1";
          rl_test_case_id := 7; rl_state := CURRENT |}];
        operation_test_links := [{| ol_operation_id := u "POST /orders"; ol_revision := u "v1";
          ol_test_case_id := 7; ol_state := CURRENT |}] |}.
Proof. vm_compute. reflexivity. Qed.

Lemma build_is_deterministic_witness :
  match build_traceability_matrices [sample_requirement] [other_operation; sample_operation] [sample_case],
        build_traceability_matrices [sample_requirement] [sample_operation; other_operation] [sample_case] with
  | Ok m, Ok m' => m = m'
  | Raise _, Raise _ => True
  | _, _ => False
  end.
Proof.
  apply build_is_deterministic; [|done|constructor|done]. apply Forall_cons; split; [reflexivity|constructor].
Defined.
