(* ===== verification/Retrieval.v ===== *)
(** * Hybrid retrieval ([hybrid_retrieval.py])

    Lexical and semantic candidates of a project, fused by reciprocal ranks
    and recorded in a trace in one transaction.  The full-text search and the
    vector distance of PostgreSQL and pgvector are interfaces. *)
From Stdlib Require Import Floats.SpecFloat.
From S2P Require Import Prelude PyText Json Digest Effects Database JobTables.
From S2P Require Import DocumentTables IndexingStore Sessions.

Definition HYBRID_RETRIEVAL_VERSION : pystr := u "hybrid-v1".
Definition FUSION_METHOD : pystr := u "reciprocal-rank-fusion-v1".
Definition RECIPROCAL_RANK_OFFSET : Z := 60.
Definition MAX_HYBRID_RESULT_LIMIT : Z := 100.
Definition MAX_QUERY_EMBEDDING_DIMENSIONS : Z := 2000.

(** What the database computes: the rank of a text for a query ([None] when
    the text does not match it), and the distance of a stored vector from a
    vector literal ([None] when the database refuses to compare them); and
    the interpreter's [format(x, ".17g")]. *)
Class SearchEngine := {
  ts_rank_cd : pystr -> pystr -> option spec_float;
  cosine_distance : list spec_float -> pystr -> option spec_float;
  format_17g : spec_float -> pystr;
}.

Record HybridRetrievalFilters := {
  f_model : pystr; f_version : pystr; f_version_ids : option (list uuid);
  f_types : option (list pystr); f_chunking_version : option pystr }.

Record HybridCandidate := {
  hc_chunk_id : uuid; hc_project_id : uuid; hc_version_id : uuid; hc_location_id : uuid;
  hc_type : pystr; hc_chunking_version : pystr; hc_ordinal : Z; hc_text : pystr;
  lexical_score : option spec_float; lexical_rank : option Z;
  semantic_distance : option spec_float; semantic_rank : option Z;
  fusion_score : spec_float; rank : option Z }.

Record HybridRetrievalResponse := {
  hr_version : pystr; hr_method : pystr; hr_trace_id : uuid; hr_query : pystr; hr_project_id : uuid;
  candidates : list HybridCandidate }.

(** ** Order of floats in the database

    As for numbers, and NaN, equal to itself, after all of them. *)
Definition pg_compare (x y : spec_float) : comparison :=
  match SFcompare x y with
  | Some c => c
  | None =>
      match x, y with
      | S754_nan, S754_nan => Eq
      | S754_nan, _ => Gt
      | _, _ => Lt
      end
  end.

(** ** The rows a candidate statement joins *)

Abbreviation joined := (DocumentChunkRecord * DocumentRecord)%type.

(** [column.in_(values)], when the filter is given *)
Definition unfiltered_or {A} `{EqDecision A} (values : option (list A)) (x : A) : bool :=
  match values with Some l => bool_decide (x ∈ l) | None => true end.

Definition passes_filters (f : HybridRetrievalFilters) (chunk : DocumentChunkRecord)
    (document : DocumentRecord) : bool :=
  unfiltered_or (f_version_ids f) (chk_version_id chunk) &&
  unfiltered_or (f_types f) (document_type document) &&
  match f_chunking_version f with
  | Some v => str_eqb (chk_chunking_version chunk) v
  | None => true
  end.

(** A chunk with its document, if the chunk belongs to the project and passes
    the filters. *)
Definition join_document (project_id : uuid) (f : HybridRetrievalFilters) (d : doc_db)
    (chunk : DocumentChunkRecord) : option joined :=
  version ← versions d !! chk_version_id chunk;
  document ← documents (queues d) !! ver_document_id version;
  if (doc_project_id document =? project_id)%N && passes_filters f chunk document
  then Some (chunk, document) else None.

(** [_candidate_statement] *)
Definition candidate_statement (project_id : uuid) (f : HybridRetrievalFilters) (d : doc_db) :
    list joined :=
  omap (join_document project_id f d) (map_to_list (chunk_rows d)).*2.

(** [_candidate_from_row] *)
Definition candidate_from_row (row : joined) (score : option spec_float) (lexical : option Z)
    (distance : option spec_float) (semantic : option Z) : HybridCandidate := {|
  hc_chunk_id := chk_id row.1; hc_project_id := doc_project_id row.2;
  hc_version_id := chk_version_id row.1; hc_location_id := chk_location_id row.1;
  hc_type := document_type row.2; hc_chunking_version := chk_chunking_version row.1;
  hc_ordinal := chk_ordinal row.1; hc_text := chk_text row.1;
  lexical_score := score; lexical_rank := lexical;
  semantic_distance := distance; semantic_rank := semantic;
  fusion_score := S754_zero false; rank := None |}.

(** A joined row with the value the statement orders by. *)
Abbreviation scored := (joined * spec_float)%type.

(** [ORDER BY ..., ordinal ASC, id ASC] *)
Definition row_position_leb (a b : joined) : bool :=
  match chk_ordinal a.1 ?= chk_ordinal b.1 with
  | Lt => true
  | Gt => false
  | Eq => (chk_id a.1 <=? chk_id b.1)%N
  end.
Definition lexical_le (a b : scored) : Prop :=
  match pg_compare a.2 b.2 with Gt => true | Lt => false | Eq => row_position_leb a.1 b.1 end = true.
Definition semantic_le (a b : scored) : Prop :=
  match pg_compare a.2 b.2 with Lt => true | Gt => false | Eq => row_position_leb a.1 b.1 end = true.
#[export] Instance lexical_le_dec a b : Decision (lexical_le a b) := decide (_ = true).
#[export] Instance semantic_le_dec a b : Decision (semantic_le a b) := decide (_ = true).

(** [for index, row in enumerate(rows, start=1)] *)
Definition enumerate {A B} (f : Z -> A -> B) (rows : list A) : list B :=
  imap (fun i row => f (Z.of_nat i + 1) row) rows.

Definition lexical_candidate (index : Z) (row : scored) : HybridCandidate :=
  candidate_from_row row.1 (Some row.2) (Some index) None None.
Definition semantic_candidate (index : Z) (row : scored) : HybridCandidate :=
  candidate_from_row row.1 None None (Some row.2) (Some index).

Section search.
Context {engine : SearchEngine}.

(** [_pgvector_literal] *)
Definition pgvector_literal (values : list spec_float) : pystr :=
  u "[" ++ join (u ",") (format_17g <$> values) ++ u "]".

(** [_lexical_candidates] *)
Definition lexical_score_of (text_query : pystr) (row : joined) : option scored :=
  score ← ts_rank_cd (chk_text row.1) text_query; Some (row, score).
Definition lexical_candidates (project_id : uuid) (text_query : pystr) (f : HybridRetrievalFilters)
    (limit : Z) (d : doc_db) : list HybridCandidate :=
  enumerate lexical_candidate
    (take (Z.to_nat limit)
      (merge_sort lexical_le (omap (lexical_score_of text_query) (candidate_statement project_id f d)))).

(** The embeddings of a chunk under the filters' model and version. *)
Definition embeddings_of (project_id : uuid) (f : HybridRetrievalFilters) (d : doc_db)
    (chunk : uuid) : list EmbeddingCacheRecord :=
  omap (fun link => e ← embedding_rows d !! lnk_embedding_id link;
          if (emb_project_id e =? project_id)%N && str_eqb (emb_model e) (f_model f) &&
             str_eqb (emb_version e) (f_version f) then Some e else None)
    (select (fun link => (lnk_chunk_id link =? chunk)%N && str_eqb (lnk_model link) (f_model f) &&
                         str_eqb (lnk_version link) (f_version f)) (link_rows d)).

Definition distance_of (literal : pystr) (row : joined * EmbeddingCacheRecord) : result scored :=
  distance ← or_raise (cosine_distance (emb_values row.2) literal)
               (Exn SQLAlchemyError "the vectors cannot be compared");
  Ok (row.1, distance).

(** [_semantic_candidates] *)
Definition semantic_candidates (project_id : uuid) (vector : list spec_float)
    (f : HybridRetrievalFilters) (limit : Z) (d : doc_db) : result (list HybridCandidate) :=
  let rows := candidate_statement project_id f d ≫= (fun row =>
    (fun e => (row, e)) <$> embeddings_of project_id f d (chk_id row.1)) in
  rows ← try_map (distance_of (pgvector_literal vector)) rows;
  Ok (enumerate semantic_candidate (take (Z.to_nat limit) (merge_sort semantic_le rows))).
End search.

(** ** Fusion *)

(** [float(z)] *)
Definition to_float (z : Z) : spec_float := binary_normalize 53 1024 z 0 false.
Definition fadd := SFadd 53 1024.
Definition fsub := SFsub 53 1024.

(** [sum] of floats: the interpreter adds with compensation (Neumaier). *)
Definition sum_step (acc : spec_float * spec_float) (x : spec_float) : spec_float * spec_float :=
  let '(total, c) := acc in
  let t := fadd total x in
  (t, fadd c (if SFleb (SFabs x) (SFabs total) then fadd (fsub total t) x else fadd (fsub x t) total)).
Definition sum_floats (l : list spec_float) : spec_float :=
  match l with
  | [] => S754_zero false
  | x :: l =>
      let '(total, c) := foldl sum_step (fadd (to_float 0) x, S754_zero false) l in
      match c with
      | S754_finite _ _ _ => fadd total c
      | _ => total
      end
  end.

(** [_reciprocal_rank_score] *)
Definition reciprocal_rank_score (lexical semantic : option Z) : spec_float :=
  sum_floats ((fun r => SFdiv 53 1024 (to_float 1) (to_float (RECIPROCAL_RANK_OFFSET + r))) <$>
              omap (fun r => r) [lexical; semantic]).

Definition with_semantic (c s : HybridCandidate) : HybridCandidate := {|
  hc_chunk_id := hc_chunk_id c; hc_project_id := hc_project_id c; hc_version_id := hc_version_id c;
  hc_location_id := hc_location_id c; hc_type := hc_type c;
  hc_chunking_version := hc_chunking_version c; hc_ordinal := hc_ordinal c; hc_text := hc_text c;
  lexical_score := lexical_score c; lexical_rank := lexical_rank c;
  semantic_distance := semantic_distance s; semantic_rank := semantic_rank s;
  fusion_score := fusion_score c; rank := rank c |}.
Definition with_score (c : HybridCandidate) (s : spec_float) : HybridCandidate := {|
  hc_chunk_id := hc_chunk_id c; hc_project_id := hc_project_id c; hc_version_id := hc_version_id c;
  hc_location_id := hc_location_id c; hc_type := hc_type c;
  hc_chunking_version := hc_chunking_version c; hc_ordinal := hc_ordinal c; hc_text := hc_text c;
  lexical_score := lexical_score c; lexical_rank := lexical_rank c;
  semantic_distance := semantic_distance c; semantic_rank := semantic_rank c;
  fusion_score := s; rank := rank c |}.
Definition with_rank (c : HybridCandidate) (r : option Z) : HybridCandidate := {|
  hc_chunk_id := hc_chunk_id c; hc_project_id := hc_project_id c; hc_version_id := hc_version_id c;
  hc_location_id := hc_location_id c; hc_type := hc_type c;
  hc_chunking_version := hc_chunking_version c; hc_ordinal := hc_ordinal c; hc_text := hc_text c;
  lexical_score := lexical_score c; lexical_rank := lexical_rank c;
  semantic_distance := semantic_distance c; semantic_rank := semantic_rank c;
  fusion_score := fusion_score c; rank := r |}.

(** One semantic candidate joins the lexical ones. *)
Definition merge_candidate (d : list (uuid * HybridCandidate)) (c : HybridCandidate) :
    list (uuid * HybridCandidate) :=
  match assoc_get (hc_chunk_id c) d with
  | None => assoc_set (hc_chunk_id c) c d
  | Some existing => assoc_set (hc_chunk_id c) (with_semantic existing c) d
  end.

(** [<] on the sort keys [(-fusion_score, ordinal, str(chunk_id))] *)
Definition fused_ltb (a b : HybridCandidate) : bool :=
  let x := SFopp (fusion_score a) in
  let y := SFopp (fusion_score b) in
  if SFeqb x y then
    if hc_ordinal a =? hc_ordinal b then
      negb (str_leb (uuid_str (hc_chunk_id b)) (uuid_str (hc_chunk_id a)))
    else hc_ordinal a <? hc_ordinal b
  else SFltb x y.
Definition fused_le (a b : HybridCandidate) : Prop := fused_ltb b a = false.
#[export] Instance fused_le_dec a b : Decision (fused_le a b) := decide (_ = false).

(** [_fuse_candidates] *)
Definition merged_candidates (lexical semantic : list HybridCandidate) : list HybridCandidate :=
  (foldl merge_candidate (foldl (fun d c => assoc_set (hc_chunk_id c) c d) [] lexical) semantic).*2.
Definition scored_candidate (c : HybridCandidate) : HybridCandidate :=
  with_score c (reciprocal_rank_score (lexical_rank c) (semantic_rank c)).
Definition fuse_candidates (lexical semantic : list HybridCandidate) (result_limit : Z) :
    list HybridCandidate * list HybridCandidate :=
  let ordered := stable_sort fused_le (scored_candidate <$> merged_candidates lexical semantic) in
  let selected_ids := hc_chunk_id <$> take (Z.to_nat result_limit) ordered in
  let traced := enumerate (fun index c =>
    with_rank c (if bool_decide (hc_chunk_id c ∈ selected_ids) then Some index else None)) ordered in
  (traced, List.filter (fun c => has (rank c)) traced).

(** ** Validation *)

Section retrieval.
Context {rt : PyRuntime} {engine : SearchEngine}.

Definition blank (s : pystr) : bool := bool_decide (strip s = []).

(** [HybridRetrievalFilters.validate] *)
Definition validate_filters (f : HybridRetrievalFilters) : result unit :=
  raise_if (blank (f_model f) || blank (f_version f)) ValueError
    "Embedding model and version must be non-empty" ;;
  raise_if (match f_types f with
            | Some types => bool_decide (types = []) || existsb blank types
            | None => false
            end) ValueError "Document type filters must be non-empty" ;;
  raise_if (match f_chunking_version f with Some v => blank v | None => false end) ValueError
    "Chunking version filter must be non-empty".

(** [_validate_query_embedding] *)
Definition finite (x : spec_float) : bool :=
  match x with S754_zero _ | S754_finite _ _ _ => true | _ => false end.
Definition validate_query_embedding (vector : list spec_float) : result unit :=
  raise_if (bool_decide (vector = []) || (MAX_QUERY_EMBEDDING_DIMENSIONS <? zlen vector)) ValueError
    "Query embedding must be non-empty and within the supported dimension limit" ;;
  raise_if (existsb (fun x => negb (finite x)) vector) ValueError
    "Query embedding values must be finite".

(** ** The SQL store *)

Section store.
Context {E : Type} (o : outside).

Definition trace_row (id project_id : uuid) (text_query : pystr) (vector : list spec_float)
    (f : HybridRetrievalFilters) (candidate_limit result_limit : Z) (now : instant) :
    RetrievalTraceRecord := {|
  rt_id := id; rt_project_id := project_id; retrieval_version := HYBRID_RETRIEVAL_VERSION;
  fusion_method := FUSION_METHOD; rt_query := text_query; query_embedding := vector;
  rt_model := f_model f; rt_version := f_version f;
  rt_version_ids := map uuid_str <$> f_version_ids f;
  rt_types := match f_types f with Some ((_ :: _) as types) => Some types | _ => None end;
  rt_chunking_version := f_chunking_version f;
  DocumentTables.candidate_limit := candidate_limit;
  DocumentTables.result_limit := result_limit; rt_created_at := now |}.

Definition trace_candidate_row (id trace_id : uuid) (c : HybridCandidate) :
    RetrievalTraceCandidateRecord := {|
  rc_id := id; rc_trace_id := trace_id; rc_chunk_id := hc_chunk_id c;
  rc_lexical_score := lexical_score c; rc_lexical_rank := lexical_rank c;
  rc_semantic_distance := semantic_distance c; rc_semantic_rank := semantic_rank c;
  rc_fusion_score := fusion_score c; final_rank := rank c |}.

Fixpoint trace_candidate_rows (trace_id : uuid) (l : list HybridCandidate) :
    io (txn (E := E)) (list RetrievalTraceCandidateRecord) :=
  match l with
  | [] => mret []
  | c :: l =>
      id ← inside (look_outside (new_id o));
      rows ← trace_candidate_rows trace_id l;
      mret (trace_candidate_row id trace_id c :: rows)
  end.

(** The transaction of [SqlAlchemyHybridRetrievalStore.retrieve]; the pending
    candidate rows are written when it commits. *)
Definition retrieval (project_id : uuid) (text_query : pystr) (vector : list spec_float)
    (f : HybridRetrievalFilters) (candidate_limit result_limit : Z) :
    io (txn (E := E)) (uuid * list HybridCandidate) :=
  lexical ← ask o (lexical_candidates project_id text_query f candidate_limit);
  semantic ← sql o (fun d => l ← semantic_candidates project_id vector f candidate_limit d; Ok (l, d));
  let '(all_candidates, selected) := fuse_candidates lexical semantic result_limit in
  trace_id ← inside (look_outside (new_id o));
  now ← inside (look_outside (clock_at o));
  change o (insert_trace
    (trace_row trace_id project_id text_query vector f candidate_limit result_limit now)) ;;
  rows ← trace_candidate_rows trace_id all_candidates;
  match rows with
  | [] => mret tt
  | _ => change o (flush (insert_candidate <$> rows))
  end ;;
  mret (trace_id, selected).

Definition sql_retrieve (project_id : uuid) (text_query : pystr) (vector : list spec_float)
    (f : HybridRetrievalFilters) (candidate_limit result_limit : Z) :
    io (world E) (uuid * list HybridCandidate) :=
  lift (validate_filters f) ;;
  io_try (begin o (retrieval project_id text_query vector f candidate_limit result_limit))
    is_SQLAlchemyError (fun _ => io_raise HybridRetrievalUnavailable "").

(** ** The service *)

(** The checks of [HybridRetrievalService.retrieve]: the normalised query. *)
Definition check_retrieval (raw_query : pystr) (vector : list spec_float)
    (f : HybridRetrievalFilters) (candidate_limit result_limit : Z) : result pystr :=
  let normalized_query := join (u " ") (split_ws raw_query) in
  raise_if (bool_decide (normalized_query = []) || negb (existsb cp_isalnum normalized_query))
    ValueError "Hybrid query must contain searchable text" ;;
  validate_query_embedding vector ;;
  raise_if (negb ((1 <=? result_limit) && (result_limit <=? MAX_HYBRID_RESULT_LIMIT))) ValueError
    "Hybrid result limit must be between 1 and 100" ;;
  raise_if (negb ((result_limit <=? candidate_limit) && (candidate_limit <=? MAX_HYBRID_RESULT_LIMIT)))
    ValueError "Hybrid candidate limit must be at least the result limit and at most 100" ;;
  validate_filters f ;;
  Ok normalized_query.

Definition retrieve (project_id : uuid) (raw_query : pystr) (vector : list spec_float)
    (f : HybridRetrievalFilters) (candidate_limit result_limit : Z) :
    io (world E) HybridRetrievalResponse :=
  normalized_query ← lift (check_retrieval raw_query vector f candidate_limit result_limit);
  found ← sql_retrieve project_id normalized_query vector f candidate_limit result_limit;
  mret {| hr_version := HYBRID_RETRIEVAL_VERSION; hr_method := FUSION_METHOD;
          hr_trace_id := found.1; hr_query := normalized_query; hr_project_id := project_id;
          candidates := found.2 |}.
End store.
End retrieval.
