(* ===== verification/Fusion.v ===== *)
(** * Reciprocal-rank fusion: properties

    The order of floats as an order on integers, the scores of ranks, and what
    [fuse_candidates] makes of two ranked lists: their union, each chunk once
    with its rank in either list, ordered by score, the first of them
    selected. *)
From stdpp Require Import sorting.
From Stdlib Require Import Floats.SpecFloat.
From S2P Require Import Prelude PyText Json JsonFacts Digest Database JobTables DocumentTables Retrieval.

(** ** Floats in order *)

(** A key that orders floats: class and sign, exponent, mantissa. *)
Definition float_key (x : spec_float) : Z * Z * Z :=
  match x with
  | S754_nan => (3, 0, 0)
  | S754_infinity false => (2, 0, 0)
  | S754_finite false m e => (1, e, Z.pos m)
  | S754_zero _ => (0, 0, 0)
  | S754_finite true m e => (-1, - e, Z.neg m)
  | S754_infinity true => (-2, 0, 0)
  end.
Definition key_lt (a b : Z * Z * Z) : Prop :=
  a.1.1 < b.1.1 \/ (a.1.1 = b.1.1 /\ (a.1.2 < b.1.2 \/ (a.1.2 = b.1.2 /\ a.2 < b.2))).
Definition key_ltb (a b : Z * Z * Z) : bool :=
  (a.1.1 <? b.1.1) || ((a.1.1 =? b.1.1) && ((a.1.2 <? b.1.2) || ((a.1.2 =? b.1.2) && (a.2 <? b.2)))).

Lemma key_ltb_lt a b : key_ltb a b = true <-> key_lt a b.
Proof.
  unfold key_ltb, key_lt.
  rewrite orb_true_iff, andb_true_iff, orb_true_iff, andb_true_iff, !Z.ltb_lt, !Z.eqb_eq. done.
Qed.

Lemma pg_compare_key x y :
  CompareSpec (float_key x = float_key y) (key_lt (float_key x) (float_key y))
    (key_lt (float_key y) (float_key x)) (pg_compare x y).
Proof.
  assert (forall m1 m2, CompareSpec (m1 = m2) (m1 < m2)%positive (m2 < m1)%positive (Pos.compare_cont Eq m1 m2))
    as Hm by (intros; apply Pos.compare_spec).
  destruct x as [[]|[]| |[] m1 e1], y as [[]|[]| |[] m2 e2]; cbn;
    try (constructor; cbn; unfold key_lt; cbn; first [done | lia]).
  - destruct (Z.compare_spec e1 e2) as [->|?|?]; try (constructor; unfold key_lt; cbn; lia).
    destruct (Hm m1 m2) as [->|?|?]; constructor; unfold key_lt; cbn; first [done | lia].
  - destruct (Z.compare_spec e1 e2) as [->|?|?]; try (constructor; unfold key_lt; cbn; lia).
    destruct (Hm m1 m2) as [->|?|?]; constructor; unfold key_lt; cbn; first [done | lia].
Qed.

(** ** The order of the database's rows *)

Lemma row_position_leb_spec a b : row_position_leb a b = true <->
  chk_ordinal a.1 < chk_ordinal b.1 \/ (chk_ordinal a.1 = chk_ordinal b.1 /\ (chk_id a.1 <= chk_id b.1)%N).
Proof.
  unfold row_position_leb. destruct (Z.compare_spec (chk_ordinal a.1) (chk_ordinal b.1)) as [H|H|H].
  - rewrite N.leb_le. lia.
  - split; [by left|done].
  - split; [done|lia].
Qed.

Lemma lexical_le_spec a b : lexical_le a b <->
  key_lt (float_key b.2) (float_key a.2) \/
  (float_key b.2 = float_key a.2 /\ row_position_leb a.1 b.1 = true).
Proof.
  unfold lexical_le. destruct (pg_compare_key a.2 b.2) as [H|H|H].
  - rewrite H. unfold key_lt. split; [auto|]. intros [?|[_ ?]]; [lia|done].
  - split; [done|]. intros [?|[Heq _]]; [unfold key_lt in *; lia|]. rewrite Heq in H. unfold key_lt in H. lia.
  - split; [by left|done].
Qed.
Lemma semantic_le_spec a b : semantic_le a b <->
  key_lt (float_key a.2) (float_key b.2) \/
  (float_key a.2 = float_key b.2 /\ row_position_leb a.1 b.1 = true).
Proof.
  unfold semantic_le. destruct (pg_compare_key a.2 b.2) as [H|H|H].
  - rewrite H. unfold key_lt. split; [auto|]. intros [?|[_ ?]]; [lia|done].
  - split; [by left|done].
  - split; [done|]. intros [?|[Heq _]]; [unfold key_lt in *; lia|]. rewrite Heq in H. unfold key_lt in H. lia.
Qed.

Lemma key_lt_trans a b c : key_lt a b -> key_lt b c -> key_lt a c.
Proof. unfold key_lt. lia. Qed.
Lemma key_lt_total a b : key_lt a b \/ a = b \/ key_lt b a.
Proof.
  destruct a as [[a1 a2] a3], b as [[b1 b2] b3]. unfold key_lt. cbn.
  destruct (Z.lt_trichotomy a1 b1) as [?|[->|?]]; [auto| |lia].
  destruct (Z.lt_trichotomy a2 b2) as [?|[->|?]]; [lia| |lia].
  destruct (Z.lt_trichotomy a3 b3) as [?|[->|?]]; [lia|auto|lia].
Qed.
Lemma key_lt_irrefl a : ~ key_lt a a.
Proof. unfold key_lt. lia. Qed.

Lemma row_position_total a b : row_position_leb a b = true \/ row_position_leb b a = true.
Proof. rewrite !row_position_leb_spec. lia. Qed.
Lemma row_position_trans a b c :
  row_position_leb a b = true -> row_position_leb b c = true -> row_position_leb a c = true.
Proof. rewrite !row_position_leb_spec. lia. Qed.

#[export] Instance lexical_total : Total lexical_le.
Proof.
  intros a b. rewrite !lexical_le_spec. destruct (key_lt_total (float_key a.2) (float_key b.2)) as [?|[->|?]]; [auto| |auto].
  destruct (row_position_total a.1 b.1); auto.
Qed.
#[export] Instance lexical_trans : Transitive lexical_le.
Proof.
  intros a b c. rewrite !lexical_le_spec. intros [H1|[H1 P1]] [H2|[H2 P2]].
  - left. by eapply key_lt_trans.
  - left. by rewrite H2.
  - left. by rewrite <- H1.
  - right. split; [congruence|by eapply row_position_trans].
Qed.
#[export] Instance semantic_total : Total semantic_le.
Proof.
  intros a b. rewrite !semantic_le_spec. destruct (key_lt_total (float_key a.2) (float_key b.2)) as [?|[->|?]]; [auto| |auto].
  destruct (row_position_total a.1 b.1); auto.
Qed.
#[export] Instance semantic_trans : Transitive semantic_le.
Proof.
  intros a b c. rewrite !semantic_le_spec. intros [H1|[H1 P1]] [H2|[H2 P2]].
  - left. by eapply key_lt_trans.
  - left. by rewrite <- H2.
  - left. by rewrite H1.
  - right. split; [congruence|by eapply row_position_trans].
Qed.

(** ** The scores of ranks *)

(** What a rank adds to a score. *)
Definition reciprocal (r : Z) : spec_float := SFdiv 53 1024 (to_float 1) (to_float (RECIPROCAL_RANK_OFFSET + r)).
Definition sum_two (a b : option spec_float) : spec_float := sum_floats (omap (fun x => x) [a; b]).

Lemma reciprocal_rank_score_eq l s : reciprocal_rank_score l s = sum_two (reciprocal <$> l) (reciprocal <$> s).
Proof. by destruct l, s. Qed.

(** Ranks by position: one past the last stands for no rank. *)
Definition rank_at (i : nat) : option Z := if decide (i < 100)%nat then Some (Z.of_nat i + 1) else None.
Definition reciprocals : list (option spec_float) := (fun i => reciprocal <$> rank_at i) <$> seq 0 101.
Definition score_table : list (list (Z * Z * Z)) :=
  let t := reciprocals in (fun a => (fun b => float_key (sum_two a b)) <$> t) <$> t.

Fixpoint adjacent {A} (p : A -> A -> bool) (l : list A) : bool :=
  match l with
  | x :: ((y :: _) as l') => p x y && adjacent p l'
  | _ => true
  end.
Definition higher (a b : Z * Z * Z) : bool := key_ltb b a.

(** A better rank in either list, the other rank being the same, gives a
    higher score. *)
Lemma score_table_decreases :
  forallb (adjacent higher) score_table &&
  adjacent (fun r r' => forallb (fun p => higher p.1 p.2) (zip r r')) score_table = true.
Proof. vm_compute. reflexivity. Qed.

Lemma adjacent_lookup {A} (p : A -> A -> bool) l i x y :
  adjacent p l = true -> l !! i = Some x -> l !! S i = Some y -> p x y = true.
Proof.
  revert i. induction l as [|a [|b l] IH]; intros i H Hx Hy; [discriminate Hx|discriminate Hy|].
  apply andb_true_iff in H as [Hab H]. destruct i as [|i]; [|exact (IH i H Hx Hy)].
  injection Hx as ->. by injection Hy as ->.
Qed.

Definition score_key (i j : nat) : Z * Z * Z := float_key (reciprocal_rank_score (rank_at i) (rank_at j)).

Lemma reciprocals_lookup i : (i <= 100)%nat -> reciprocals !! i = Some (reciprocal <$> rank_at i).
Proof. intros Hi. unfold reciprocals. by rewrite list_lookup_fmap, lookup_seq_lt by lia. Qed.
Lemma score_table_lookup i : (i <= 100)%nat ->
  score_table !! i = Some ((fun b => float_key (sum_two (reciprocal <$> rank_at i) b)) <$> reciprocals).
Proof. intros Hi. unfold score_table. by rewrite list_lookup_fmap, reciprocals_lookup. Qed.
Lemma score_row_lookup i j : (j <= 100)%nat ->
  ((fun b => float_key (sum_two (reciprocal <$> rank_at i) b)) <$> reciprocals) !! j = Some (score_key i j).
Proof.
  intros Hj. rewrite list_lookup_fmap, reciprocals_lookup by done. cbn. unfold score_key.
  by rewrite reciprocal_rank_score_eq.
Qed.

Lemma score_step i k : (i < 100)%nat -> (k <= 100)%nat ->
  key_lt (score_key (S i) k) (score_key i k) /\ key_lt (score_key k (S i)) (score_key k i).
Proof.
  intros Hi Hk. pose proof score_table_decreases as [Hr Hc]%andb_true_iff. rewrite <- !key_ltb_lt. split.
  - pose proof (adjacent_lookup _ _ i _ _ Hc (score_table_lookup i ltac:(lia)) (score_table_lookup (S i) ltac:(lia))) as H.
    cbv beta in H. rewrite forallb_Forall, Forall_lookup in H. apply (H k (score_key i k, score_key (S i) k)).
    by rewrite lookup_zip_with, !score_row_lookup by done.
  - rewrite forallb_Forall, Forall_lookup in Hr.
    exact (adjacent_lookup _ _ i _ _ (Hr k _ (score_table_lookup k Hk)) (score_row_lookup k i ltac:(lia))
             (score_row_lookup k (S i) ltac:(lia))).
Qed.

Lemma score_left i j k : (i < j)%nat -> (j <= 100)%nat -> (k <= 100)%nat ->
  key_lt (score_key j k) (score_key i k).
Proof.
  intros Hij Hj Hk. induction Hij as [|j Hij IH]; [by apply score_step|].
  eapply key_lt_trans; [apply score_step; lia|apply IH; lia].
Qed.
Lemma score_right i j k : (i < j)%nat -> (j <= 100)%nat -> (k <= 100)%nat ->
  key_lt (score_key k j) (score_key k i).
Proof.
  intros Hij Hj Hk. induction Hij as [|j Hij IH]; [by apply score_step|].
  eapply key_lt_trans; [apply score_step; lia|apply IH; lia].
Qed.

(** Positions of ranks. *)
Definition valid_rank (r : option Z) : Prop := match r with Some r => 1 <= r <= MAX_HYBRID_RESULT_LIMIT | None => True end.
Definition position (r : option Z) : nat := match r with Some r => Z.to_nat (r - 1) | None => 100%nat end.
Lemma rank_at_position r : valid_rank r -> rank_at (position r) = r.
Proof.
  destruct r as [r|]; [|done]. unfold valid_rank, MAX_HYBRID_RESULT_LIMIT, rank_at, position. intros Hr.
  rewrite decide_True by lia. f_equal. lia.
Qed.
Lemma position_le r : valid_rank r -> (position r <= 100)%nat.
Proof. destruct r as [r|]; unfold valid_rank, MAX_HYBRID_RESULT_LIMIT, position; lia. Qed.

(** [r] is at least as good a rank as [r']; no rank is the worst. *)
Definition better_or_same (r r' : option Z) : Prop :=
  match r, r' with Some r, Some r' => r <= r' | _, None => True | None, Some _ => False end.

Lemma better_position r r' : valid_rank r -> valid_rank r' -> better_or_same r r' ->
  (position r <= position r')%nat /\ (r <> r' -> (position r < position r')%nat).
Proof.
  destruct r as [r|], r' as [r'|]; unfold valid_rank, MAX_HYBRID_RESULT_LIMIT, better_or_same, position; intros; try lia.
  - split; [lia|]. intros Hne. assert (r <> r') by congruence. lia.
  - split; [lia|]. by intros [].
Qed.

(** Ranks at least as good in both lists and better in one give a higher
    score. *)
Lemma dominating_score l s l' s' :
  valid_rank l -> valid_rank s -> valid_rank l' -> valid_rank s' ->
  better_or_same l l' -> better_or_same s s' -> (l, s) <> (l', s') ->
  key_lt (float_key (reciprocal_rank_score l' s')) (float_key (reciprocal_rank_score l s)).
Proof.
  intros Hl Hs Hl' Hs' Hbl Hbs Hne.
  destruct (better_position l l' Hl Hl' Hbl) as [Ll Ll2], (better_position s s' Hs Hs' Hbs) as [Ls Ls2].
  pose proof (position_le _ Hl'). pose proof (position_le _ Hs'). pose proof (position_le _ Hs).
  rewrite <- (rank_at_position l Hl), <- (rank_at_position s Hs), <- (rank_at_position l' Hl'),
    <- (rank_at_position s' Hs'). fold (score_key (position l) (position s)) (score_key (position l') (position s')).
  destruct (decide (l = l')) as [<-|Hnl].
  - apply score_right; [apply Ls2; congruence|done..].
  - destruct (decide (s = s')) as [<-|Hns]; [apply score_left; [by apply Ll2|done..]|].
    eapply key_lt_trans; [apply score_right, position_le; [by apply Ls2|done..]|apply score_left; [by apply Ll2|done..]].
Qed.

(** ** The order of fused candidates *)

Lemma SFopp_compare x y : x <> S754_nan -> y <> S754_nan ->
  SFcompare (SFopp x) (SFopp y) = Some (pg_compare y x).
Proof.
  intros Hx Hy. destruct x as [[]|[]| |[] m1 e1], y as [[]|[]| |[] m2 e2]; cbn; try done; f_equal;
    change (Pos.compare_cont Eq ?a ?b) with (a ?= b)%positive; rewrite (Z.compare_antisym e1 e2), (Pos.compare_antisym m1 m2);
    destruct (e1 ?= e2); cbn; try done; by destruct (m1 ?= m2)%positive.
Qed.

(** Higher scores first, then the order of the document, then identifiers. *)
Definition fused_order (a b : HybridCandidate) : Prop :=
  key_lt (float_key (fusion_score b)) (float_key (fusion_score a)) \/
  (float_key (fusion_score a) = float_key (fusion_score b) /\
   (hc_ordinal a < hc_ordinal b \/
    (hc_ordinal a = hc_ordinal b /\ str_le (uuid_str (hc_chunk_id a)) (uuid_str (hc_chunk_id b))))).

Lemma fused_le_order a b : fusion_score a <> S754_nan -> fusion_score b <> S754_nan ->
  fused_le a b <-> fused_order a b.
Proof.
  intros Ha Hb. unfold fused_le, fused_ltb, fused_order, SFeqb, SFltb. rewrite SFopp_compare by done.
  destruct (pg_compare_key (fusion_score a) (fusion_score b)) as [H|H|H].
  - rewrite H. destruct (Z.eqb_spec (hc_ordinal b) (hc_ordinal a)) as [He|He].
    + rewrite negb_false_iff. fold (str_le (uuid_str (hc_chunk_id a)) (uuid_str (hc_chunk_id b))).
      split; [auto|]. intros [?%key_lt_irrefl|[_ [?|[_ ?]]]]; [done|lia|done].
    + rewrite Z.ltb_ge. split; [intros; right; split; [done|lia]|].
      intros [?%key_lt_irrefl|[_ [?|[? _]]]]; [done|lia|lia].
  - split; [done|]. intros [?|[Heq _]]; exfalso; [by eapply key_lt_irrefl, key_lt_trans|].
    rewrite Heq in H. by eapply key_lt_irrefl.
  - split; [by left|done].
Qed.

#[export] Instance fused_order_total : Total fused_order.
Proof.
  intros a b. unfold fused_order.
  destruct (key_lt_total (float_key (fusion_score a)) (float_key (fusion_score b))) as [?|[->|?]]; [auto| |auto].
  destruct (Z.lt_trichotomy (hc_ordinal a) (hc_ordinal b)) as [?|[->|?]]; [auto| |auto 6].
  destruct (total str_le (uuid_str (hc_chunk_id a)) (uuid_str (hc_chunk_id b))); auto 8.
Qed.
#[export] Instance fused_order_trans : Transitive fused_order.
Proof.
  intros a b c [H1|[H1 P1]] [H2|[H2 P2]].
  - left. by eapply key_lt_trans.
  - left. by rewrite <- H2.
  - left. by rewrite H1.
  - right. split; [congruence|]. destruct P1 as [?|[-> ?]], P2 as [?|[? ?]]; [left; lia|left; lia|left; lia|].
    right. split; [done|]. by etrans.
Qed.
#[export] Instance fused_order_dec a b : Decision (fused_order a b).
Proof. unfold fused_order, key_lt, str_le. apply _. Defined.

Lemma sorted_insert_ext {A} (R R' : relation A) `{forall x y, Decision (R x y)} `{forall x y, Decision (R' x y)} x l :
  (forall y, y ∈ l -> R x y <-> R' x y) -> sorted_insert R x l = sorted_insert R' x l.
Proof.
  intros Hext. induction l as [|y l IH]; [done|]. cbn. rewrite IH by (intros z Hz; apply Hext; by right).
  destruct (decide (R x y)) as [Hd|Hd]; [rewrite decide_True|rewrite decide_False]; try done; by rewrite <- Hext by left.
Qed.
Lemma stable_sort_ext {A} (R R' : relation A) `{forall x y, Decision (R x y)} `{forall x y, Decision (R' x y)} l :
  (forall x y, x ∈ l -> y ∈ l -> R x y <-> R' x y) -> stable_sort R l = stable_sort R' l.
Proof.
  induction l as [|x l IH]; intros Hext; [done|]. cbn. rewrite IH by (intros; apply Hext; by right).
  apply sorted_insert_ext. intros y Hy. rewrite stable_sort_Permutation in Hy. apply Hext; [left|by right].
Qed.

Lemma score_not_nan l s : valid_rank l -> valid_rank s -> reciprocal_rank_score l s <> S754_nan.
Proof.
  intros Hl Hs Hn. destruct (decide ((Some 1, Some 1) = (l, s))) as [[= <- <-]|Hne].
  - revert Hn. vm_compute. discriminate.
  - assert (better_or_same (Some 1) l /\ better_or_same (Some 1) s) as [Bl Bs]
      by (destruct l, s; cbn in *; lia).
    pose proof (dominating_score (Some 1) (Some 1) l s ltac:(done) ltac:(done) Hl Hs Bl Bs Hne) as H.
    rewrite Hn in H. unfold key_lt in H. revert H. vm_compute. intuition discriminate.
Qed.

(** ** Merging *)

Abbreviation ids l := (hc_chunk_id <$> l).
(** The candidate of a chunk in a list. *)
Definition found (k : uuid) (l : list HybridCandidate) : option HybridCandidate :=
  assoc_get k ((fun c => (hc_chunk_id c, c)) <$> l).

Lemma found_Some k l c : NoDup (ids l) -> found k l = Some c <-> c ∈ l /\ hc_chunk_id c = k.
Proof.
  intros Hnd. unfold found. rewrite assoc_get_Some by (by rewrite <- list_fmap_compose).
  rewrite list_elem_of_fmap. naive_solver.
Qed.
Lemma found_None k l : found k l = None <-> k ∉ ids l.
Proof. unfold found. rewrite assoc_get_None, <- list_fmap_compose. done. Qed.

(** A dictionary of candidates under their chunks. *)
Definition by_id (d : list (uuid * HybridCandidate)) : Prop :=
  NoDup d.*1 /\ Forall (fun kc => hc_chunk_id kc.2 = kc.1) d.

Lemma assoc_set_by_id k c d : by_id d -> hc_chunk_id c = k -> by_id (assoc_set k c d).
Proof.
  intros [Hnd Hf] Hk. split.
  - rewrite assoc_set_keys. destruct (decide _); [done|]. apply NoDup_app. split_and!; [done| |apply NoDup_singleton].
    by intros x Hx ->%list_elem_of_singleton.
  - clear Hnd. induction Hf as [|[j v] d Hj Hf IH]; cbn; [by repeat constructor|].
    destruct (decide (k = j)) as [->|]; constructor; done.
Qed.

Lemma lexical_dict l : forall d, by_id d ->
  let d' := foldl (fun d c => assoc_set (hc_chunk_id c) c d) d l in
  by_id d' /\ (NoDup (ids l) -> forall k, assoc_get k d' =
    match found k l with Some c => Some c | None => assoc_get k d end).
Proof.
  induction l as [|c l IH]; intros d Hd; cbn [foldl]; [done|].
  destruct (IH (assoc_set (hc_chunk_id c) c d) (assoc_set_by_id _ _ _ Hd eq_refl)) as [Hb Hg].
  split; [done|]. intros [Hc Hnd]%NoDup_cons k. rewrite Hg by done. unfold found at 2. cbn. fold (found k l).
  rewrite assoc_get_set. destruct (decide (k = hc_chunk_id c)) as [->|]; [|done].
  by rewrite (proj2 (found_None _ _) Hc).
Qed.

Lemma merge_candidate_get d c k : assoc_get k (merge_candidate d c) =
  if decide (k = hc_chunk_id c)
  then Some (match assoc_get k d with Some e => with_semantic e c | None => c end) else assoc_get k d.
Proof.
  unfold merge_candidate. destruct (assoc_get (hc_chunk_id c) d) as [e|] eqn:Hd; rewrite assoc_get_set;
    destruct (decide (k = hc_chunk_id c)) as [->|]; by rewrite ?Hd.
Qed.

Lemma merge_candidate_by_id d c : by_id d -> by_id (merge_candidate d c).
Proof.
  intros Hd. unfold merge_candidate. destruct (assoc_get _ d) as [e|] eqn:He; apply assoc_set_by_id; try done.
  cbn. destruct Hd as [Hnd Hf]. apply assoc_get_Some in He; [|done]. rewrite Forall_forall in Hf. by apply (Hf _ He).
Qed.

Lemma merge_dict l : forall d, by_id d ->
  let d' := foldl merge_candidate d l in
  by_id d' /\ (NoDup (ids l) -> forall k, assoc_get k d' =
    match found k l with
    | Some c => Some (match assoc_get k d with Some e => with_semantic e c | None => c end)
    | None => assoc_get k d
    end).
Proof.
  induction l as [|c l IH]; intros d Hd; cbn [foldl]; [done|].
  destruct (IH (merge_candidate d c) (merge_candidate_by_id _ _ Hd)) as [Hb Hg].
  split; [done|]. intros [Hc Hnd]%NoDup_cons k. rewrite Hg by done. unfold found at 2. cbn. fold (found k l).
  rewrite !merge_candidate_get. destruct (decide (k = hc_chunk_id c)) as [->|]; [|done].
  by rewrite (proj2 (found_None _ _) Hc).
Qed.

(** What becomes of a chunk found in either list. *)
Definition merged_with (l s : option HybridCandidate) : option HybridCandidate :=
  match l, s with
  | Some l, Some s => Some (with_semantic l s)
  | Some c, None | None, Some c => Some c
  | None, None => None
  end.

Lemma merged_elem lexical semantic c : NoDup (ids lexical) -> NoDup (ids semantic) ->
  c ∈ merged_candidates lexical semantic <->
  merged_with (found (hc_chunk_id c) lexical) (found (hc_chunk_id c) semantic) = Some c.
Proof.
  intros Hl Hs. unfold merged_candidates.
  destruct (lexical_dict lexical []) as [Hb1 Hg1]; [by split; constructor|].
  destruct (merge_dict semantic _ Hb1) as [[Hn2 Hf2] Hg2]. specialize (Hg1 Hl). specialize (Hg2 Hs).
  set (d := foldl merge_candidate _ _) in *.
  assert (merged_with (found (hc_chunk_id c) lexical) (found (hc_chunk_id c) semantic) =
    assoc_get (hc_chunk_id c) d) as ->.
  { rewrite Hg2, Hg1. by destruct (found _ lexical), (found _ semantic). }
  rewrite assoc_get_Some by done. rewrite list_elem_of_fmap. split.
  - intros ([k c'] & -> & Hin). rewrite Forall_forall in Hf2. pose proof (Hf2 _ Hin) as E. cbn in E |- *. by rewrite E.
  - intros Hin. by exists (hc_chunk_id c, c).
Qed.

Lemma merged_nodup lexical semantic : NoDup (ids (merged_candidates lexical semantic)).
Proof.
  unfold merged_candidates. destruct (lexical_dict lexical []) as [Hb1 _]; [by split; constructor|].
  destruct (merge_dict semantic _ Hb1) as [[Hn2 Hf2] _]. set (d := foldl merge_candidate _ _) in *.
  assert (ids d.*2 = d.*1) as ->; [|done]. clear -Hf2. induction Hf2 as [|[k c] d Hk _ IH]; cbn; [done|]. by f_equal.
Qed.

(** ** The theorem *)

(** Two candidate lists as the statements give them: each numbers its rows
    from 1, no chunk is in a list twice, and none is longer than a limit. *)
Record ranked (lexical semantic : list HybridCandidate) : Prop := {
  rk_lexical : NoDup (ids lexical);
  rk_semantic : NoDup (ids semantic);
  rk_lexical_length : zlen lexical <= MAX_HYBRID_RESULT_LIMIT;
  rk_semantic_length : zlen semantic <= MAX_HYBRID_RESULT_LIMIT;
  rk_lexical_ranks : forall i c, lexical !! i = Some c ->
    lexical_rank c = Some (Z.of_nat i + 1) /\ semantic_rank c = None;
  rk_semantic_ranks : forall i c, semantic !! i = Some c ->
    semantic_rank c = Some (Z.of_nat i + 1) /\ lexical_rank c = None;
}.

(** The place of a chunk in a list, from 1. *)
Definition place (k : uuid) (l : list HybridCandidate) : option Z :=
  (fun p => Z.of_nat p.1 + 1) <$> list_find (fun c => hc_chunk_id c = k) l.

Lemma place_found (rank_of : HybridCandidate -> option Z) l k :
  (forall i c, l !! i = Some c -> rank_of c = Some (Z.of_nat i + 1)) ->
  place k l = found k l ≫= rank_of.
Proof.
  unfold place, found. intros Hr.
  assert (forall n, (forall i c, l !! i = Some c -> rank_of c = Some (Z.of_nat (i + n) + 1)) ->
    (fun p : nat * HybridCandidate => Z.of_nat (p.1 + n) + 1) <$> list_find (fun c => hc_chunk_id c = k) l =
    assoc_get k ((fun c => (hc_chunk_id c, c)) <$> l) ≫= rank_of) as H.
  { clear Hr. induction l as [|c l IH]; intros n Hr; [done|]. cbn.
    destruct (decide (hc_chunk_id c = k)) as [Hk|Hk].
    - rewrite decide_True by done. cbn. by rewrite (Hr 0%nat c).
    - rewrite decide_False by congruence. rewrite <- (IH (S n)).
      + destruct (list_find _ l) as [[i c']|]; cbn; [|done]. do 2 f_equal. lia.
      + intros i c' Hi. rewrite (Hr (S i) c' Hi). do 2 f_equal. lia. }
  rewrite <- (H 0%nat).
  - destruct (list_find _ l) as [[i c]|]; cbn; [|done]. by rewrite Nat.add_0_r.
  - intros i c Hi. rewrite (Hr i c Hi). by rewrite Nat.add_0_r.
Qed.

Lemma place_valid k l : zlen l <= MAX_HYBRID_RESULT_LIMIT -> valid_rank (place k l).
Proof.
  intros Hl. unfold place. destruct (list_find _ l) as [[i c]|] eqn:Hf; cbn; [|done].
  apply list_find_Some in Hf as (Hi%lookup_lt_Some & _ & _). unfold zlen in Hl. lia.
Qed.

(** The ranks of a merged candidate are its places in the two lists. *)
Lemma merged_ranks lexical semantic c : ranked lexical semantic -> c ∈ merged_candidates lexical semantic ->
  lexical_rank c = place (hc_chunk_id c) lexical /\ semantic_rank c = place (hc_chunk_id c) semantic /\
  (hc_chunk_id c ∈ ids lexical \/ hc_chunk_id c ∈ ids semantic).
Proof.
  intros [Hl Hs _ _ Rl Rs] Hc. apply merged_elem in Hc; [|done..].
  rewrite (place_found lexical_rank lexical) by (intros i x Hx; by apply (Rl i x Hx)).
  rewrite (place_found semantic_rank semantic) by (intros i x Hx; by apply (Rs i x Hx)).
  destruct (found (hc_chunk_id c) lexical) as [l|] eqn:El.
  - apply found_Some in El as [Hin He]; [|done]. assert (hc_chunk_id c ∈ ids lexical) as Hk by (rewrite <- He; by apply list_elem_of_fmap_2).
    destruct (found (hc_chunk_id c) semantic) as [s|] eqn:Es; cbn in Hc; injection Hc as <-; cbn; [auto|].
    apply list_elem_of_lookup in Hin as (i & Hi). split; [done|]. split; [by apply (Rl i l)|by left].
  - destruct (found (hc_chunk_id c) semantic) as [s|] eqn:Es; cbn in Hc; [|discriminate Hc]. injection Hc as <-.
    apply found_Some in Es as [Hin He]; [|done]. pose proof Hin as (i & Hi)%list_elem_of_lookup. cbn.
    split; [by apply (Rs i s)|]. split; [done|]. right. by apply list_elem_of_fmap_2.
Qed.

Lemma merged_ids lexical semantic k : ranked lexical semantic ->
  k ∈ ids (merged_candidates lexical semantic) <-> k ∈ ids lexical \/ k ∈ ids semantic.
Proof.
  intros Hr. split.
  - intros (c & -> & Hc)%list_elem_of_fmap. by eapply merged_ranks.
  - intros Hk. destruct Hr as [Hl Hs _ _ _ _].
    assert (exists c, merged_with (found k lexical) (found k semantic) = Some c /\ hc_chunk_id c = k) as (c & Hc & <-).
    { destruct (found k lexical) as [l|] eqn:El.
      - apply found_Some in El as [_ He]; [|done]. destruct (found k semantic) as [s|]; cbn; eauto.
      - destruct (found k semantic) as [s|] eqn:Es; [apply found_Some in Es as [_ He]; cbn; eauto|].
        apply found_None in El, Es. by destruct Hk. }
    apply list_elem_of_fmap_2. by apply merged_elem.
Qed.

Lemma enumerate_lookup {A B} (f : Z -> A -> B) l i : enumerate f l !! i = f (Z.of_nat i + 1) <$> l !! i.
Proof. unfold enumerate. by rewrite list_lookup_imap. Qed.

(** [a] has at least as good a place as [b] in both lists, and a better one
    in one of them. *)
Definition dominates (a b : HybridCandidate) : Prop :=
  better_or_same (lexical_rank a) (lexical_rank b) /\ better_or_same (semantic_rank a) (semantic_rank b) /\
  (lexical_rank a, semantic_rank a) <> (lexical_rank b, semantic_rank b).

Record fused (lexical semantic : list HybridCandidate) (limit : Z) (traced selected : list HybridCandidate) : Prop := {
  fu_nodup : NoDup (ids traced);
  fu_union : forall k, k ∈ ids traced <-> k ∈ ids lexical \/ k ∈ ids semantic;
  fu_merged : forall c, c ∈ traced -> exists b,
    merged_with (found (hc_chunk_id c) lexical) (found (hc_chunk_id c) semantic) = Some b /\
    c = with_rank (with_score b (fusion_score c)) (rank c);
  fu_ranks : forall c, c ∈ traced ->
    lexical_rank c = place (hc_chunk_id c) lexical /\ semantic_rank c = place (hc_chunk_id c) semantic /\
    fusion_score c = reciprocal_rank_score (lexical_rank c) (semantic_rank c);
  fu_order : forall i j a b, traced !! i = Some a -> traced !! j = Some b -> (i < j)%nat -> fused_order a b;
  fu_final : forall i c, traced !! i = Some c ->
    rank c = if decide (Z.of_nat i < limit) then Some (Z.of_nat i + 1) else None;
  fu_selected : selected = take (Z.to_nat limit) traced;
  fu_dominance : forall i j a b, traced !! i = Some a -> traced !! j = Some b -> dominates a b -> (i < j)%nat;
}.

Lemma StronglySorted_lookup {A} (R : relation A) l i j a b : StronglySorted R l ->
  l !! i = Some a -> l !! j = Some b -> (i < j)%nat -> R a b.
Proof.
  intros Hs. revert i j. induction Hs as [|x l Hs IH Hx]; intros i j Hi Hj Hij; [by rewrite lookup_nil in Hi|].
  destruct j as [|j]; [lia|]. destruct i as [|i].
  - injection Hi as ->. rewrite Forall_lookup in Hx. by eapply Hx.
  - eapply (IH i j); [done..|lia].
Qed.

Section ordered.
Context (lexical semantic : list HybridCandidate) (Hr : ranked lexical semantic).
Let ordered := stable_sort fused_le (scored_candidate <$> merged_candidates lexical semantic).

Lemma ordered_permutation : ordered ≡ₚ scored_candidate <$> merged_candidates lexical semantic.
Proof using. apply stable_sort_Permutation. Qed.

Lemma ordered_ids : ids ordered ≡ₚ ids (merged_candidates lexical semantic).
Proof using. rewrite ordered_permutation, <- list_fmap_compose. done. Qed.

Lemma ordered_ranks c : c ∈ ordered ->
  lexical_rank c = place (hc_chunk_id c) lexical /\ semantic_rank c = place (hc_chunk_id c) semantic /\
  fusion_score c = reciprocal_rank_score (lexical_rank c) (semantic_rank c).
Proof using Hr.
  rewrite ordered_permutation. intros (c' & -> & Hc)%list_elem_of_fmap. cbn.
  destruct (merged_ranks _ _ _ Hr Hc) as (-> & -> & _). done.
Qed.

Lemma ordered_valid c : c ∈ ordered -> valid_rank (lexical_rank c) /\ valid_rank (semantic_rank c) /\
  fusion_score c <> S754_nan.
Proof using Hr.
  intros (Hl & Hs & Hf)%ordered_ranks. rewrite Hf, Hl, Hs. destruct Hr.
  split_and!; [by apply place_valid..|]. by apply score_not_nan; apply place_valid.
Qed.

Lemma ordered_sorted : StronglySorted fused_order ordered.
Proof using Hr.
  unfold ordered. rewrite (stable_sort_ext fused_le fused_order); [apply stable_sort_sorted; apply _|].
  intros x y Hx Hy. apply fused_le_order.
  - apply (ordered_valid x). by rewrite ordered_permutation.
  - apply (ordered_valid y). by rewrite ordered_permutation.
Qed.
End ordered.

Lemma elem_of_take {A B} (f : A -> B) (l : list A) n i x : NoDup (f <$> l) -> l !! i = Some x ->
  f x ∈ f <$> take n l <-> (i < n)%nat.
Proof.
  intros Hnd Hi. split.
  - intros (y & Hxy & (j & Hj)%list_elem_of_lookup)%list_elem_of_fmap.
    apply lookup_take_Some in Hj as [Hj Hlt]. assert (i = j) as ->; [|done].
    apply (NoDup_lookup _ _ _ (f x) Hnd); rewrite list_lookup_fmap; [by rewrite Hi|by rewrite Hj, Hxy].
  - intros Hlt. apply list_elem_of_fmap_2, list_elem_of_lookup. exists i. by apply lookup_take_Some.
Qed.

Lemma filter_prefix {A} (p : A -> bool) (l : list A) : forall n,
  (forall i x, l !! i = Some x -> p x = true <-> (i < n)%nat) -> List.filter p l = take n l.
Proof.
  induction l as [|x l IH]; intros n Hp; [by destruct n|]. cbn.
  destruct n as [|n].
  - destruct (p x) eqn:Hx; [apply (Hp 0%nat x) in Hx; [lia|done]|]. rewrite (IH 0%nat); [done|].
    intros i y Hy. rewrite (Hp (S i) y Hy). lia.
  - rewrite (proj2 (Hp 0%nat x eq_refl)) by lia. cbn. f_equal. apply IH.
    intros i y Hy. rewrite (Hp (S i) y Hy). lia.
Qed.

Lemma fuse_fused lexical semantic limit : ranked lexical semantic ->
  fused lexical semantic limit (fuse_candidates lexical semantic limit).1 (fuse_candidates lexical semantic limit).2.
Proof.
  intros Hr. unfold fuse_candidates. cbn [fst snd].
  pose proof (ordered_ids lexical semantic) as Hids. pose proof (ordered_ranks lexical semantic Hr) as Hranks.
  pose proof (ordered_sorted lexical semantic Hr) as Hsorted.
  set (ordered := stable_sort _ _) in *.
  set (g := fun index c => with_rank c _).
  assert (NoDup (ids ordered)) as Hnd by (rewrite Hids; apply merged_nodup).
  assert (forall i c, enumerate g ordered !! i = Some c -> exists c', ordered !! i = Some c' /\ c = g (Z.of_nat i + 1) c') as Hg.
  { intros i c. rewrite enumerate_lookup, fmap_Some. naive_solver. }
  assert (ids (enumerate g ordered) = ids ordered) as He.
  { apply list_eq. intros i. rewrite !list_lookup_fmap, enumerate_lookup. by destruct (ordered !! i). }
  assert (forall i c, enumerate g ordered !! i = Some c ->
    rank c = if decide (Z.of_nat i < limit) then Some (Z.of_nat i + 1) else None) as Hfinal.
  { intros i c (c' & Hc & ->)%Hg. cbn. destruct (decide (Z.of_nat i < limit)).
    - rewrite bool_decide_true; [done|]. apply (elem_of_take _ _ _ i); [done..|lia].
    - rewrite bool_decide_false; [done|]. rewrite (elem_of_take _ _ _ i) by done. lia. }
  assert (forall i j a b, enumerate g ordered !! i = Some a -> enumerate g ordered !! j = Some b -> (i < j)%nat ->
    fused_order a b) as Hord.
  { intros i j a b (a' & Ha & ->)%Hg (b' & Hb & ->)%Hg Hij. exact (StronglySorted_lookup _ _ _ _ _ _ Hsorted Ha Hb Hij). }
  assert (forall i c, enumerate g ordered !! i = Some c ->
    exists c', c' ∈ ordered /\ lexical_rank c = lexical_rank c' /\ semantic_rank c = semantic_rank c' /\
      fusion_score c = fusion_score c' /\ hc_chunk_id c = hc_chunk_id c') as Hold.
  { intros i c (c' & Hc & ->)%Hg. exists c'. split; [by eapply list_elem_of_lookup_2|done]. }
  split; [by rewrite He| | | |exact Hord|exact Hfinal| |].
  - intros k. rewrite He, Hids. by apply merged_ids.
  - intros c (i & (c' & Hc & ->)%Hg)%list_elem_of_lookup. apply list_elem_of_lookup_2 in Hc.
    unfold ordered in Hc. rewrite stable_sort_Permutation in Hc. apply list_elem_of_fmap in Hc as (b & -> & Hb).
    exists b. split; [|done]. destruct Hr. by apply merged_elem in Hb.
  - intros c (i & Hi)%list_elem_of_lookup. apply Hold in Hi as (c' & Hc' & -> & -> & -> & ->). by apply Hranks.
  - apply filter_prefix. intros i c Hc. rewrite (Hfinal i c Hc). destruct (decide _); cbn; split; done || lia.
  - intros i j a b Ha Hb (Dl & Ds & Dn). destruct (Nat.lt_trichotomy i j) as [ ? | [ -> | Hji ] ]; [done|exfalso|exfalso].
    1:{ apply Dn. rewrite Ha in Hb. by injection Hb as ->. }
    pose proof (Hord j i b a Hb Ha Hji) as Hba.
    destruct (Hold _ _ Ha) as (a' & Ha' & La & Sa & Fa & _), (Hold _ _ Hb) as (b' & Hb' & Lb & Sb & Fb & _).
    destruct (ordered_valid _ _ Hr a' Ha') as (Va & Va' & _), (ordered_valid _ _ Hr b' Hb') as (Vb & Vb' & _).
    pose proof (dominating_score _ _ _ _ Va Va' Vb Vb') as Hd. rewrite <- La, <- Sa, <- Lb, <- Sb in Hd.
    specialize (Hd Dl Ds Dn). destruct (Hranks a' Ha') as (_ & _ & Ea), (Hranks b' Hb') as (_ & _ & Eb).
    rewrite <- La, <- Sa, <- Fa in Ea. rewrite <- Lb, <- Sb, <- Fb in Eb. rewrite <- Ea, <- Eb in Hd.
    destruct Hba as [H|[H _]]; [by eapply key_lt_irrefl, key_lt_trans|]. rewrite H in Hd. by eapply key_lt_irrefl.
Qed.

(** C37: Fusing two ranked lists gives every chunk of either list once, with
    its place in each and the score of these places, ordered by score, then
    ordinal, then identifier; the first of them, up to the limit, are numbered
    and selected, and a chunk with better places comes before one it
    dominates. *)
Theorem fuse_candidates_spec lexical semantic limit : ranked lexical semantic ->
  fused lexical semantic limit
    (fuse_candidates lexical semantic limit).1 (fuse_candidates lexical semantic limit).2.
Proof. apply fuse_fused. Qed.

(** ** A concrete fusion *)

Definition sample_candidate (id : uuid) (l s : option Z) : HybridCandidate := {|
  hc_chunk_id := id; hc_project_id := 1; hc_version_id := 2; hc_location_id := 5; hc_type := u "text";
  hc_chunking_version := u "c"; hc_ordinal := Z.of_N id; hc_text := u "x"; lexical_score := to_float <$> l;
  lexical_rank := l; semantic_distance := to_float <$> s; semantic_rank := s;
  fusion_score := S754_zero false; rank := None |}.
Definition sample_lexical := [sample_candidate 10 (Some 1) None; sample_candidate 11 (Some 2) None].
Definition sample_semantic := [sample_candidate 11 None (Some 1); sample_candidate 12 None (Some 2)].

(** Found by both, chunk 11 comes first; 10 is before 12 by one place. *)
Example sample_fusion :
  (fun c => (hc_chunk_id c, lexical_rank c, semantic_rank c, rank c)) <$>
    (fuse_candidates sample_lexical sample_semantic 2).1 =
  [(11%N, Some 2, Some 1, Some 1); (10%N, Some 1, None, Some 2); (12%N, None, Some 2, None)].
Proof. vm_compute. reflexivity. Qed.

Lemma sample_ranked : ranked sample_lexical sample_semantic.
Proof.
  split; try done; try (apply (bool_decide_unpack _); vm_compute; exact I).
  - intros [|[|i]] c Hc; [by injection Hc as <-..|discriminate Hc].
  - intros [|[|i]] c Hc; [by injection Hc as <-..|discriminate Hc].
Qed.

Lemma fuse_candidates_spec_witness :
  (fuse_candidates sample_lexical sample_semantic 2).2 = take 2 (fuse_candidates sample_lexical sample_semantic 2).1.
Proof. exact (fu_selected _ _ _ _ _ (fuse_candidates_spec sample_lexical sample_semantic 2 sample_ranked)). Defined.
