(* ===== verification/RetrievalSpec.v ===== *)
(** * Hybrid retrieval: properties

    Next to sessions that add evidence but do not change it, a retrieval
    returns chunks of its project that pass its filters, fused from the best
    lexical and semantic candidates, and leaves a trace that records them
    all. *)
From stdpp Require Import sorting.
From Stdlib Require Import Floats.SpecFloat.
From S2P Require Import Prelude PyText Json JsonFacts AsciiRuntime Digest Effects Database DatabaseFacts.
From S2P Require Import JobTables.
From S2P Require Import DocumentTables Indexing IndexingStore IndexingStoreSpec Sessions Retrieval Fusion.

(** ** The candidates of a statement *)

Section statements.
Context {engine : SearchEngine}.
Context (project_id : uuid) (f : HybridRetrievalFilters).

(** A candidate shows a chunk of the project that passes the filters. *)
Definition shows (d : doc_db) (c : HybridCandidate) : Prop :=
  exists chunk version document,
    chunk_rows d !! hc_chunk_id c = Some chunk /\
    versions d !! chk_version_id chunk = Some version /\
    documents (queues d) !! ver_document_id version = Some document /\
    doc_project_id document = project_id /\ passes_filters f chunk document = true /\
    hc_project_id c = project_id /\ hc_version_id c = chk_version_id chunk /\
    hc_location_id c = chk_location_id chunk /\ hc_type c = document_type document /\
    hc_chunking_version c = chk_chunking_version chunk /\ hc_ordinal c = chk_ordinal chunk /\
    hc_text c = chk_text chunk.

Lemma shows_grows d d' c : grows d d' -> shows d c -> shows d' c.
Proof using.
  intros [Hd Hv _ Hc _ _ _] (chunk & version & document & H1 & H2 & H3 & H4).
  destruct (Hv _ _ H2) as (version' & H2' & Hdoc). exists chunk, version', document.
  split; [by eapply lookup_weaken|]. split; [done|]. rewrite Hdoc. split; [by eapply lookup_weaken|done].
Qed.

Lemma join_document_Some d chunk row : join_document project_id f d chunk = Some row ->
  row.1 = chunk /\ exists version, versions d !! chk_version_id chunk = Some version /\
    documents (queues d) !! ver_document_id version = Some row.2 /\
    doc_project_id row.2 = project_id /\ passes_filters f chunk row.2 = true.
Proof using.
  unfold join_document. intros (version & Hv & (document & Hd & H)%bind_Some)%bind_Some.
  destruct (_ && _) eqn:Hc; [|done]. injection H as <-. bools. split; [done|]. by exists version.
Qed.

Lemma statement_shows d row score l distance s : keyed chk_id (chunk_rows d) ->
  row ∈ candidate_statement project_id f d -> shows d (candidate_from_row row score l distance s).
Proof using.
  intros Hk (chunk & Hin & Hj)%list_elem_of_omap.
  apply list_elem_of_fmap in Hin as ([i c] & -> & Hi%elem_of_map_to_list). cbn in Hj.
  apply join_document_Some in Hj as (<- & version & Hv & Hd & Hp & Hf).
  exists row.1, version, row.2. pose proof (Hk _ _ Hi) as <-. done.
Qed.

Lemma statement_nodup d : keyed chk_id (chunk_rows d) ->
  NoDup ((fun row => chk_id row.1) <$> candidate_statement project_id f d).
Proof using.
  intros Hk. unfold candidate_statement. pose proof (NoDup_fst_map_to_list (chunk_rows d)) as Hnd.
  assert (forall i c, (i, c) ∈ map_to_list (chunk_rows d) -> chk_id c = i) as Hall
    by (intros i c Hi%elem_of_map_to_list; by apply Hk).
  induction (map_to_list (chunk_rows d)) as [|[i c] l IH]; [constructor|]. cbn in *.
  apply NoDup_cons in Hnd as [Hi Hnd]. specialize (IH Hnd (fun j x Hj => Hall j x (list_elem_of_further _ _ _ Hj))).
  destruct (join_document project_id f d c) as [row|] eqn:Hj; [|done]. cbn. apply NoDup_cons. split; [|done].
  apply join_document_Some in Hj as (-> & _). intros (row' & Hid & Hin)%list_elem_of_fmap.
  apply list_elem_of_omap in Hin as (c' & Hc' & (He & _)%join_document_Some).
  apply list_elem_of_fmap in Hc' as ([j x] & -> & Hx). cbn in *. apply Hi, list_elem_of_fmap.
  exists (j, x). split; [|done]. cbn. rewrite <- (Hall i c) by left. rewrite <- (Hall j x) by by right. by rewrite Hid, He.
Qed.

Lemma lexical_ranked text_query limit d : keyed chk_id (chunk_rows d) ->
  let l := lexical_candidates project_id text_query f limit d in
  NoDup (hc_chunk_id <$> l) /\
  (forall i c, l !! i = Some c -> lexical_rank c = Some (Z.of_nat i + 1) /\ semantic_rank c = None) /\
  (0 <= limit -> zlen l <= limit) /\
  (forall c, c ∈ l -> shows d c).
Proof using.
  intros Hk. unfold lexical_candidates. set (rows := omap _ _).
  assert (forall i c, enumerate lexical_candidate (take (Z.to_nat limit) (merge_sort lexical_le rows)) !! i = Some c ->
    exists row, row ∈ rows /\ c = lexical_candidate (Z.of_nat i + 1) row) as Hl.
  { intros i c. rewrite enumerate_lookup, fmap_Some. intros (row & Hrow & ->). exists row. split; [|done].
    rewrite <- (merge_sort_Permutation lexical_le rows). apply lookup_take_Some in Hrow as [Hrow _].
    by eapply list_elem_of_lookup_2. }
  split; [|split; [|split]].
  - assert (hc_chunk_id <$> enumerate lexical_candidate (take (Z.to_nat limit) (merge_sort lexical_le rows)) =
      take (Z.to_nat limit) ((fun s => chk_id s.1.1) <$> merge_sort lexical_le rows)) as ->.
    { rewrite <- fmap_take. apply list_eq. intros i. rewrite !list_lookup_fmap, enumerate_lookup. by destruct (_ !! i). }
    eapply sublist_NoDup; [|apply sublist_take]. rewrite (merge_sort_Permutation lexical_le rows). unfold rows.
    apply (omap_nodup _ (fun row : joined => chk_id row.1)); [|by apply statement_nodup].
    intros row s. unfold lexical_score_of. destruct (ts_rank_cd _ _); [|done]. by intros [= <-].
  - intros i c (row & _ & ->)%Hl. done.
  - intros Hn. unfold zlen, enumerate. rewrite length_imap, length_take. lia.
  - intros c (i & Hi)%list_elem_of_lookup. apply Hl in Hi as ([row score] & Hrow & ->).
    apply list_elem_of_omap in Hrow as (row' & Hin & Hs). unfold lexical_score_of in Hs.
    destruct (ts_rank_cd _ _); [|done]. injection Hs as <- <-. by apply statement_shows.
Qed.

Lemma embeddings_one d k : wf_doc d ->
  embeddings_of project_id f d k = [] \/ exists e, embeddings_of project_id f d k = [e].
Proof using.
  intros Hw. unfold embeddings_of. set (p := fun link => _ && _).
  destruct (select_unique p (link_rows d) lnk_id) as [->|(s & -> & _)]; [apply Hw| |by left|].
  - intros i j r s Hi Hj Hr Hs. apply (wd_one_link d Hw i j r s Hi Hj).
    unfold p in Hr, Hs. bools. unfold same_link. subst k.
    repeat match goal with E : str_eqb _ _ = true |- _ => apply str_eqb_eq in E end.
    bool_goal; [by apply N.eqb_eq|apply str_eqb_eq; congruence|apply str_eqb_eq; congruence].
  - cbn. destruct (e ← _; _) as [e|]; [right; by exists e|by left].
Qed.

(** The rows of the semantic statement: each chunk with its one embedding. *)
Definition embedded (d : doc_db) : list (joined * EmbeddingCacheRecord) :=
  candidate_statement project_id f d ≫= (fun row =>
    (fun e => (row, e)) <$> embeddings_of project_id f d (chk_id row.1)).

Lemma embedded_nodup d : wf_doc d -> NoDup ((fun r => chk_id r.1.1) <$> embedded d).
Proof using.
  intros Hw. pose proof (statement_nodup d (wd_chunks d Hw)) as Hnd. unfold embedded.
  assert (forall rows, (fun r : joined * EmbeddingCacheRecord => chk_id r.1.1) <$>
      (rows ≫= (fun row => (fun e => (row, e)) <$> embeddings_of project_id f d (chk_id row.1)))
    `sublist_of` ((fun row : joined => chk_id row.1) <$> rows)) as Hs.
  { induction rows as [|row rows IH]; [done|]. cbn [mbind list_bind].
    rewrite fmap_app. destruct (embeddings_one d (chk_id row.1) Hw) as [->|[e ->]]; cbn; by constructor. }
  eapply sublist_NoDup; [exact Hnd|apply Hs].
Qed.

Lemma distances literal (pairs : list (joined * EmbeddingCacheRecord)) rows :
  try_map (distance_of literal) pairs = Ok rows -> rows.*1 = pairs.*1.
Proof using.
  intros H%try_map_Ok. induction H as [|pr r pairs rows Hd _ IH]; [done|]. cbn. rewrite IH. f_equal.
  unfold distance_of in Hd. ok_inv. done.
Qed.

Lemma semantic_ranked vector limit d l : wf_doc d ->
  semantic_candidates project_id vector f limit d = Ok l ->
  NoDup (hc_chunk_id <$> l) /\
  (forall i c, l !! i = Some c -> semantic_rank c = Some (Z.of_nat i + 1) /\ lexical_rank c = None) /\
  (0 <= limit -> zlen l <= limit) /\
  (forall c, c ∈ l -> shows d c).
Proof using.
  intros Hw H. unfold semantic_candidates in H. fold (embedded d) in H. ok_inv. rename x into rows.
  pose proof (distances _ _ _ H0) as Hrows. pose proof (embedded_nodup d Hw) as Hnd.
  assert (forall i c, enumerate semantic_candidate (take (Z.to_nat limit) (merge_sort semantic_le rows)) !! i = Some c ->
    exists row, row ∈ rows /\ c = semantic_candidate (Z.of_nat i + 1) row) as Hl.
  { intros i c. rewrite enumerate_lookup, fmap_Some. intros (row & Hrow & ->). exists row. split; [|done].
    rewrite <- (merge_sort_Permutation semantic_le rows). apply lookup_take_Some in Hrow as [Hrow _].
    by eapply list_elem_of_lookup_2. }
  split; [|split; [|split]].
  - assert (hc_chunk_id <$> enumerate semantic_candidate (take (Z.to_nat limit) (merge_sort semantic_le rows)) =
      take (Z.to_nat limit) ((fun s => chk_id s.1.1) <$> merge_sort semantic_le rows)) as ->.
    { rewrite <- fmap_take. apply list_eq. intros i. rewrite !list_lookup_fmap, enumerate_lookup. by destruct (_ !! i). }
    eapply sublist_NoDup; [|apply sublist_take]. rewrite (merge_sort_Permutation semantic_le rows).
    change (fun s : scored => chk_id s.1.1) with ((fun row : joined => chk_id row.1) ∘ (@fst joined spec_float)).
    rewrite list_fmap_compose, Hrows, <- list_fmap_compose. exact Hnd.
  - intros i c (row & _ & ->)%Hl. done.
  - intros Hn. unfold zlen, enumerate. rewrite length_imap, length_take. lia.
  - intros c (i & Hi)%list_elem_of_lookup. apply Hl in Hi as (row & Hrow & ->).
    apply statement_shows; [apply Hw|].
    assert (row.1 ∈ rows.*1) as Hin by by apply list_elem_of_fmap_2.
    rewrite Hrows in Hin. apply list_elem_of_fmap in Hin as ([r e] & -> & Hin). cbn.
    unfold embedded in Hin. apply list_elem_of_bind in Hin as (r' & Hin & Hr').
    apply list_elem_of_fmap in Hin as (e' & [= -> ->] & _). done.
Qed.
End statements.

(** ** The transaction *)

Section transaction.
Context {rt : PyRuntime} {engine : SearchEngine} {E : Type} (o : outside).
Context (others_grow : forall n d, grows d (others_at o n d)).
Context (others_wf : forall n d, wf_doc d -> wf_doc (others_at o n d)).

Lemma isolated_rows trace_id l : isolated (E := E) o (trace_candidate_rows o trace_id l).
Proof using. induction l as [|c l IH]; cbn [trace_candidate_rows]; isolated_step. apply IH. Qed.

Lemma isolated_retrieval p q v f cl rl : isolated (E := E) o (retrieval o p q v f cl rl).
Proof using. unfold retrieval. isolated_step; try apply isolated_rows; isolated_step. Qed.

Lemma trace_candidate_rows_Ok trace_id l s rows s' :
  trace_candidate_rows (E := E) o trace_id l s = (Ok rows, s') ->
  tables s'.1 = tables s.1 /\ Forall2 (fun c r => r = trace_candidate_row (rc_id r) trace_id c) l rows.
Proof using.
  revert s rows s'. induction l as [|c l IH]; intros s rows s' H; cbn [trace_candidate_rows] in H.
  - injection H as <- <-. split; [done|constructor].
  - apply io_bind_Ok in H as (id & s1 & Hi%look_Ok & H).
    apply io_bind_Ok in H as (rows' & s2 & [Ht Hf]%IH & H). injection H as <- <-.
    split; [by rewrite Ht|]. by constructor.
Qed.

Lemma flush_candidates rows d d' : flush (insert_candidate <$> rows) d = Ok d' ->
  Forall (fun r => candidate_rows d' !! rc_id r = Some r) rows.
Proof using.
  revert d. induction rows as [|r rows IH]; intros d H; [constructor|]. cbn in H. ok_inv. rename x into d1.
  constructor; [|by eapply IH].
  assert (candidate_rows d1 !! rc_id r = Some r) as Hr.
  { unfold insert_candidate in H0. ok_inv. cbn. by rewrite lookup_insert_eq. }
  eapply lookup_weaken; [exact Hr|]. apply gr_candidates. eapply flush_all_grows; [|exact H]. eauto with grows.
Qed.

(** A trace that records the candidates. *)
Definition recorded (p : uuid) (q : pystr) (v : list spec_float) (f : HybridRetrievalFilters) (cl rl : Z)
    (trace_id : uuid) (traced : list HybridCandidate) (d : doc_db) : Prop :=
  (exists now, trace_rows d !! trace_id = Some (trace_row trace_id p q v f cl rl now)) /\
  (forall c, c ∈ traced -> exists id, candidate_rows d !! id = Some (trace_candidate_row id trace_id c)).

(** What a retrieval that returned has found and left: the candidates of each
    statement when it ran, fused, all of them recorded. *)
Definition retrieved (p : uuid) (q : pystr) (v : list spec_float) (f : HybridRetrievalFilters) (cl rl : Z)
    (d d' : doc_db) (trace_id : uuid) (selected : list HybridCandidate) : Prop :=
  exists d1 d2 semantic traced,
    grows d d1 /\ grows d1 d2 /\ grows d2 d' /\
    semantic_candidates p v f cl d2 = Ok semantic /\
    ranked (lexical_candidates p q f cl d1) semantic /\
    fused (lexical_candidates p q f cl d1) semantic rl traced selected /\
    (forall c, c ∈ traced -> shows p f d' c) /\
    recorded p q v f cl rl trace_id traced d'.

(** A candidate made from one that shows its chunk. *)
Lemma fused_shows p f d lexical semantic limit traced selected :
  NoDup (hc_chunk_id <$> lexical) -> NoDup (hc_chunk_id <$> semantic) ->
  (forall c, c ∈ lexical -> shows p f d c) -> (forall c, c ∈ semantic -> shows p f d c) ->
  fused lexical semantic limit traced selected -> forall c, c ∈ traced -> shows p f d c.
Proof using.
  intros Hl Hs Sl Ss Hf c Hc. destruct (fu_merged _ _ _ _ _ Hf c Hc) as (b & Hb & ->).
  change (shows p f d b). unfold merged_with in Hb.
  destruct (found _ lexical) as [l|] eqn:El.
  - apply found_Some in El as [El _]; [|done]. specialize (Sl l El).
    destruct (found _ semantic); injection Hb as <-; done.
  - destruct (found _ semantic) as [s|] eqn:Es; [|done]. injection Hb as <-.
    apply found_Some in Es as [Es _]; [|done]. by apply Ss.
Qed.

Lemma retrieval_Ok p q v f cl rl s trace_id selected s' :
  wf_doc (tables (E := E) s.1) -> 0 <= cl <= MAX_HYBRID_RESULT_LIMIT ->
  retrieval o p q v f cl rl s = (Ok (trace_id, selected), s') ->
  retrieved p q v f cl rl (tables s.1) (tables s'.1) trace_id selected.
Proof using others_grow others_wf.
  intros Hwf Hcl H. unfold retrieval in H.
  apply io_bind_Ok in H as (lexical & s1 & (n1 & -> & T1)%ask_saw & H).
  apply io_bind_Ok in H as (semantic & s2 & (n2 & T2)%sql_saw & H).
  destruct (semantic_candidates p v f cl _) as [l|e] eqn:Hsem; [|discriminate T2]. injection T2 as <- T2.
  rewrite <- T1 in H. destruct (fuse_candidates _ l rl) as [traced sel] eqn:Hfuse.
  apply io_bind_Ok in H as (id & s3 & T3%look_Ok & H). apply io_bind_Ok in H as (now & s4 & T4%look_Ok & H).
  apply io_bind_Ok in H as (? & s5 & (d5 & G5 & I5 & G5')%change_grows & H); [|done|eauto with grows].
  apply io_bind_Ok in H as (rows & s6 & [T6 Hrows]%trace_candidate_rows_Ok & H).
  apply io_bind_Ok in H as (? & s7 & H7 & H). injection H as -> -> ->.
  assert (grows (tables s5.1) (tables s'.1) /\ Forall (fun r => candidate_rows (tables s'.1) !! rc_id r = Some r) rows)
    as [G7 Hall].
  { rewrite <- T6. destruct rows as [|r rows]; [injection H7 as _ <-; split; [done|constructor]|].
    apply change_grows in H7 as (d7 & G7 & F7 & G7'); [|done|].
    - split; [by etrans|]. by eapply flush_candidates.
    - intros d d'. apply flush_all_grows. eauto with grows. }
  assert (wf_doc (tables s1.1)) as W1 by (rewrite T1; by apply others_wf).
  assert (wf_doc (tables s2.1)) as W2 by (rewrite <- T2; by apply others_wf).
  rewrite T2 in Hsem. rewrite T4, T3 in G5.
  destruct (lexical_ranked p f q cl (tables s1.1) (wd_chunks _ W1)) as (L1 & L2 & L3 & L4).
  destruct (semantic_ranked p f v cl (tables s2.1) l W2 Hsem) as (S1 & S2 & S3 & S4).
  set (lexical := lexical_candidates p q f cl (tables s1.1)) in *.
  assert (ranked lexical l) as Hr by (split; try done; lia).
  assert (fused lexical l rl traced selected) as Hf by (pose proof (fuse_fused lexical l rl Hr) as Hf; by rewrite Hfuse in Hf).
  assert (grows (tables s.1) (tables s1.1)) as G1 by (rewrite T1; apply others_grow).
  assert (grows (tables s1.1) (tables s2.1)) as G2 by (rewrite <- T2; apply others_grow).
  assert (grows (tables s2.1) (tables s'.1)) as G3 by (etrans; [exact G5|]; by etrans).
  exists (tables s1.1), (tables s2.1), l, traced. split_and!; try done.
  - eapply (fused_shows p f _ lexical l); [done|done| | |exact Hf].
    + intros c Hc. apply (shows_grows p f (tables s1.1)); [by etrans|by apply L4].
    + intros c Hc. eapply shows_grows; [exact G3|by apply S4].
  - split.
    + exists now. eapply lookup_weaken; [|apply (gr_traces _ _ G7)].
      unfold insert_trace in I5. ok_inv. rewrite <- I5. cbn. by rewrite lookup_insert_eq.
    + intros c (i & Hi)%list_elem_of_lookup. destruct (Forall2_lookup_l _ _ _ _ _ Hrows Hi) as (r & Hri & Hrc).
      exists (rc_id r). rewrite Forall_lookup in Hall. rewrite <- Hrc. by eapply Hall.
Qed.

(** What a retrieval that raised has left: the tables as they were, or as the
    other sessions made them. *)
Definition refused (d d' : doc_db) (e : exn) : Prop :=
  (exn_cls e = ValueError /\ d' = d) \/ (exn_cls e = HybridRetrievalUnavailable /\ only_others o d d').

Lemma filters_raise f : raises (eq ValueError) (validate_filters f).
Proof using. unfold validate_filters. repeat first [apply raises_raise_if; done | raises_step]. Qed.

Lemma semantic_raises p v f cl d : raises database_error (semantic_candidates p v f cl d).
Proof using. unfold semantic_candidates, distance_of. repeat raises_step. Qed.

Lemma rows_raise trace_id l : raising database_error (trace_candidate_rows (E := E) o trace_id l).
Proof using. induction l as [|c l IH]; cbn [trace_candidate_rows]; raising_step. apply IH. Qed.

Lemma retrieval_raises p q v f cl rl : raising database_error (retrieval (E := E) o p q v f cl rl).
Proof using.
  unfold retrieval. raising_step; try apply rows_raise; try apply insert_trace_raises.
  - apply raises_bind; [apply semantic_raises|]. intros. apply raises_Ok.
  - apply (flush_raises _ insert_candidate (_ :: _)). intros. apply insert_candidate_raises.
Qed.

Lemma sql_retrieve_cases p q v f cl rl (w : world E) : wf_doc (tables w) -> 0 <= cl <= MAX_HYBRID_RESULT_LIMIT ->
  match sql_retrieve o p q v f cl rl w with
  | (Ok (trace_id, selected), w') =>
      validate_filters f = Ok tt /\ retrieved p q v f cl rl (tables w) (tables w') trace_id selected
  | (Raise e, w') => refused (tables w) (tables w') e
  end.
Proof using others_grow others_wf.
  intros Hwf Hcl. unfold sql_retrieve. rewrite io_bind_eq. unfold lift at 1.
  destruct (validate_filters f) as [[]|e] eqn:Hv.
  2:{ left. split; [|done]. symmetry. by eapply filters_raise. }
  unfold io_try. pose proof (raising_begin o database_error _ eq_refl (retrieval_raises p q v f cl rl) w) as Hr.
  destruct (begin o _ w) as [[[trace_id selected]|e] w'] eqn:Hb.
  - split; [done|]. apply begin_Ok in Hb as (s & Hs & ->). by apply retrieval_Ok in Hs.
  - apply begin_Raise in Hb; [|apply isolated_retrieval]. rewrite (Hr e eq_refl). by right.
Qed.

Lemma check_retrieval_raises raw v f cl rl : raises (eq ValueError) (check_retrieval raw v f cl rl).
Proof using.
  pose proof (filters_raise f). unfold check_retrieval, validate_query_embedding. cbv zeta.
  repeat first [done | apply raises_raise_if; done | raises_step].
Qed.
Lemma check_retrieval_limits raw v f cl rl q : check_retrieval raw v f cl rl = Ok q ->
  1 <= rl <= cl /\ cl <= MAX_HYBRID_RESULT_LIMIT.
Proof using. unfold check_retrieval. cbv zeta. intros H. ok_inv. bools. lia. Qed.

Lemma retrieve_cases p raw v f cl rl (w : world E) : wf_doc (tables w) ->
  match retrieve o p raw v f cl rl w with
  | (Ok r, w') =>
      hr_project_id r = p /\ check_retrieval raw v f cl rl = Ok (hr_query r) /\
      retrieved p (hr_query r) v f cl rl (tables w) (tables w') (hr_trace_id r) (candidates r)
  | (Raise e, w') => refused (tables w) (tables w') e
  end.
Proof using others_grow others_wf.
  intros Hwf. unfold retrieve. rewrite io_bind_eq. unfold lift at 1.
  destruct (check_retrieval raw v f cl rl) as [q|e] eqn:Hc.
  2:{ left. split; [|done]. symmetry. by eapply check_retrieval_raises. }
  pose proof (check_retrieval_limits _ _ _ _ _ _ Hc) as Hl.
  pose proof (sql_retrieve_cases p q v f cl rl w Hwf ltac:(lia)) as H. rewrite io_bind_eq.
  destruct (sql_retrieve o p q v f cl rl w) as [[[trace_id selected]|e] w']; [|exact H].
  destruct H as [_ H]. by split.
Qed.

(** C23: Next to sessions that only add evidence, a retrieval either raises,
    and the tables are then as they were or as the other sessions made them,
    with nothing of its own; or it returns what fusing the best lexical and
    the best semantic candidates selects: chunks of documents of the project
    that pass the filters, shown as they are, every candidate of either kind
    recorded in a new trace. *)
Theorem retrieve_spec p raw v f cl rl (w : world E) : wf_doc (tables w) ->
  match retrieve o p raw v f cl rl w with
  | (Ok r, w') =>
      hr_project_id r = p /\ check_retrieval raw v f cl rl = Ok (hr_query r) /\
      retrieved p (hr_query r) v f cl rl (tables w) (tables w') (hr_trace_id r) (candidates r)
  | (Raise e, w') => refused (tables w) (tables w') e
  end.
Proof using others_grow others_wf. apply retrieve_cases. Qed.
End transaction.

(** ** A concrete retrieval *)

(** An engine that ranks a text by whether it holds the query, and finds
    longer texts' vectors nearer. *)
#[export] Instance sample_engine : SearchEngine := {|
  ts_rank_cd text q := if contains q text then Some (to_float 1) else None;
  cosine_distance values _ := head values;
  format_17g _ := u "0" |}.
Definition sample_filters : HybridRetrievalFilters := {|
  f_model := u "m"; f_version := u "e"; f_version_ids := None; f_types := Some [u "text"];
  f_chunking_version := None |}.
Definition sample_retrieve : result HybridRetrievalResponse * world unit :=
  retrieve sample_outside 1 (u " x ") [to_float 1] sample_filters 20 20 sql_once.

(** Chunk 11 matches and is nearest; chunk 10 is only near. *)
Example sample_retrieved :
  (fun r => (fun c => (hc_chunk_id c, lexical_rank c, semantic_rank c, rank c)) <$> candidates r) <$> sample_retrieve.1 =
  Ok [(11%N, Some 1, Some 1, Some 1); (10%N, None, Some 2, Some 2)].
Proof. vm_compute. reflexivity. Qed.

Lemma sql_once_wf : wf_doc (tables sql_once).
Proof.
  unfold sql_once, sql_sample. apply (index_keeps sample_outside); [by apply wf_doc_kept|exact sample_tables_wf].
Qed.

Lemma retrieve_spec_witness :
  is_ok sample_retrieve.1 = true /\
  match sample_retrieve with
  | (Ok r, w') =>
      hr_project_id r = 1%N /\
      check_retrieval (u " x ") [to_float 1] sample_filters 20 20 = Ok (hr_query r) /\
      retrieved 1 (hr_query r) [to_float 1] sample_filters 20 20 (tables sql_once) (tables w') (hr_trace_id r)
        (candidates r)
  | (Raise e, w') => refused sample_outside (tables sql_once) (tables w') e
  end.
Proof.
  split; [vm_compute; reflexivity|]. unfold sample_retrieve.
  apply retrieve_spec; [intros n d; reflexivity|intros n d H; exact H|exact sql_once_wf].
Defined.
