(* ===== verification/Citations.v ===== *)
(** * Citations ([citations.py])

    A citation names a selected candidate of a retrieval trace of its project
    and shows the passage it was cut from.  Citations are created one at a
    time or for several candidates in one transaction, and read back.

    ** Properties

    A citation always names a candidate that was selected in its trace and
    its project, and shows the text and the place of that chunk, whatever
    other sessions add meanwhile; and what a retrieval returns can be cited. *)
From Stdlib Require Import Floats.SpecFloat.
From S2P Require Import Prelude PyText Json Digest Effects Database JobTables DocumentTables IndexingStore.
From S2P Require Import Sessions JsonFacts AsciiRuntime DatabaseFacts Indexing IndexingStoreSpec Retrieval.
From S2P Require Import Fusion RetrievalSpec.

Record SourceLocation := {
  sl_id : uuid; sl_kind : pystr; sl_heading : option pystr; sl_line_start : option Z;
  sl_line_end : option Z; sl_page_start : option Z; sl_page_end : option Z;
  sl_json_pointer : option pystr }.

Record Citation := {
  cite_id : uuid; cite_project_id : uuid; cite_trace_id : uuid; cite_chunk_id : uuid;
  cite_version_id : uuid; source_location : SourceLocation; cite_type : pystr;
  cite_display_name : pystr; passage : pystr; cite_created_at : instant }.

(** [one_or_none()] and [one()] *)
Definition one_or_none {A} (l : list A) : result (option A) :=
  match l with
  | [] => Ok None
  | [x] => Ok (Some x)
  | _ => raise SQLAlchemyError "Multiple rows were found when one or none was required"
  end.
Definition exactly_one {A} (l : list A) : result A :=
  match l with
  | [x] => Ok x
  | [] => raise SQLAlchemyError "No row was found when one was required"
  | _ => raise SQLAlchemyError "Multiple rows were found when exactly one was required"
  end.

(** ** The statements *)

(** A candidate with its chunk, if it was selected in a trace of the project
    that its document belongs to. *)
Definition selected_in (project_id : uuid) (d : doc_db) (candidate : RetrievalTraceCandidateRecord) :
    option DocumentChunkRecord :=
  chunk ← chunk_rows d !! rc_chunk_id candidate;
  trace ← trace_rows d !! rc_trace_id candidate;
  version ← versions d !! chk_version_id chunk;
  document ← documents (queues d) !! ver_document_id version;
  if has (final_rank candidate) && (doc_project_id document =? rt_project_id trace)%N &&
     (rt_project_id trace =? project_id)%N
  then Some chunk else None.

(** [_selected_candidate_statement] of a project and a trace, for some chunks *)
Definition selected_candidates (project_id trace_id : uuid) (chunk_ids : list uuid) (d : doc_db) :
    list (uuid * DocumentChunkRecord) :=
  omap (fun candidate => (fun chunk => (rc_chunk_id candidate, chunk)) <$> selected_in project_id d candidate)
    (select (fun c => (rc_trace_id c =? trace_id)%N && bool_decide (rc_chunk_id c ∈ chunk_ids))
      (candidate_rows d)).

(** [_citation_from_row] on the joined rows of a citation *)
Definition location_of_row (l : SourceLocationRecord) : SourceLocation := {|
  sl_id := loc_id l; sl_kind := location_kind l; sl_heading := loc_heading l;
  sl_line_start := loc_line_start l; sl_line_end := loc_line_end l;
  sl_page_start := loc_page_start l; sl_page_end := loc_page_end l;
  sl_json_pointer := loc_json_pointer l |}.
Definition citation_from_row (c : CitationRecord) (chunk : DocumentChunkRecord)
    (document : DocumentRecord) (l : SourceLocationRecord) : Citation := {|
  cite_id := ct_id c; cite_project_id := ct_project_id c; cite_trace_id := ct_trace_id c;
  cite_chunk_id := ct_chunk_id c; cite_version_id := ct_version_id c;
  source_location := location_of_row l; cite_type := document_type document;
  cite_display_name := display_name document; passage := chk_text chunk;
  cite_created_at := ct_created_at c |}.

(** [_citation_statement]: the citation with its evidence, if they agree. *)
Definition citation_view (d : doc_db) (c : CitationRecord) : option Citation :=
  chunk ← chunk_rows d !! ct_chunk_id c;
  version ← versions d !! ct_version_id c;
  document ← documents (queues d) !! ver_document_id version;
  l ← locations d !! ct_location_id c;
  if (chk_version_id chunk =? ct_version_id c)%N && (chk_location_id chunk =? ct_location_id c)%N &&
     (doc_project_id document =? ct_project_id c)%N
  then Some (citation_from_row c chunk document l) else None.
Definition citation_statement (p : CitationRecord -> bool) (d : doc_db) : list Citation :=
  omap (citation_view d) (select p (citation_rows d)).

Section repository.
Context {E : Type} (o : outside).
Abbreviation txn := (io (txn (E := E))).
Abbreviation io := (io (world E)).

(** A query whose rows are counted. *)
Definition ask_rows {A B} (f : doc_db -> list A) (g : list A -> result B) : txn B :=
  rows ← ask o f; lift (g rows).

Definition new_citation (id project_id trace_id chunk_id : uuid) (chunk : DocumentChunkRecord)
    (now : instant) : CitationRecord := {|
  ct_id := id; ct_project_id := project_id; ct_trace_id := trace_id; ct_chunk_id := chunk_id;
  ct_version_id := chk_version_id chunk; ct_location_id := chk_location_id chunk;
  ct_created_at := now |}.

(** The citation of a chunk in a trace. *)
Definition cited (project_id trace_id : uuid) (chunk_ids : list uuid) (c : CitationRecord) : bool :=
  (ct_project_id c =? project_id)%N && (ct_trace_id c =? trace_id)%N &&
  bool_decide (ct_chunk_id c ∈ chunk_ids).

(** [try: ... except CitationValidationError: raise except SQLAlchemyError] *)
Definition citations_unavailable {A} (m : io A) : io A :=
  io_try m is_SQLAlchemyError (fun _ => io_raise CitationUnavailable "").

(** The transaction of [create_from_selected_candidate] *)
Definition create_one (project_id trace_id chunk_id : uuid) : txn Citation :=
  citation ← ask_rows (citation_statement (cited project_id trace_id [chunk_id])) one_or_none;
  match citation with
  | Some c => mret c
  | None =>
      candidate ← ask_rows (selected_candidates project_id trace_id [chunk_id]) one_or_none;
      match candidate with
      | None =>
          io_raise CitationValidationError "Citation must reference a selected candidate in its project"
      | Some (_, chunk) =>
          id ← inside (look_outside (new_id o));
          now ← inside (look_outside (clock_at o));
          change o (insert_citation (new_citation id project_id trace_id chunk_id chunk now)) ;;
          ask_rows (citation_statement (fun c => (ct_id c =? id)%N)) exactly_one
      end
  end.

Definition create_from_selected_candidate (project_id trace_id chunk_id : uuid) : io Citation :=
  citations_unavailable (begin o (create_one project_id trace_id chunk_id)).

(** A dictionary by chunk, the last row of a key winning. *)
Definition by_chunk {A} (rows : list (uuid * A)) (d : list (uuid * A)) : list (uuid * A) :=
  foldl (fun d row => assoc_set row.1 row.2 d) d rows.
Definition keyed_citations (l : list Citation) : list (uuid * Citation) :=
  (fun c => (cite_chunk_id c, c)) <$> l.

(** The records of the chunks that have no citation yet. *)
Fixpoint missing_citations (project_id trace_id : uuid) (selected : list (uuid * DocumentChunkRecord))
    (existing : list (uuid * Citation)) (chunk_ids : list uuid) : txn (list CitationRecord) :=
  match chunk_ids with
  | [] => mret []
  | chunk_id :: chunk_ids =>
      match assoc_get chunk_id existing with
      | Some _ => missing_citations project_id trace_id selected existing chunk_ids
      | None =>
          chunk ← lift (or_raise (assoc_get chunk_id selected) (Exn KeyError "selected"));
          id ← inside (look_outside (new_id o));
          now ← inside (look_outside (clock_at o));
          records ← missing_citations project_id trace_id selected existing chunk_ids;
          mret (new_citation id project_id trace_id chunk_id chunk now :: records)
      end
  end.

(** The transaction of [create_from_selected_candidates] *)
Definition create_all (project_id trace_id : uuid) (chunk_ids : list uuid) : txn (list Citation) :=
  rows ← ask o (selected_candidates project_id trace_id chunk_ids);
  let selected := by_chunk rows [] in
  lift (raise_if (negb (zlen selected =? zlen chunk_ids)) CitationValidationError
          "Citation must reference selected candidates in its project") ;;
  rows ← ask o (citation_statement (cited project_id trace_id chunk_ids));
  let existing := by_chunk (keyed_citations rows) [] in
  records ← missing_citations project_id trace_id selected existing chunk_ids;
  existing ← (match records with
              | [] => mret existing
              | _ =>
                  change o (flush (insert_citation <$> records)) ;;
                  rows ← ask o (citation_statement (fun c => bool_decide (ct_id c ∈ ct_id <$> records)));
                  mret (by_chunk (keyed_citations rows) existing)
              end);
  lift (try_map (fun chunk_id => or_raise (assoc_get chunk_id existing) (Exn KeyError "existing"))
          chunk_ids).

Definition create_from_selected_candidates (project_id trace_id : uuid) (chunk_ids : list uuid) :
    io (list Citation) :=
  lift (raise_if (bool_decide (chunk_ids = []) || negb (no_repeats chunk_ids)) CitationValidationError
          "Citation candidates must be a non-empty unique sequence") ;;
  citations_unavailable (begin o (create_all project_id trace_id chunk_ids)).

(** [get_for_project]: a reading session *)
Definition get_for_project (project_id citation_id : uuid) : io (option Citation) :=
  citations_unavailable
    (rows ← observes o (citation_statement
       (fun c => (ct_id c =? citation_id)%N && (ct_project_id c =? project_id)%N));
     lift (one_or_none rows)).
End repository.

(** * Properties *)

(** ** Selected candidates and citations that grow *)

Lemma selected_in_Some p d candidate chunk : selected_in p d candidate = Some chunk <->
  chunk_rows d !! rc_chunk_id candidate = Some chunk /\ has (final_rank candidate) = true /\
  (exists trace, trace_rows d !! rc_trace_id candidate = Some trace /\ rt_project_id trace = p) /\
  (exists version document, versions d !! chk_version_id chunk = Some version /\
     documents (queues d) !! ver_document_id version = Some document /\ doc_project_id document = p).
Proof.
  unfold selected_in. split.
  - intros (chunk' & Hc & (trace & Ht & (version & Hv & (document & Hd & H)%bind_Some)%bind_Some)%bind_Some)%bind_Some.
    destruct (_ && _) eqn:Hb; [|done]. injection H as ->. bools. split_and!; try done.
    + by exists trace.
    + exists version, document. split_and!; [done|done|congruence].
  - intros (Hc & Hf & (trace & Ht & Hp) & version & document & Hv & Hd & Hq).
    rewrite Hc. cbn. rewrite Ht. cbn. rewrite Hv. cbn. rewrite Hd. cbn. by rewrite Hf, Hq, Hp, N.eqb_refl.
Qed.

Lemma selected_in_grows p d d' candidate chunk : grows d d' ->
  selected_in p d candidate = Some chunk -> selected_in p d' candidate = Some chunk.
Proof.
  intros [Gd Gv Gl Gc Gt _ _]. rewrite !selected_in_Some.
  intros (Hc & Hf & (trace & Ht & Hp) & version & document & Hv & Hd & Hq).
  destruct (Gv _ _ Hv) as (version' & Hv' & He).
  split; [by eapply lookup_weaken|]. split; [done|]. split; [exists trace; split; [by eapply lookup_weaken|done]|].
  exists version', document. rewrite He. split_and!; [done|by eapply lookup_weaken|done].
Qed.

Lemma citation_view_Some d r c : citation_view d r = Some c <->
  exists chunk version document l,
    chunk_rows d !! ct_chunk_id r = Some chunk /\ versions d !! ct_version_id r = Some version /\
    documents (queues d) !! ver_document_id version = Some document /\
    locations d !! ct_location_id r = Some l /\
    chk_version_id chunk = ct_version_id r /\ chk_location_id chunk = ct_location_id r /\
    doc_project_id document = ct_project_id r /\ c = citation_from_row r chunk document l.
Proof.
  unfold citation_view. split.
  - intros (chunk & Hc & (version & Hv & (document & Hd & (l & Hl & H)%bind_Some)%bind_Some)%bind_Some)%bind_Some.
    destruct (_ && _) eqn:Hb; [|done]. injection H as <-. bools. by exists chunk, version, document, l.
  - intros (chunk & version & document & l & Hc & Hv & Hd & Hl & H1 & H2 & H3 & ->).
    rewrite Hc. cbn. rewrite Hv. cbn. rewrite Hd. cbn. rewrite Hl. cbn. by rewrite H1, H2, H3, !N.eqb_refl.
Qed.

Lemma citation_view_grows d d' r c : grows d d' -> citation_view d r = Some c -> citation_view d' r = Some c.
Proof.
  intros [Gd Gv Gl Gc _ _ _]. rewrite !citation_view_Some.
  intros (chunk & version & document & l & Hc & Hv & Hd & Hl & H).
  destruct (Gv _ _ Hv) as (version' & Hv' & He). exists chunk, version', document, l. rewrite He.
  split; [by eapply lookup_weaken|]. split; [done|]. split; [by eapply lookup_weaken|].
  split; [by eapply lookup_weaken|done].
Qed.

(** A citation of a selected candidate, at its chunk's version and place. *)
Definition grounded (d : doc_db) (c : CitationRecord) : Prop :=
  exists i candidate chunk, candidate_rows d !! i = Some candidate /\
    rc_trace_id candidate = ct_trace_id c /\ rc_chunk_id candidate = ct_chunk_id c /\
    selected_in (ct_project_id c) d candidate = Some chunk /\
    chk_version_id chunk = ct_version_id c /\ chk_location_id chunk = ct_location_id c.

Record cited_tables (d : doc_db) : Prop := {
  cb_keyed : keyed ct_id (citation_rows d);
  cb_grounded : forall i c, citation_rows d !! i = Some c -> grounded d c;
}.

Lemma grounded_grows d d' c : grows d d' -> grounded d c -> grounded d' c.
Proof.
  intros G (i & candidate & chunk & Hi & Ht & Hc & Hs & H). exists i, candidate, chunk.
  split; [by eapply lookup_weaken, gr_candidates|]. split; [done|]. split; [done|].
  split; [by eapply selected_in_grows|done].
Qed.

(** Adding a grounded citation. *)
Lemma insert_citation_cited r d d' : insert_citation r d = Ok d' -> cited_tables d -> grounded d r -> cited_tables d'.
Proof.
  intros H [Hk Hg] Hr. pose proof (insert_citation_grows _ _ _ H) as G. unfold insert_citation in H. ok_inv. cbn in *.
  split; cbn; [by apply keyed_insert|].
  intros i c [[_ <-]|[_ Hc]]%lookup_insert_Some; eapply grounded_grows; [exact G|done|exact G|by eapply Hg].
Qed.

(** The citation that a client sees: a row of the tables and what it shows. *)
Definition cites (d : doc_db) (p t k : uuid) (c : Citation) : Prop :=
  exists r, citation_rows d !! cite_id c = Some r /\ citation_view d r = Some c /\
    ct_project_id r = p /\ ct_trace_id r = t /\ ct_chunk_id r = k.

Lemma cites_grows d d' p t k c : grows d d' -> cites d p t k c -> cites d' p t k c.
Proof.
  intros G (r & Hr & Hv & H). exists r. split; [by eapply lookup_weaken, gr_citations|].
  split; [by eapply citation_view_grows|done].
Qed.

Lemma citation_statement_elem pred d c : keyed ct_id (citation_rows d) -> c ∈ citation_statement pred d <->
  exists r, citation_rows d !! cite_id c = Some r /\ citation_view d r = Some c /\ pred r = true.
Proof.
  intros Hk. unfold citation_statement. rewrite list_elem_of_omap. split.
  - intros (r & (Hp & i & Hi)%elem_of_select & Hv). exists r. split; [|done].
    pose proof (Hk _ _ Hi) as <-. apply citation_view_Some in Hv as (? & ? & ? & ? & ? & ? & ? & ? & ? & ? & ? & ->). done.
  - intros (r & Hr & Hv & Hp). exists r. split; [|done]. apply elem_of_select. eauto.
Qed.

Lemma selected_candidates_elem p t ks d k chunk : (k, chunk) ∈ selected_candidates p t ks d <->
  exists i candidate, candidate_rows d !! i = Some candidate /\ rc_trace_id candidate = t /\
    rc_chunk_id candidate = k /\ k ∈ ks /\ selected_in p d candidate = Some chunk.
Proof.
  unfold selected_candidates. rewrite list_elem_of_omap. setoid_rewrite fmap_Some. setoid_rewrite elem_of_select. split.
  - intros (candidate & (Hp & i & Hi) & chunk' & Hs & [= -> ->]). bools. by exists i, candidate.
  - intros (i & candidate & Hi & <- & <- & Hk & Hs). exists candidate. split; [split; [|by exists i]|by exists chunk].
    by rewrite N.eqb_refl, bool_decide_true.
Qed.

(** A citation made for a selected candidate, once it is in the tables. *)
Lemma new_citation_grounded p t ks d k chunk id now : (k, chunk) ∈ selected_candidates p t ks d ->
  grounded d (new_citation id p t k chunk now).
Proof.
  intros (i & candidate & Hi & Ht & Hk & _ & Hs)%selected_candidates_elem. by exists i, candidate, chunk.
Qed.

Lemma new_citation_view p t ks d d' k chunk id now l : (k, chunk) ∈ selected_candidates p t ks d -> grows d d' ->
  locations d' !! chk_location_id chunk = Some l ->
  exists c, citation_view d' (new_citation id p t k chunk now) = Some c /\ cite_id c = id /\ cite_chunk_id c = k.
Proof.
  intros (i & candidate & Hi & Ht & Hk & _ & Hs)%selected_candidates_elem G Hl.
  apply (selected_in_grows _ _ _ _ _ G), selected_in_Some in Hs as (Hc & _ & _ & version & document & Hv & Hd & Hp).
  exists (citation_from_row (new_citation id p t k chunk now) chunk document l). split; [|done].
  apply citation_view_Some. exists chunk, version, document, l. rewrite Hk in Hc. done.
Qed.

(** ** Dictionaries of rows *)

Section by_chunk.
Context {A : Type}.
Implicit Types (rows d : list (uuid * A)).

Lemma by_chunk_Some rows : forall d k x, assoc_get k (by_chunk rows d) = Some x ->
  (k, x) ∈ rows \/ assoc_get k d = Some x.
Proof.
  induction rows as [|[j y] rows IH]; intros d k x H; [by right|]. cbn in H.
  apply IH in H as [H|H]; [left; by right|]. rewrite assoc_get_set in H.
  destruct (decide (k = j)) as [->|]; [injection H as ->; left; left|by right].
Qed.

Lemma by_chunk_has rows : forall d k, (exists x, (k, x) ∈ rows) \/ is_Some (assoc_get k d) ->
  is_Some (assoc_get k (by_chunk rows d)).
Proof.
  induction rows as [|[j y] rows IH]; intros d k H; [by destruct H as [[x []%not_elem_of_nil]|]|]. cbn.
  apply IH. rewrite assoc_get_set. destruct (decide (k = j)) as [->|Hne]; [right; by eexists|].
  destruct H as [[x Hx]|H]; [left|by right]. apply elem_of_cons in Hx as [[= -> _]|Hx]; [done|by exists x].
Qed.

Lemma by_chunk_keys rows : forall d, NoDup d.*1 ->
  NoDup (by_chunk rows d).*1 /\ forall k, k ∈ (by_chunk rows d).*1 <-> k ∈ rows.*1 \/ k ∈ d.*1.
Proof.
  induction rows as [|[j y] rows IH]; intros d Hd; cbn [by_chunk foldl].
  - split; [done|]. intros k. split; [by right|]. by intros [?%not_elem_of_nil|].
  - assert (NoDup (assoc_set j y d).*1 /\ forall k, k ∈ (assoc_set j y d).*1 <-> k = j \/ k ∈ d.*1) as [Hn Hk].
    { rewrite assoc_set_keys. destruct (decide (j ∈ d.*1)) as [Hj|Hj].
      - split; [done|]. intros k. split; [by right|]. by intros [->|].
      - split.
        + apply NoDup_app. split_and!; [done| |apply NoDup_singleton]. by intros x Hx ->%list_elem_of_singleton.
        + intros k. rewrite elem_of_app, list_elem_of_singleton. tauto. }
    destruct (IH _ Hn) as [Hn' Hk']. split; [done|]. intros k. cbn in Hk'. rewrite Hk', Hk. cbn. rewrite elem_of_cons. tauto.
Qed.

(** As many keys as there were to find: all of them were found. *)
Lemma by_chunk_all rows ks : NoDup ks -> (forall k x, (k, x) ∈ rows -> k ∈ ks) ->
  zlen (by_chunk rows []) = zlen ks -> forall k, k ∈ ks -> is_Some (assoc_get k (by_chunk rows [])).
Proof.
  intros Hks Hin Hlen k Hk. destruct (by_chunk_keys rows [] (NoDup_nil_2)) as [Hn Hall].
  assert ((by_chunk rows []).*1 ≡ₚ ks) as Hp.
  { apply submseteq_length_Permutation; [|unfold zlen in Hlen; rewrite length_fmap; lia].
    apply NoDup_submseteq; [done|]. intros x [Hx|?%not_elem_of_nil]%Hall; [|done].
    apply list_elem_of_fmap in Hx as ([j y] & -> & Hy). by eapply Hin. }
  destruct (assoc_get k _) eqn:He; [by eexists|]. apply assoc_get_None in He. by rewrite Hp in He.
Qed.
End by_chunk.

(** ** Creating citations next to other sessions *)

Section sessions.
Context {E : Type} (o : outside).
Context (others_grow : forall n d, grows d (others_at o n d)).
Context (others_cite : forall n d, cited_tables d -> cited_tables (others_at o n d)).

Lemma ask_rows_Ok {A B} (f : doc_db -> list A) (g : list A -> result B) s b s' :
  ask_rows (E := E) o f g s = (Ok b, s') ->
  g (f (tables s'.1)) = Ok b /\ grows (tables s.1) (tables s'.1) /\
  (cited_tables (tables s.1) -> cited_tables (tables s'.1)).
Proof using others_grow others_cite.
  unfold ask_rows. intros (rows & s1 & (n & -> & Ht)%ask_saw & [Hg ->]%lift_Ok)%io_bind_Ok.
  rewrite Ht. split; [done|]. split; [apply others_grow|apply others_cite].
Qed.

Lemma change_cited r p t ks k chunk id now s a s' d0 :
  r = new_citation id p t k chunk now -> (k, chunk) ∈ selected_candidates p t ks d0 -> grows d0 (tables s.1) ->
  change (E := E) o (insert_citation r) s = (Ok a, s') ->
  grows (tables s.1) (tables s'.1) /\ (cited_tables (tables s.1) -> cited_tables (tables s'.1)) /\
  citation_rows (tables s'.1) !! id = Some r /\ is_null (locations (tables s'.1) !! chk_location_id chunk) = false.
Proof using others_grow others_cite.
  intros -> Hsel G0 [n H]%change_saw. pose proof (insert_citation_grows _ _ _ H) as G.
  split; [etrans; [apply others_grow|exact G]|].
  split.
  - intros Hc. eapply insert_citation_cited; [exact H|by apply others_cite|].
    eapply grounded_grows; [|by eapply new_citation_grounded]. etrans; [exact G0|apply others_grow].
  - unfold insert_citation in H. ok_inv. bools. rewrite <- H. cbn. split; [by rewrite lookup_insert_eq|done].
Qed.

Lemma create_one_Ok p t k s c s' : create_one (E := E) o p t k s = (Ok c, s') -> cited_tables (tables s.1) ->
  grows (tables s.1) (tables s'.1) /\ cited_tables (tables s'.1) /\ cites (tables s'.1) p t k c.
Proof using others_grow others_cite.
  intros H Hc. unfold create_one in H.
  apply io_bind_Ok in H as (found & s1 & (Hone & G1 & C1)%ask_rows_Ok & H). specialize (C1 Hc).
  destruct found as [c0|].
  - injection H as -> <-. split; [done|]. split; [done|].
    destruct (citation_statement _ _) as [|c1 [|]] eqn:Hs; [done| |done]. injection Hone as ->.
    assert (c ∈ citation_statement (cited p t [k]) (tables s1.1)) as Hin by (rewrite Hs; left).
    apply citation_statement_elem in Hin as (r & Hr & Hv & Hp); [|apply C1]. unfold cited in Hp. bools.
    exists r. split_and!; try done. by apply list_elem_of_singleton.
  - apply io_bind_Ok in H as (candidate & s2 & (Hsel & G2 & C2)%ask_rows_Ok & H). specialize (C2 C1).
    destruct candidate as [[k' chunk]|]; [|discriminate H].
    destruct (selected_candidates _ _ _ _) as [|x [|]] eqn:Hs; [done| |done]. injection Hsel as ->.
    assert ((k', chunk) ∈ selected_candidates p t [k] (tables s2.1)) as Hin by (rewrite Hs; left).
    pose proof Hin as (_ & _ & _ & _ & _ & ->%list_elem_of_singleton & _)%selected_candidates_elem.
    apply io_bind_Ok in H as (id & s3 & T3%look_Ok & H). apply io_bind_Ok in H as (now & s4 & T4%look_Ok & H).
    apply io_bind_Ok in H as (? & s5 & H5 & H).
    assert (tables s4.1 = tables s2.1) as T by (by rewrite T4, T3).
    eapply (change_cited _ _ _ _ _ _ _ _ _ _ _ (tables s2.1)) in H5 as (G5 & C5 & R5 & L5); [|done|exact Hin|by rewrite T].
    rewrite T in G5, C5. specialize (C5 C2).
    apply ask_rows_Ok in H as (Hex & G6 & C6). specialize (C6 C5).
    assert (grows (tables s.1) (tables s'.1)) as G by (etrans; [exact G1|]; etrans; [exact G2|]; by etrans).
    split; [exact G|]. split; [done|].
    destruct (citation_statement _ (tables s'.1)) as [|c1 [|]] eqn:Hq; [done| |done]. injection Hex as ->.
    assert (c ∈ citation_statement (fun c => (ct_id c =? id)%N) (tables s'.1)) as Hin' by (rewrite Hq; left).
    apply citation_statement_elem in Hin' as (r & Hr & Hv & Hp); [|apply C6]. bools.
    assert (cite_id c = id) as He by (by rewrite <- Hp; symmetry; apply (cb_keyed _ C6)).
    exists r. rewrite He in Hr.
    pose proof (lookup_weaken _ _ _ _ R5 (gr_citations _ _ G6)) as Hnew. rewrite Hr in Hnew. injection Hnew as ->.
    rewrite He. done.
Qed.

(** *** Several at once *)

Lemma missing_citations_Ok p t selected existing ks : forall s records s',
  missing_citations (E := E) o p t selected existing ks s = (Ok records, s') ->
  tables s'.1 = tables s.1 /\
  Forall (fun r => exists k chunk id now, r = new_citation id p t k chunk now /\ k ∈ ks /\
    assoc_get k selected = Some chunk) records /\
  forall k, k ∈ ks -> assoc_get k existing = None -> exists r, r ∈ records /\ ct_chunk_id r = k.
Proof using.
  induction ks as [|k ks IH]; intros s records s' H; cbn [missing_citations] in H.
  - injection H as <- <-. split_and!; [done|constructor|]. by intros k ?%not_elem_of_nil.
  - destruct (assoc_get k existing) as [c|] eqn:Hk.
    + apply IH in H as (-> & Hr & Hm). split; [done|]. split.
      * eapply Forall_impl; [exact Hr|]. intros r (k' & chunk & id & now & Hr' & Hk' & Hs).
        exists k', chunk, id, now. split; [done|]. split; [by right|done].
      * intros k' [->|Hk']%elem_of_cons Hn; [congruence|by apply Hm].
    + apply io_bind_Ok in H as (chunk & s1 & [Hc%or_raise_Ok ->]%lift_Ok & H).
      apply io_bind_Ok in H as (id & s2 & T2%look_Ok & H). apply io_bind_Ok in H as (now & s3 & T3%look_Ok & H).
      apply io_bind_Ok in H as (rs & s4 & (T4 & Hr & Hm)%IH & H). injection H as <- <-.
      split; [by rewrite T4, T3, T2|]. split.
      * constructor; [exists k, chunk, id, now; split; [done|split; [left|done]]|].
        eapply Forall_impl; [exact Hr|]. intros r (k' & chunk' & id' & now' & Hr' & Hk' & Hs).
        exists k', chunk', id', now'. split; [done|]. split; [by right|done].
      * intros k' [->|Hk']%elem_of_cons Hn; [eexists; split; [left|done]|].
        destruct (Hm k' Hk' Hn) as (r & Hrin & He). exists r. split; [by right|done].
Qed.

(** Records of selected candidates, written together. *)
Lemma flush_citations p t ks d0 records : forall d d',
  Forall (fun r => exists k chunk id now, r = new_citation id p t k chunk now /\
    (k, chunk) ∈ selected_candidates p t ks d0) records ->
  grows d0 d -> cited_tables d -> flush (insert_citation <$> records) d = Ok d' ->
  grows d d' /\ cited_tables d' /\
  Forall (fun r => citation_rows d' !! ct_id r = Some r /\ exists c, citation_view d' r = Some c) records.
Proof using.
  induction records as [|r records IH]; intros d d' Hr G0 Hc H; cbn in H; ok_inv.
  { split; [reflexivity|]. by split. }
  rename x into d1. apply Forall_cons in Hr as [(k & chunk & id & now & -> & Hsel) Hr].
  pose proof (insert_citation_grows _ _ _ H0) as G1.
  assert (cited_tables d1) as C1.
  { eapply insert_citation_cited; [done..|]. eapply grounded_grows; [exact G0|]. by eapply new_citation_grounded. }
  destruct (IH d1 d' Hr ltac:(by etrans) C1 H) as (G2 & C2 & Hall). split; [by etrans|]. split; [done|].
  constructor; [|done]. unfold insert_citation in H0. ok_inv. bools.
  split.
  - eapply lookup_weaken; [|apply (gr_citations _ _ G2)]. cbn. by rewrite lookup_insert_eq.
  - cbn in *. destruct (locations d !! chk_location_id chunk) as [l|] eqn:Hl; [|done].
    destruct (new_citation_view p t ks d0 d' k chunk id now l Hsel) as (c & Hv & _);
      [etrans; [exact G0|by etrans]|eapply lookup_weaken; [exact Hl|]; apply gr_locations; by etrans|]. by exists c.
Qed.

Lemma keyed_citations_elem pred d k c : cited_tables d ->
  (k, c) ∈ keyed_citations (citation_statement pred d) <->
  cite_chunk_id c = k /\ exists r, citation_rows d !! cite_id c = Some r /\ citation_view d r = Some c /\ pred r = true.
Proof using.
  intros Hc. unfold keyed_citations. rewrite list_elem_of_fmap. rewrite <- (citation_statement_elem _ _ _ (cb_keyed _ Hc)).
  naive_solver.
Qed.

Lemma ask_Raise {A} (f : doc_db -> A) s e s' : ask (E := E) o f s = (Raise e, s') ->
  is_SQLAlchemyError (exn_cls e) = true.
Proof using.
  intros H. pose proof (raising_sql (E := E) o database_error (fun d => Ok (f d, d)) eq_refl (fun d => raises_Ok _) s) as Hr.
  apply Hr. unfold ask in H. by rewrite H.
Qed.
Lemma flush_Raise records s e s' : change (E := E) o (flush (insert_citation <$> records)) s = (Raise e, s') ->
  is_SQLAlchemyError (exn_cls e) = true.
Proof using.
  intros H. unfold change in H.
  pose proof (raising_sql (E := E) o database_error (fun d => d' ← flush (insert_citation <$> records) d; Ok (tt, d')) eq_refl) as Hr.
  eapply Hr; [|by rewrite H]. intros d. apply raises_bind; [|intros; apply raises_Ok].
  apply flush_raises. intros. apply insert_citation_raises.
Qed.

(** Rows read back by their identifiers are citations of their chunks. *)
Lemma read_back p t ks d0 records d k c :
  Forall (fun r => exists k chunk id now, r = new_citation id p t k chunk now /\
    (k, chunk) ∈ selected_candidates p t ks d0) records ->
  Forall (fun r => citation_rows d !! ct_id r = Some r /\ exists c, citation_view d r = Some c) records ->
  cited_tables d ->
  (k, c) ∈ keyed_citations (citation_statement (fun c => bool_decide (ct_id c ∈ ct_id <$> records)) d) ->
  cites d p t k c.
Proof using.
  intros Hr Hin Hc (Hk & r & Hcr & Hv & Hp)%keyed_citations_elem; [|done]. bools.
  apply list_elem_of_fmap in Hp as (r' & He & Hr'). rewrite Forall_forall in Hin, Hr.
  destruct (Hin _ Hr') as [Hrow _]. rewrite <- He, (cb_keyed _ Hc _ _ Hcr), Hcr in Hrow. injection Hrow as ->.
  destruct (Hr _ Hr') as (k' & chunk & id & now & -> & _). exists (new_citation id p t k' chunk now).
  split_and!; try done. rewrite <- Hk.
  by apply citation_view_Some in Hv as (? & ? & ? & ? & ? & ? & ? & ? & ? & ? & ? & ->).
Qed.

(** The batch's writes: afterwards every chunk has its citation. *)
Definition write_missing (existing : list (uuid * Citation)) (records : list CitationRecord) :
    io (txn (E := E)) (list (uuid * Citation)) :=
  match records with
  | [] => mret existing
  | _ =>
      change o (flush (insert_citation <$> records)) ;;
      rows ← ask o (citation_statement (fun c => bool_decide (ct_id c ∈ ct_id <$> records)));
      mret (by_chunk (keyed_citations rows) existing)
  end.

Lemma write_missing_spec p t ks d0 existing records s :
  Forall (fun r => exists k chunk id now, r = new_citation id p t k chunk now /\
    (k, chunk) ∈ selected_candidates p t ks d0) records ->
  grows d0 (tables s.1) -> cited_tables (tables s.1) ->
  (forall k c, assoc_get k existing = Some c -> cites (tables s.1) p t k c) ->
  (forall k, k ∈ ks -> assoc_get k existing = None -> exists r, r ∈ records /\ ct_chunk_id r = k) ->
  match write_missing existing records s with
  | (Ok existing', s') => grows (tables s.1) (tables s'.1) /\ cited_tables (tables s'.1) /\
      forall k, k ∈ ks -> exists c, assoc_get k existing' = Some c /\ cites (tables s'.1) p t k c
  | (Raise e, s') => is_SQLAlchemyError (exn_cls e) = true
  end.
Proof using others_grow others_cite.
  intros Hr G0 Hc He Hm. destruct records as [|r records]; cbn [write_missing].
  { split; [reflexivity|]. split; [done|]. intros k Hk. destruct (assoc_get k existing) as [c|] eqn:Hg; [eauto|].
    destruct (Hm k Hk Hg) as (r & []%not_elem_of_nil & _). }
  set (rs := r :: records) in *. rewrite io_bind_eq.
  destruct (change o (flush (insert_citation <$> rs)) s) as [[[]|e] s1] eqn:H1; [|by eapply flush_Raise].
  apply change_saw in H1 as [n H1].
  apply (flush_citations p t ks d0) in H1 as (G1 & C1 & Hall); [|done|etrans; [exact G0|apply others_grow]|by apply others_cite].
  rewrite io_bind_eq. destruct (ask o _ s1) as [[rows|e] s2] eqn:H2; [|by eapply ask_Raise].
  apply ask_saw in H2 as (n2 & -> & T2). rewrite <- T2.
  assert (grows (tables s1.1) (tables s2.1)) as G2 by (rewrite T2; apply others_grow).
  assert (cited_tables (tables s2.1)) as C2 by (rewrite T2; by apply others_cite).
  assert (grows (tables s.1) (tables s2.1)) as G by (etrans; [apply (others_grow n)|by etrans]).
  assert (Forall (fun r => citation_rows (tables s2.1) !! ct_id r = Some r /\
      exists c, citation_view (tables s2.1) r = Some c) rs) as Hall2.
  { eapply Forall_impl; [exact Hall|]. intros x (Hx & c & Hv). split; [by eapply lookup_weaken, gr_citations|].
    exists c. exact (citation_view_grows _ _ _ _ G2 Hv). }
  split; [done|]. split; [done|]. intros k Hk.
  assert (is_Some (assoc_get k (by_chunk (keyed_citations
    (citation_statement (fun c => bool_decide (ct_id c ∈ ct_id <$> rs)) (tables s2.1))) existing))) as [c Hg].
  { apply by_chunk_has. destruct (assoc_get k existing) as [c|] eqn:Hg; [right; by eexists|left].
    destruct (Hm k Hk Hg) as (r' & Hr' & Hrk). rewrite Forall_forall in Hall2. destruct (Hall2 _ Hr') as (Hrow & c & Hv).
    exists c. apply keyed_citations_elem; [done|].
    pose proof Hv as (? & ? & ? & ? & ? & ? & ? & ? & ? & ? & ? & Hce)%citation_view_Some.
    rewrite Hce at 1. split; [done|]. exists r'. rewrite Hce at 1. split; [done|]. split; [done|].
    apply bool_decide_eq_true. by apply list_elem_of_fmap_2. }
  exists c. split; [done|]. apply by_chunk_Some in Hg as [Hg|Hg]; [by eapply read_back|].
  eapply cites_grows; [exact G|by apply He].
Qed.

Lemma missing_citations_total p t selected existing ks : (forall k, k ∈ ks -> is_Some (assoc_get k selected)) ->
  forall s e s', missing_citations (E := E) o p t selected existing ks s <> (Raise e, s').
Proof using.
  induction ks as [|k ks IH]; intros Hs s e s' H; cbn [missing_citations] in H; [done|].
  assert (forall k, k ∈ ks -> is_Some (assoc_get k selected)) as Hs' by (intros; apply Hs; by right).
  destruct (assoc_get k existing); [by eapply IH|]. destruct (Hs k ltac:(left)) as [chunk Hc]. rewrite Hc in H.
  rewrite io_bind_eq in H. cbn in H. rewrite io_bind_eq in H. cbn in H. rewrite io_bind_eq in H. cbn in H.
  rewrite io_bind_eq in H. destruct (missing_citations _ _ _ _ _ _ _) as [[rs|e'] s1] eqn:Hm; [done|]. by eapply IH.
Qed.

(** Every chunk that was selected has a citation at the end. *)
Lemma create_all_steps p t ks s : NoDup ks -> cited_tables (tables s.1) ->
  match create_all (E := E) o p t ks s with
  | (Ok cs, s') => grows (tables s.1) (tables s'.1) /\ cited_tables (tables s'.1) /\
      Forall2 (cites (tables s'.1) p t) ks cs
  | (Raise e, s') => is_SQLAlchemyError (exn_cls e) = true \/ exn_cls e = CitationValidationError
  end.
Proof using others_grow others_cite.
  intros Hnd Hc. unfold create_all. rewrite io_bind_eq.
  destruct (ask o _ s) as [[rows|e] s1] eqn:H1; [|left; by eapply ask_Raise].
  apply ask_saw in H1 as (n1 & -> & T1). rewrite <- T1. rewrite io_bind_eq. unfold lift at 1. unfold raise_if.
  destruct (negb _) eqn:Hlen; [by right|]. bools. rewrite io_bind_eq.
  destruct (ask o _ s1) as [[rows|e] s2] eqn:H2; [|left; by eapply ask_Raise].
  apply ask_saw in H2 as (n2 & -> & T2). rewrite <- T2. rewrite io_bind_eq.
  set (selected := by_chunk _ _) in *. set (existing := by_chunk (keyed_citations _) _).
  assert (forall k, k ∈ ks -> is_Some (assoc_get k selected)) as Hsel.
  { apply by_chunk_all; [done| |done]. intros k x Hx. by apply selected_candidates_elem in Hx as (? & ? & ? & ? & ? & ? & ?). }
  destruct (missing_citations _ _ _ _ _ _ s2) as [[records|e] s3] eqn:H3; [|by apply missing_citations_total in H3].
  apply missing_citations_Ok in H3 as (T3 & Hr & Hm). rewrite io_bind_eq.
  change (match records with [] => _ | _ => _ end) with (write_missing existing records).
  assert (grows (tables s.1) (tables s1.1)) as G1 by (rewrite T1; apply others_grow).
  assert (grows (tables s1.1) (tables s3.1)) as G3 by (rewrite T3, T2; apply others_grow).
  assert (cited_tables (tables s3.1)) as C3 by (rewrite T3, T2; apply others_cite; rewrite T1; by apply others_cite).
  assert (Forall (fun r => exists k chunk id now, r = new_citation id p t k chunk now /\
      (k, chunk) ∈ selected_candidates p t ks (tables s1.1)) records) as Hr'.
  { eapply Forall_impl; [exact Hr|]. intros r (k & chunk & id & now & Hn & _ & Hg). exists k, chunk, id, now. split; [done|].
    apply by_chunk_Some in Hg as [Hg|Hg]; [done|discriminate Hg]. }
  assert (forall k c, assoc_get k existing = Some c -> cites (tables s3.1) p t k c) as He.
  { intros k c [Hg|Hg]%by_chunk_Some; [|discriminate Hg]. rewrite <- T3 in Hg.
    apply keyed_citations_elem in Hg as (Hk & r & Hrow & Hv & Hp); [|done]. unfold cited in Hp. bools.
    exists r. split_and!; try done. rewrite <- Hk.
    by apply citation_view_Some in Hv as (? & ? & ? & ? & ? & ? & ? & ? & ? & ? & ? & ->). }
  pose proof (write_missing_spec p t ks (tables s1.1) existing records s3 Hr' G3 C3 He Hm) as Hw.
  destruct (write_missing existing records s3) as [[existing'|e] s4]; [|by left].
  destruct Hw as (G4 & C4 & Hall). unfold lift.
  assert (exists cs, try_map (fun k => or_raise (assoc_get k existing') (Exn KeyError "existing")) ks = Ok cs /\
    Forall2 (cites (tables s4.1) p t) ks cs) as (cs & -> & Hcs).
  { clear -Hall. induction ks as [|k ks IH]; [by exists []|].
    destruct IH as (cs & Hcs & Hf); [intros; apply Hall; by right|]. destruct (Hall k ltac:(left)) as (c & Hc & Hcite).
    exists (c :: cs). cbn. rewrite Hc. cbn. rewrite Hcs. split; [done|by constructor]. }
  split; [etrans; [exact G1|by etrans]|done].
Qed.

(** *** The operations *)

Lemma isolated_missing p t selected existing ks : isolated o (missing_citations (E := E) o p t selected existing ks).
Proof using.
  induction ks as [|k ks IH]; cbn [missing_citations]; [apply isolated_ret|].
  destruct (assoc_get k existing); [done|]. isolated_step. apply IH.
Qed.
Lemma isolated_create_one p t k : isolated (E := E) o (create_one o p t k).
Proof using. unfold create_one, ask_rows. isolated_step. Qed.
Lemma isolated_create_all p t ks : isolated (E := E) o (create_all o p t ks).
Proof using. unfold create_all. isolated_step; try apply isolated_missing; isolated_step. Qed.

Lemma one_raises {A} (l : list A) : raises database_error (one_or_none l) /\ raises database_error (exactly_one l).
Proof using. destruct l as [|x [|y l]]; split; cbn; repeat raises_step. Qed.

Lemma create_one_raises p t k : raising (fun c => is_SQLAlchemyError c = true \/ c = CitationValidationError)
  (create_one (E := E) o p t k).
Proof using.
  assert (forall A (r : result A), raises database_error r ->
    raises (fun c => is_SQLAlchemyError c = true \/ c = CitationValidationError) r) as Hw
    by (intros A r Hr; eapply raises_weaken; [exact Hr|]; by left).
  unfold create_one, ask_rows.
  raising_step; first [apply Hw; by apply one_raises | apply Hw, insert_citation_raises | apply raises_raise; by right].
Qed.

(** What a citation rests on: a selected candidate of the trace, in a trace
    and a document of the project, whose text and place it shows. *)
Definition evidence (d : doc_db) (p t k : uuid) (c : Citation) : Prop :=
  exists i candidate chunk trace version document l,
    candidate_rows d !! i = Some candidate /\ rc_trace_id candidate = t /\ rc_chunk_id candidate = k /\
    has (final_rank candidate) = true /\
    trace_rows d !! t = Some trace /\ rt_project_id trace = p /\
    chunk_rows d !! k = Some chunk /\ versions d !! chk_version_id chunk = Some version /\
    documents (queues d) !! ver_document_id version = Some document /\ doc_project_id document = p /\
    locations d !! chk_location_id chunk = Some l /\
    cite_project_id c = p /\ cite_trace_id c = t /\ cite_chunk_id c = k /\ cite_version_id c = chk_version_id chunk /\
    passage c = chk_text chunk /\ source_location c = location_of_row l /\
    cite_type c = document_type document /\ cite_display_name c = display_name document.

Lemma cites_evidence d p t k c : cited_tables d -> cites d p t k c -> evidence d p t k c.
Proof using.
  intros [_ Hg] (r & Hr & Hv & <- & <- & <-).
  apply citation_view_Some in Hv as (chunk & version & document & l & Hc & Hver & Hd & Hl & Ev & El & Ep & ->).
  destruct (Hg _ _ Hr) as (i & candidate & chunk' & Hi & Ht & Hk & Hs & _).
  apply selected_in_Some in Hs as (Hc' & Hf & (trace & Htr & Hp) & _).
  rewrite Hk, Hc in Hc'. injection Hc' as <-. rewrite Ht in Htr.
  exists i, candidate, chunk, trace, version, document, l. rewrite Ev, El. split_and!; done.
Qed.

(** What creating citations leaves: evidence that has grown, every citation
    in it grounded; and, when it returns, the citations asked for. *)
Definition citing (d : doc_db) (p t : uuid) (ks : list uuid) (r : result (list Citation)) (d' : doc_db) : Prop :=
  grows d d' /\ cited_tables d' /\
  match r with
  | Ok cs => Forall2 (evidence d' p t) ks cs
  | Raise e => exn_cls e = CitationValidationError \/ exn_cls e = CitationUnavailable
  end.

Lemma citations_unavailable_citing {A} (m : io (txn (E := E)) A) (f : A -> list Citation) p t ks w :
  isolated o m -> cited_tables (tables w) ->
  match m (w, tables w) with
  | (Ok a, s) => grows (tables w) (tables s.1) /\ cited_tables (tables s.1) /\ Forall2 (cites (tables s.1) p t) ks (f a)
  | (Raise e, _) => is_SQLAlchemyError (exn_cls e) = true \/ exn_cls e = CitationValidationError
  end ->
  citing (tables w) p t ks (f <$> (citations_unavailable (begin o m) w).1) (tables (citations_unavailable (begin o m) w).2).
Proof using others_grow others_cite.
  intros Hi Hc Hm. unfold citing, citations_unavailable, io_try.
  destruct (begin o m w) as [[a|e] w'] eqn:Hb.
  - apply begin_Ok in Hb as (s & Hs & Ht). rewrite Hs in Hm. cbn. rewrite Ht. destruct Hm as (G & C & Hf).
    split; [done|]. split; [done|]. eapply Forall2_impl; [exact Hf|]. intros k c. by apply cites_evidence.
  - pose proof (begin_Raise o m w e w' Hi Hb) as Ho.
    assert (grows (tables w) (tables w')) as G by by apply (only_others_grow o others_grow).
    assert (cited_tables (tables w')) as C.
    { clear -Ho Hc others_cite. induction Ho as [|d d1 d2 [n ->] _ IH]; [done|]. by apply IH, others_cite. }
    assert (is_SQLAlchemyError (exn_cls e) = true \/ exn_cls e = CitationValidationError) as He.
    { unfold begin in Hb. destruct ((a ← m; commit o ;; mret a) (w, tables w)) as [[a|e'] [w1 d]] eqn:Hr; [done|].
      injection Hb as -> _. rewrite io_bind_eq in Hr. destruct (m (w, tables w)) as [[a|e1] s1] eqn:Hms.
      - left. rewrite io_bind_eq in Hr. destruct (commit o s1) as [[[]|e2] s2] eqn:Hcm; [done|]. injection Hr as -> _.
        pose proof (raising_commit o database_error eq_refl s1) as Hx. rewrite Hcm in Hx. by apply Hx.
      - injection Hr as -> _. exact Hm. }
    destruct (is_SQLAlchemyError (exn_cls e)) eqn:Hq; cbn; [by auto|]. destruct He as [ ? | He ]; [done|by auto].
Qed.

(** C25: Next to sessions that only add evidence and grounded citations,
    creating citations for several candidates keeps every citation grounded;
    it returns one for each, resting on a selected candidate of the trace in
    the project, or raises one of its two exceptions. *)
Theorem create_from_selected_candidates_spec p t ks (w : world E) : cited_tables (tables w) ->
  citing (tables w) p t ks (create_from_selected_candidates o p t ks w).1
    (tables (create_from_selected_candidates o p t ks w).2).
Proof using others_grow others_cite.
  intros Hc. unfold create_from_selected_candidates. rewrite io_bind_eq.
  destruct (bool_decide (ks = []) || negb (no_repeats ks)) eqn:Hks; unfold lift, raise_if.
  { split; [reflexivity|split; [done|by left]]. }
  bools. pose proof (citations_unavailable_citing (create_all o p t ks) (fun cs => cs) p t ks w
    (isolated_create_all p t ks) Hc) as Hx.
  specialize (Hx ltac:(by apply create_all_steps)). revert Hx.
  destruct (citations_unavailable _ w) as [[cs|e] w']; done.
Qed.

(** The same for one candidate. *)
Theorem create_from_selected_candidate_spec p t k (w : world E) : cited_tables (tables w) ->
  citing (tables w) p t [k] ((fun c => [c]) <$> (create_from_selected_candidate o p t k w).1)
    (tables (create_from_selected_candidate o p t k w).2).
Proof using others_grow others_cite.
  intros Hc. unfold create_from_selected_candidate.
  apply (citations_unavailable_citing (create_one o p t k) (fun c => [c])); [apply isolated_create_one|done|].
  pose proof (create_one_raises p t k (w, tables w)) as Hr.
  destruct (create_one o p t k (w, tables w)) as [[c|e] s] eqn:H; [|by apply Hr].
  apply create_one_Ok in H as (G & C & Hcite); [|done]. split; [done|]. split; [done|]. by constructor.
Qed.
End sessions.

(** ** A concrete batch *)

(** The world after [sample_retrieve], and the trace it left. *)
Definition sample_traced : world unit := sample_retrieve.2.
Definition sample_trace_id : uuid := match sample_retrieve.1 with Ok r => hr_trace_id r | Raise _ => 0 end.
Definition sample_batch : result (list Citation) * world unit :=
  create_from_selected_candidates sample_outside 1 sample_trace_id [10%N; 11%N] sample_traced.

Example sample_batch_cites :
  map (fun c => (cite_chunk_id c, passage c)) <$> sample_batch.1 = Ok [(10%N, u "y"); (11%N, u "x")].
Proof. vm_compute. reflexivity. Qed.

(** A chunk that the trace did not select is refused. *)
Example sample_batch_refused :
  (create_from_selected_candidates sample_outside 1 sample_trace_id [10%N; 12%N] sample_traced).1 =
  raise CitationValidationError "Citation must reference selected candidates in its project".
Proof. vm_compute. reflexivity. Qed.

Lemma create_from_selected_candidates_spec_witness :
  cited_tables (tables sample_traced) /\
  citing (tables sample_traced) 1 sample_trace_id [10%N; 11%N] sample_batch.1 (tables sample_batch.2).
Proof.
  assert (citation_rows (tables sample_traced) = ∅) as He by (vm_compute; reflexivity).
  assert (cited_tables (tables sample_traced)) as Hc.
  { revert He. generalize (tables sample_traced). intros d He. split; rewrite He; done. }
  split; [exact Hc|]. unfold sample_batch.
  apply create_from_selected_candidates_spec; [intros n d; reflexivity|intros n d Hd; exact Hd|exact Hc].
Defined.
