(* ===== verification/EvidenceSpec.v ===== *)
(** * From retrieval to citations

    Retrieval and citations together: every chunk that a retrieval returns
    can be cited, and the citation shows the chunk's text and place. *)
From Stdlib Require Import Floats.SpecFloat.
From S2P Require Import Prelude PyText Json JsonFacts AsciiRuntime Digest Effects Database DatabaseFacts.
From S2P Require Import JobTables.
From S2P Require Import DocumentTables Indexing IndexingStore IndexingStoreSpec Sessions Retrieval Fusion.
From S2P Require Import RetrievalSpec.
From S2P Require Import Citations.

(** ** The tables' constraints *)

(** Keys, unique constraints and foreign keys that the two components rely
    on. *)
Record wf_evidence (d : doc_db) : Prop := {
  we_cited : cited_tables d;
  we_candidates : keyed rc_id (candidate_rows d);
  we_one_candidate : unique same_candidate (candidate_rows d);
  we_one_citation : unique same_citation (citation_rows d);
  we_locations : forall i chunk, chunk_rows d !! i = Some chunk -> is_Some (locations d !! chk_location_id chunk);
  we_places : keyed loc_id (locations d);
  we_projects : forall i trace, trace_rows d !! i = Some trace -> rt_project_id trace ∈ project_ids d;
}.

Lemma same_candidate_sym r s : same_candidate r s = same_candidate s r.
Proof. unfold same_candidate. by rewrite N.eqb_sym, (N.eqb_sym (rc_chunk_id s)). Qed.

Lemma insert_trace_wf r d d' : wf_evidence d -> insert_trace r d = Ok d' -> wf_evidence d'.
Proof.
  intros [[Hk Hg] Hc Hu Hcu Hl Hll Hp] H. pose proof (insert_trace_grows _ _ _ H) as G.
  unfold insert_trace in H. ok_inv. bools. split; cbn; try done.
  - split; [done|]. intros i c Hi. eapply grounded_grows; [exact G|by eapply Hg].
  - intros i trace [[_ <-]|[_ Hi]]%lookup_insert_Some; [done|by eapply Hp].
Qed.
Lemma insert_candidate_wf r d d' : wf_evidence d -> insert_candidate r d = Ok d' -> wf_evidence d'.
Proof.
  intros [[Hk Hg] Hc Hu Hcu Hl Hll Hp] H. pose proof (insert_candidate_grows _ _ _ H) as G.
  unfold insert_candidate in H. ok_inv. bools. split; cbn; try done.
  - split; [done|]. intros i c Hi. eapply grounded_grows; [exact G|by eapply Hg].
  - by apply keyed_insert.
  - apply unique_insert; [apply same_candidate_sym|done|done].
Qed.
Lemma flush_candidates_wf rows : forall d d', wf_evidence d -> flush (insert_candidate <$> rows) d = Ok d' -> wf_evidence d'.
Proof.
  induction rows as [|r rows IH]; intros d d' Hd H; cbn in H; ok_inv; [done|].
  eapply IH; [|exact H]. by eapply insert_candidate_wf.
Qed.

Section pipeline.
Context {rt : PyRuntime} {engine : SearchEngine} {E : Type} (o : outside).

Lemma rows_keep I trace_id l : keeps I (trace_candidate_rows (E := E) o trace_id l).
Proof. induction l as [|c l IH]; cbn [trace_candidate_rows]; keeps_step. apply IH. Qed.

(** A retrieval keeps the constraints. *)
Lemma retrieve_keeps p raw v f cl rl (w : world E) :
  (forall n d, wf_evidence d -> wf_evidence (others_at o n d)) -> wf_evidence (tables w) ->
  wf_evidence (tables (retrieve o p raw v f cl rl w).2).
Proof.
  intros Ho Hw. unfold retrieve. rewrite io_bind_eq. unfold lift at 1. destruct (check_retrieval _ _ _ _ _); [|done].
  rewrite io_bind_eq. unfold sql_retrieve at 1. rewrite io_bind_eq. unfold lift at 1. destruct (validate_filters f); [|done].
  unfold io_try. pose proof (begin_keeps o wf_evidence (retrieval o p a v f cl rl) w Ho (isolated_retrieval o _ _ _ _ _ _)) as Hb.
  assert (keeps wf_evidence (retrieval (E := E) o p a v f cl rl)) as Hk.
  { unfold retrieval. keeps_step; try apply rows_keep.
    - intros Hd H. ok_inv. done.
    - by apply insert_trace_wf.
    - intros Hd H. by apply (flush_candidates_wf (_ :: _)) in H. }
  specialize (Hb Hk Hw). destruct (begin o _ w) as [[r|e] w']; [exact Hb|]. by destruct (is_SQLAlchemyError _).
Qed.

(** ** Without other sessions and failures *)

Context (quiet : forall n d, others_at o n d = d) (healthy : forall n, fails o n = false).

Lemma sql_runs {A} (g : doc_db -> result (A * doc_db)) (s : txn (E := E)) a d : g (tables s.1) = Ok (a, d) ->
  exists s', sql o g s = (Ok a, s') /\ tables s'.1 = d.
Proof using quiet healthy.
  intros Hg. unfold sql. rewrite (io_step _ _ _ _ _ (others_commit_run o quiet s)).
  unfold inside. rewrite io_bind_eq. cbn. unfold statement. rewrite healthy, Hg. eexists. split; [reflexivity|done].
Qed.
Lemma ask_rows_runs {A B} (g : doc_db -> list A) (h : list A -> result B) (s : txn (E := E)) b :
  h (g (tables s.1)) = Ok b -> exists s', ask_rows o g h s = (Ok b, s') /\ tables s'.1 = tables s.1.
Proof using quiet healthy.
  intros Hh. unfold ask_rows.
  destruct (sql_runs (fun d => Ok (g d, d)) s (g (tables s.1)) (tables s.1) eq_refl) as (s' & Hs & Ht).
  exists s'. split; [|done]. unfold ask. rewrite (io_step _ _ _ _ _ Hs). unfold lift. by rewrite Hh.
Qed.
Lemma begin_runs {A} (m : io (txn (E := E)) A) w a s : m (w, tables w) = (Ok a, s) ->
  exists w', begin o m w = (Ok a, w') /\ tables w' = tables s.1.
Proof using healthy.
  intros Hm. unfold begin. rewrite (io_step _ _ _ _ _ Hm). unfold commit, inside. rewrite !io_bind_eq.
  cbn. rewrite healthy. eexists. split; [reflexivity|done].
Qed.

Lemma at_most_one {A} (l : list A) : (forall x y i j, l !! i = Some x -> l !! j = Some y -> i = j) ->
  one_or_none l = Ok (head l).
Proof using.
  intros H. destruct l as [|x [|y l]]; [done|done|]. by specialize (H x y 0%nat 1%nat eq_refl eq_refl).
Qed.

(** A selection under a unique constraint, seen through a join. *)
Lemma omap_select_one {R A} (key : R -> uuid) (pred : R -> bool) (g : R -> option A) (m : gmap uuid R) :
  keyed key m -> (forall i j r s, m !! i = Some r -> m !! j = Some s -> pred r = true -> pred s = true -> i = j) ->
  one_or_none (omap g (select pred m)) = Ok (head (omap g (select pred m))).
Proof using.
  intros Hk Hu. destruct (select_unique pred m key Hk Hu) as [->|(r & -> & _)]; [done|]. cbn. by destruct (g r).
Qed.

(** The rows that the two queries of a chunk count. *)
Lemma candidates_of_chunk t k : forall r s : RetrievalTraceCandidateRecord,
  (rc_trace_id r =? t)%N && bool_decide (rc_chunk_id r ∈ [k]) = true ->
  (rc_trace_id s =? t)%N && bool_decide (rc_chunk_id s ∈ [k]) = true -> same_candidate r s = true.
Proof using.
  intros r s Hr Hs. bools. unfold same_candidate.
  repeat match goal with E : _ ∈ [_] |- _ => apply list_elem_of_singleton in E end.
  bool_goal; apply N.eqb_eq; congruence.
Qed.
Lemma citations_of_chunk p t k : forall r s : CitationRecord,
  cited p t [k] r = true -> cited p t [k] s = true -> same_citation r s = true.
Proof using.
  unfold cited, same_citation. intros r s Hr Hs. bools.
  repeat match goal with E : _ ∈ [_] |- _ => apply list_elem_of_singleton in E end.
  bool_goal; apply N.eqb_eq; congruence.
Qed.

(** A citation of the chunk is seen by the first query. *)
Lemma citation_seen d i r : wf_evidence d -> citation_rows d !! i = Some r -> exists c, citation_view d r = Some c.
Proof using.
  intros [[_ Hg] _ _ _ Hl _ _] Hr. destruct (Hg _ _ Hr) as (j & candidate & chunk & _ & _ & Hk & Hs & Hv & Hloc).
  apply selected_in_Some in Hs as (Hc & _ & _ & version & document & Hver & Hd & Hp).
  destruct (Hl _ _ Hc) as [l Hl']. exists (citation_from_row r chunk document l). apply citation_view_Some.
  exists chunk, version, document, l. rewrite Hk in Hc. rewrite Hv in Hver. rewrite Hloc in Hl'. done.
Qed.

Lemma one_or_none_elem {A} (l : list A) x o' : one_or_none l = Ok o' -> x ∈ l -> o' = Some x.
Proof using.
  destruct l as [|y [|]]; [by intros _ ?%not_elem_of_nil| |done]. by intros [= <-] ->%list_elem_of_singleton.
Qed.

(** A citation of the same chunk in the same trace is of the same project. *)
Lemma cited_same_project d p t k i candidate chunk j r : wf_evidence d ->
  candidate_rows d !! i = Some candidate -> rc_trace_id candidate = t -> rc_chunk_id candidate = k ->
  selected_in p d candidate = Some chunk -> citation_rows d !! j = Some r ->
  ct_trace_id r = t -> ct_chunk_id r = k -> cited p t [k] r = true.
Proof using.
  intros [[_ Hg] _ _ _ _ _ _] Hi Ht Hk Hs Hr Hrt Hrk.
  destruct (Hg _ _ Hr) as (i' & candidate' & chunk' & _ & Ht' & _ & Hs' & _).
  apply selected_in_Some in Hs as (_ & _ & (trace & Htr & Hp) & _).
  apply selected_in_Some in Hs' as (_ & _ & (trace' & Htr' & Hp') & _).
  rewrite Ht' in Htr'. rewrite Hrt, <- Ht, Htr in Htr'. injection Htr' as <-.
  unfold cited. bool_goal; [apply N.eqb_eq; congruence|by apply N.eqb_eq|by apply list_elem_of_singleton].
Qed.

Lemma insert_runs d p t k i candidate chunk id now : wf_evidence d ->
  candidate_rows d !! i = Some candidate -> rc_trace_id candidate = t -> rc_chunk_id candidate = k ->
  selected_in p d candidate = Some chunk -> citation_statement (cited p t [k]) d = [] -> citation_rows d !! id = None ->
  insert_citation (new_citation id p t k chunk now) d =
    Ok (with_citation_rows d (<[id := new_citation id p t k chunk now]> (citation_rows d))).
Proof using.
  intros W Hi Ht Hk Hs Hnone Hid. pose proof W as [[Hkey Hg] Hkc Huc Hut Hl Hll Hp].
  pose proof Hs as (Hc & Hf & (trace & Htr & Hpr) & version & document & Hv & Hd & Hdp)%selected_in_Some.
  unfold insert_citation. cbn [ct_project_id ct_version_id ct_location_id ct_id new_citation].
  rewrite Hv, Hid. destruct (Hl _ _ Hc) as [l ->]. rewrite bool_decide_true by (rewrite <- Hpr; by eapply Hp).
  assert (no_row (cites_candidate (new_citation id p t k chunk now)) (candidate_rows d) = false) as ->.
  { destruct (no_row _ _) eqn:Hn; [|done]. rewrite no_row_true in Hn. specialize (Hn _ _ Hi).
    unfold cites_candidate in Hn. cbn in Hn. by rewrite Ht, Hk, !N.eqb_refl in Hn. }
  assert (no_row (same_citation (new_citation id p t k chunk now)) (citation_rows d) = true) as ->; [|done].
  apply no_row_true. intros j r Hr. destruct (same_citation _ r) eqn:Hsame; [exfalso|done].
  unfold same_citation in Hsame. cbn in Hsame. bools. destruct (citation_seen d j r W Hr) as [c Hview].
  assert (c ∈ citation_statement (cited p t [k]) d) as Hin; [|rewrite Hnone in Hin; by apply not_elem_of_nil in Hin].
  unfold citation_statement. apply list_elem_of_omap. exists r. split; [|done]. apply elem_of_select.
  split; [|by exists j]. by eapply cited_same_project.
Qed.

(** A selected candidate of a project can be cited. *)
Lemma create_one_runs p t k i candidate chunk s : wf_evidence (tables (E := E) s.1) ->
  (forall n, citation_rows (tables s.1) !! new_id o n = None) ->
  candidate_rows (tables s.1) !! i = Some candidate -> rc_trace_id candidate = t -> rc_chunk_id candidate = k ->
  selected_in p (tables s.1) candidate = Some chunk ->
  exists c s', create_one o p t k s = (Ok c, s').
Proof using quiet healthy.
  intros W Hfresh Hi Ht Hk Hs. pose proof W as [[Hkey Hg] Hkc Huc Hut Hl Hll Hp]. set (d := tables s.1) in *. unfold create_one.
  assert (one_or_none (citation_statement (cited p t [k]) d) = Ok (head (citation_statement (cited p t [k]) d))) as Hone.
  { apply (omap_select_one ct_id); [done|]. intros i1 i2 r1 r2 L1 L2 P1 P2. by eapply Hut, citations_of_chunk. }
  destruct (ask_rows_runs _ _ s _ Hone) as (s1 & H1 & T1). rewrite (io_step _ _ _ _ _ H1).
  destruct (head (citation_statement (cited p t [k]) d)) as [c|] eqn:Hnone; [by eexists _, _|].
  apply head_None in Hnone.
  assert (one_or_none (selected_candidates p t [k] d) = Ok (Some (k, chunk))) as Hsel.
  { assert ((k, chunk) ∈ selected_candidates p t [k] d) as Hin.
    { apply selected_candidates_elem. exists i, candidate. split_and!; try done. left. }
    pose proof (omap_select_one rc_id (fun c => (rc_trace_id c =? t)%N && bool_decide (rc_chunk_id c ∈ [k]))
      (fun candidate => (fun chunk => (rc_chunk_id candidate, chunk)) <$> selected_in p d candidate) (candidate_rows d) Hkc) as Ho.
    fold (selected_candidates p t [k] d) in Ho. rewrite Ho.
    - f_equal. by eapply one_or_none_elem, Hin; apply Ho; intros; eapply Huc, candidates_of_chunk.
    - intros i1 i2 r1 r2 L1 L2 P1 P2. by eapply Huc, candidates_of_chunk. }
  change (tables s1.1 = d) in T1. rewrite <- T1 in Hsel.
  destruct (ask_rows_runs _ _ s1 _ Hsel) as (s2 & H2 & T2). rewrite (io_step _ _ _ _ _ H2).
  erewrite io_step by reflexivity. erewrite io_step by reflexivity.
  match goal with |- context [new_citation ?i _ _ _ _ ?n] => set (id := i); set (now := n) end.
  match goal with |- context [(change _ _ ≫= _) ?x] => set (s3 := x) end.
  assert (tables s3.1 = d) as T3 by (cbn; by rewrite T2).
  assert (insert_citation (new_citation id p t k chunk now) d =
    Ok (with_citation_rows d (<[id := new_citation id p t k chunk now]> (citation_rows d)))) as Hins
    by (eapply insert_runs; [exact W|exact Hi|done..|apply Hfresh]).
  pose proof (insert_citation_grows _ _ _ Hins) as G.
  destruct (sql_runs (fun d => d' ← insert_citation (new_citation id p t k chunk now) d; Ok (tt, d')) s3 tt
    (with_citation_rows d (<[id := new_citation id p t k chunk now]> (citation_rows d)))) as (s4 & H4 & T4);
    [by rewrite T3, Hins|].
  unfold change. rewrite (io_step _ _ _ _ _ H4).
  pose proof Hs as (Hc & _)%selected_in_Some. rewrite Hk in Hc. destruct (Hl _ _ Hc) as [l Hloc].
  destruct (new_citation_view p t [k] d (tables s4.1) k chunk id now l) as (c & Hv & _).
  { apply selected_candidates_elem. exists i, candidate. split_and!; try done. left. }
  { by rewrite T4. }
  { by rewrite T4. }
  assert (exactly_one (citation_statement (fun c => (ct_id c =? id)%N) (tables s4.1)) = Ok c) as Hex.
  { unfold citation_statement.
    assert (select (fun c => (ct_id c =? id)%N) (citation_rows (tables s4.1)) = [new_citation id p t k chunk now]) as ->.
    { assert (keyed ct_id (citation_rows (tables s4.1))) as Hk4 by (rewrite T4; by apply (keyed_insert ct_id)).
      assert (new_citation id p t k chunk now ∈ select (fun c => (ct_id c =? id)%N) (citation_rows (tables s4.1))) as Hin.
      { apply elem_of_select. split; [by apply N.eqb_eq|]. exists id. rewrite T4. cbn. by rewrite lookup_insert_eq. }
      destruct (select_unique (fun c => (ct_id c =? id)%N) (citation_rows (tables s4.1)) ct_id Hk4)
        as [Hn|(r & Hn & _)].
      - intros i1 i2 r1 r2 L1 L2 P1 P2. bools. rewrite <- (Hk4 _ _ L1), <- (Hk4 _ _ L2). congruence.
      - rewrite Hn in Hin. by apply not_elem_of_nil in Hin.
      - rewrite Hn in Hin |- *. by apply list_elem_of_singleton in Hin as ->. }
    cbn. by rewrite Hv. }
  destruct (ask_rows_runs _ _ s4 _ Hex) as (s5 & H5 & _). rewrite H5. by eexists _, _.
Qed.

Lemma cite_selected p t k i candidate chunk (w : world E) : wf_evidence (tables w) ->
  (forall n, citation_rows (tables w) !! new_id o n = None) ->
  candidate_rows (tables w) !! i = Some candidate -> rc_trace_id candidate = t -> rc_chunk_id candidate = k ->
  selected_in p (tables w) candidate = Some chunk ->
  exists c w', create_from_selected_candidate o p t k w = (Ok c, w').
Proof using quiet healthy.
  intros W Hf Hi Ht Hk Hs. destruct (create_one_runs p t k i candidate chunk (w, tables w) W Hf Hi Ht Hk Hs) as (c & s & Hm).
  destruct (begin_runs _ w c s Hm) as (w' & Hb & _). exists c, w'.
  unfold create_from_selected_candidate, citations_unavailable, io_try. by rewrite Hb.
Qed.

(** C24: Without other sessions and failures, whatever chunk a retrieval
    returned can be cited in its trace and project, and the citation shows
    the text and the place that the retrieval showed. *)
Theorem retrieved_chunks_can_be_cited p raw v f cl rl (w : world E) r w1 c :
  wf_doc (tables w) -> wf_evidence (tables w) ->
  retrieve o p raw v f cl rl w = (Ok r, w1) -> c ∈ candidates r ->
  (forall n, citation_rows (tables w1) !! new_id o n = None) ->
  exists cit w2,
    create_from_selected_candidate o p (hr_trace_id r) (hc_chunk_id c) w1 = (Ok cit, w2) /\
    passage cit = hc_text c /\ sl_id (source_location cit) = hc_location_id c /\
    cite_version_id cit = hc_version_id c /\ cite_project_id cit = p /\ cite_trace_id cit = hr_trace_id r.
Proof using quiet healthy.
  intros Hdoc W Hret Hc Hfresh.
  assert (forall n d, grows d (others_at o n d)) as Hgrow by (intros; by rewrite quiet).
  assert (forall n d, wf_doc d -> wf_doc (others_at o n d)) as Hwf by (intros n d; by rewrite quiet).
  assert (forall n d, wf_evidence d -> wf_evidence (others_at o n d)) as Hwe by (intros n d; by rewrite quiet).
  assert (forall n d, cited_tables d -> cited_tables (others_at o n d)) as Hci by (intros n d; by rewrite quiet).
  pose proof (retrieve_keeps p raw v f cl rl w Hwe W) as W1.
  pose proof (retrieve_cases o Hgrow Hwf p raw v f cl rl w Hdoc) as Hr. rewrite Hret in Hr, W1. cbn in W1.
  destruct Hr as (_ & _ & d1 & d2 & semantic & traced & _ & _ & _ & _ & _ & Hf & Hshow & (now & Htrace) & Hrec).
  rewrite (fu_selected _ _ _ _ _ Hf) in Hc. apply list_elem_of_lookup in Hc as (i & [Hi Hlt]%lookup_take_Some).
  pose proof (fu_final _ _ _ _ _ Hf i c Hi) as Hrank. rewrite decide_True in Hrank by lia.
  apply list_elem_of_lookup_2 in Hi. destruct (Hrec c Hi) as (id & Hid).
  destruct (Hshow c Hi) as (chunk & version & document & Hchunk & Hv & Hd & Hp & _ & _ & Ever & Eloc & _ & _ & _ & Etext).
  assert (selected_in p (tables w1) (trace_candidate_row id (hr_trace_id r) c) = Some chunk) as Hsel.
  { apply selected_in_Some. split; [done|]. split; [cbn; by rewrite Hrank|]. split; [by eexists|]. by exists version, document. }
  destruct (cite_selected p (hr_trace_id r) (hc_chunk_id c) id _ chunk w1 W1 Hfresh Hid eq_refl eq_refl Hsel) as (cit & w2 & Hcit).
  exists cit, w2. split; [done|].
  pose proof (create_from_selected_candidate_spec o Hgrow Hci p (hr_trace_id r) (hc_chunk_id c) w1 (we_cited _ W1)) as Hspec.
  rewrite Hcit in Hspec. destruct Hspec as (G & _ & Hev). cbn in G, Hev. apply Forall2_cons_1 in Hev as [Hev _].
  destruct Hev as (j & candidate & chunk' & trace & version' & document' & l & _ & _ & _ & _ & _ & _ & Hc' & _ & _ & _ & Hl &
    Ep & Et & _ & Ev & Epass & Esl & _).
  pose proof (lookup_weaken _ _ _ _ Hchunk (gr_chunks _ _ G)) as Hchunk2. rewrite Hc' in Hchunk2. injection Hchunk2 as ->.
  destruct (we_locations _ W1 _ _ Hchunk) as [l1 Hl1].
  pose proof (lookup_weaken _ _ _ _ Hl1 (gr_locations _ _ G)) as Hl2. rewrite Hl in Hl2. injection Hl2 as ->.
  rewrite Epass, Etext, Esl, Ever, Eloc, Ev. cbn. split_and!; try done. by apply (we_places _ W1).
Qed.
End pipeline.

(** ** A concrete run *)

Lemma sql_once_evidence : wf_evidence (tables sql_once).
Proof.
  assert (citation_rows (tables sql_once) = ∅) as Hc by (vm_compute; reflexivity).
  assert (candidate_rows (tables sql_once) = ∅) as Hr by (vm_compute; reflexivity).
  assert (trace_rows (tables sql_once) = ∅) as Ht by (vm_compute; reflexivity).
  assert (map_Forall (fun _ chunk => is_Some (locations (tables sql_once) !! chk_location_id chunk))
    (chunk_rows (tables sql_once))) as Hl by (apply (bool_decide_unpack _); vm_compute; exact I).
  assert (map_Forall (fun i l => loc_id l = i) (locations (tables sql_once))) as Hk
    by (apply (bool_decide_unpack _); vm_compute; exact I).
  revert Hc Hr Ht Hl Hk. generalize (tables sql_once). intros d Hc Hr Ht Hl Hk.
  split; [split| | | |exact Hl|exact Hk|]; rewrite ?Hc, ?Hr, ?Ht; done.
Qed.

(** The response to [sample_retrieve], its first candidate, and the world it
    leaves. *)
Definition sample_response : option (HybridRetrievalResponse * HybridCandidate) :=
  match sample_retrieve.1 with
  | Ok r => (fun c => (r, c)) <$> head (candidates r)
  | Raise _ => None
  end.
Definition sample_after : world unit := sample_retrieve.2.

Lemma retrieved_chunks_can_be_cited_witness :
  match sample_response with
  | Some (r, c) => exists cit w2,
      create_from_selected_candidate sample_outside 1 (hr_trace_id r) (hc_chunk_id c) sample_after = (Ok cit, w2) /\
      passage cit = hc_text c /\ sl_id (source_location cit) = hc_location_id c /\
      cite_version_id cit = hc_version_id c /\ cite_project_id cit = 1%N /\ cite_trace_id cit = hr_trace_id r
  | None => False
  end.
Proof.
  assert (is_Some sample_response) as [[r c] Hs] by (vm_compute; by eexists). rewrite Hs.
  unfold sample_response in Hs. destruct sample_retrieve.1 as [r'|e] eqn:Hr; [|discriminate Hs].
  apply fmap_Some in Hs as (c' & Hc & [= -> ->]).
  eapply (retrieved_chunks_can_be_cited sample_outside); [by intros|by intros|exact sql_once_wf|exact sql_once_evidence| | |].
  - unfold sample_after. rewrite <- Hr. unfold sample_retrieve. apply surjective_pairing.
  - by apply head_Some_elem_of.
  - intros n. assert (citation_rows (tables sample_after) = ∅) as -> by (vm_compute; reflexivity). apply lookup_empty.
Defined.
