(* ===== verification/TestRevisions.v ===== *)
(** * Test revisions ([test_revisions.py])

    The history of a generated test: the generated output first, then the
    edits of users, each an immutable snapshot that names its parent.

    ** Properties

    Which histories are valid, what an edit adds to one and when it is
    refused, and what every history that grew from a generated test keeps. *)
From S2P Require Import Prelude PyText Json Digest GeneratedTests Database JsonFacts AsciiRuntime.
From S2P Require Import GeneratedTestsFacts GeneratedTestsSpec Samples.

Definition MAX_EDITOR_ID_LENGTH : Z := 255.

Inductive TestRevisionKind := GENERATED | USER_EDIT.
#[export] Instance revision_kind_eq_dec : EqDecision TestRevisionKind.
Proof. solve_decision. Defined.

Record TestRevisionV1 := {
  tr_id : uuid;
  tr_test_case_id : uuid;
  revision_number : Z;
  parent_revision_id : option uuid;
  tr_kind : TestRevisionKind;
  editor_id : option pystr;
  tr_created_at : datetime;
  test_case_payload : pystr;
}.

Record TestRevisionHistoryV1 := {
  th_test_case_id : uuid;
  revisions : list TestRevisionV1;
}.

Definition refuse {A} (msg : string) : result A := raise TestRevisionRejected msg.
Definition refuse_if (c : bool) (msg : string) : result unit := raise_if c TestRevisionRejected msg.

(** [_require_aware_timestamp] *)
Definition require_aware_timestamp (t : datetime) : result unit :=
  refuse_if (is_null (utcoffset t)) "Revision timestamps must include a timezone".

(** [a < b] on aware datetimes *)
Definition earlier (a b : datetime) : bool := utc_datetime a <? utc_datetime b.

Section revisions.
Context {rt : PyRuntime}.

(** [_normalized_editor_id] *)
Definition normalized_editor_id (editor_id : pystr) : result pystr :=
  let normalized := strip editor_id in
  refuse_if (bool_decide (normalized = []) || (MAX_EDITOR_ID_LENGTH <? zlen normalized))
    "Editor identity must be bounded, non-empty text" ;;
  Ok normalized.

(** [_validated_test_case] *)
Definition validated_test_case (payload : list (pystr * json)) : result GeneratedTestCaseV1 :=
  try_except (validate_generated_test_case payload)
    (fun c => bool_decide (c = GeneratedTestCaseValidationError))
    (fun _ => refuse "Test revision payload violates the generated-test contract").

(** [_canonical_snapshot] *)
Definition canonical_snapshot (test_case : GeneratedTestCaseV1) : result pystr :=
  validated ← validated_test_case (as_payload test_case);
  Ok (dumps_canonical (JObj (as_payload validated))).

(** [_test_case_from_snapshot] *)
Definition test_case_from_snapshot (snapshot : pystr) : result GeneratedTestCaseV1 :=
  payload ← or_raise (loads snapshot)
              (Exn TestRevisionRejected "Test revision snapshot is not valid JSON");
  match payload with
  | JObj payload => validated_test_case payload
  | _ => refuse "Test revision snapshot must be a JSON object"
  end.

(** [TestRevisionV1.test_case] *)
Definition test_case (r : TestRevisionV1) : result GeneratedTestCaseV1 :=
  test_case_from_snapshot (test_case_payload r).

(** The checks of one revision after [previous], as the first of its chain or
    as an edit. *)
Definition check_provenance (previous : option TestRevisionV1) (r : TestRevisionV1) : result unit :=
  match previous with
  | None =>
      refuse_if (negb (bool_decide (tr_kind r = GENERATED)) ||
                 negb (is_null (parent_revision_id r)) || negb (is_null (editor_id r)))
        "The first revision must be unattributed generated output"
  | Some previous =>
      match editor_id r with
      | Some editor =>
          refuse_if (negb (bool_decide (tr_kind r = USER_EDIT)) ||
                     negb (bool_decide (parent_revision_id r = Some (tr_id previous))))
            "User revisions must directly reference their parent revision" ;;
          normalized_editor_id editor ;;
          refuse_if (earlier (tr_created_at r) (tr_created_at previous))
            "Revision timestamps must not precede their parent revision"
      | None => refuse "User revisions must directly reference their parent revision"
      end
  end.

(** The loop of [_validate_history] *)
Fixpoint check_revisions (test_case_id : uuid) (expected_number : Z) (revision_ids : list uuid)
    (previous : option TestRevisionV1) (l : list TestRevisionV1) : result unit :=
  match l with
  | [] => Ok tt
  | r :: l =>
      refuse_if (bool_decide (tr_id r ∈ revision_ids)) "Test revision IDs must be unique" ;;
      refuse_if (negb (tr_test_case_id r =? test_case_id)%N)
        "Every revision must retain the original generated test case ID" ;;
      refuse_if (negb (revision_number r =? expected_number)) "Revision numbers must be contiguous" ;;
      t ← test_case r;
      refuse_if (negb (id t =? test_case_id)%N)
        "Revision snapshots must retain the original generated test case ID" ;;
      require_aware_timestamp (tr_created_at r) ;;
      check_provenance previous r ;;
      check_revisions test_case_id (expected_number + 1) (tr_id r :: revision_ids) (Some r) l
  end.

(** [_validate_history] *)
Definition validate_history (h : TestRevisionHistoryV1) : result unit :=
  refuse_if (bool_decide (revisions h = [])) "Test revision history requires an original revision" ;;
  check_revisions (th_test_case_id h) 1 [] None (revisions h).

(** [create_test_revision_history]; [new_id] is what [id_factory] returns. *)
Definition original_revision (new_id : uuid) (generated_test_case : GeneratedTestCaseV1)
    (created_at : datetime) (snapshot : pystr) : TestRevisionV1 := {|
  tr_id := new_id; tr_test_case_id := id generated_test_case; revision_number := 1;
  parent_revision_id := None; tr_kind := GENERATED; editor_id := None;
  tr_created_at := created_at; test_case_payload := snapshot |}.

Definition create_test_revision_history (new_id : uuid) (generated_test_case : GeneratedTestCaseV1)
    (created_at : datetime) : result TestRevisionHistoryV1 :=
  require_aware_timestamp created_at ;;
  snapshot ← canonical_snapshot generated_test_case;
  let history := {|
    th_test_case_id := id generated_test_case;
    revisions := [original_revision new_id generated_test_case created_at snapshot] |} in
  validate_history history ;;
  Ok history.

(** [append_user_test_revision] *)
Definition user_revision (new_id : uuid) (h : TestRevisionHistoryV1) (parent : TestRevisionV1)
    (editor : pystr) (created_at : datetime) (snapshot : pystr) : TestRevisionV1 := {|
  tr_id := new_id; tr_test_case_id := th_test_case_id h;
  revision_number := revision_number parent + 1; parent_revision_id := Some (tr_id parent);
  tr_kind := USER_EDIT; editor_id := Some editor;
  tr_created_at := created_at; test_case_payload := snapshot |}.

Definition append_user_test_revision (new_id : uuid) (h : TestRevisionHistoryV1)
    (edited_payload : list (pystr * json)) (editor : pystr) (created_at : datetime) :
    result TestRevisionHistoryV1 :=
  validate_history h ;;
  require_aware_timestamp created_at ;;
  normalized ← normalized_editor_id editor;
  edited ← validated_test_case edited_payload;
  refuse_if (negb (id edited =? th_test_case_id h)%N)
    "User edits must retain the original generated test case ID" ;;
  snapshot ← canonical_snapshot edited;
  parent ← or_raise (last (revisions h)) (Exn IndexError "tuple index out of range");
  refuse_if (str_eqb snapshot (test_case_payload parent)) "User edits must change the prior revision" ;;
  refuse_if (earlier created_at (tr_created_at parent))
    "User revision timestamps must not precede their parent revision" ;;
  refuse_if (bool_decide (new_id ∈ tr_id <$> revisions h)) "Test revision IDs must be unique" ;;
  let updated := {|
    th_test_case_id := th_test_case_id h;
    revisions := revisions h ++ [user_revision new_id h parent normalized created_at snapshot] |} in
  validate_history updated ;;
  Ok updated.
End revisions.

(** * Properties *)

(** A check followed by the rest. *)
Lemma check_Ok {A} c k msg (m : result A) x : (raise_if c k msg ;; m) = Ok x <-> c = false /\ m = Ok x.
Proof. destruct c; cbn; [split; [discriminate|by intros []]|naive_solver]. Qed.

Section revisions.
Context {rt : PyRuntime}.

(** ** Valid histories *)

Definition editor_ok (editor : pystr) : Prop := strip editor <> [] /\ zlen (strip editor) <= MAX_EDITOR_ID_LENGTH.

(** A revision in its place: the first of a chain, or an edit of the one
    before it. *)
Record in_place (test_case_id : uuid) (number : Z) (previous : option TestRevisionV1)
    (r : TestRevisionV1) : Prop := {
  ip_case : tr_test_case_id r = test_case_id;
  ip_number : revision_number r = number;
  ip_snapshot : exists t, test_case r = Ok t /\ id t = test_case_id;
  ip_aware : utcoffset (tr_created_at r) <> None;
  ip_provenance :
    match previous with
    | None => tr_kind r = GENERATED /\ parent_revision_id r = None /\ editor_id r = None
    | Some p =>
        tr_kind r = USER_EDIT /\ parent_revision_id r = Some (tr_id p) /\
        (exists editor, editor_id r = Some editor /\ editor_ok editor) /\
        utc_datetime (tr_created_at p) <= utc_datetime (tr_created_at r)
    end;
}.

Fixpoint chain (test_case_id : uuid) (number : Z) (previous : option TestRevisionV1)
    (l : list TestRevisionV1) : Prop :=
  match l with
  | [] => True
  | r :: l => in_place test_case_id number previous r /\ chain test_case_id (number + 1) (Some r) l
  end.

Record valid_history (h : TestRevisionHistoryV1) : Prop := {
  vh_original : revisions h <> [];
  vh_ids : NoDup (tr_id <$> revisions h);
  vh_chain : chain (th_test_case_id h) 1 None (revisions h);
}.

Lemma normalized_editor_Ok editor e : normalized_editor_id editor = Ok e <-> editor_ok editor /\ e = strip editor.
Proof.
  unfold normalized_editor_id, refuse_if. rewrite check_Ok, orb_false_iff, bool_decide_eq_false, Z.ltb_ge.
  unfold editor_ok. split; [by intros [[] [= <-]]|by intros [[] ->]].
Qed.

Lemma provenance_Ok previous r : check_provenance previous r = Ok tt <->
  match previous with
  | None => tr_kind r = GENERATED /\ parent_revision_id r = None /\ editor_id r = None
  | Some p =>
      tr_kind r = USER_EDIT /\ parent_revision_id r = Some (tr_id p) /\
      (exists editor, editor_id r = Some editor /\ editor_ok editor) /\
      utc_datetime (tr_created_at p) <= utc_datetime (tr_created_at r)
  end.
Proof.
  unfold check_provenance, refuse_if, refuse, earlier. destruct previous as [p|].
  - destruct (editor_id r) as [editor|]; [|split; [discriminate|by intros (_ & _ & (? & [=] & _) & _)]].
    rewrite check_Ok, orb_false_iff, !negb_false_iff, !bool_decide_eq_true. split.
    + intros ([Hk Hp] & H). apply bind_Ok in H as (e & [He _]%normalized_editor_Ok & H).
      apply raise_if_Ok in H. bools. naive_solver.
    + intros (Hk & Hp & (e & [= <-] & He) & Ht). split; [done|].
      rewrite (proj2 (normalized_editor_Ok editor (strip editor))) by done. cbn.
      apply raise_if_Ok. by apply Z.ltb_ge.
  - rewrite raise_if_Ok, !orb_false_iff, !negb_false_iff, bool_decide_eq_true.
    destruct (parent_revision_id r), (editor_id r); cbn; naive_solver.
Qed.

Lemma check_revisions_Ok c l : forall n seen previous,
  check_revisions c n seen previous l = Ok tt <->
  NoDup (tr_id <$> l) /\ (forall i, i ∈ tr_id <$> l -> i ∉ seen) /\ chain c n previous l.
Proof.
  induction l as [|r l IH]; intros n seen previous; cbn [check_revisions chain fmap list_fmap].
  - split; [|done]. intros _. split; [constructor|]. split; [by intros i ?%not_elem_of_nil|done].
  - unfold refuse_if. rewrite !check_Ok, bool_decide_eq_false, !negb_false_iff, N.eqb_eq, Z.eqb_eq, bind_Ok, NoDup_cons.
    setoid_rewrite elem_of_cons. split.
    + intros (Hid & Hc & Hn & t & Ht & H). unfold refuse_if in H. rewrite check_Ok, negb_false_iff, N.eqb_eq in H.
      destruct H as [Htc H]. apply bind_Ok in H as ([] & Ha & H). apply raise_if_Ok in Ha.
      apply bind_Ok in H as ([] & Hp%provenance_Ok & H). apply IH in H as (Hnd & Hseen & Hch).
      split; [split; [|done]; intros Hr; by apply (Hseen _ Hr); left|].
      split; [intros i [->|Hi]; [done|]; intros Hs; apply (Hseen i Hi); by right|].
      split; [|done]. split; [done|done|by exists t|by destruct (utcoffset _)|done].
    + intros ([Hnew Hnd] & Hseen & [[] Hch]). split; [naive_solver|]. split; [done|]. split; [done|].
      destruct ip_snapshot0 as (t & Ht & Htc). exists t. split; [done|].
      unfold refuse_if. rewrite check_Ok, negb_false_iff, N.eqb_eq. split; [done|].
      unfold require_aware_timestamp, refuse_if. rewrite check_Ok. split; [by destruct (utcoffset _)|].
      rewrite (proj2 (provenance_Ok previous r)) by done. cbn. apply IH. split; [done|]. split; [|done].
      intros i Hi. rewrite elem_of_cons. intros [->|Hs]; [done|]. by apply (Hseen i); [right|].
Qed.

Lemma validate_history_Ok h : validate_history h = Ok tt <-> valid_history h.
Proof.
  unfold validate_history, refuse_if. rewrite check_Ok, bool_decide_eq_false, check_revisions_Ok. split.
  - by intros (? & ? & _ & ?).
  - intros []. split; [done|]. split; [done|]. split; [|done]. by intros i _ ?%not_elem_of_nil.
Qed.

(** The last revision of a chain decides what may follow. *)
Lemma chain_snoc c l r : forall n previous, chain c n previous (l ++ [r]) <->
  chain c n previous l /\
  in_place c (n + zlen l) (match last l with Some p => Some p | None => previous end) r.
Proof.
  induction l as [|x l IH]; intros n previous; cbn [chain app].
  - unfold zlen. cbn. rewrite Z.add_0_r. naive_solver.
  - rewrite IH, zlen_cons. replace (n + (1 + zlen l)) with (n + 1 + zlen l) by lia.
    assert ((match last (x :: l) with Some p => Some p | None => previous end) =
            (match last l with Some p => Some p | None => Some x end)) as ->; [|tauto].
    rewrite last_cons. by destruct (last l).
Qed.

Lemma chain_last c l p : forall n previous, chain c n previous l -> last l = Some p ->
  exists q, in_place c (n + zlen l - 1) q p.
Proof.
  intros n previous H Hp. apply last_Some in Hp as [l' ->]. apply chain_snoc in H as [_ H].
  exists (match last l' with Some p => Some p | None => previous end).
  rewrite zlen_app. replace (n + (zlen l' + zlen [p]) - 1) with (n + zlen l'); [done|]. unfold zlen. cbn. lia.
Qed.

(** ** What is refused *)

Abbreviation refuses m := (raises (eq TestRevisionRejected) m).

Lemma refuses_validated payload : refuses (validated_test_case payload).
Proof.
  unfold validated_test_case. apply (raises_try_except _ _ _ (eq GeneratedTestCaseValidationError)).
  - apply rejects_validate.
  - intros c <-. by rewrite bool_decide_true.
  - intros e. by apply raises_raise.
Qed.
Lemma refuses_test_case r : refuses (test_case r).
Proof.
  unfold test_case, test_case_from_snapshot. apply raises_bind; [by apply raises_or_raise|].
  intros [] _; try (by apply raises_raise). apply refuses_validated.
Qed.
Lemma refuses_editor e : refuses (normalized_editor_id e).
Proof. unfold normalized_editor_id, refuse_if. repeat raises_step. Qed.
Lemma refuses_provenance p r : refuses (check_provenance p r).
Proof.
  pose proof refuses_editor. unfold check_provenance, refuse_if, refuse.
  destruct p; [destruct (editor_id r)|]; repeat raises_step; auto.
Qed.
Lemma refuses_revisions c l : forall n seen p, refuses (check_revisions c n seen p l).
Proof.
  induction l as [|r l IH]; intros n seen p; cbn [check_revisions]; [apply raises_Ok|].
  unfold require_aware_timestamp, refuse_if.
  repeat (apply raises_bind; [first [apply refuses_test_case|apply refuses_provenance|by apply raises_raise_if]|intros ? _]).
  apply IH.
Qed.
Lemma refuses_history h : refuses (validate_history h).
Proof. unfold validate_history, refuse_if. apply raises_bind; [by apply raises_raise_if|intros _ _; apply refuses_revisions]. Qed.

(** ** Reading snapshots *)

Lemma validated_Ok payload t : validated_test_case payload = Ok t <-> validate_generated_test_case payload = Ok t.
Proof.
  unfold validated_test_case. rewrite try_except_Ok. split; [|by left].
  by intros [|(e & _ & _ & H)].
Qed.

Lemma snapshot_of_wf t : wf_test_case t = true -> canonical_snapshot t = Ok (dumps_canonical (JObj (as_payload t))).
Proof.
  intros Hwf. unfold canonical_snapshot.
  rewrite (proj2 (validated_Ok (as_payload t) t)) by by apply validate_as_payload. done.
Qed.

Lemma snapshot_read_back {laws : PyRuntimeLaws rt} t : wf_test_case t = true -> case_json_wf t = true ->
  test_case_from_snapshot (dumps_canonical (JObj (as_payload t))) = Ok (sorted_case t).
Proof.
  intros Hwf Hj. unfold test_case_from_snapshot. rewrite loads_dumps_canonical by done. cbn [or_raise].
  rewrite bind_ok, sort_keys_obj. apply validated_Ok. by apply validate_sorted_payload.
Qed.

(** ** Edits *)

(** What lets an edit through: the edited test case [t] differs from what the
    last revision [p] holds, keeps the identity, and is not backdated. *)
Record edit_allowed (new_id : uuid) (h : TestRevisionHistoryV1) (p : TestRevisionV1)
    (t : GeneratedTestCaseV1) (editor : pystr) (at_ : datetime) : Prop := {
  ea_history : valid_history h;
  ea_last : last (revisions h) = Some p;
  ea_aware : utcoffset at_ <> None;
  ea_editor : editor_ok editor;
  ea_identity : id t = th_test_case_id h;
  ea_differs : dumps_canonical (JObj (as_payload t)) <> test_case_payload p;
  ea_after : utc_datetime (tr_created_at p) <= utc_datetime at_;
  ea_new : new_id ∉ tr_id <$> revisions h;
}.

(** The history with the edit. *)
Definition edited_history (new_id : uuid) (h : TestRevisionHistoryV1) (p : TestRevisionV1)
    (t : GeneratedTestCaseV1) (editor : pystr) (at_ : datetime) : TestRevisionHistoryV1 := {|
  th_test_case_id := th_test_case_id h;
  revisions := revisions h ++
    [user_revision new_id h p (strip editor) at_ (dumps_canonical (JObj (as_payload t)))] |}.

Lemma append_cases new_id h payload editor at_ h' : append_user_test_revision new_id h payload editor at_ = Ok h' ->
  exists t p, validate_generated_test_case payload = Ok t /\ edit_allowed new_id h p t editor at_ /\
    h' = edited_history new_id h p t editor at_ /\ valid_history h'.
Proof.
  unfold append_user_test_revision, require_aware_timestamp, refuse_if. intros H.
  apply bind_Ok in H as ([] & Hh%validate_history_Ok & H). rewrite check_Ok in H. destruct H as [Ha H].
  apply bind_Ok in H as (e & [He ->]%normalized_editor_Ok & H).
  apply bind_Ok in H as (t & Ht%validated_Ok & H). rewrite check_Ok in H. destruct H as [Hid H].
  rewrite snapshot_of_wf, bind_ok in H by by eapply validate_sound.
  apply bind_Ok in H as (p & Hp%or_raise_Ok & H). rewrite !check_Ok in H. destruct H as (Hd & Hl & Hn & H).
  apply bind_Ok in H as ([] & Hv%validate_history_Ok & [= <-]).
  exists t, p. split; [done|]. split; [|done]. apply negb_false_iff, N.eqb_eq in Hid. apply bool_decide_eq_false in Hn.
  split; try done; [by destruct (utcoffset at_)|by apply str_eqb_neq|by apply Z.ltb_ge].
Qed.

Lemma edit_keeps_valid {laws : PyRuntimeLaws rt} new_id h p t editor at_ :
  wf_test_case t = true -> case_json_wf t = true -> edit_allowed new_id h p t editor at_ ->
  valid_history (edited_history new_id h p t editor at_).
Proof.
  intros Hwf Hj [[Ho Hnd Hch] Hl Ha He Hi Hd Ht Hn]. split; cbn [revisions th_test_case_id edited_history].
  - by intros [? [=]]%app_nil.
  - rewrite fmap_app. apply NoDup_app. split; [done|]. split; [|by apply NoDup_singleton].
    intros x Hx ->%list_elem_of_singleton. done.
  - apply chain_snoc. split; [done|]. rewrite Hl. destruct (chain_last _ _ _ _ _ Hch Hl) as [q [_ Hnum _ _ _]].
    split; cbn; try done; [lia| |].
    + exists (sorted_case t). split; [by apply snapshot_read_back|done].
    + split; [done|]. split; [done|]. split; [|done]. exists (strip editor). split; [done|].
      unfold editor_ok. by rewrite strip_strip.
Qed.

Lemma append_runs {laws : PyRuntimeLaws rt} new_id h payload t p editor at_ :
  validate_generated_test_case payload = Ok t -> case_json_wf t = true -> edit_allowed new_id h p t editor at_ ->
  append_user_test_revision new_id h payload editor at_ = Ok (edited_history new_id h p t editor at_).
Proof.
  intros Hval Hj Hea. pose proof (validate_sound _ _ Hval) as Hwf.
  pose proof (edit_keeps_valid _ _ _ _ _ _ Hwf Hj Hea) as Hv. destruct Hea as [Hh Hl Ha He Hi Hd Ht Hn].
  unfold append_user_test_revision, require_aware_timestamp, refuse_if.
  rewrite (proj2 (validate_history_Ok h)), bind_ok by done.
  rewrite check_Ok. split; [by destruct (utcoffset at_)|].
  rewrite (proj2 (normalized_editor_Ok editor (strip editor))), bind_ok by done.
  rewrite (proj2 (validated_Ok payload t)), bind_ok by done. rewrite check_Ok.
  split; [by apply negb_false_iff, N.eqb_eq|]. rewrite snapshot_of_wf, bind_ok, Hl by done.
  cbn [or_raise]. rewrite bind_ok, !check_Ok.
  split; [by apply str_eqb_neq|]. split; [by apply Z.ltb_ge|]. split; [by apply bool_decide_eq_false|].
  apply validate_history_Ok in Hv. unfold edited_history in Hv. by rewrite Hv.
Qed.

Lemma refuses_append new_id h payload editor at_ : refuses (append_user_test_revision new_id h payload editor at_).
Proof.
  unfold append_user_test_revision.
  apply raises_bind; [apply refuses_history|intros [] Hh%validate_history_Ok].
  unfold require_aware_timestamp, canonical_snapshot, refuse_if.
  repeat (apply raises_bind;
    [first [apply refuses_editor|apply refuses_validated|apply refuses_history|by apply raises_raise_if|idtac]|intros ? ?]).
  - apply raises_Ok.
  - destruct (last (revisions h)) as [p|] eqn:Hl; [apply raises_Ok|]. apply last_None in Hl. by destruct Hh.
  - apply raises_Ok.
Qed.

(** C31: An edit is appended only when the history is valid, the payload is a
    test case of the same identity that differs from the last snapshot, the
    editor is named, the time is aware and not before the parent's, and the
    identifier is new, and then every earlier revision stays and one edit that
    names its parent follows, in a valid history. Everything else is refused,
    with one exception; and no payload of scalar text (without surrogates) is
    refused that satisfies all this. *)
Theorem append_user_test_revision_spec {laws : PyRuntimeLaws rt} new_id h payload editor at_ :
  match append_user_test_revision new_id h payload editor at_ with
  | Ok h' => exists t p, validate_generated_test_case payload = Ok t /\
      edit_allowed new_id h p t editor at_ /\ h' = edited_history new_id h p t editor at_ /\ valid_history h'
  | Raise e => exn_cls e = TestRevisionRejected /\
      forall t p, validate_generated_test_case payload = Ok t -> case_json_wf t = true ->
        ~ edit_allowed new_id h p t editor at_
  end.
Proof.
  pose proof (refuses_append new_id h payload editor at_) as Hr.
  destruct (append_user_test_revision new_id h payload editor at_) as [h'|e] eqn:H; [by apply append_cases|].
  split; [symmetry; by apply Hr|]. intros t p Hv Hj Hea.
  by rewrite (append_runs _ _ _ _ _ _ _ Hv Hj Hea) in H.
Qed.

(** ** Histories that grew from a generated test *)

Inductive history_of (t0 : GeneratedTestCaseV1) : TestRevisionHistoryV1 -> Prop :=
  | h_create new_id at_ h : create_test_revision_history new_id t0 at_ = Ok h -> history_of t0 h
  | h_append new_id payload editor at_ h h' : history_of t0 h ->
      append_user_test_revision new_id h payload editor at_ = Ok h' -> history_of t0 h'.

Lemma creation_cases new_id t0 at_ h : create_test_revision_history new_id t0 at_ = Ok h ->
  exists v, validate_generated_test_case (as_payload t0) = Ok v /\ valid_history h /\
    h = {| th_test_case_id := id t0;
           revisions := [original_revision new_id t0 at_ (dumps_canonical (JObj (as_payload v)))] |}.
Proof.
  unfold create_test_revision_history, require_aware_timestamp, canonical_snapshot, refuse_if. intros H.
  rewrite check_Ok in H. destruct H as [_ H].
  apply bind_Ok in H as (s & Hs & H). apply bind_Ok in Hs as (v & Hv%validated_Ok & [= <-]).
  apply bind_Ok in H as ([] & Hh%validate_history_Ok & [= <-]). by exists v.
Qed.

(** Every history of a generated test is valid and of that test, its first
    revision holds the test as it was generated, every revision reads back as
    a test case of the same identity, and neighbours differ. *)
Theorem history_of_spec t0 h : history_of t0 h ->
  valid_history h /\ th_test_case_id h = id t0 /\
  (exists r v, head (revisions h) = Some r /\ validate_generated_test_case (as_payload t0) = Ok v /\
     test_case_payload r = dumps_canonical (JObj (as_payload v))) /\
  (forall i r s, revisions h !! i = Some r -> revisions h !! S i = Some s ->
     test_case_payload r <> test_case_payload s).
Proof.
  induction 1 as [new_id at_ h H|new_id payload editor at_ h h' _ (Hv & Hi & (r & v & Hr & Hval & Hp) & Hdiff) H].
  - apply creation_cases in H as (v & Hval & Hv & ->). split; [done|]. split; [done|].
    split; [by eexists _, v|]. intros i r s _ Hs%lookup_lt_Some. cbn in Hs. lia.
  - apply append_cases in H as (t & p & Ht & [_ Hl _ _ _ Hd _ _] & -> & Hv'). split; [done|]. split; [done|].
    cbn [revisions edited_history]. split; [exists r, v; split; [by destruct (revisions h)|done]|].
    intros i a b Ha Hb. apply lookup_app_Some in Hb as [Hb|[Hlen Hb]].
    + rewrite lookup_app_l in Ha by (apply lookup_lt_Some in Hb; lia). by eapply Hdiff.
    + apply list_lookup_singleton_Some in Hb as [Hz <-].
      rewrite lookup_app_l in Ha by (apply lookup_lt_Some in Ha; rewrite length_app in Ha; cbn in Ha; lia).
      rewrite last_lookup in Hl. replace (pred (length (revisions h))) with i in Hl by lia.
      rewrite Hl in Ha. injection Ha as <-. by apply not_eq_sym.
Qed.
End revisions.

(** ** A concrete history *)

Definition morning : datetime := {| wall := 1000; utcoffset := Some 0 |}.
Definition noon : datetime := {| wall := 2000; utcoffset := Some 0 |}.
Definition retitled_case : GeneratedTestCaseV1 := {|
  id := id sample_case; title := u "A better title"; kind := kind sample_case;
  source_finding_id := source_finding_id sample_case; citation_ids := citation_ids sample_case;
  request := request sample_case; assertions := assertions sample_case |}.
Definition sample_history : result TestRevisionHistoryV1 := create_test_revision_history 7 sample_case morning.
Definition sample_edited : result TestRevisionHistoryV1 :=
  h ← sample_history; append_user_test_revision 8 h (as_payload retitled_case) (u " ann ") noon.

Example sample_edited_chain :
  (fun h => (fun r => (tr_id r, revision_number r, parent_revision_id r, editor_id r)) <$> revisions h) <$> sample_edited =
  Ok [(7%N, 1, None, None); (8%N, 2, Some 7%N, Some (u "ann"))].
Proof. vm_compute. reflexivity. Qed.

(** An edit that changes nothing, and one before its parent, are refused. *)
Example sample_unchanged :
  (h ← sample_history; append_user_test_revision 8 h (as_payload sample_case) (u "ann") noon) =
  raise TestRevisionRejected "User edits must change the prior revision".
Proof. vm_compute. reflexivity. Qed.
Example sample_backdated :
  (h ← sample_edited; append_user_test_revision 9 h (as_payload sample_case) (u "ann") morning) =
  raise TestRevisionRejected "User revision timestamps must not precede their parent revision".
Proof. vm_compute. reflexivity. Qed.

Lemma append_user_test_revision_spec_witness :
  match sample_history, sample_edited with
  | Ok h, Ok h' => exists t p, edit_allowed 8 h p t (u " ann ") noon /\
      h' = edited_history 8 h p t (u " ann ") noon /\ valid_history h'
  | _, _ => False
  end.
Proof.
  unfold sample_edited. destruct sample_history as [h|e] eqn:Hh; [|exfalso; clear -Hh; vm_compute in Hh; discriminate Hh].
  rewrite bind_ok. pose proof (append_user_test_revision_spec 8 h (as_payload retitled_case) (u " ann ") noon) as H.
  destruct (append_user_test_revision 8 h (as_payload retitled_case) (u " ann ") noon) as [h'|e] eqn:He.
  - destruct H as (t & p & _ & Hea & -> & Hv). exists t, p. exact (conj Hea (conj eq_refl Hv)).
  - pose proof sample_edited_chain as Hs. unfold sample_edited in Hs. rewrite Hh, bind_ok, He in Hs. discriminate Hs.
Defined.
