(* ===== verification/TestNormalization.v ===== *)
(** * Test normalisation ([test_normalization.py])

    A comparison view of a generated test that leaves out what does not change
    its behaviour, and the groups of tests whose views agree.

    ** Properties

    When two tests have one semantic key, and which tests form a group: the
    groups are the classes of that equality with two members at least,
    whatever the order of the tests. *)
From stdpp Require Import sorting.
From S2P Require Import Prelude PyText Json Digest TextFolding Ordering TargetRegistry ExecutionPlans.
From S2P Require Import GeneratedTests JsonFacts AsciiRuntime GeneratedTestsFacts GeneratedTestsSpec Samples.

Definition NORMALIZATION_VERSION : pystr := u "generated-test-normalization/v1".
(** [bfa7fa30-b11c-41b7-95d0-3b2fbd63d108] *)
Definition DUPLICATE_GROUP_NAMESPACE : uuid := 0xbfa7fa30b11c41b795d03b2fbd63d108%N.

Record NormalizedGeneratedTestCaseV1 := {
  nt_test_case_id : uuid;
  normalized_title : pystr;
  nt_semantic_key : pystr;
  semantic_fingerprint : pystr;
}.
Record DuplicateCandidateGroupV1 := {
  dg_id : uuid;
  dg_semantic_fingerprint : pystr;
  test_case_ids : list uuid;
}.

Section normalization.
Context {rt : PyRuntime} {tf : TextFolding}.

(** [_normalize_title] *)
Definition normalize_title (title : pystr) : pystr :=
  join (u " ") (split_ws (casefold (nfkc title))).

(** [sorted(items, key=_canonical_json)] *)
Definition sorted_canonical (items : list json) : list json := stable_sort (by_text dumps_canonical) items.

(** [_normalized_selector] *)
Definition normalized_selector (target : AssertionTarget) (selector : option pystr) : option pystr :=
  match target, selector with
  | RESPONSE_HEADER, Some s => Some (str_lower s)
  | _, _ => selector
  end.

(** The headers and assertions of [_semantic_payload] *)
Definition semantic_header (h : RequestHeaderV1) : json :=
  JObj [(u "name", JStr (str_lower (header_name h))); (u "value", JStr (strip (header_value h)))].
Definition semantic_assertion (a : GeneratedAssertionV1) : json :=
  JObj [(u "target", JStr (value (target a)));
        (u "selector", opt_json JStr (normalized_selector (target a) (selector a)));
        (u "operator", JStr (value (operator a)));
        (u "expected_value", expected_json (expected_value a))].

(** [_semantic_payload] *)
Definition semantic_request (r : RequestTemplateV1) : json :=
  JObj [(u "method", JStr (value (method r)));
        (u "path", JStr (path r));
        (u "query", JList (sorted_canonical (query_payload <$> query r)));
        (u "headers", JList (sorted_canonical (semantic_header <$> headers r)));
        (u "json_body", opt_json JObj (json_body r))].
Definition semantic_payload (t : GeneratedTestCaseV1) : json :=
  JObj [(u "normalization_version", JStr NORMALIZATION_VERSION);
        (u "kind", JStr (value (kind t)));
        (u "request", semantic_request (request t));
        (u "assertions", JList (sorted_canonical (semantic_assertion <$> assertions t)))].

Definition semantic_key (t : GeneratedTestCaseV1) : pystr := dumps_canonical (semantic_payload t).

(** [normalize_generated_test_case] *)
Definition normalize_generated_test_case (t : GeneratedTestCaseV1) : result NormalizedGeneratedTestCaseV1 :=
  key ← encode (semantic_key t);
  Ok {| nt_test_case_id := id t; normalized_title := normalize_title (title t);
        nt_semantic_key := semantic_key t; semantic_fingerprint := sha256_hex key |}.

(** [members_by_key] and [fingerprints_by_key]: one dictionary from a key to
    the members so far and the fingerprint. *)
Abbreviation group_dict := (list (pystr * (list uuid * pystr))).

Definition add_member (d : group_dict) (n : NormalizedGeneratedTestCaseV1) : group_dict :=
  dict_set (nt_semantic_key n)
    (match dict_get (nt_semantic_key n) d with
     | Some (members, _) => (members ++ [nt_test_case_id n], semantic_fingerprint n)
     | None => ([nt_test_case_id n], semantic_fingerprint n)
     end) d.

(** The group of one key, when it has two members at least. *)
Definition duplicate_group (entry : pystr * (list uuid * pystr)) :
    result (option DuplicateCandidateGroupV1) :=
  let '(key, (members, fingerprint)) := entry in
  let member_ids := stable_sort (by_text uuid_str) members in
  if zlen member_ids <? 2 then Ok None
  else
    name ← encode key;
    Ok (Some {| dg_id := uuid5 DUPLICATE_GROUP_NAMESPACE name;
                dg_semantic_fingerprint := fingerprint; test_case_ids := member_ids |}).

(** [group_duplicate_candidates] *)
Definition group_duplicate_candidates (test_cases : list GeneratedTestCaseV1) :
    result (list DuplicateCandidateGroupV1) :=
  raise_if (negb (no_repeats (id <$> test_cases))) TestNormalizationError
    "Generated test case IDs must be unique" ;;
  normalized ← try_map normalize_generated_test_case test_cases;
  groups ← try_map duplicate_group
             (stable_sort (by_text fst) (foldl add_member [] normalized));
  Ok (omap (M:=list) (fun g => g) groups).
End normalization.

(** * Properties *)

(** ** Sorting mapped items *)

Section fmap.
Context {A B : Type} (f : A -> B) (R : relation B) `{forall x y, Decision (R x y)}.
Context (R' : relation A) `{forall x y, Decision (R' x y)} (Hf : forall x y, R (f x) (f y) <-> R' x y).

Lemma sorted_insert_fmap x l : sorted_insert R (f x) (f <$> l) = f <$> sorted_insert R' x l.
Proof using Hf.
  induction l as [|y l IH]; cbn; [done|].
  destruct (decide (R (f x) (f y))) as [Hr|Hr], (decide (R' x y)) as [Hr'|Hr']; cbn; rewrite Hf in Hr; try done.
  f_equal. apply IH.
Qed.
Lemma stable_sort_fmap l : stable_sort R (f <$> l) = f <$> stable_sort R' l.
Proof using Hf.
  induction l as [|x l IH]; [done|]. rewrite fmap_cons.
  change (sorted_insert R (f x) (stable_sort R (f <$> l)) = f <$> sorted_insert R' x (stable_sort R' l)).
  by rewrite IH, sorted_insert_fmap.
Qed.
End fmap.

Lemma Permutation_fmap_inj {A B} (f : A -> B) `{!Inj (=) (=) f} l l' : f <$> l ≡ₚ f <$> l' <-> l ≡ₚ l'.
Proof.
  split; [|by intros ->]. intros (l3 & H & H')%Permutation_map_inv.
  apply (inj (fmap f)) in H as ->. done.
Qed.

Section keys.
Context {rt : PyRuntime} {laws : PyRuntimeLaws rt} {tf : TextFolding}.

(** Sorting by canonical text orders the values up to key order. *)
Lemma sorted_canonical_eq l l' : forallb json_wf l = true ->
  map sort_keys (sorted_canonical l) = map sort_keys (sorted_canonical l') <-> map sort_keys l ≡ₚ map sort_keys l'.
Proof.
  intros Hl.
  assert (forall k, map sort_keys (sorted_canonical k) = stable_sort (by_text print) (map sort_keys k)) as Hmap.
  { intros k. symmetry. by apply (stable_sort_fmap sort_keys). }
  split; [|rewrite !Hmap].
  - rewrite !Hmap. intros H. rewrite <- (stable_sort_Permutation (by_text print) (map sort_keys l)), H.
    by rewrite stable_sort_Permutation.
  - apply stable_sort_keys_unique. intros v w Hv Hw [= E].
    assert (forall x, x ∈ map sort_keys l -> json_wf x = true) as Hwf.
    { intros x (y & -> & Hy)%list_elem_of_fmap. by apply json_wf_sort_keys, (forallb_elem _ l). }
    apply Hwf, loads_print in Hv. apply Hwf, loads_print in Hw. rewrite E in Hv. congruence.
Qed.

(** ** What the key compares *)

Definition header_view (h : RequestHeaderV1) : pystr * pystr := (str_lower (header_name h), header_value h).
Definition assertion_view (a : GeneratedAssertionV1) :
    AssertionTarget * option pystr * AssertionOperator * ExpectedValue :=
  (target a, normalized_selector (target a) (selector a), operator a, expected_value a).

(** Two tests that send and check the same, but for the order of query
    parameters, headers, assertions and body keys, and the case of the names
    of headers. *)
Record same_behaviour (a b : GeneratedTestCaseV1) : Prop := {
  sb_kind : kind a = kind b;
  sb_method : method (request a) = method (request b);
  sb_path : path (request a) = path (request b);
  sb_query : query (request a) ≡ₚ query (request b);
  sb_headers : header_view <$> headers (request a) ≡ₚ header_view <$> headers (request b);
  sb_body : sort_obj <$> json_body (request a) = sort_obj <$> json_body (request b);
  sb_assertions : assertion_view <$> assertions a ≡ₚ assertion_view <$> assertions b;
}.

(** The sorted renderings, as functions of the views. *)
Definition header_json (v : pystr * pystr) : json := JObj [(u "name", JStr v.1); (u "value", JStr v.2)].
Definition assertion_json (v : AssertionTarget * option pystr * AssertionOperator * ExpectedValue) : json :=
  let '(t, s, o, e) := v in
  JObj [(u "expected_value", expected_json e); (u "operator", JStr (value o));
        (u "selector", opt_json JStr s); (u "target", JStr (value t))].

#[local] Instance header_json_inj : Inj (=) (=) header_json.
Proof. intros [a b] [c d] [= -> ->]. done. Qed.
#[local] Instance query_payload_inj : Inj (=) (=) query_payload.
Proof. intros [a b] [c d] [= -> ->]. done. Qed.
#[local] Instance assertion_json_inj : Inj (=) (=) assertion_json.
Proof.
  intros [[[t s] o] e] [[[t' s'] o'] e'] H. unfold assertion_json in H.
  injection H as He Ho Hs Ht. change (value o = value o') in Ho. change (value t = value t') in Ht.
  apply value_inj in Ho as ->. apply value_inj in Ht as ->.
  assert (s = s') as -> by (destruct s, s'; cbn in Hs; congruence).
  assert (e = e') as ->; [|done]. destruct e, e'; cbn in He; congruence.
Qed.

Lemma sorted_header h : strip (header_value h) = header_value h ->
  sort_keys (semantic_header h) = header_json (header_view h).
Proof.
  intros H. unfold header_view, header_json. cbn [fst snd]. change (sort_keys (semantic_header h)) with
    (JObj [(u "name", JStr (str_lower (header_name h))); (u "value", JStr (strip (header_value h)))]).
  by rewrite H.
Qed.
Lemma sorted_query p : sort_keys (query_payload p) = query_payload p.
Proof. reflexivity. Qed.
Lemma sorted_assertion a : sort_keys (semantic_assertion a) = assertion_json (assertion_view a).
Proof.
  change (sort_keys (semantic_assertion a)) with
    (JObj [(u "expected_value", sort_keys (expected_json (expected_value a)));
           (u "operator", JStr (value (operator a)));
           (u "selector", sort_keys (opt_json JStr (normalized_selector (target a) (selector a))));
           (u "target", JStr (value (target a)))]).
  unfold assertion_view, assertion_json. by destruct (expected_value a), (normalized_selector _ _).
Qed.

(** ** The payload can be read back *)

Lemma lower_ascii_scalar s : is_ascii s = true -> scalar_text (str_lower s) = true.
Proof.
  intros H. rewrite lower_ascii by done. apply forallb_forall. intros c Hc%list_elem_of_In.
  apply list_elem_of_fmap in Hc as (x & -> & Hx). rewrite is_ascii_Forall, Forall_forall in H. apply H in Hx.
  unfold scalar, between, ascii_to_lower. destruct (ascii_upper_letter x) eqn:Hu.
  - unfold ascii_upper_letter, between in Hu. apply andb_true_iff in Hu as [_ Hu%N.leb_le].
    apply andb_true_iff. split; [apply N.ltb_lt; lia|]. apply negb_true_iff, andb_false_iff. left. apply N.leb_gt. lia.
  - apply andb_true_iff. split; [apply N.ltb_lt; lia|]. apply negb_true_iff, andb_false_iff. left. apply N.leb_gt. lia.
Qed.

Lemma header_name_ascii s : header_name_pattern s = true -> is_ascii s = true.
Proof.
  intros H. apply is_ascii_Forall, Forall_forall. intros c Hc.
  assert (forallb (fun c => ascii_letter c || ascii_digit c || (c =? 45)%N) s = true) as Hf by by destruct s.
  pose proof (forallb_elem _ _ _ Hf Hc) as Hcc. cbn in Hcc. unfold ascii_letter, ascii_digit, ascii_upper_letter, ascii_lower_letter, between in Hcc.
  repeat match goal with H : _ || _ = true |- _ => apply orb_true_iff in H as [H|H] end;
    try apply N.eqb_eq in Hcc; try apply andb_true_iff in Hcc as [_ Hcc%N.leb_le]; lia.
Qed.

Lemma header_wf h : header_ok h = true -> scalar_text (header_value h) = true -> json_wf (semantic_header h) = true.
Proof.
  unfold header_ok, text_ok. intros H Hs. bools.
  change (scalar_text (str_lower (header_name h)) && (scalar_text (strip (header_value h)) && true) = true).
  match goal with E : strip (header_value h) = _ |- _ => rewrite E end.
  rewrite Hs, andb_true_r, lower_ascii_scalar by by apply header_name_ascii. done.
Qed.

Lemma assertion_wf a : assertion_ok a = true -> json_wf (assertion_payload a) = true ->
  json_wf (semantic_assertion a) = true.
Proof.
  unfold assertion_ok, contract_ok, semantic_assertion, assertion_payload. intros Hok H.
  change (scalar_text (target_value (target a)) && (json_wf (opt_json JStr (selector a)) &&
    (scalar_text (operator_value (operator a)) && (json_wf (expected_json (expected_value a)) && true))) = true) in H.
  change (scalar_text (target_value (target a)) &&
    (json_wf (opt_json JStr (normalized_selector (target a) (selector a))) &&
    (scalar_text (operator_value (operator a)) && (json_wf (expected_json (expected_value a)) && true))) = true).
  destruct (target a), (selector a) as [s|]; try exact H. cbn [normalized_selector opt_json json_wf] in *.
  rewrite lower_ascii_scalar; [by bools; bool_goal|]. apply header_name_ascii.
  destruct (operator a), (expected_value a); cbn in Hok; bools; done.
Qed.

Lemma forallb_wf_fmap {A} (f g : A -> json) (p : A -> bool) l :
  (forall x, p x = true -> json_wf (f x) = true -> json_wf (g x) = true) ->
  forallb p l = true -> forallb json_wf (f <$> l) = true -> forallb json_wf (g <$> l) = true.
Proof.
  intros Hfg. induction l as [|x l IH]; cbn; [done|]. intros H1 H2. bools. bool_goal; auto.
Qed.

(** The values a canonical test case is made of. *)
Lemma case_parts t : case_json_wf t = true ->
  forallb json_wf (query_payload <$> query (request t)) = true /\
  forallb json_wf (header_payload <$> headers (request t)) = true /\
  forallb json_wf (assertion_payload <$> assertions t) = true /\
  scalar_text (path (request t)) = true.
Proof.
  intros H. unfold case_json_wf in H.
  pose proof (json_wf_get (u "request") _ (request_payload (request t)) H eq_refl) as Hr.
  pose proof (json_wf_get (u "assertions") _ _ H eq_refl) as Ha.
  pose proof (json_wf_get (u "query") _ _ Hr eq_refl) as Hq.
  pose proof (json_wf_get (u "headers") _ _ Hr eq_refl) as Hh.
  pose proof (json_wf_get (u "path") _ _ Hr eq_refl) as Hp. done.
Qed.

Definition comparable (t : GeneratedTestCaseV1) : Prop := wf_test_case t = true /\ case_json_wf t = true.

Lemma comparable_parts t : comparable t ->
  forallb json_wf (query_payload <$> query (request t)) = true /\
  forallb json_wf (semantic_header <$> headers (request t)) = true /\
  forallb json_wf (semantic_assertion <$> assertions t) = true /\
  scalar_text (path (request t)) = true /\
  Forall (fun h => strip (header_value h) = header_value h) (headers (request t)).
Proof.
  intros [Hwf Hj]. apply case_parts in Hj as (Hq & Hh & Ha & Hp). unfold wf_test_case, request_ok in Hwf. bools.
  split; [done|]. split; [|split; [|split; [done|]]].
  - eapply (forallb_wf_fmap header_payload); [|done..]. intros h Hok Hw. apply header_wf; [done|].
    by apply (json_wf_get (u "value") _ (JStr (header_value h))) in Hw.
  - by eapply (forallb_wf_fmap assertion_payload); [apply assertion_wf|..].
  - apply Forall_forall. intros h Hin.
    match goal with E : forallb header_ok _ = true |- _ => pose proof (forallb_elem _ _ _ E Hin) as Hok end.
    unfold header_ok, text_ok in Hok. by bools.
Qed.

Lemma payload_wf t : comparable t -> json_wf (semantic_payload t) = true.
Proof.
  intros Ht. pose proof (comparable_parts t Ht) as (Hq & Hh & Ha & Hp & _). destruct Ht as [_ Hj].
  assert (json_wf (opt_json JObj (json_body (request t))) = true) as Hb.
  { destruct (json_body (request t)) as [b|] eqn:Hb; [|done]. by apply (case_json_wf_body t). }
  assert (forall l, forallb json_wf l = true -> forallb json_wf (sorted_canonical l) = true) as Hs.
  { intros l. unfold sorted_canonical. by rewrite (forallb_Permutation _ _ _ (stable_sort_Permutation _ l)). }
  apply Hs in Hq, Hh, Ha.
  change (scalar_text (kind_value (kind t)) && (((scalar_text (method_value (method (request t))) &&
    (scalar_text (path (request t)) && (forallb json_wf (sorted_canonical (query_payload <$> query (request t))) &&
    (forallb json_wf (sorted_canonical (semantic_header <$> headers (request t))) &&
    (json_wf (opt_json JObj (json_body (request t))) && true)))))) &&
    (forallb json_wf (sorted_canonical (semantic_assertion <$> assertions t)) && true)) = true).
  rewrite Hq, Hh, Ha, Hp, Hb. by destruct (kind t), (method (request t)).
Qed.

Lemma sorted_payload t : sort_keys (semantic_payload t) = JObj
  [(u "assertions", JList (map sort_keys (sorted_canonical (semantic_assertion <$> assertions t))));
   (u "kind", JStr (value (kind t)));
   (u "normalization_version", JStr NORMALIZATION_VERSION);
   (u "request", JObj
     [(u "headers", JList (map sort_keys (sorted_canonical (semantic_header <$> headers (request t)))));
      (u "json_body", sort_keys (opt_json JObj (json_body (request t))));
      (u "method", JStr (value (method (request t))));
      (u "path", JStr (path (request t)));
      (u "query", JList (map sort_keys (sorted_canonical (query_payload <$> query (request t)))))])].
Proof. reflexivity. Qed.

Lemma sorted_body b : sort_keys (opt_json JObj b) = opt_json JObj (sort_obj <$> b).
Proof. destruct b; [apply sort_keys_obj|done]. Qed.

(** Lists of renderings are equal up to order exactly when the views are. *)
Lemma views_eq {A V} (render : A -> json) (j : V -> json) `{!Inj (=) (=) j} (view : A -> V) (l l' : list A) :
  (forall x, x ∈ l -> sort_keys (render x) = j (view x)) ->
  (forall x, x ∈ l' -> sort_keys (render x) = j (view x)) -> forallb json_wf (render <$> l) = true ->
  map sort_keys (sorted_canonical (render <$> l)) = map sort_keys (sorted_canonical (render <$> l')) <->
  view <$> l ≡ₚ view <$> l'.
Proof.
  intros Hl Hl' Hwf. rewrite sorted_canonical_eq by done. rewrite <- (Permutation_fmap_inj j), <- !list_fmap_compose.
  assert (forall k : list A, (forall x, x ∈ k -> sort_keys (render x) = j (view x)) -> (sort_keys ∘ render) <$> k = (j ∘ view) <$> k) as He.
  { intros k Hk. apply list_fmap_ext. intros i x Hx%list_elem_of_lookup_2. by apply Hk. }
  by rewrite (He l), (He l').
Qed.

(** Two validated tests have one semantic key exactly when they behave
    alike. *)
Theorem semantic_key_spec a b : comparable a -> comparable b ->
  semantic_key a = semantic_key b <-> same_behaviour a b.
Proof.
  intros Ha Hb. pose proof (comparable_parts a Ha) as (Hqa & Hha & Haa & _ & Hva).
  pose proof (comparable_parts b Hb) as (_ & _ & _ & _ & Hvb). rewrite Forall_forall in Hva, Hvb.
  assert (semantic_key a = semantic_key b <-> sort_keys (semantic_payload a) = sort_keys (semantic_payload b)) as ->.
  { unfold semantic_key. split; [apply dumps_canonical_inj; by apply payload_wf|]. unfold dumps_canonical. by intros ->. }
  rewrite !sorted_payload.
  pose proof (views_eq semantic_header header_json header_view (headers (request a)) (headers (request b))
    (fun h Hh => sorted_header h (Hva h Hh)) (fun h Hh => sorted_header h (Hvb h Hh)) Hha) as Eh.
  pose proof (views_eq query_payload query_payload (fun p => p) (query (request a)) (query (request b))
    (fun p _ => sorted_query p) (fun p _ => sorted_query p) Hqa) as Eq.
  pose proof (views_eq semantic_assertion assertion_json assertion_view (assertions a) (assertions b)
    (fun p _ => sorted_assertion p) (fun p _ => sorted_assertion p) Haa) as Ea.
  rewrite !list_fmap_id in Eq. rewrite !sorted_body. split.
  - intros H. injection H as H1 H2 H3 H4 H5 H6 H7. split.
    + by apply value_inj.
    + by apply value_inj.
    + done.
    + by apply Eq.
    + by apply Eh.
    + destruct (json_body (request a)), (json_body (request b)); cbn in *; congruence.
    + by apply Ea.
  - intros [Hk Hm Hp Hq Hh Hbo Has]. apply Eq in Hq. apply Eh in Hh. apply Ea in Has.
    by rewrite Hq, Hh, Has, Hk, Hm, Hp, Hbo.
Qed.
End keys.

(** ** Groups *)

Section groups.
Context {rt : PyRuntime} {laws : PyRuntimeLaws rt} {tf : TextFolding}.

(** The members of a key, and the group they form. *)
Definition members (ts : list GeneratedTestCaseV1) (k : pystr) : list uuid :=
  id <$> filter (fun t => semantic_key t = k) ts.
Definition group_of (ts : list GeneratedTestCaseV1) (k : pystr) : option DuplicateCandidateGroupV1 :=
  let member_ids := stable_sort (by_text uuid_str) (members ts k) in
  if zlen member_ids <? 2 then None
  else Some {| dg_id := uuid5 DUPLICATE_GROUP_NAMESPACE k; dg_semantic_fingerprint := sha256_hex k;
               test_case_ids := member_ids |}.
Definition sorted_semantic_keys (ts : list GeneratedTestCaseV1) : list pystr :=
  stable_sort (by_text (fun k => k)) (remove_dups (semantic_key <$> ts)).

Definition normal_view (t : GeneratedTestCaseV1) : NormalizedGeneratedTestCaseV1 := {|
  nt_test_case_id := id t; normalized_title := normalize_title (title t);
  nt_semantic_key := semantic_key t; semantic_fingerprint := sha256_hex (semantic_key t) |}.

Lemma encode_key t : comparable t -> encode (semantic_key t) = Ok (semantic_key t).
Proof.
  intros Ht%payload_wf. unfold encode, semantic_key. by rewrite utf8_encode_ascii by by apply canonical_ascii.
Qed.

Lemma normalize_Ok t : comparable t -> normalize_generated_test_case t = Ok (normal_view t).
Proof. intros Ht. unfold normalize_generated_test_case. by rewrite encode_key. Qed.

(** The dictionary after the tests [ts]. *)
Lemma group_dict_spec ts :
  let d := foldl add_member [] (normal_view <$> ts) in
  NoDup (keys d) /\
  forall k, dict_get k d =
    match members ts k with [] => None | ms => Some (ms, sha256_hex k) end.
Proof.
  induction ts as [|t ts IH] using rev_ind; [split; [constructor|done]|].
  rewrite fmap_app, foldl_app. cbn [foldl fmap list_fmap].
  set (d := foldl add_member [] (normal_view <$> ts)) in *. destruct IH as [Hnd Hget].
  split; [by apply NoDup_dict_set|]. intros k. unfold add_member. cbn [nt_semantic_key nt_test_case_id semantic_fingerprint normal_view].
  rewrite dict_get_set. unfold members in *. rewrite filter_app, filter_cons, filter_nil.
  destruct (str_eqb k (semantic_key t)) eqn:E.
  - apply str_eqb_eq in E as ->. rewrite decide_True, Hget, fmap_app by done. by destruct (id <$> _).
  - apply str_eqb_neq in E. rewrite decide_False, app_nil_r by congruence. apply Hget.
Qed.

Lemma members_nil ts k : members ts k = [] <-> k ∉ semantic_key <$> ts.
Proof.
  unfold members. rewrite list_elem_of_fmap. split.
  - intros H%fmap_nil_inv (t & -> & Ht). assert (t ∈ filter (fun t' => semantic_key t' = semantic_key t) ts) as Hin
      by by apply list_elem_of_filter. rewrite H in Hin. by apply not_elem_of_nil in Hin.
  - intros H. destruct (filter _ ts) as [|t l] eqn:E; [done|]. destruct H. exists t.
    assert (t ∈ filter (fun t => semantic_key t = k) ts) as [<- Hin]%list_elem_of_filter by (rewrite E; left). done.
Qed.

Lemma sorted_entries ts :
  stable_sort (by_text fst) (foldl add_member [] (normal_view <$> ts)) =
  (fun k => (k, (members ts k, sha256_hex k))) <$> sorted_semantic_keys ts.
Proof.
  destruct (group_dict_spec ts) as [Hnd Hget]. set (d := foldl add_member [] (normal_view <$> ts)) in *.
  assert (forall k v, (k, v) ∈ d -> v = (members ts k, sha256_hex k) /\ k ∈ semantic_key <$> ts) as Hval.
  { intros k v Hkv. apply dict_get_NoDup in Hkv; [|done]. rewrite Hget in Hkv.
    destruct (members ts k) as [|i l] eqn:E; [done|]. injection Hkv as <-. split; [done|].
    destruct (decide (k ∈ semantic_key <$> ts)) as [|H]; [done|].
    apply members_nil in H. rewrite H in E. discriminate E. }
  assert (keys d ≡ₚ remove_dups (semantic_key <$> ts)) as Hk.
  { apply NoDup_Permutation; [done|apply NoDup_remove_dups|]. intros k. rewrite elem_of_remove_dups. split.
    - intros ([k' v] & -> & Hkv)%list_elem_of_fmap. by apply Hval in Hkv as [_ ?].
    - intros Hin. destruct (members ts k) as [|i l] eqn:E; [by apply members_nil in E|].
      specialize (Hget k). rewrite E in Hget. apply dict_get_In in Hget. apply list_elem_of_fmap. by exists (k, (i :: l, sha256_hex k)). }
  assert (fst <$> stable_sort (by_text fst) d = sorted_semantic_keys ts) as <-.
  { rewrite <- (stable_sort_fmap fst (by_text (fun k => k)) (by_text fst)) by done.
    apply stable_sort_keys_unique; [|done]. by intros x y _ _ [= ->]. }
  rewrite <- list_fmap_compose. rewrite <- (list_fmap_id (stable_sort (by_text fst) d)) at 1.
  apply list_fmap_ext. intros i [k v] Hkv%list_elem_of_lookup_2. rewrite stable_sort_Permutation in Hkv.
  apply Hval in Hkv as [-> _]. done.
Qed.

Lemma duplicate_groups_Ok ts ks : (forall k, k ∈ ks -> encode k = Ok k) ->
  try_map duplicate_group ((fun k => (k, (members ts k, sha256_hex k))) <$> ks) = Ok (group_of ts <$> ks).
Proof.
  intros Hks. apply try_map_Ok, Forall2_fmap, Forall_Forall2_diag, Forall_forall. intros k Hk.
  unfold duplicate_group, group_of. destruct (_ <? 2); [done|]. by rewrite (Hks k Hk).
Qed.

Lemma omap_id_fmap {A B} (f : A -> option B) (l : list A) : omap (fun x => x) (f <$> l) = omap f l.
Proof. induction l as [|x l IH]; cbn; [done|]. destruct (f x); [f_equal|]; apply IH. Qed.

Lemma group_eq ts : Forall comparable ts ->
  group_duplicate_candidates ts =
    if no_repeats (id <$> ts) then Ok (omap (group_of ts) (sorted_semantic_keys ts))
    else raise TestNormalizationError "Generated test case IDs must be unique".
Proof.
  intros Hts. unfold group_duplicate_candidates. destruct (no_repeats (id <$> ts)); [|done]. cbn [negb raise_if]. rewrite bind_ok.
  rewrite Forall_forall in Hts.
  assert (try_map normalize_generated_test_case ts = Ok (normal_view <$> ts)) as ->.
  { apply try_map_Ok, Forall2_fmap_r, Forall_Forall2_diag, Forall_forall. intros t Ht. by apply normalize_Ok, Hts. }
  rewrite bind_ok, sorted_entries, duplicate_groups_Ok, bind_ok; [by rewrite omap_id_fmap|].
  intros k Hk. unfold sorted_semantic_keys in Hk. rewrite stable_sort_Permutation in Hk.
  apply elem_of_remove_dups, list_elem_of_fmap in Hk as (t & -> & Ht). by apply encode_key, Hts.
Qed.

(** ** The groups are the classes of tests that behave alike *)

Lemma members_elem ts k i : i ∈ members ts k <-> exists t, t ∈ ts /\ id t = i /\ semantic_key t = k.
Proof.
  unfold members. rewrite list_elem_of_fmap. split.
  - intros (t & -> & [Hk Ht]%list_elem_of_filter). by exists t.
  - intros (t & Ht & <- & Hk). exists t. by rewrite list_elem_of_filter.
Qed.

Lemma members_nodup ts k : NoDup (id <$> ts) -> NoDup (members ts k).
Proof.
  intros Hnd. unfold members. apply NoDup_fmap_2_strong; [|by apply NoDup_filter, (NoDup_fmap_1 id)].
  intros x y [_ Hx]%list_elem_of_filter [_ Hy]%list_elem_of_filter. by apply (nodup_key id ts).
Qed.

Lemma group_of_Some ts k g : group_of ts k = Some g ->
  (forall i, i ∈ test_case_ids g <-> i ∈ members ts k) /\ test_case_ids g ≡ₚ members ts k /\
  2 <= zlen (test_case_ids g) /\ dg_id g = uuid5 DUPLICATE_GROUP_NAMESPACE k /\
  dg_semantic_fingerprint g = sha256_hex k.
Proof.
  unfold group_of. destruct (_ <? 2) eqn:Hl; [done|]. intros [= <-]. cbn. apply Z.ltb_ge in Hl.
  split_and!; try done; [intros i; by rewrite stable_sort_Permutation|by rewrite stable_sort_Permutation].
Qed.

Lemma two_members {A} (l : list A) a b : a ∈ l -> b ∈ l -> a <> b -> 2 <= zlen l.
Proof.
  intros Ha Hb Hab. destruct l as [|x [|y l]]; [by apply not_elem_of_nil in Ha| |unfold zlen; cbn; lia].
  apply list_elem_of_singleton in Ha, Hb. congruence.
Qed.

Record grouped (ts : list GeneratedTestCaseV1) (groups : list DuplicateCandidateGroupV1) : Prop := {
  gd_pairs : forall a b, a ∈ ts -> b ∈ ts -> a <> b ->
    (exists g, g ∈ groups /\ id a ∈ test_case_ids g /\ id b ∈ test_case_ids g) <-> same_behaviour a b;
  gd_once : NoDup (groups ≫= test_case_ids);
  gd_size : forall g, g ∈ groups -> 2 <= zlen (test_case_ids g);
  gd_members : forall g i, g ∈ groups -> i ∈ test_case_ids g -> exists t, t ∈ ts /\ id t = i /\
    dg_semantic_fingerprint g = sha256_hex (semantic_key t) /\
    dg_id g = uuid5 DUPLICATE_GROUP_NAMESPACE (semantic_key t);
}.

Lemma groups_once ts ks : NoDup (id <$> ts) -> NoDup ks -> NoDup (omap (group_of ts) ks ≫= test_case_ids).
Proof.
  intros Hnd. induction 1 as [|k ks Hk _ IH]; [constructor|]. cbn [omap list_omap].
  destruct (group_of ts k) as [g|] eqn:Hg; [|done]. cbn [mbind list_bind].
  apply group_of_Some in Hg as (Hin & Hp & _). apply NoDup_app. split; [rewrite Hp; by apply members_nodup|].
  split; [|done]. intros i Hi (g' & Hi' & Hg')%list_elem_of_bind.
  apply list_elem_of_omap in Hg' as (k' & Hk' & Hg'). apply group_of_Some in Hg' as (Hin' & _).
  apply Hin, members_elem in Hi as (t & Ht & <- & Htk). rewrite Hin', members_elem in Hi'. destruct Hi' as (t' & Ht' & Hid & Htk').
  apply (nodup_key id ts) in Hid; [|done..]. subst t'. congruence.
Qed.

Lemma groups_grouped ts : Forall comparable ts -> NoDup (id <$> ts) ->
  grouped ts (omap (group_of ts) (sorted_semantic_keys ts)).
Proof.
  intros Hts Hnd. rewrite Forall_forall in Hts.
  assert (forall k, k ∈ sorted_semantic_keys ts <-> exists t, t ∈ ts /\ semantic_key t = k) as Hks.
  { intros k. unfold sorted_semantic_keys. rewrite stable_sort_Permutation, elem_of_remove_dups, list_elem_of_fmap. naive_solver. }
  split.
  - intros a b Ha Hb Hab. rewrite <- semantic_key_spec by auto. split.
    + intros (g & (k & _ & Hg)%list_elem_of_omap & Hia & Hib). apply group_of_Some in Hg as (Hin & _).
      apply Hin, members_elem in Hia as (ta & Hta & Eta & <-). apply Hin, members_elem in Hib as (tb & Htb & Etb & E).
      apply (nodup_key id ts) in Eta; [|done..]. apply (nodup_key id ts) in Etb; [|done..]. congruence.
    + intros E. assert (id a ∈ members ts (semantic_key a)) as Hia by (apply members_elem; by exists a).
      assert (id b ∈ members ts (semantic_key a)) as Hib by (apply members_elem; by exists b).
      assert (id a <> id b) as Hne by (intros Eid; by apply Hab, (nodup_key id ts)).
      assert (is_Some (group_of ts (semantic_key a))) as [g Hg].
      { unfold group_of. assert (2 <= zlen (stable_sort (by_text uuid_str) (members ts (semantic_key a)))) as H2.
        { by apply (two_members _ (id a) (id b)); rewrite ?stable_sort_Permutation. }
        by rewrite (proj2 (Z.ltb_ge _ _) H2). }
      exists g. split; [|by apply group_of_Some in Hg as (Hin & _); rewrite !Hin].
      apply list_elem_of_omap. exists (semantic_key a). split; [|done]. apply Hks. by exists a.
  - apply groups_once; [done|]. unfold sorted_semantic_keys. rewrite stable_sort_Permutation. apply NoDup_remove_dups.
  - intros g (k & _ & Hg)%list_elem_of_omap. by apply group_of_Some in Hg as (_ & _ & ? & _).
  - intros g i (k & _ & Hg)%list_elem_of_omap Hi. apply group_of_Some in Hg as (Hin & _ & _ & -> & ->).
    apply Hin, members_elem in Hi as (t & Ht & <- & <-). by exists t.
Qed.

(** The order of the tests does not matter. *)
Lemma groups_permutation ts ts' : Forall comparable ts -> ts ≡ₚ ts' ->
  omap (group_of ts) (sorted_semantic_keys ts) = omap (group_of ts') (sorted_semantic_keys ts').
Proof.
  intros Hts Hp. rewrite Forall_forall in Hts.
  assert (sorted_semantic_keys ts = sorted_semantic_keys ts') as ->.
  { apply stable_sort_keys_unique; [by intros x y _ _ [= ->]|]. apply NoDup_Permutation; [apply NoDup_remove_dups..|].
    intros k. by rewrite !elem_of_remove_dups, Hp. }
  assert (forall k, members ts k ≡ₚ members ts' k) as Hm by (intros k; unfold members; by rewrite Hp).
  assert (forall k, stable_sort (by_text uuid_str) (members ts k) = stable_sort (by_text uuid_str) (members ts' k)) as Hs.
  { intros k. apply stable_sort_keys_unique; [|apply Hm].
    assert (forall i, i ∈ members ts k -> (i < 2 ^ 128)%N) as Hb.
    { intros i (t & Ht & <- & _)%members_elem. apply Hts in Ht as [Hwf _]. unfold wf_test_case, uuid_ok in Hwf. bools.
      by apply N.ltb_lt. }
    intros x y Hx Hy E. apply uuid_str_inj; [by apply Hb..|]. by apply (f_equal (fun l => default [] (head l))) in E. }
  assert (forall k, group_of ts k = group_of ts' k) as Hg by (intros k; unfold group_of; by rewrite Hs).
  induction (sorted_semantic_keys ts') as [|k ks IH]; [done|]. cbn [omap list_omap]. by rewrite Hg, IH.
Qed.

(** C32: Of validated tests of scalar text (without surrogates), grouping
    refuses those that share an identifier. Otherwise two tests are in one
    group exactly when they behave alike, every test is in one group at most,
    every group has two tests at least and is named after what they have in
    common; and the order of the tests does not matter. *)
Theorem group_duplicate_candidates_spec ts ts' : Forall comparable ts -> ts ≡ₚ ts' ->
  match group_duplicate_candidates ts with
  | Ok groups => NoDup (id <$> ts) /\ grouped ts groups /\ group_duplicate_candidates ts' = Ok groups
  | Raise e => exn_cls e = TestNormalizationError /\ ~ NoDup (id <$> ts)
  end.
Proof.
  intros Hts Hp. assert (Forall comparable ts') as Hts' by by rewrite <- Hp.
  rewrite !group_eq by done. unfold no_repeats. destruct (bool_decide (NoDup (id <$> ts))) eqn:Hnd; bools; [|by split].
  assert (NoDup (id <$> ts')) as Hnd' by by rewrite <- Hp. rewrite bool_decide_true by done.
  split; [done|]. split; [by apply groups_grouped|]. by rewrite (groups_permutation ts ts').
Qed.
End groups.

(** ** A concrete group *)

(** The sample test under another identifier and title, and one that expects
    another status. *)
Definition renamed_case : GeneratedTestCaseV1 := {|
  id := id sample_case + 1; title := u "The same request again"; kind := kind sample_case;
  source_finding_id := source_finding_id sample_case; citation_ids := citation_ids sample_case;
  request := request sample_case; assertions := assertions sample_case |}.
Definition other_case : GeneratedTestCaseV1 := {|
  id := id sample_case + 2; title := title sample_case; kind := kind sample_case;
  source_finding_id := source_finding_id sample_case; citation_ids := citation_ids sample_case;
  request := request sample_case;
  assertions := [{| target := STATUS_CODE; selector := None; operator := EQUALS; expected_value := EInt 404 |}] |}.

Example sample_groups :
  map test_case_ids <$> group_duplicate_candidates [other_case; renamed_case; sample_case] =
  Ok [[id sample_case; id sample_case + 1]]%N.
Proof. vm_compute. reflexivity. Qed.

Lemma group_duplicate_candidates_spec_witness :
  exists groups, group_duplicate_candidates [other_case; renamed_case; sample_case] = Ok groups /\
    grouped [other_case; renamed_case; sample_case] groups /\
    group_duplicate_candidates [sample_case; renamed_case; other_case] = Ok groups.
Proof.
  pose proof (group_duplicate_candidates_spec [other_case; renamed_case; sample_case]
    [sample_case; renamed_case; other_case]) as H.
  pose proof sample_groups as Hs.
  destruct (group_duplicate_candidates [other_case; renamed_case; sample_case]) as [groups|e]; [|discriminate Hs].
  exists groups. split; [reflexivity|]. apply H.
  - repeat (apply Forall_cons; split; [split; vm_compute; reflexivity|]). by apply Forall_nil.
  - exact (Permutation_rev [other_case; renamed_case; sample_case]).
Defined.
