(* ===== verification/RequirementsAnalysis.v ===== *)
(** * Requirement analysis ([requirements_analysis.py])

    Rules that read cited passages and produce findings, each grounded in the
    citations it rests on; the repository of analysis runs and the service. *)
From S2P Require Import Prelude PyText Json Digest TextFolding Ordering GeneratedTests Effects Database.
From S2P Require Import JobTables.
From S2P Require Import Regex DocumentTables IndexingStore Sessions Citations Findings.

Definition ANALYZER_VERSION : pystr := u "requirement-quality-rules/v1".
(** [f2e32d13-e8fe-4b53-90e9-75443b896a35] *)
Definition FINDING_NAMESPACE : uuid := 0xf2e32d13e8fe4b5390e975443b896a35%N.

Record RequirementAnalysisRun := {
  run_id : uuid;
  run_project_id : uuid;
  analyzer_version : pystr;
  run_citation_ids : list uuid;
  run_findings : list RequirementFindingV1;
  run_created_at : instant;
}.

Definition AMBIGUOUS_TERMS : list pystr :=
  [u "fast"; u "appropriate"; u "reasonable"; u "as needed"; u "user-friendly"].
Definition ACTION_TERMS : list pystr := [u "delete"; u "update"; u "export"; u "approve"].
Definition AUTHORIZATION_TERMS : list pystr :=
  [u "owner"; u "role"; u "authorized"; u "permission"; u "admin"].
Definition ERROR_TERMS : list pystr := [u "error"; u "failure"; u "invalid"; u "not found"; u "reject"].
Definition PERFORMANCE_TERMS : list pystr :=
  [u "many"; u "large"; u "real time"; u "quickly"; u "high traffic"].
Definition ACCEPTANCE_MARKERS : list pystr :=
  [u "ac-"; u "acceptance criteria"; u "given"; u "when"; u "then"].

(** [any(term in text for term in terms)] *)
Definition mentions (terms : list pystr) (text : pystr) : bool := existsb (fun term => contains term text) terms.

(** [_supported_finding] and [_evidence] *)
Definition supported_finding_id (rule : pystr) (evidence : list FindingEvidence) : uuid :=
  uuid5 FINDING_NAMESPACE (rule ++ u ":" ++ join (u ":") ((fun e => uuid_str (citation_id e)) <$> evidence)).
Definition supported_finding (rule : pystr) (category : FindingCategory) (severity : FindingSeverity)
    (evidence : list FindingEvidence) (analysis recommendation : pystr) : RequirementFindingV1 := {|
  finding_id := supported_finding_id rule evidence;
  category := category; severity := severity; evidence := evidence; analysis := analysis;
  confidence := one; recommendation := recommendation; unsupported := false; unsupported_reason := None |}.
Definition cite_fact (c : Citation) (observed_fact : pystr) : list FindingEvidence :=
  [{| citation_id := cite_id c; observed_fact := observed_fact |}].

(** ** The rules of one passage *)

Definition acceptance_finding (c : Citation) : RequirementFindingV1 :=
  supported_finding (u "missing_acceptance_criteria") MISSING_ACCEPTANCE_CRITERIA MEDIUM
    (cite_fact c (u "The requirement contains a normative statement but no acceptance-criterion or Gherkin marker."))
    (u "The requirement cannot be verified consistently because its success and failure conditions are absent.")
    (u "Add observable acceptance criteria, including expected success, boundary, and failure behavior.").

Definition ambiguity_finding (c : Citation) (term : pystr) : RequirementFindingV1 :=
  supported_finding (u "ambiguity") AMBIGUITY MEDIUM
    (cite_fact c (u "The passage uses the vague term '" ++ term ++ u "'."))
    (u "'" ++ term ++ u "' is not objectively testable without a measurable definition.")
    (u "Replace '" ++ term ++
     u "' with an observable threshold, time limit, or measurable acceptance criterion.").

Definition authorization_finding (c : Citation) : RequirementFindingV1 :=
  supported_finding (u "authorization_gap") AUTHORIZATION_GAP HIGH
    (cite_fact c (u "The passage describes a state-changing action without an explicit authorization term."))
    (u "The actor and permission boundary are not specified, so authorization behavior cannot be tested.")
    (u "Specify the permitted actor, required role or ownership rule, and forbidden-access behavior.").

Definition error_handling_finding (c : Citation) : RequirementFindingV1 :=
  supported_finding (u "error_handling_gap") ERROR_HANDLING_GAP MEDIUM
    (cite_fact c (u "The passage describes an action without an explicit failure, invalid-input, or not-found outcome."))
    (u "The error behavior is not specified, preventing negative-path test design.")
    (u "Add expected failure outcomes, error responses, and state-preservation behavior.").

Definition performance_finding (c : Citation) (term : pystr) : RequirementFindingV1 :=
  supported_finding (u "performance_risk") PERFORMANCE_RISK MEDIUM
    (cite_fact c (u "The passage uses the unbounded performance term '" ++ term ++ u "'."))
    (u "The performance expectation has no measurable volume, latency, or throughput target.")
    (u "Specify workload, percentile, latency, throughput, or capacity limits.").

Definition contradiction_finding (left_one right_one : Citation) : RequirementFindingV1 :=
  supported_finding (u "contradiction") CONTRADICTION HIGH
    [{| citation_id := cite_id left_one; observed_fact := passage left_one |};
     {| citation_id := cite_id right_one; observed_fact := passage right_one |}]
    (u "The cited requirements state opposite mandatory behavior for the same normalized subject and action.")
    (u "Resolve the conflict and retain one unambiguous requirement with testable acceptance criteria.").

Section rules.
Context {rt : PyRuntime} {tf : TextFolding}.

(** [_REQUIREMENT_MARKER.search]: one of the words between word boundaries.
    The character before the position is a word character or not. *)
Definition word_char (c : N) : bool := cp_isalnum c || (c =? 95)%N.
Definition word_here (word s : pystr) : bool :=
  starts_with word s &&
  match drop (length word) s with c :: _ => negb (word_char c) | [] => true end.
Fixpoint marker_search (after_word : bool) (s : pystr) : bool :=
  (negb after_word && existsb (fun word => word_here word s) [u "must"; u "shall"; u "should"]) ||
  match s with
  | c :: s => marker_search (word_char c) s
  | [] => false
  end.

(** [_has_measurable_bound] *)
Definition has_measurable_bound (text : pystr) : bool :=
  existsb (fun c => negb (is_null (cp_decimal c))) text.

(** The pattern of [_must_statement]; its groups are numbered in order. *)
Definition statement_head (c : N) : bool := ascii_lower_letter c || ascii_digit c.
Definition statement_char (c : N) : bool := statement_head c || one_of (u " _-") c.
Definition literally (s : pystr) : re := lit (N.eqb <$> s).
Definition must_pattern : re :=
  Seq (Group 1 (Seq (Class statement_head) (Rep 0 (Some 120%nat) false statement_char)))
    (Seq (literally (u " must "))
      (Seq (Opt (Group 2 (literally (u "not "))))
        (Group 3 (Seq (Class statement_head) (Rep 0 (Some 160%nat) true statement_char))))).

(** [text.rstrip(".!;")] *)
Definition rstrip_punctuation (text : pystr) : pystr := reverse (drop_while (one_of (u ".!;")) (reverse text)).

(** [_must_statement] *)
Definition must_statement (c : Citation) : option (pystr * bool * pystr) :=
  let normalized := rstrip_punctuation (join (u " ") (split_ws (casefold (passage c)))) in
  match run must_pattern normalized [] (fun s g => match s with [] => Some g | _ => None end) with
  | Some g => Some (strip (group 1 g), existsb (fun kv => (kv.1 =? 2)%nat) g, strip (group 3 g))
  | None => None
  end.

(** The findings of one citation. *)
Definition citation_findings (c : Citation) : list RequirementFindingV1 :=
  let text := casefold (passage c) in
  (if marker_search false text && negb (mentions ACCEPTANCE_MARKERS text) then [acceptance_finding c] else []) ++
  (ambiguity_finding c <$>
     List.filter (fun term => contains term text && negb (has_measurable_bound text)) AMBIGUOUS_TERMS) ++
  (if mentions ACTION_TERMS text && negb (mentions AUTHORIZATION_TERMS text) then [authorization_finding c] else []) ++
  (if mentions ACTION_TERMS text && negb (mentions ERROR_TERMS text) then [error_handling_finding c] else []) ++
  (performance_finding c <$>
     List.filter (fun term => contains term text && negb (has_measurable_bound text)) PERFORMANCE_TERMS).

(** The pairs of citations that contradict each other. *)
Definition contradicts (a b : pystr * bool * pystr) : bool :=
  let '(left_subject, left_is_negative, left_predicate) := a in
  let '(right_subject, right_is_negative, right_predicate) := b in
  str_eqb left_subject right_subject && str_eqb left_predicate right_predicate &&
  negb (Bool.eqb left_is_negative right_is_negative).
Definition contradictions_of (left_one : Citation) (statement : pystr * bool * pystr) (l : list Citation) :
    list RequirementFindingV1 :=
  omap (fun right_one =>
    right_statement ← must_statement right_one;
    if contradicts statement right_statement then Some (contradiction_finding left_one right_one) else None) l.
Fixpoint contradictions (l : list Citation) : list RequirementFindingV1 :=
  match l with
  | [] => []
  | left_one :: l =>
      match must_statement left_one with
      | Some statement => contradictions_of left_one statement l
      | None => []
      end ++ contradictions l
  end.

(** [analyze_citations] *)
Definition ordered_citations (citations : list Citation) : list Citation :=
  stable_sort (by_text (fun c => uuid_str (cite_id c))) citations.
Definition analyze_citations (citations : list Citation) : list RequirementFindingV1 :=
  let ordered := ordered_citations citations in
  (ordered ≫= citation_findings) ++ contradictions ordered.

(** ** The SQL repository *)

(** [finding_from_record] *)
Definition finding_from_record (r : RequirementFindingRecord) : result RequirementFindingV1 :=
  validate_requirement_finding
    [(u "schema_version", JStr REQUIREMENT_FINDING_SCHEMA_VERSION);
     (u "id", JStr (uuid_str (rf_id r)));
     (u "category", JStr (rf_category r));
     (u "severity", JStr (rf_severity r));
     (u "evidence", rf_evidence r);
     (u "analysis", JStr (rf_analysis r));
     (u "confidence", JFloat (rf_confidence r));
     (u "recommendation", JStr (rf_recommendation r));
     (u "unsupported", JBool (rf_unsupported r));
     (u "unsupported_reason", opt_json JStr (rf_unsupported_reason r))].

Definition run_row (id project_id : uuid) (citation_ids : list uuid) (created_at : instant) :
    RequirementAnalysisRunRecord := {|
  ra_id := id; ra_project_id := project_id; ra_analyzer_version := ANALYZER_VERSION;
  ra_citation_ids := uuid_str <$> citation_ids; ra_created_at := created_at |}.
Definition finding_row (project_id run_id : uuid) (created_at : instant) (f : RequirementFindingV1) :
    RequirementFindingRecord := {|
  rf_id := finding_id f; rf_project_id := project_id; rf_run_id := run_id;
  rf_category := value (category f); rf_severity := value (severity f);
  rf_evidence := JList (evidence_payload <$> evidence f); rf_analysis := analysis f;
  rf_confidence := confidence f; rf_recommendation := recommendation f;
  rf_unsupported := unsupported f; rf_unsupported_reason := unsupported_reason f;
  rf_created_at := created_at |}.

Definition finding_id_le (a b : RequirementFindingRecord) : Prop := (rf_id a <= rf_id b)%N.
#[export] Instance finding_id_le_dec a b : Decision (finding_id_le a b) := N.le_dec _ _.

Section operations.
Context {E : Type} (o : outside).
Abbreviation txn := (io (txn (E := E))).
Abbreviation io := (io (world E)).

(** The transaction of [SqlAlchemyRequirementAnalysisRepository.create]: the
    pending rows are written when it commits. *)
Definition store_run (run : RequirementAnalysisRunRecord) (rows : list RequirementFindingRecord) : txn unit :=
  change o (insert_run run) ;;
  match rows with
  | [] => mret tt
  | _ => change o (flush (insert_finding <$> rows))
  end.

Definition create (project_id : uuid) (citation_ids : list uuid) (findings : list RequirementFindingV1) :
    io RequirementAnalysisRun :=
  created_at ← look_outside (clock_at o);
  id ← look_outside (new_id o);
  let ordered_findings := stable_sort (by_text (fun f => uuid_str (finding_id f))) findings in
  io_try (begin o (store_run (run_row id project_id citation_ids created_at)
                     (finding_row project_id id created_at <$> ordered_findings)))
    is_SQLAlchemyError (fun _ => io_raise RequirementAnalysisUnavailable "") ;;
  mret {| run_id := id; run_project_id := project_id; analyzer_version := ANALYZER_VERSION;
          run_citation_ids := citation_ids; run_findings := ordered_findings; run_created_at := created_at |}.

Definition run_statement (project_id run_id : uuid) (d : doc_db) : option RequirementAnalysisRunRecord :=
  run ← run_rows d !! run_id;
  if (ra_project_id run =? project_id)%N then Some run else None.
Definition finding_statement (project_id run_id : uuid) (d : doc_db) : list RequirementFindingRecord :=
  merge_sort finding_id_le
    (select (fun r => (rf_run_id r =? run_id)%N && (rf_project_id r =? project_id)%N) (finding_rows d)).

Definition run_of_rows (run : RequirementAnalysisRunRecord) (rows : list RequirementFindingRecord) :
    result RequirementAnalysisRun :=
  citation_ids ← try_map (fun value => or_raise (uuid_parse value)
                            (Exn ValueError "badly formed hexadecimal UUID string")) (ra_citation_ids run);
  findings ← try_map finding_from_record rows;
  Ok {| run_id := ra_id run; run_project_id := ra_project_id run;
        analyzer_version := ra_analyzer_version run; run_citation_ids := citation_ids;
        run_findings := findings; run_created_at := ra_created_at run |}.

(** [SqlAlchemyRequirementAnalysisRepository.get_for_project] *)
Definition get_run (project_id run_id : uuid) : io (option RequirementAnalysisRun) :=
  io_try
    (run ← observes o (run_statement project_id run_id);
     match run with
     | None => mret None
     | Some run =>
         rows ← observes o (finding_statement project_id (ra_id run));
         run ← lift (run_of_rows run rows);
         mret (Some run)
     end)
    (fun c => is_SQLAlchemyError c || bool_decide (c = TypeError) || is_ValueError c)
    (fun _ => io_raise RequirementAnalysisUnavailable "").

(** ** The service *)

(** The comprehension over the citation repository *)
Fixpoint read_citations (project_id : uuid) (citation_ids : list uuid) : io (list (option Citation)) :=
  match citation_ids with
  | [] => mret []
  | citation_id :: citation_ids =>
      c ← get_for_project o project_id citation_id;
      l ← read_citations project_id citation_ids;
      mret (c :: l)
  end.

(** A finding as the contract takes it *)
Definition validated (f : RequirementFindingV1) : result RequirementFindingV1 :=
  validate_requirement_finding (finding_payload f).

(** [RequirementAnalysisService.analyze] *)
Definition analyze (project_id : uuid) (citation_ids : list uuid) : io RequirementAnalysisRun :=
  lift (raise_if (bool_decide (citation_ids = [])) ValueError "At least one citation is required") ;;
  lift (raise_if (negb (no_repeats citation_ids)) ValueError "Citation IDs must not repeat") ;;
  citations ← io_try (read_citations project_id citation_ids)
                (fun c => bool_decide (c = CitationUnavailable))
                (fun _ => io_raise RequirementAnalysisUnavailable "");
  lift (raise_if (existsb is_null citations) ValueError "Citation not found") ;;
  findings ← lift (try_map validated (analyze_citations (omap (fun c => c) citations)));
  create project_id citation_ids findings.
End operations.
End rules.
