(* ===== verification/AnalysisSpec.v ===== *)
(** * Requirement analysis: properties

    Every finding of an analysis rests on the citations it was asked about,
    whatever their order; a run is stored with its findings and reads back as
    it was returned; and because a finding is named after its rule and its
    citations alone, no analysis that found something can be repeated.

    ** Stored analyses

    A stored run reads back for as long as the runs of others name their own
    findings. *)
From stdpp Require Import sorting.
From S2P Require Import Prelude PyText Json JsonFacts Digest AsciiRuntime TextFolding Ordering GeneratedTests.
From S2P Require Import GeneratedTestsFacts Effects Database DatabaseFacts JobTables DocumentTables Indexing.
From S2P Require Import IndexingStore IndexingStoreSpec Sessions Retrieval Fusion RetrievalSpec Citations.
From S2P Require Import Findings RequirementsAnalysis Samples.

Section findings.
Context {rt : PyRuntime} {tf : TextFolding}.

(** ** What the rules find *)

(** A supported finding whose evidence is of the given citations. *)
Record rests_on (ids : list uuid) (f : RequirementFindingV1) : Prop := {
  ro_supported : unsupported f = false;
  ro_some : evidence f <> [];
  ro_cited : forall e, e ∈ evidence f -> citation_id e ∈ ids;
  ro_named : exists rule, finding_id f = supported_finding_id rule (evidence f);
}.

Lemma cited_fact_rests rule c s o t a r ids : cite_id c ∈ ids ->
  rests_on ids (supported_finding rule s o (cite_fact c t) a r).
Proof. intros Hc. split; cbn; try done; [by intros e ->%list_elem_of_singleton|by eexists]. Qed.

Lemma citation_findings_rest c f ids : cite_id c ∈ ids -> f ∈ citation_findings c -> rests_on ids f.
Proof.
  intros Hc. unfold citation_findings. rewrite !elem_of_app.
  intros [H|[H|[H|[H|H]]]];
    [|apply list_elem_of_fmap in H as (term & -> & _)| | |apply list_elem_of_fmap in H as (term & -> & _)];
    try (destruct (_ && _); [apply list_elem_of_singleton in H as ->|by apply not_elem_of_nil in H]);
    exact (cited_fact_rests _ c _ _ _ _ _ ids Hc).
Qed.

Lemma contradictions_rest l f : f ∈ contradictions l -> rests_on (cite_id <$> l) f.
Proof.
  induction l as [|c l IH]; cbn; [by intros ?%not_elem_of_nil|]. rewrite elem_of_app. intros [H|H].
  - destruct (must_statement c) as [s|]; [|by apply not_elem_of_nil in H].
    apply list_elem_of_omap in H as (c' & Hc' & H). apply bind_Some in H as (s' & _ & H).
    destruct (contradicts s s'); [|done]. injection H as <-. split; cbn; try done; [|by eexists].
    intros e [->| ->%list_elem_of_singleton]%elem_of_cons; cbn; [left|right]. by apply list_elem_of_fmap_2.
  - destruct (IH H) as [Hu Hs Hc Hn]. split; try done. intros e He. right. by apply Hc.
Qed.

Lemma analyze_rests cs f : f ∈ analyze_citations cs -> rests_on (cite_id <$> cs) f.
Proof.
  unfold analyze_citations. assert (ordered_citations cs ≡ₚ cs) as Hp by apply stable_sort_Permutation.
  rewrite elem_of_app. intros [(c & Hf & Hc)%list_elem_of_bind|H].
  - eapply citation_findings_rest; [|exact Hf]. rewrite <- Hp. by apply list_elem_of_fmap_2.
  - destruct (contradictions_rest _ _ H) as [Hu Hs Hcit Hn]. split; try done. intros e He. rewrite <- Hp. by apply Hcit.
Qed.

(** The findings do not depend on the order of the citations. *)
Lemma analyze_permutation cs cs' : Forall (fun c => (cite_id c < 2 ^ 128)%N) cs -> NoDup (cite_id <$> cs) ->
  cs ≡ₚ cs' -> analyze_citations cs = analyze_citations cs'.
Proof.
  intros Hb Hnd Hp. unfold analyze_citations. rewrite Forall_forall in Hb.
  assert (ordered_citations cs = ordered_citations cs') as ->; [|done].
  apply stable_sort_keys_unique; [|done]. intros x y Hx Hy E.
  apply (f_equal (fun l => default [] (head l))) in E. cbn in E. apply uuid_str_inj in E; [|by apply Hb..].
  by apply (nodup_key cite_id cs).
Qed.

(** ** What validating a finding keeps *)

Definition same_evidence (e e' : FindingEvidence) : Prop :=
  citation_id e' = citation_id e /\ observed_fact e' = strip (observed_fact e).

Lemma finding_uuid_str n label x : uuid_ok n = true -> finding_uuid (JStr (uuid_str n)) label = Ok x -> x = n.
Proof. intros Hn. rewrite finding_uuid_complete by done. by intros [= ->]. Qed.

Lemma finding_text_str s label x : finding_text (JStr s) label = Ok x -> x = strip s.
Proof. unfold finding_text, invalid_if. intros H. ok_inv. done. Qed.

Lemma evidence_item_payload e e' : uuid_ok (citation_id e) = true ->
  evidence_item (evidence_payload e) = Ok e' -> same_evidence e e'.
Proof.
  intros He. unfold evidence_item, evidence_payload. rewrite bind_ok.
  rewrite !(field_eq "citation_id" _ (JStr (uuid_str (citation_id e)))),
    (field_eq "observed_fact" _ (JStr (observed_fact e))) by done.
  rewrite !bind_ok. intros H. ok_inv. split; cbn; [by eapply finding_uuid_str|by eapply finding_text_str].
Qed.

Lemma to_evidence_payload l l' : forallb (fun e => uuid_ok (citation_id e)) l = true ->
  to_evidence (JList (evidence_payload <$> l)) = Ok l' -> Forall2 same_evidence l l'.
Proof.
  intros Hl. unfold to_evidence. rewrite bind_ok. intros H. apply bind_Ok in H as (r & Hr%try_map_Ok & H).
  apply bind_Ok in H as (_ & _ & [= <-]). apply Forall2_fmap_l in Hr.
  revert Hl. induction Hr as [|e e' l l1 He _ IH]; cbn; [by constructor|]. intros Hl. bools.
  constructor; [by apply evidence_item_payload|by apply IH].
Qed.

(** The identifier, the kind and the cited evidence are those of the finding;
    the texts are stripped. *)
Lemma validate_payload f f' : uuid_ok (finding_id f) = true ->
  forallb (fun e => uuid_ok (citation_id e)) (evidence f) = true ->
  validate_requirement_finding (finding_payload f) = Ok f' ->
  finding_id f' = finding_id f /\ Forall2 same_evidence (evidence f) (evidence f') /\
  unsupported f' = unsupported f.
Proof.
  intros Hid Hev. unfold validate_requirement_finding.
  rewrite !(field_eq "schema_version" _ (JStr REQUIREMENT_FINDING_SCHEMA_VERSION)),
    (field_eq "id" _ (JStr (uuid_str (finding_id f)))),
    (field_eq "category" _ (JStr (value (category f)))), (field_eq "severity" _ (JStr (value (severity f)))),
    (field_eq "evidence" _ (JList (evidence_payload <$> evidence f))), (field_eq "analysis" _ (JStr (analysis f))),
    (field_eq "confidence" _ (JFloat (confidence f))), (field_eq "recommendation" _ (JStr (recommendation f))),
    (field_eq "unsupported" _ (JBool (unsupported f))),
    (field_eq "unsupported_reason" _ (opt_json JStr (unsupported_reason f))) by done.
  rewrite !bind_ok. intros H. ok_inv. cbn.
  split; [by eapply finding_uuid_str|]. split; [by apply to_evidence_payload|].
  match goal with E : finding_bool _ _ = Ok _ |- _ => by injection E end.
Qed.
End findings.

(** ** What a run leaves *)

(** [c] is what the citation [id] of the project shows in [d]. *)
Definition shown (p : uuid) (d : doc_db) (id : uuid) (c : Citation) : Prop :=
  cite_id c = id /\ cite_project_id c = p /\
  exists i row, citation_rows d !! i = Some row /\ ct_id row = id /\ citation_view d row = Some c.

Lemma shown_grows p d d' id c : grows d d' -> shown p d id c -> shown p d' id c.
Proof.
  intros G (Hi & Hp & i & row & Hr & Hid & Hv). split; [done|]. split; [done|]. exists i, row.
  split; [by eapply lookup_weaken, gr_citations|]. split; [done|]. by eapply citation_view_grows.
Qed.

(** A citation shows one thing, and goes on to show it. *)
Lemma shown_unique p d id c c' : keyed ct_id (citation_rows d) -> shown p d id c -> shown p d id c' -> c = c'.
Proof.
  intros Hk (_ & _ & i & row & Hr & Hid & Hv) (_ & _ & j & row' & Hr' & Hid' & Hv').
  pose proof (Hk _ _ Hr) as E. pose proof (Hk _ _ Hr') as E'. assert (i = j) as <- by congruence. congruence.
Qed.

(** The rows of a run and its findings. *)
Definition stored (d : doc_db) (run : RequirementAnalysisRun) : Prop :=
  run_rows d !! run_id run =
    Some (run_row (run_id run) (run_project_id run) (run_citation_ids run) (run_created_at run)) /\
  forall f, f ∈ run_findings run -> finding_rows d !! finding_id f =
    Some (finding_row (run_project_id run) (run_id run) (run_created_at run) f).

Lemma flush_findings rows : forall d d', flush (insert_finding <$> rows) d = Ok d' ->
  NoDup (rf_id <$> rows) /\ run_rows d' = run_rows d /\ citation_rows d' = citation_rows d /\
  (forall r, r ∈ rows -> finding_rows d !! rf_id r = None /\ finding_rows d' !! rf_id r = Some r) /\
  (forall i, i ∉ rf_id <$> rows -> finding_rows d' !! i = finding_rows d !! i).
Proof.
  induction rows as [|r rows IH]; intros d d' H; cbn in H; [ok_inv; split; [constructor|]; split_and!; try done; by intros r ?%not_elem_of_nil|].
  apply bind_Ok in H as (d1 & H1 & H). unfold insert_finding in H1. ok_inv. bools.
  apply IH in H as (Hnd & Hr & Hc & Hin & Hout). cbn in Hin, Hout, Hr, Hc.
  assert (finding_rows d !! rf_id r = None) as Hnone by (by destruct (finding_rows d !! rf_id r)).
  assert (rf_id r ∉ rf_id <$> rows) as Hnew.
  { intros (s & Hs & Hsr)%list_elem_of_fmap. apply Hin in Hsr as [Hsr _]. by rewrite <- Hs, lookup_insert_eq in Hsr. }
  split; [by apply NoDup_cons|]. split; [done|]. split; [done|]. split.
  - intros s [->|Hs]%elem_of_cons; [split; [done|]; by rewrite Hout, lookup_insert_eq|].
    destruct (Hin s Hs) as [Hsn Hsd]. split; [|done]. apply lookup_insert_None in Hsn. by destruct Hsn.
  - intros i Hi. rewrite fmap_cons, not_elem_of_cons in Hi. destruct Hi as [Hne Hi]. by rewrite Hout, lookup_insert_ne.
Qed.

Section service.
Context {rt : PyRuntime} {tf : TextFolding} {E : Type} (o : outside).
Hypothesis others_grow : forall n d, grows d (others_at o n d).

Abbreviation calm_step w w' := (only_others o (tables w) (tables w')).

Lemma get_for_project_run p cid (w : world E) :
  exists n, tables (get_for_project o p cid w).2 = others_at o n (tables w) /\
  match (get_for_project o p cid w).1 with
  | Ok (Some c) => shown p (others_at o n (tables w)) cid c
  | Ok None => True
  | Raise e => exn_cls e = CitationUnavailable
  end.
Proof.
  unfold get_for_project, citations_unavailable, io_try. rewrite io_bind_eq.
  destruct (observes_run o (citation_statement (fun c => (ct_id c =? cid)%N && (ct_project_id c =? p)%N)) w)
    as (n & Ht & Hr). exists n. destruct (observes o _ w) as [[rows|e] w1]; cbn in Ht, Hr; cbn [fst snd].
  - subst rows. unfold lift. destruct (one_or_none _) as [[c|]|e] eqn:Ho; cbn; [|done|].
    + split; [done|]. unfold one_or_none in Ho. unfold citation_statement in Ho.
      destruct (omap _ _) as [|c' [|]] eqn:Hl; try done. injection Ho as ->.
      assert (c ∈ omap (citation_view (others_at o n (tables w)))
        (select (fun c => (ct_id c =? cid)%N && (ct_project_id c =? p)%N) (citation_rows (others_at o n (tables w))))) as Hin
        by (rewrite Hl; left).
      apply list_elem_of_omap in Hin as (row & [Hp (i & Hi)]%elem_of_select & Hv). bools.
      pose proof Hv as (chunk & version & document & l & _ & _ & _ & _ & _ & _ & _ & ->)%citation_view_Some.
      split; [done|]. split; [done|]. by exists i, row.
    + unfold one_or_none in Ho. destruct (citation_statement _ _) as [|? [|]]; try done. by injection Ho as <-.
  - rewrite Hr. cbn. done.
Qed.

Lemma read_citations_run p ids : forall (w : world E),
  grows (tables w) (tables (read_citations o p ids w).2) /\
  only_others o (tables w) (tables (read_citations o p ids w).2) /\
  match (read_citations o p ids w).1 with
  | Ok l => Forall2 (fun i oc => match oc with
              | Some c => shown p (tables (read_citations o p ids w).2) i c
              | None => True
              end) ids l
  | Raise e => exn_cls e = CitationUnavailable
  end.
Proof using others_grow.
  induction ids as [|i ids IH]; intros w; cbn; [split; [reflexivity|]; split; [reflexivity|constructor]|].
  rewrite io_bind_eq. destruct (get_for_project_run p i w) as (n & Ht & Hr).
  destruct (get_for_project o p i w) as [[c|e] w1]; cbn in Ht, Hr |- *.
  - rewrite io_bind_eq. destruct (IH w1) as (G & Ho & Hl). rewrite <- Ht in Hr.
    assert (grows (tables w) (tables w1)) as G1 by (rewrite Ht; apply others_grow).
    assert (only_others o (tables w) (tables w1)) as Ho1 by (rewrite Ht; apply rtc_once; by exists n).
    destruct (read_citations o p ids w1) as [[l|e] w2]; cbn in *;
      (split; [by etrans|]; split; [by etrans|]); [|done].
    constructor; [|done]. destruct c as [c|]; [|done]. by eapply shown_grows.
  - split; [rewrite Ht; apply others_grow|]. split; [rewrite Ht; apply rtc_once; by exists n|done].
Qed.

(** *** Storing *)

Lemma isolated_store run rows : isolated o (store_run (E := E) o run rows).
Proof. unfold store_run. isolated_step. Qed.

Lemma raising_store run rows : raising (fun c => is_SQLAlchemyError c = true) (store_run (E := E) o run rows).
Proof.
  unfold store_run. apply raising_bind; [apply raising_sql; [done|]|intros _].
  - intros d. pose proof (insert_run_raises run d). repeat raises_step; done.
  - destruct rows as [|r rows]; [intros s; apply raises_Ok|]. apply raising_sql; [done|]. intros d.
    pose proof (flush_raises _ insert_finding (r :: rows) insert_finding_raises d). apply raises_bind; [done|]. by repeat raises_step.
Qed.

(** The statements of a transaction that stored a run. *)
Lemma store_Ok run rows s x s' : store_run (E := E) o run rows s = (Ok x, s') ->
  exists n1 n2 d, insert_run run (others_at o n1 (tables s.1)) = Ok d /\
    ((rows = [] /\ tables s'.1 = d) \/ flush (insert_finding <$> rows) (others_at o n2 d) = Ok (tables s'.1)).
Proof.
  unfold store_run. intros ([] & s1 & [n1 H1]%change_saw & H)%io_bind_Ok. exists n1.
  destruct rows as [|r rows].
  - injection H as _ <-. exists 0%N, (tables s1.1). split; [done|]. by left.
  - apply change_saw in H as [n2 H2]. exists n2, (tables s1.1). split; [done|]. by right.
Qed.

Definition by_finding_id (findings : list RequirementFindingV1) : list RequirementFindingV1 :=
  stable_sort (by_text (fun f => uuid_str (finding_id f))) findings.

Lemma create_cases p ids findings (w : world E) :
  match create o p ids findings w with
  | (Ok run, w') =>
      run = {| run_id := run_id run; run_project_id := p; analyzer_version := ANALYZER_VERSION;
               run_citation_ids := ids; run_findings := by_finding_id findings; run_created_at := run_created_at run |} /\
      exists n1 n2 d,
        insert_run (run_row (run_id run) p ids (run_created_at run)) (others_at o n1 (tables w)) = Ok d /\
        ((findings = [] /\ tables w' = d) \/
         flush (insert_finding <$> (finding_row p (run_id run) (run_created_at run) <$> by_finding_id findings))
           (others_at o n2 d) = Ok (tables w'))
  | (Raise e, w') => exn_cls e = RequirementAnalysisUnavailable /\ calm_step w w'
  end.
Proof using.
  unfold create. erewrite io_step by reflexivity. erewrite io_step by reflexivity. fold (by_finding_id findings).
  rewrite io_bind_eq. set (now := clock_at o _). set (id := new_id o _).
  match goal with |- context [io_try _ _ _ ?x] => set (w1 := x) end.
  assert (tables w1 = tables w) as Ew by done. clearbody w1 now id.
  set (m := store_run o (run_row id p ids now) (finding_row p id now <$> by_finding_id findings)).
  unfold io_try. destruct (begin o m w1) as [[x|e] w2] eqn:Hb; cbn.
  - split; [done|]. apply begin_Ok in Hb as (s & (n1 & n2 & d & H1 & H2)%store_Ok & Ht). cbn in H1. rewrite Ew in H1.
    exists n1, n2, d. split; [done|]. rewrite <- Ht in H2. destruct H2 as [[Hn H2]|H2]; [left|by right].
    split; [|done]. apply fmap_nil_inv in Hn. assert (by_finding_id findings ≡ₚ findings) as Hp by apply stable_sort_Permutation.
    rewrite Hn in Hp. by apply Permutation_nil_l in Hp.
  - pose proof (raising_begin o _ m eq_refl (raising_store _ _) w1 e) as Hr. rewrite Hb in Hr. rewrite Hr by done. cbn.
    split; [done|]. apply begin_Raise in Hb; [|apply isolated_store]. by rewrite <- Ew.
Qed.

(** A run that was stored: its findings had distinct and new identifiers. *)
Lemma create_stored p ids findings (w : world E) run w' : create o p ids findings w = (Ok run, w') ->
  grows (tables w) (tables w') /\ run_project_id run = p /\ run_citation_ids run = ids /\
  run_findings run ≡ₚ findings /\ stored (tables w') run /\
  forall f, f ∈ findings -> finding_rows (tables w) !! finding_id f = None.
Proof using others_grow.
  intros H. pose proof (create_cases p ids findings w) as Hc. rewrite H in Hc. destruct Hc as (Er & n1 & n2 & d & H1 & H2).
  assert (run_findings run ≡ₚ findings) as Hp by (rewrite Er; apply stable_sort_Permutation).
  assert (grows (tables w) d) as G1 by (etrans; [apply (others_grow n1)|by eapply insert_run_grows]).
  assert (run_rows d !! run_id run = Some (run_row (run_id run) p ids (run_created_at run))) as Hrow.
  { unfold insert_run in H1. ok_inv. cbn. by rewrite lookup_insert_eq. }
  assert (run_project_id run = p) as Ep by by rewrite Er. assert (run_citation_ids run = ids) as Ei by by rewrite Er.
  destruct H2 as [[-> Ht]|H2].
  - rewrite Ht. split; [done|]. split; [done|]. split; [done|]. split; [done|].
    apply Permutation_nil_r in Hp. split; [split; [by rewrite Ep, Ei|]|]; [rewrite Hp|]; by intros f ?%not_elem_of_nil.
  - assert (grows d (others_at o n2 d)) as G2 by apply others_grow.
    assert (grows (others_at o n2 d) (tables w')) as G3 by (eapply flush_all_grows; [apply insert_finding_grows|exact H2]).
    apply flush_findings in H2 as (_ & Hrr & _ & Hin & _).
    assert (forall f, f ∈ findings -> finding_row p (run_id run) (run_created_at run) f ∈
      finding_row p (run_id run) (run_created_at run) <$> by_finding_id findings) as Hrows.
    { intros f Hf. apply list_elem_of_fmap_2. unfold by_finding_id. by rewrite stable_sort_Permutation. }
    split; [by do 2 (etrans; [done|])|]. split; [done|]. split; [done|]. split; [done|]. split; [split|].
    + rewrite Ep, Ei, Hrr. by eapply lookup_weaken, gr_runs.
    + intros f Hf. rewrite Hp in Hf. rewrite Ep. by apply (Hin _ (Hrows f Hf)).
    + intros f Hf. destruct (Hin _ (Hrows f Hf)) as [Hnone _]. cbn in Hnone.
      destruct (finding_rows (tables w) !! finding_id f) as [r|] eqn:Hr; [|done].
      by rewrite (lookup_weaken _ _ _ _ (lookup_weaken _ _ _ _ Hr (gr_findings _ _ G1)) (gr_findings _ _ G2)) in Hnone.
Qed.

(** *** An analysis *)

Record analysed (p : uuid) (ids : list uuid) (d : doc_db) (run : RequirementAnalysisRun)
    (citations : list Citation) (findings : list RequirementFindingV1) : Prop := {
  an_project : run_project_id run = p;
  an_ids : run_citation_ids run = ids;
  an_shown : Forall2 (shown p d) ids citations;
  an_findings : try_map validated (analyze_citations citations) = Ok findings;
  an_run : run_findings run ≡ₚ findings;
  an_stored : stored d run;
}.

Definition analysis_error (c : exn_class) : Prop :=
  c = ValueError \/ c = RequirementFindingValidationError \/ c = RequirementAnalysisUnavailable.

Lemma validated_errors f : raises analysis_error (validated f).
Proof.
  eapply raises_weaken; [apply finding_errors|]. intros c [->|(_ & z & Hz & _)]; [right; by left|]. discriminate Hz.
Qed.

Lemma present_citations {A B} (P : B -> A -> Prop) (ids : list B) (l : list (option A)) :
  Forall2 (fun i oc => match oc with Some c => P i c | None => True end) ids l -> existsb is_null l = false ->
  Forall2 P ids (omap (fun c => c) l).
Proof.
  induction 1 as [|i oc ids l Hi _ IH]; cbn; [constructor|]. intros [Hn Hl]%orb_false_iff.
  destruct oc as [c|]; [|done]. constructor; [done|by apply IH].
Qed.

Lemma analyze_cases p ids (w : world E) :
  match analyze o p ids w with
  | (Ok run, w') => ids <> [] /\ NoDup ids /\ grows (tables w) (tables w') /\
      exists citations findings, analysed p ids (tables w') run citations findings /\
        forall f, f ∈ findings -> finding_rows (tables w) !! finding_id f = None
  | (Raise e, w') => analysis_error (exn_cls e) /\ calm_step w w'
  end.
Proof using others_grow.
  unfold analyze. rewrite io_bind_eq. unfold lift at 1. destruct (bool_decide (ids = [])) eqn:Hne; [by split; [left|]|].
  apply bool_decide_eq_false in Hne. cbn [raise_if].
  rewrite io_bind_eq. unfold lift at 1. destruct (no_repeats ids) eqn:Hnd; [|by split; [left|]].
  apply bool_decide_eq_true in Hnd. cbn [negb raise_if]. rewrite io_bind_eq. unfold io_try.
  destruct (read_citations_run p ids w) as (G & Ho & Hl).
  destruct (read_citations o p ids w) as [[l|e] w1]; cbn in G, Ho, Hl |- *.
  2:{ rewrite Hl. cbn. split; [by do 2 right|done]. }
  rewrite io_bind_eq. unfold lift at 1. destruct (existsb is_null l) eqn:Hn; [by split; [left|]|]. cbn [raise_if].
  rewrite io_bind_eq. unfold lift at 1.
  pose proof (present_citations _ _ _ Hl Hn) as Hs. set (citations := omap (fun c => c) l) in *.
  pose proof (raises_try_map (P := analysis_error) validated (analyze_citations citations) (fun f _ => validated_errors f)) as Hre.
  destruct (try_map validated (analyze_citations citations)) as [findings|e] eqn:Hf; [|split; [by apply Hre|done]].
  destruct (create o p ids findings w1) as [[run|e] w2] eqn:Hc.
  - apply create_stored in Hc as (G2 & Hp & Hi & Hperm & Hst & Hnew). split; [done|]. split; [done|]. split; [by etrans|].
    exists citations, findings. split.
    + split; try done. eapply Forall2_impl; [exact Hs|]. intros i c Hc. by eapply shown_grows.
    + intros f Hff. destruct (finding_rows (tables w) !! finding_id f) as [r|] eqn:Hr; [|done].
      pose proof (lookup_weaken _ _ _ _ Hr (gr_findings _ _ G)) as H. rewrite Hnew in H by done. discriminate H.
  - pose proof (create_cases p ids findings w1) as Hcc. rewrite Hc in Hcc. destruct Hcc as [He Hcalm].
    split; [by do 2 right|by etrans].
Qed.

Lemma shown_ids p d ids citations : Forall2 (shown p d) ids citations -> cite_id <$> citations = ids.
Proof using. induction 1 as [|i c ids cs (Hi & _) _ IH]; cbn; [done|]. by rewrite Hi, IH. Qed.

Lemma validated_eq f : validated f = validate_requirement_finding (finding_payload f).
Proof using. reflexivity. Qed.

Lemma uuid_ok_lt n : (n < 2 ^ 128)%N -> uuid_ok n = true.
Proof using. apply N.ltb_lt. Qed.

Lemma supported_id_ok rule l : uuid_ok (supported_finding_id rule l) = true.
Proof using. unfold supported_finding_id. apply uuid_ok_lt, uuid5_bound. Qed.

Lemma rests_ok ids f : Forall (fun i => (i < 2 ^ 128)%N) ids -> rests_on ids f ->
  uuid_ok (finding_id f) = true /\ forallb (fun e => uuid_ok (citation_id e)) (evidence f) = true.
Proof using.
  intros Hb [_ _ Hc (rule & ->)]. rewrite Forall_forall in Hb. split; [apply supported_id_ok|].
  apply forallb_forall. intros e He%list_elem_of_In. by apply uuid_ok_lt, Hb, Hc.
Qed.

(** The findings of a run are well formed and rest on its citations. *)
Lemma analysed_findings p ids d run citations findings : Forall (fun i => (i < 2 ^ 128)%N) ids ->
  analysed p ids d run citations findings -> forall f, f ∈ findings ->
  wf_finding f = true /\ unsupported f = false /\ (forall e, e ∈ evidence f -> citation_id e ∈ ids).
Proof using.
  intros Hb [_ _ Hs Hf _ _] f Hin. apply try_map_Ok in Hf.
  destruct (Forall2_elem_r _ _ _ _ Hf Hin) as (f0 & Hf0%analyze_rests & Hv). rewrite (shown_ids _ _ _ _ Hs) in Hf0.
  destruct (rests_ok _ _ Hb Hf0) as [Hid Hev]. rewrite validated_eq in Hv.
  split; [exact (validate_finding_sound _ _ Hv)|]. destruct (validate_payload _ _ Hid Hev Hv) as (_ & He & ->).
  split; [by apply ro_supported in Hf0|]. intros e Hee. destruct (Forall2_elem_r _ _ _ _ He Hee) as (e0 & He0 & -> & _).
  by apply (ro_cited _ _ Hf0).
Qed.

(** C26: Next to sessions that only add rows, an analysis either raises one of
    its exceptions and leaves nothing of its own, or returns a run that is
    stored with its findings: they are what the rules find in the passages of
    the citations, each of which belongs to the project, every finding is
    well formed, and it rests on the citations that were asked about. *)
Theorem analyze_spec p ids (w : world E) : Forall (fun i => (i < 2 ^ 128)%N) ids ->
  match analyze o p ids w with
  | (Ok run, w') => ids <> [] /\ NoDup ids /\ grows (tables w) (tables w') /\
      (exists citations findings, analysed p ids (tables w') run citations findings) /\
      forall f, f ∈ run_findings run ->
        wf_finding f = true /\ unsupported f = false /\ (forall e, e ∈ evidence f -> citation_id e ∈ ids)
  | (Raise e, w') => analysis_error (exn_cls e) /\ calm_step w w'
  end.
Proof using others_grow.
  intros Hb. pose proof (analyze_cases p ids w) as H. destruct (analyze o p ids w) as [[run|e] w']; [|done].
  destruct H as (Hne & Hnd & G & citations & findings & Ha & _). split_and!; try done; [by exists citations, findings|].
  intros f Hf. eapply (analysed_findings p ids _ run citations findings Hb Ha). by rewrite <- (an_run _ _ _ _ _ _ Ha).
Qed.
End service.

(** ** A concrete analysis *)

(** Two citations whose passages contradict each other. *)
Definition cited_chunk (id : uuid) (text : pystr) : DocumentChunkRecord := sample_chunk id 0 text (digest_of 98).
Definition sample_citation (id chunk : uuid) : CitationRecord := {|
  ct_id := id; ct_project_id := 1; ct_trace_id := 9; ct_chunk_id := chunk; ct_version_id := 2;
  ct_location_id := 5; ct_created_at := 0 |}.
Definition cited_world (texts : list (uuid * pystr)) : world unit := {|
  tables := with_citation_rows
    (with_chunk_rows sample_tables (list_to_map ((fun kt => (kt.1, cited_chunk kt.1 kt.2)) <$> texts)))
    (list_to_map ((fun kt => (200 + kt.1, sample_citation (200 + kt.1) kt.1)%N) <$> texts));
  ticks := 0; provider := tt; embed_log := [] |}.
Definition opposed_world : world unit :=
  cited_world [(10%N, u "Members must export large reports."); (11%N, u "Members must not export large reports.")].
Definition sample_analysis : result RequirementAnalysisRun * world unit :=
  analyze sample_outside 1 [211%N; 210%N] opposed_world.

Example sample_analysis_finds :
  (fun run => merge_sort N.le ((fun f => N.of_nat (length (value (category f)))) <$> run_findings run)) <$>
    sample_analysis.1 = Ok [13; 16; 16; 17; 17; 18; 18; 27; 27]%N.
Proof. vm_compute. reflexivity. Qed.

(** Two vague terms in one passage make two findings of one name: the
    analysis cannot be stored. *)
Example two_vague_terms :
  (analyze sample_outside 1 [210%N] (cited_world [(10%N, u "A fast and reasonable search.")])).1 =
  raise RequirementAnalysisUnavailable "".
Proof. vm_compute. reflexivity. Qed.

Lemma analyze_spec_witness :
  is_ok sample_analysis.1 = true /\ Forall (fun i => (i < 2 ^ 128)%N) [211%N; 210%N] /\
  match sample_analysis with
  | (Ok run, w') => [211%N; 210%N] <> [] /\ NoDup [211%N; 210%N] /\ grows (tables opposed_world) (tables w') /\
      (exists citations findings, analysed 1 [211%N; 210%N] (tables w') run citations findings) /\
      forall f, f ∈ run_findings run ->
        wf_finding f = true /\ unsupported f = false /\ (forall e, e ∈ evidence f -> citation_id e ∈ [211%N; 210%N])
  | (Raise e, w') => analysis_error (exn_cls e) /\ only_others sample_outside (tables opposed_world) (tables w')
  end.
Proof.
  assert (Forall (fun i => (i < 2 ^ 128)%N) [211%N; 210%N]) as Hb by by repeat constructor.
  split; [vm_compute; reflexivity|]. split; [exact Hb|]. unfold sample_analysis.
  apply (analyze_spec sample_outside (fun n d => reflexivity d) 1 [211%N; 210%N] opposed_world Hb).
Defined.

(** * Stored analyses *)

(** ** The tables of runs *)

(** Rows are stored under their keys, and every finding is of a stored run. *)
Record wf_runs (d : doc_db) : Prop := {
  wr_runs : keyed ra_id (run_rows d);
  wr_findings : keyed rf_id (finding_rows d);
  wr_run : forall i r, finding_rows d !! i = Some r -> is_Some (run_rows d !! rf_run_id r);
}.

(** The changes that add no finding to a run that was already stored. *)
Definition settles (d d' : doc_db) : Prop :=
  grows d d' /\ forall i r, finding_rows d' !! i = Some r -> finding_rows d !! i = None -> run_rows d !! rf_run_id r = None.

#[export] Instance settles_preorder : PreOrder settles.
Proof.
  split.
  - intros d. split; [reflexivity|]. intros i r H1 H2. congruence.
  - intros d1 d2 d3 [G1 H1] [G2 H2]. split; [by etrans|]. intros i r Hi Hn.
    destruct (finding_rows d2 !! i) as [s|] eqn:Hs.
    + pose proof (lookup_weaken _ _ _ _ Hs (gr_findings _ _ G2)) as E. rewrite Hi in E. injection E as ->. by eapply H1.
    + pose proof (H2 _ _ Hi Hs) as E. destruct (run_rows d1 !! rf_run_id r) eqn:Hr; [|done].
      by rewrite (lookup_weaken _ _ _ _ Hr (gr_runs _ _ G1)) in E.
Qed.

(** The findings of run [rid] are exactly [rows]. *)
Definition run_holds (d : doc_db) (rid : uuid) (rows : list RequirementFindingRecord) : Prop :=
  is_Some (run_rows d !! rid) /\ forall r, (exists i, finding_rows d !! i = Some r /\ rf_run_id r = rid) <-> r ∈ rows.

Lemma run_holds_settles d d' rid rows : settles d d' -> run_holds d rid rows -> run_holds d' rid rows.
Proof.
  intros [G Hs] [[x Hr] Hrows]. split; [exists x; by eapply lookup_weaken, gr_runs|]. intros r. rewrite <- Hrows. split.
  - intros (i & Hi & Hrid). exists i. split; [|done]. destruct (finding_rows d !! i) as [s|] eqn:Hf.
    + pose proof (lookup_weaken _ _ _ _ Hf (gr_findings _ _ G)) as E. congruence.
    + pose proof (Hs _ _ Hi Hf) as E. congruence.
  - intros (i & Hi & Hrid). exists i. split; [|done]. by eapply lookup_weaken, gr_findings.
Qed.

#[export] Instance finding_id_le_total : Total finding_id_le.
Proof. intros a b. unfold finding_id_le. lia. Qed.
#[export] Instance finding_id_le_trans : Transitive finding_id_le.
Proof. intros a b c. unfold finding_id_le. lia. Qed.

(** Reading the findings of a run gives its rows in the order of their
    identifiers. *)
Lemma finding_statement_rows p rid d rows : keyed rf_id (finding_rows d) -> run_holds d rid rows ->
  Forall (fun r => rf_project_id r = p) rows -> NoDup (rf_id <$> rows) -> StronglySorted finding_id_le rows ->
  finding_statement p rid d = rows.
Proof.
  intros Hk [_ Hrows] Hp Hnd Hs. rewrite Forall_forall in Hp. unfold finding_statement.
  assert (select (fun r => (rf_run_id r =? rid)%N && (rf_project_id r =? p)%N) (finding_rows d) ≡ₚ rows) as Hsel.
  { apply NoDup_Permutation; [by eapply select_nodup|by eapply NoDup_fmap_1|]. intros r. rewrite elem_of_select. split.
    - intros [Hb (i & Hi)]. bools. apply Hrows. by exists i.
    - intros Hr. destruct (proj2 (Hrows r) Hr) as (i & Hi & E). split; [|by exists i].
      bool_goal; apply N.eqb_eq; [done|by apply Hp]. }
  apply (StronglySorted_unique_strong finding_id_le).
  - intros x y Hx Hy Hxy Hyx. rewrite merge_sort_Permutation, Hsel in Hx. unfold finding_id_le in Hxy, Hyx.
    apply (nodup_key rf_id rows); [done..|]. lia.
  - by apply StronglySorted_merge_sort; apply _.
  - done.
  - by rewrite merge_sort_Permutation.
Qed.

Section stored.
Context {rt : PyRuntime} {tf : TextFolding} {E : Type} (o : outside).
Hypothesis others_settle : forall n d, settles d (others_at o n d).
Hypothesis others_wf : forall n d, wf_runs d -> wf_runs (others_at o n d).

Lemma others_settled d d' : only_others o d d' -> wf_runs d -> settles d d' /\ wf_runs d'.
Proof using others_settle others_wf.
  induction 1 as [d|d d1 d2 (n & ->) _ IH]; intros Hd; [by split|].
  destruct (IH (others_wf n d Hd)) as [Hs Hw]. split; [|done]. etrans; [apply others_settle|done].
Qed.

Lemma insert_run_wf r d d' : insert_run r d = Ok d' -> wf_runs d ->
  wf_runs d' /\ finding_rows d' = finding_rows d /\ run_rows d !! ra_id r = None /\ is_Some (run_rows d' !! ra_id r).
Proof using.
  unfold insert_run. intros H [Hr Hf Hx]. ok_inv. bools. cbn.
  assert (run_rows d !! ra_id r = None) as Hn by (by destruct (run_rows d !! ra_id r)).
  split; [split; cbn; [by apply keyed_insert|done|]|].
  - intros i s Hi. apply Hx in Hi. destruct (decide (ra_id r = rf_run_id s)) as [<-|Hne];
      [rewrite lookup_insert_eq; by eexists|by rewrite lookup_insert_ne].
  - split; [done|]. split; [done|]. rewrite lookup_insert_eq. by eexists.
Qed.

Lemma insert_finding_wf r d d' : insert_finding r d = Ok d' -> wf_runs d -> wf_runs d'.
Proof using.
  unfold insert_finding. intros H [Hr Hf Hx]. ok_inv. bools. split; cbn; [done|by apply keyed_insert|].
  intros i s [[_ <-]|[_ Hi]]%lookup_insert_Some; [|by eapply Hx]. destruct (run_rows d !! rf_run_id r); [by eexists|done].
Qed.

Lemma flush_findings_wf rows : forall d d', flush (insert_finding <$> rows) d = Ok d' -> wf_runs d -> wf_runs d'.
Proof using.
  induction rows as [|r rows IH]; intros d d' H Hd; cbn in H; [by injection H as <-|].
  apply bind_Ok in H as (d1 & H1 & H). eapply IH; [done|]. by eapply insert_finding_wf.
Qed.

(** Storing the findings of a run that was not there before. *)
Lemma flush_holds rid d0 d rows d' : wf_runs d0 -> settles d0 d -> flush (insert_finding <$> rows) d = Ok d' ->
  run_rows d0 !! rid = None -> (forall r, r ∈ rows -> rf_run_id r = rid) -> is_Some (run_rows d !! rid) ->
  (forall i r, finding_rows d !! i = Some r -> rf_run_id r <> rid) ->
  settles d0 d' /\ run_holds d' rid rows.
Proof using.
  intros Hw [G Hs] Hf Hn Hrows Hrun Hno. pose proof (flush_all_grows _ _ _ _ insert_finding_grows Hf) as G'.
  apply flush_findings in Hf as (_ & Hr & _ & Hin & Hout).
  assert (forall i r, finding_rows d' !! i = Some r -> r ∈ rows \/ finding_rows d !! i = Some r) as Hcases.
  { intros i r Hi. destruct (decide (i ∈ rf_id <$> rows)) as [(s & -> & Hsr)%list_elem_of_fmap|Hni].
    - left. pose proof (Hin s Hsr) as [_ Es]. congruence.
    - right. by rewrite <- (Hout i Hni). }
  split; [split; [by etrans|]|split; [by rewrite Hr|]].
  - intros i r Hi Hni. destruct (Hcases i r Hi) as [Hin'|Hd]; [by rewrite (Hrows _ Hin')|by eapply Hs].
  - intros r. split.
    + intros (i & Hi & Hrid). destruct (Hcases i r Hi) as [Hin'|Hd]; [done|]. by apply Hno in Hd.
    + intros Hin'. exists (rf_id r). split; [by apply Hin|by apply Hrows].
Qed.

Lemma create_holds p ids findings (w : world E) run w' : create o p ids findings w = (Ok run, w') -> wf_runs (tables w) ->
  settles (tables w) (tables w') /\ wf_runs (tables w') /\
  run_holds (tables w') (run_id run) (finding_row p (run_id run) (run_created_at run) <$> run_findings run) /\
  NoDup (finding_id <$> run_findings run).
Proof using others_settle others_wf.
  intros H Hw. pose proof (create_cases o p ids findings w) as Hc. rewrite H in Hc. destruct Hc as (Er & n1 & n2 & d & H1 & H2).
  assert (run_findings run = by_finding_id findings) as Ef by by rewrite Er. rewrite Ef. clear Er Ef H.
  set (rid := run_id run) in *. clearbody rid.
  set (d0 := others_at o n1 (tables w)) in *. assert (settles (tables w) d0) as S0 by apply others_settle.
  assert (wf_runs d0) as W0 by by apply others_wf. clearbody d0.
  pose proof (insert_run_grows _ _ _ H1) as G1. apply insert_run_wf in H1 as (W1 & Ef & Hn & Hs); [|done]. cbn in Hn, Hs.
  assert (settles d0 d) as S1. { split; [done|]. intros i r. rewrite Ef. congruence. }
  assert (forall i r, finding_rows d !! i = Some r -> rf_run_id r <> rid) as Hno.
  { intros i r. rewrite Ef. intros Hi Ei. apply (wr_run _ W0) in Hi. rewrite Ei, Hn in Hi. by destruct Hi. }
  destruct H2 as [[-> ->]|H2].
  - split; [by etrans|]. split; [done|]. split; [|constructor]. split; [done|]. intros r. split; [|by intros ?%not_elem_of_nil].
    intros (i & Hi & Hrid). by apply Hno in Hi.
  - set (d2 := others_at o n2 d) in *. assert (settles d d2) as S2 by apply others_settle.
    assert (wf_runs d2) as W2 by by apply others_wf. clearbody d2.
    destruct (flush_holds rid d0 d2 _ _ W0 ltac:(by etrans) H2 Hn) as [S3 Hh].
    + by intros r (f & -> & _)%list_elem_of_fmap.
    + destruct Hs as [x Hx]. exists x. eapply lookup_weaken; [done|]. apply gr_runs, S2.
    + intros i r Hi Ei. destruct (finding_rows d !! i) as [s|] eqn:Hd.
      * pose proof (lookup_weaken _ _ _ _ Hd (gr_findings _ _ (proj1 S2))) as E2. apply Hno in Hd. congruence.
      * pose proof (proj2 S2 _ _ Hi Hd) as E2. rewrite Ei in E2. rewrite E2 in Hs. by destruct Hs.
    + split; [by etrans|]. split; [by eapply flush_findings_wf|]. split; [done|].
      apply flush_findings in H2 as [Hnd _]. by rewrite <- list_fmap_compose in Hnd.
Qed.

Lemma validated_wf l findings : try_map validated l = Ok findings -> forall f, f ∈ findings -> wf_finding f = true.
Proof using.
  intros Hf%try_map_Ok f Hin. destruct (Forall2_elem_r _ _ _ _ Hf Hin) as (f0 & _ & Hv).
  rewrite validated_eq in Hv. by eapply validate_finding_sound.
Qed.

(** What an analysis that returns read and stored. *)
Lemma analyze_created p ids (w : world E) run w' : analyze o p ids w = (Ok run, w') ->
  exists citations findings w1, only_others o (tables w) (tables w1) /\ NoDup ids /\
    Forall2 (shown p (tables w1)) ids citations /\ try_map validated (analyze_citations citations) = Ok findings /\
    create o p ids findings w1 = (Ok run, w').
Proof using others_settle.
  unfold analyze. intros H.
  apply io_bind_Ok in H as (a & s1 & [_ ->]%lift_Ok & H). apply io_bind_Ok in H as (b & s2 & [Hnd ->]%lift_Ok & H).
  apply io_bind_Ok in H as (l & w1 & Hr & H). apply io_bind_Ok in H as (c & s3 & [Hn ->]%lift_Ok & H).
  apply io_bind_Ok in H as (findings & s4 & [Hf ->]%lift_Ok & H). apply raise_if_Ok in Hnd, Hn.
  exists (omap (fun c => c) l), findings, w1.
  pose proof (read_citations_run (E := E) o (fun n d => proj1 (others_settle n d)) p ids w) as (_ & Ho & Hs).
  unfold io_try in Hr. destruct (read_citations o p ids w) as [[l'|e] w1']; [|by destruct (bool_decide _)].
  injection Hr as -> ->. split; [done|]. split; [by bools|]. split; [by apply present_citations|done].
Qed.

(** An analysis is itself such a session. *)
Theorem analyze_settles p ids (w : world E) : wf_runs (tables w) ->
  settles (tables w) (tables (analyze o p ids w).2) /\ wf_runs (tables (analyze o p ids w).2).
Proof using others_settle others_wf.
  intros Hw. destruct (analyze o p ids w) as [[run|e] w'] eqn:H; cbn [snd].
  - apply analyze_created in H as (citations & findings & w1 & Ho & _ & _ & _ & Hc). apply others_settled in Ho as [S1 W1]; [|done].
    apply create_holds in Hc as (S2 & W2 & _); [|done]. split; [by etrans|done].
  - pose proof (analyze_cases (E := E) o (fun n d => proj1 (others_settle n d)) p ids w) as Hc. rewrite H in Hc.
    destruct Hc as [_ Hc]. by apply others_settled.
Qed.
End stored.

(** ** Reading a run back *)

Section read_back.
Context {rt : PyRuntime}.

Lemma by_finding_id_rows p rid now findings : (forall f, f ∈ findings -> uuid_ok (finding_id f) = true) ->
  StronglySorted finding_id_le (finding_row p rid now <$> by_finding_id findings).
Proof.
  intros Hb. assert (StronglySorted (by_text (fun f => uuid_str (finding_id f))) (by_finding_id findings)) as Hs
    by apply (stable_sort_sorted (by_text (fun f => uuid_str (finding_id f)))).
  assert (forall f, f ∈ by_finding_id findings -> uuid_ok (finding_id f) = true) as Hb'
    by (intros f; unfold by_finding_id; rewrite stable_sort_Permutation; apply Hb).
  revert Hs Hb'. generalize (by_finding_id findings). intros sorted_findings Hs Hb'. clear Hb.
  induction Hs as [|f l _ IH Hf]; [constructor|]. rewrite fmap_cons. constructor.
  - apply IH. intros g Hg. apply Hb'. by right.
  - apply Forall_fmap. rewrite Forall_forall in Hf |- *. intros g Hg. specialize (Hf g Hg).
    pose proof (Hb' f ltac:(left)) as B1%N.ltb_lt. pose proof (Hb' g ltac:(by right)) as B2%N.ltb_lt.
    unfold by_texts in Hf. cbn [texts_leb] in Hf. unfold finding_id_le. cbn.
    destruct (str_eqb (uuid_str (finding_id f)) _) eqn:Ee; [apply str_eqb_eq, uuid_str_inj in Ee; [by rewrite Ee|done..]|].
    rewrite uuid_str_leb in Hf by done. by apply N.leb_le.
Qed.

Lemma run_of_stored p run : run_project_id run = p -> analyzer_version run = ANALYZER_VERSION ->
  Forall (fun i => (i < 2 ^ 128)%N) (run_citation_ids run) -> (forall f, f ∈ run_findings run -> wf_finding f = true) ->
  run_of_rows (run_row (run_id run) p (run_citation_ids run) (run_created_at run))
    (finding_row p (run_id run) (run_created_at run) <$> run_findings run) = Ok run.
Proof.
  intros <- Hv Hids Hf. unfold run_of_rows. cbn [run_row ra_citation_ids ra_id ra_project_id ra_analyzer_version ra_created_at].
  rewrite Forall_forall in Hids. rewrite (try_map_id _ uuid_str), bind_ok.
  2:{ intros i Hi. by rewrite uuid_parse_str by by apply Hids. }
  rewrite try_map_id, bind_ok, <- Hv; [by destruct run|].
  intros f Hin. exact (validate_finding_complete f (Hf f Hin)).
Qed.

Context {tf : TextFolding} {E : Type} (o o' : outside).
Hypothesis others_settle : forall n d, settles d (others_at o n d).
Hypothesis others_wf : forall n d, wf_runs d -> wf_runs (others_at o n d).
Hypothesis readers_settle : forall n d, settles d (others_at o' n d).
Hypothesis readers_wf : forall n d, wf_runs d -> wf_runs (others_at o' n d).
Hypothesis healthy : forall n, fails o' n = false.

Definition projected (project : uuid) (run : RequirementAnalysisRun) : option RequirementAnalysisRun :=
  if (run_project_id run =? project)%N then Some run else None.

Lemma get_run_holds project p run (w : world E) : wf_runs (tables w) -> run_project_id run = p ->
  analyzer_version run = ANALYZER_VERSION -> Forall (fun i => (i < 2 ^ 128)%N) (run_citation_ids run) ->
  (forall f, f ∈ run_findings run -> wf_finding f = true) ->
  run_rows (tables w) !! run_id run = Some (run_row (run_id run) p (run_citation_ids run) (run_created_at run)) ->
  run_holds (tables w) (run_id run) (finding_row p (run_id run) (run_created_at run) <$> run_findings run) ->
  NoDup (finding_id <$> run_findings run) ->
  StronglySorted finding_id_le (finding_row p (run_id run) (run_created_at run) <$> run_findings run) ->
  (get_run o' project (run_id run) w).1 = Ok (projected project run).
Proof using readers_settle readers_wf healthy.
  intros Hw Hp Hv Hids Hf Hrow Hh Hnd Hs. unfold get_run, io_try. rewrite io_bind_eq.
  destruct (observes_healthy o' (run_statement project (run_id run)) w healthy) as (n1 & w1 & -> & Ht).
  destruct (readers_settle n1 (tables w)) as [G1 S1].
  assert (run_statement project (run_id run) (others_at o' n1 (tables w)) =
    if (p =? project)%N then Some (run_row (run_id run) p (run_citation_ids run) (run_created_at run)) else None) as ->.
  { unfold run_statement. by rewrite (lookup_weaken _ _ _ _ Hrow (gr_runs _ _ G1)). }
  unfold projected. rewrite Hp. destruct (N.eqb_spec p project) as [<-|_]; [|done].
  rewrite io_bind_eq. cbn [run_row ra_id].
  destruct (observes_healthy o' (finding_statement p (run_id run)) w1 healthy) as (n2 & w2 & -> & _).
  rewrite Ht. set (d := others_at o' n2 (others_at o' n1 (tables w))).
  assert (wf_runs d) as Hd by by do 2 apply readers_wf.
  rewrite (finding_statement_rows p (run_id run) d (finding_row p (run_id run) (run_created_at run) <$> run_findings run)).
  2: apply Hd.
  2: eapply run_holds_settles; [apply readers_settle|]; eapply run_holds_settles; [apply readers_settle|exact Hh].
  2: by apply Forall_fmap, Forall_forall.
  2: by rewrite <- list_fmap_compose.
  2: exact Hs.
  erewrite io_step by (apply lift_run; by apply run_of_stored). done.
Qed.

(** C27: A stored analysis reads back: next to sessions that store runs of
    their own and whose rows stay keyed, asking later for the run that an
    analysis returned gives that run, with all its findings in their order, in
    its project, and nothing in any other project, when no statement of that
    later read fails. *)
Theorem analysis_reads_back p ids project (w : world E) run w' (v : world E) :
  Forall (fun i => (i < 2 ^ 128)%N) ids -> wf_runs (tables w) -> analyze o p ids w = (Ok run, w') ->
  settles (tables w') (tables v) -> wf_runs (tables v) ->
  (get_run o' project (run_id run) v).1 = Ok (projected project run).
Proof using others_settle others_wf readers_settle readers_wf healthy.
  intros Hids Hw H Hsv Hv. pose proof H as (citations & findings & w1 & Ho & _ & _ & Hf & Hc)%(analyze_created o others_settle).
  pose proof (validated_wf _ _ Hf) as Hwf.
  apply (others_settled o others_settle others_wf) in Ho as [_ W1]; [|done]. clear H.
  pose proof (create_cases o p ids findings w1) as Hcc. rewrite Hc in Hcc. destruct Hcc as (Er & _).
  pose proof (create_stored o (fun n d => proj1 (others_settle n d)) p ids findings w1 run w' Hc) as (_ & Ep & Ei & Hperm & [Hrow _] & _).
  pose proof (create_holds o others_settle others_wf _ _ _ _ _ _ Hc W1) as (_ & _ & Hh & Hnd). rewrite Ep, Ei in Hrow.
  assert (forall f, f ∈ run_findings run -> wf_finding f = true) as Hfr by (intros f; rewrite Hperm; apply Hwf).
  apply (get_run_holds project p); try done.
  - by rewrite Er.
  - by rewrite Ei.
  - rewrite Ei. eapply lookup_weaken; [exact Hrow|]. apply gr_runs, Hsv.
  - by eapply run_holds_settles.
  - rewrite Er. apply by_finding_id_rows. intros f Hin. apply Hwf in Hin. unfold wf_finding in Hin. by bools.
Qed.
End read_back.

(** ** Repeating an analysis *)

Lemma shown_permutation p d ids ids' cs cs' : keyed ct_id (citation_rows d) -> NoDup ids -> ids ≡ₚ ids' ->
  Forall2 (shown p d) ids cs -> Forall2 (shown p d) ids' cs' -> cs ≡ₚ cs'.
Proof.
  intros Hk Hnd Hp Hs Hs'.
  assert (forall ids cs c i, Forall2 (shown p d) ids cs -> shown p d i c -> i ∈ ids -> c ∈ cs) as Hin.
  { intros ids0 cs0 c i H Hc (k & Hi)%list_elem_of_lookup. destruct (Forall2_lookup_l _ _ _ _ _ H Hi) as (c' & Hc' & Hs0).
    rewrite (shown_unique _ _ _ _ _ Hk Hc Hs0). by eapply list_elem_of_lookup_2. }
  assert (forall ids cs c, Forall2 (shown p d) ids cs -> c ∈ cs -> exists i, i ∈ ids /\ shown p d i c) as Hof
    by (intros ids0 cs0 c H Hc; exact (Forall2_elem_r _ _ _ _ H Hc)).
  apply NoDup_Permutation.
  - apply (NoDup_fmap_1 cite_id). by rewrite (shown_ids _ _ _ _ Hs).
  - apply (NoDup_fmap_1 cite_id). by rewrite (shown_ids _ _ _ _ Hs'), <- Hp.
  - intros c. split.
    + intros Hc. destruct (Hof _ _ _ Hs Hc) as (i & Hi & Hsh). rewrite Hp in Hi. by eapply Hin.
    + intros Hc. destruct (Hof _ _ _ Hs' Hc) as (i & Hi & Hsh). rewrite <- Hp in Hi. by eapply Hin.
Qed.

Section repeated.
Context {rt : PyRuntime} {tf : TextFolding} {E : Type} (o : outside).
Hypothesis others_settle : forall n d, settles d (others_at o n d).
Hypothesis others_keyed : forall n d, keyed ct_id (citation_rows d) -> keyed ct_id (citation_rows (others_at o n d)).

Lemma only_others_keyed d d' : only_others o d d' -> keyed ct_id (citation_rows d) -> keyed ct_id (citation_rows d').
Proof using others_keyed. induction 1 as [|d d1 d2 (n & ->) _ IH]; [done|]. intros Hk. by apply IH, others_keyed. Qed.

(** An analysis that found something is the only one of its citations:
    however much later and in whatever order they are asked for, analysing the
    same citations raises, because the identifiers of findings are made of
    the rule and the citations alone and are taken. *)
Theorem analysis_not_repeatable p ids ids' (w : world E) run w' (v : world E) :
  Forall (fun i => (i < 2 ^ 128)%N) ids -> analyze o p ids w = (Ok run, w') -> run_findings run <> [] ->
  grows (tables w') (tables v) -> keyed ct_id (citation_rows (tables v)) -> ids ≡ₚ ids' ->
  match analyze o p ids' v with
  | (Ok _, _) => False
  | (Raise e, v') => analysis_error (exn_cls e) /\ only_others o (tables v) (tables v')
  end.
Proof using others_settle others_keyed.
  intros Hb H Hne Gv Hkv Hp. pose proof (analyze_cases o (fun n d => proj1 (others_settle n d)) p ids' v) as Hc2.
  destruct (analyze o p ids' v) as [[run2|e] v'] eqn:H2; [|done]. clear Hc2.
  apply (analyze_created o others_settle) in H as (cs & fs & w1 & _ & Hnd & Hs & Hf & Hc).
  apply (analyze_created o others_settle) in H2 as (cs2 & fs2 & v1 & Ho & _ & Hs2 & Hf2 & Hc2).
  apply (create_stored o (fun n d => proj1 (others_settle n d))) in Hc as (G & _ & _ & Hperm & [_ Hst] & _).
  apply (create_stored o (fun n d => proj1 (others_settle n d))) in Hc2 as (_ & _ & _ & _ & _ & Hnew).
  pose proof (only_others_keyed _ _ Ho Hkv) as Hk1.
  assert (grows (tables w') (tables v1)) as G1.
  { etrans; [exact Gv|]. by apply (only_others_grow o (fun n d => proj1 (others_settle n d))). }
  assert (Forall2 (shown p (tables v1)) ids cs) as Hs1.
  { eapply Forall2_impl; [exact Hs|]. intros i c Hi. eapply shown_grows; [|exact Hi]. by etrans. }
  assert (analyze_citations cs = analyze_citations cs2) as Ecs.
  { apply analyze_permutation; [|by rewrite (shown_ids _ _ _ _ Hs)|by eapply shown_permutation].
    rewrite <- (shown_ids _ _ _ _ Hs), Forall_fmap in Hb. exact Hb. }
  rewrite <- Ecs, Hf in Hf2. injection Hf2 as <-.
  destruct (run_findings run) as [|f l] eqn:Hr; [done|]. assert (f ∈ fs) as Hin by (rewrite <- Hperm; left).
  specialize (Hst f ltac:(left)).
  pose proof (lookup_weaken _ _ _ _ Hst (gr_findings _ _ G1)) as Ex. rewrite (Hnew f Hin) in Ex. discriminate Ex.
Qed.
End repeated.

(** ** The stored sample *)

Definition after_sample : world unit := sample_analysis.2.
Definition returned {A} (r : result A) : option A := match r with Ok a => Some a | Raise _ => None end.
Definition sample_run : option RequirementAnalysisRun := returned sample_analysis.1.

Lemma empty_runs_wf d : run_rows d = ∅ -> finding_rows d = ∅ -> wf_runs d.
Proof. intros H1 H2. split; rewrite ?H1, ?H2; by intros i r. Qed.

Lemma quiet_settles n d : settles d (others_at sample_outside n d).
Proof. reflexivity. Qed.

Lemma returned_run {A S} (x : result A * S) a : returned x.1 = Some a -> x = (Ok a, x.2).
Proof. destruct x as [[b|e] s]; cbn; [by intros [= ->]|done]. Qed.

Lemma opposed_wf : wf_runs (tables opposed_world).
Proof. apply empty_runs_wf; vm_compute; reflexivity. Qed.

Lemma after_wf : wf_runs (tables after_sample).
Proof.
  unfold after_sample, sample_analysis.
  apply (analyze_settles sample_outside quiet_settles (fun n d H => H) 1 [211%N; 210%N] opposed_world opposed_wf).
Qed.

Lemma analysis_reads_back_witness :
  match sample_run with
  | Some run => (get_run sample_outside 1 (run_id run) after_sample).1 = Ok (Some run)
  | None => False
  end.
Proof.
  destruct sample_run as [run|] eqn:Hr; [|vm_compute in Hr; discriminate Hr].
  pose proof (returned_run sample_analysis run Hr) as H. fold after_sample in H.
  assert (run_project_id run = 1%N) as Hp by (vm_compute in Hr; injection Hr as <-; reflexivity).
  replace (Some run) with (projected 1 run) by (unfold projected; rewrite Hp; reflexivity).
  apply (analysis_reads_back sample_outside sample_outside quiet_settles (fun n d H => H) quiet_settles (fun n d H => H)
    (fun n => eq_refl) 1 [211%N; 210%N] 1 opposed_world run after_sample after_sample);
    [by repeat constructor|exact opposed_wf|exact H|reflexivity|exact after_wf].
Defined.

Lemma analysis_not_repeatable_witness :
  match analyze sample_outside 1 [210%N; 211%N] after_sample with
  | (Ok _, _) => False
  | (Raise e, v') => analysis_error (exn_cls e) /\ only_others sample_outside (tables after_sample) (tables v')
  end.
Proof.
  destruct sample_run as [run|] eqn:Hr; [|vm_compute in Hr; discriminate Hr].
  pose proof (returned_run sample_analysis run Hr) as H. fold after_sample in H.
  apply (analysis_not_repeatable sample_outside quiet_settles (fun n d H => H) 1 [211%N; 210%N] [210%N; 211%N]
    opposed_world run after_sample after_sample).
  - repeat constructor.
  - exact H.
  - intros Hn. vm_compute in Hr. injection Hr as <-. discriminate Hn.
  - reflexivity.
  - intros i r Hi. assert (citation_rows (tables after_sample) = citation_rows (tables opposed_world)) as He
      by (vm_compute; reflexivity). rewrite He in Hi. clear -Hi. revert i r Hi.
    apply (bool_decide_unpack (map_Forall (fun i r => ct_id r = i) _)). vm_compute. exact I.
  - apply perm_swap.
Defined.
