(* ===== verification/TestGeneration.v ===== *)
(** * Grounded test generation ([test_generation.py])

    Seeds that rest on findings become test proposals; every citation of a
    finding is looked up in the project before a proposal is made of it.

    ** Properties

    Every proposal is well formed, names its finding and rests on citations
    of the project that were there when it was made; and the findings of a
    stored analysis can always be made into proposals. *)
From stdpp Require Import sorting.
From S2P Require Import Prelude PyText Json Digest TextFolding Ordering GeneratedTests Effects Database.
From S2P Require Import JobTables DocumentTables IndexingStore Sessions Citations Findings JsonFacts.
From S2P Require Import AsciiRuntime GeneratedTestsFacts Samples GeneratedTestsSpec DatabaseFacts Indexing.
From S2P Require Import IndexingStoreSpec RequirementsAnalysis AnalysisSpec.

Definition GROUNDED_TEST_GENERATOR_VERSION : pystr := u "grounded-test-generator/v1".
(** [f83ebafb-0d6c-46c6-a738-b9af520b8fc0] *)
Definition GROUNDED_TEST_NAMESPACE : uuid := 0xf83ebafb0d6c46c6a738b9af520b8fc0%N.
Definition MAX_GENERATED_TEST_CASES : Z := 50.

Record TestGenerationSeed := {
  seed_finding : RequirementFindingV1;
  seed_kind : GeneratedTestKind;
  seed_request : RequestTemplateV1;
  seed_assertions : list GeneratedAssertionV1;
}.

Definition ineligible {A} (msg : string) : result A := raise TestGenerationEligibilityError msg.
Definition ineligible_if (c : bool) (msg : string) : result unit := raise_if c TestGenerationEligibilityError msg.

Definition evidence_ids (seed : TestGenerationSeed) : list uuid := citation_id <$> evidence (seed_finding seed).

(** [s.title()] of ASCII text: a letter after a letter is lowered, another
    letter is raised. *)
Fixpoint title_from (after_letter : bool) (s : pystr) : pystr :=
  match s with
  | [] => []
  | c :: s => (if after_letter then ascii_to_lower c else ascii_to_upper c) :: title_from (ascii_letter c) s
  end.
Definition spaced (s : pystr) : pystr := replace (u "_") (u " ") s.
Definition seed_title (kind : GeneratedTestKind) (category : FindingCategory) : pystr :=
  title_from false (spaced (value kind)) ++ u " test for " ++ spaced (value category) ++ u " finding".

Section generation.
Context {rt : PyRuntime}.

(** [_canonical_seed_payload] *)
Definition seed_payload (seed : TestGenerationSeed) : json :=
  JObj [(u "generator_version", JStr GROUNDED_TEST_GENERATOR_VERSION);
        (u "finding_id", JStr (uuid_str (finding_id (seed_finding seed))));
        (u "kind", JStr (value (seed_kind seed)));
        (u "citation_ids", JList ((fun i => JStr (uuid_str i)) <$> evidence_ids seed));
        (u "request", request_payload (seed_request seed));
        (u "assertions", JList (assertion_payload <$> seed_assertions seed))].
Definition canonical_seed_payload (seed : TestGenerationSeed) : pystr := dumps_canonical (seed_payload seed).

(** [_seed_sort_key] *)
Definition seed_sort_key (seed : TestGenerationSeed) : list pystr :=
  [uuid_str (finding_id (seed_finding seed)); value (seed_kind seed); canonical_seed_payload seed].
Definition sorted_seeds (seeds : list TestGenerationSeed) : list TestGenerationSeed :=
  stable_sort (by_texts seed_sort_key) seeds.

(** [_generated_test_case]: the candidate and what the contract makes of it *)
Definition candidate (seed : TestGenerationSeed) : GeneratedTestCaseV1 := {|
  id := uuid5 GROUNDED_TEST_NAMESPACE (canonical_seed_payload seed);
  title := seed_title (seed_kind seed) (category (seed_finding seed));
  kind := seed_kind seed;
  source_finding_id := finding_id (seed_finding seed);
  citation_ids := evidence_ids seed;
  request := seed_request seed;
  assertions := seed_assertions seed |}.
Definition generated_test_case (seed : TestGenerationSeed) : result GeneratedTestCaseV1 :=
  try_except (validate_generated_test_case (as_payload (candidate seed)))
    (fun c => bool_decide (c = GeneratedTestCaseValidationError))
    (fun _ => ineligible "Grounded test-generation seed violates the generated-test contract").

Section service.
Context {E : Type} (o : outside).
Abbreviation io := (io (world E)).

Fixpoint require_citations (project_id : uuid) (citation_ids : list uuid) : io unit :=
  match citation_ids with
  | [] => mret tt
  | citation_id :: citation_ids =>
      c ← get_for_project o project_id citation_id;
      lift (ineligible_if (match c with
                           | None => true
                           | Some c => negb (cite_project_id c =? project_id)%N
                           end) "Grounded finding evidence must resolve in the project") ;;
      require_citations project_id citation_ids
  end.

Definition validate_test_generation_eligibility (project_id : uuid) (seed : TestGenerationSeed) : io unit :=
  lift (ineligible_if (unsupported (seed_finding seed))
          "Unsupported findings are not eligible for test generation") ;;
  lift (ineligible_if (bool_decide (evidence (seed_finding seed) = []))
          "Grounded test generation requires cited finding evidence") ;;
  lift (ineligible_if (is_null (head (seed_assertions seed)))
          "Grounded test generation requires at least one assertion") ;;
  lift (ineligible_if (negb (no_repeats (evidence_ids seed)))
          "Grounded finding evidence citation IDs must not repeat") ;;
  io_try (require_citations project_id (evidence_ids seed))
    (fun c => bool_decide (c = CitationUnavailable))
    (fun _ => io_raise TestGenerationUnavailable "").

Fixpoint generate_all (project_id : uuid) (seeds : list TestGenerationSeed) : io (list GeneratedTestCaseV1) :=
  match seeds with
  | [] => mret []
  | seed :: seeds =>
      validate_test_generation_eligibility project_id seed ;;
      t ← lift (generated_test_case seed);
      l ← generate_all project_id seeds;
      mret (t :: l)
  end.

(** [GroundedTestGenerationService.generate] *)
Definition generate (project_id : uuid) (seeds : list TestGenerationSeed) : io (list GeneratedTestCaseV1) :=
  lift (ineligible_if (is_null (head seeds)) "At least one grounded test-generation seed is required") ;;
  lift (ineligible_if (MAX_GENERATED_TEST_CASES <? zlen seeds)
          "Too many grounded test-generation seeds were supplied") ;;
  generated ← generate_all project_id (sorted_seeds seeds);
  lift (ineligible_if (negb (no_repeats (id <$> generated)))
          "Grounded test-generation seeds must produce unique test cases") ;;
  mret generated.
End service.
End generation.

(** * Properties *)

Section proposals.
Context {rt : PyRuntime}.

(** The identifiers of a seed are UUIDs. *)
Definition seed_ok (seed : TestGenerationSeed) : bool :=
  uuid_ok (finding_id (seed_finding seed)) && forallb uuid_ok (evidence_ids seed).

(** [t] is the proposal of [seed], and its citations are in the project. *)
Record generated_from (p : uuid) (d : doc_db) (seed : TestGenerationSeed) (t : GeneratedTestCaseV1) : Prop := {
  gf_wf : wf_test_case t = true;
  gf_id : id t = uuid5 GROUNDED_TEST_NAMESPACE (canonical_seed_payload seed);
  gf_kind : kind t = seed_kind seed;
  gf_source : source_finding_id t = finding_id (seed_finding seed);
  gf_citations : citation_ids t = evidence_ids seed;
  gf_supported : unsupported (seed_finding seed) = false;
  gf_shown : forall i, i ∈ evidence_ids seed -> exists c, shown p d i c;
}.

Lemma generated_from_grows p d d' seed t : grows d d' -> generated_from p d seed t -> generated_from p d' seed t.
Proof.
  intros G [? ? ? ? ? ? Hs]. split; try done. intros i Hi. destruct (Hs i Hi) as [c Hc]. exists c. by eapply shown_grows.
Qed.

Lemma as_uuid_str n label x : uuid_ok n = true -> as_uuid (JStr (uuid_str n)) label = Ok x -> x = n.
Proof. intros Hn. rewrite as_uuid_complete by done. by intros [= ->]. Qed.

Lemma to_citation_ids_str l x : forallb uuid_ok l = true ->
  to_citation_ids (JList ((fun c => JStr (uuid_str c)) <$> l)) = Ok x -> x = l.
Proof.
  intros Hl H. unfold to_citation_ids in H. cbn [as_list] in H. rewrite bind_ok in H. ok_inv.
  match goal with E : try_map _ _ = Ok _ |- _ =>
    rewrite try_map_id in E; [by injection E|intros; eapply as_uuid_complete, forallb_elem; done] end.
Qed.

(** What the contract keeps of a candidate. *)
Lemma accepted_candidate t t' : uuid_ok (id t) = true -> uuid_ok (source_finding_id t) = true ->
  forallb uuid_ok (citation_ids t) = true -> validate_generated_test_case (as_payload t) = Ok t' ->
  id t' = id t /\ kind t' = kind t /\ source_finding_id t' = source_finding_id t /\ citation_ids t' = citation_ids t.
Proof.
  intros Hi Hs Hc. unfold validate_generated_test_case, as_payload.
  rewrite !(field_eq "schema_version" _ (JStr GENERATED_TEST_CASE_SCHEMA_VERSION)),
    (field_eq "id" _ (JStr (uuid_str (id t)))), (field_eq "title" _ (JStr (title t))),
    (field_eq "kind" _ (JStr (value (kind t)))),
    (field_eq "source_finding_id" _ (JStr (uuid_str (source_finding_id t)))),
    (field_eq "citation_ids" _ (JList ((fun c => JStr (uuid_str c)) <$> citation_ids t))),
    (field_eq "request" _ (request_payload (request t))),
    (field_eq "assertions" _ (JList (assertion_payload <$> assertions t))) by done.
  rewrite !bind_ok. intros H. ok_inv. cbn.
  repeat match goal with
  | E : as_uuid _ _ = Ok _ |- _ => apply as_uuid_str in E; [subst|assumption]
  | E : to_citation_ids _ = Ok _ |- _ => apply to_citation_ids_str in E; [subst|assumption]
  end.
  repeat split. match goal with E : as_enum _ ?label = Ok _ |- _ =>
    pose proof (as_enum_complete (kind t) label) as Ek; change (value (kind t)) with (kind_value (kind t)) in Ek end.
  congruence.
Qed.

Lemma generated_cases seed :
  match generated_test_case seed with
  | Ok t => validate_generated_test_case (as_payload (candidate seed)) = Ok t
  | Raise e => exn_cls e = TestGenerationEligibilityError
  end.
Proof.
  unfold generated_test_case, try_except. destruct (validate_generated_test_case _) as [t|e] eqn:H; [done|].
  apply validate_generated_test_case_errors in H. rewrite H. by rewrite bool_decide_true.
Qed.
End proposals.

Section runs.
Context {rt : PyRuntime} {E : Type} (o : outside).
Hypothesis others_grow : forall n d, grows d (others_at o n d).

Abbreviation calm_step w w' := (only_others o (tables w) (tables w')).

Definition generation_error (c : exn_class) : Prop :=
  c = TestGenerationEligibilityError \/ c = TestGenerationUnavailable.

Lemma only_others_after d d' d'' : only_others o d d' -> only_others o d' d'' -> only_others o d d'' /\ grows d' d''.
Proof using others_grow. intros H1 H2. split; [by etrans|]. by apply (only_others_grow o others_grow). Qed.

Lemma require_citations_run p ids : forall (w : world E),
  calm_step w (require_citations o p ids w).2 /\
  match (require_citations o p ids w).1 with
  | Ok _ => forall i, i ∈ ids -> exists c, shown p (tables (require_citations o p ids w).2) i c
  | Raise e => exn_cls e = CitationUnavailable \/ exn_cls e = TestGenerationEligibilityError
  end.
Proof using others_grow.
  induction ids as [|i ids IH]; intros w; cbn [require_citations]; [split; [reflexivity|by intros i ?%not_elem_of_nil]|].
  rewrite io_bind_eq. destruct (get_for_project_run o p i w) as (n & Ht & Hr).
  assert (calm_step w (get_for_project o p i w).2) as Ho by (apply rtc_once; by exists n).
  destruct (get_for_project o p i w) as [[c|e] w1]; cbn [fst snd] in *; [|by split; [|left]].
  rewrite io_bind_eq. unfold lift, ineligible_if, raise_if.
  destruct (match c with None => true | Some c => _ end) eqn:Hc; [by split; [|right]|].
  destruct c as [c|]; [|done]. destruct (IH w1) as [Ho1 Hs].
  destruct (only_others_after _ _ _ Ho Ho1) as [Ho2 G]. split; [done|].
  destruct (require_citations o p ids w1) as [[[]|e] w2]; [|done]. cbn [fst snd] in *.
  intros j [->|Hj]%elem_of_cons; [|by apply Hs]. exists c. rewrite <- Ht in Hr. by eapply shown_grows.
Qed.

Lemma eligibility_run p seed (w : world E) :
  match validate_test_generation_eligibility o p seed w with
  | (Ok _, w') => calm_step w w' /\ unsupported (seed_finding seed) = false /\
      forall i, i ∈ evidence_ids seed -> exists c, shown p (tables w') i c
  | (Raise e, w') => calm_step w w' /\ generation_error (exn_cls e)
  end.
Proof using others_grow.
  unfold validate_test_generation_eligibility, ineligible_if.
  rewrite io_bind_eq. unfold lift at 1. destruct (unsupported _) eqn:Hu; [by split; [|left]|]. cbn [raise_if].
  rewrite io_bind_eq. unfold lift at 1. destruct (bool_decide _); [by split; [|left]|]. cbn [raise_if].
  rewrite io_bind_eq. unfold lift at 1. destruct (is_null _); [by split; [|left]|]. cbn [raise_if].
  rewrite io_bind_eq. unfold lift at 1. destruct (negb _); [by split; [|left]|]. cbn [raise_if].
  destruct (require_citations_run p (evidence_ids seed) w) as [Ho Hs]. unfold io_try.
  destruct (require_citations o p (evidence_ids seed) w) as [[[]|e] w1]; cbn [fst snd] in *; [done|].
  destruct Hs as [Hs|Hs]; rewrite Hs; [by split; [|right]|]. split; [done|left; exact Hs].
Qed.

Lemma generate_all_run p seeds : Forall (fun seed => seed_ok seed = true) seeds -> forall (w : world E),
  match generate_all o p seeds w with
  | (Ok ts, w') => calm_step w w' /\ Forall2 (generated_from p (tables w')) seeds ts
  | (Raise e, w') => calm_step w w' /\ generation_error (exn_cls e)
  end.
Proof using others_grow.
  induction 1 as [|seed seeds Hseed _ IH]; intros w; cbn [generate_all]; [split; [reflexivity|constructor]|].
  rewrite io_bind_eq. pose proof (eligibility_run p seed w) as Hs.
  destruct (validate_test_generation_eligibility o p seed w) as [[[]|e] w1]; [|done].
  rewrite io_bind_eq. unfold lift. pose proof (generated_cases seed) as Hg. destruct Hs as (Ho & Hu & Hs).
  destruct (generated_test_case seed) as [t|e]; [|by split; [|left]].
  rewrite io_bind_eq. specialize (IH w1).
  destruct (generate_all o p seeds w1) as [[ts|e] w2]; destruct IH as [Ho1 Hl];
    destruct (only_others_after _ _ _ Ho Ho1) as [Ho2 G]; [|done]. split; [done|].
  constructor; [|done]. apply (generated_from_grows _ _ _ _ _ G).
  pose proof (validate_sound _ _ Hg) as Hwf. unfold seed_ok in Hseed. bools.
  apply accepted_candidate in Hg as (Hi & Hk & Hsrc & Hc); [by split|apply uuid_ok_lt, uuid5_bound|done|done].
Qed.

(** C28: Next to sessions that only add rows, generation writes nothing. It
    raises one of its two exceptions, or it returns one proposal for each of
    its 1 to 50 seeds, in their canonical order, with distinct identifiers;
    every proposal is well formed, is named after its seed, comes from a
    supported finding and rests on its citations, all in the project. *)
Theorem generate_spec p seeds (w : world E) : Forall (fun seed => seed_ok seed = true) seeds ->
  match generate o p seeds w with
  | (Ok ts, w') => calm_step w w' /\ seeds <> [] /\ zlen seeds <= MAX_GENERATED_TEST_CASES /\ NoDup (id <$> ts) /\
      Forall2 (generated_from p (tables w')) (sorted_seeds seeds) ts
  | (Raise e, w') => calm_step w w' /\ generation_error (exn_cls e)
  end.
Proof using others_grow.
  intros Hs. unfold generate, ineligible_if. rewrite io_bind_eq. unfold lift at 1.
  destruct (is_null (head seeds)) eqn:Hh; [by split; [|left]|]. cbn [raise_if].
  assert (seeds <> []) as Hne by by intros ->.
  rewrite io_bind_eq. unfold lift at 1. destruct (Z.ltb_spec MAX_GENERATED_TEST_CASES (zlen seeds)) as [|Hlen]; [by split; [|left]|].
  cbn [raise_if]. rewrite io_bind_eq.
  assert (Forall (fun seed => seed_ok seed = true) (sorted_seeds seeds)) as Hss.
  { rewrite Forall_forall in Hs |- *. intros seed. unfold sorted_seeds. rewrite stable_sort_Permutation. apply Hs. }
  pose proof (generate_all_run p (sorted_seeds seeds) Hss w) as Hr.
  destruct (generate_all o p (sorted_seeds seeds) w) as [[ts|e] w1]; [|done]. destruct Hr as [Ho Hr].
  rewrite io_bind_eq. unfold lift. destruct (no_repeats (id <$> ts)) eqn:Hn; cbn [negb raise_if]; [|by split; [|left]].
  apply bool_decide_eq_true in Hn. done.
Qed.

(** Seeds that their keys tell apart can be given in any order. *)
Theorem generate_order_independent p seeds seeds' :
  (forall x y, x ∈ seeds -> y ∈ seeds -> seed_sort_key x = seed_sort_key y -> x = y) -> seeds ≡ₚ seeds' ->
  forall w : world E, generate o p seeds w = generate o p seeds' w.
Proof using.
  intros Hk Hp w. unfold generate.
  assert (is_null (head seeds) = is_null (head seeds')) as ->.
  { destruct seeds, seeds'; try done; [by apply Permutation_nil_l in Hp|by apply Permutation_nil_r in Hp]. }
  assert (zlen seeds = zlen seeds') as -> by (unfold zlen; by rewrite Hp).
  assert (sorted_seeds seeds = sorted_seeds seeds') as -> by (by apply stable_sort_keys_unique). done.
Qed.
End runs.

(** ** Findings become proposals *)

Section grounded_pipeline.
Context {rt : PyRuntime} {laws : PyRuntimeLaws rt} {tf : TextFolding}.

(** The title of a proposal is text. *)
Lemma strip_ascii s : is_ascii s = true -> match s with c :: _ => ascii_space c | [] => false end = false ->
  match reverse s with c :: _ => ascii_space c | [] => false end = false -> strip s = s.
Proof using laws.
  intros Ha Hh Hl. assert (forall c, c ∈ s -> cp_isspace c = ascii_space c) as Hc.
  { intros c Hin. apply isspace_ascii. unfold is_ascii in Ha. apply N.ltb_lt. by eapply forallb_elem in Ha. }
  unfold strip. rewrite lstrip_fix; [unfold rstrip; rewrite lstrip_fix; [by rewrite reverse_involutive|]|].
  - destruct (reverse s) as [|c l] eqn:E; [done|]. rewrite Hc; [done|]. apply elem_of_reverse. rewrite E. left.
  - destruct s as [|c l]; [done|]. rewrite Hc; [done|left].
Qed.

Lemma seed_title_ok k c : text_ok (seed_title k c) = true.
Proof using laws.
  unfold text_ok. assert (strip (seed_title k c) = seed_title k c) as ->.
  { apply strip_ascii; destruct k, c; vm_compute; reflexivity. }
  rewrite bool_decide_true by done. destruct k, c; vm_compute; reflexivity.
Qed.

(** A finding of the rules names every citation once. *)
Lemma contradictions_distinct l f : NoDup (cite_id <$> l) -> f ∈ contradictions l -> NoDup (citation_id <$> evidence f).
Proof.
  induction l as [|c l IH]; cbn; [by intros _ ?%not_elem_of_nil|]. intros [Hc Hl]%NoDup_cons. rewrite elem_of_app. intros [H|H].
  - destruct (must_statement c) as [s|]; [|by apply not_elem_of_nil in H].
    apply list_elem_of_omap in H as (c' & Hc' & H). apply bind_Some in H as (s' & _ & H).
    destruct (contradicts s s'); [|done]. injection H as <-. cbn. apply NoDup_cons. split; [|apply NoDup_singleton].
    intros Hin%list_elem_of_singleton. apply Hc. rewrite Hin. by apply list_elem_of_fmap_2.
  - by apply IH.
Qed.

Lemma citation_findings_single c f : f ∈ citation_findings c -> NoDup (citation_id <$> evidence f).
Proof.
  unfold citation_findings. rewrite !elem_of_app.
  intros [H|[H|[H|[H|H]]]];
    [|apply list_elem_of_fmap in H as (term & -> & _)| | |apply list_elem_of_fmap in H as (term & -> & _)];
    try (destruct (_ && _); [apply list_elem_of_singleton in H as ->|by apply not_elem_of_nil in H]);
    cbn; apply NoDup_singleton.
Qed.

Lemma analyze_distinct cs f : NoDup (cite_id <$> cs) -> f ∈ analyze_citations cs -> NoDup (citation_id <$> evidence f).
Proof.
  unfold analyze_citations. assert (ordered_citations cs ≡ₚ cs) as Hp by apply stable_sort_Permutation.
  intros Hnd. rewrite elem_of_app. intros [(c & Hf & Hc)%list_elem_of_bind|H]; [by eapply citation_findings_single|].
  eapply contradictions_distinct; [|exact H]. by rewrite Hp.
Qed.

(** What makes a seed fit for the contract. *)
Definition seed_fits (seed : TestGenerationSeed) : bool :=
  request_ok (seed_request seed) && negb (is_null (head (seed_assertions seed))) &&
  (zlen (seed_assertions seed) <=? MAX_ASSERTIONS) && forallb assertion_ok (seed_assertions seed) &&
  all_distinct assertion_eq (seed_assertions seed).

Lemma generated_test_case_fits seed : seed_ok seed = true -> seed_fits seed = true -> evidence_ids seed <> [] ->
  NoDup (evidence_ids seed) -> generated_test_case seed = Ok (candidate seed).
Proof using laws.
  intros Hok Hfits Hne Hnd. unfold generated_test_case, try_except. rewrite validate_as_payload; [done|].
  unfold seed_ok in Hok. unfold seed_fits in Hfits. bools. unfold wf_test_case, candidate.
  cbn [id title kind source_finding_id citation_ids request assertions].
  rewrite seed_title_ok. bool_goal; try done; try apply bool_decide_eq_true; try done.
  - apply uuid_ok_lt, uuid5_bound.
  - intros Hn. rewrite Hn in *. done.
Qed.

(** A healthy reader finds the citation that a table shows. *)
Context {E : Type} (o : outside).
Hypothesis others_grow : forall n d, grows d (others_at o n d).
Hypothesis others_keyed : forall n d, keyed ct_id (citation_rows d) -> keyed ct_id (citation_rows (others_at o n d)).
Hypothesis healthy : forall n, fails o n = false.

Definition ready (p : uuid) (ids : list uuid) (d : doc_db) : Prop :=
  keyed ct_id (citation_rows d) /\ forall i, i ∈ ids -> exists c, shown p d i c.

Lemma ready_others p ids n d : ready p ids d -> ready p ids (others_at o n d).
Proof using others_grow others_keyed.
  intros [Hk Hs]. split; [by apply others_keyed|]. intros i Hi. destruct (Hs i Hi) as [c Hc]. exists c.
  eapply shown_grows; [apply others_grow|exact Hc].
Qed.

Lemma citation_statement_shown p i c d : keyed ct_id (citation_rows d) -> shown p d i c ->
  citation_statement (fun r => (ct_id r =? i)%N && (ct_project_id r =? p)%N) d = [c].
Proof using.
  intros Hk (Hi & Hp & j & row & Hr & Hid & Hv). unfold citation_statement.
  set (pred := fun r : CitationRecord => _). pose proof (Hk _ _ Hr) as Ej.
  destruct (select_unique pred (citation_rows d) ct_id Hk) as [E0|(r & E0 & Hpr & Hmr)].
  - intros a b x y Ha Hb Hx Hy. pose proof (Hk _ _ Ha). pose proof (Hk _ _ Hb). unfold pred in Hx, Hy. bools. congruence.
  - exfalso. assert (row ∈ select pred (citation_rows d)) as Hin.
    { apply elem_of_select. split; [|by exists j]. unfold pred. apply andb_true_iff. rewrite !N.eqb_eq. split; [done|].
      pose proof Hv as (? & ? & ? & ? & _ & _ & _ & _ & _ & _ & _ & Ec)%citation_view_Some. rewrite Ec in Hp. exact Hp. }
    rewrite E0 in Hin. by apply not_elem_of_nil in Hin.
  - rewrite E0. unfold pred in Hpr. bools. assert (r = row) as -> by congruence. cbn. by rewrite Hv.
Qed.

Lemma get_for_project_finds p i ids (w : world E) : ready p ids (tables w) -> i ∈ ids ->
  exists c w1, get_for_project o p i w = (Ok (Some c), w1) /\ cite_project_id c = p /\ ready p ids (tables w1).
Proof using others_grow others_keyed healthy.
  intros Hr Hi. unfold get_for_project, citations_unavailable, io_try. rewrite io_bind_eq.
  destruct (observes_healthy o (citation_statement (fun r => (ct_id r =? i)%N && (ct_project_id r =? p)%N)) w healthy)
    as (n & w1 & -> & Ht).
  pose proof (ready_others p ids n _ Hr) as [Hk Hs]. destruct (Hs i Hi) as [c Hc].
  rewrite (citation_statement_shown p i c _ Hk Hc). exists c, w1. split; [done|]. split; [apply Hc|]. by rewrite Ht.
Qed.

Lemma require_citations_finds p ids ids' : forall w : world E, ready p ids (tables w) -> ids' ⊆ ids ->
  exists w1, require_citations o p ids' w = (Ok tt, w1) /\ ready p ids (tables w1).
Proof using others_grow others_keyed healthy.
  induction ids' as [|i ids' IH]; intros w Hw Hsub; cbn [require_citations]; [by exists w|].
  destruct (get_for_project_finds p i ids w Hw) as (c & w1 & Hg & Hp & Hw1); [apply Hsub; left|].
  rewrite (io_step _ _ _ _ _ Hg), Hp, N.eqb_refl. erewrite io_step by reflexivity.
  apply IH; [done|]. intros j Hj. apply Hsub. by right.
Qed.

(** What a finding needs to be eligible. *)
Record eligible (ids : list uuid) (f : RequirementFindingV1) : Prop := {
  el_wf : wf_finding f = true;
  el_supported : unsupported f = false;
  el_cites : forall i, i ∈ citation_id <$> evidence f -> i ∈ ids;
  el_distinct : NoDup (citation_id <$> evidence f);
}.

Lemma eligible_evidence ids f : eligible ids f -> evidence f <> [].
Proof using. intros [Hwf Hu _ _]. unfold wf_finding, grounded in Hwf. rewrite Hu in Hwf. by bools. Qed.

Lemma eligible_seed_ok ids seed : eligible ids (seed_finding seed) -> seed_ok seed = true.
Proof using.
  intros [Hwf _ _ _]. unfold wf_finding in Hwf. unfold seed_ok, evidence_ids. bools. bool_goal; [done|].
  apply forallb_forall. intros i (e & -> & He)%list_elem_of_In%list_elem_of_fmap.
  match goal with Hev : forallb evidence_ok _ = true |- _ => pose proof (forallb_elem _ _ _ Hev He) as Ho end.
  unfold evidence_ok in Ho. by bools.
Qed.

Lemma eligibility_finds p ids seed (w : world E) : ready p ids (tables w) -> eligible ids (seed_finding seed) ->
  seed_fits seed = true ->
  exists w1, validate_test_generation_eligibility o p seed w = (Ok tt, w1) /\ ready p ids (tables w1).
Proof using others_grow others_keyed healthy.
  intros Hw He Hfits. pose proof (eligible_evidence _ _ He) as Hne. destruct He as [_ Hu Hc Hd].
  unfold validate_test_generation_eligibility, ineligible_if.
  rewrite Hu. erewrite io_step by reflexivity. rewrite bool_decide_false by done. erewrite io_step by reflexivity.
  unfold seed_fits in Hfits. bools. match goal with Hn : is_null _ = false |- _ => rewrite Hn end. erewrite io_step by reflexivity.
  unfold no_repeats at 1. rewrite (bool_decide_true (NoDup (evidence_ids seed))) by done. erewrite io_step by reflexivity.
  destruct (require_citations_finds p ids (evidence_ids seed) w Hw Hc) as (w1 & Hr & Hw1). unfold io_try. rewrite Hr. by exists w1.
Qed.

Lemma generate_all_finds p ids seeds : (forall seed, seed ∈ seeds -> eligible ids (seed_finding seed) /\ seed_fits seed = true) ->
  forall w : world E, ready p ids (tables w) ->
  exists w1, generate_all o p seeds w = (Ok (candidate <$> seeds), w1).
Proof using laws others_grow others_keyed healthy.
  induction seeds as [|seed seeds IH]; intros Hs w Hw; cbn [generate_all]; [by exists w|].
  destruct (Hs seed ltac:(left)) as [He Hfits].
  destruct (eligibility_finds p ids seed w Hw He Hfits) as (w1 & H1 & Hw1). rewrite (io_step _ _ _ _ _ H1).
  assert (generated_test_case seed = Ok (candidate seed)) as Hg.
  { apply generated_test_case_fits; [by eapply eligible_seed_ok|done| |apply He].
    pose proof (eligible_evidence _ _ He) as Hne. unfold evidence_ids. by destruct (evidence (seed_finding seed)). }
  rewrite Hg. erewrite io_step by reflexivity.
  destruct (IH (fun s Hin => Hs s (list_elem_of_further _ _ _ Hin)) w1 Hw1) as (w2 & H2).
  rewrite (io_step _ _ _ _ _ H2). by exists w2.
Qed.

(** The findings of a stored analysis are eligible. *)
Lemma analysed_eligible p ids d run citations findings : Forall (fun i => (i < 2 ^ 128)%N) ids -> NoDup ids ->
  analysed p ids d run citations findings -> forall f, f ∈ run_findings run -> eligible ids f.
Proof using.
  intros Hb Hnd Ha f Hf. rewrite (an_run _ _ _ _ _ _ Ha) in Hf.
  destruct (analysed_findings p ids d run citations findings Hb Ha f Hf) as (Hwf & Hu & Hc).
  pose proof (shown_ids _ _ _ _ (an_shown _ _ _ _ _ _ Ha)) as Eids. split; [done|done| |].
  - by intros i (e & -> & He)%list_elem_of_fmap; apply Hc.
  - pose proof (an_findings _ _ _ _ _ _ Ha) as Hm%try_map_Ok.
    destruct (Forall2_elem_r _ _ _ _ Hm Hf) as (f0 & Hf0 & Hv). rewrite validated_eq in Hv.
    pose proof (analyze_rests _ _ Hf0) as Hro. rewrite Eids in Hro. destruct (rests_ok _ _ Hb Hro) as [Hi Hev].
    destruct (validate_payload _ _ Hi Hev Hv) as (_ & Hsame & _).
    assert (citation_id <$> evidence f = citation_id <$> evidence f0) as ->.
    { clear -Hsame. induction Hsame as [|e e' l l' [Hid _] _ IH]; cbn; [done|]. by rewrite Hid, IH. }
    apply (analyze_distinct citations); [by rewrite Eids|done].
Qed.

(** C29: From analysis to tests: once an analysis has returned, any 1 to 50
    seeds that rest on findings of its run, whose requests and assertions are
    within the contract and whose proposals have distinct names, are turned
    into exactly their proposals, by a healthy reader at any later time. *)
Theorem findings_become_tests (oa : outside) p ids (w : world E) run w' (v : world E) seeds :
  (forall n d, grows d (others_at oa n d)) -> Forall (fun i => (i < 2 ^ 128)%N) ids ->
  analyze oa p ids w = (Ok run, w') -> grows (tables w') (tables v) -> keyed ct_id (citation_rows (tables v)) ->
  seeds <> [] -> zlen seeds <= MAX_GENERATED_TEST_CASES ->
  (forall seed, seed ∈ seeds -> seed_finding seed ∈ run_findings run /\ seed_fits seed = true) ->
  NoDup ((fun seed => id (candidate seed)) <$> seeds) ->
  exists v', generate o p seeds v = (Ok (candidate <$> sorted_seeds seeds), v').
Proof using laws others_grow others_keyed healthy.
  intros Hga Hb H G Hk Hne Hlen Hseeds Hnd. pose proof (analyze_cases (E := E) oa Hga p ids w) as Hc. rewrite H in Hc.
  destruct Hc as (_ & Hids & _ & citations & findings & Ha & _).
  assert (ready p ids (tables v)) as Hready.
  { split; [done|]. intros i (k & Hi)%list_elem_of_lookup.
    destruct (Forall2_lookup_l _ _ _ _ _ (an_shown _ _ _ _ _ _ Ha) Hi) as (c & _ & Hc). exists c. by eapply shown_grows. }
  assert (sorted_seeds seeds ≡ₚ seeds) as Hp by apply stable_sort_Permutation.
  destruct (generate_all_finds p ids (sorted_seeds seeds)) with (w := v) as (v' & Hg); [|done|].
  { intros seed Hin. rewrite Hp in Hin. destruct (Hseeds seed Hin) as [Hf Hfits]. split; [|done].
    by eapply (analysed_eligible p ids). }
  exists v'. unfold generate, ineligible_if. assert (is_null (head seeds) = false) as -> by by destruct seeds.
  erewrite io_step by reflexivity. rewrite (proj2 (Z.ltb_ge _ _)) by done. erewrite io_step by reflexivity.
  rewrite (io_step _ _ _ _ _ Hg). unfold no_repeats. rewrite bool_decide_true; [by erewrite io_step by reflexivity|].
  rewrite <- list_fmap_compose. assert (id ∘ candidate <$> sorted_seeds seeds ≡ₚ (fun seed => id (candidate seed)) <$> seeds) as ->
    by (by rewrite Hp). done.
Qed.
End grounded_pipeline.

(** ** Proposals from the sample analysis *)

Definition seed_of (f : RequirementFindingV1) : TestGenerationSeed := {|
  seed_finding := f; seed_kind := POSITIVE; seed_request := sample_request;
  seed_assertions := assertions sample_case |}.
Definition sample_seeds : list TestGenerationSeed := seed_of <$> default [] (run_findings <$> sample_run).
Definition sample_generation : result (list GeneratedTestCaseV1) * world unit :=
  generate sample_outside 1 sample_seeds after_sample.

Example sample_title : seed_title AUTHORIZATION MISSING_ACCEPTANCE_CRITERIA =
  u "Authorization test for missing acceptance criteria finding".
Proof. vm_compute. reflexivity. Qed.

(** A citation of another project stops the generation. *)
Example foreign_project_refused :
  (generate sample_outside 2 sample_seeds after_sample).1 =
  raise TestGenerationEligibilityError "Grounded finding evidence must resolve in the project".
Proof. vm_compute. reflexivity. Qed.

Lemma generate_spec_witness :
  match sample_generation with
  | (Ok ts, w') => only_others sample_outside (tables after_sample) (tables w') /\ sample_seeds <> [] /\
      zlen sample_seeds <= MAX_GENERATED_TEST_CASES /\ NoDup (id <$> ts) /\
      Forall2 (generated_from 1 (tables w')) (sorted_seeds sample_seeds) ts
  | (Raise e, w') => only_others sample_outside (tables after_sample) (tables w') /\ generation_error (exn_cls e)
  end.
Proof.
  unfold sample_generation. apply generate_spec; [intros n d; reflexivity|].
  apply (bool_decide_unpack _). vm_compute. exact I.
Defined.

Lemma findings_become_tests_witness :
  exists v', generate sample_outside 1 sample_seeds after_sample = (Ok (candidate <$> sorted_seeds sample_seeds), v').
Proof.
  destruct sample_run as [run|] eqn:Hr; [|vm_compute in Hr; discriminate Hr].
  pose proof (returned_run sample_analysis run Hr) as H. fold after_sample in H.
  assert (sample_seeds = seed_of <$> run_findings run) as Es by (unfold sample_seeds; rewrite Hr; reflexivity).
  apply (findings_become_tests sample_outside (fun n d => reflexivity d) (fun n d H => H) (fun n => eq_refl) sample_outside
    1 [211%N; 210%N] opposed_world run after_sample after_sample).
  - intros n d. reflexivity.
  - repeat constructor.
  - exact H.
  - reflexivity.
  - assert (citation_rows (tables after_sample) = citation_rows (tables opposed_world)) as -> by (vm_compute; reflexivity).
    apply (bool_decide_unpack (map_Forall (fun i r => ct_id r = i) _)). vm_compute. exact I.
  - intros Hn. vm_compute in Hn. discriminate Hn.
  - apply Z.leb_le. vm_compute. reflexivity.
  - intros seed Hin. rewrite Es in Hin. apply list_elem_of_fmap in Hin as (f & -> & Hf). split; [exact Hf|reflexivity].
  - apply (bool_decide_unpack _). vm_compute. exact I.
Defined.
