(* ===== verification/FindingFeedback.v ===== *)
(** * Feedback on findings ([finding_feedback.py])

    Owners accept, reject or annotate a stored finding.  Every event is an
    immutable row that names the run, the finding and the citations the
    finding rests on; the history of a finding is the list of its events.

    ** Properties

    What recording an event adds, when it is refused, and that the history
    of a finding never loses one. *)
From stdpp Require Import sorting.
From S2P Require Import Prelude PyText Json Digest GeneratedTests Effects TargetRegistry ExecutionPlans.
From S2P Require Import Database ExecutionApprovals JobTables DocumentTables IndexingStore Sessions Findings.
From S2P Require Import RequirementsAnalysis JsonFacts AsciiRuntime TextFolding Ordering GeneratedTestsFacts.
From S2P Require Import DatabaseFacts Indexing IndexingStoreSpec AnalysisSpec Samples.

Definition MAX_FINDING_FEEDBACK_ANNOTATION_LENGTH : Z := 4000.
Definition LOCAL_DEVELOPMENT_REVIEWER_ID : pystr := u "local-development-owner".

Inductive FindingFeedbackAction := ACCEPT | REJECT | ANNOTATE.
#[export] Instance feedback_action_eq_dec : EqDecision FindingFeedbackAction.
Proof. solve_decision. Defined.
Definition action_value (a : FindingFeedbackAction) : pystr :=
  match a with ACCEPT => u "accept" | REJECT => u "reject" | ANNOTATE => u "annotate" end.
#[export] Program Instance feedback_action_enum : StrEnum FindingFeedbackAction := {|
  members := [ACCEPT; REJECT; ANNOTATE]; value := action_value |}.
Next Obligation. by intros [] []. Qed.
Next Obligation. intros []; set_solver. Qed.

Record FindingFeedback := {
  feedback_id : uuid;
  feedback_project_id : uuid;
  requirement_analysis_run_id : uuid;
  requirement_finding_id : uuid;
  feedback_citation_ids : list uuid;
  feedback_action : FindingFeedbackAction;
  feedback_annotation : option pystr;
  reviewer_id : pystr;
  reviewer_authentication_source : pystr;
  feedback_created_at : instant;
}.

Section feedback.
Context {rt : PyRuntime}.

(** [_validate_annotation] *)
Definition validate_annotation (action : FindingFeedbackAction) (annotation : option pystr) : result (option pystr) :=
  match annotation with
  | None =>
      raise_if (bool_decide (action = ANNOTATE)) FindingFeedbackValidationError
        "Annotate feedback requires a non-empty annotation" ;;
      Ok None
  | Some annotation =>
      let normalized := strip annotation in
      raise_if (bool_decide (normalized = []) || (MAX_FINDING_FEEDBACK_ANNOTATION_LENGTH <? zlen normalized))
        FindingFeedbackValidationError "Feedback annotation must be bounded, non-empty text" ;;
      raise_if (negb (bool_decide (action = ANNOTATE))) FindingFeedbackValidationError
        "Only annotate feedback may include an annotation" ;;
      Ok (Some normalized)
  end.

Definition reviewer_provenance (reviewer : OwnerPrincipal) : result (pystr * pystr) :=
  match reviewer with
  | CognitoOwnerPrincipal issuer subject => Ok (issuer ++ u "|" ++ subject, u "cognito")
  | LocalDevelopmentOwnerPrincipal => Ok (LOCAL_DEVELOPMENT_REVIEWER_ID, u "local_bypass")
  | UnsupportedPrincipal => raise FindingFeedbackValidationError "Unsupported reviewer principal"
  end.

(** [_feedback_from_record] *)
Definition feedback_from_record (r : FindingFeedbackRecord) : result FindingFeedback :=
  citation_ids ← try_map (fun value => or_raise (uuid_parse value)
                            (Exn ValueError "badly formed hexadecimal UUID string")) (fb_citation_ids r);
  action ← or_raise (enum_of (fb_action r)) (Exn ValueError "is not a valid FindingFeedbackAction");
  Ok {| feedback_id := fb_id r; feedback_project_id := fb_project_id r;
        requirement_analysis_run_id := fb_run_id r; requirement_finding_id := fb_finding_id r;
        feedback_citation_ids := citation_ids; feedback_action := action;
        feedback_annotation := fb_annotation r; reviewer_id := fb_reviewer_id r;
        reviewer_authentication_source := fb_reviewer_source r; feedback_created_at := fb_created_at r |}.

Definition feedback_row (id project_id run_id finding_id : uuid) (citation_ids : list uuid)
    (action : FindingFeedbackAction) (annotation : option pystr) (reviewer_id source : pystr)
    (created_at : instant) : FindingFeedbackRecord := {|
  fb_id := id; fb_project_id := project_id; fb_run_id := run_id; fb_finding_id := finding_id;
  fb_citation_ids := uuid_str <$> citation_ids; fb_action := value action; fb_annotation := annotation;
  fb_reviewer_id := reviewer_id; fb_reviewer_source := source; fb_created_at := created_at |}.

(** [ORDER BY created_at, id] *)
Definition feedback_le (a b : FindingFeedbackRecord) : Prop :=
  fb_created_at a < fb_created_at b \/ fb_created_at a = fb_created_at b /\ (fb_id a <= fb_id b)%N.
#[export] Instance feedback_le_dec a b : Decision (feedback_le a b).
Proof. unfold feedback_le. apply _. Defined.

Definition about_finding (project_id run_id finding_id : uuid) (r : FindingFeedbackRecord) : bool :=
  (fb_project_id r =? project_id)%N && (fb_run_id r =? run_id)%N && (fb_finding_id r =? finding_id)%N.
Definition feedback_statement (project_id run_id finding_id : uuid) (d : doc_db) : list FindingFeedbackRecord :=
  merge_sort feedback_le (select (about_finding project_id run_id finding_id) (feedback_rows d)).

Section operations.
Context {E : Type} (o : outside).
Abbreviation io := (io (world E)).

(** ** [SqlAlchemyFindingFeedbackRepository] *)

Definition create_feedback (project_id run_id finding_id : uuid) (citation_ids : list uuid)
    (action : FindingFeedbackAction) (annotation : option pystr) (reviewer_id source : pystr) :
    io FindingFeedback :=
  id ← look_outside (new_id o);
  created_at ← look_outside (clock_at o);
  let record := feedback_row id project_id run_id finding_id citation_ids action annotation reviewer_id
                  source created_at in
  io_try (begin o (change o (insert_feedback record)))
    is_SQLAlchemyError (fun _ => io_raise FindingFeedbackUnavailable "") ;;
  lift (feedback_from_record record).

Definition stored_feedback (project_id run_id finding_id : uuid) : io (list FindingFeedback) :=
  records ← io_try (observes o (feedback_statement project_id run_id finding_id))
              is_SQLAlchemyError (fun _ => io_raise FindingFeedbackUnavailable "");
  io_try (lift (try_map feedback_from_record records))
    (fun c => bool_decide (c = TypeError) || is_ValueError c)
    (fun _ => io_raise FindingFeedbackUnavailable "").

(** ** [FindingFeedbackService] *)

(** [_run_for_project] and [_finding_for_project_run] *)
Definition run_for_project (project_id run_id : uuid) : io RequirementAnalysisRun :=
  run ← io_try (get_run o project_id run_id)
          (fun c => bool_decide (c = RequirementAnalysisUnavailable))
          (fun _ => io_raise FindingFeedbackUnavailable "");
  lift (or_raise run (Exn FindingFeedbackNotFound "Finding not found")).
Definition finding_for_project_run (project_id run_id requirement_finding_id : uuid) : io RequirementFindingV1 :=
  run ← run_for_project project_id run_id;
  lift (or_raise (List.find (fun f => finding_id f =? requirement_finding_id)%N (run_findings run))
          (Exn FindingFeedbackNotFound "Finding not found")).

Definition record_feedback (project_id run_id requirement_finding_id : uuid) (action : FindingFeedbackAction)
    (annotation : option pystr) (reviewer : OwnerPrincipal) : io FindingFeedback :=
  normalized_annotation ← lift (validate_annotation action annotation);
  finding ← finding_for_project_run project_id run_id requirement_finding_id;
  let citation_ids := citation_id <$> evidence finding in
  lift (raise_if (bool_decide (citation_ids = [])) FindingFeedbackNotFound "Finding has no cited provenance") ;;
  provenance ← lift (reviewer_provenance reviewer);
  create_feedback project_id run_id requirement_finding_id citation_ids action normalized_annotation
    provenance.1 provenance.2.

Definition list_for_finding (project_id run_id requirement_finding_id : uuid) : io (list FindingFeedback) :=
  finding_for_project_run project_id run_id requirement_finding_id ;;
  stored_feedback project_id run_id requirement_finding_id.
End operations.
End feedback.

(** * Properties *)

#[export] Instance feedback_le_total : Total feedback_le.
Proof. intros a b. unfold feedback_le. lia. Qed.
#[export] Instance feedback_le_trans : Transitive feedback_le.
Proof. intros a b c. unfold feedback_le. lia. Qed.

Section feedback.
Context {rt : PyRuntime}.

(** ** Single events *)

Definition annotation_ok (action : FindingFeedbackAction) (annotation normalized : option pystr) : Prop :=
  match annotation with
  | None => action <> ANNOTATE /\ normalized = None
  | Some s => action = ANNOTATE /\ normalized = Some (strip s) /\ strip s <> [] /\
      zlen (strip s) <= MAX_FINDING_FEEDBACK_ANNOTATION_LENGTH
  end.

Lemma annotation_Ok action annotation normalized :
  validate_annotation action annotation = Ok normalized <-> annotation_ok action annotation normalized.
Proof.
  unfold validate_annotation, annotation_ok. destruct annotation as [s|].
  - destruct (bool_decide_reflect (strip s = [])), (Z.ltb_spec MAX_FINDING_FEEDBACK_ANNOTATION_LENGTH (zlen (strip s)));
      cbn; try (split; [discriminate|intros (? & ? & ? & ?); done || lia]).
    destruct (bool_decide_reflect (action = ANNOTATE)); cbn; [|split; [discriminate|by intros [? _]]].
    split; [by intros [= <-]|by intros (_ & -> & _)].
  - destruct (bool_decide_reflect (action = ANNOTATE)); cbn; [split; [discriminate|by intros [? _]]|].
    split; [by intros [= <-]|by intros (_ & ->)].
Qed.

Definition feedback_error (c : exn_class) : Prop :=
  c = FindingFeedbackValidationError \/ c = FindingFeedbackNotFound \/ c = FindingFeedbackUnavailable.

Lemma annotation_errors action annotation : raises (fun c => c = FindingFeedbackValidationError) (validate_annotation action annotation).
Proof. unfold validate_annotation. destruct annotation; cbv zeta; repeat raises_step; done. Qed.

Lemma reviewer_errors reviewer : raises (fun c => c = FindingFeedbackValidationError) (reviewer_provenance reviewer).
Proof. destruct reviewer; cbn; [apply raises_Ok..|by apply raises_raise]. Qed.

(** What is stored of an event is read as the event. *)
Lemma feedback_row_reads id p rid fid ids action annotation reviewer source at_ :
  Forall (fun i => (i < 2 ^ 128)%N) ids ->
  feedback_from_record (feedback_row id p rid fid ids action annotation reviewer source at_) =
  Ok {| feedback_id := id; feedback_project_id := p; requirement_analysis_run_id := rid; requirement_finding_id := fid;
        feedback_citation_ids := ids; feedback_action := action; feedback_annotation := annotation;
        reviewer_id := reviewer; reviewer_authentication_source := source; feedback_created_at := at_ |}.
Proof.
  intros Hids. rewrite Forall_forall in Hids. unfold feedback_from_record, feedback_row.
  cbn [fb_id fb_project_id fb_run_id fb_finding_id fb_citation_ids fb_action fb_annotation fb_reviewer_id fb_reviewer_source fb_created_at].
  rewrite (try_map_id _ uuid_str), bind_ok; [by rewrite enum_of_value|].
  intros i Hi. by rewrite uuid_parse_str by by apply Hids.
Qed.

(** ** The rows of events *)

Definition readable (d : doc_db) : Prop := keyed fb_id (feedback_rows d) /\
  forall i r, feedback_rows d !! i = Some r -> exists fb, feedback_from_record r = Ok fb.

Section recording.
Context {E : Type} (o : outside).
Hypothesis others_settle : forall n d, settles d (others_at o n d).
Hypothesis others_wf : forall n d, wf_runs d -> wf_runs (others_at o n d).

Abbreviation calm_step w w' := (only_others o (tables w) (tables w')).

Lemma from_record_wf r f : finding_from_record r = Ok f -> wf_finding f = true.
Proof using. unfold finding_from_record. apply validate_finding_sound. Qed.

Lemma run_findings_wf row rows run : run_of_rows row rows = Ok run -> forall f, f ∈ run_findings run -> wf_finding f = true.
Proof using.
  unfold run_of_rows. intros H f Hin. ok_inv.
  match goal with He : try_map finding_from_record _ = Ok _ |- _ =>
    apply try_map_Ok in He; destruct (Forall2_elem_r _ _ _ _ He Hin) as (r & _ & Hv) end.
  exact (from_record_wf r f Hv).
Qed.

Lemma or_raise_raises {A} (P : exn_class -> Prop) (x : option A) e : P (exn_cls e) -> raises P (or_raise x e).
Proof using. intros Hp. destruct x; [apply raises_Ok|]. intros e' [= <-]. exact Hp. Qed.

Lemma record_errors r : raises (fun c => c = RequirementFindingValidationError) (finding_from_record r).
Proof using.
  unfold finding_from_record. eapply raises_weaken; [apply finding_errors|].
  intros c [->|(_ & z & Hz & _)]; [done|discriminate Hz].
Qed.

Lemma run_of_rows_errors row rows : raises (fun c => is_ValueError c = true) (run_of_rows row rows).
Proof using.
  unfold run_of_rows. apply raises_bind; [apply raises_try_map; intros s _; by apply or_raise_raises|intros ids _].
  apply raises_bind; [apply raises_try_map; intros r _|intros fs _; apply raises_Ok].
  eapply raises_weaken; [apply record_errors|]. by intros c ->.
Qed.

Lemma others_step n (w w' : world E) : tables w' = others_at o n (tables w) -> calm_step w w'.
Proof using. intros ->. apply rtc_once. by exists n. Qed.

(** What a read of a run saw. *)
Lemma get_run_run p rid (w : world E) : wf_runs (tables w) ->
  match get_run o p rid w with
  | (Ok (Some run), w') => calm_step w w' /\ wf_runs (tables w') /\
      exists row, run_rows (tables w') !! rid = Some row /\ ra_project_id row = p /\
        run_of_rows row (finding_statement p rid (tables w')) = Ok run
  | (Ok None, w') => calm_step w w'
  | (Raise e, w') => calm_step w w' /\ exn_cls e = RequirementAnalysisUnavailable
  end.
Proof using others_settle others_wf.
  intros Hw. unfold get_run, io_try. rewrite io_bind_eq.
  destruct (observes_run o (run_statement p rid) w) as (n & Ht & Hr).
  destruct (observes o (run_statement p rid) w) as [[run|e] w1]; cbn [fst snd] in Ht, Hr.
  2:{ rewrite Hr. cbn. split; [by eapply others_step|done]. }
  rewrite <- Ht in Hr. unfold run_statement in Hr.
  destruct run as [row|]; [|by eapply others_step].
  symmetry in Hr. apply bind_Some in Hr as (row' & Hrow & Hp). destruct (N.eqb_spec (ra_project_id row') p) as [Ep|]; [|done].
  injection Hp as ->. assert (wf_runs (tables w1)) as Hw1 by (rewrite Ht; by apply others_wf).
  pose proof (wr_runs _ Hw1 _ _ Hrow) as Eid. rewrite Eid, io_bind_eq.
  destruct (observes_run o (finding_statement p rid) w1) as (n2 & Ht2 & Hr2).
  destruct (observes o (finding_statement p rid) w1) as [[rows|e] w2]; cbn [fst snd] in Ht2, Hr2.
  2:{ rewrite Hr2. cbn. split; [etrans; by eapply others_step|done]. }
  assert (calm_step w w2) as Hcalm by (etrans; by eapply others_step).
  assert (grows (tables w1) (tables w2)) as G by (rewrite Ht2; apply others_settle).
  rewrite <- Ht2 in Hr2. subst rows. rewrite io_bind_eq. unfold lift.
  pose proof (run_of_rows_errors row (finding_statement p rid (tables w2))) as He.
  destruct (run_of_rows row (finding_statement p rid (tables w2))) as [run|e] eqn:Hrun.
  - split; [done|]. split; [rewrite Ht2; by apply others_wf|]. exists row. split; [|done]. by eapply lookup_weaken, gr_runs.
  - specialize (He e eq_refl). cbn in He. rewrite He, !orb_true_r. done.
Qed.

(** *** The finding of a run *)

(** [f] is the finding [fid] of run [rid] in the project. *)
Definition finding_of (d : doc_db) (p rid fid : uuid) (f : RequirementFindingV1) : Prop :=
  exists row run, run_rows d !! rid = Some row /\ ra_project_id row = p /\
    run_of_rows row (finding_statement p rid d) = Ok run /\
    List.find (fun f => finding_id f =? fid)%N (run_findings run) = Some f.

Lemma finding_statement_settles p rid d d' : wf_runs d -> wf_runs d' -> settles d d' -> is_Some (run_rows d !! rid) ->
  finding_statement p rid d' = finding_statement p rid d.
Proof using.
  intros Hw Hw' [G Hs] [row Hrow]. unfold finding_statement. set (pred := fun r : RequirementFindingRecord => _).
  assert (forall i r, finding_rows d' !! i = Some r -> pred r = true -> finding_rows d !! i = Some r) as Hback.
  { intros i r Hi Hp. destruct (finding_rows d !! i) as [r'|] eqn:Hd.
    - pose proof (lookup_weaken _ _ _ _ Hd (gr_findings _ _ G)) as Ex. congruence.
    - pose proof (Hs _ _ Hi Hd) as Hn. unfold pred in Hp. bools. congruence. }
  symmetry. apply sorted_rows_unique; [apply _..| |].
  - intros x y [_ (i & Hi)]%elem_of_select [_ (j & Hj)]%elem_of_select Hxy Hyx. unfold finding_id_le in Hxy, Hyx.
    pose proof (wr_findings _ Hw _ _ Hi). pose proof (wr_findings _ Hw _ _ Hj). assert (i = j) as <- by lia. congruence.
  - apply NoDup_Permutation; [eapply select_nodup; apply Hw|eapply select_nodup; apply Hw'|].
    intros r. rewrite !elem_of_select. split; intros [Hp (i & Hi)]; (split; [done|]); exists i; [|by apply Hback].
    by eapply lookup_weaken, gr_findings.
Qed.

Lemma finding_of_settles p rid fid f d d' : wf_runs d -> wf_runs d' -> settles d d' -> finding_of d p rid fid f -> finding_of d' p rid fid f.
Proof using.
  intros Hw Hw' Hs (row & run & Hrow & Hp & Hrun & Hf). exists row, run.
  split; [by eapply lookup_weaken, gr_runs, Hs|]. split; [done|].
  rewrite (finding_statement_settles p rid d d'); [done..|by exists row].
Qed.

Lemma finding_of_facts d p rid fid f : finding_of d p rid fid f -> finding_id f = fid /\ wf_finding f = true.
Proof using.
  intros (row & run & _ & _ & Hrun & [Hin Hf]%List.find_some). apply N.eqb_eq in Hf. split; [done|].
  eapply run_findings_wf; [exact Hrun|]. by apply list_elem_of_In.
Qed.

Lemma finding_for_project_run_run p rid fid (w : world E) : wf_runs (tables w) ->
  match finding_for_project_run o p rid fid w with
  | (Ok f, w') => calm_step w w' /\ wf_runs (tables w') /\ finding_of (tables w') p rid fid f
  | (Raise e, w') => calm_step w w' /\ (exn_cls e = FindingFeedbackNotFound \/ exn_cls e = FindingFeedbackUnavailable)
  end.
Proof using others_settle others_wf.
  intros Hw. unfold finding_for_project_run, run_for_project, io_try. rewrite !io_bind_eq.
  pose proof (get_run_run p rid w Hw) as Hg. destruct (get_run o p rid w) as [[[run|]|e] w1].
  - destruct Hg as (Hc & Hw1 & row & Hrow & Hp & Hrun). unfold lift. cbn [or_raise].
    destruct (List.find (fun f : RequirementFindingV1 => (finding_id f =? fid)%N) (run_findings run)) as [f|] eqn:Hf;
      cbn [or_raise]; [|by split; [|left]].
    split; [done|]. split; [done|]. by exists row, run.
  - cbn. by split; [|left].
  - destruct Hg as [Hc He]. rewrite He. cbn. by split; [|right].
Qed.

(** *** Storing an event *)

Lemma raising_insert row : raising (fun c => is_SQLAlchemyError c = true) (change (E := E) o (insert_feedback row)).
Proof using.
  apply raising_sql; [done|]. intros d. pose proof (insert_feedback_raises row d). repeat raises_step; done.
Qed.

Lemma create_feedback_run p rid fid ids action annotation reviewer source (w : world E) : Forall (fun i => (i < 2 ^ 128)%N) ids ->
  match create_feedback o p rid fid ids action annotation reviewer source w with
  | (Ok fb, w') => exists n row,
      fb = {| feedback_id := fb_id row; feedback_project_id := p; requirement_analysis_run_id := rid;
              requirement_finding_id := fid; feedback_citation_ids := ids; feedback_action := action;
              feedback_annotation := annotation; reviewer_id := reviewer;
              reviewer_authentication_source := source; feedback_created_at := fb_created_at row |} /\
      about_finding p rid fid row = true /\ feedback_from_record row = Ok fb /\
      insert_feedback row (others_at o n (tables w)) = Ok (tables w')
  | (Raise e, w') => calm_step w w' /\ exn_cls e = FindingFeedbackUnavailable
  end.
Proof using.
  intros Hids. unfold create_feedback. erewrite io_step by reflexivity. erewrite io_step by reflexivity.
  set (id := new_id o _). set (now := clock_at o _).
  match goal with |- context [(_ ≫= _) ?x] => set (w1 := x) end.
  assert (tables w1 = tables w) as Ew by done. clearbody w1 id now.
  set (row := feedback_row id p rid fid ids action annotation reviewer source now). cbv zeta. rewrite io_bind_eq. unfold io_try.
  destruct (begin o (change o (insert_feedback row)) w1) as [[x|e] w2] eqn:Hb.
  - apply begin_Ok in Hb as (s & [n H1]%change_saw & Ht). cbn in H1. rewrite Ew, <- Ht in H1. unfold lift.
    pose proof (feedback_row_reads id p rid fid ids action annotation reviewer source now Hids) as Hr. fold row in Hr. rewrite Hr.
    exists n, row. split; [done|]. split; [unfold about_finding, row, feedback_row; cbn; by rewrite !N.eqb_refl|done].
  - pose proof (raising_begin o _ _ eq_refl (raising_insert row) w1 e) as Hr. rewrite Hb in Hr. rewrite Hr by done.
    cbn. split; [|done]. apply begin_Raise in Hb; [|unfold change; isolated_step]. by rewrite <- Ew.
Qed.

Lemma insert_feedback_settles row d d' : insert_feedback row d = Ok d' ->
  settles d d' /\ (wf_runs d -> wf_runs d') /\ feedback_rows d' !! fb_id row = Some row.
Proof using.
  intros H. pose proof (insert_feedback_grows _ _ _ H) as G. unfold insert_feedback in H. ok_inv. cbn.
  split; [split; [done|]|split; [by intros [? ? ?]|by rewrite lookup_insert_eq]].
  cbn. intros i r Hi Hn. congruence.
Qed.

Lemma record_feedback_run p rid fid action annotation reviewer (w : world E) : wf_runs (tables w) ->
  match record_feedback o p rid fid action annotation reviewer w with
  | (Ok fb, w') => exists f d row, wf_runs (tables w') /\
      insert_feedback row d = Ok (tables w') /\ feedback_from_record row = Ok fb /\
      about_finding p rid fid row = true /\ finding_of (tables w') p rid fid f /\
      only_others o (tables w) d /\
      feedback_citation_ids fb = citation_id <$> evidence f /\ evidence f <> [] /\
      feedback_action fb = action /\ annotation_ok action annotation (feedback_annotation fb) /\
      reviewer_provenance reviewer = Ok (reviewer_id fb, reviewer_authentication_source fb)
  | (Raise e, w') => calm_step w w' /\ feedback_error (exn_cls e)
  end.
Proof using others_settle others_wf.
  intros Hw. unfold record_feedback. rewrite io_bind_eq. unfold lift at 1.
  pose proof (annotation_errors action annotation) as Ha.
  destruct (validate_annotation action annotation) as [normalized|e] eqn:Hn; [|split; [reflexivity|left; by apply Ha]].
  apply annotation_Ok in Hn. rewrite io_bind_eq. pose proof (finding_for_project_run_run p rid fid w Hw) as Hf.
  destruct (finding_for_project_run o p rid fid w) as [[f|e] w1].
  2:{ destruct Hf as [Hc [He|He]]; (split; [done|]); [right; by left|by right; right]. }
  destruct Hf as (Hc & Hw1 & Hf). cbv zeta. rewrite io_bind_eq. unfold lift at 1.
  destruct (bool_decide_reflect (citation_id <$> evidence f = [])) as [|Hne]; [split; [done|right; by left]|]. cbn [raise_if].
  rewrite io_bind_eq. unfold lift at 1. pose proof (reviewer_errors reviewer) as Hv.
  destruct (reviewer_provenance reviewer) as [[who source]|e] eqn:Hr; [|split; [done|left; by apply Hv]]. cbn [fst snd].
  pose proof (finding_of_facts _ _ _ _ _ Hf) as [_ Hwf].
  assert (Forall (fun i => (i < 2 ^ 128)%N) (citation_id <$> evidence f)) as Hids.
  { unfold wf_finding in Hwf. bools. apply Forall_fmap, Forall_forall. intros x Hx.
    match goal with Hev : forallb evidence_ok _ = true |- _ => pose proof (forallb_elem _ _ _ Hev Hx) as Ho end.
    unfold evidence_ok in Ho. bools. by apply N.ltb_lt. }
  pose proof (create_feedback_run p rid fid _ action normalized who source w1 Hids) as Hcr.
  destruct (create_feedback o p rid fid (citation_id <$> evidence f) action normalized who source w1) as [[fb|e] w2].
  2:{ destruct Hcr as [Hc2 He]. split; [by etrans|by right; right]. }
  destruct Hcr as (n & row & Efb & Hab & Hread & Hins). exists f, (others_at o n (tables w1)), row.
  pose proof (insert_feedback_settles _ _ _ Hins) as (S2 & W2 & _). pose proof (others_wf n _ Hw1) as Wn.
  split; [by apply W2|]. split; [exact Hins|]. split; [exact Hread|]. split; [exact Hab|].
  assert (evidence f <> []) as Hev by (intros Hev; apply Hne; by rewrite Hev).
  split; [|split; [etrans; [exact Hc|]; apply rtc_once; by exists n|rewrite Efb; done]].
  eapply finding_of_settles; [exact Hw1|by apply W2| |exact Hf]. etrans; [apply others_settle|exact S2].
Qed.

(** C30: Recording feedback next to sessions that settle: an event is stored
    as one new row on top of what others committed, in the name of the
    reviewer the server resolved, with an annotation exactly when the action
    is to annotate, and with the citations of the stored finding it is about;
    otherwise one of its three exceptions is raised and nothing is written. *)
Theorem record_feedback_spec p rid fid action annotation reviewer (w : world E) : wf_runs (tables w) ->
  match record_feedback o p rid fid action annotation reviewer w with
  | (Ok fb, w') => exists f d row,
      only_others o (tables w) d /\ insert_feedback row d = Ok (tables w') /\ feedback_from_record row = Ok fb /\
      about_finding p rid fid row = true /\ finding_of (tables w') p rid fid f /\
      feedback_citation_ids fb = citation_id <$> evidence f /\ evidence f <> [] /\
      feedback_action fb = action /\ annotation_ok action annotation (feedback_annotation fb) /\
      reviewer_provenance reviewer = Ok (reviewer_id fb, reviewer_authentication_source fb)
  | (Raise e, w') => calm_step w w' /\ feedback_error (exn_cls e)
  end.
Proof using others_settle others_wf.
  intros Hw. pose proof (record_feedback_run p rid fid action annotation reviewer w Hw) as H.
  destruct (record_feedback o p rid fid action annotation reviewer w) as [[fb|e] w']; [|exact H].
  destruct H as (f & d & row & _ & ? & ? & ? & ? & ? & H). by exists f, d, row.
Qed.
End recording.

(** ** The history of a finding *)

Section history.
Context {E : Type} (o o' : outside).
Hypothesis others_settle : forall n d, settles d (others_at o n d).
Hypothesis others_wf : forall n d, wf_runs d -> wf_runs (others_at o n d).
Hypothesis readers_settle : forall n d, settles d (others_at o' n d).
Hypothesis readers_wf : forall n d, wf_runs d -> wf_runs (others_at o' n d).
Hypothesis readers_readable : forall n d, readable d -> readable (others_at o' n d).
Hypothesis healthy : forall n, fails o' n = false.

Lemma finding_for_project_run_finds p rid fid f (w : world E) : wf_runs (tables w) -> finding_of (tables w) p rid fid f ->
  exists w1, finding_for_project_run o' p rid fid w = (Ok f, w1) /\ only_others o' (tables w) (tables w1).
Proof using readers_settle readers_wf healthy.
  intros Hw Hf. destruct (observes_healthy o' (run_statement p rid) w healthy) as (n1 & w1 & H1 & T1).
  destruct (observes_healthy o' (finding_statement p rid) w1 healthy) as (n2 & w2 & H2 & T2).
  pose proof (readers_wf n1 _ Hw) as W1. rewrite <- T1 in W1. pose proof (readers_wf n2 _ W1) as W2. rewrite <- T2 in W2.
  assert (settles (tables w) (tables w1)) as S1 by (rewrite T1; apply readers_settle).
  assert (settles (tables w1) (tables w2)) as S2 by (rewrite T2; apply readers_settle).
  pose proof (finding_of_settles _ _ _ _ _ _ Hw W1 S1 Hf) as F1.
  pose proof (finding_of_settles _ _ _ _ _ _ W1 W2 S2 F1) as (row & run & Hrow2 & Hp & Hrun & Hfind).
  destruct F1 as (row1 & _ & Hrow & Hp1 & _ & _). pose proof (lookup_weaken _ _ _ _ Hrow (gr_runs _ _ (proj1 S2))) as Ex.
  assert (row1 = row) as -> by congruence. exists w2. split.
  - unfold finding_for_project_run, run_for_project. rewrite !io_bind_eq. unfold io_try, get_run, io_try.
    rewrite io_bind_eq, H1, <- T1. unfold run_statement. rewrite Hrow. cbn [mbind option_bind].
    rewrite Hp, N.eqb_refl. rewrite io_bind_eq, (wr_runs _ W1 _ _ Hrow), H2, <- T2. rewrite io_bind_eq. unfold lift at 1.
    rewrite Hrun. cbn. by rewrite Hfind.
  - transitivity (tables w1); apply rtc_once; [by exists n1|by exists n2].
Qed.

Definition earlier_feedback (a b : FindingFeedback) : Prop := feedback_created_at a <= feedback_created_at b.

Lemma from_record_time r fb : feedback_from_record r = Ok fb -> feedback_created_at fb = fb_created_at r /\
  feedback_project_id fb = fb_project_id r /\ requirement_analysis_run_id fb = fb_run_id r /\
  requirement_finding_id fb = fb_finding_id r.
Proof using. unfold feedback_from_record. intros H. ok_inv. done. Qed.

Lemma history_sorted rows l : StronglySorted feedback_le rows -> Forall2 (fun r fb => feedback_from_record r = Ok fb) rows l ->
  StronglySorted earlier_feedback l.
Proof using.
  intros Hs Hl. induction Hl as [|r fb rows l Hr Hl IH]; [constructor|]. apply StronglySorted_inv in Hs as [Hs Hall].
  constructor; [by apply IH|]. rewrite Forall_forall in Hall. apply Forall_forall. intros x Hx.
  destruct (Forall2_elem_r _ _ _ _ Hl Hx) as (y & Hy & Hxy). specialize (Hall y Hy).
  unfold earlier_feedback.
  apply from_record_time in Hr as [-> _]. apply from_record_time in Hxy as [-> _]. unfold feedback_le in Hall. lia.
Qed.

Lemma try_map_total {A B} (f : A -> result B) l : (forall a, a ∈ l -> exists b, f a = Ok b) -> exists k, try_map f l = Ok k.
Proof using.
  induction l as [|a l IH]; intros H; cbn; [by eexists|]. destruct (H a ltac:(left)) as [b ->]. rewrite bind_ok.
  destruct IH as [k ->]; [|rewrite bind_ok; by eexists]. intros x Hx. apply H. by right.
Qed.

(** Feedback is never lost: an event that was recorded is in every later
    history of its finding that a healthy session reads, next to sessions
    that settle and store readable events; the history is sorted by time and
    is about that finding alone. *)
Theorem recorded_feedback_is_listed p rid fid action annotation reviewer (w : world E) fb w' (v : world E) :
  wf_runs (tables w) -> record_feedback o p rid fid action annotation reviewer w = (Ok fb, w') ->
  settles (tables w') (tables v) -> wf_runs (tables v) -> readable (tables v) ->
  exists l, (list_for_finding o' p rid fid v).1 = Ok l /\ fb ∈ l /\ StronglySorted earlier_feedback l /\
    forall x, x ∈ l -> feedback_project_id x = p /\ requirement_analysis_run_id x = rid /\ requirement_finding_id x = fid.
Proof using others_settle others_wf readers_settle readers_wf readers_readable healthy.
  intros Hw H Hs Hv Hread. pose proof (record_feedback_run o others_settle others_wf p rid fid action annotation reviewer w Hw) as Hr.
  rewrite H in Hr. destruct Hr as (f & d & row & W' & Hins & Hfrom & Hab & Hf & _).
  apply insert_feedback_settles in Hins as (_ & _ & Hrow).
  apply (finding_of_settles _ _ _ _ _ _ W' Hv Hs) in Hf.
  destruct (finding_for_project_run_finds p rid fid f v Hv Hf) as (w1 & H1 & Ho).
  assert (readable (tables w1) /\ grows (tables v) (tables w1)) as [R1 G1].
  { split; [clear -Ho Hread readers_readable; induction Ho as [|? ? ? (n & ->) _ IH]; [done|]; by apply IH, readers_readable|].
    by apply (only_others_grow o' (fun n d => proj1 (readers_settle n d))). }
  unfold list_for_finding. rewrite (io_step _ _ _ _ _ H1). unfold stored_feedback. rewrite io_bind_eq. unfold io_try.
  destruct (observes_healthy o' (feedback_statement p rid fid) w1 healthy) as (n & w2 & -> & T2).
  set (d2 := others_at o' n (tables w1)) in *. assert (readable d2) as [Hk R2] by by apply readers_readable.
  assert (grows (tables w1) d2) as G2 by apply readers_settle.
  assert (forall r, r ∈ feedback_statement p rid fid d2 -> about_finding p rid fid r = true /\ exists fb, feedback_from_record r = Ok fb) as Hrows.
  { intros r. unfold feedback_statement. rewrite merge_sort_Permutation. intros [Hr (i & Hi)]%elem_of_select. split; [done|by eapply R2]. }
  destruct (try_map_total feedback_from_record (feedback_statement p rid fid d2)) as [l Hl]; [intros r Hr; by apply Hrows|].
  unfold lift. rewrite Hl. cbn [fst]. exists l. split; [done|]. apply try_map_Ok in Hl. split_and!.
  - assert (row ∈ feedback_statement p rid fid d2) as Hin.
    { unfold feedback_statement. rewrite merge_sort_Permutation. apply elem_of_select. split; [done|]. exists (fb_id row).
      eapply lookup_weaken; [exact Hrow|]. etrans; [apply gr_feedback, Hs|]. etrans; [apply gr_feedback, G1|apply gr_feedback, G2]. }
    apply list_elem_of_lookup in Hin as (i & Hi). destruct (Forall2_lookup_l _ _ _ _ _ Hl Hi) as (x & Hx & Ex).
    assert (x = fb) as -> by congruence. by eapply list_elem_of_lookup_2.
  - eapply history_sorted; [|exact Hl]. apply StronglySorted_merge_sort; apply _.
  - intros x Hx. destruct (Forall2_elem_r _ _ _ _ Hl Hx) as (r & Hr & Ex). apply Hrows in Hr as [Hb _].
    apply from_record_time in Ex as (_ & -> & -> & ->). unfold about_finding in Hb. by bools.
Qed.
End history.
End feedback.

(** ** Feedback on the sample analysis *)

Definition sample_run_id : uuid := default 0%N (run_id <$> sample_run).
Definition sample_finding_id : uuid :=
  default 0%N (finding_id <$> head (default [] (run_findings <$> sample_run))).
Definition sample_record : result FindingFeedback * world unit :=
  record_feedback sample_outside 1 sample_run_id sample_finding_id ANNOTATE (Some (u " see the contract "))
    (CognitoOwnerPrincipal (u "issuer") (u "subject")) after_sample.

Example sample_recorded :
  (fun fb => (feedback_annotation fb, reviewer_id fb)) <$> sample_record.1 =
  Ok (Some (u "see the contract"), u "issuer|subject").
Proof. vm_compute. reflexivity. Qed.

(** A finding of another project is not found. *)
Example foreign_feedback_refused :
  (record_feedback sample_outside 2 sample_run_id sample_finding_id ACCEPT None LocalDevelopmentOwnerPrincipal after_sample).1 =
  raise FindingFeedbackNotFound "Finding not found".
Proof. vm_compute. reflexivity. Qed.

Lemma sample_recorded_wf : wf_runs (tables sample_record.2).
Proof.
  pose proof (record_feedback_run sample_outside quiet_settles (fun n d H => H) 1 sample_run_id sample_finding_id ANNOTATE
    (Some (u " see the contract ")) (CognitoOwnerPrincipal (u "issuer") (u "subject")) after_sample after_wf) as H.
  fold sample_record in H. assert (is_ok sample_record.1 = true) as Hok by (vm_compute; reflexivity).
  destruct sample_record as [[fb|e] w']; [|discriminate Hok]. destruct H as (f & d & row & Hw & _). exact Hw.
Qed.

Lemma record_feedback_spec_witness :
  wf_runs (tables after_sample) /\
  match sample_record with
  | (Ok fb, w') => exists f d row,
      only_others sample_outside (tables after_sample) d /\ insert_feedback row d = Ok (tables w') /\
      feedback_from_record row = Ok fb /\
      about_finding 1 sample_run_id sample_finding_id row = true /\
      finding_of (tables w') 1 sample_run_id sample_finding_id f /\
      feedback_citation_ids fb = citation_id <$> evidence f /\ evidence f <> [] /\
      feedback_action fb = ANNOTATE /\ annotation_ok ANNOTATE (Some (u " see the contract ")) (feedback_annotation fb) /\
      reviewer_provenance (CognitoOwnerPrincipal (u "issuer") (u "subject")) =
        Ok (reviewer_id fb, reviewer_authentication_source fb)
  | (Raise e, w') => only_others sample_outside (tables after_sample) (tables w') /\ feedback_error (exn_cls e)
  end.
Proof.
  split; [exact after_wf|]. unfold sample_record.
  apply (record_feedback_spec sample_outside quiet_settles (fun n d H => H) _ _ _ _ _ _ after_sample after_wf).
Defined.

Lemma sample_record_readable : readable (tables sample_record.2).
Proof.
  split.
  - intros i r Hi. revert i r Hi. apply (bool_decide_unpack (map_Forall (fun i r => fb_id r = i) _)). vm_compute. exact I.
  - intros i r Hi. assert (is_ok (feedback_from_record r) = true) as H; [|destruct (feedback_from_record r) as [fb|e]; [by exists fb|done]].
    revert i r Hi. apply (bool_decide_unpack (map_Forall (fun i r => is_ok (feedback_from_record r) = true) _)). vm_compute. exact I.
Qed.

Lemma recorded_feedback_is_listed_witness :
  match sample_record with
  | (Ok fb, w') => exists l,
      (list_for_finding sample_outside 1 sample_run_id sample_finding_id w').1 = Ok l /\ fb ∈ l /\
      StronglySorted earlier_feedback l /\
      forall x, x ∈ l -> feedback_project_id x = 1%N /\ requirement_analysis_run_id x = sample_run_id /\
        requirement_finding_id x = sample_finding_id
  | (Raise e, w') => False
  end.
Proof.
  assert (is_ok sample_record.1 = true) as Hok by (vm_compute; reflexivity).
  pose proof sample_recorded_wf as Hw. pose proof sample_record_readable as Hread.
  destruct sample_record as [[fb|e] w'] eqn:Hr; [|discriminate Hok].
  apply (recorded_feedback_is_listed sample_outside sample_outside quiet_settles (fun n d H => H) quiet_settles (fun n d H => H)
    (fun n d H => H) (fun n => eq_refl) 1 sample_run_id sample_finding_id ANNOTATE (Some (u " see the contract "))
    (CognitoOwnerPrincipal (u "issuer") (u "subject")) after_sample fb w' w' after_wf Hr);
    [reflexivity|exact Hw|exact Hread].
Defined.
