(* ===== verification/LexicalRetrieval.v ===== *)
(** * Lexical retrieval ([lexical_retrieval.py])

    The chunks of a project whose text matches a query, best first.  The
    statement joins the same tables as the lexical statement of hybrid
    retrieval, so its rows and their order are those of [Retrieval].

    ** Properties

    A search returns the best matching chunks of its project: all of them, or
    as many as the limit allows and none that is worse than one left out. *)
From Stdlib Require Import Floats.SpecFloat.
From stdpp Require Import sorting.
From S2P Require Import Prelude PyText Json JsonFacts AsciiRuntime Digest Effects Database DatabaseFacts.
From S2P Require Import JobTables Indexing DocumentTables IndexingStore IndexingStoreSpec Sessions Retrieval.
From S2P Require Import Fusion RetrievalSpec.

Definition LEXICAL_RETRIEVAL_VERSION : pystr := u "lexical-v1".
Definition MAX_LEXICAL_RESULT_LIMIT : Z := 100.

Record LexicalRetrievalFilters := {
  lf_version_ids : option (list uuid); lf_types : option (list pystr); lf_chunking_version : option pystr }.

Record LexicalCandidate := {
  lc_chunk_id : uuid; lc_project_id : uuid; lc_version_id : uuid; lc_location_id : uuid;
  lc_type : pystr; lc_chunking_version : pystr; lc_ordinal : Z; lc_text : pystr;
  lc_score : spec_float; lc_rank : Z }.

Record LexicalRetrievalResponse := {
  lr_version : pystr; lr_query : pystr; lr_project_id : uuid; lr_candidates : list LexicalCandidate }.

(** The conditions on versions, types and chunking are those of the hybrid
    statement, which reads nothing else of its filters there. *)
Definition candidate_filters (f : LexicalRetrievalFilters) : HybridRetrievalFilters := {|
  f_model := []; f_version := []; f_version_ids := lf_version_ids f; f_types := lf_types f;
  f_chunking_version := lf_chunking_version f |}.

Section search.
Context {rt : PyRuntime} {engine : SearchEngine}.

(** [LexicalRetrievalFilters.validate] *)
Definition validate_lexical_filters (f : LexicalRetrievalFilters) : result unit :=
  raise_if (match lf_types f with
            | Some types => bool_decide (types = []) || existsb blank types
            | None => false
            end) ValueError "Document type filters must be non-empty" ;;
  raise_if (match lf_chunking_version f with Some v => blank v | None => false end) ValueError
    "Chunking version filter must be non-empty".

(** The rows that match, in the statement's order. *)
Definition matching_rows (project_id : uuid) (query : pystr) (f : LexicalRetrievalFilters) (d : doc_db) :
    list scored :=
  merge_sort lexical_le
    (omap (lexical_score_of query) (candidate_statement project_id (candidate_filters f) d)).
Definition lexical_statement (project_id : uuid) (query : pystr) (f : LexicalRetrievalFilters) (limit : Z)
    (d : doc_db) : list scored :=
  take (Z.to_nat limit) (matching_rows project_id query f d).

Definition lexical_result (index : Z) (row : scored) : LexicalCandidate := {|
  lc_chunk_id := chk_id row.1.1; lc_project_id := doc_project_id row.1.2;
  lc_version_id := chk_version_id row.1.1; lc_location_id := chk_location_id row.1.1;
  lc_type := document_type row.1.2; lc_chunking_version := chk_chunking_version row.1.1;
  lc_ordinal := chk_ordinal row.1.1; lc_text := chk_text row.1.1; lc_score := row.2; lc_rank := index |}.

Section store.
Context {E : Type} (o : outside).

(** [SqlAlchemyLexicalRetrievalStore.search] *)
Definition sql_search (project_id : uuid) (query : pystr) (f : LexicalRetrievalFilters) (limit : Z) :
    io (world E) (list LexicalCandidate) :=
  lift (validate_lexical_filters f) ;;
  rows ← io_try (observes o (lexical_statement project_id query f limit))
           is_SQLAlchemyError (fun _ => io_raise LexicalRetrievalUnavailable "");
  mret (enumerate lexical_result rows).

(** [LexicalRetrievalService.search] *)
Definition lexical_search (project_id : uuid) (query : pystr) (f : LexicalRetrievalFilters) (limit : Z) :
    io (world E) LexicalRetrievalResponse :=
  let normalized_query := join (u " ") (split_ws query) in
  lift (raise_if (bool_decide (normalized_query = []) || negb (existsb cp_isalnum normalized_query))
          ValueError "Lexical query must contain searchable text") ;;
  lift (raise_if ((limit <? 1) || (MAX_LEXICAL_RESULT_LIMIT <? limit)) ValueError
          "Lexical result limit must be between 1 and 100") ;;
  lift (validate_lexical_filters f) ;;
  candidates ← sql_search project_id normalized_query f limit;
  mret {| lr_version := LEXICAL_RETRIEVAL_VERSION; lr_query := normalized_query;
          lr_project_id := project_id; lr_candidates := candidates |}.
End store.
End search.

(** * Properties *)

Section lexical.
Context {rt : PyRuntime} {engine : SearchEngine}.

(** A row of the statement: a chunk with its document and its score. *)
Record matches (p : uuid) (q : pystr) (f : LexicalRetrievalFilters) (d : doc_db) (row : scored) : Prop := {
  ma_chunk : chunk_rows d !! chk_id row.1.1 = Some row.1.1;
  ma_document : exists version, versions d !! chk_version_id row.1.1 = Some version /\
    documents (queues d) !! ver_document_id version = Some row.1.2;
  ma_project : doc_project_id row.1.2 = p;
  ma_filters : passes_filters (candidate_filters f) row.1.1 row.1.2 = true;
  ma_score : ts_rank_cd (chk_text row.1.1) q = Some row.2;
}.

(** The best rows of those that satisfy [P], best first. *)
Record best (P : scored -> Prop) (limit : Z) (rows : list scored) : Prop := {
  be_distinct : NoDup ((fun row => chk_id row.1.1) <$> rows);
  be_sorted : StronglySorted lexical_le rows;
  be_limit : zlen rows <= limit;
  be_sound : forall row, row ∈ rows -> P row;
  be_complete : forall row, P row -> row ∈ rows \/ (zlen rows = limit /\ forall r, r ∈ rows -> lexical_le r row);
}.

Lemma matching_rows_elem p q f d row : keyed chk_id (chunk_rows d) ->
  row ∈ matching_rows p q f d <-> matches p q f d row.
Proof.
  intros Hk. unfold matching_rows. rewrite merge_sort_Permutation, list_elem_of_omap. split.
  - intros (r & (chunk & Hc & Hj)%list_elem_of_omap & Hs). unfold lexical_score_of in Hs.
    apply bind_Some in Hs as (score & Hscore & Hs). injection Hs as <-.
    apply list_elem_of_fmap in Hc as ([i c] & -> & Hi%elem_of_map_to_list). cbn in Hj.
    apply join_document_Some in Hj as (<- & version & Hv & Hd & Hp & Hf). pose proof (Hk _ _ Hi) as <-.
    split; cbn; try done. by exists version.
  - destruct row as [[chunk document] score]. intros [Hc (version & Hv & Hd) Hp Hf Hs]. cbn in *.
    exists (chunk, document). split.
    + apply list_elem_of_omap. exists chunk. split.
      * apply list_elem_of_fmap. exists (chk_id chunk, chunk). split; [done|]. by apply elem_of_map_to_list.
      * unfold join_document. rewrite Hv. cbn. rewrite Hd. cbn. by rewrite Hp, N.eqb_refl, Hf.
    + unfold lexical_score_of. cbn. by rewrite Hs.
Qed.

Lemma sorted_take_drop {A} (R : relation A) n l x y : StronglySorted R l -> x ∈ take n l -> y ∈ drop n l -> R x y.
Proof.
  intros Hs. rewrite <- (take_drop n l) in Hs. intros Hx Hy. revert Hs Hx. generalize (take n l). intros k.
  induction k as [|a k IH]; cbn; [by intros _ ?%not_elem_of_nil|]. intros [Hs Hall]%StronglySorted_inv [->|Hx]%elem_of_cons.
  - rewrite Forall_forall in Hall. apply Hall, elem_of_app. by right.
  - by apply IH.
Qed.

Lemma lexical_statement_best p q f limit d : keyed chk_id (chunk_rows d) -> 0 <= limit ->
  best (matches p q f d) limit (lexical_statement p q f limit d).
Proof.
  intros Hk Hl. unfold lexical_statement.
  assert (StronglySorted lexical_le (matching_rows p q f d)) as Hs by (apply StronglySorted_merge_sort; apply _).
  assert (NoDup ((fun row : scored => chk_id row.1.1) <$> matching_rows p q f d)) as Hnd.
  { unfold matching_rows. rewrite merge_sort_Permutation.
    apply (omap_nodup _ (fun row : joined => chk_id row.1)); [|by apply statement_nodup].
    intros row s. unfold lexical_score_of. destruct (ts_rank_cd _ _); [|done]. by intros [= <-]. }
  set (n := Z.to_nat limit). set (rows := matching_rows p q f d) in *. split.
  - rewrite fmap_take. eapply sublist_NoDup; [exact Hnd|apply sublist_take].
  - rewrite <- (take_drop n rows) in Hs. by apply StronglySorted_app_1_l in Hs.
  - unfold zlen. rewrite length_take. lia.
  - intros row Hr. apply (matching_rows_elem p q f d row Hk). eapply elem_of_sublist; [exact Hr|apply sublist_take].
  - intros row Hm. apply (matching_rows_elem p q f d row Hk) in Hm. fold rows in Hm.
    rewrite <- (take_drop n rows) in Hm. apply elem_of_app in Hm as [Hm|Hm]; [by left|]. right.
    assert (n <= length rows)%nat as Hn.
    { apply list_elem_of_lookup in Hm as (i & Hi). rewrite lookup_drop in Hi. apply lookup_lt_Some in Hi. lia. }
    split; [unfold zlen; rewrite length_take; lia|]. intros r Hr. by apply (sorted_take_drop lexical_le n rows).
Qed.

(** ** The search *)

Context {E : Type} (o : outside).
Context (others_wf : forall n d, wf_doc d -> wf_doc (others_at o n d)).

(** The query as the statement sees it. *)
Definition searchable (raw q : pystr) : Prop := q = join (u " ") (split_ws raw) /\ q <> [] /\ existsb cp_isalnum q = true.

Lemma lexical_filters_raise f : raises (eq ValueError) (validate_lexical_filters f).
Proof using. unfold validate_lexical_filters. repeat first [apply raises_raise_if; done | raises_step]. Qed.

(** Next to sessions that keep the tables well formed, a lexical search
    writes nothing. It refuses bad arguments before it reads, or fails as
    unavailable, or returns the best matching chunks of its project under its
    filters, numbered from 1: no row left out is better than one returned, and
    none is left out when fewer than the limit match. *)
Theorem lexical_search_spec p raw f limit (w : world E) : wf_doc (tables w) ->
  match lexical_search o p raw f limit w with
  | (Ok r, w') => only_others o (tables w) (tables w') /\ lr_project_id r = p /\ searchable raw (lr_query r) /\
      1 <= limit <= MAX_LEXICAL_RESULT_LIMIT /\
      exists rows, lr_candidates r = enumerate lexical_result rows /\
        best (matches p (lr_query r) f (tables w')) limit rows
  | (Raise e, w') => (exn_cls e = ValueError /\ w' = w) \/
      (exn_cls e = LexicalRetrievalUnavailable /\ only_others o (tables w) (tables w'))
  end.
Proof using others_wf.
  intros Hw. unfold lexical_search. cbv zeta. set (q := join (u " ") (split_ws raw)).
  rewrite io_bind_eq. unfold lift at 1. destruct (bool_decide (q = []) || negb (existsb cp_isalnum q)) eqn:Hq; [by left|].
  apply orb_false_iff in Hq as [Hne%bool_decide_eq_false Ha%negb_false_iff]. cbn [raise_if].
  rewrite io_bind_eq. unfold lift at 1. destruct ((limit <? 1) || (MAX_LEXICAL_RESULT_LIMIT <? limit)) eqn:Hl; [by left|].
  apply orb_false_iff in Hl as [Hl1%Z.ltb_ge Hl2%Z.ltb_ge]. cbn [raise_if].
  pose proof (lexical_filters_raise f) as Hr. rewrite io_bind_eq. unfold lift at 1.
  destruct (validate_lexical_filters f) as [[]|e] eqn:Hf; [|left; split; [symmetry; by apply Hr|done]].
  rewrite io_bind_eq. unfold sql_search. rewrite io_bind_eq. unfold lift at 1. rewrite Hf.
  rewrite io_bind_eq. unfold io_try. destruct (observes_run o (lexical_statement p q f limit) w) as (n & Ht & Hrows).
  destruct (observes o (lexical_statement p q f limit) w) as [[rows|e] w1]; cbn [fst snd] in Ht, Hrows.
  - assert (only_others o (tables w) (tables w1)) as Ho by (apply rtc_once; by exists n). rewrite <- Ht in Hrows. cbn.
    split; [done|]. split; [done|]. split; [done|]. split; [lia|]. exists rows. split; [done|]. subst rows.
    apply lexical_statement_best; [|lia]. rewrite Ht. apply wd_chunks. by apply others_wf.
  - rewrite Hrows. cbn. right. split; [done|]. apply rtc_once. by exists n.
Qed.
End lexical.

(** ** A concrete search *)

Definition all_texts : LexicalRetrievalFilters := {|
  lf_version_ids := None; lf_types := None; lf_chunking_version := Some (u "c") |}.
Definition sample_search : result LexicalRetrievalResponse * world unit :=
  lexical_search sample_outside 1 (u " x ") all_texts 20 sql_once.

Example sample_found :
  (fun r => (fun c => (lc_chunk_id c, lc_rank c)) <$> lr_candidates r) <$> sample_search.1 = Ok [(11%N, 1)].
Proof. vm_compute. reflexivity. Qed.

Lemma lexical_search_spec_witness :
  wf_doc (tables sql_once) /\
  match sample_search with
  | (Ok r, w') => only_others sample_outside (tables sql_once) (tables w') /\ lr_project_id r = 1%N /\
      searchable (u " x ") (lr_query r) /\ 1 <= 20 <= MAX_LEXICAL_RESULT_LIMIT /\
      exists rows, lr_candidates r = enumerate lexical_result rows /\
        best (matches 1 (lr_query r) all_texts (tables w')) 20 rows
  | (Raise e, w') => (exn_cls e = ValueError /\ w' = sql_once) \/
      (exn_cls e = LexicalRetrievalUnavailable /\ only_others sample_outside (tables sql_once) (tables w'))
  end.
Proof.
  split; [exact sql_once_wf|]. unfold sample_search.
  apply (lexical_search_spec sample_outside (fun n d H => H) 1 (u " x ") all_texts 20 sql_once sql_once_wf).
Defined.
