(* ===== verification/OpenApiParser.v ===== *)
(** * OpenAPI documents ([openapi_parser.py])

    The fail-closed parser: a document is loaded from JSON or YAML into inert
    data, bounded, checked for references, and read for its operations and
    schemas.  The YAML library is an interface: the tokens it scans and the
    node graph it composes.

    ** Properties

    What an accepted document is: bounded data with unique keys and local
    references only, whose operations are found where their pointers say. *)
From Stdlib Require Import SpecFloat.
From S2P Require Import Prelude PyText Json Digest JsonFacts AsciiRuntime GeneratedTests Url.
From S2P Require Import RestrictedExecution Redaction JsonPointer.

Definition MAX_DEPTH : Z := 40.
Definition MAX_NODES : Z := 25000.
Definition MAX_MEMBERS : Z := 10000.
Definition MAX_SCALAR_LENGTH : Z := 65536.
Definition MAX_REFERENCES : Z := 500.
Definition MAX_OPERATIONS : Z := 500.
Definition MAX_COMPONENTS : Z := 5000.
Definition METHODS : list pystr :=
  [u "get"; u "put"; u "post"; u "delete"; u "options"; u "head"; u "patch"; u "trace"].
Definition YAML_TAG_PREFIX : pystr := u "tag:yaml.org,2002:".

Record OpenApiOperation := {
  op_path : pystr; op_method : pystr; op_pointer : pystr; op_security : list json }.
Record OpenApiSchema := { sch_name : pystr; sch_pointer : pystr }.
Record ParsedOpenApi := {
  po_version : pystr; po_operations : list OpenApiOperation; po_schemas : list OpenApiSchema;
  po_security : list json }.

Definition rejected {A} (code : string) : result A := raise OpenApiParseRejected code.
Definition rejected_if (c : bool) (code : string) : result unit := raise_if c OpenApiParseRejected code.

(** [_escape] *)
Definition escape (value : pystr) : pystr := replace (u "/") (u "~1") (replace (u "~") (u "~0") value).

(** [_security] *)
Definition security_of (value : option json) : list json :=
  match value with Some (JList l) => l | _ => [] end.

(** ** The YAML library *)

Inductive yaml_token :=
  | DirectiveToken | DocumentStartToken | DocumentEndToken | AnchorToken | AliasToken | TagToken
  | OtherToken.

(** A node: its tag, whether it has an anchor, and its content. *)
Inductive yaml_node :=
  | ScalarNode (tag : pystr) (anchored : bool) (value : pystr)
  | SequenceNode (tag : pystr) (anchored : bool) (items : list yaml_node)
  | MappingNode (tag : pystr) (anchored : bool) (pairs : list (yaml_node * yaml_node))
  | OtherNode (tag : pystr) (anchored : bool).

Class YamlLibrary := {
  (** The tokens of a text, and what scanning raises after them. *)
  yaml_scan : pystr -> list yaml_token * option exn;
  (** [yaml.compose]: a subclass of [YAMLError] is one. *)
  yaml_compose : pystr -> result (option yaml_node);
}.

Definition node_tag (n : yaml_node) : pystr :=
  match n with ScalarNode t _ _ | SequenceNode t _ _ | MappingNode t _ _ | OtherNode t _ => t end.
Definition node_anchored (n : yaml_node) : bool :=
  match n with ScalarNode _ a _ | SequenceNode _ a _ | MappingNode _ a _ | OtherNode _ a => a end.

(** ** Strict JSON

    [json.loads] with [_reject_json_constant] and, when [unique], with
    [_reject_duplicate_pairs]: the same grammar as [Json.parse_value], less
    the constants and less repeated keys. *)
Section strict.
Context {rt : PyRuntime}.

Section decoder.
Variable unique : bool.

Definition strict_atom (s : pystr) : option (json * pystr) :=
  if existsb (fun w => starts_with (u w) s) ["NaN"; "Infinity"; "-Infinity"]%string then None
  else parse_atom s.

Fixpoint strict_value (fuel : nat) (s : pystr) : option (json * pystr) :=
  match fuel with
  | O => None
  | S fuel =>
      match s with
      | [] => None
      | c :: r =>
          if (c =? 34)%N then '(t, r) ← parse_str r; Some (JStr t, r)
          else if (c =? 91)%N then
            match expect 93 (skip_ws r) with
            | Some r => Some (JList [], r)
            | None => '(l, r) ← strict_elements fuel (skip_ws r); Some (JList l, r)
            end
          else if (c =? 123)%N then
            match expect 125 (skip_ws r) with
            | Some r => Some (JObj [], r)
            | None =>
                '(kvs, r) ← strict_members fuel (skip_ws r);
                if negb unique || no_repeats (keys kvs) then Some (JObj (dict_of kvs), r) else None
            end
          else strict_atom s
      end
  end
with strict_elements (fuel : nat) (s : pystr) : option (list json * pystr) :=
  match fuel with
  | O => None
  | S fuel =>
      '(v, r) ← strict_value fuel s;
      match expect 44 (skip_ws r) with
      | Some r => '(l, r) ← strict_elements fuel (skip_ws r); Some (v :: l, r)
      | None => r ← expect 93 (skip_ws r); Some ([v], r)
      end
  end
with strict_members (fuel : nat) (s : pystr) : option (list (pystr * json) * pystr) :=
  match fuel with
  | O => None
  | S fuel =>
      r ← expect 34 s;
      '(k, r) ← parse_str r;
      r ← expect 58 (skip_ws r);
      '(v, r) ← strict_value fuel (skip_ws r);
      match expect 44 (skip_ws r) with
      | Some r => '(kvs, r) ← strict_members fuel (skip_ws r); Some ((k, v) :: kvs, r)
      | None => r ← expect 125 (skip_ws r); Some ([(k, v)], r)
      end
  end.

Definition strict_loads (s : pystr) : option json :=
  let s := skip_ws s in
  '(v, rest) ← strict_value (2 * length s) s;
  match skip_ws rest with [] => Some v | _ => None end.

(** All that the decoder raises: what a hook raises is caught with the
    [JSONDecodeError], but not what a limit of the interpreter does. *)
Definition strict_json_loads (s : pystr) (code : string) : result json :=
  match decoder_limit stack_suffices strict_value s with
  | Some e => Raise e
  | None => or_raise (strict_loads s) (Exn OpenApiParseRejected code)
  end.
End decoder.

(** [_load_json] *)
Definition load_json (text : pystr) : result json :=
  strict_json_loads true text "OPENAPI_JSON_SYNTAX_INVALID".

(** ** YAML *)

Definition json_tag (name : string) : pystr := YAML_TAG_PREFIX ++ u name.
Definition JSON_TAGS : list pystr :=
  json_tag <$> ["map"; "seq"; "str"; "int"; "float"; "bool"; "null"]%string.

(** [_yaml_scalar_to_json] *)
Definition finite_float (x : spec_float) : bool :=
  match x with S754_zero _ | S754_finite _ _ _ => true | _ => false end.
Definition yaml_scalar_to_json (tag value : pystr) : result json :=
  if str_eqb tag (json_tag "str") then Ok (JStr value)
  else
    let tagged name := str_eqb tag (json_tag name) in
    v ← strict_json_loads false value "OPENAPI_YAML_SCALAR_INVALID";
    let accepted :=
      match v with
      | JNull => tagged "null"%string
      | JBool _ => tagged "bool"%string
      | JInt _ => tagged "int"%string
      | JFloat x => tagged "float"%string && finite_float x
      | _ => false
      end in
    if accepted then Ok v else rejected "OPENAPI_YAML_SCALAR_INVALID".

(** [_yaml_node_to_json] *)
Fixpoint yaml_node_to_json (node : yaml_node) : result json :=
  rejected_if (match node with ScalarNode _ _ v => str_eqb v (u "<<") | _ => false end)
    "OPENAPI_YAML_KEY_OR_MERGE_INVALID" ;;
  rejected_if (node_anchored node || negb (bool_decide (node_tag node ∈ JSON_TAGS)))
    "OPENAPI_YAML_TAG_OR_ALIAS_UNSUPPORTED" ;;
  match node with
  | MappingNode _ _ pairs =>
      JObj <$> (fix go (value : list (pystr * json)) (pairs : list (yaml_node * yaml_node)) :=
        match pairs with
        | [] => Ok value
        | (key_node, value_node) :: pairs =>
            key ← yaml_node_to_json key_node;
            match key with
            | JStr key =>
                rejected_if (bool_decide (key ∈ keys value) || str_eqb key (u "<<"))
                  "OPENAPI_YAML_KEY_OR_MERGE_INVALID" ;;
                item ← yaml_node_to_json value_node;
                go (dict_set key item value) pairs
            | _ => rejected "OPENAPI_YAML_KEY_OR_MERGE_INVALID"
            end
        end) [] pairs
  | SequenceNode _ _ items =>
      JList <$> (fix go (items : list yaml_node) :=
        match items with
        | [] => Ok []
        | item :: items => v ← yaml_node_to_json item; l ← go items; Ok (v :: l)
        end) items
  | ScalarNode tag _ value => yaml_scalar_to_json tag value
  | OtherNode _ _ => rejected "OPENAPI_YAML_NODE_UNSUPPORTED"
  end.

Context {yaml : YamlLibrary}.

(** The loop over the tokens: the first token that is refused decides. *)
Definition token_refusal (t : yaml_token) : option string :=
  match t with
  | DirectiveToken | DocumentStartToken | DocumentEndToken => Some "OPENAPI_YAML_DIRECTIVE_OR_MULTIDOCUMENT"%string
  | AnchorToken | AliasToken | TagToken => Some "OPENAPI_YAML_TAG_OR_ALIAS_UNSUPPORTED"%string
  | OtherToken => None
  end.
Definition check_tokens (tokens : list yaml_token) : result unit :=
  try_iter (fun t => match token_refusal t with Some code => rejected code | None => Ok tt end) tokens.

(** [_load_yaml] *)
Definition scan_and_compose (text : pystr) : result (option yaml_node) :=
  let '(tokens, stop) := yaml_scan text in
  check_tokens tokens ;;
  match stop with Some e => Raise e | None => yaml_compose text end.
Definition load_yaml (text : pystr) : result json :=
  node ← try_except (scan_and_compose text) (fun c => bool_decide (c = YAMLError))
           (fun _ => rejected "OPENAPI_YAML_SYNTAX_INVALID");
  node ← or_raise node (Exn OpenApiParseRejected "OPENAPI_YAML_EMPTY");
  yaml_node_to_json node.

(** ** Bounds *)

(** [_validate_value]: [nodes] is the counter that the calls share. *)
Fixpoint validate_value (depth : Z) (value : json) (nodes : Z) : result Z :=
  let nodes := nodes + 1 in
  rejected_if ((MAX_DEPTH <? depth) || (MAX_NODES <? nodes)) "OPENAPI_STRUCTURE_LIMIT" ;;
  match value with
  | JObj kvs =>
      rejected_if (MAX_MEMBERS <? zlen kvs) "OPENAPI_COLLECTION_LIMIT" ;;
      (fix go (kvs : list (pystr * json)) (nodes : Z) :=
        match kvs with
        | [] => Ok nodes
        | (key, item) :: kvs =>
            rejected_if ((MAX_DEPTH <? depth + 1) || (MAX_NODES <? nodes + 1)) "OPENAPI_STRUCTURE_LIMIT" ;;
            rejected_if (MAX_SCALAR_LENGTH <? zlen key) "OPENAPI_SCALAR_LIMIT" ;;
            nodes ← validate_value (depth + 1) item (nodes + 1);
            go kvs nodes
        end) kvs nodes
  | JList l =>
      rejected_if (MAX_MEMBERS <? zlen l) "OPENAPI_COLLECTION_LIMIT" ;;
      (fix go (l : list json) (nodes : Z) :=
        match l with
        | [] => Ok nodes
        | item :: l => nodes ← validate_value (depth + 1) item nodes; go l nodes
        end) l nodes
  | JStr s => rejected_if (MAX_SCALAR_LENGTH <? zlen s) "OPENAPI_SCALAR_LIMIT" ;; Ok nodes
  | _ => Ok nodes
  end.

(** ** References *)

Definition local_reference (child : json) : bool :=
  match child with
  | JStr s => starts_with (u "#/") s && negb (contains (u "%") s)
  | _ => false
  end.

(** [visit]: the references it appends. *)
Fixpoint visit (item : json) : result (list json) :=
  match item with
  | JObj kvs =>
      (fix go (kvs : list (pystr * json)) :=
        match kvs with
        | [] => Ok []
        | (key, child) :: kvs =>
            rejected_if (str_eqb key (u "$dynamicRef")) "OPENAPI_DYNAMIC_REFERENCE_UNSUPPORTED" ;;
            rejected_if (str_eqb key (u "$ref") && negb (local_reference child)) "OPENAPI_REFERENCE_UNSUPPORTED" ;;
            refs ← visit child;
            more ← go kvs;
            Ok ((if str_eqb key (u "$ref") then [child] else []) ++ refs ++ more)
        end) kvs
  | JList l =>
      (fix go (l : list json) :=
        match l with
        | [] => Ok []
        | child :: l => refs ← visit child; more ← go l; Ok (refs ++ more)
        end) l
  | _ => Ok []
  end.
Definition validate_references (value : json) : result unit :=
  refs ← visit value;
  rejected_if (MAX_REFERENCES <? zlen refs) "OPENAPI_REFERENCE_LIMIT".

(** ** The document *)

(** [value.get(name, {})], which must be an object *)
Definition object_member (name : string) (value : list (pystr * json)) (code : string) :
    result (list (pystr * json)) :=
  match dict_get (u name) value with
  | None => Ok []
  | Some (JObj kvs) => Ok kvs
  | Some _ => rejected code
  end.

Definition supported_version (value : option json) : option pystr :=
  match value with
  | Some (JStr v) => if starts_with (u "3.0.") v || starts_with (u "3.1.") v then Some v else None
  | _ => None
  end.

Definition check_schemas (value : list (pystr * json)) : result (list (pystr * json)) :=
  components ← object_member "components" value "OPENAPI_COMPONENTS_OBJECT_REQUIRED";
  schemas ← object_member "schemas" components "OPENAPI_SCHEMAS_OBJECT_REQUIRED";
  rejected_if (MAX_COMPONENTS <? zlen schemas) "OPENAPI_COMPONENT_LIMIT" ;;
  Ok schemas.

(** [_parse_openapi_root] *)
Definition parse_openapi_root (document_type : pystr) (raw : bytes) :
    result (pystr * list (pystr * json)) :=
  let is_json := str_eqb document_type (u "openapi-json") in
  rejected_if (negb (is_json || str_eqb document_type (u "openapi-yaml")))
    "OPENAPI_DOCUMENT_TYPE_UNSUPPORTED" ;;
  text ← or_raise (utf8_decode raw) (Exn OpenApiParseRejected "OPENAPI_TEXT_ENCODING_INVALID");
  value ← (if is_json then load_json text else load_yaml text);
  validate_value 0 value 0 ;;
  match value with
  | JObj value =>
      version ← or_raise (supported_version (dict_get (u "openapi") value))
                  (Exn OpenApiParseRejected "OPENAPI_VERSION_UNSUPPORTED");
      validate_references (JObj value) ;;
      object_member "paths" value "OPENAPI_PATHS_OBJECT_REQUIRED" ;;
      check_schemas value ;;
      Ok (version, value)
  | _ => rejected "OPENAPI_ROOT_OBJECT_REQUIRED"
  end.

Definition is_method (method : pystr) : bool := bool_decide (str_lower method ∈ METHODS).

(** The operations of one path item. *)
Fixpoint item_operations (inherited : option json) (path : pystr) (path_item : list (pystr * json)) :
    result (list OpenApiOperation) :=
  match path_item with
  | [] => Ok []
  | (method, operation) :: path_item =>
      if negb (is_method method) then item_operations inherited path path_item
      else
        match operation with
        | JObj operation =>
            l ← item_operations inherited path path_item;
            Ok ({| op_path := path; op_method := str_lower method;
                   op_pointer := u "/paths/" ++ escape path ++ u "/" ++ method;
                   op_security := security_of
                     (match dict_get (u "security") operation with Some s => Some s | None => inherited end) |} :: l)
        | _ => rejected "OPENAPI_OPERATION_INVALID"
        end
  end.
Fixpoint path_operations (inherited : option json) (paths : list (pystr * json)) :
    result (list OpenApiOperation) :=
  match paths with
  | [] => Ok []
  | (path, path_item) :: paths =>
      rejected_if (negb (starts_with (u "/") path)) "OPENAPI_PATH_ITEM_INVALID" ;;
      match path_item with
      | JObj path_item =>
          operations ← item_operations inherited path path_item;
          l ← path_operations inherited paths;
          Ok (operations ++ l)
      | _ => rejected "OPENAPI_PATH_ITEM_INVALID"
      end
  end.

(** [parse_openapi] *)
Definition parse_openapi (document_type : pystr) (raw : bytes) : result ParsedOpenApi :=
  '(version, value) ← parse_openapi_root document_type raw;
  paths ← object_member "paths" value "OPENAPI_PATHS_OBJECT_REQUIRED";
  operations ← path_operations (dict_get (u "security") value) paths;
  rejected_if (MAX_OPERATIONS <? zlen operations) "OPENAPI_OPERATION_LIMIT" ;;
  schemas ← check_schemas value;
  Ok {| po_version := version; po_operations := operations;
        po_schemas := (fun kv => {| sch_name := kv.1; sch_pointer := u "/components/schemas/" ++ escape kv.1 |}) <$> schemas;
        po_security := security_of (dict_get (u "security") value) |}.
End strict.

(** * Properties *)

(** ** Unique keys *)

Fixpoint unique_keys (v : json) : bool :=
  match v with
  | JList l => forallb unique_keys l
  | JObj kvs => no_repeats (keys kvs) && forallb (fun kv => unique_keys kv.2) kvs
  | _ => true
  end.

Section strict.
Context {rt : PyRuntime}.

Lemma atom_unique s v r : parse_atom s = Some (v, r) -> unique_keys v = true.
Proof.
  unfold parse_atom. repeat (destruct (starts_with _ _); [by intros [= <- _]|]).
  unfold parse_number. destruct (split_sign s) as [neg s1]. intros ([int s2] & _ & H)%bind_Some.
  destruct (scan_frac s2) as [frac s3], (scan_exp s3) as [exp s4]. injection H as <- _. by destruct frac, exp.
Qed.

Lemma strict_sound fuel :
  (forall s v r, strict_value true fuel s = Some (v, r) -> parse_value fuel s = Some (v, r) /\ unique_keys v = true) /\
  (forall s l r, strict_elements true fuel s = Some (l, r) -> parse_elements fuel s = Some (l, r) /\ forallb unique_keys l = true) /\
  (forall s kvs r, strict_members true fuel s = Some (kvs, r) ->
     parse_members fuel s = Some (kvs, r) /\ forallb (fun kv => unique_keys kv.2) kvs = true).
Proof.
  induction fuel as [|fuel (IHv & IHe & IHm)]; [done|]. split; [|split].
  - intros [|c s] v r; [done|]. cbn [strict_value parse_value].
    destruct (c =? 34)%N; [intros ([t r'] & -> & [= <- <-])%bind_Some; done|].
    destruct (c =? 91)%N; [destruct (expect 93 (skip_ws s)); [by intros [= <- <-]|]|].
    { intros ([l r'] & [-> Hl]%IHe & [= <- <-])%bind_Some. done. }
    destruct (c =? 123)%N; [destruct (expect 125 (skip_ws s)); [by intros [= <- <-]|]|].
    { intros ([kvs r'] & [-> Hl]%IHm & H)%bind_Some. cbn [negb orb] in H. destruct (no_repeats (keys kvs)) eqn:Hn; [|done].
      injection H as <- <-. cbn. by rewrite dict_of_nodup, Hn, Hl by by apply bool_decide_eq_true in Hn. }
    unfold strict_atom. destruct (existsb _ _); [done|]. intros H. split; [done|by eapply atom_unique].
  - intros s l r. cbn [strict_elements parse_elements]. intros ([v r1] & [-> Hv]%IHv & H)%bind_Some. cbn in H |- *.
    destruct (expect 44 (skip_ws r1)).
    + apply bind_Some in H as ([l' r2] & [-> Hl]%IHe & [= <- <-]). cbn. by rewrite Hv.
    + apply bind_Some in H as (r2 & -> & [= <- <-]). cbn. by rewrite Hv.
  - intros s kvs r. cbn [strict_members parse_members]. intros (r0 & -> & ([k r1] & Hk & H)%bind_Some)%bind_Some.
    cbn. rewrite Hk. cbn. apply bind_Some in H as (r2 & -> & ([v r3] & [Hp Hv]%IHv & H)%bind_Some). cbn. rewrite Hp. cbn.
    destruct (expect 44 (skip_ws r3)).
    + apply bind_Some in H as ([l' r4] & [-> Hl]%IHm & [= <- <-]). cbn. by rewrite Hv.
    + apply bind_Some in H as (r4 & -> & [= <- <-]). cbn. by rewrite Hv.
Qed.

(** The strict loader gives what [json.loads] gives, and no key twice. *)
Lemma strict_loads_sound s v : strict_loads true s = Some v -> loads s = Some v /\ unique_keys v = true.
Proof.
  unfold strict_loads, loads. intros ([v' r] & [-> Hv]%strict_sound & H)%bind_Some. cbn.
  destruct (skip_ws r); [|done]. by injection H as <-.
Qed.

(** ** YAML *)

Section node_induction.
Variable P : yaml_node -> Prop.
Hypothesis Hscalar : forall t a v, P (ScalarNode t a v).
Hypothesis Hseq : forall t a l, Forall P l -> P (SequenceNode t a l).
Hypothesis Hmap : forall t a l, Forall (fun kv => P kv.1 /\ P kv.2) l -> P (MappingNode t a l).
Hypothesis Hother : forall t a, P (OtherNode t a).
Fixpoint yaml_node_strong (n : yaml_node) : P n :=
  match n with
  | ScalarNode t a v => Hscalar t a v
  | SequenceNode t a l => Hseq t a l
      ((fix go l : Forall P l :=
          match l with
          | [] => Forall_nil_2 _
          | n :: l => Forall_cons_2 _ _ _ (yaml_node_strong n) (go l)
          end) l)
  | MappingNode t a l => Hmap t a l
      ((fix go l : Forall (fun kv => P kv.1 /\ P kv.2) l :=
          match l with
          | [] => Forall_nil_2 _
          | (k, v) :: l =>
              Forall_cons_2 (fun kv => P kv.1 /\ P kv.2) (k, v) _ (conj (yaml_node_strong k) (yaml_node_strong v)) (go l)
          end) l)
  | OtherNode t a => Hother t a
  end.
End node_induction.

Lemma strict_json_loads_Ok unique s code v : strict_json_loads unique s code = Ok v -> strict_loads unique s = Some v.
Proof. unfold strict_json_loads. destruct (decoder_limit _ _ s); [done|]. by intros H%or_raise_Ok. Qed.

Lemma yaml_scalar_unique tag s v : yaml_scalar_to_json tag s = Ok v -> unique_keys v = true.
Proof.
  unfold yaml_scalar_to_json. destruct (str_eqb _ _); [by intros [= <-]|]. cbv zeta. intros (w & _ & H)%bind_Ok.
  destruct (_ : bool) eqn:Ha in H; [injection H as <-|done]. by destruct w.
Qed.

Lemma yaml_unique n : forall v, yaml_node_to_json n = Ok v -> unique_keys v = true.
Proof.
  induction n as [t a s|t a l IH|t a l IH|t a] using yaml_node_strong; intros v H; cbn [yaml_node_to_json] in H;
    apply bind_Ok in H as (_ & _ & H); apply bind_Ok in H as (_ & _ & H).
  - by eapply yaml_scalar_unique.
  - apply fmap_Ok in H as (vs & H & ->). cbn. revert vs H. induction IH as [|n l Hn _ IH]; intros vs H; [by injection H as <-|].
    apply bind_Ok in H as (v & Hv & H). apply bind_Ok in H as (l' & Hl & [= <-]). cbn. by rewrite (Hn _ Hv), (IH _ Hl).
  - apply fmap_Ok in H as (kvs & H & ->). cbn.
    assert (NoDup (keys (@nil (pystr * json))) /\ forallb (fun kv : pystr * json => unique_keys kv.2) [] = true) as Hacc
      by (split; [constructor|done]).
    revert Hacc kvs H. generalize (@nil (pystr * json)). induction IH as [|[kn vn] l [_ Hvn] _ IH]; intros acc [Hnd Hacc] kvs H.
    + injection H as <-. unfold no_repeats. by rewrite bool_decide_true, Hacc.
    + apply bind_Ok in H as ([|b|z|x|key|l'|kvs'] & _ & H); try done. apply bind_Ok in H as ([] & Hnew & H).
      apply raise_if_Ok in Hnew. apply bind_Ok in H as (item & Hi & H). bools.
      assert (key ∉ keys acc) as Hfresh by done. eapply IH; [|exact H]. rewrite dict_set_fresh by done. split.
      * unfold keys in *. rewrite fmap_app. apply NoDup_app. split; [done|]. split; [|apply NoDup_singleton].
        intros x Hx ->%list_elem_of_singleton. done.
      * rewrite forallb_app, Hacc. cbn. by rewrite (Hvn _ Hi).
  - done.
Qed.
End strict.

(** ** Bounds *)

(** The values of a document, keys counted. *)
Fixpoint json_size (v : json) : Z :=
  match v with
  | JList l => 1 + foldr (fun v n => json_size v + n) 0 l
  | JObj kvs => 1 + foldr (fun kv n => 1 + json_size kv.2 + n) 0 kvs
  | _ => 1
  end.

(** No value deeper than the limit, no wide collection, no long text. *)
Fixpoint within (depth : Z) (v : json) : bool :=
  (depth <=? MAX_DEPTH) &&
  match v with
  | JList l => (zlen l <=? MAX_MEMBERS) && forallb (within (depth + 1)) l
  | JObj kvs => (zlen kvs <=? MAX_MEMBERS) &&
      forallb (fun kv => (depth + 1 <=? MAX_DEPTH) && (zlen kv.1 <=? MAX_SCALAR_LENGTH) && within (depth + 1) kv.2) kvs
  | JStr s => zlen s <=? MAX_SCALAR_LENGTH
  | _ => true
  end.

Definition check_members (depth : Z) : list (pystr * json) -> Z -> result Z :=
  fix go kvs nodes :=
    match kvs with
    | [] => Ok nodes
    | (key, item) :: kvs =>
        rejected_if ((MAX_DEPTH <? depth + 1) || (MAX_NODES <? nodes + 1)) "OPENAPI_STRUCTURE_LIMIT" ;;
        rejected_if (MAX_SCALAR_LENGTH <? zlen key) "OPENAPI_SCALAR_LIMIT" ;;
        nodes ← validate_value (depth + 1) item (nodes + 1);
        go kvs nodes
    end.
Definition check_items (depth : Z) : list json -> Z -> result Z :=
  fix go l nodes :=
    match l with
    | [] => Ok nodes
    | item :: l => nodes ← validate_value (depth + 1) item nodes; go l nodes
    end.

Lemma validate_value_obj depth kvs nodes : validate_value depth (JObj kvs) nodes =
  (rejected_if ((MAX_DEPTH <? depth) || (MAX_NODES <? nodes + 1)) "OPENAPI_STRUCTURE_LIMIT" ;;
   rejected_if (MAX_MEMBERS <? zlen kvs) "OPENAPI_COLLECTION_LIMIT" ;;
   check_members depth kvs (nodes + 1)).
Proof. reflexivity. Qed.
Lemma validate_value_list depth l nodes : validate_value depth (JList l) nodes =
  (rejected_if ((MAX_DEPTH <? depth) || (MAX_NODES <? nodes + 1)) "OPENAPI_STRUCTURE_LIMIT" ;;
   rejected_if (MAX_MEMBERS <? zlen l) "OPENAPI_COLLECTION_LIMIT" ;;
   check_items depth l (nodes + 1)).
Proof. reflexivity. Qed.

(** A check passes exactly when its condition is false. *)
Lemma rejected_if_then {A} c code (m : result A) x : (rejected_if c code ;; m) = Ok x <-> c = false /\ m = Ok x.
Proof. destruct c; cbn; [split; [discriminate|by intros []]|naive_solver]. Qed.

Lemma size_positive v : 1 <= json_size v.
Proof.
  induction v as [| | | | |l IH|kvs IH] using json_rect_strong; cbn [json_size]; try lia.
  - enough (0 <= foldr (fun v n => json_size v + n) 0 l) by lia. induction IH as [|v l Hv _ IH]; cbn [foldr]; lia.
  - enough (0 <= foldr (fun kv n => 1 + json_size kv.2 + n) 0 kvs) by lia.
    induction IH as [|kv kvs Hv _ IH]; cbn [foldr]; lia.
Qed.

Definition members_size (kvs : list (pystr * json)) : Z := foldr (fun kv n => 1 + json_size kv.2 + n) 0 kvs.
Definition items_size (l : list json) : Z := foldr (fun v n => json_size v + n) 0 l.

Definition counted (depth : Z) (v : json) : Prop := forall nodes m,
  validate_value depth v nodes = Ok m <-> within depth v = true /\ m = nodes + json_size v /\ m <= MAX_NODES.

Lemma items_nonneg l : 0 <= items_size l.
Proof. induction l as [|v l IH]; cbn; [lia|]. pose proof (size_positive v). unfold items_size in IH. lia. Qed.
Lemma members_nonneg kvs : 0 <= members_size kvs.
Proof. induction kvs as [|kv kvs IH]; cbn; [lia|]. pose proof (size_positive kv.2). unfold members_size in IH. lia. Qed.

Lemma check_items_Ok depth l : Forall (counted (depth + 1)) l -> forall nodes m, nodes <= MAX_NODES ->
  check_items depth l nodes = Ok m <-> forallb (within (depth + 1)) l = true /\ m = nodes + items_size l /\ m <= MAX_NODES.
Proof.
  induction 1 as [|v l Hv _ IH]; intros nodes m Hn; cbn [check_items forallb].
  - split; [intros [= <-]; cbn; split_and!; [done|lia|lia]|]. intros (_ & -> & _). cbn. f_equal. lia.
  - rewrite bind_Ok, andb_true_iff. change (items_size (v :: l)) with (json_size v + items_size l).
    pose proof (items_nonneg l). split.
    + intros (n1 & (Hw & -> & Hle)%Hv & (Hws & -> & Hle2)%IH); [|done]. split_and!; [done|done|lia|lia].
    + intros ([Hw Hws] & -> & Hle). exists (nodes + json_size v). split; [apply Hv; split_and!; [done|done|lia]|].
      apply IH; [lia|]. split_and!; [done|lia|lia].
Qed.

Lemma check_members_Ok depth kvs : Forall (fun kv => counted (depth + 1) kv.2) kvs -> forall nodes m, nodes <= MAX_NODES ->
  check_members depth kvs nodes = Ok m <->
  forallb (fun kv => (depth + 1 <=? MAX_DEPTH) && (zlen kv.1 <=? MAX_SCALAR_LENGTH) && within (depth + 1) kv.2) kvs = true /\
  m = nodes + members_size kvs /\ m <= MAX_NODES.
Proof.
  induction 1 as [|[k v] kvs Hv _ IH]; intros nodes m Hn; cbn [check_members forallb fst snd].
  - split; [intros [= <-]; cbn; split_and!; [done|lia|lia]|]. intros (_ & -> & _). cbn. f_equal. lia.
  - rewrite !rejected_if_then, bind_Ok, !andb_true_iff, orb_false_iff, !Z.ltb_ge, !Z.leb_le. cbn [snd] in Hv.
    change (members_size ((k, v) :: kvs)) with (1 + json_size v + members_size kvs).
    pose proof (members_nonneg kvs). pose proof (size_positive v). split.
    + intros ([Hd Hn1] & Hk & n1 & (Hw & -> & Hle)%Hv & (Hws & -> & Hle2)%IH); [|done]. split_and!; try done; lia.
    + intros ((([Hd Hk] & Hw) & Hws) & -> & Hle). split_and!; [done|lia|done|]. exists (nodes + 1 + json_size v).
      split; [apply Hv; split_and!; [done|done|lia]|]. apply IH; [lia|]. split_and!; [done|lia|lia].
Qed.

(** Validating counts the values and accepts exactly what is within bounds. *)
Lemma validate_value_Ok v : forall depth, counted depth v.
Proof.
  assert (forall depth nodes m, (rejected_if ((MAX_DEPTH <? depth) || (MAX_NODES <? nodes + 1)) "OPENAPI_STRUCTURE_LIMIT" ;; Ok (nodes + 1))
      = Ok m <-> (depth <=? MAX_DEPTH) && true = true /\ m = nodes + 1 /\ m <= MAX_NODES) as Hleaf.
  { intros depth nodes m. rewrite rejected_if_then, orb_false_iff, andb_true_r, !Z.ltb_ge, Z.leb_le. split.
    - intros ([? ?] & [= <-]). lia.
    - intros (? & -> & ?). split; [lia|done]. }
  induction v as [|b|z|x|s|l IH|kvs IH] using json_rect_strong; intros depth nodes m; try exact (Hleaf depth nodes m).
  - cbn [validate_value within json_size]. rewrite !rejected_if_then, orb_false_iff, andb_true_iff, !Z.ltb_ge, !Z.leb_le. split.
    + intros ([? ?] & ? & [= <-]). lia.
    + intros ([? ?] & -> & ?). split_and!; try lia. done.
  - rewrite validate_value_list, !rejected_if_then, orb_false_iff, !Z.ltb_ge. cbn [within json_size].
    rewrite !andb_true_iff, !Z.leb_le. fold (items_size l). pose proof (items_nonneg l).
    assert (Forall (counted (depth + 1)) l) as Hl by (eapply Forall_impl; [exact IH|]; intros v Hv; apply Hv). split.
    + intros ([? Hn] & ? & (? & -> & ?)%check_items_Ok); [|done..]. split_and!; try done; lia.
    + intros ((? & ? & ?) & -> & ?). split_and!; try done; [lia|]. apply check_items_Ok; [done|lia|]. split_and!; [done|lia|lia].
  - rewrite validate_value_obj, !rejected_if_then, orb_false_iff, !Z.ltb_ge. cbn [within json_size].
    rewrite !andb_true_iff, !Z.leb_le. fold (members_size kvs). pose proof (members_nonneg kvs).
    assert (Forall (fun kv : pystr * json => counted (depth + 1) kv.2) kvs) as Hl by (eapply Forall_impl; [exact IH|]; intros v Hv; apply Hv). split.
    + intros ([? Hn] & ? & (? & -> & ?)%check_members_Ok); [|done..]. split_and!; try done; lia.
    + intros ((? & ? & ?) & -> & ?). split_and!; try done; [lia|]. apply check_members_Ok; [done|lia|]. split_and!; [done|lia|lia].
Qed.

(** ** References *)

Definition visit_members : list (pystr * json) -> result (list json) :=
  fix go kvs :=
    match kvs with
    | [] => Ok []
    | (key, child) :: kvs =>
        rejected_if (str_eqb key (u "$dynamicRef")) "OPENAPI_DYNAMIC_REFERENCE_UNSUPPORTED" ;;
        rejected_if (str_eqb key (u "$ref") && negb (local_reference child)) "OPENAPI_REFERENCE_UNSUPPORTED" ;;
        refs ← visit child;
        more ← go kvs;
        Ok ((if str_eqb key (u "$ref") then [child] else []) ++ refs ++ more)
    end.
Definition visit_items : list json -> result (list json) :=
  fix go l :=
    match l with
    | [] => Ok []
    | child :: l => refs ← visit child; more ← go l; Ok (refs ++ more)
    end.

Lemma visit_obj kvs : visit (JObj kvs) = visit_members kvs.
Proof. reflexivity. Qed.
Lemma visit_list l : visit (JList l) = visit_items l.
Proof. reflexivity. Qed.

Lemma visit_items_Ok l : forall refs, visit_items l = Ok refs ->
  forall c, c ∈ l -> exists r, visit c = Ok r /\ r ⊆ refs.
Proof.
  induction l as [|v l IH]; intros refs H; cbn [visit_items] in H; [by intros c ?%not_elem_of_nil|].
  apply bind_Ok in H as (r & Hr & (more & Hm & [= <-])%bind_Ok). intros c [->|Hc]%elem_of_cons.
  - exists r. split; [done|]. intros x Hx. apply elem_of_app. by left.
  - destruct (IH _ Hm c Hc) as (r' & Hr' & Hs). exists r'. split; [done|]. intros x Hx. apply elem_of_app. right. by apply Hs.
Qed.

Lemma visit_members_Ok kvs : forall refs, visit_members kvs = Ok refs ->
  forall k c, (k, c) ∈ kvs -> k <> u "$dynamicRef" /\
    (k = u "$ref" -> local_reference c = true /\ c ∈ refs) /\ exists r, visit c = Ok r /\ r ⊆ refs.
Proof.
  induction kvs as [|[k0 v] kvs IH]; intros refs H; cbn [visit_members] in H; [by intros k c ?%not_elem_of_nil|].
  apply rejected_if_then in H as [Hd H]. apply rejected_if_then in H as [Hl H].
  apply bind_Ok in H as (r & Hr & (more & Hm & [= <-])%bind_Ok). intros k c [[= -> ->]|Hc]%elem_of_cons.
  - split; [by apply str_eqb_neq|]. split.
    + intros ->. rewrite str_eqb_refl in *. cbn in Hl. apply negb_false_iff in Hl. split; [done|]. cbn. left.
    + exists r. split; [done|]. intros x Hx. rewrite !elem_of_app. auto.
  - destruct (IH _ Hm k c Hc) as (Hk & Href & r' & Hr' & Hs). split; [done|]. split.
    + intros E. destruct (Href E) as [? ?]. split; [done|]. rewrite !elem_of_app. auto.
    + exists r'. split; [done|]. intros x Hx. rewrite !elem_of_app. auto.
Qed.

(** Every reference in a document, at any depth, is a fragment of it. *)
Lemma visit_references path : forall v refs, visit v = Ok refs ->
  lookup_path v (path ++ [Key (u "$dynamicRef")]) = None /\
  forall child, lookup_path v (path ++ [Key (u "$ref")]) = Some child -> local_reference child = true /\ child ∈ refs.
Proof.
  induction path as [|s path IH]; intros v refs H.
  - cbn [app]. destruct v as [|b|z|x|t|l|kvs]; try (split; [done|intros child [=]]).
    rewrite visit_obj in H. pose proof (visit_members_Ok _ _ H) as Hm. cbn [lookup_path foldl mbind option_bind descend]. split.
    + destruct (dict_get (u "$dynamicRef") kvs) as [c|] eqn:E; [|done]. apply dict_get_In, Hm in E as [Hne _]. by destruct Hne.
    + intros child E%dict_get_In. apply Hm in E as (_ & Href & _). by apply Href.
  - change ((s :: path) ++ ?q) with ([s] ++ (path ++ q)). rewrite !(lookup_path_app v [s]).
    cbn [lookup_path foldl mbind option_bind]. fold (lookup_path).
    destruct (descend v s) as [w|] eqn:E; [|split; [done|intros child [=]]].
    assert (exists r, visit w = Ok r /\ r ⊆ refs) as (r & Hr & Hsub).
    { destruct v as [|b|z|x|t|l|kvs], s as [k|i]; try done.
      - rewrite visit_list in H. by eapply visit_items_Ok, list_elem_of_lookup_2.
      - rewrite visit_obj in H. apply dict_get_In in E. by destruct (visit_members_Ok _ _ H _ _ E) as (_ & _ & ?). }
    destruct (IH w r Hr) as [Hd Href]. split; [exact Hd|]. intros child Hc. destruct (Href child Hc) as [? Hin].
    split; [done|]. by apply Hsub.
Qed.

Lemma local_reference_fragment child : local_reference child = true ->
  exists fragment, child = JStr (u "#/" ++ fragment) /\ contains (u "%") (u "#/" ++ fragment) = false.
Proof.
  destruct child as [| | | |s| |]; try done. cbn [local_reference]. intros [Hs Hc%negb_true_iff]%andb_true_iff.
  apply starts_with_prefix in Hs as [fragment ->]. by exists fragment.
Qed.

(** ** Accepted documents *)

Record document (root : list (pystr * json)) : Prop := {
  do_unique : unique_keys (JObj root) = true;
  do_bounded : within 0 (JObj root) = true /\ json_size (JObj root) <= MAX_NODES;
  do_references : forall path,
    lookup_path (JObj root) (path ++ [Key (u "$dynamicRef")]) = None /\
    forall child, lookup_path (JObj root) (path ++ [Key (u "$ref")]) = Some child ->
      exists fragment, child = JStr (u "#/" ++ fragment) /\ contains (u "%") (u "#/" ++ fragment) = false;
}.

Section accepted.
Context {rt : PyRuntime}.

(** The operation that a method of a path item holds. *)
Definition inherited_security (root : list (pystr * json)) (operation : list (pystr * json)) : list json :=
  security_of (match dict_get (u "security") operation with
               | Some s => Some s
               | None => dict_get (u "security") root
               end).
Definition operation_found (root : list (pystr * json)) (x : OpenApiOperation) : Prop :=
  exists method operation,
    is_method method = true /\ op_method x = str_lower method /\
    lookup_path (JObj root) [Key (u "paths"); Key (op_path x); Key method] = Some (JObj operation) /\
    starts_with (u "/") (op_path x) = true /\ op_security x = inherited_security root operation /\
    op_pointer x = u "/paths/" ++ escape (op_path x) ++ u "/" ++ method.

Lemma unique_dict_get k v kvs : unique_keys (JObj kvs) = true -> (k, v) ∈ kvs -> dict_get k kvs = Some v /\ unique_keys v = true.
Proof.
  cbn [unique_keys]. intros [Hn Hall]%andb_true_iff Hin. apply bool_decide_eq_true in Hn. split; [by apply dict_get_NoDup|].
  rewrite forallb_forall in Hall. apply (Hall (k, v)). by apply list_elem_of_In.
Qed.

Lemma item_operations_Ok root path item : forall l, item_operations (dict_get (u "security") root) path item = Ok l ->
  (forall x, x ∈ l -> op_path x = path /\ exists method operation, (method, JObj operation) ∈ item /\
     is_method method = true /\ op_method x = str_lower method /\
     op_pointer x = u "/paths/" ++ escape path ++ u "/" ++ method /\ op_security x = inherited_security root operation) /\
  (forall method v, (method, v) ∈ item -> is_method method = true ->
     exists x, x ∈ l /\ op_method x = str_lower method).
Proof.
  induction item as [|[m v] item IH]; intros l H; cbn [item_operations] in H.
  - injection H as <-. split; [by intros x ?%not_elem_of_nil|by intros m v ?%not_elem_of_nil].
  - destruct (negb (is_method m)) eqn:Hm.
    + destruct (IH l H) as [Hs Hc]. split.
      * intros x Hx. destruct (Hs x Hx) as (Hp & method & op & Hin & Hrest). split; [done|]. exists method, op. split; [by right|done].
      * intros method v' [[= -> ->]|Hin]%elem_of_cons Hi; [by rewrite Hi in Hm|by eapply Hc].
    + destruct v as [|b|z|y|t|k|operation]; try done. apply bind_Ok in H as (l' & Hl & [= <-]).
      destruct (IH l' Hl) as [Hs Hc]. apply negb_false_iff in Hm. split.
      * intros x [->|Hx]%elem_of_cons.
        { cbn. split; [done|]. exists m, operation. split; [left|done]. }
        destruct (Hs x Hx) as (Hp & method & op & Hin & Hrest). split; [done|]. exists method, op. split; [by right|done].
      * intros method v' [[= -> ->]|Hin]%elem_of_cons Hi; [eexists; split; [left|done]|].
        destruct (Hc _ _ Hin Hi) as (x & Hx & E). exists x. split; [by right|done].
Qed.

Lemma path_operations_Ok root paths : forall l, path_operations (dict_get (u "security") root) paths = Ok l ->
  (forall x, x ∈ l -> exists item method operation, (op_path x, JObj item) ∈ paths /\ (method, JObj operation) ∈ item /\
     starts_with (u "/") (op_path x) = true /\ is_method method = true /\ op_method x = str_lower method /\
     op_pointer x = u "/paths/" ++ escape (op_path x) ++ u "/" ++ method /\ op_security x = inherited_security root operation) /\
  (forall path item method v, (path, JObj item) ∈ paths -> (method, v) ∈ item -> is_method method = true ->
     exists x, x ∈ l /\ op_path x = path /\ op_method x = str_lower method).
Proof.
  induction paths as [|[p v] paths IH]; intros l H; cbn [path_operations] in H.
  - injection H as <-. split; [by intros x ?%not_elem_of_nil|by intros ? ? ? ? ?%not_elem_of_nil].
  - apply rejected_if_then in H as [Hp%negb_false_iff H]. destruct v as [|b|z|y|t|k|item]; try done.
    apply bind_Ok in H as (ops & Hops & (l' & Hl & [= <-])%bind_Ok).
    destruct (item_operations_Ok root p item ops Hops) as [Hs Hc]. destruct (IH l' Hl) as [Hs' Hc']. split.
    + intros x [Hx|Hx]%elem_of_app.
      * destruct (Hs x Hx) as (-> & method & op & Hin & Hm & Hlow & Hptr & Hsec). exists item, method, op. split; [left|done].
      * destruct (Hs' x Hx) as (it & method & op & Hin & Hrest). exists it, method, op. split; [by right|done].
    + intros path it method v [[= -> ->]|Hin]%elem_of_cons Hv Hm.
      * destruct (Hc method v Hv Hm) as (x & Hx & E). exists x. split; [apply elem_of_app; by left|].
        split; [by apply Hs in Hx as [-> _]|done].
      * destruct (Hc' _ _ _ _ Hin Hv Hm) as (x & Hx & E). exists x. split; [apply elem_of_app; by right|done].
Qed.

Lemma object_member_Ok name value code kvs : object_member name value code = Ok kvs ->
  dict_get (u name) value = Some (JObj kvs) \/ dict_get (u name) value = None /\ kvs = [].
Proof.
  unfold object_member. destruct (dict_get (u name) value) as [[|b|z|x|t|l|o]|]; try done.
  - intros [= ->]. by left.
  - intros [= <-]. by right.
Qed.

Lemma lookup_three root a b c kvs item v : dict_get a root = Some (JObj kvs) -> dict_get b kvs = Some (JObj item) ->
  dict_get c item = Some v -> lookup_path (JObj root) [Key a; Key b; Key c] = Some v.
Proof. intros Ha Hb Hc. unfold lookup_path. cbn. rewrite Ha. cbn. rewrite Hb. cbn. exact Hc. Qed.

Lemma lookup_three_inv root a b c v : lookup_path (JObj root) [Key a; Key b; Key c] = Some v ->
  exists kvs item, dict_get a root = Some (JObj kvs) /\ dict_get b kvs = Some (JObj item) /\ dict_get c item = Some v.
Proof.
  unfold lookup_path. cbn. destruct (dict_get a root) as [[| | | | |l|kvs]|]; try done. cbn.
  destruct (dict_get b kvs) as [[| | | | |l|item]|] eqn:E; try done. cbn. intros H. by exists kvs, item.
Qed.

Context {yaml : YamlLibrary}.

(** ** Errors *)

Abbreviation parse_error m := (raises (fun c => c = OpenApiParseRejected) m).

(** What leaves the parser besides: [m] raises its one exception, or one of [R]. *)
Definition refuses (R : exn -> Prop) {A} (m : result A) : Prop :=
  forall e, m = Raise e -> exn_cls e = OpenApiParseRejected \/ R e.

Lemma refuses_only R {A} (m : result A) : parse_error m -> refuses R m.
Proof. intros H e He. left. by apply H. Qed.
Lemma refuses_bind R {A B} (m : result A) (f : A -> result B) :
  refuses R m -> (forall a, m = Ok a -> refuses R (f a)) -> refuses R (m ≫= f).
Proof. intros Hm Hf e. destruct m as [a|e']; [by apply Hf|]. intros [= <-]. by apply Hm. Qed.
Lemma refuses_fmap R {A B} (m : result A) (f : A -> B) : refuses R m -> refuses R (f <$> m).
Proof. intros Hm e. destruct m as [a|e']; [done|]. intros [= <-]. by apply Hm. Qed.
Lemma refuses_weaken (R R' : exn -> Prop) {A} (m : result A) : refuses R m -> (forall e, R e -> R' e) -> refuses R' m.
Proof. intros Hm HR e He. destruct (Hm e He); auto. Qed.

Lemma strict_refuses b s code : refuses (fun e => decoder_limit stack_suffices (strict_value b) s = Some e) (strict_json_loads b s code).
Proof.
  unfold strict_json_loads. destruct (decoder_limit _ _ s) as [e|]; [intros e' [= <-]; by right|].
  apply refuses_only. by apply raises_or_raise.
Qed.

(** The text of a scalar of a node graph. *)
Inductive scalar_in (s : pystr) : yaml_node -> Prop :=
  | scalar_itself tag a : scalar_in s (ScalarNode tag a s)
  | scalar_item tag a items n : n ∈ items -> scalar_in s n -> scalar_in s (SequenceNode tag a items)
  | scalar_key tag a pairs k v : (k, v) ∈ pairs -> scalar_in s k -> scalar_in s (MappingNode tag a pairs)
  | scalar_value tag a pairs k v : (k, v) ∈ pairs -> scalar_in s v -> scalar_in s (MappingNode tag a pairs).
Definition scalar_limit (n : yaml_node) (e : exn) : Prop :=
  exists s, scalar_in s n /\ decoder_limit stack_suffices (strict_value false) s = Some e.

Lemma scalar_refuses tag a s : refuses (scalar_limit (ScalarNode tag a s)) (yaml_scalar_to_json tag s).
Proof.
  unfold yaml_scalar_to_json, rejected. destruct (str_eqb _ _); [apply refuses_only, raises_Ok|]. apply refuses_bind.
  - eapply refuses_weaken; [apply strict_refuses|]. intros e He. exists s. split; [constructor|exact He].
  - intros v _. apply refuses_only. cbv zeta. destruct (_ : bool); [apply raises_Ok|by apply raises_raise].
Qed.

Lemma node_refuses n : refuses (scalar_limit n) (yaml_node_to_json n).
Proof.
  induction n as [t a s|t a l IH|t a l IH|t a] using yaml_node_strong; cbn [yaml_node_to_json];
    (apply refuses_bind; [by apply refuses_only, raises_raise_if|intros _ _]);
    (apply refuses_bind; [by apply refuses_only, raises_raise_if|intros _ _]).
  - apply scalar_refuses.
  - apply refuses_fmap. assert (Forall (fun n => refuses (scalar_limit (SequenceNode t a l)) (yaml_node_to_json n)) l) as Hl.
    { apply Forall_forall. intros n Hn. rewrite Forall_forall in IH. eapply refuses_weaken; [by apply IH|].
      intros e (s & Hs & He). exists s. split; [by eapply scalar_item|done]. }
    clear IH. revert Hl. generalize (scalar_limit (SequenceNode t a l)). intros R.
    induction 1 as [|n l' Hn _ IHl]; [apply refuses_only, raises_Ok|].
    apply refuses_bind; [done|intros v _]. apply refuses_bind; [done|intros k _; apply refuses_only, raises_Ok].
  - apply refuses_fmap. assert (Forall (fun kv => refuses (scalar_limit (MappingNode t a l)) (yaml_node_to_json kv.1) /\
      refuses (scalar_limit (MappingNode t a l)) (yaml_node_to_json kv.2)) l) as Hl.
    { apply Forall_forall. intros [k v] Hn. rewrite Forall_forall in IH. destruct (IH _ Hn) as [Hk Hv].
      split; (eapply refuses_weaken; [eassumption|]); intros e (s & Hs & He); exists s; (split; [|done]);
        [by eapply scalar_key|by eapply scalar_value]. }
    clear IH. revert Hl. generalize (scalar_limit (MappingNode t a l)). intros R. generalize (@nil (pystr * json)).
    intros acc Hl. revert acc. induction Hl as [|[kn vn] l' [Hk Hv] _ IHl]; intros acc; [apply refuses_only, raises_Ok|].
    apply refuses_bind; [done|]. intros [| | | |key| |] _; try by apply refuses_only, raises_raise.
    apply refuses_bind; [by apply refuses_only, raises_raise_if|intros _ _]. apply refuses_bind; [done|intros item _]. apply IHl.
  - by apply refuses_only, raises_raise.
Qed.

(** An exception that is not the parser's: the decoder hits a limit of the
    interpreter on the text, or on a scalar of a YAML document, or the YAML
    library raises something that is no [YAMLError]. *)
Definition gave_up (document_type : pystr) (text : pystr) (e : exn) : Prop :=
  if str_eqb document_type (u "openapi-json") then decoder_limit stack_suffices (strict_value true) text = Some e
  else (exn_cls e <> YAMLError /\ ((yaml_scan text).2 = Some e \/ yaml_compose text = Raise e)) \/
       exists node, yaml_compose text = Ok (Some node) /\ scalar_limit node e.

Lemma load_refuses ty text :
  refuses (gave_up ty text) (if str_eqb ty (u "openapi-json") then load_json text else load_yaml text).
Proof.
  unfold gave_up. destruct (str_eqb ty _); [apply strict_refuses|]. unfold load_yaml.
  assert (forall e, scan_and_compose text = Raise e ->
    exn_cls e = OpenApiParseRejected \/ (yaml_scan text).2 = Some e \/ yaml_compose text = Raise e) as Hlib.
  { unfold scan_and_compose. destruct (yaml_scan text) as [tokens stop]. intros e.
    assert (parse_error (check_tokens tokens)) as Ht.
    { unfold check_tokens. apply raises_try_iter. intros t _. destruct (token_refusal t); [by apply raises_raise|apply raises_Ok]. }
    destruct (check_tokens tokens) as [[]|e'] eqn:Hc; [|intros [= ->]; left; by apply Ht].
    rewrite bind_ok. destruct stop as [e'|]; [|by right; right]. intros [= ->]. right. by left. }
  destruct (scan_and_compose text) as [node|e] eqn:Hs.
  - cbn [try_except]. rewrite bind_ok. destruct node as [node|]; [|by apply refuses_only, raises_raise].
    cbn [or_raise]. rewrite bind_ok. eapply refuses_weaken; [apply node_refuses|]. intros e He. right. exists node.
    split; [|done]. unfold scan_and_compose in Hs. destruct (yaml_scan text) as [tokens stop].
    apply bind_Ok in Hs as (_ & _ & Hs). by destruct stop.
  - cbn [try_except]. case_bool_decide as Hc; [by apply refuses_only, raises_raise|]. intros e' [= <-].
    destruct (Hlib e eq_refl); auto.
Qed.

Lemma validate_errors v : forall depth nodes, parse_error (validate_value depth v nodes).
Proof.
  assert (forall depth nodes, parse_error (rejected_if ((MAX_DEPTH <? depth) || (MAX_NODES <? nodes + 1)) "OPENAPI_STRUCTURE_LIMIT" ;; Ok (nodes + 1))) as Hleaf
    by (intros depth nodes; apply raises_bind; [by apply raises_raise_if|intros _ _; apply raises_Ok]).
  induction v as [| | | |s|l IH|kvs IH] using json_rect_strong; intros depth nodes; try exact (Hleaf depth nodes).
  - cbn [validate_value]. repeat (apply raises_bind; [by apply raises_raise_if|intros _ _]). apply raises_Ok.
  - rewrite validate_value_list. repeat (apply raises_bind; [by apply raises_raise_if|intros _ _]). generalize (nodes + 1).
    induction IH as [|v l Hv _ IH]; intros n; cbn [check_items]; [apply raises_Ok|]. apply raises_bind; [apply Hv|intros m _; apply IH].
  - rewrite validate_value_obj. repeat (apply raises_bind; [by apply raises_raise_if|intros _ _]). generalize (nodes + 1).
    induction IH as [|[k v] l Hv _ IH]; intros n; cbn [check_members]; [apply raises_Ok|].
    repeat (apply raises_bind; [by apply raises_raise_if|intros _ _]). apply raises_bind; [apply Hv|intros m _; apply IH].
Qed.

Lemma visit_errors v : parse_error (visit v).
Proof.
  induction v as [| | | |s|l IH|kvs IH] using json_rect_strong; try apply raises_Ok.
  - rewrite visit_list. induction IH as [|v l Hv _ IH]; cbn [visit_items]; [apply raises_Ok|].
    apply raises_bind; [done|intros r _]. apply raises_bind; [done|intros m _; apply raises_Ok].
  - rewrite visit_obj. induction IH as [|[k v] l Hv _ IH]; cbn [visit_members]; [apply raises_Ok|].
    repeat (apply raises_bind; [by apply raises_raise_if|intros _ _]).
    apply raises_bind; [done|intros r _]. apply raises_bind; [done|intros m _; apply raises_Ok].
Qed.

Lemma member_errors name value code : parse_error (object_member name value code).
Proof. unfold object_member. destruct (dict_get (u name) value) as [[| | | | | |]|]; by apply raises_Ok || by apply raises_raise. Qed.

Lemma schemas_errors value : parse_error (check_schemas value).
Proof.
  unfold check_schemas. apply raises_bind; [apply member_errors|intros c _]. apply raises_bind; [apply member_errors|intros s _].
  apply raises_bind; [by apply raises_raise_if|intros _ _; apply raises_Ok].
Qed.

(** What gives up on the bytes. *)
Definition gave_up_on (document_type : pystr) (raw : bytes) (e : exn) : Prop :=
  exists text, utf8_decode raw = Some text /\ gave_up document_type text e.

Lemma root_refuses ty raw : refuses (gave_up_on ty raw) (parse_openapi_root ty raw).
Proof.
  unfold parse_openapi_root. cbv zeta. apply refuses_bind; [by apply refuses_only, raises_raise_if|intros _ _].
  apply refuses_bind; [by apply refuses_only, raises_or_raise|intros text Ht%or_raise_Ok]. apply refuses_bind.
  { eapply refuses_weaken; [apply load_refuses|]. intros e He. by exists text. }
  intros v _. apply refuses_only.
  apply raises_bind; [apply validate_errors|intros n _]. destruct v; try by apply raises_raise.
  apply raises_bind; [by apply raises_or_raise|intros version _]. apply raises_bind.
  - unfold validate_references. apply raises_bind; [apply visit_errors|intros r _; by apply raises_raise_if].
  - intros _ _. apply raises_bind; [apply member_errors|intros p _]. apply raises_bind; [apply schemas_errors|intros s _; apply raises_Ok].
Qed.

Lemma operations_errors inherited paths : parse_error (path_operations inherited paths).
Proof.
  induction paths as [|[p v] paths IH]; cbn [path_operations]; [apply raises_Ok|]. apply raises_bind; [by apply raises_raise_if|intros _ _].
  destruct v as [| | | | | |item]; try by apply raises_raise. apply raises_bind.
  - induction item as [|[m v] item IHi]; cbn [item_operations]; [apply raises_Ok|]. destruct (negb (is_method m)); [done|].
    destruct v; try by apply raises_raise. apply raises_bind; [done|intros l _; apply raises_Ok].
  - intros ops _. apply raises_bind; [done|intros l _; apply raises_Ok].
Qed.

Lemma parse_refuses ty raw : refuses (gave_up_on ty raw) (parse_openapi ty raw).
Proof.
  unfold parse_openapi. apply refuses_bind; [apply root_refuses|]. intros [version value] _. apply refuses_only.
  apply raises_bind; [apply member_errors|intros p _]. apply raises_bind; [apply operations_errors|intros ops _].
  apply raises_bind; [by apply raises_raise_if|intros _ _]. apply raises_bind; [apply schemas_errors|intros s _; apply raises_Ok].
Qed.

(** ** The whole parser *)

Lemma load_unique (b : bool) text v : (if b then load_json text else load_yaml text) = Ok v -> unique_keys v = true.
Proof.
  destruct b; intros H.
  - by apply strict_json_loads_Ok, strict_loads_sound in H as [_ ?].
  - unfold load_yaml in H. apply bind_Ok in H as (? & _ & (n & _ & H)%bind_Ok). by eapply yaml_unique.
Qed.

Lemma supported_version_Some v version : supported_version v = Some version ->
  v = Some (JStr version) /\ starts_with (u "3.0.") version || starts_with (u "3.1.") version = true.
Proof.
  unfold supported_version. destruct v as [[| | | |s| |]|]; try done. destruct (_ || _) eqn:E; [|done]. by intros [= ->].
Qed.

Lemma root_Ok ty raw version root : parse_openapi_root ty raw = Ok (version, root) ->
  (ty = u "openapi-json" \/ ty = u "openapi-yaml") /\
  (ty = u "openapi-json" -> exists text, utf8_decode raw = Some text /\ loads text = Some (JObj root)) /\
  document root /\ dict_get (u "openapi") root = Some (JStr version) /\
  starts_with (u "3.0.") version || starts_with (u "3.1.") version = true.
Proof.
  unfold parse_openapi_root. cbv zeta. intros H. apply rejected_if_then in H as [Hty%negb_false_iff H].
  apply bind_Ok in H as (text & Ht%or_raise_Ok & H). apply bind_Ok in H as (v & Hv & H).
  apply bind_Ok in H as (n & Hn & H). destruct v as [| | | | | |kvs]; try done.
  apply bind_Ok in H as (ver & Hver%or_raise_Ok%supported_version_Some & H). destruct Hver as [Hver Hstart].
  apply bind_Ok in H as (? & Hrefs & H). apply bind_Ok in H as (? & _ & H). apply bind_Ok in H as (? & _ & [= <- <-]).
  apply validate_value_Ok in Hn as (Hw & En & Hle). pose proof (load_unique _ _ _ Hv) as Hu.
  split; [|split; [|split; [|split; [exact Hver|exact Hstart]]]].
  - apply orb_true_iff in Hty as [E|E]; apply str_eqb_eq in E; auto.
  - intros ->. exists text. split; [done|]. rewrite str_eqb_refl in Hv. 
    by apply strict_json_loads_Ok, strict_loads_sound in Hv as [? _].
  - unfold validate_references in Hrefs. apply bind_Ok in Hrefs as (refs & Hrefs & _). split; [exact Hu|split; [exact Hw|lia]|].
    intros path. destruct (visit_references path _ _ Hrefs) as [Hd Hr]. split; [exact Hd|]. intros child Hc.
    by apply local_reference_fragment, Hr.
Qed.

Context {laws : PyRuntimeLaws rt}.

Lemma escape_method method : is_ascii method = true -> is_method method = true -> escape method = method.
Proof using laws.
  intros Ha Hm%bool_decide_eq_true. rewrite lower_ascii in Hm by done. unfold escape.
  assert (forall c, ascii_to_lower c = c -> forallb (fun m => negb (bool_decide (c ∈ m))) METHODS = true -> c ∉ method) as Habs.
  { intros c Hc Hall Hin. rewrite forallb_forall in Hall. specialize (Hall _ (proj1 (list_elem_of_In _ _) Hm)).
    apply negb_true_iff, bool_decide_eq_false in Hall. apply Hall. apply list_elem_of_fmap. by exists c. }
  change (u "~") with [126%N]. change (u "/") with [47%N].
  rewrite (replace_absent 126 [] (u "~0") method) by (apply Habs; vm_compute; reflexivity).
  by rewrite (replace_absent 47 [] (u "~1") method) by (apply Habs; vm_compute; reflexivity).
Qed.

(** The pointer of an operation leads to it. *)
Lemma operation_pointer root x : operation_found root x -> (forall c, c ∈ op_pointer x -> (c < 128)%N) ->
  exists operation, json_pointer (Some (JObj root)) (op_pointer x) = JsonValue (JObj operation) /\
    op_security x = inherited_security root operation.
Proof using laws.
  intros (method & operation & Hm & _ & Hl & _ & Hs & Hp) Hascii. exists operation. split; [|exact Hs].
  assert (is_ascii method = true) as Ha.
  { unfold is_ascii. apply forallb_forall. intros c Hc%list_elem_of_In. apply N.ltb_lt, Hascii. rewrite Hp, !elem_of_app. auto. }
  rewrite Hp, <- (escape_method method Ha Hm).
  rewrite <- (proj1 (json_pointer_spec (JObj root)) [Key (u "paths"); Key (op_path x); Key method] (JObj operation) ltac:(done) Hl).
  f_equal. unfold pointer_of. cbn. by rewrite app_nil_r.
Qed.

(** C33: The parser fails closed. Whatever the bytes and whatever the YAML
    library does, either the document it accepted is bounded data without
    repeated keys in which every reference is a fragment of the document, JSON
    is read as the standard loader reads it, and the parsed operations are
    exactly the methods of its paths, each with its own or else the global
    security, and where its pointer is ASCII that pointer leads to it; or the
    parser raises its one exception; or another exception leaves it, and then
    the decoder hit the interpreter's stack or digit limit on the text or on a
    scalar of a composed YAML document, or the YAML library raised that
    exception, which is no YAMLError. *)
Theorem parse_openapi_spec ty raw :
  match parse_openapi ty raw with
  | Ok parsed => exists root, document root /\
      (ty = u "openapi-json" -> exists text, utf8_decode raw = Some text /\ loads text = Some (JObj root)) /\
      dict_get (u "openapi") root = Some (JStr (po_version parsed)) /\
      zlen (po_operations parsed) <= MAX_OPERATIONS /\ zlen (po_schemas parsed) <= MAX_COMPONENTS /\
      (forall x, x ∈ po_operations parsed -> operation_found root x /\
         ((forall c, c ∈ op_pointer x -> (c < 128)%N) ->
          exists operation, json_pointer (Some (JObj root)) (op_pointer x) = JsonValue (JObj operation) /\
            op_security x = inherited_security root operation)) /\
      (forall path method v, lookup_path (JObj root) [Key (u "paths"); Key path; Key method] = Some v ->
         is_method method = true ->
         exists x, x ∈ po_operations parsed /\ op_path x = path /\ op_method x = str_lower method)
  | Raise e => exn_cls e = OpenApiParseRejected \/ gave_up_on ty raw e
  end.
Proof using laws.
  pose proof (parse_refuses ty raw) as He. destruct (parse_openapi ty raw) as [parsed|e] eqn:H; [|by apply He].
  unfold parse_openapi in H. apply bind_Ok in H as ([version root] & Hroot & H).
  apply root_Ok in Hroot as (_ & Hjson & Hdoc & Hver & _). apply bind_Ok in H as (paths & Hpaths & H).
  apply bind_Ok in H as (ops & Hops & H). apply rejected_if_then in H as [Hlen%Z.ltb_ge H].
  apply bind_Ok in H as (schemas & Hsch & [= <-]). cbn [po_version po_operations po_schemas].
  exists root. split; [done|]. split; [done|]. split; [done|]. split; [done|].
  assert (unique_keys (JObj root) = true) as Hu by apply Hdoc.
  assert (zlen ((fun kv : pystr * json => {| sch_name := kv.1; sch_pointer := u "/components/schemas/" ++ escape kv.1 |}) <$> schemas)
    <= MAX_COMPONENTS) as Hs.
  { unfold zlen. rewrite length_fmap. unfold check_schemas in Hsch. apply bind_Ok in Hsch as (c & _ & (s & _ & Hsch)%bind_Ok).
    apply rejected_if_then in Hsch as [Hl%Z.ltb_ge [= <-]]. exact Hl. }
  split; [exact Hs|]. destruct (path_operations_Ok root paths ops Hops) as [Hsound Hcomplete].
  apply object_member_Ok in Hpaths as [Hpaths|[Hnone ->]].
  - destruct (unique_dict_get _ _ _ Hu (dict_get_In _ _ _ Hpaths)) as [_ Hup]. split.
    + intros x Hx. assert (operation_found root x) as Hf; [|split; [exact Hf|by apply operation_pointer]].
      destruct (Hsound x Hx) as (item & method & op & Hp & Hin & Habs & Hm & Hlow & Hptr & Hsec).
      destruct (unique_dict_get _ _ _ Hup Hp) as [Hget Hui]. destruct (unique_dict_get _ _ _ Hui Hin) as [Hgo _].
      exists method, op. split; [done|]. split; [done|]. split; [by eapply lookup_three|done].
    + intros path method v (kvs & item & E1 & E2 & E3)%lookup_three_inv Hm. rewrite Hpaths in E1. injection E1 as <-.
      eapply Hcomplete; [by apply dict_get_In|by apply dict_get_In|done].
  - split.
    + intros x Hx. destruct (Hsound x Hx) as (item & method & op & Hp%not_elem_of_nil & _). done.
    + intros path method v (kvs & item & E1 & _)%lookup_three_inv. rewrite Hnone in E1. discriminate E1.
Qed.
End accepted.

(** ** A concrete document *)

(** A YAML library that knows one text: the document as a node graph. *)
Definition yaml_str (s : pystr) : yaml_node := ScalarNode (json_tag "str") false s.
#[export] Instance sample_yaml : YamlLibrary := {|
  yaml_scan text := if contains (u "&") text then ([OtherToken; AnchorToken], None) else ([OtherToken], None);
  yaml_compose text := Ok (Some (MappingNode (json_tag "map") false
    [(yaml_str (u "openapi"), yaml_str (u "3.0.1"));
     (yaml_str (u "x-limit"), ScalarNode (json_tag "int") false text)])) |}.

Definition pet_schema : json :=
  JObj [(u "type", JStr (u "object"));
        (u "properties", JObj [(u "status", JObj [(u "type", JStr (u "string")); (u "enum", JList [JStr (u "available"); JStr (u "sold")])]);
                               (u "name", JObj [(u "type", JStr (u "string")); (u "maxLength", JInt 120)])])].
Definition sample_root : list (pystr * json) :=
  [(u "openapi", JStr (u "3.1.0"));
   (u "security", JList [JObj [(u "bearerAuth", JList [])]]);
   (u "paths", JObj [(u "/pets/{petId}", JObj
     [(u "parameters", JList [JObj [(u "name", JStr (u "petId")); (u "in", JStr (u "path")); (u "required", JBool true);
                                    (u "schema", JObj [(u "type", JStr (u "string")); (u "maxLength", JInt 36)])]]);
      (u "get", JObj [(u "operationId", JStr (u "getPet"));
                      (u "responses", JObj [(u "200", JObj [(u "content", JObj [(u "application/json",
                        JObj [(u "schema", JObj [(u "$ref", JStr (u "#/components/schemas/Pet"))])])])])])])])]);
   (u "components", JObj [(u "securitySchemes", JObj [(u "bearerAuth", JObj [(u "type", JStr (u "http"))])]);
                          (u "schemas", JObj [(u "Pet", pet_schema)])])].
Definition sample_openapi : bytes := print (JObj sample_root).

Example sample_openapi_operations :
  (fun parsed => (fun x => (op_method x, op_pointer x)) <$> po_operations parsed) <$>
    parse_openapi (u "openapi-json") sample_openapi =
  Ok [(u "get", u "/paths/~1pets~1{petId}/get")].
Proof. vm_compute. reflexivity. Qed.

(** A reference to another document is refused, and so is an anchor. *)
Example remote_reference_refused :
  parse_openapi (u "openapi-json") (print (JObj (sample_root ++ [(u "x", JObj [(u "$ref", JStr (u "https://host/x"))])]))) =
  Raise (Exn OpenApiParseRejected "OPENAPI_REFERENCE_UNSUPPORTED").
Proof. vm_compute. reflexivity. Qed.
Example yaml_accepted : po_version <$> parse_openapi (u "openapi-yaml") (u "12") = Ok (u "3.0.1").
Proof. vm_compute. reflexivity. Qed.
Example yaml_anchor_refused : parse_openapi (u "openapi-yaml") (u "&") =
  Raise (Exn OpenApiParseRejected "OPENAPI_YAML_TAG_OR_ALIAS_UNSUPPORTED").
Proof. vm_compute. reflexivity. Qed.

(** What the decoder cannot take leaves the parser as it is. *)
Definition long_digits : pystr := repeat 57%N (Z.to_nat 4301).
Example long_integer_escapes :
  parse_openapi (u "openapi-json") (u "[" ++ long_digits ++ u "]") =
    raise ValueError "Exceeds the limit (4300 digits) for integer string conversion" /\
  parse_openapi (u "openapi-yaml") long_digits =
    raise ValueError "Exceeds the limit (4300 digits) for integer string conversion".
Proof. split; vm_compute; reflexivity. Qed.
Example deep_nesting_escapes :
  parse_openapi (u "openapi-json") (repeat 91%N (Z.to_nat 20000)) =
    raise RecursionError "maximum recursion depth exceeded".
Proof. vm_compute. reflexivity. Qed.

Lemma parse_openapi_spec_witness :
  exists parsed, parse_openapi (u "openapi-json") sample_openapi = Ok parsed /\
  exists root, document root /\ dict_get (u "openapi") root = Some (JStr (po_version parsed)).
Proof.
  destruct (parse_openapi (u "openapi-json") sample_openapi) as [parsed|e] eqn:H; [|vm_compute in H; discriminate H].
  exists parsed. split; [reflexivity|]. pose proof (parse_openapi_spec (u "openapi-json") sample_openapi) as Hs. rewrite H in Hs.
  destruct Hs as (root & Hd & _ & Hv & _). exists root. split; [exact Hd|exact Hv].
Defined.
