(* ===== verification/OpenApiFacts.v ===== *)
(** * OpenAPI facts ([openapi_facts.py])

    Inert observations of an accepted document, each with the pointer of what
    it observes, and the difference of two sets of them.

    The cap: the code refuses to append to a full list of facts and raises
    nothing else while it extracts, so one comparison of the whole list with
    the limit decides the same.

    ** Properties

    Every fact is addressable in its document and says what is there; the
    difference of two sets of facts turns one into the other. *)
From stdpp Require Import sorting.
From S2P Require Import Prelude PyText Json Digest TextFolding Ordering OpenApiParser JsonFacts AsciiRuntime.
From S2P Require Import GeneratedTests Url RestrictedExecution Redaction JsonPointer.

Definition OPENAPI_FACT_SCHEMA_VERSION : pystr := u "openapi-facts/v1".
Definition MAX_OPENAPI_FACTS : Z := 50000.
Definition LIMIT_FIELDS : list pystr :=
  [u "minimum"; u "maximum"; u "exclusiveMinimum"; u "exclusiveMaximum"; u "multipleOf"; u "minLength";
   u "maxLength"; u "minItems"; u "maxItems"; u "minProperties"; u "maxProperties"].

Inductive OpenApiFactKind := OPERATION | PARAMETER | SCHEMA | RESPONSE | SECURITY | ENUM | LIMIT.
#[export] Instance fact_kind_eq_dec : EqDecision OpenApiFactKind.
Proof. solve_decision. Defined.
Definition fact_kind_value (k : OpenApiFactKind) : pystr :=
  match k with
  | OPERATION => u "operation" | PARAMETER => u "parameter" | SCHEMA => u "schema" | RESPONSE => u "response"
  | SECURITY => u "security" | ENUM => u "enum" | LIMIT => u "limit"
  end.
#[export] Program Instance fact_kind_enum : StrEnum OpenApiFactKind := {|
  members := [OPERATION; PARAMETER; SCHEMA; RESPONSE; SECURITY; ENUM; LIMIT]; value := fact_kind_value |}.
Next Obligation. by intros [] []. Qed.
Next Obligation. intros []; set_solver. Qed.

Inductive OpenApiFactDifferenceKind := ADDED | REMOVED | CHANGED.

Record OpenApiFact := {
  fact_kind : OpenApiFactKind;
  fact_identifier : pystr;
  fact_pointer : pystr;
  fact_attributes : list (pystr * pystr);
}.
#[export] Instance fact_eq_dec : EqDecision OpenApiFact.
Proof. solve_decision. Defined.

Record OpenApiFactsV1 := {
  facts_schema_version : pystr;
  openapi_version : pystr;
  facts : list OpenApiFact;
}.

Record OpenApiFactDifference := {
  diff_kind : OpenApiFactDifferenceKind;
  diff_fact_kind : OpenApiFactKind;
  diff_identifier : pystr;
  before : option OpenApiFact;
  after : option OpenApiFact;
}.

(** [_mapping] *)
Definition mapping (value : option json) : list (pystr * json) :=
  match value with Some (JObj kvs) => kvs | _ => [] end.
(** [sorted(d)] with the values at hand *)
Definition sorted_items {A} (d : list (pystr * A)) : list (pystr * A) := merge_sort key_le d.

Section extraction.
Context {rt : PyRuntime}.

Definition canonical (value : json) : pystr := dumps_canonical value.

(** [_attributes] *)
Definition attributes (value : list (pystr * json)) (fields : list string) : list (pystr * pystr) :=
  omap (fun field => v ← dict_get (u field) value; Some (u field, canonical v)) fields.

Definition fact (kind : OpenApiFactKind) (identifier pointer : pystr) (attributes : list (pystr * pystr)) : OpenApiFact :=
  {| fact_kind := kind; fact_identifier := identifier; fact_pointer := pointer; fact_attributes := attributes |}.

(** What [_extract_schema] appends for the schema itself. *)
Definition own_schema_facts (identifier pointer : pystr) (schema : list (pystr * json)) : list OpenApiFact :=
  [fact SCHEMA identifier pointer (attributes schema ["type"; "format"; "nullable"; "$ref"]%string)] ++
  match dict_get (u "enum") schema with
  | Some v => [fact ENUM (identifier ++ u "::enum") pointer [(u "values", canonical v)]]
  | None => []
  end ++
  omap (fun limit => v ← dict_get limit schema;
          Some (fact LIMIT (identifier ++ u "::" ++ limit) pointer [(u "value", canonical v)])) LIMIT_FIELDS.

(** [_extract_schema], with the callers' test that the schema is a mapping
    that is not empty. *)
Fixpoint extract_schema (v : json) (identifier pointer : pystr) : list OpenApiFact :=
  match v with
  | JObj ((_ :: _) as schema) =>
      let nested := map (fun kv => (kv.1, match kv.2 with
                                          | JObj properties => map (fun p => (p.1, extract_schema p.2)) properties
                                          | _ => []
                                          end)) schema in
      let members := map (fun kv => (kv.1, extract_schema kv.2)) schema in
      own_schema_facts identifier pointer schema ++
      (sorted_items (default [] (dict_get (u "properties") nested)) ≫= fun p =>
         p.2 (identifier ++ u "." ++ p.1) (pointer ++ u "/properties/" ++ escape p.1)) ++
      match dict_get (u "items") members with
      | Some extract => extract (identifier ++ u "[]") (pointer ++ u "/items")
      | None => []
      end
  | _ => []
  end.
Definition extract_member (name : string) (value : list (pystr * json)) (identifier pointer : pystr) :
    list OpenApiFact :=
  match dict_get (u name) value with Some v => extract_schema v identifier pointer | None => [] end.

(** [_extract_parameters] *)
Definition parameter_identifier (scope : pystr) (index : nat) (parameter : list (pystr * json)) : pystr :=
  match dict_get (u "name") parameter, dict_get (u "in") parameter with
  | Some (JStr name), Some (JStr location) => scope ++ u "::" ++ location ++ u ":" ++ name
  | _, _ => scope ++ u "::parameter[" ++ digits (N.of_nat index) ++ u "]"
  end.
Definition parameter_facts (scope pointer : pystr) (index : nat) (item : json) : list OpenApiFact :=
  let parameter := mapping (Some item) in
  let item_pointer := pointer ++ u "/parameters/" ++ digits (N.of_nat index) in
  let identifier := parameter_identifier scope index parameter in
  fact PARAMETER identifier item_pointer (attributes parameter ["name"; "in"; "required"; "$ref"]%string) ::
  extract_member "schema" parameter (u "parameter:" ++ identifier) (item_pointer ++ u "/schema").
Definition extract_parameters (scope pointer : pystr) (value : option json) : list OpenApiFact :=
  match value with
  | Some (JList l) => concat (imap (parameter_facts scope pointer) l)
  | _ => []
  end.

(** [_extract_responses] *)
Definition response_facts (operation_key pointer status : pystr) (value : json) : list OpenApiFact :=
  let response := mapping (Some value) in
  let response_pointer := pointer ++ u "/responses/" ++ escape status in
  let identifier := operation_key ++ u "::" ++ status in
  let content := sorted_items (mapping (dict_get (u "content") response)) in
  fact RESPONSE identifier response_pointer
    (attributes response ["$ref"]%string ++
     match content with [] => [] | _ => [(u "media_types", canonical (JList (JStr <$> keys content)))] end) ::
  (content ≫= fun media =>
     extract_member "schema" (mapping (Some media.2)) (u "response:" ++ identifier ++ u ":" ++ media.1)
       (response_pointer ++ u "/content/" ++ escape media.1 ++ u "/schema")).
Definition extract_responses (operation_key pointer : pystr) (value : option json) : list OpenApiFact :=
  sorted_items (mapping value) ≫= fun kv => response_facts operation_key pointer kv.1 kv.2.

(** [_extract_security_requirements]: a list of the document is observed; a
    tuple, which the caller passes for what it inherits, is not a list. *)
Inductive requirements := FromDocument (value : json) | FromTuple (items : list json).
Definition extract_security_requirements (scope pointer : pystr) (value : option requirements) (inherited : bool) :
    list OpenApiFact :=
  match value with
  | Some (FromDocument (JList l)) =>
      [fact SECURITY (u "requirement:" ++ scope) pointer
         [(u "requirements", canonical (JList l)); (u "inherited", canonical (JBool inherited))]]
  | _ => []
  end.

Definition extract_security_schemes (schemes : list (pystr * json)) : list OpenApiFact :=
  (fun kv => fact SECURITY (u "scheme:" ++ kv.1) (u "/components/securitySchemes/" ++ escape kv.1)
     (attributes (mapping (Some kv.2)) ["type"; "scheme"; "bearerFormat"; "openIdConnectUrl"; "$ref"]%string)) <$>
  sorted_items schemes.

Definition extract_component_schemas (schemas : list (pystr * json)) : list OpenApiFact :=
  sorted_items schemas ≫= fun kv =>
    extract_schema kv.2 (u "component:" ++ kv.1) (u "/components/schemas/" ++ escape kv.1).

Context {tf : TextFolding}.

(** [_extract_operations] *)
Definition operation_facts (inherited_security : list json) (path path_pointer method : pystr) (value : json) :
    list OpenApiFact :=
  let operation := mapping (Some value) in
  let operation_key := str_upper method ++ u " " ++ path in
  let operation_pointer := path_pointer ++ u "/" ++ escape method in
  fact OPERATION operation_key operation_pointer (attributes operation ["operationId"; "deprecated"]%string) ::
  extract_parameters operation_key operation_pointer (dict_get (u "parameters") operation) ++
  extract_responses operation_key operation_pointer (dict_get (u "responses") operation) ++
  extract_security_requirements operation_key (operation_pointer ++ u "/security")
    (Some (match dict_get (u "security") operation with
           | Some v => FromDocument v
           | None => FromTuple inherited_security
           end))
    (match dict_get (u "security") operation with Some _ => false | None => true end).
Definition path_facts (inherited_security : list json) (path : pystr) (value : json) : list OpenApiFact :=
  let path_item := mapping (Some value) in
  let path_pointer := u "/paths/" ++ escape path in
  extract_parameters (u "path:" ++ path) path_pointer (dict_get (u "parameters") path_item) ++
  (sorted_items (List.filter (fun kv => is_method kv.1) path_item) ≫= fun kv =>
     operation_facts inherited_security path path_pointer kv.1 kv.2).
Definition extract_operations (root : list (pystr * json)) (inherited_security : list json) : list OpenApiFact :=
  sorted_items (mapping (dict_get (u "paths") root)) ≫= fun kv => path_facts inherited_security kv.1 kv.2.

Definition observed_facts (root : list (pystr * json)) (inherited_security : list json) : list OpenApiFact :=
  let components := mapping (dict_get (u "components") root) in
  extract_security_requirements (u "global") (u "/security") (FromDocument <$> dict_get (u "security") root) false ++
  extract_security_schemes (mapping (dict_get (u "securitySchemes") components)) ++
  extract_component_schemas (mapping (dict_get (u "schemas") components)) ++
  extract_operations root inherited_security.

Definition fact_sort_key (f : OpenApiFact) : list pystr := [value (fact_kind f); fact_identifier f].

(** [extract_openapi_facts] *)
Definition extract_openapi_facts {yaml : YamlLibrary} (document_type : pystr) (raw : bytes) : result OpenApiFactsV1 :=
  parsed ← parse_openapi document_type raw;
  '(_, root) ← parse_openapi_root document_type raw;
  let observed := observed_facts root (po_security parsed) in
  raise_if (MAX_OPENAPI_FACTS <? zlen observed) OpenApiFactExtractionRejected "OPENAPI_FACT_LIMIT" ;;
  Ok {| facts_schema_version := OPENAPI_FACT_SCHEMA_VERSION; openapi_version := po_version parsed;
        facts := stable_sort (by_texts fact_sort_key) observed |}.
End extraction.

(** ** Differences *)

Definition fact_key (f : OpenApiFact) : OpenApiFactKind * pystr := (fact_kind f, fact_identifier f).

(** [_index_facts]: the keys are distinct, so the list is its own index. *)
Definition index_facts (l : list OpenApiFact) : result (list OpenApiFact) :=
  raise_if (negb (bool_decide (NoDup (fact_key <$> l)))) ValueError
    "OpenAPI facts must have unique kind and identifier pairs" ;;
  Ok l.
(** [index.get(key)] *)
Definition indexed (key : OpenApiFactKind * pystr) (index : list OpenApiFact) : option OpenApiFact :=
  List.find (fun f => bool_decide (fact_key f = key)) index.

Definition difference (kind : OpenApiFactDifferenceKind) (f : OpenApiFact) (left_fact right_fact : option OpenApiFact) :
    OpenApiFactDifference := {|
  diff_kind := kind; diff_fact_kind := fact_kind f; diff_identifier := fact_identifier f;
  before := left_fact; after := right_fact |}.
Definition difference_at (before_index after_index : list OpenApiFact) (key : OpenApiFactKind * pystr) :
    option OpenApiFactDifference :=
  match indexed key before_index, indexed key after_index with
  | None, Some r => Some (difference ADDED r None (Some r))
  | Some l, None => Some (difference REMOVED l (Some l) None)
  | Some l, Some r => if bool_decide (l = r) then None else Some (difference CHANGED l (Some l) (Some r))
  | None, None => None
  end.

(** [sorted(set(before) | set(after))] *)
Definition key_texts (key : OpenApiFactKind * pystr) : list pystr := [value key.1; key.2].
Definition all_keys (before_index after_index : list OpenApiFact) : list (OpenApiFactKind * pystr) :=
  stable_sort (by_texts key_texts) (remove_dups ((fact_key <$> before_index) ++ (fact_key <$> after_index))).

(** [diff_openapi_facts] *)
Definition diff_openapi_facts (before after : OpenApiFactsV1) : result (list OpenApiFactDifference) :=
  raise_if (negb (str_eqb (facts_schema_version before) OPENAPI_FACT_SCHEMA_VERSION &&
                  str_eqb (facts_schema_version after) OPENAPI_FACT_SCHEMA_VERSION)) ValueError
    "OpenAPI facts must use the supported schema version" ;;
  before_index ← index_facts (facts before);
  after_index ← index_facts (facts after);
  Ok (omap (difference_at before_index after_index) (all_keys before_index after_index)).

(** * Properties *)

Lemma sorted_items_Permutation {A} (d : list (pystr * A)) : sorted_items d ≡ₚ d.
Proof. apply merge_sort_Permutation. Qed.

Lemma dict_get_map_snd {A B} k (f : A -> B) d : dict_get k (map (fun kv => (kv.1, f kv.2)) d) = f <$> dict_get k d.
Proof. induction d as [|[k' v] d IH]; [done|]. cbn. by destruct (str_eqb k k'). Qed.

Section facts.
Context {rt : PyRuntime}.

(** ** What a fact says of a value *)

Definition named (v : json) (names : list (pystr * pystr)) : Prop := forall n t, (n, t) ∈ names ->
  exists x, descend v (Key n) = Some x /\ t = canonical x.

Definition observes_value (f : OpenApiFact) (v : json) : Prop :=
  match fact_kind f with
  | OPERATION | PARAMETER | SCHEMA => named v (fact_attributes f)
  | ENUM => exists x, descend v (Key (u "enum")) = Some x /\ fact_attributes f = [(u "values", canonical x)]
  | LIMIT => exists n x, n ∈ LIMIT_FIELDS /\ descend v (Key n) = Some x /\ fact_attributes f = [(u "value", canonical x)]
  | RESPONSE => exists media, fact_attributes f = attributes (mapping (Some v)) ["$ref"]%string ++ media /\
      (media = [] \/ exists types, media = [(u "media_types", canonical (JList (JStr <$> types)))] /\
         forall n, n ∈ types <-> n ∈ keys (mapping (dict_get (u "content") (mapping (Some v)))))
  | SECURITY => named v (fact_attributes f) \/
      fact_attributes f = [(u "requirements", canonical v); (u "inherited", canonical (JBool false))]
  end.

Context (root : list (pystr * json)).

(** [v] is the value of the document at [pointer]. *)
Definition located (pointer : pystr) (v : json) : Prop :=
  exists path, pointer = pointer_of path /\ lookup_path (JObj root) path = Some v /\ unique_keys v = true.
Definition sound (f : OpenApiFact) : Prop :=
  fact_pointer f <> [] /\ exists v, located (fact_pointer f) v /\ observes_value f v.

Lemma sound_intro f v : fact_pointer f <> [] -> located (fact_pointer f) v -> observes_value f v -> sound f.
Proof. split; [done|by exists v]. Qed.
Lemma below_nonempty (pointer token : pystr) : pointer ++ 47%N :: token <> [].
Proof. by destruct pointer. Qed.

Lemma lookup_snoc path s v w : lookup_path (JObj root) path = Some v -> descend v s = Some w ->
  lookup_path (JObj root) (path ++ [s]) = Some w.
Proof. intros Hp Hd. rewrite lookup_path_app, Hp. cbn. by rewrite Hd. Qed.

Lemma pointer_of_snoc path s : pointer_of (path ++ [s]) = pointer_of path ++ 47%N :: step_token s.
Proof. unfold pointer_of. rewrite bind_app. cbn. by rewrite app_nil_r. Qed.

Lemma located_key pointer kvs k v : located pointer (JObj kvs) -> dict_get k kvs = Some v ->
  located (pointer ++ 47%N :: escape k) v.
Proof.
  intros (path & -> & Hp & Hu) Hk. exists (path ++ [Key k]). rewrite pointer_of_snoc.
  split; [done|]. split; [by eapply lookup_snoc|]. apply dict_get_In in Hk. by apply (unique_dict_get k v) in Hu as [_ ?].
Qed.

Lemma located_item pointer l i v : located pointer (JList l) -> l !! i = Some v ->
  located (pointer ++ 47%N :: digits (N.of_nat i)) v.
Proof.
  intros (path & -> & Hp & Hu) Hi. exists (path ++ [Index i]). rewrite pointer_of_snoc.
  split; [done|]. split; [by eapply lookup_snoc|]. cbn [unique_keys] in Hu. rewrite forallb_forall in Hu.
  apply Hu, list_elem_of_In. by eapply list_elem_of_lookup_2.
Qed.

(** The members of an object, in the order of their keys. *)
Lemma located_sorted pointer kvs k v : located pointer (JObj kvs) -> (k, v) ∈ sorted_items kvs ->
  located (pointer ++ 47%N :: escape k) v.
Proof.
  intros Hl Hin. rewrite sorted_items_Permutation in Hin. destruct Hl as (path & -> & Hp & Hu).
  destruct (unique_dict_get k v kvs Hu Hin) as [Hk _]. eapply located_key; [|exact Hk]. by exists path.
Qed.

Lemma named_attributes kvs fields : named (JObj kvs) (attributes kvs fields).
Proof.
  intros n t (field & _ & H)%list_elem_of_omap. apply bind_Some in H as (x & Hx & [= <- <-]). by exists x.
Qed.
Lemma named_mapping v fields : named v (attributes (mapping (Some v)) fields).
Proof.
  destruct v as [| | | | | |kvs]; try apply named_attributes;
    intros n t (field & _ & H)%list_elem_of_omap; apply bind_Some in H as (x & Hx & _); discriminate Hx.
Qed.

(** ** Schemas *)

Lemma own_facts_sound identifier pointer schema : pointer <> [] -> located pointer (JObj schema) ->
  Forall sound (own_schema_facts identifier pointer schema).
Proof.
  intros Hne Hl. apply Forall_forall. intros f. unfold own_schema_facts. rewrite !elem_of_app.
  intros [->%list_elem_of_singleton|[Hf|(n & Hn & Hf)%list_elem_of_omap]]; [|
    |apply bind_Some in Hf as (x & Hx & [= <-])].
  - apply (sound_intro _ (JObj schema)); [done..|]. apply named_attributes.
  - destruct (dict_get (u "enum") schema) as [x|] eqn:Hx; [|by apply not_elem_of_nil in Hf].
    apply list_elem_of_singleton in Hf as ->. apply (sound_intro _ (JObj schema)); [done..|]. by exists x.
  - apply (sound_intro _ (JObj schema)); [done..|]. by exists n, x.
Qed.

Definition schema_sound (v : json) : Prop := forall identifier pointer,
  pointer <> [] -> located pointer v -> Forall sound (extract_schema v identifier pointer).

Lemma Forall_bind_intro {A B} (P : B -> Prop) (f : A -> list B) l : (forall a, a ∈ l -> Forall P (f a)) -> Forall P (l ≫= f).
Proof. intros H. apply Forall_forall. intros b (a & Hb & Ha)%list_elem_of_bind. specialize (H a Ha). rewrite Forall_forall in H. by apply H. Qed.

Lemma sorted_map_fst {A} (g : json -> A) kvs p : p ∈ sorted_items (map (fun kv => (kv.1, g kv.2)) kvs) ->
  exists v, (p.1, v) ∈ kvs /\ p.2 = g v.
Proof.
  rewrite sorted_items_Permutation. intros ([k v] & -> & Hin)%list_elem_of_fmap. by exists v.
Qed.

Lemma extract_schema_sound v : schema_sound v /\
  match v with JObj kvs => Forall (fun kv => schema_sound kv.2) kvs | _ => True end.
Proof.
  induction v as [| | | | |l|kvs IH] using json_rect_strong; try (split; [by intros identifier pointer _ _; constructor|done]).
  split; [|eapply Forall_impl; [exact IH|]; intros kv Hkv; apply Hkv].
  intros identifier pointer Hne Hl. destruct kvs as [|kv0 kvs0] eqn:Ek; [constructor|]. rewrite <- Ek in *.
  assert (extract_schema (JObj kvs) identifier pointer =
    own_schema_facts identifier pointer kvs ++
    (sorted_items (default [] (match dict_get (u "properties") kvs with
        | Some (JObj properties) => Some (map (fun p => (p.1, extract_schema p.2)) properties)
        | Some _ => Some [] | None => None end)) ≫= fun p =>
       p.2 (identifier ++ u "." ++ p.1) (pointer ++ u "/properties/" ++ escape p.1)) ++
    match extract_schema <$> dict_get (u "items") kvs with
    | Some extract => extract (identifier ++ u "[]") (pointer ++ u "/items")
    | None => []
    end) as ->.
  { rewrite Ek. cbn [extract_schema]. rewrite <- Ek. f_equal. rewrite dict_get_map_snd.
    rewrite (dict_get_map_snd _ (fun v => match v with JObj properties => map (fun p => (p.1, extract_schema p.2)) properties | _ => [] end)).
    f_equal. by destruct (dict_get (u "properties") kvs) as [[| | | | | |]|]. }
  clear Ek kv0 kvs0. rewrite Forall_forall in IH.
  assert (forall k v, dict_get k kvs = Some v -> schema_sound v /\
    match v with JObj kvs => Forall (fun kv => schema_sound kv.2) kvs | _ => True end) as IHk
    by (intros k v Hk%dict_get_In; exact (IH _ Hk)).
  apply Forall_app. split; [by apply own_facts_sound|]. apply Forall_app. split.
  - apply Forall_bind_intro. intros p Hp. destruct (dict_get (u "properties") kvs) as [pv|] eqn:Hpv; [|by apply not_elem_of_nil in Hp].
    destruct pv as [| | | | | |ps]; try by apply not_elem_of_nil in Hp.
    apply sorted_map_fst in Hp as (v & Hin & ->). destruct (IHk _ _ Hpv) as [_ Hall]. rewrite Forall_forall in Hall.
    apply (Hall _ Hin); [apply below_nonempty|]. pose proof (located_key _ _ _ _ Hl Hpv) as Hlp.
    replace (pointer ++ u "/properties/" ++ escape p.1) with ((pointer ++ 47%N :: escape (u "properties")) ++ 47%N :: escape p.1)
      by (rewrite <- app_assoc; reflexivity).
    eapply located_sorted; [exact Hlp|]. by rewrite sorted_items_Permutation.
  - destruct (dict_get (u "items") kvs) as [iv|] eqn:Hiv; [|constructor]. cbn. apply (proj1 (IHk _ _ Hiv)); [apply below_nonempty|].
    exact (located_key _ _ _ _ Hl Hiv).
Qed.

Lemma extract_member_sound name kvs identifier pointer : located pointer (JObj kvs) -> escape (u name) = u name ->
  Forall sound (extract_member name kvs identifier (pointer ++ 47%N :: u name)).
Proof.
  intros Hl He. unfold extract_member. destruct (dict_get (u name) kvs) as [v|] eqn:Hv; [|constructor].
  apply extract_schema_sound; [apply below_nonempty|]. rewrite <- He. by eapply located_key.
Qed.

(** ** Parameters, responses and security *)

Lemma mapping_located pointer v kvs : located pointer v -> mapping (Some v) = kvs -> kvs <> [] -> located pointer (JObj kvs).
Proof. intros Hl Hm Hne. destruct v as [| | | | | |ps]; cbn in Hm; subst; done. Qed.

(** Facts of a member of what is a mapping, or of nothing. *)
Lemma extract_mapped name v identifier pointer : located pointer v -> escape (u name) = u name ->
  Forall sound (extract_member name (mapping (Some v)) identifier (pointer ++ 47%N :: u name)).
Proof.
  intros Hl He. destruct v as [| | | | | |kvs]; try (by constructor). by apply extract_member_sound.
Qed.

Lemma parameters_sound scope pointer kvs : located pointer (JObj kvs) ->
  Forall sound (extract_parameters scope pointer (dict_get (u "parameters") kvs)).
Proof.
  intros Hl. unfold extract_parameters. destruct (dict_get (u "parameters") kvs) as [pv|] eqn:Hp; [|constructor].
  destruct pv as [| | | | |l|]; try constructor. pose proof (located_key _ _ _ _ Hl Hp) as Hlp.
  apply Forall_forall. intros f Hf. apply elem_of_list_In in Hf || idtac.
  apply list_elem_of_In, in_concat in Hf as (fs & Hfs%list_elem_of_In & Hf%list_elem_of_In).
  apply list_elem_of_lookup in Hfs as (i & Hi). rewrite list_lookup_imap in Hi. apply fmap_Some in Hi as (item & Hitem & ->).
  assert (located (pointer ++ u "/parameters/" ++ digits (N.of_nat i)) item) as Hli.
  { replace (pointer ++ u "/parameters/" ++ digits (N.of_nat i)) with
      ((pointer ++ 47%N :: escape (u "parameters")) ++ 47%N :: digits (N.of_nat i)) by (rewrite <- app_assoc; reflexivity).
    by eapply located_item. }
  unfold parameter_facts in Hf. apply elem_of_cons in Hf as [->|Hf].
  - apply (sound_intro _ item); [apply below_nonempty|exact Hli|]. apply named_mapping.
  - pose proof (extract_mapped "schema" item (u "parameter:" ++ parameter_identifier scope i (mapping (Some item))) _ Hli eq_refl) as Hall.
    rewrite Forall_forall in Hall. by apply Hall.
Qed.

Lemma responses_sound operation_key pointer kvs : located pointer (JObj kvs) ->
  Forall sound (extract_responses operation_key pointer (dict_get (u "responses") kvs)).
Proof.
  intros Hl. unfold extract_responses. destruct (dict_get (u "responses") kvs) as [rv|] eqn:Hr; [|by constructor].
  destruct rv as [| | | | | |rs]; try (by constructor). pose proof (located_key _ _ _ _ Hl Hr) as Hlr.
  apply Forall_bind_intro. intros [status v] Hin. cbn [fst snd].
  assert (located (pointer ++ u "/responses/" ++ escape status) v) as Hlv.
  { replace (pointer ++ u "/responses/" ++ escape status) with
      ((pointer ++ 47%N :: escape (u "responses")) ++ 47%N :: escape status) by (rewrite <- app_assoc; reflexivity).
    by eapply located_sorted. }
  unfold response_facts. cbv zeta. set (content := mapping (dict_get (u "content") (mapping (Some v)))). constructor.
  - apply (sound_intro _ v); [apply below_nonempty|exact Hlv|]. eexists. split; [reflexivity|].
    destruct (sorted_items content) as [|c0 cs] eqn:Ec; [by left|right]. rewrite <- Ec.
    exists (keys (sorted_items content)). split; [done|]. intros n. unfold keys. by rewrite sorted_items_Permutation.
  - apply Forall_bind_intro. intros [media mv] Hm. cbn [fst snd].
    destruct v as [| | | | | |vk]; try (by apply not_elem_of_nil in Hm). cbn [mapping] in content.
    destruct (dict_get (u "content") vk) as [cv|] eqn:Hc; [|by apply not_elem_of_nil in Hm].
    destruct cv as [| | | | | |ck]; try (by apply not_elem_of_nil in Hm). pose proof (located_key _ _ _ _ Hlv Hc) as Hlc.
    replace ((pointer ++ u "/responses/" ++ escape status) ++ u "/content/" ++ escape media ++ u "/schema") with
      ((((pointer ++ u "/responses/" ++ escape status) ++ 47%N :: escape (u "content")) ++ 47%N :: escape media) ++ 47%N :: u "schema")
      by (rewrite <- !app_assoc; reflexivity).
    apply extract_mapped; [|reflexivity]. by eapply located_sorted.
Qed.

Lemma requirements_sound scope pointer kvs value inherited : located pointer (JObj kvs) -> inherited = false ->
  (forall v, value = Some (FromDocument v) -> dict_get (u "security") kvs = Some v) ->
  Forall sound (extract_security_requirements scope (pointer ++ u "/security") value inherited).
Proof.
  intros Hl -> Hv. unfold extract_security_requirements. destruct value as [[v|t]|]; try constructor.
  destruct v as [| | | | |l|]; try constructor; [|constructor]. apply (sound_intro _ (JList l)); [apply below_nonempty| |by right].
  exact (located_key _ _ _ _ Hl (Hv _ eq_refl)).
Qed.

(** What is inherited is a tuple: nothing is observed of it. *)
Lemma inherited_not_observed scope pointer items inherited :
  extract_security_requirements scope pointer (Some (FromTuple items)) inherited = [].
Proof. done. Qed.

Context {tf : TextFolding}.

Lemma operation_sound inherited path path_pointer method v : located (path_pointer ++ 47%N :: escape method) v ->
  Forall sound (operation_facts inherited path path_pointer method v).
Proof.
  intros Hl. unfold operation_facts. cbv zeta. constructor; [apply (sound_intro _ v); [apply below_nonempty|exact Hl|apply named_mapping]|].
  destruct v as [| | | | | |kvs]; try (by constructor). cbn [mapping].
  apply Forall_app. split; [by apply parameters_sound|]. apply Forall_app. split; [by apply responses_sound|].
  destruct (dict_get (u "security") kvs) as [s|] eqn:Hs; [|constructor].
  eapply requirements_sound; [exact Hl|done|]. intros s' [= <-]. exact Hs.
Qed.

Lemma path_sound inherited path v : located (u "/paths/" ++ escape path) v -> Forall sound (path_facts inherited path v).
Proof.
  intros Hl. unfold path_facts. cbv zeta. destruct v as [| | | | | |kvs]; try (by constructor). cbn [mapping].
  apply Forall_app. split; [by apply parameters_sound|]. apply Forall_bind_intro. intros [m mv] Hm. cbn [fst snd].
  apply operation_sound. eapply located_sorted; [exact Hl|]. rewrite sorted_items_Permutation in Hm |- *.
  apply list_elem_of_In, List.filter_In in Hm as [Hm _]. by apply list_elem_of_In.
Qed.

Lemma observed_sound inherited : unique_keys (JObj root) = true -> Forall sound (observed_facts root inherited).
Proof.
  intros Hu. assert (located [] (JObj root)) as Hroot by (exists []; done).
  assert (forall name, located (47%N :: escape (u name)) (JObj (mapping (dict_get (u name) root))) \/ mapping (dict_get (u name) root) = []) as Hm.
  { intros name. destruct (dict_get (u name) root) as [[| | | | | |kvs]|] eqn:E; try (by right). left. exact (located_key _ _ _ _ Hroot E). }
  assert (forall name, mapping (dict_get (u name) (mapping (dict_get (u "components") root))) = [] \/
    located ((47%N :: escape (u "components")) ++ 47%N :: escape (u name)) (JObj (mapping (dict_get (u name) (mapping (dict_get (u "components") root)))))) as Hc.
  { intros name. destruct (Hm "components"%string) as [Hl| ->]; [|by left].
    destruct (dict_get (u name) (mapping (dict_get (u "components") root))) as [[| | | | | |kvs]|] eqn:E; try (by left). right.
    exact (located_key _ _ _ _ Hl E). }
  unfold observed_facts. cbv zeta. apply Forall_app. split; [|apply Forall_app; split; [|apply Forall_app; split]].
  - apply (requirements_sound (u "global") [] root); [done|done|]. intros v H. apply fmap_Some in H as (x & Hx & [= ->]). exact Hx.
  - unfold extract_security_schemes. apply Forall_fmap, Forall_forall. intros [name v] Hin.
    destruct (Hc "securitySchemes"%string) as [E|Hl]; [rewrite E in Hin; by apply not_elem_of_nil in Hin|].
    apply (sound_intro _ v); [done| |left; apply named_mapping]. exact (located_sorted _ _ _ _ Hl Hin).
  - unfold extract_component_schemas. apply Forall_bind_intro. intros [name v] Hin.
    destruct (Hc "schemas"%string) as [E|Hl]; [rewrite E in Hin; by apply not_elem_of_nil in Hin|].
    apply extract_schema_sound; [done|]. exact (located_sorted _ _ _ _ Hl Hin).
  - unfold extract_operations. apply Forall_bind_intro. intros [path v] Hin.
    destruct (Hm "paths"%string) as [Hl|E]; [|rewrite E in Hin; by apply not_elem_of_nil in Hin].
    apply path_sound. exact (located_sorted _ _ _ _ Hl Hin).
Qed.
End facts.

(** ** Extraction *)

Section extraction.
Context {rt : PyRuntime} {tf : TextFolding} {yaml : YamlLibrary} {laws : PyRuntimeLaws rt}.

(** The pointer of a fact leads to the value that the fact describes. *)
Lemma sound_pointer root f : sound root f ->
  exists v, json_pointer (Some (JObj root)) (fact_pointer f) = JsonValue v /\ observes_value f v.
Proof using laws.
  intros (Hne & v & (path & Hp & Hl & _) & Hv). exists v. split; [|done]. rewrite Hp.
  apply (proj1 (json_pointer_spec (JObj root))); [|done]. intros ->. by rewrite Hp in Hne.
Qed.

Lemma parse_openapi_of_root ty raw parsed : parse_openapi ty raw = Ok parsed ->
  exists root, parse_openapi_root ty raw = Ok (po_version parsed, root) /\
    po_security parsed = security_of (dict_get (u "security") root).
Proof using.
  unfold parse_openapi. intros H. apply bind_Ok in H as ([version root] & Hroot & H). exists root.
  apply bind_Ok in H as (? & _ & H). apply bind_Ok in H as (? & _ & H). apply bind_Ok in H as (? & _ & H).
  by apply bind_Ok in H as (? & _ & [= <-]).
Qed.

(** C34: Extraction never invents a fact. Whatever the bytes, it returns at
    most the capped number of facts, in the order of their kinds and
    identifiers, and they are the observations of the document the parser
    accepted, and the JSON pointer of each one resolves in that document to
    the value whose canonical members the fact carries; or it raises the
    parser's exception or the one of its cap; or another exception leaves the
    parser, as its own theorem says when: a limit of the interpreter that the
    decoder hit, or an exception of the YAML library that is no YAMLError. *)
Theorem extract_openapi_facts_spec ty raw :
  match extract_openapi_facts ty raw with
  | Ok fs => exists root, document root /\
      parse_openapi_root ty raw = Ok (openapi_version fs, root) /\
      facts_schema_version fs = OPENAPI_FACT_SCHEMA_VERSION /\
      zlen (facts fs) <= MAX_OPENAPI_FACTS /\
      StronglySorted (by_texts fact_sort_key) (facts fs) /\
      facts fs ≡ₚ observed_facts root (security_of (dict_get (u "security") root)) /\
      (forall f, f ∈ facts fs -> exists v,
         json_pointer (Some (JObj root)) (fact_pointer f) = JsonValue v /\ observes_value f v)
  | Raise e => exn_cls e = OpenApiParseRejected \/ e = Exn OpenApiFactExtractionRejected "OPENAPI_FACT_LIMIT" \/
      gave_up_on ty raw e
  end.
Proof using laws.
  unfold extract_openapi_facts. destruct (parse_openapi ty raw) as [parsed|e] eqn:Hp; [|by destruct (parse_refuses ty raw e Hp); [left|right; right]].
  apply parse_openapi_of_root in Hp as (root & Hroot & Hs). rewrite bind_ok, Hroot, bind_ok. cbv zeta beta iota.
  rewrite Hs. set (observed := observed_facts root _). destruct (MAX_OPENAPI_FACTS <? zlen observed) eqn:Hn; [right; by left|].
  cbn [raise_if]. rewrite bind_ok. exists root. apply root_Ok in Hroot as Hdoc. destruct Hdoc as (_ & _ & Hdoc & _).
  cbn [facts facts_schema_version openapi_version]. apply Z.ltb_ge in Hn.
  split; [done|]. split; [done|]. split; [done|]. split; [by unfold zlen; rewrite stable_sort_Permutation|].
  split; [by apply (stable_sort_sorted (by_texts fact_sort_key))|]. split; [apply stable_sort_Permutation|].
  intros f. rewrite stable_sort_Permutation. intros Hf. apply sound_pointer.
  pose proof (observed_sound root (security_of (dict_get (u "security") root)) (do_unique _ Hdoc)) as Hall.
  rewrite Forall_forall in Hall. by apply Hall.
Qed.
End extraction.

(** ** Differences *)

Definition diff_key (d : OpenApiFactDifference) : OpenApiFactKind * pystr := (diff_fact_kind d, diff_identifier d).
Definition difference_of (key : OpenApiFactKind * pystr) (ds : list OpenApiFactDifference) : option OpenApiFactDifference :=
  List.find (fun d => bool_decide (diff_key d = key)) ds.
(** What differences make of a fact: forwards, and backwards. *)
Definition patched ds key (f : option OpenApiFact) : option OpenApiFact :=
  match difference_of key ds with Some d => after d | None => f end.
Definition reverted ds key (f : option OpenApiFact) : option OpenApiFact :=
  match difference_of key ds with Some d => before d | None => f end.
(** What a difference says of its two sides. *)
Definition tells (d : OpenApiFactDifference) : Prop :=
  before d <> after d /\
  diff_kind d = match before d, after d with None, _ => ADDED | _, None => REMOVED | _, _ => CHANGED end.

Lemma indexed_Some key l f : indexed key l = Some f -> fact_key f = key /\ f ∈ l.
Proof. intros [Hin Hk]%find_some. by rewrite bool_decide_eq_true in Hk; apply list_elem_of_In in Hin. Qed.

Lemma indexed_None key l : indexed key l = None <-> key ∉ fact_key <$> l.
Proof.
  unfold indexed. induction l as [|f l IH]; [by split; [intros _; apply not_elem_of_nil|]|]. rewrite fmap_cons, not_elem_of_cons. cbn.
  case_bool_decide; [by split; [|intros []; congruence]|]. rewrite IH. split; [intros ?; split; congruence|by intros []].
Qed.

Lemma indexed_NoDup l f : NoDup (fact_key <$> l) -> f ∈ l -> indexed (fact_key f) l = Some f.
Proof.
  intros Hd Hf. destruct (indexed (fact_key f) l) as [g|] eqn:E.
  - apply indexed_Some in E as [Hk Hg]. f_equal. revert Hd Hf Hg. induction l as [|x l IH]; [by intros _ ?%not_elem_of_nil|].
    rewrite fmap_cons, NoDup_cons, !elem_of_cons. intros [Hx Hd] [->|Hf] [->|Hg]; [done| | |by apply IH];
      destruct Hx; apply list_elem_of_fmap; eauto.
  - apply indexed_None in E. destruct E. apply list_elem_of_fmap. by exists f.
Qed.

Lemma difference_at_spec l r key :
  match difference_at l r key with
  | Some d => diff_key d = key /\ before d = indexed key l /\ after d = indexed key r /\ tells d
  | None => indexed key l = indexed key r
  end.
Proof.
  unfold difference_at, tells. destruct (indexed key l) as [x|] eqn:Ex, (indexed key r) as [y|] eqn:Ey; cbn; [|
    by apply indexed_Some in Ex as [? _] |by apply indexed_Some in Ey as [? _] |done].
  case_bool_decide as Hxy; [by subst|]. apply indexed_Some in Ex as [? _]. split_and!; try done. by intros [= ?].
Qed.

Lemma all_keys_elem l r key : key ∈ all_keys l r <-> key ∈ fact_key <$> l \/ key ∈ fact_key <$> r.
Proof. unfold all_keys. by rewrite stable_sort_Permutation, elem_of_remove_dups, elem_of_app. Qed.

Lemma difference_of_omap l r key keys : difference_of key (omap (difference_at l r) keys) =
  if bool_decide (key ∈ keys) then difference_at l r key else None.
Proof.
  induction keys as [|k keys IH]; [done|]. cbn [omap list_omap]. pose proof (difference_at_spec l r k) as Hk.
  assert (bool_decide (key ∈ k :: keys) = bool_decide (k = key) || bool_decide (key ∈ keys)) as ->.
  { rewrite <- bool_decide_or. apply bool_decide_ext. rewrite elem_of_cons. naive_solver. }
  destruct (bool_decide_reflect (k = key)) as [->|E]; cbn [orb].
  - destruct (difference_at l r key) as [d|] eqn:Ed; [|rewrite IH; by case_bool_decide].
    cbn. destruct Hk as [-> _]. by rewrite bool_decide_true.
  - destruct (difference_at l r k) as [d|]; [|exact IH]. cbn. destruct Hk as [-> _]. by rewrite bool_decide_false.
Qed.

(** The two sides that differences at all the keys tell of. *)
Lemma difference_of_all l r key : let ds := omap (difference_at l r) (all_keys l r) in
  patched ds key (indexed key l) = indexed key r /\ reverted ds key (indexed key r) = indexed key l.
Proof.
  cbv zeta. unfold patched, reverted. rewrite difference_of_omap. case_bool_decide as Hin.
  - pose proof (difference_at_spec l r key) as H. destruct (difference_at l r key) as [d|]; [|by rewrite H].
    by destruct H as (_ & -> & -> & _).
  - rewrite all_keys_elem in Hin. assert (indexed key l = None) as -> by (apply indexed_None; tauto).
    by assert (indexed key r = None) as -> by (apply indexed_None; tauto).
Qed.

Lemma omap_keys_sublist l r keys : (diff_key <$> omap (difference_at l r) keys) `sublist_of` keys.
Proof.
  induction keys as [|k keys IH]; [constructor|]. cbn [omap list_omap]. pose proof (difference_at_spec l r k) as Hk.
  destruct (difference_at l r k) as [d|]; [|by apply sublist_cons]. cbn. destruct Hk as [-> _]. by apply sublist_skip.
Qed.

Lemma StronglySorted_sublist {A} (R : relation A) l k : l `sublist_of` k -> StronglySorted R k -> StronglySorted R l.
Proof.
  induction 1 as [|x l k Hs IH|x l k Hs IH]; intros Hk; [constructor| |]; apply StronglySorted_inv in Hk as [Hk Hx]; [|by apply IH].
  constructor; [by apply IH|]. rewrite Forall_forall in Hx |- *. intros y Hy. apply Hx. by eapply sublist_subseteq.
Qed.

Lemma same_index l r : NoDup (fact_key <$> l) -> NoDup (fact_key <$> r) ->
  (forall key, indexed key l = indexed key r) <-> l ≡ₚ r.
Proof.
  intros Hl Hr. split.
  - intros H. apply NoDup_Permutation; [by eapply NoDup_fmap_1..|]. intros f. split; intros Hf.
    + apply (indexed_NoDup _ _ Hl) in Hf. rewrite H in Hf. by apply indexed_Some in Hf as [_ ?].
    + apply (indexed_NoDup _ _ Hr) in Hf. rewrite <- H in Hf. by apply indexed_Some in Hf as [_ ?].
  - intros Hp key. destruct (indexed key l) as [f|] eqn:E; symmetry.
    + apply indexed_Some in E as [<- Hf]. apply indexed_NoDup; [done|]. by rewrite <- Hp.
    + apply indexed_None. apply indexed_None in E. by rewrite <- Hp.
Qed.

Lemma index_facts_cases l :
  NoDup (fact_key <$> l) /\ index_facts l = Ok l \/
  ~ NoDup (fact_key <$> l) /\
    index_facts l = raise ValueError "OpenAPI facts must have unique kind and identifier pairs".
Proof. unfold index_facts. destruct (bool_decide_reflect (NoDup (fact_key <$> l))); [by left|by right]. Qed.

(** C35: The difference of two projections of facts is a patch. It is refused
    with ValueError unless both have the supported schema and no key twice;
    otherwise applying it to the facts before gives the facts after at every
    key, undoing it gives the facts before, each difference tells of two
    distinct sides under the kind that fits them, the keys come once each and
    in order, and there is none exactly when the two hold the same facts. *)
Theorem diff_openapi_facts_spec b a :
  match diff_openapi_facts b a with
  | Ok ds =>
      facts_schema_version b = OPENAPI_FACT_SCHEMA_VERSION /\ facts_schema_version a = OPENAPI_FACT_SCHEMA_VERSION /\
      (forall key, patched ds key (indexed key (facts b)) = indexed key (facts a) /\
                   reverted ds key (indexed key (facts a)) = indexed key (facts b)) /\
      Forall tells ds /\ NoDup (diff_key <$> ds) /\ StronglySorted (by_texts key_texts) (diff_key <$> ds) /\
      (ds = [] <-> facts b ≡ₚ facts a)
  | Raise e => exn_cls e = ValueError /\
      (facts_schema_version b = OPENAPI_FACT_SCHEMA_VERSION -> facts_schema_version a = OPENAPI_FACT_SCHEMA_VERSION ->
       ~ NoDup (fact_key <$> facts b) \/ ~ NoDup (fact_key <$> facts a))
  end.
Proof.
  unfold diff_openapi_facts. destruct (negb _) eqn:Ev; cbn [raise_if].
  { split; [done|]. intros Hb Ha. by rewrite Hb, Ha, !str_eqb_refl in Ev. }
  apply negb_false_iff, andb_true_iff in Ev as [Hb%str_eqb_eq Ha%str_eqb_eq]. rewrite bind_ok.
  destruct (index_facts_cases (facts b)) as [[Hnb ->]|[Hnb ->]]; [rewrite bind_ok|split; [done|intros _ _; by left]].
  destruct (index_facts_cases (facts a)) as [[Hna ->]|[Hna ->]]; [rewrite bind_ok|split; [done|intros _ _; by right]].
  set (ds := omap _ _). assert (forall key, patched ds key (indexed key (facts b)) = indexed key (facts a) /\
    reverted ds key (indexed key (facts a)) = indexed key (facts b)) as Hpatch by (intros key; apply difference_of_all).
  assert (NoDup (all_keys (facts b) (facts a))) as Hnd
    by (unfold all_keys; rewrite stable_sort_Permutation; apply NoDup_remove_dups).
  split; [done|]. split; [done|]. split; [exact Hpatch|]. split; [|split; [|split]].
  - apply Forall_forall. intros d (key & _ & Hd)%list_elem_of_omap. pose proof (difference_at_spec (facts b) (facts a) key) as H.
    rewrite Hd in H. apply H.
  - eapply sublist_NoDup; [exact Hnd|apply omap_keys_sublist].
  - eapply StronglySorted_sublist; [apply omap_keys_sublist|]. by apply (stable_sort_sorted (by_texts key_texts)).
  - rewrite <- same_index by done. split.
    + intros E key. destruct (Hpatch key) as [<- _]. by rewrite E.
    + intros H. destruct ds as [|d ds'] eqn:Eds; [done|]. assert (d ∈ ds) as Hd by (rewrite Eds; left).
      apply list_elem_of_omap in Hd as (key & _ & Hd). pose proof (difference_at_spec (facts b) (facts a) key) as Hs.
      rewrite Hd in Hs. destruct Hs as (_ & Eb & Ea & Hne & _). by rewrite Eb, Ea, H in Hne.
Qed.

(** ** A concrete document *)

Definition sample_facts : OpenApiFactsV1 :=
  match extract_openapi_facts (u "openapi-json") sample_openapi with
  | Ok fs => fs
  | Raise _ => {| facts_schema_version := []; openapi_version := []; facts := [] |}
  end.

Example sample_facts_keys : (fun f => (fact_kind f, fact_identifier f)) <$> facts sample_facts =
  [(ENUM, u "component:Pet.status::enum"); (LIMIT, u "component:Pet.name::maxLength");
   (LIMIT, u "parameter:path:/pets/{petId}::path:petId::maxLength"); (OPERATION, u "GET /pets/{petId}");
   (PARAMETER, u "path:/pets/{petId}::path:petId"); (RESPONSE, u "GET /pets/{petId}::200");
   (SCHEMA, u "component:Pet"); (SCHEMA, u "component:Pet.name"); (SCHEMA, u "component:Pet.status");
   (SCHEMA, u "parameter:path:/pets/{petId}::path:petId");
   (SCHEMA, u "response:GET /pets/{petId}::200:application/json");
   (SECURITY, u "requirement:global"); (SECURITY, u "scheme:bearerAuth")].
Proof. vm_compute. reflexivity. Qed.

(** One path item may hold a method in two spellings. Its operations have one
    key, so what the extraction accepts the difference refuses. *)
Definition twice_spelled : bytes := print (JObj
  [(u "openapi", JStr (u "3.0.0")); (u "paths", JObj [(u "/a", JObj [(u "get", JObj []); (u "GET", JObj [])])])]).
Example twice_spelled_refused :
  (fs ← extract_openapi_facts (u "openapi-json") twice_spelled; diff_openapi_facts fs fs) =
  raise ValueError "OpenAPI facts must have unique kind and identifier pairs".
Proof. vm_compute. reflexivity. Qed.

Lemma extract_openapi_facts_spec_witness :
  zlen (facts sample_facts) = 13 /\
  forall f, f ∈ facts sample_facts -> exists root v,
    json_pointer (Some (JObj root)) (fact_pointer f) = JsonValue v /\ observes_value f v.
Proof.
  split; [vm_compute; reflexivity|]. unfold sample_facts.
  pose proof (extract_openapi_facts_spec (u "openapi-json") sample_openapi) as H.
  destruct (extract_openapi_facts (u "openapi-json") sample_openapi) as [fs|e] eqn:E; [|vm_compute in E; discriminate E].
  destruct H as (root & _ & _ & _ & _ & _ & _ & Hf). intros f Hin. destruct (Hf f Hin) as (v & Hv). by exists root, v.
Defined.

(** A limit that moved, a response that went, and a schema that came. *)
Definition later_facts : OpenApiFactsV1 := {|
  facts_schema_version := OPENAPI_FACT_SCHEMA_VERSION; openapi_version := u "3.1.0";
  facts := fact LIMIT (u "component:Pet.name::maxLength") (u "/components/schemas/Pet/properties/name") [(u "value", u "80")] ::
           fact SCHEMA (u "component:Owner") (u "/components/schemas/Owner") [] ::
           List.filter (fun f => negb (bool_decide (fact_kind f = LIMIT \/ fact_kind f = RESPONSE))) (facts sample_facts) |}.
Example sample_differences :
  (ds ← diff_openapi_facts sample_facts later_facts; Ok (map (fun d => (diff_kind d, diff_key d)) ds)) =
  Ok [(CHANGED, (LIMIT, u "component:Pet.name::maxLength"));
      (REMOVED, (LIMIT, u "parameter:path:/pets/{petId}::path:petId::maxLength"));
      (REMOVED, (RESPONSE, u "GET /pets/{petId}::200"));
      (ADDED, (SCHEMA, u "component:Owner"))].
Proof. vm_compute. reflexivity. Qed.
