(* ===== verification/OpenApiConsistency.v ===== *)
(** * OpenAPI consistency ([openapi_consistency.py])

    Cited expectations of the requirements against the facts of the contract:
    each expectation that no fact meets becomes a finding that cites it.

    ** Properties

    The mismatches are the expectations that the contract does not meet, each
    with a well-formed finding that cites its requirement. *)
From Stdlib Require Import SpecFloat.
From S2P Require Import Prelude PyText Json Digest GeneratedTests Ordering Citations Findings OpenApiFacts.
From S2P Require Import JsonFacts AsciiRuntime TextFolding GeneratedTestsFacts Url RestrictedExecution.
From S2P Require Import Redaction JsonPointer RequirementsAnalysis AnalysisSpec OpenApiParser.

Definition OPENAPI_CONSISTENCY_ANALYZER_VERSION : pystr := u "openapi-consistency-rules/v1".
(** [4b4a0ff0-2b7c-4a10-9d1b-c1d8c8e7ad93] *)
Definition OPENAPI_CONSISTENCY_FINDING_NAMESPACE : uuid := 0x4b4a0ff02b7c4a109d1bc1d8c8e7ad93%N.
Definition MAX_FACT_IDENTIFIER_LENGTH : Z := 1000.

Inductive OpenApiConsistencyKind := FIELD | RESPONSE | ENUM | SECURITY | OPERATION | LIMIT.
#[export] Instance consistency_kind_eq_dec : EqDecision OpenApiConsistencyKind.
Proof. solve_decision. Defined.
Definition consistency_kind_value (k : OpenApiConsistencyKind) : pystr :=
  match k with
  | FIELD => u "field" | RESPONSE => u "response" | ENUM => u "enum" | SECURITY => u "security"
  | OPERATION => u "operation" | LIMIT => u "limit"
  end.
#[export] Program Instance consistency_kind_enum : StrEnum OpenApiConsistencyKind := {|
  members := [FIELD; RESPONSE; ENUM; SECURITY; OPERATION; LIMIT]; value := consistency_kind_value |}.
Next Obligation. by intros [] []. Qed.
Next Obligation. intros []; set_solver. Qed.

(** [_EXPECTED_FACT_KINDS] and [expected_fact_kind] *)
Definition expected_fact_kind (k : OpenApiConsistencyKind) : OpenApiFactKind :=
  match k with
  | FIELD => SCHEMA | RESPONSE => OpenApiFacts.RESPONSE | ENUM => OpenApiFacts.ENUM
  | SECURITY => OpenApiFacts.SECURITY | OPERATION => OpenApiFacts.OPERATION | LIMIT => OpenApiFacts.LIMIT
  end.

Abbreviation attribute_list := (list (pystr * pystr)).

Record OpenApiConsistencyExpectation := {
  exp_citation : Citation;
  exp_kind : OpenApiConsistencyKind;
  exp_identifier : pystr;
  expected_attributes : attribute_list;
}.

Record OpenApiConsistencyMismatch := {
  mis_kind : OpenApiConsistencyKind;
  mis_identifier : pystr;
  mis_expected : attribute_list;
  mis_actual : option attribute_list;
  mis_finding : RequirementFindingV1;
}.

Record SeededConsistencyBaseline := {
  total_seeded_defects : Z;
  detected_defects : Z;
  recall : spec_float;
  false_positives : Z;
}.

Definition unfit {A} (msg : string) : result A := raise OpenApiConsistencyRejected msg.
Definition unfit_if (c : bool) (msg : string) : result unit := raise_if c OpenApiConsistencyRejected msg.

(** ** Keys *)

Definition key_of : Type := pystr * pystr * pystr * attribute_list.
Definition expectation_key (e : OpenApiConsistencyExpectation) : key_of :=
  (uuid_str (cite_id (exp_citation e)), value (exp_kind e), exp_identifier e, expected_attributes e).
(** [mismatch.finding.evidence[0]] *)
Definition mismatch_key (m : OpenApiConsistencyMismatch) : result key_of :=
  match evidence (mis_finding m) with
  | e :: _ => Ok (uuid_str (citation_id e), value (mis_kind m), mis_identifier m, mis_expected m)
  | [] => raise IndexError "tuple index out of range"
  end.
Definition expectation_sort_key (e : OpenApiConsistencyExpectation) : list pystr :=
  [value (exp_kind e); exp_identifier e; uuid_str (cite_id (exp_citation e))].

Section analysis.
Context {rt : PyRuntime}.

(** ** Expectations *)

(** [_require_canonical_json] *)
Definition require_canonical_json (value : pystr) : result unit :=
  parsed ← or_raise (loads value)
    (Exn OpenApiConsistencyRejected "Expected attributes must use canonical JSON values");
  unfit_if (negb (str_eqb (dumps_canonical parsed) value)) "Expected attributes must use canonical JSON values".

(** The body of the loop, less the test for repeated expectations. *)
Definition pair_texts (a : pystr * pystr) : list pystr := [a.1; a.2].
Definition validate_expectation (e : OpenApiConsistencyExpectation) : result unit :=
  unfit_if (bool_decide (strip (exp_identifier e) = []) || (MAX_FACT_IDENTIFIER_LENGTH <? zlen (exp_identifier e)))
    "Fact identifiers must be bounded, non-empty text" ;;
  unfit_if (negb (bool_decide (exp_kind e = OPERATION)) && bool_decide (expected_attributes e = []))
    "Non-operation expectations require at least one attribute" ;;
  unfit_if (negb (bool_decide (stable_sort (by_texts pair_texts) (expected_attributes e) = expected_attributes e)))
    "Expected attributes must be sorted deterministically" ;;
  unfit_if (negb (no_repeats (keys (expected_attributes e)))) "Expected attribute names must not repeat" ;;
  try_iter (fun a => require_canonical_json a.2) (expected_attributes e).

(** [_validate_expectations], with the keys seen so far *)
Fixpoint validate_expectations (seen : list key_of) (expectations : list OpenApiConsistencyExpectation) :
    result unit :=
  match expectations with
  | [] => Ok tt
  | e :: expectations =>
      validate_expectation e ;;
      unfit_if (bool_decide (expectation_key e ∈ seen)) "Cited consistency expectations must not repeat" ;;
      validate_expectations (expectation_key e :: seen) expectations
  end.

(** [_index_facts] *)
Definition index_unique_facts (l : list OpenApiFact) : result (list OpenApiFact) :=
  unfit_if (negb (bool_decide (NoDup (fact_key <$> l)))) "OpenAPI facts must have unique kind and identifier pairs" ;;
  Ok l.

(** [_matches_expectation] *)
Definition matches_expectation (e : OpenApiConsistencyExpectation) (fact : option OpenApiFact) : bool :=
  match fact with
  | None => false
  | Some fact =>
      let actual := dict_of (fact_attributes fact) in
      forallb (fun a => bool_decide (dict_get a.1 actual = Some a.2)) (expected_attributes e)
  end.

(** ** Findings *)

(** [_attributes_description] *)
Definition attributes_description (l : attribute_list) : pystr :=
  join (u ", ") ((fun a => a.1 ++ u "=" ++ a.2) <$> l).
Definition actual_description (actual : option attribute_list) : pystr :=
  match actual with Some l => attributes_description l | None => u "the OpenAPI fact is missing" end.

(** [_bounded_evidence_text] *)
Definition ellipsis : N := 0x2026.
Definition bounded_evidence_text (passage : pystr) : result pystr :=
  let normalized := strip passage in
  unfit_if (bool_decide (normalized = [])) "Cited requirement passages must contain non-empty text" ;;
  Ok (if zlen normalized <=? MAX_FINDING_TEXT_LENGTH then normalized
      else take (Z.to_nat (MAX_FINDING_TEXT_LENGTH - 1)) normalized ++ [ellipsis]).

(** [_finding_identity]: tuples are written as lists. *)
Definition attributes_json (l : attribute_list) : json := JList ((fun a => JList [JStr a.1; JStr a.2]) <$> l).
Definition finding_identity (e : OpenApiConsistencyExpectation) (actual : option attribute_list) : pystr :=
  dumps_canonical (JObj
    [(u "analyzer_version", JStr OPENAPI_CONSISTENCY_ANALYZER_VERSION);
     (u "citation_id", JStr (uuid_str (cite_id (exp_citation e))));
     (u "kind", JStr (value (exp_kind e)));
     (u "fact_identifier", JStr (exp_identifier e));
     (u "expected_attributes", attributes_json (expected_attributes e));
     (u "actual_attributes", opt_json attributes_json actual)]).

(** [_finding_for_mismatch]: the finding, before the contract sees it. *)
Definition mismatch_finding (e : OpenApiConsistencyExpectation) (actual : option attribute_list) (text : pystr) :
    RequirementFindingV1 := {|
  finding_id := uuid5 OPENAPI_CONSISTENCY_FINDING_NAMESPACE (finding_identity e actual);
  category := REQUIREMENTS_CONTRACT_MISMATCH;
  severity := if bool_decide (exp_kind e = SECURITY) then HIGH else MEDIUM;
  evidence := [{| citation_id := cite_id (exp_citation e); observed_fact := text |}];
  analysis := value (exp_kind e) ++ u " mismatch for '" ++ exp_identifier e ++ u "': expected " ++
              attributes_description (expected_attributes e) ++ u "; observed " ++ actual_description actual ++ u ".";
  confidence := one;
  recommendation := u "Align the requirement and OpenAPI contract for '" ++ exp_identifier e ++ u "'.";
  unsupported := false; unsupported_reason := None |}.
Definition finding_for_mismatch (e : OpenApiConsistencyExpectation) (actual : option attribute_list) :
    result RequirementFindingV1 :=
  text ← bounded_evidence_text (passage (exp_citation e));
  validate_requirement_finding (finding_payload (mismatch_finding e actual text)).

(** ** The analysis *)

Definition fact_for (e : OpenApiConsistencyExpectation) (index : list OpenApiFact) : option OpenApiFact :=
  indexed (expected_fact_kind (exp_kind e), exp_identifier e) index.
Definition mismatch_for (e : OpenApiConsistencyExpectation) (index : list OpenApiFact) :
    result OpenApiConsistencyMismatch :=
  let actual := fact_attributes <$> fact_for e index in
  finding ← finding_for_mismatch e actual;
  Ok {| mis_kind := exp_kind e; mis_identifier := exp_identifier e; mis_expected := expected_attributes e;
        mis_actual := actual; mis_finding := finding |}.

(** [analyze_openapi_consistency]: the loop, with [continue] as a filter. *)
Definition missed (index : list OpenApiFact) (e : OpenApiConsistencyExpectation) : bool :=
  negb (matches_expectation e (fact_for e index)).
Definition analyze_openapi_consistency (expectations : list OpenApiConsistencyExpectation) (fs : OpenApiFactsV1) :
    result (list OpenApiConsistencyMismatch) :=
  unfit_if (negb (str_eqb (facts_schema_version fs) OPENAPI_FACT_SCHEMA_VERSION))
    "Unsupported OpenAPI facts schema version" ;;
  validate_expectations [] expectations ;;
  index ← index_unique_facts (facts fs);
  try_map (fun e => mismatch_for e index)
    (List.filter (missed index) (stable_sort (by_texts expectation_sort_key) expectations)).

(** [measure_seeded_consistency_baseline]; [a / b] of two counts *)
Definition count_ratio (a b : Z) : spec_float :=
  SFdiv 53 1024 (binary_normalize 53 1024 a 0 false) (binary_normalize 53 1024 b 0 false).
Definition measure_seeded_consistency_baseline (seeded_defects : list OpenApiConsistencyExpectation)
    (mismatches : list OpenApiConsistencyMismatch) : result SeededConsistencyBaseline :=
  unfit_if (bool_decide (seeded_defects = [])) "At least one seeded defect is required" ;;
  let expected_keys := remove_dups (expectation_key <$> seeded_defects) in
  found ← try_map mismatch_key mismatches;
  let detected_keys := remove_dups found in
  let detected := zlen (List.filter (fun k => bool_decide (k ∈ detected_keys)) expected_keys) in
  Ok {| total_seeded_defects := zlen expected_keys;
        detected_defects := detected;
        recall := count_ratio detected (zlen expected_keys);
        false_positives := zlen (List.filter (fun k => negb (bool_decide (k ∈ expected_keys))) detected_keys) |}.
End analysis.

(** * Properties *)

Lemma remove_dups_NoDup_id {A} `{EqDecision A} (l : list A) : NoDup l -> remove_dups l = l.
Proof. induction 1 as [|x l Hx _ IH]; [done|]. cbn. destruct (decide_rel _ x l); [done|by rewrite IH]. Qed.

Lemma filter_sublist {A} (p : A -> bool) l : List.filter p l `sublist_of` l.
Proof. induction l as [|x l IH]; [constructor|]. cbn. destruct (p x); [by apply sublist_skip|by apply sublist_cons]. Qed.

Lemma filter_elem {A} (p : A -> bool) l x : x ∈ List.filter p l <-> x ∈ l /\ p x = true.
Proof. by rewrite !list_elem_of_In, filter_In. Qed.

Lemma fmap_sublist {A B} (f : A -> B) l k : l `sublist_of` k -> (f <$> l) `sublist_of` (f <$> k).
Proof. induction 1; cbn; by constructor. Qed.

(** The last of the pairs with a key is the one that [dict] keeps. *)
Lemma dict_get_dict_of {A} k (l : list (pystr * A)) : dict_get k (dict_of l) = dict_get k (reverse l).
Proof.
  unfold dict_of. induction l as [|[k' v] l IH] using rev_ind; [done|].
  rewrite foldl_app, reverse_snoc. cbn. by rewrite dict_get_set, IH.
Qed.

Section consistency.
Context {rt : PyRuntime}.

(** ** Expectations and what they expect *)

(** A fact of the list has the kind and identifier, and its attributes the
    expected values. *)
Definition meets (fs : list OpenApiFact) (e : OpenApiConsistencyExpectation) : Prop :=
  exists f, f ∈ fs /\ fact_key f = (expected_fact_kind (exp_kind e), exp_identifier e) /\
    forall name v, (name, v) ∈ expected_attributes e -> dict_get name (reverse (fact_attributes f)) = Some v.

Record fit (e : OpenApiConsistencyExpectation) : Prop := {
  fi_identifier : strip (exp_identifier e) <> [] /\ zlen (exp_identifier e) <= MAX_FACT_IDENTIFIER_LENGTH;
  fi_expects : exp_kind e = OPERATION \/ expected_attributes e <> [];
  fi_sorted : StronglySorted (by_texts pair_texts) (expected_attributes e);
  fi_names : NoDup (keys (expected_attributes e));
  fi_values : forall name v, (name, v) ∈ expected_attributes e ->
    exists j, loads v = Some j /\ dumps_canonical j = v;
}.

(** The mismatch [m] reports that [fs] does not meet [e]. *)
Record reports (fs : list OpenApiFact) (e : OpenApiConsistencyExpectation) (m : OpenApiConsistencyMismatch) : Prop := {
  rp_kind : mis_kind m = exp_kind e;
  rp_identifier : mis_identifier m = exp_identifier e;
  rp_expected : mis_expected m = expected_attributes e;
  rp_actual : mis_actual m = fact_attributes <$> fact_for e fs;
  rp_wf : wf_finding (mis_finding m) = true;
  rp_id : finding_id (mis_finding m) =
    uuid5 OPENAPI_CONSISTENCY_FINDING_NAMESPACE (finding_identity e (mis_actual m));
  rp_category : category (mis_finding m) = REQUIREMENTS_CONTRACT_MISMATCH;
  rp_severity : severity (mis_finding m) = if bool_decide (exp_kind e = SECURITY) then HIGH else MEDIUM;
  rp_supported : unsupported (mis_finding m) = false;
  rp_cites : exists text, bounded_evidence_text (passage (exp_citation e)) = Ok text /\
    evidence (mis_finding m) = [{| citation_id := cite_id (exp_citation e); observed_fact := strip text |}];
}.

Definition analysis_refusal (c : exn_class) : Prop :=
  c = OpenApiConsistencyRejected \/ c = RequirementFindingValidationError.

(** ** Validation *)

Lemma unfit_if_then {A} (c : bool) msg (m : result A) x : (unfit_if c msg ;; m) = Ok x -> c = false /\ m = Ok x.
Proof. by destruct c. Qed.

Lemma require_canonical_Ok v : require_canonical_json v = Ok tt -> exists j, loads v = Some j /\ dumps_canonical j = v.
Proof.
  unfold require_canonical_json. intros (j & Hj%or_raise_Ok & H)%bind_Ok. exists j. split; [done|].
  unfold unfit_if in H. destruct (str_eqb _ _) eqn:E; [by apply str_eqb_eq|done].
Qed.

Lemma validate_expectation_Ok e : validate_expectation e = Ok tt -> fit e.
Proof.
  unfold validate_expectation. intros H. apply unfit_if_then in H as [[H1 H1']%orb_false_iff H].
  apply unfit_if_then in H as [H2 H]. apply unfit_if_then in H as [H3%negb_false_iff H].
  apply unfit_if_then in H as [H4%negb_false_iff H]. apply try_iter_Ok in H.
  apply bool_decide_eq_false in H1. apply Z.ltb_ge in H1'. apply bool_decide_eq_true in H3, H4. split; [done| | |done|].
  - apply andb_false_iff in H2 as [H2%negb_false_iff%bool_decide_eq_true|H2%bool_decide_eq_false]; auto.
  - rewrite <- H3. by apply (stable_sort_sorted (by_texts pair_texts)).
  - intros name v Hin. rewrite Forall_forall in H. by apply (require_canonical_Ok v), (H (name, v)).
Qed.

Lemma validate_expectations_Ok exps : forall seen, validate_expectations seen exps = Ok tt ->
  Forall fit exps /\ NoDup (expectation_key <$> exps) /\ (forall e, e ∈ exps -> expectation_key e ∉ seen).
Proof.
  induction exps as [|e exps IH]; intros seen H; cbn [validate_expectations] in H.
  { split; [constructor|]. split; [constructor|]. by intros e ?%not_elem_of_nil. }
  apply bind_Ok in H as ([] & He%validate_expectation_Ok & H). apply unfit_if_then in H as [Hs%bool_decide_eq_false H].
  apply IH in H as (Hf & Hn & Hseen). split; [by constructor|]. rewrite fmap_cons, NoDup_cons. split; [split; [|done]|].
  - intros (e' & Hk & Hin)%list_elem_of_fmap. destruct (Hseen e' Hin). rewrite <- Hk. left.
  - intros e' [->|Hin]%elem_of_cons; [done|]. intros Hs'. apply (Hseen e' Hin). by right.
Qed.

Lemma validate_expectations_errors exps : forall seen,
  raises (eq OpenApiConsistencyRejected) (validate_expectations seen exps).
Proof.
  assert (forall c msg, raises (eq OpenApiConsistencyRejected) (unfit_if c msg)) as Hu by (intros; by apply raises_raise_if).
  induction exps as [|e exps IH]; intros seen; cbn [validate_expectations]; [apply raises_Ok|].
  apply raises_bind; [|intros _ _; apply raises_bind; [apply Hu|intros _ _; apply IH]].
  unfold validate_expectation. repeat (apply raises_bind; [apply Hu|intros _ _]). apply raises_try_iter. intros [name v] _.
  apply raises_bind; [by apply raises_or_raise|intros j _; apply Hu].
Qed.

(** ** Matching *)

Lemma matches_meets e fs : NoDup (fact_key <$> fs) -> matches_expectation e (fact_for e fs) = true <-> meets fs e.
Proof.
  intros Hn. unfold fact_for, meets. destruct (indexed _ fs) as [f|] eqn:E; cbn.
  - apply indexed_Some in E as [Hk Hf]. rewrite forallb_forall. split.
    + intros H. exists f. split; [done|]. split; [done|]. intros name v Hin%list_elem_of_In.
      specialize (H _ Hin). apply bool_decide_eq_true in H. by rewrite dict_get_dict_of in H.
    + intros (g & Hg & Hkg & H) [name v] Hin%list_elem_of_In. apply bool_decide_eq_true.
      assert (f = g) as -> by (apply (indexed_NoDup _ _ Hn) in Hf, Hg; congruence).
      rewrite dict_get_dict_of. by apply H.
  - split; [done|]. intros (g & Hg & Hk & _). apply indexed_None in E. destruct E. apply list_elem_of_fmap. by exists g.
Qed.

(** ** Findings *)

Lemma validate_kinds f f' : validate_requirement_finding (finding_payload f) = Ok f' ->
  category f' = category f /\ severity f' = severity f.
Proof.
  unfold validate_requirement_finding.
  rewrite !(field_eq "category" _ (JStr (value (category f)))), (field_eq "severity" _ (JStr (value (severity f)))) by done.
  intros H. ok_inv. cbn.
  assert (finding_enum (T:=FindingCategory) (JStr (category_value (category f))) "Finding category" = Ok (category f)) as Hc
    by exact (finding_enum_complete (category f) _).
  assert (finding_enum (T:=FindingSeverity) (JStr (severity_value (severity f))) "Finding severity" = Ok (severity f)) as Hs
    by exact (finding_enum_complete (severity f) _).
  split; congruence.
Qed.

Lemma finding_errors_float f : raises (eq RequirementFindingValidationError) (validate_requirement_finding (finding_payload f)).
Proof.
  intros e He. destruct (finding_errors (finding_payload f) e He) as [H|(_ & z & Hz & _)]; [done|]. discriminate Hz.
Qed.

Lemma mismatch_for_errors e fs : raises analysis_refusal (mismatch_for e fs).
Proof.
  unfold mismatch_for, finding_for_mismatch. cbv zeta. apply raises_bind; [|intros f _; apply raises_Ok]. apply raises_bind.
  - unfold bounded_evidence_text. apply raises_bind; [by apply raises_raise_if; left|intros _ _; apply raises_Ok].
  - intros text _. eapply raises_weaken; [apply finding_errors_float|]. intros c <-. by right.
Qed.

Lemma identity_bound e actual : uuid_ok (uuid5 OPENAPI_CONSISTENCY_FINDING_NAMESPACE (finding_identity e actual)) = true.
Proof. apply uuid_ok_lt, uuid5_bound. Qed.

Lemma mismatch_for_Ok e fs m : (cite_id (exp_citation e) < 2 ^ 128)%N -> mismatch_for e fs = Ok m -> reports fs e m.
Proof.
  intros Hc. unfold mismatch_for, finding_for_mismatch. cbv zeta. set (actual := fact_attributes <$> _).
  intros (f & Hf & [= <-])%bind_Ok. apply bind_Ok in Hf as (text & Htext & Hf).
  pose proof (validate_kinds _ _ Hf) as [Hcat Hsev]. pose proof (validate_finding_sound _ _ Hf) as Hwf.
  destruct (validate_payload (mismatch_finding e actual text) f) as (Hid & Hev & Hun); [apply identity_bound| |exact Hf|].
  { cbn [mismatch_finding evidence forallb citation_id]. rewrite andb_true_r. by apply uuid_ok_lt. }
  split; try done. exists text. split; [done|]. cbn [mismatch_finding evidence mis_finding] in Hev |- *.
  apply Forall2_cons_inv_l in Hev as (e' & l & [E1 E2] & ->%Forall2_nil_inv_l & ->). cbn in E1, E2. destruct e'; cbn in *. by subst.
Qed.

(** ** Keys and measures *)

Lemma mismatch_key_reports fs e m : reports fs e m -> mismatch_key m = Ok (expectation_key e).
Proof. intros [Hk Hi He _ _ _ _ _ _ (text & _ & Hev)]. unfold mismatch_key. by rewrite Hev, Hk, Hi, He. Qed.

Lemma detected_all exps es ms fs : NoDup (expectation_key <$> exps) ->
  NoDup (expectation_key <$> es) -> es ⊆ exps -> exps <> [] -> Forall2 (reports fs) es ms ->
  exists b, measure_seeded_consistency_baseline exps ms = Ok b /\ total_seeded_defects b = zlen exps /\
    detected_defects b = zlen ms /\ false_positives b = 0.
Proof.
  intros Hn Hne' Hin Hne Hr.
  unfold measure_seeded_consistency_baseline. unfold unfit_if. rewrite raise_if_false by by apply bool_decide_eq_false.
  rewrite bind_ok. assert (try_map mismatch_key ms = Ok (expectation_key <$> es)) as ->.
  { apply try_map_Ok. apply Forall2_flip, Forall2_fmap_l. eapply Forall2_impl; [exact Hr|]. intros e m. apply mismatch_key_reports. }
  rewrite bind_ok. cbv zeta. rewrite !remove_dups_NoDup_id by done. eexists. split; [reflexivity|]. cbn.
  assert ((expectation_key <$> es) ⊆ (expectation_key <$> exps)) as Hks
    by (intros k (e & -> & He)%list_elem_of_fmap; apply list_elem_of_fmap; eauto).
  split; [by unfold zlen; rewrite length_fmap|]. split.
  - unfold zlen.
    rewrite <- (Forall2_length _ _ _ Hr), <- (length_fmap expectation_key es). f_equal. apply Permutation_length.
    apply NoDup_Permutation; [|done|].
    + eapply sublist_NoDup; [exact Hn|apply filter_sublist].
    + intros k. rewrite filter_elem, bool_decide_eq_true. split; [by intros []|]. intros Hk. split; [by apply Hks|done].
  - assert (List.filter (fun k => negb (bool_decide (k ∈ expectation_key <$> exps))) (expectation_key <$> es) = []) as ->; [|done].
    apply elem_of_nil_inv. intros k [Hk Hb%negb_true_iff%bool_decide_eq_false]%filter_elem. by apply Hb, Hks.
Qed.

(** C36: The analysis reports exactly what the contract does not meet. It is
    refused with one of two exceptions, or every expectation is fit, no two
    expectations share a key and no two facts do; the mismatches are, in the
    order of kind, identifier and citation, those expectations whose
    attributes no fact carries under the expected kind and identifier, each
    with the attributes that were found and with a well-formed, supported
    finding that cites the requirement's own passage; and measured against its
    own expectations an analysis detects each mismatch and has no false
    positive. *)
Theorem analyze_openapi_consistency_spec exps fs :
  Forall (fun e => cite_id (exp_citation e) < 2 ^ 128)%N exps ->
  match analyze_openapi_consistency exps fs with
  | Ok ms =>
      Forall fit exps /\ NoDup (expectation_key <$> exps) /\ NoDup (fact_key <$> facts fs) /\
      (exists es, Forall2 (reports (facts fs)) es ms /\ NoDup es /\
         StronglySorted (by_texts expectation_sort_key) es /\
         forall e, e ∈ es <-> e ∈ exps /\ ~ meets (facts fs) e) /\
      (exps <> [] -> exists b, measure_seeded_consistency_baseline exps ms = Ok b /\
         total_seeded_defects b = zlen exps /\ detected_defects b = zlen ms /\ false_positives b = 0)
  | Raise e => analysis_refusal (exn_cls e)
  end.
Proof.
  intros Hc. destruct (analyze_openapi_consistency exps fs) as [ms|e] eqn:H.
  - unfold analyze_openapi_consistency in H. apply unfit_if_then in H as [_ H].
    apply bind_Ok in H as ([] & (Hf & Hn & _)%validate_expectations_Ok & H). apply bind_Ok in H as (index & Hi & H).
    apply unfit_if_then in Hi as [Hi%negb_false_iff%bool_decide_eq_true [= <-]]. apply try_map_Ok in H.
    set (es := List.filter _ _) in H.
    assert (NoDup (expectation_key <$> es)) as Hne.
    { eapply sublist_NoDup; [|apply (fmap_sublist expectation_key), filter_sublist]. by rewrite stable_sort_Permutation. }
    assert (forall e, e ∈ es <-> e ∈ exps /\ ~ meets (facts fs) e) as Hes.
    { intros e. unfold es. rewrite filter_elem, stable_sort_Permutation. unfold missed.
      by rewrite negb_true_iff, <- not_true_iff_false, matches_meets. }
    assert (Forall2 (reports (facts fs)) es ms) as Hr.
    { rewrite Forall_forall in Hc. apply Forall2_same_length_lookup in H as [Hl H].
      apply Forall2_same_length_lookup. split; [done|]. intros i e m He Hm. apply mismatch_for_Ok; [|by eapply H].
      by apply Hc, Hes, (list_elem_of_lookup_2 _ i). }
    split; [done|]. split; [done|]. split; [done|]. split.
    + exists es. split; [done|]. split; [by eapply NoDup_fmap_1|]. split; [|done].
      eapply StronglySorted_sublist; [apply filter_sublist|]. by apply (stable_sort_sorted (by_texts expectation_sort_key)).
    + intros Hne0. eapply detected_all; [done|done| |done|exact Hr]. intros e He. by apply Hes.
  - revert e H. change (raises analysis_refusal (analyze_openapi_consistency exps fs)). unfold analyze_openapi_consistency.
    apply raises_bind; [by apply raises_raise_if; left|intros _ _].
    apply raises_bind; [eapply raises_weaken; [apply validate_expectations_errors|intros c <-; by left]|intros _ _].
    apply raises_bind; [|intros index _; apply raises_try_map; intros e _; apply mismatch_for_errors].
    unfold index_unique_facts. apply raises_bind; [by apply raises_raise_if; left|intros _ _; apply raises_Ok].
Qed.
End consistency.

(** ** A concrete analysis *)

Definition requirement_citation (id : uuid) (text : pystr) : Citation := {|
  cite_id := id; cite_project_id := 1; cite_trace_id := 9; cite_chunk_id := 10; cite_version_id := 2;
  source_location := {| sl_id := 5; sl_kind := u "text_line_range"; sl_heading := None; sl_line_start := Some 1; sl_line_end := Some 1;
    sl_page_start := None; sl_page_end := None; sl_json_pointer := None |}; cite_type := u "requirements"; cite_display_name := u "Pets";
  passage := text; cite_created_at := 0 |}.
Definition sample_expectations : list OpenApiConsistencyExpectation :=
  [{| exp_citation := requirement_citation 210 (u " Names have at most 80 characters. ");
      exp_kind := LIMIT; exp_identifier := u "component:Pet.name::maxLength";
      expected_attributes := [(u "value", u "80")] |};
   {| exp_citation := requirement_citation 211 (u "A pet can be read."); exp_kind := OPERATION;
      exp_identifier := u "GET /pets/{petId}"; expected_attributes := [(u "operationId", dumps_canonical (JStr (u "getPet")))] |};
   {| exp_citation := requirement_citation 212 (u "A pet can be deleted."); exp_kind := OPERATION;
      exp_identifier := u "DELETE /pets/{petId}"; expected_attributes := [] |}].

(** The limit is another, the operation is there, and one is missing. *)
Definition sample_mismatches : result (list OpenApiConsistencyMismatch) :=
  analyze_openapi_consistency sample_expectations sample_facts.
Example sample_mismatches_found :
  (ms ← sample_mismatches; Ok (map (fun m => (mis_kind m, mis_identifier m, mis_actual m)) ms)) =
  Ok [(LIMIT, u "component:Pet.name::maxLength", Some [(u "value", u "120")]);
      (OPERATION, u "DELETE /pets/{petId}", None)].
Proof. vm_compute. reflexivity. Qed.

(** Half of the expectations hold: the recall is the binary64 of 2/3. *)
Example sample_recall :
  (ms ← sample_mismatches; b ← measure_seeded_consistency_baseline sample_expectations ms;
   Ok (detected_defects b, total_seeded_defects b, recall b)) =
  Ok (2, 3, S754_finite false 6004799503160661 (-53)).
Proof. vm_compute. reflexivity. Qed.

Lemma analyze_openapi_consistency_spec_witness :
  Forall (fun e => cite_id (exp_citation e) < 2 ^ 128)%N sample_expectations /\
  exists ms, sample_mismatches = Ok ms /\ Forall fit sample_expectations /\
    exists es, Forall2 (reports (facts sample_facts)) es ms /\
      forall e, e ∈ es <-> e ∈ sample_expectations /\ ~ meets (facts sample_facts) e.
Proof.
  assert (Forall (fun e => cite_id (exp_citation e) < 2 ^ 128)%N sample_expectations) as Hc
    by (repeat (apply Forall_cons_2; [vm_compute; reflexivity|]); apply Forall_nil_2).
  assert (is_ok sample_mismatches = true) as Hok by (vm_compute; reflexivity).
  split; [exact Hc|]. pose proof (analyze_openapi_consistency_spec sample_expectations sample_facts Hc) as H.
  revert H Hok. unfold sample_mismatches.
  destruct (analyze_openapi_consistency sample_expectations sample_facts) as [ms|e]; intros H Hok; [|discriminate Hok].
  exists ms. split; [reflexivity|]. destruct H as (Hf & _ & _ & (es & Hr & _ & _ & Hes) & _). split; [exact Hf|]. by exists es.
Defined.
