(* ===== verification/Auth.v ===== *)
(** * Authentication ([auth.py])

    Who a request comes from: the settings of the deployment, the validation
    of Cognito access tokens over the JWT library, and the resolution of the
    owner.  The library is an interface.

    ** Properties

    An owner is resolved exactly from a token that the configured issuer
    signed for its owner, or by the bypass of a local deployment. *)
From S2P Require Import Prelude PyText Json Digest GeneratedTests Url JsonFacts AsciiRuntime Samples.

Definition COGNITO_SIGNING_ALGORITHM : pystr := u "RS256".
Definition COGNITO_TOKEN_USE : pystr := u "access".
Definition OWNER_REQUIRED_DETAIL : pystr := u "Owner access required".
Definition INVALID_CREDENTIALS_DETAIL : pystr := u "Invalid or missing credentials".
Definition GUEST_READ_ONLY_DETAIL : pystr := u "Guest access is read-only".

Inductive AppEnvironment := LOCAL | PREVIEW | PRODUCTION.
#[export] Instance app_environment_eq_dec : EqDecision AppEnvironment.
Proof. solve_decision. Defined.
Definition app_environment_value (e : AppEnvironment) : pystr :=
  match e with LOCAL => u "local" | PREVIEW => u "preview" | PRODUCTION => u "production" end.
#[export] Program Instance app_environment_enum : StrEnum AppEnvironment := {|
  members := [LOCAL; PREVIEW; PRODUCTION]; value := app_environment_value |}.
Next Obligation. by intros [] []. Qed.
Next Obligation. intros []; set_solver. Qed.

Record CognitoSettings := { issuer : pystr; client_id : pystr; owner_subject : pystr }.
Record AuthSettings := {
  app_env : AppEnvironment; local_auth_bypass_enabled : bool; cognito : option CognitoSettings }.
Record CognitoIdentity := { id_issuer : pystr; id_subject : pystr }.
#[export] Instance identity_eq_dec : EqDecision CognitoIdentity.
Proof. solve_decision. Defined.

Inductive OwnerPrincipal :=
  | CognitoOwnerPrincipal (issuer subject : pystr)
  | LocalDevelopmentOwnerPrincipal.
(** Owners, and the anonymous guest *)
Inductive ApplicationPrincipal := Owner (p : OwnerPrincipal) | AnonymousGuestPrincipal.

Record OwnerResolutionFailure := {
  status_code : Z; detail : pystr; failure_reason : pystr; failure_actor_id : option pystr }.
Record HTTPException := { http_status : Z; http_detail : pystr; http_headers : option (list (pystr * pystr)) }.

(** The library: the header of a token, the signing key that the key set at a
    URL has for it, the key's algorithm, and [decode] with the signature, the
    times and the issuer verified and the five claims required.  [None] is one
    of the exceptions that the validator catches. *)
Class JwtLibrary := {
  jwt_key : Type;
  unverified_header : pystr -> option (list (pystr * json));
  signing_key : pystr -> pystr -> option jwt_key;
  algorithm_name : jwt_key -> pystr;
  jwt_decode : pystr -> jwt_key -> list pystr -> pystr -> option (list (pystr * json));
}.

Section auth.
Context {rt : PyRuntime} {nr : NetRuntime}.

(** [CognitoSettings.jwks_url] *)
Definition jwks_url (c : CognitoSettings) : pystr :=
  reverse (drop_while (N.eqb 47) (reverse (issuer c))) ++ u "/.well-known/jwks.json".

(** [CognitoSettings.validate] *)
Definition misconfigured {A} (msg : string) : result A := raise AuthConfigurationError msg.
Definition misconfigured_if (c : bool) (msg : string) : result unit := raise_if c AuthConfigurationError msg.
Definition check_value (name : string) (v : pystr) : result unit :=
  misconfigured_if (bool_decide (v = []) || negb (str_eqb v (strip v))) (name +:+ " must be a non-empty value").
Definition validate_cognito (c : CognitoSettings) : result unit :=
  check_value "COGNITO_ISSUER" (issuer c) ;;
  check_value "COGNITO_CLIENT_ID" (client_id c) ;;
  check_value "COGNITO_OWNER_SUBJECT" (owner_subject c) ;;
  url ← or_raise (urlsplit (issuer c)) (Exn ValueError "Invalid URL");
  misconfigured_if
    (negb (str_eqb (scheme url) (u "https")) || bool_decide (hostname url = None) ||
     negb (bool_decide ((userinfo url).1 = None)) || negb (bool_decide ((userinfo url).2 = None)) ||
     negb (bool_decide (url_query url = [])) || negb (bool_decide (fragment url = [])))
    "COGNITO_ISSUER must be an HTTPS issuer URL without credentials, query, or fragment".

(** [AuthSettings.validate] *)
Definition validate_settings (s : AuthSettings) : result unit :=
  misconfigured_if (local_auth_bypass_enabled s && negb (bool_decide (app_env s = LOCAL)))
    "LOCAL_AUTH_BYPASS_ENABLED may be true only when APP_ENV=local" ;;
  match cognito s with Some c => validate_cognito c | None => Ok tt end ;;
  misconfigured_if (negb (bool_decide (app_env s = LOCAL)) && match cognito s with Some _ => false | None => true end)
    "Preview and production require complete Cognito configuration".

(** [AuthSettings.from_mapping] *)
Definition environment_text (name : string) (environment : list (pystr * pystr)) : pystr :=
  strip (default [] (dict_get (u name) environment)).
Definition settings_from_mapping (environment : list (pystr * pystr)) : result AuthSettings :=
  let raw_app_env := environment_text "APP_ENV" environment in
  misconfigured_if (bool_decide (raw_app_env = [])) "APP_ENV must be explicitly configured" ;;
  env ← or_raise (enum_of raw_app_env)
          (Exn AuthConfigurationError "APP_ENV must be one of: local, preview, production");
  let normalized_bypass :=
    str_lower (strip (default (u "false") (dict_get (u "LOCAL_AUTH_BYPASS_ENABLED") environment))) in
  misconfigured_if (negb (bool_decide (normalized_bypass ∈ [u "true"; u "false"])))
    "LOCAL_AUTH_BYPASS_ENABLED must be exactly true or false" ;;
  let values := {| issuer := environment_text "COGNITO_ISSUER" environment;
                   client_id := environment_text "COGNITO_CLIENT_ID" environment;
                   owner_subject := environment_text "COGNITO_OWNER_SUBJECT" environment |} in
  let configured := (fun v => negb (bool_decide (v = []))) <$> [issuer values; client_id values; owner_subject values] in
  misconfigured_if (existsb (fun b => b) configured && negb (forallb (fun b => b) configured))
    "COGNITO_ISSUER, COGNITO_CLIENT_ID, and COGNITO_OWNER_SUBJECT must be configured together" ;;
  let settings := {| app_env := env; local_auth_bypass_enabled := str_eqb normalized_bypass (u "true");
                     cognito := if forallb (fun b => b) configured then Some values else None |} in
  validate_settings settings ;;
  Ok settings.

Section tokens.
Context {jwt : JwtLibrary}.

(** [CognitoJwtValidator._required_string_claim] *)
Definition untrusted {A} (msg : string) : result A := raise InvalidCredentialsError msg.
Definition untrusted_if (c : bool) (msg : string) : result unit := raise_if c InvalidCredentialsError msg.
Definition required_string_claim (claims : list (pystr * json)) (name : string) : result pystr :=
  match dict_get (u name) claims with
  | Some (JStr (c :: s)) => Ok (c :: s)
  | _ => untrusted ("Invalid " +:+ name +:+ " claim")
  end.

(** [CognitoJwtValidator.validate] *)
Definition is_text (v : option json) (s : pystr) : bool :=
  match v with Some (JStr t) => str_eqb t s | _ => false end.
Definition validate_token (c : CognitoSettings) (token : pystr) : result CognitoIdentity :=
  let failed := Exn InvalidCredentialsError "Cognito token validation failed" in
  header ← or_raise (unverified_header token) failed;
  untrusted_if (negb (is_text (dict_get (u "alg") header) COGNITO_SIGNING_ALGORITHM)) "Unapproved token algorithm" ;;
  untrusted_if (match dict_get (u "kid") header with Some (JStr (_ :: _)) => false | _ => true end)
    "Missing token key identifier" ;;
  key ← or_raise (signing_key (jwks_url c) token) failed;
  untrusted_if (negb (str_eqb (algorithm_name key) COGNITO_SIGNING_ALGORITHM)) "Unapproved JWKS signing algorithm" ;;
  claims ← or_raise (jwt_decode token key [COGNITO_SIGNING_ALGORITHM] (issuer c)) failed;
  iss ← required_string_claim claims "iss";
  sub ← required_string_claim claims "sub";
  client ← required_string_claim claims "client_id";
  token_use ← required_string_claim claims "token_use";
  untrusted_if (negb (str_eqb client (client_id c))) "Unexpected Cognito client ID" ;;
  untrusted_if (negb (str_eqb token_use COGNITO_TOKEN_USE)) "Unexpected Cognito token use" ;;
  Ok {| id_issuer := iss; id_subject := sub |}.

(** ** The boundary *)

(** [AuthBoundary._bearer_token] *)
Definition bearer_token (authorization : option pystr) : option pystr :=
  match authorization with
  | None => None
  | Some authorization =>
      let '(scheme, separator, credentials) := partition 32 authorization in
      let token := strip credentials in
      if negb separator || negb (str_eqb (str_lower scheme) (u "bearer")) || bool_decide (token = []) ||
         existsb cp_isspace token
      then None else Some token
  end.

(** [AuthBoundary.__init__] with the validator of its own *)
Definition auth_boundary (s : AuthSettings) : result AuthSettings :=
  validate_settings s ;;
  match cognito s with Some c => validate_cognito c | None => Ok tt end ;;
  Ok s.

Definition unauthenticated : OwnerResolutionFailure := {|
  status_code := 401; detail := INVALID_CREDENTIALS_DETAIL;
  failure_reason := u "invalid_or_missing_credentials"; failure_actor_id := None |}.
Definition not_the_owner (identity : CognitoIdentity) : OwnerResolutionFailure := {|
  status_code := 403; detail := OWNER_REQUIRED_DETAIL; failure_reason := u "valid_non_owner";
  failure_actor_id := Some (id_subject identity) |}.
Definition owner_identity (c : CognitoSettings) : CognitoIdentity :=
  {| id_issuer := issuer c; id_subject := owner_subject c |}.

(** [AuthBoundary.resolve_owner]; a validator exists exactly when Cognito is
    configured. *)
Definition resolve_owner (s : AuthSettings) (authorization : option pystr) :
    OwnerResolutionFailure + OwnerPrincipal :=
  if local_auth_bypass_enabled s then inr LocalDevelopmentOwnerPrincipal
  else
    match bearer_token authorization, cognito s with
    | Some token, Some c =>
        match validate_token c token with
        | Raise _ => inl unauthenticated
        | Ok identity =>
            if bool_decide (identity = owner_identity c)
            then inr (CognitoOwnerPrincipal (id_issuer identity) (id_subject identity))
            else inl (not_the_owner identity)
        end
    | _, _ => inl unauthenticated
    end.

(** [OwnerResolutionFailure.as_http_exception] and [AuthBoundary.require_owner] *)
Definition as_http_exception (f : OwnerResolutionFailure) : HTTPException := {|
  http_status := status_code f; http_detail := detail f;
  http_headers := if status_code f =? 401 then Some [(u "WWW-Authenticate", u "Bearer")] else None |}.
Definition require_owner (s : AuthSettings) (authorization : option pystr) : HTTPException + OwnerPrincipal :=
  match resolve_owner s authorization with
  | inl f => inl (as_http_exception f)
  | inr p => inr p
  end.

(** [AuthBoundary.resolve_public_demo_principal] *)
Definition resolve_public_demo_principal (s : AuthSettings) (authorization : option pystr) :
    OwnerResolutionFailure + ApplicationPrincipal :=
  if local_auth_bypass_enabled s then inr (Owner LocalDevelopmentOwnerPrincipal)
  else
    match authorization with
    | None => inr AnonymousGuestPrincipal
    | Some _ => match resolve_owner s authorization with inl f => inl f | inr p => inr (Owner p) end
    end.

(** [AuthBoundary.require_anonymous_guest_read] *)
Definition require_anonymous_guest_read (method : pystr) : HTTPException + ApplicationPrincipal :=
  if bool_decide (method ∈ [u "GET"; u "HEAD"]) then inr AnonymousGuestPrincipal
  else inl {| http_status := 403; http_detail := GUEST_READ_ONLY_DETAIL; http_headers := None |}.
End tokens.
End auth.

(** * Properties *)

Section auth.
Context {rt : PyRuntime} {nr : NetRuntime}.

(** ** Deployments *)

Lemma misconfigured_if_then {A} c msg (m : result A) x : (misconfigured_if c msg ;; m) = Ok x <-> c = false /\ m = Ok x.
Proof. destruct c; cbn; [split; [discriminate|by intros []]|naive_solver]. Qed.

Lemma check_value_Ok name v : check_value name v = Ok tt -> v <> [] /\ strip v = v.
Proof.
  unfold check_value, misconfigured_if. intros H%raise_if_Ok. apply orb_false_iff in H as [H1 H2].
  apply bool_decide_eq_false in H1. apply negb_false_iff, str_eqb_eq in H2. done.
Qed.

Lemma validate_cognito_Ok c : validate_cognito c = Ok tt ->
  (owner_subject c <> [] /\ strip (owner_subject c) = owner_subject c) /\
  exists url, urlsplit (issuer c) = Some url /\ scheme url = u "https" /\ userinfo url = (None, None).
Proof.
  unfold validate_cognito. intros H. apply bind_Ok in H as ([] & _ & H). apply bind_Ok in H as ([] & _ & H).
  apply bind_Ok in H as ([] & Hs%check_value_Ok & H). apply bind_Ok in H as (url & Hu%or_raise_Ok & H).
  split; [done|]. exists url. split; [done|]. unfold misconfigured_if in H. apply raise_if_Ok in H. bools.
  repeat match goal with E : _ || _ = false |- _ => apply orb_false_iff in E as [? ?] end. bools.
  split; [by apply str_eqb_eq|]. by destruct (userinfo url) as [? ?]; cbn in *; subst.
Qed.

Lemma validate_settings_Ok s : validate_settings s = Ok tt ->
  (local_auth_bypass_enabled s = true -> app_env s = LOCAL) /\
  (forall c, cognito s = Some c -> validate_cognito c = Ok tt) /\
  (app_env s <> LOCAL -> cognito s <> None).
Proof.
  unfold validate_settings. intros H. apply misconfigured_if_then in H as [Hb H]. apply bind_Ok in H as ([] & Hc & H).
  unfold misconfigured_if in H. apply raise_if_Ok in H. apply andb_false_iff in Hb, H. split; [|split].
  - intros E. destruct Hb as [Hb|Hb]; [congruence|]. by bools.
  - intros c E. by rewrite E in Hc.
  - intros Hl E. destruct H as [H|H]; [by bools|]. by rewrite E in H.
Qed.

Lemma settings_valid environment s : settings_from_mapping environment = Ok s -> validate_settings s = Ok tt.
Proof.
  unfold settings_from_mapping. cbv zeta. intros H. apply misconfigured_if_then in H as [_ H].
  apply bind_Ok in H as (env & _ & H). apply misconfigured_if_then in H as [_ H].
  apply misconfigured_if_then in H as [_ H]. by apply bind_Ok in H as ([] & Hv & [= <-]).
Qed.

Lemma settings_boundary environment s : settings_from_mapping environment = Ok s -> auth_boundary s = Ok s.
Proof.
  intros H%settings_valid. unfold auth_boundary. rewrite H, bind_ok. apply validate_settings_Ok in H as (_ & Hc & _).
  destruct (cognito s) as [c|]; [by rewrite Hc|done].
Qed.

(** What the environment says of the bypass. *)
Lemma settings_bypass environment s : settings_from_mapping environment = Ok s -> local_auth_bypass_enabled s = true ->
  app_env s = LOCAL /\ strip (default [] (dict_get (u "APP_ENV") environment)) = u "local" /\
  str_lower (strip (default (u "false") (dict_get (u "LOCAL_AUTH_BYPASS_ENABLED") environment))) = u "true".
Proof.
  intros H Hb. pose proof (settings_valid _ _ H) as [Hl _]%validate_settings_Ok. specialize (Hl Hb). split; [done|].
  unfold settings_from_mapping in H. cbv zeta in H. apply misconfigured_if_then in H as [_ H].
  apply bind_Ok in H as (env & Henv%or_raise_Ok & H). apply misconfigured_if_then in H as [_ H].
  apply misconfigured_if_then in H as [_ H]. apply bind_Ok in H as ([] & _ & [= <-]). cbn in Hb, Hl. subst env.
  split; [|by apply str_eqb_eq]. unfold environment_text in Henv.
  apply find_some in Henv as [_ E]. apply bool_decide_eq_true in E. by rewrite <- E.
Qed.

Section tokens.
Context {jwt : JwtLibrary}.

(** ** Trust *)

(** The header of a request presents a token. *)
Definition presents (authorization : option pystr) (token : pystr) : Prop :=
  exists scheme credentials, authorization = Some (scheme ++ 32%N :: credentials) /\ 32%N ∉ scheme /\
    str_lower scheme = u "bearer" /\ token = strip credentials /\ token <> [] /\ existsb cp_isspace token = false.

Definition text_claim (claims : list (pystr * json)) (name : string) (s : pystr) : Prop :=
  dict_get (u name) claims = Some (JStr s) /\ s <> [].

(** The token is an access token of the configured client that a key of the
    configured issuer signed with the one algorithm that is accepted. *)
Record trusted (c : CognitoSettings) (token iss sub : pystr) : Prop := {
  tr_header : exists header kid, unverified_header token = Some header /\
    dict_get (u "alg") header = Some (JStr (u "RS256")) /\ text_claim header "kid" kid;
  tr_claims : exists key claims, signing_key (jwks_url c) token = Some key /\ algorithm_name key = u "RS256" /\
    jwt_decode token key [u "RS256"] (issuer c) = Some claims /\
    text_claim claims "iss" iss /\ text_claim claims "sub" sub /\
    text_claim claims "client_id" (client_id c) /\ text_claim claims "token_use" (u "access");
}.

Lemma bearer_presents authorization token : bearer_token authorization = Some token <-> presents authorization token.
Proof.
  unfold bearer_token, presents. destruct authorization as [a|]; [|by split; [|intros (? & ? & ? & _)]].
  destruct (partition 32 a) as [[scheme sep] credentials] eqn:Ep. pose proof (partition_spec _ _ _ _ _ Ep) as [Ha Hno]. split.
  - intros H. destruct (_ || _ || _ || _) eqn:E in H; [discriminate H|]. injection H as <-.
    repeat match goal with E : _ || _ = false |- _ => apply orb_false_iff in E as [E ?] end. bools. subst sep a.
    exists scheme, credentials. split; [done|]. split; [done|]. split; [by apply str_eqb_eq|done].
  - intros (scheme' & credentials' & [= E] & Hno' & Hs & -> & Hne & Hsp). rewrite E, partition_first in Ep by done.
    injection Ep as <- <- <-. rewrite Hs, str_eqb_refl, Hsp, bool_decide_false by done. done.
Qed.

Lemma is_text_iff v s : is_text v s = true <-> v = Some (JStr s).
Proof. destruct v as [[| | | |t| |]|]; cbn; try (by split). rewrite str_eqb_eq. naive_solver. Qed.

Lemma claim_Ok claims name s : required_string_claim claims name = Ok s <-> text_claim claims name s.
Proof.
  unfold required_string_claim, text_claim. destruct (dict_get (u name) claims) as [[| | | |[|c t]| |]|];
    split; try done; try (by intros [[=] _]).
  - by intros [[= <-] ?].
  - by intros [= <-].
  - by intros [[= <-] _].
Qed.

Lemma untrusted_if_then {A} c msg (m : result A) x : (untrusted_if c msg ;; m) = Ok x <-> c = false /\ m = Ok x.
Proof. destruct c; cbn; [split; [discriminate|by intros []]|naive_solver]. Qed.

Lemma validate_token_iff c token iss sub :
  validate_token c token = Ok {| id_issuer := iss; id_subject := sub |} <-> trusted c token iss sub.
Proof.
  unfold validate_token. split.
  - intros H. apply bind_Ok in H as (header & Hh%or_raise_Ok & H).
    apply untrusted_if_then in H as [Ha%negb_false_iff%is_text_iff H]. apply untrusted_if_then in H as [Hk H].
    apply bind_Ok in H as (key & Hkey%or_raise_Ok & H). apply untrusted_if_then in H as [Hkn%negb_false_iff%str_eqb_eq H].
    apply bind_Ok in H as (claims & Hc%or_raise_Ok & H). apply bind_Ok in H as (i & Hi%claim_Ok & H).
    apply bind_Ok in H as (s & Hs%claim_Ok & H). apply bind_Ok in H as (cl & Hcl%claim_Ok & H).
    apply bind_Ok in H as (tu & Htu%claim_Ok & H). apply untrusted_if_then in H as [->%negb_false_iff%str_eqb_eq H].
    apply untrusted_if_then in H as [->%negb_false_iff%str_eqb_eq [= <- <-]]. split; [|by exists key, claims].
    exists header. destruct (dict_get (u "kid") header) as [[| | | |[|k t]| |]|] eqn:Ekid; try discriminate Hk.
    by exists (k :: t).
  - intros [(header & kid & Hh & Ha & Hk & Hkne) (key & claims & Hkey & Hkn & Hd & Hi & Hs & Hcl & Htu)].
    rewrite Hh. cbn [or_raise]. rewrite bind_ok, Ha. destruct kid as [|k kid]; [done|]. rewrite Hk.
    change (is_text (Some (JStr (u "RS256"))) COGNITO_SIGNING_ALGORITHM) with true. cbn [negb untrusted_if raise_if].
    rewrite !bind_ok, Hkey. cbn [or_raise]. rewrite bind_ok, Hkn. change (str_eqb (u "RS256") COGNITO_SIGNING_ALGORITHM) with true.
    cbn [negb untrusted_if raise_if]. rewrite bind_ok. unfold COGNITO_SIGNING_ALGORITHM. rewrite Hd. cbn [or_raise]. rewrite bind_ok.
    rewrite (proj2 (claim_Ok _ _ _) Hi), bind_ok, (proj2 (claim_Ok _ _ _) Hs), bind_ok,
      (proj2 (claim_Ok _ _ _) Hcl), bind_ok, (proj2 (claim_Ok _ _ _) Htu), bind_ok, !str_eqb_refl.
    reflexivity.
Qed.

Lemma validate_token_trusted c token id : validate_token c token = Ok id <-> trusted c token (id_issuer id) (id_subject id).
Proof. destruct id. apply validate_token_iff. Qed.

Lemma bearer_absent authorization : bearer_token authorization = None -> forall token, ~ presents authorization token.
Proof. intros H token Hp%bearer_presents. congruence. Qed.

(** C16: Who the owner is. In a deployment configured from its environment, the
    local principal is resolved exactly under the bypass, which only the local
    environment can enable; a Cognito principal is resolved exactly when the
    request presents, in a well-formed bearer header, a token that the
    configured issuer's key signed with RS256 for the configured client as an
    access token, and whose issuer and subject are those of the owner. Every
    other request is refused: with 403 and the subject when the token is
    trusted but another's, with 401 and no identity otherwise. *)
Theorem resolve_owner_spec environment s authorization : settings_from_mapping environment = Ok s ->
  match resolve_owner s authorization with
  | inr LocalDevelopmentOwnerPrincipal => local_auth_bypass_enabled s = true /\ app_env s = LOCAL /\
      strip (default [] (dict_get (u "APP_ENV") environment)) = u "local"
  | inr (CognitoOwnerPrincipal iss sub) => local_auth_bypass_enabled s = false /\
      exists c token, cognito s = Some c /\ presents authorization token /\ trusted c token iss sub /\
        iss = issuer c /\ sub = owner_subject c
  | inl f => local_auth_bypass_enabled s = false /\
      ((status_code f = 403 /\ exists c token iss sub, cognito s = Some c /\ presents authorization token /\
          trusted c token iss sub /\ (iss, sub) <> (issuer c, owner_subject c) /\ failure_actor_id f = Some sub) \/
       (status_code f = 401 /\ failure_actor_id f = None /\ forall c token iss sub, cognito s = Some c ->
          presents authorization token -> ~ trusted c token iss sub))
  end.
Proof.
  intros Hs. unfold resolve_owner. destruct (local_auth_bypass_enabled s) eqn:Hb.
  { destruct (settings_bypass _ _ Hs Hb) as (Hl & He & _). done. }
  destruct (bearer_token authorization) as [token|] eqn:Ht.
  - apply bearer_presents in Ht as Hp. assert (forall token', presents authorization token' -> token' = token) as Hu
      by (intros t' Ht'%bearer_presents; congruence).
    destruct (cognito s) as [c|]; [|split; [done|right]; by split_and!].
    destruct (validate_token c token) as [id|e] eqn:Hv.
    + pose proof (proj1 (validate_token_trusted _ _ _) Hv) as Htr. case_bool_decide as Hid.
      * split; [done|]. exists c, token. subst id. done.
      * split; [done|]. left. split; [done|]. exists c, token, (id_issuer id), (id_subject id). split_and!; try done.
        intros [= E1 E2]. apply Hid. destruct id; cbn in *. by subst.
    + split; [done|]. right. split; [done|]. split; [done|]. intros c' token' iss sub [= <-] Hp' Htr.
      rewrite (Hu token' Hp') in Htr. apply validate_token_iff in Htr. congruence.
  - split; [done|]. right. split; [done|]. split; [done|]. intros c token iss sub _ Hp. by destruct (bearer_absent _ Ht token).
Qed.
End tokens.
End auth.

(** ** A concrete deployment *)

(** A library that knows the access tokens of two subjects, both signed by
    the key of one issuer. *)
Definition sample_issuer : pystr := u "https://idp.example.com/pool".
Definition sample_claims (sub : pystr) : list (pystr * json) :=
  [(u "iss", JStr sample_issuer); (u "sub", JStr sub); (u "client_id", JStr (u "web")); (u "token_use", JStr (u "access"))].
#[export] Instance sample_jwt : JwtLibrary := {|
  jwt_key := pystr;
  unverified_header token := Some [(u "alg", JStr (if str_eqb token (u "unsigned") then u "none" else u "RS256")); (u "kid", JStr (u "k1"))];
  signing_key url token := if str_eqb url (sample_issuer ++ u "/.well-known/jwks.json") then Some (u "RS256") else None;
  algorithm_name key := key;
  jwt_decode token key algorithms iss :=
    if bool_decide (key ∈ algorithms) && str_eqb iss sample_issuer && bool_decide (token ∈ [u "alice"; u "bob"])
    then Some (sample_claims token) else None |}.
Definition sample_environment : list (pystr * pystr) :=
  [(u "APP_ENV", u "production"); (u "COGNITO_ISSUER", sample_issuer); (u "COGNITO_CLIENT_ID", u "web");
   (u "COGNITO_OWNER_SUBJECT", u "alice")].
Definition sample_settings : AuthSettings := {|
  app_env := PRODUCTION; local_auth_bypass_enabled := false;
  cognito := Some {| issuer := sample_issuer; client_id := u "web"; owner_subject := u "alice" |} |}.

Example sample_configured : settings_from_mapping sample_environment = Ok sample_settings.
Proof. vm_compute. reflexivity. Qed.
(** The bypass cannot be switched on outside the local environment. *)
Example bypass_refused :
  settings_from_mapping ((u "LOCAL_AUTH_BYPASS_ENABLED", u "TRUE") :: sample_environment) =
  raise AuthConfigurationError "LOCAL_AUTH_BYPASS_ENABLED may be true only when APP_ENV=local".
Proof. vm_compute. reflexivity. Qed.
Example sample_owner : resolve_owner sample_settings (Some (u "BEARER  alice ")) =
  inr (CognitoOwnerPrincipal sample_issuer (u "alice")).
Proof. vm_compute. reflexivity. Qed.
Example sample_other : resolve_owner sample_settings (Some (u "Bearer bob")) =
  inl (not_the_owner {| id_issuer := sample_issuer; id_subject := u "bob" |}).
Proof. vm_compute. reflexivity. Qed.
Example sample_unsigned : resolve_owner sample_settings (Some (u "Bearer unsigned")) = inl unauthenticated.
Proof. vm_compute. reflexivity. Qed.

Lemma resolve_owner_spec_witness :
  settings_from_mapping sample_environment = Ok sample_settings /\
  exists c token, cognito sample_settings = Some c /\ presents (Some (u "Bearer alice")) token /\
    trusted c token sample_issuer (u "alice").
Proof.
  assert (settings_from_mapping sample_environment = Ok sample_settings) as Hs by (vm_compute; reflexivity).
  split; [exact Hs|]. pose proof (resolve_owner_spec sample_environment sample_settings (Some (u "Bearer alice")) Hs) as H.
  destruct (resolve_owner sample_settings (Some (u "Bearer alice"))) as [f|[iss sub|]] eqn:E; try (vm_compute in E; discriminate E).
  assert (iss = sample_issuer /\ sub = u "alice") as [-> ->] by (vm_compute in E; injection E as <- <-; split; reflexivity).
  destruct H as (_ & c & token & Hc & Hp & Ht & _). exists c, token. split; [exact Hc|split; [exact Hp|exact Ht]].
Defined.
