(* ===== verification/Authorization.v ===== *)
(** * Project authorization and its audit ([audit.py], [authorization.py])

    Every authorization decision is an immutable event that is handed to an
    append-only sink; a decision whose event the sink refuses does not
    stand.

    ** Authorization

    The policy that lets an owner act on one exact resource of one project,
    and the boundary that resolves the owner first.  Every decision is
    audited before it takes effect.

    ** Properties

    Every decision leaves the one event that says it, what cannot be audited
    is not decided, and an owner may act on the resources of the project. *)
From S2P Require Import Prelude PyText Json Digest GeneratedTests Database Url Auth JsonFacts AsciiRuntime.
From S2P Require Import Samples.

Inductive AuditPrincipalType := OWNER | GUEST | AUTHENTICATED_NON_OWNER | UNKNOWN.
#[export] Instance principal_type_eq_dec : EqDecision AuditPrincipalType.
Proof. solve_decision. Defined.
Definition principal_type_value (t : AuditPrincipalType) : pystr :=
  match t with
  | OWNER => u "owner" | GUEST => u "guest" | AUTHENTICATED_NON_OWNER => u "authenticated_non_owner"
  | UNKNOWN => u "unknown"
  end.
Inductive AuditResult := ALLOWED | DENIED.
#[export] Instance audit_result_eq_dec : EqDecision AuditResult.
Proof. solve_decision. Defined.

Record AuthorizationActor := { principal_type : AuditPrincipalType; actor_id : option pystr }.

Record AuthorizationAuditEvent := {
  event_id : uuid;
  occurred_at : datetime;
  correlation_id : uuid;
  ev_actor : AuthorizationActor;
  ev_action : pystr;
  ev_result : AuditResult;
  ev_reason : pystr;
  resource_type : pystr;
  resource_id : option pystr;
  ev_resource_version : option pystr;
  ev_project_id : option pystr;
}.

Section audit.
Context {rt : PyRuntime}.

(** [AuthorizationActor.__post_init__] *)
Definition check_actor (a : AuthorizationActor) : result unit :=
  match principal_type a, actor_id a with
  | OWNER, Some id | AUTHENTICATED_NON_OWNER, Some id =>
      raise_if (bool_decide (strip id = [])) ValueError "Identified authorization actors require an actor ID"
  | OWNER, None | AUTHENTICATED_NON_OWNER, None =>
      raise ValueError "Identified authorization actors require an actor ID"
  | GUEST, Some _ | UNKNOWN, Some _ => raise ValueError "Guest and unknown actors must not carry an actor ID"
  | GUEST, None | UNKNOWN, None => Ok tt
  end.
Definition make_actor (t : AuditPrincipalType) (id : option pystr) : result AuthorizationActor :=
  let actor := {| principal_type := t; actor_id := id |} in
  check_actor actor ;; Ok actor.

(** [not value or value != value.strip()] *)
Definition padded (s : pystr) : bool := bool_decide (s = []) || negb (str_eqb s (strip s)).

(** [AuthorizationAuditEvent.__post_init__] *)
Definition check_event (e : AuthorizationAuditEvent) : result unit :=
  raise_if ((event_id e =? 0)%N || (correlation_id e =? 0)%N) ValueError
    "Authorization audit IDs must be non-zero UUIDs" ;;
  raise_if (is_null (utcoffset (occurred_at e))) ValueError
    "Authorization audit timestamps must be timezone-aware" ;;
  check_actor (ev_actor e) ;;
  try_iter (fun f => raise_if (padded f.2) ValueError ("Authorization audit " +:+ f.1 +:+ " must be non-empty"))
    [("action"%string, ev_action e); ("reason"%string, ev_reason e); ("resource_type"%string, resource_type e)] ;;
  try_iter (fun f => raise_if (match f.2 with Some v => padded v | None => false end) ValueError
                       ("Authorization audit " +:+ f.1 +:+ " must be non-empty when present"))
    [("resource_id"%string, resource_id e); ("resource_version"%string, ev_resource_version e);
     ("project_id"%string, ev_project_id e)].

(** ** The auditor *)

(** The event log of the sink, and how many events were made so far. *)
Record audit_world := { audit_log : list AuthorizationAuditEvent; audit_calls : nat }.
(** The clock and the identifiers of the auditor, and what its sink takes. *)
Record audit_environment := {
  event_id_at : nat -> uuid;
  audit_clock : nat -> datetime;
  sink_accepts : nat -> AuthorizationAuditEvent -> bool;
}.

(** [AuthorizationAuditor.record] *)
Definition audit_event (env : audit_environment) (n : nat) (correlation : uuid) (actor : AuthorizationActor)
    (action : pystr) (outcome : AuditResult) (reason kind : pystr) (id version project : option pystr) :
    AuthorizationAuditEvent := {|
  event_id := event_id_at env n; occurred_at := audit_clock env n; correlation_id := correlation;
  ev_actor := actor; ev_action := action; ev_result := outcome; ev_reason := reason;
  resource_type := kind; resource_id := id; ev_resource_version := version; ev_project_id := project |}.
Definition sink_record (env : audit_environment) (event : AuthorizationAuditEvent) (w : audit_world) :
    result AuthorizationAuditEvent * audit_world :=
  let n := audit_calls w in
  if sink_accepts env n event
  then (Ok event, {| audit_log := audit_log w ++ [event]; audit_calls := S n |})
  else (raise AuthorizationAuditUnavailable "Authorization audit sink rejected the decision",
        {| audit_log := audit_log w; audit_calls := S n |}).
Definition auditor_record (env : audit_environment) (correlation : uuid) (actor : AuthorizationActor)
    (action : pystr) (outcome : AuditResult) (reason kind : pystr) (id version project : option pystr)
    (w : audit_world) : result AuthorizationAuditEvent * audit_world :=
  let event := audit_event env (audit_calls w) correlation actor action outcome reason kind id version project in
  match check_event event with
  | Ok _ => sink_record env event w
  | Raise e => (Raise e, {| audit_log := audit_log w; audit_calls := S (audit_calls w) |})
  end.
End audit.

(** * Authorization *)

Definition PRIVATE_RESOURCE_NOT_FOUND_DETAIL : pystr := u "Resource not found".
Definition LOCAL_DEVELOPMENT_ACTOR_ID : pystr := u "local-development-owner".

Inductive ProjectAction :=
  | READ | MUTATE | INGEST | READ_RAW_OBJECT | INVOKE_MODEL | ENQUEUE_JOB | APPROVE | EXECUTE | LIST.
#[export] Instance project_action_eq_dec : EqDecision ProjectAction.
Proof. solve_decision. Defined.
Definition action_text (a : ProjectAction) : pystr :=
  match a with
  | READ => u "project.read" | MUTATE => u "project.mutate" | INGEST => u "project.document.ingest"
  | READ_RAW_OBJECT => u "project.raw_object.read" | INVOKE_MODEL => u "project.model.invoke"
  | ENQUEUE_JOB => u "project.job.enqueue" | APPROVE => u "project.approval.mutate"
  | EXECUTE => u "project.execution.start" | LIST => u "project.list"
  end.
Inductive ProjectResourceType := PROJECT | ARTIFACT | RAW_OBJECT | REPORT | JOB | APPROVAL | EXECUTION.
#[export] Instance resource_type_eq_dec : EqDecision ProjectResourceType.
Proof. solve_decision. Defined.
Definition resource_type_text (t : ProjectResourceType) : pystr :=
  match t with
  | PROJECT => u "project" | ARTIFACT => u "artifact" | RAW_OBJECT => u "raw_object" | REPORT => u "report"
  | JOB => u "job" | APPROVAL => u "approval" | EXECUTION => u "execution"
  end.
Inductive DenialDisclosure := NOT_FOUND | FORBIDDEN.

Record ProjectResourceReference := {
  res_project_id : uuid; res_type : ProjectResourceType; res_id : uuid; resource_version : option pystr }.
Record AuthorizedProjectScope := {
  scope_principal : OwnerPrincipal; scope_project_id : uuid; scope_action : ProjectAction;
  scope_resource : ProjectResourceReference }.
Record AuthorizedProjectCollectionScope := {
  collection_principal : OwnerPrincipal; collection_action : ProjectAction }.
Record AuthorizationDenied := { disclosure : DenialDisclosure; public_detail : pystr; denial_reason : pystr }.

(** [AuthorizationDenied.status_code] *)
Definition denied_status (d : AuthorizationDenied) : Z :=
  match disclosure d with FORBIDDEN => 403 | NOT_FOUND => 404 end.

(** What leaves the boundary instead of a scope. *)
Inductive refusal :=
  | Unresolved (f : OwnerResolutionFailure)
  | Denied (d : AuthorizationDenied)
  | Failed (e : exn).

(** Computations that audit: a refusal or a value, with the log they leave. *)
Definition audited (A : Type) : Type := audit_world -> (refusal + A) * audit_world.
#[export] Instance audited_ret : MRet audited := fun A a w => (inr a, w).
#[export] Instance audited_bind : MBind audited := fun A B f m w =>
  match m w with
  | (inr a, w) => f a w
  | (inl r, w) => (inl r, w)
  end.
Definition refuse_with {A} (r : refusal) : audited A := fun w => (inl r, w).
Definition checked {A} (m : result A) : audited A := fun w =>
  match m with Ok a => (inr a, w) | Raise e => (inl (Failed e), w) end.

Section authorization.
Context {rt : PyRuntime}.

(** [ProjectResourceReference.__post_init__] *)
Definition make_reference (project_id : uuid) (t : ProjectResourceType) (id : uuid) (version : option pystr) :
    result ProjectResourceReference :=
  raise_if ((project_id =? 0)%N || (id =? 0)%N) ValueError "Project and resource IDs must be non-zero UUIDs" ;;
  raise_if (match version with Some v => padded v | None => false end) ValueError
    "Resource version must be a non-empty value when present" ;;
  Ok {| res_project_id := project_id; res_type := t; res_id := id; resource_version := version |}.
(** [ProjectResourceReference.project] *)
Definition project_reference (project_id : uuid) : result ProjectResourceReference :=
  make_reference project_id PROJECT project_id None.

(** [actor_for_principal] and [actor_for_owner_resolution_failure] *)
Definition actor_for_principal (p : ApplicationPrincipal) : result AuthorizationActor :=
  match p with
  | Owner (CognitoOwnerPrincipal _ subject) => make_actor OWNER (Some subject)
  | Owner LocalDevelopmentOwnerPrincipal => make_actor OWNER (Some LOCAL_DEVELOPMENT_ACTOR_ID)
  | AnonymousGuestPrincipal => make_actor GUEST None
  end.
Definition actor_for_owner_resolution_failure (f : OwnerResolutionFailure) : result AuthorizationActor :=
  make_actor (match failure_actor_id f with Some _ => AUTHENTICATED_NON_OWNER | None => UNKNOWN end)
    (failure_actor_id f).

Context (env : audit_environment).

Definition record_event (correlation : uuid) (actor : AuthorizationActor) (action : pystr) (outcome : AuditResult)
    (reason kind : pystr) (id version project : option pystr) : audited unit := fun w =>
  match auditor_record env correlation actor action outcome reason kind id version project w with
  | (Ok _, w) => (inr tt, w)
  | (Raise e, w) => (inl (Failed e), w)
  end.

(** [ProjectAuthorizationPolicy._record] and [_deny] *)
Definition record_decision (correlation : uuid) (actor : AuthorizationActor) (action : ProjectAction)
    (outcome : AuditResult) (reason : pystr) (requested : uuid) (resource : ProjectResourceReference) : audited unit :=
  record_event correlation actor (action_text action) outcome reason (resource_type_text (res_type resource))
    (Some (uuid_str (res_id resource))) (resource_version resource) (Some (uuid_str requested)).
Definition denial (reason : pystr) : AuthorizationDenied := {|
  disclosure := NOT_FOUND; public_detail := PRIVATE_RESOURCE_NOT_FOUND_DETAIL; denial_reason := reason |}.
Definition deny {A} (correlation : uuid) (actor : AuthorizationActor) (action : ProjectAction) (reason : pystr)
    (requested : uuid) (resource : ProjectResourceReference) : audited A :=
  record_decision correlation actor action DENIED reason requested resource ;;
  refuse_with (Denied (denial reason)).

(** The test of raw objects in [authorize] *)
Definition raw_object_invalid (action : ProjectAction) (resource : ProjectResourceReference) : bool :=
  let raw := bool_decide (res_type resource = RAW_OBJECT) in
  let reads := bool_decide (action = READ_RAW_OBJECT) in
  (raw && negb reads) || (reads && negb raw) || (raw && is_null (resource_version resource)).

(** [ProjectAuthorizationPolicy.authorize] *)
Definition authorize (principal : ApplicationPrincipal) (action : ProjectAction) (requested : uuid)
    (resource : ProjectResourceReference) (correlation : uuid) : audited AuthorizedProjectScope :=
  actor ← checked (actor_for_principal principal);
  if raw_object_invalid action resource then
    deny correlation actor action (u "raw_object_action_or_version_invalid") requested resource
  else
    match principal with
    | AnonymousGuestPrincipal =>
        deny correlation actor action (u "guest_private_project_access") requested resource
    | Owner owner =>
        if negb (requested =? res_project_id resource)%N then
          deny correlation actor action (u "project_scope_mismatch") requested resource
        else
          record_decision correlation actor action ALLOWED (u "owner_project_scope_match") requested resource ;;
          mret {| scope_principal := owner; scope_project_id := requested; scope_action := action;
                  scope_resource := resource |}
    end.

(** [ProjectAuthorizationPolicy.authorize_collection] *)
Definition record_collection (correlation : uuid) (actor : AuthorizationActor) (action : ProjectAction)
    (outcome : AuditResult) (reason : pystr) : audited unit :=
  record_event correlation actor (action_text action) outcome reason (u "project_collection") None None None.
Definition authorize_collection (principal : ApplicationPrincipal) (action : ProjectAction) (correlation : uuid) :
    audited AuthorizedProjectCollectionScope :=
  actor ← checked (actor_for_principal principal);
  match principal with
  | AnonymousGuestPrincipal =>
      record_collection correlation actor action DENIED (u "guest_private_project_collection_access") ;;
      refuse_with (Denied (denial (u "guest_private_project_collection_access")))
  | Owner owner =>
      record_collection correlation actor action ALLOWED (u "owner_project_collection_access") ;;
      mret {| collection_principal := owner; collection_action := action |}
  end.

(** ** The boundary *)

Context {nr : NetRuntime} {jwt : JwtLibrary} (settings : AuthSettings).

(** [ProjectAuthorizationBoundary.authorize_request] *)
Definition authorize_request (authorization : option pystr) (action : ProjectAction) (requested : uuid)
    (resource : ProjectResourceReference) (correlation : uuid) : audited AuthorizedProjectScope :=
  match resolve_owner settings authorization with
  | inl failure =>
      actor ← checked (actor_for_owner_resolution_failure failure);
      record_decision correlation actor action DENIED (failure_reason failure) requested resource ;;
      refuse_with (Unresolved failure)
  | inr principal => authorize (Owner principal) action requested resource correlation
  end.

(** [ProjectAuthorizationBoundary.authorize_collection_request] *)
Definition authorize_collection_request (authorization : option pystr) (action : ProjectAction) (correlation : uuid) :
    audited AuthorizedProjectCollectionScope :=
  match resolve_owner settings authorization with
  | inl failure =>
      actor ← checked (actor_for_owner_resolution_failure failure);
      record_collection correlation actor action DENIED (failure_reason failure) ;;
      refuse_with (Unresolved failure)
  | inr principal => authorize_collection (Owner principal) action correlation
  end.
End authorization.

(** * Properties *)

(** A request to act, as the boundary receives it. *)
Record action_request := {
  rq_authorization : option pystr; rq_action : ProjectAction; rq_project : uuid;
  rq_resource : ProjectResourceReference; rq_correlation : uuid }.

Section authorization.
Context {rt : PyRuntime} {nr : NetRuntime} {jwt : JwtLibrary}.

(** Raw objects are read, and only by their exact version. *)
Definition raw_object_rule (action : ProjectAction) (resource : ProjectResourceReference) : Prop :=
  (res_type resource = RAW_OBJECT <-> action = READ_RAW_OBJECT) /\
  (res_type resource = RAW_OBJECT -> resource_version resource <> None).

Definition audit_failure (e : exn) : Prop := exn_cls e = ValueError \/ exn_cls e = AuthorizationAuditUnavailable.

Lemma raw_object_valid action resource : raw_object_invalid action resource = false <-> raw_object_rule action resource.
Proof.
  unfold raw_object_invalid, raw_object_rule. cbv zeta.
  destruct (bool_decide_reflect (res_type resource = RAW_OBJECT)) as [Er|Er],
    (bool_decide_reflect (action = READ_RAW_OBJECT)) as [Ea|Ea]; cbn.
  - destruct (resource_version resource); cbn; split; try done. by intros [_ H]; destruct H.
  - split; [done|]. intros [[H _] _]. by destruct Ea; apply H.
  - split; [done|]. intros [[_ H] _]. by destruct Er; apply H.
  - split; [|done]. intros _. split; [by split|done].
Qed.

(** ** What auditing does *)

Definition extended (w : audit_world) (e : AuthorizationAuditEvent) : audit_world :=
  {| audit_log := audit_log w ++ [e]; audit_calls := S (audit_calls w) |}.

Lemma try_iter_errors {A} (f : A -> result unit) l : (forall x, raises (eq ValueError) (f x)) -> raises (eq ValueError) (try_iter f l).
Proof. intros H. apply raises_try_iter. intros x _. apply H. Qed.

Lemma check_actor_errors a : raises (eq ValueError) (check_actor a).
Proof. unfold check_actor. destruct (principal_type a), (actor_id a); first [apply raises_Ok|by apply raises_raise|by apply raises_raise_if]. Qed.

Lemma check_event_errors e : raises (eq ValueError) (check_event e).
Proof.
  unfold check_event. apply raises_bind; [by apply raises_raise_if|intros _ _].
  apply raises_bind; [by apply raises_raise_if|intros _ _]. apply raises_bind; [apply check_actor_errors|intros _ _].
  apply raises_bind; [|intros _ _]; apply try_iter_errors; intros x; by apply raises_raise_if.
Qed.

Lemma make_actor_Ok t id a : make_actor t id = Ok a -> a = {| principal_type := t; actor_id := id |}.
Proof. unfold make_actor. cbv zeta. by intros (? & _ & [= <-])%bind_Ok. Qed.
Lemma make_actor_errors t id : raises (eq ValueError) (make_actor t id).
Proof. unfold make_actor. cbv zeta. apply raises_bind; [apply check_actor_errors|intros _ _; apply raises_Ok]. Qed.

Section decisions.
Context (env : audit_environment).

(** Either the event is in the log afterwards, or nothing is. *)
Lemma record_event_cases correlation actor action outcome reason kind id version project w :
  let e := audit_event env (audit_calls w) correlation actor action outcome reason kind id version project in
  record_event env correlation actor action outcome reason kind id version project w = (inr tt, extended w e) \/
  exists x w', record_event env correlation actor action outcome reason kind id version project w = (inl (Failed x), w') /\
    audit_failure x /\ audit_log w' = audit_log w.
Proof.
  cbv zeta. unfold record_event, auditor_record. cbv zeta. set (e := audit_event _ _ _ _ _ _ _ _ _ _ _).
  destruct (check_event e) as [[]|x] eqn:Hc.
  - unfold sink_record. cbv zeta. destruct (sink_accepts env (audit_calls w) e); [by left|right].
    eexists _, _. split; [reflexivity|]. split; [by right|done].
  - right. exists x. eexists. split; [reflexivity|]. split; [|done]. left. symmetry. by eapply check_event_errors.
Qed.

(** When it is. *)
Lemma record_event_accepted correlation actor action outcome reason kind id version project w :
  let e := audit_event env (audit_calls w) correlation actor action outcome reason kind id version project in
  check_event e = Ok tt -> sink_accepts env (audit_calls w) e = true ->
  record_event env correlation actor action outcome reason kind id version project w = (inr tt, extended w e).
Proof. cbv zeta. intros Hc Hs. unfold record_event, auditor_record. cbv zeta. rewrite Hc. unfold sink_record. cbv zeta. by rewrite Hs. Qed.

Context (s : AuthSettings).

Definition decide_request (r : action_request) : audited AuthorizedProjectScope :=
  authorize_request env s (rq_authorization r) (rq_action r) (rq_project r) (rq_resource r) (rq_correlation r).

(** The event is about the request. *)
Definition concerns (r : action_request) (e : AuthorizationAuditEvent) : Prop :=
  ev_action e = action_text (rq_action r) /\ correlation_id e = rq_correlation r /\
  resource_type e = resource_type_text (res_type (rq_resource r)) /\
  resource_id e = Some (uuid_str (res_id (rq_resource r))) /\
  ev_resource_version e = resource_version (rq_resource r) /\ ev_project_id e = Some (uuid_str (rq_project r)).

(** The outcome of the request is what the event says, and rightly so. *)
Definition explains (r : action_request) (o : refusal + AuthorizedProjectScope) (e : AuthorizationAuditEvent) : Prop :=
  concerns r e /\
  match o with
  | inr scope => ev_result e = ALLOWED /\ principal_type (ev_actor e) = OWNER /\
      (exists p, resolve_owner s (rq_authorization r) = inr p /\
         scope = {| scope_principal := p; scope_project_id := rq_project r; scope_action := rq_action r;
                    scope_resource := rq_resource r |}) /\
      res_project_id (rq_resource r) = rq_project r /\ raw_object_rule (rq_action r) (rq_resource r)
  | inl (Denied d) => ev_result e = DENIED /\ ev_reason e = denial_reason d /\
      denied_status d = 404 /\ public_detail d = PRIVATE_RESOURCE_NOT_FOUND_DETAIL /\
      (exists p, resolve_owner s (rq_authorization r) = inr p) /\
      (~ raw_object_rule (rq_action r) (rq_resource r) \/ res_project_id (rq_resource r) <> rq_project r)
  | inl (Unresolved f) => ev_result e = DENIED /\ ev_reason e = failure_reason f /\
      resolve_owner s (rq_authorization r) = inl f /\ actor_id (ev_actor e) = failure_actor_id f /\
      (status_code f = 401 /\ detail f = INVALID_CREDENTIALS_DETAIL \/
       status_code f = 403 /\ detail f = OWNER_REQUIRED_DETAIL)
  | inl (Failed _) => False
  end.

(** What an unresolved caller is told. *)
Lemma resolve_owner_details authorization f : resolve_owner s authorization = inl f ->
  status_code f = 401 /\ detail f = INVALID_CREDENTIALS_DETAIL \/
  status_code f = 403 /\ detail f = OWNER_REQUIRED_DETAIL.
Proof.
  unfold resolve_owner. destruct (local_auth_bypass_enabled s); [done|].
  destruct (bearer_token authorization) as [token|]; [|intros [= <-]; by left].
  destruct (cognito s) as [c|]; [|intros [= <-]; by left].
  destruct (validate_token c token) as [identity|e]; [|intros [= <-]; by left].
  case_bool_decide; [done|]. intros [= <-]. by right.
Qed.

Lemma audited_step {A B} (m : audited A) (f : A -> audited B) w a w' : m w = (inr a, w') -> (m ≫= f) w = f a w'.
Proof. intros H. unfold mbind, audited_bind. by rewrite H. Qed.
Lemma audited_stop {A B} (m : audited A) (f : A -> audited B) w r w' : m w = (inl r, w') -> (m ≫= f) w = (inl r, w').
Proof. intros H. unfold mbind, audited_bind. by rewrite H. Qed.

Lemma owner_actor p actor : actor_for_principal (Owner p) = Ok actor -> principal_type actor = OWNER.
Proof. destruct p; cbn [actor_for_principal]; by intros ->%make_actor_Ok. Qed.

(** The one refusal that no event can say: of a trusted token whose subject is
    blank. *)
Lemma blank_subject_not_audited f sub : failure_actor_id f = Some sub -> strip sub = [] ->
  actor_for_owner_resolution_failure f = raise ValueError "Identified authorization actors require an actor ID".
Proof. intros Hf Hs. unfold actor_for_owner_resolution_failure, make_actor. rewrite Hf. cbn. by rewrite bool_decide_true. Qed.

(** Recording a decision and what follows it. *)
Lemma decision_cases {A} r actor outcome reason (rest : audited A) w o w' :
  (record_decision env (rq_correlation r) actor (rq_action r) outcome reason (rq_project r) (rq_resource r) ;; rest) w = (o, w') ->
  (exists e, concerns r e /\ ev_result e = outcome /\ ev_reason e = reason /\ ev_actor e = actor /\ rest (extended w e) = (o, w')) \/
  exists x, o = inl (Failed x) /\ audit_failure x /\ audit_log w' = audit_log w.
Proof.
  unfold record_decision. set (kind := resource_type_text _).
  destruct (record_event_cases (rq_correlation r) actor (action_text (rq_action r)) outcome reason kind
    (Some (uuid_str (res_id (rq_resource r)))) (resource_version (rq_resource r)) (Some (uuid_str (rq_project r))) w)
    as [E|(x & w1 & E & Hx & Hl)].
  - rewrite (audited_step _ _ _ _ _ E). intros H. left.
    eexists. split; [|split; [|split; [|split; [|exact H]]]]; [by split_and!|done..].
  - rewrite (audited_stop _ _ _ _ _ E). intros [= <- <-]. right. by exists x.
Qed.

(** One request. *)
Lemma decide_request_cases r w o w' : decide_request r w = (o, w') ->
  (exists e, explains r o e /\ audit_log w' = audit_log w ++ [e]) \/
  (exists x, o = inl (Failed x) /\ audit_failure x /\ audit_log w' = audit_log w).
Proof.
  unfold decide_request, authorize_request. destruct (resolve_owner s (rq_authorization r)) as [f|p] eqn:Hr.
  - destruct (actor_for_owner_resolution_failure f) as [actor|x] eqn:Ha.
    + rewrite (audited_step _ _ _ actor w) by done.
      intros [(e & Hc & Hres & Hreason & Hactor & E)|H]%decision_cases; [left|by right]. injection E as <- <-.
      exists e. split; [|done]. split; [done|]. cbn. split; [done|]. split; [done|]. split; [done|].
      split; [|by eapply resolve_owner_details]. rewrite Hactor.
      unfold actor_for_owner_resolution_failure in Ha. apply make_actor_Ok in Ha. by subst actor.
    + rewrite (audited_stop _ _ _ (Failed x) w) by done. intros [= <- <-]. right. exists x.
      split; [done|]. split; [|done]. left. symmetry. by eapply make_actor_errors.
  - unfold authorize. destruct (actor_for_principal (Owner p)) as [actor|x] eqn:Ha.
    + rewrite (audited_step _ _ _ actor w) by done.
      destruct (raw_object_invalid (rq_action r) (rq_resource r)) eqn:Hraw; [|destruct (negb _) eqn:Hp].
      * unfold deny. intros [(e & Hc & Hres & Hreason & _ & E)|H]%decision_cases; [left|by right]. injection E as <- <-.
        exists e. split; [|done]. split; [done|]. cbn. split_and!; try done; [by exists p|]. left.
        rewrite <- raw_object_valid. congruence.
      * unfold deny. intros [(e & Hc & Hres & Hreason & _ & E)|H]%decision_cases; [left|by right]. injection E as <- <-.
        exists e. split; [|done]. split; [done|]. cbn. split_and!; try done; [by exists p|]. right.
        apply negb_true_iff, N.eqb_neq in Hp. congruence.
      * intros [(e & Hc & Hres & Hreason & Hactor & E)|H]%decision_cases; [left|by right]. injection E as <- <-.
        exists e. split; [|done]. split; [done|]. apply negb_false_iff, N.eqb_eq in Hp. cbn. split_and!; try done.
        -- rewrite Hactor. by eapply owner_actor.
        -- by exists p.
        -- by apply raw_object_valid.
    + rewrite (audited_stop _ _ _ (Failed x) w) by done. intros [= <- <-]. right. exists x.
      split; [done|]. split; [|done]. left. symmetry. destruct p; by eapply make_actor_errors.
Qed.

(** ** Sequences of requests *)

Fixpoint serve (rs : list action_request) (w : audit_world) : list (refusal + AuthorizedProjectScope) * audit_world :=
  match rs with
  | [] => ([], w)
  | r :: rs =>
      let '(o, w) := decide_request r w in
      let '(os, w) := serve rs w in (o :: os, w)
  end.
Definition decided (o : refusal + AuthorizedProjectScope) : bool :=
  match o with inl (Failed _) => false | _ => true end.

(** C17: No authority without a record. Whatever requests arrive in whatever
    order, and whichever of them the audit sink refuses, the events that the
    log gains are, in order, one for each request that was decided: an ALLOWED
    event of an owner for each scope that was granted, and then the resolved
    owner, the exact project and the rule of raw objects agree with the
    request; a DENIED event with the reason for each refusal. An owner who is
    refused is told only that nothing was found, with status 404; a caller who
    is not resolved to the owner is told either that credentials are missing
    or invalid, with 401, or that owner access is required, with 403. A
    request whose event could not be recorded fails and grants nothing. *)
Theorem decisions_are_audited rs w :
  let '(os, w') := serve rs w in
  length os = length rs /\
  Forall (fun o => match o with inl (Failed x) => audit_failure x | _ => True end) os /\
  exists events, audit_log w' = audit_log w ++ events /\
    Forall2 (fun ro e => explains ro.1 ro.2 e) (List.filter (fun ro => decided ro.2) (zip rs os)) events.
Proof.
  revert w. induction rs as [|r rs IH]; intros w; cbn [serve].
  { split; [done|]. split; [constructor|]. exists []. by rewrite app_nil_r. }
  destruct (decide_request r w) as [o w1] eqn:E. specialize (IH w1). destruct (serve rs w1) as [os w'].
  destruct IH as (Hl & Hf & events & Hlog & He). split; [by cbn; rewrite Hl|].
  destruct (decide_request_cases r w o w1 E) as [(e & Hx & Hlog1)|(x & -> & Hx & Hlog1)].
  - split; [constructor; [|done]; destruct o as [[]|]; try done; by destruct Hx|].
    exists (e :: events). split; [by rewrite Hlog, Hlog1, <- app_assoc|].
    assert (decided o = true) as Hd by (destruct o as [[]|]; try done; by destruct Hx). cbn. rewrite Hd. by constructor.
  - split; [by constructor|]. exists events. split; [by rewrite Hlog, Hlog1|done].
Qed.

(** ** The owner is served *)

Definition visible (c : N) : bool := (c <? 128)%N && negb (ascii_space c).

Context {rtl : PyRuntimeLaws rt}.

Lemma visible_unpadded t : t <> [] -> forallb visible t = true -> padded t = false.
Proof.
  intros Hne Hv. assert (forall l, forallb visible l = true -> lstrip l = l) as Hl.
  { intros l H. apply lstrip_fix. destruct l as [|c l]; [done|]. cbn in H. apply andb_true_iff in H as [H _].
    unfold visible in H. apply andb_true_iff in H as [H1 H2]. rewrite isspace_ascii by by apply N.ltb_lt.
    by apply negb_true_iff. }
  unfold padded. rewrite bool_decide_false by done. apply negb_false_iff, str_eqb_eq. unfold strip, rstrip.
  rewrite (Hl t Hv), Hl; [by rewrite reverse_involutive|]. apply forallb_forall. intros c Hc.
  apply (proj1 (forallb_forall _ _) Hv). rewrite <- list_elem_of_In in *. by apply elem_of_reverse.
Qed.

Lemma action_unpadded a : padded (action_text a) = false.
Proof. apply visible_unpadded; by destruct a. Qed.
Lemma kind_unpadded t : padded (resource_type_text t) = false.
Proof. apply visible_unpadded; by destruct t. Qed.
Lemma granted_unpadded : padded (u "owner_project_scope_match") = false.
Proof. by apply visible_unpadded. Qed.
Lemma uuid_unpadded n : padded (uuid_str n) = false.
Proof.
  apply visible_unpadded; [by unfold uuid_str|]. apply forallb_forall. intros c Hc.
  pose proof (uuid_str_chars n) as H. rewrite Forall_forall in H. apply list_elem_of_In in Hc.
  unfold visible, ascii_space, between. destruct (H c Hc) as [->|Hx%hex_char_bound]; [done|].
  apply andb_true_iff. split; [apply N.ltb_lt; lia|]. apply negb_true_iff, orb_false_iff.
  rewrite !andb_false_iff, !N.leb_gt. lia.
Qed.

Lemma owner_actor_valid environment authorization p : settings_from_mapping environment = Ok s ->
  resolve_owner s authorization = inr p -> exists actor, actor_for_principal (Owner p) = Ok actor /\ check_actor actor = Ok tt.
Proof.
  intros Hs Hr. assert (forall id, strip id <> [] -> exists actor, make_actor OWNER (Some id) = Ok actor /\ check_actor actor = Ok tt) as Hm.
  { intros id Hid. unfold make_actor. cbn. rewrite bool_decide_false by done. eexists. split; [reflexivity|].
    cbn. by rewrite bool_decide_false. }
  unfold resolve_owner in Hr. destruct (local_auth_bypass_enabled s).
  { injection Hr as <-. apply Hm. pose proof (visible_unpadded LOCAL_DEVELOPMENT_ACTOR_ID) as H. unfold padded in H.
    intros E. rewrite E in H. discriminate H; done. }
  apply settings_valid, validate_settings_Ok in Hs as (_ & Hc & _).
  destruct (bearer_token authorization) as [token|]; [|done]. destruct (cognito s) as [c|]; [|done].
  destruct (validate_token c token); [|done]. case_bool_decide as Hid; [|done]. injection Hr as <-. subst.
  destruct (validate_cognito_Ok c (Hc c eq_refl)) as [[Hne Hst] _]. apply Hm.
  change (strip (owner_subject c) <> []). by rewrite Hst.
Qed.

(** C18: The owner can work. When the owner is resolved, the resource is one of
    the project that the request names, the action and the resource obey the
    rule of raw objects, and the clock, the identifiers and the sink of the
    auditor do what they are for, the request is granted the exact scope that
    it asks for, and the log holds the one event that says so. *)
Theorem owners_act_on_their_projects environment authorization action project kind id version resource correlation p w :
  settings_from_mapping environment = Ok s -> resolve_owner s authorization = inr p ->
  make_reference project kind id version = Ok resource -> raw_object_rule action resource ->
  correlation <> 0%N -> event_id_at env (audit_calls w) <> 0%N -> utcoffset (audit_clock env (audit_calls w)) <> None ->
  (forall event, sink_accepts env (audit_calls w) event = true) ->
  exists event, authorize_request env s authorization action project resource correlation w =
    (inr {| scope_principal := p; scope_project_id := project; scope_action := action; scope_resource := resource |},
     extended w event) /\
    ev_result event = ALLOWED /\ ev_reason event = u "owner_project_scope_match" /\ correlation_id event = correlation.
Proof.
  intros Hs Hr Hres Hraw%raw_object_valid Hc He Ht Hsink. unfold authorize_request. rewrite Hr. unfold authorize.
  destruct (owner_actor_valid _ _ _ Hs Hr) as (actor & Ha & Hca). rewrite Ha, Hraw.
  unfold make_reference in Hres. apply bind_Ok in Hres as ([] & _ & Hres). apply bind_Ok in Hres as ([] & Hv%raise_if_Ok & [= <-]).
  cbn [res_project_id]. rewrite N.eqb_refl. rewrite (audited_step _ _ _ actor w) by done. cbn [negb].
  eexists. split; [etransitivity; [apply audited_step; unfold record_decision; apply record_event_accepted; [|apply Hsink]|reflexivity]|by split_and!].
  unfold check_event. cbn [audit_event event_id correlation_id occurred_at ev_actor ev_action ev_reason resource_type resource_id
    ev_resource_version ev_project_id res_type res_id resource_version]. rewrite !(proj2 (N.eqb_neq _ _)) by done.
  destruct (utcoffset _) eqn:Hu; [|done]. cbn [orb raise_if is_null]. rewrite !bind_ok, Hca, bind_ok.
  cbn [try_iter fst snd]. rewrite action_unpadded, granted_unpadded, kind_unpadded.
  rewrite uuid_unpadded, Hv. cbn [raise_if]. rewrite !bind_ok. by rewrite uuid_unpadded.
Qed.
End decisions.
End authorization.

(** ** A concrete grant *)

Definition sample_audit : audit_environment := {|
  event_id_at n := N.of_nat (S n); audit_clock _ := {| wall := 0; utcoffset := Some 0 |};
  sink_accepts _ _ := true |}.
Definition sample_resource : ProjectResourceReference := {|
  res_project_id := 7; res_type := RAW_OBJECT; res_id := 9; resource_version := Some (u "v3") |}.

(** Another's project is not disclosed, and the refusal is recorded. *)
Example other_project_refused :
  let '(o, w) := authorize_request sample_audit sample_settings (Some (u "Bearer alice")) READ_RAW_OBJECT 8 sample_resource 5
                   {| audit_log := []; audit_calls := 0 |} in
  o = inl (Denied (denial (u "project_scope_mismatch"))) /\ ev_result <$> audit_log w = [DENIED].
Proof. vm_compute. split; reflexivity. Qed.

Lemma owners_act_on_their_projects_witness :
  exists event, authorize_request sample_audit sample_settings (Some (u "Bearer alice")) READ_RAW_OBJECT 7 sample_resource 5
    {| audit_log := []; audit_calls := 0 |} =
    (inr {| scope_principal := CognitoOwnerPrincipal sample_issuer (u "alice"); scope_project_id := 7;
            scope_action := READ_RAW_OBJECT; scope_resource := sample_resource |},
     extended {| audit_log := []; audit_calls := 0 |} event) /\
    ev_result event = ALLOWED /\ ev_reason event = u "owner_project_scope_match" /\ correlation_id event = 5%N.
Proof.
  apply (owners_act_on_their_projects sample_audit sample_settings sample_environment (Some (u "Bearer alice"))
    READ_RAW_OBJECT 7 RAW_OBJECT 9 (Some (u "v3")) sample_resource 5 (CognitoOwnerPrincipal sample_issuer (u "alice"))
    {| audit_log := []; audit_calls := 0 |}).
  - vm_compute. reflexivity.
  - vm_compute. reflexivity.
  - vm_compute. reflexivity.
  - split; [split; intros; reflexivity|intros _ H; discriminate H].
  - discriminate.
  - discriminate.
  - discriminate.
  - reflexivity.
Defined.
